(* ===== verification/_CoqProject ===== *)
-Q . S2P
Prelude.v
Crash.v
PyValue.v
PyText.v
Toml.v
ConfigSchema.v
ConfigFiles.v
Proto.v
CameraState.v
Coordinator.v
QualityControl.v
Provisioning.v
Identity.v
Trigger.v
Dispatch.v
NetworkSettings.v
WifiStation.v
NetworkApply.v
Watchdog.v
StreamMux.v
Sessions.v
GpioTrigger.v
Avi.v
MediaLibrary.v
MediaBuild.v
AdminAuth.v
LoginLimiter.v
Redact.v
SetupWizard.v
AdminHttp.v
Updater.v
Releases.v
UpdaterInstall.v
UpdaterCalls.v
MqttTopics.v
MqttState.v
MqttService.v
FileTree.v
FactoryReset.v
Migrations.v
RuntimeIpc.v
Connect.v
UpdateControl.v
