(* ===== verification/Prelude.v ===== *)
(** * PiBuddyCam: a verification library

    PiBuddyCam ([src/app/*.py]) makes a Raspberry Pi behave as a Prusa Buddy3D camera.
    It talks to Prusa Connect in a protobuf wire format, keeps a small set of settings
    that several parties change, fans out an H.264 stream, records timelapses and builds
    videos of them, provisions itself and its network on an appliance without a display,
    serves an administration console, joins Home Assistant over MQTT, can be reset, and
    installs signed updates.  This library models the parts with logic of their own as
    executable definitions and proves what makes them correct.

    ** Conventions

    A Python string is a list of code points and a byte string a list of bytes ([pystr],
    [bytes]: lists of [Z]); integers are [Z], with the width written out where the code
    packs or masks them.  [pyval] ([PyValue]) is a Python object as JSON, TOML or a
    decoder yields it, with the equality, truth and [int()] of the language.  A call
    returns or raises ([res]); [PyM W A] is a call that reads and writes a world [W],
    and keeps the changes made before it raised.  Sub-processes, clocks, random sources,
    hash functions, file access that may be refused, JSON and cookie parsing, and the
    Unicode tables are parameters: arguments of a Section, fields of an [io] record, a
    [host] or [backend] record, or the class [UnicodeDB]; what a theorem relies on of
    them is a named hypothesis or a class ([ClockOk], [StampOk], [BaseHooksOk],
    [PlainHosts]).

    ** Files

    - [Prelude]: outcomes, the effect monad, tactics, pigeonhole lemmas.
    - [Crash]: triples over effects that keep the list of the states they went through;
      its class [Logged] is what a file system gives, so that an interruption is a point
      of that list.
    - [PyText]: the text operations that several parts share: cutting and joining, the
      order of strings, decimal text, replacing, and the splitting of URLs.
    - [Toml], [ConfigSchema], [ConfigFiles] ([config_schema.py]): the TOML writer and
      the reader of what it writes, the strict documents, their migration, and the files
      on a disk on which any operation may fail.  C26, C27, C28, C35: only documented
      keys are accepted, what was saved loads as it was, an interrupted write leaves the
      old or the new file, two documents are saved together; also that no error tells a
      secret.
    - [PyValue]: Python values, dictionaries, UTF-8, [strip], [int], packed integers,
      decimal text, and [_sanitize_reason] of [provisioning.py].
    - [Proto] ([proto.py]): varints, fields, messages, the signalling message, ICE
      configuration.  C1: encoding and decoding are inverse, the two decoders agree;
      also that candidates are found safely, the nested walks end, and one input that
      raises.
    - [CameraState] ([state.py], the rules of [rotation.py], [gpio_pins.py],
      [timelapse.py], [timezone.py]): the settings, their setters, saving and restoring.
      Any document restores to settings in range, and saving and restoring is the
      identity.
    - [Coordinator] ([settings_coordinator.py] with [quality_control.handle_quality],
      [rtsp_control], [webrtc_control]): every mutation, its rollback and commit order.
    - [QualityControl] ([quality.py], [quality_control.py], [settings_store.py], the
      hooks of [main.py]): the tier file, the live change, the state document, and the
      coordinator with the hooks [main] gives it.  C2, C30: safety of every mutation,
      whether or not its files can be written, and survival of a restart where they
      were; also the round trip and atomicity of the tier, and the exception to it.
    - [Provisioning] ([provisioning.py], [boot_mode.py]): the state machine, its
      persistence, the boot selector.  C4, C29: memory agrees with the disk in every
      reachable world, progress to the milestone, the claim rule and its recovery
      exception, the fail-closed boot.
    - [Identity] ([identity.py], the names of [provisioning.py]): the device id is
      stable, the derived names are valid.
    - [Trigger] ([trigger.py]): the plan of a message is exactly the documented one.
    - [Dispatch] ([settings_dispatch.py]): the envelope is truthful.
    - [NetworkSettings] ([network_settings.py]), [WifiStation] ([wifi_station.py]),
      [NetworkApply] ([network_apply.py]), [Watchdog] ([network_watchdog.py]):
      validation, the [nmcli] commands and the credential file, the transaction with its
      revert, and the outage watchdog.  C11, C33: the transaction's outcomes, and the
      hotspot after an outage; also the termination of the health check, no hotspot
      without an outage, secrecy of the password and its exception, stable validation.
    - [StreamMux] ([stream_mux.py]).  C32: the SPS patch and the bounded, clean fan-out.
    - [Sessions] (the sessions of [timelapse.py]), [GpioTrigger] ([gpio_trigger.py]).
      Owned lines and safe deletion, fresh sessions, the rate limit, and one session per
      print.
    - [Avi] (the videos of [timelapse.py]).  C14: the streaming writer is the writer in
      memory with an exact index; also that a build is safe.
    - [MediaLibrary] ([media_library.py], the index of [timelapse.py]).  C36: a range is
      exactly what the header names; also that the catalogue is exactly the media files
      of the directory.
    - [MediaBuild] ([media_build.py]): the build manager as a state machine over
      interleaved critical sections.  C13: one build at a time in every interleaving;
      also that a queued session is never forgotten unless it is given up, that a stop
      is honoured and how a session can be stranded.
    - [AdminAuth], [LoginLimiter], [Redact] ([admin_auth.py]).  C15, C18: the rate
      limiter refines a window that forgets nothing, a live session was created and not
      ended; also that secrets do not survive redaction and a stored hash verifies
      exactly its password.
    - [SetupWizard] ([setup_wizard.py], the hand-off rule of [camera_probe.py]): the
      steps of the first boot.  C19, C20, C34: only a hand-over claims the appliance and
      then its documents are on the disk, no failure leaves it without the setup hotspot
      being asked for, and the setup can be completed; also that a refusal stages
      nothing, that the summary tells no secret, and three surprises.
    - [AdminHttp] (the gate of [admin_http.py]).  C3: a guarded handler runs only for a
      request with a session (and CSRF token, and recent password) that a login of the
      history made; no route shadows another and every change of state is guarded.
    - [Updater] ([updater.py]).  C5, C16: an archive is accepted iff every member is
      safe, an accepted manifest is well typed; also that nothing is unpacked before all
      checks, and versions are parsed as specified.
    - [Releases] (the release directory of [updater_install.py]): the links, versions
      and marks on a disk on which any operation may fail; the switch, the roll-back,
      the pruning and the recovery.  The state keeps every directory the disk went
      through, so that an interruption is a point of that history.
    - [UpdaterInstall] (the installation and the commands of [updater_install.py]).  C6,
      C7, C37: a release runs only after every check, an interruption at any point
      recovers, and one that failed is not tried again; also that the exit code tells
      what runs, that a release is offered exactly when it should be, one failure that
      is reported as a roll-back, and a state document that raises.
    - [UpdaterCalls] (the callables of [updater_install.py]): preflight, environment,
      services, endpoints and download.  C17: what they promise of an installed release.
    - [MqttTopics] ([mqtt_topics.py]), [MqttState] ([mqtt_state.py]), [MqttService]
      ([mqtt_service.py]): the topics, the two documents, and the service as a world
      with the broker calls made, the threads that wait and the callables that are late.
      C10, C12, C24, C25: the documents are typed and hide secrets, discovery and topics
      agree, a message does at most the one thing it asks for, and a command ends in one
      document of the settings it left; also that only topics of this device are
      commands, and five surprises.
    - [FileTree], [FactoryReset] ([factory_reset.py]): a file tree with links on which
      any operation may fail, and the reset on it.  C8, C9, C21: it takes two
      confirmations, touches nothing outside the data root, and at every moment (as a
      killed process would leave it: a power cut that loses writes which were not synced
      is not modelled) each document is in its place or in the backup; also that the
      backup is deleted only after a claimed boot, and three surprises.
    - [RuntimeIpc] ([runtime_ipc.py]): bounding, one exchange, and the accept loop as an
      interleaving.  C22: the client gets the bounded answer of the handler it asked
      for; also that nothing but an allowed operation runs, and that no slot is lost
      without a stop.
    - [Connect] ([http_result.py], [info_service.py] with its loop in [main.py],
      [auth.py], [device_control.py], the answer in [timezone.py]): outcomes, retries
      and the upload of the device information.  C23, C38: attempts are bounded, the
      first upload included, and the state is delivered; also that reboots are spaced,
      and two changes that are lost.

    - [UpdateControl] ([update_control.py]): the view of the updates, and the manager of
      checks and installs as an interleaving.  C40: one action of a kind at a time, and
      none shut out for good; also that the view hides the source of an update, and how
      an action that outlives its deadline breaks the exclusion.
    - [Migrations] ([migrations.py]): the fixes of the root file system, on [FileTree],
      and their runner.  C31, C39: each runs until it succeeds and then never again, and
      an edit that reports success is in the file; also what an interruption, a link and
      a damaged state file do.

    ** How the parts meet

    [Trigger] decodes with [Proto]; [Dispatch] carries a mutation to [Coordinator],
    which changes [CameraState] and calls the hooks of [QualityControl]; the class
    [HooksOk] states what the coordinator needs of its hooks, which [main_hooks] meets
    while the file of the tier can be written.  [NetworkApply] runs [WifiStation] on
    what [NetworkSettings] accepted, and [Watchdog] uses its health check on the same
    [host].  [GpioTrigger] opens and closes the sessions of [Sessions]; [Avi] builds
    what they hold; [MediaBuild] decides when, on the frames [MediaLibrary] lists.
    [AdminHttp] asks [Provisioning] for the state and keeps the sessions of [AdminAuth]
    and the attempts of [LoginLimiter].  [UpdaterInstall] switches the links of
    [Releases] after the checks of [Updater], through callables that [UpdaterCalls]
    defines; [OutsideOk] states what it needs of the rest of the disk.  [SetupWizard]
    saves with [ConfigFiles], hashes with [AdminAuth], advances the state of
    [Provisioning] and shows a summary through [Redact].  [ConfigFiles] writes what
    [ConfigSchema] accepts in the syntax of [Toml]; [PlainHosts] states what the check
    of a broker address needs of the URL parser.  [MqttService] takes the command from
    [MqttTopics], runs it on [Coordinator] at the moment that the loop timing of
    [Dispatch] says, and sends the document of [MqttState] for the settings it finds;
    its theorem on commands is about [main_hooks].  [FactoryReset] and [Migrations] see
    the disk through [FileTree] only.

    ** Fuel

    Loops that are not structural take fuel, with a proof that it is enough.  The
    decoders, the JPEG scan and the SPS patch use the length of their input; the health
    check of sixty seconds needs 31 polls of two seconds (C11); the searches for a free
    session, video name, backup or token need one try more than there are entries; the
    walk of a directory goes as deep as the longest path of the tree, and forty links
    are followed, as the kernel does; the nested walks need the nesting of their input.

    ** Not modelled

    Transports and services over third-party libraries (Socket.IO, aiohttp, the adapter
    to paho, GStreamer), the handlers of the console behind its gate, and the system
    administration scripts.  Of the modelled files: console output and logging, the
    ioctl calls of [gpio_trigger.py], [NetworkController] and the scan of
    [network_settings.py], the file list of [timelapse.py], and the random reconnect
    delays of [mqtt_service.py]; [tomllib] beyond what the writer writes.  Candidates
    for an extension, in this order: [NetworkController] with the hotspot commands, the
    documents of the console ([live_monitor.py]), and the decisions of the camera
    process ([scheduling.py], [status.py]). *)
From stdpp Require Export base tactics option list numbers gmap strings sorting.
From Stdlib Require Export ZArith.
From coqutil Require Export Datatypes.RecordSetters.
Export DoubleBraceUpdate.
#[global] Open Scope Z_scope.
#[global] Set Default Goal Selector "!".

(** ** Outcomes and the effect monad

    A Python call returns a value or raises.  [PyM W A] is a call that reads and
    writes a world [W]; the world reached so far is kept when it raises, as a
    Python exception does not undo assignments. *)

Inductive exn :=
  | ValueError | TypeError | KeyError | OSError | FileNotFound
  | TimeoutExpired | RuntimeError | ConfigError | BuildCancelled | RangeNotSatisfiable | OtherError.

#[global] Instance exn_eq_dec : EqDecision exn.
Proof. solve_decision. Defined.

Inductive res (A : Type) :=
  | Ret (a : A)
  | Raise (e : exn).
Arguments Ret {A} a.
Arguments Raise {A} e.

#[global] Instance res_ret : MRet res := λ A a, Ret a.
#[global] Instance res_bind : MBind res := λ A B f m,
  match m with Ret a => f a | Raise e => Raise e end.

Definition PyM (W A : Type) : Type := W → res A * W.

#[global] Instance pym_ret W : MRet (PyM W) := λ A a w, (Ret a, w).
#[global] Instance pym_bind W : MBind (PyM W) := λ A B f m w,
  match m w with
  | (Ret a, w') => f a w'
  | (Raise e, w') => (Raise e, w')
  end.

Definition get {W} : PyM W W := λ w, (Ret w, w).
Definition modify {W} (f : W → W) : PyM W unit := λ w, (Ret tt, f w).
Definition raise {W A} (e : exn) : PyM W A := λ w, (Raise e, w).

(** A call that does not touch the world. *)
Definition of_res {W A} (r : res A) : PyM W A := λ w, (r, w).

(** [try: m except <caught>: handler]. *)
Definition try_except {W A} (caught : exn → bool) (m : PyM W A) (handler : exn → PyM W A) : PyM W A :=
  λ w, match m w with
       | (Ret a, w') => (Ret a, w')
       | (Raise e, w') => if caught e then handler e w' else (Raise e, w')
       end.

(** [except Exception]. *)
Definition any_exception (e : exn) : bool := true.
(** [except OSError]: [FileNotFoundError] and [TimeoutError] are subclasses,
    [subprocess.TimeoutExpired] is not. *)
Definition os_error (e : exn) : bool :=
  match e with OSError | FileNotFound => true | _ => false end.

(** Case analysis on the conditionals and matches of a goal or hypothesis. *)
Ltac split_match :=
  match goal with
  | |- context [match ?x with _ => _ end] => destruct x eqn:?
  | |- context [if ?x then _ else _] => destruct x eqn:?
  end.
Ltac split_match_in H :=
  match type of H with
  | context [match ?x with _ => _ end] => destruct x eqn:?
  | context [if ?x then _ else _] => destruct x eqn:?
  end.

Create HintDb buddy.

(** Among more names than entries of a map, one is free. *)
Lemma free_name `{Countable K} {V} (m : gmap K V) (name : nat → K) :
  (∀ i j, name i = name j → i = j) → ∃ i, (i ≤ size m)%nat ∧ m !! name i = None.
Proof.
  intros Hinj. destruct (decide (Forall (λ i, is_Some (m !! name i)) (seq 0 (S (size m))))) as [Hall|Hn].
  - exfalso. set (names := name <$> seq 0 (S (size m))).
    assert (NoDup names) as Hnd by (apply NoDup_fmap_2; [intros i j; apply Hinj|apply NoDup_seq]).
    assert (list_to_set (C := gset K) names ⊆ dom m) as Hsub.
    { intros n (i & -> & Hi)%elem_of_list_to_set%list_elem_of_fmap. apply elem_of_dom.
      by apply (proj1 (Forall_forall _ _) Hall). }
    apply subseteq_size in Hsub. rewrite size_list_to_set, size_dom in Hsub by done.
    unfold names in Hsub. rewrite length_fmap, length_seq in Hsub. lia.
  - apply not_Forall_Exists, Exists_exists in Hn as (i & Hi%elem_of_seq & Hnone); [|apply _].
    exists i. split; [lia|]. by apply eq_None_not_Some.
Qed.

(** The same for a list. *)
Lemma fresh_index {A} `{!EqDecision A} (l : list A) (name : nat → A) (k : nat) :
  (∀ i j, name i = name j → i = j) → ∃ i, (i ≤ length l)%nat ∧ name (k + i)%nat ∉ l.
Proof.
  intros Hinj. destruct (decide (Forall (λ i, name (k + i)%nat ∈ l) (seq 0 (S (length l))))) as [Hall|Hn].
  - exfalso. set (names := (λ i, name (k + i)%nat) <$> seq 0 (S (length l))).
    assert (NoDup names) as Hnd by (apply NoDup_fmap_2; [intros i j Hij%Hinj; lia|apply NoDup_seq]).
    assert (length names ≤ length l)%nat as Hle.
    { apply NoDup_incl_length; [by apply NoDup_ListNoDup|].
      intros x (i & -> & Hi)%list_elem_of_In%list_elem_of_fmap. apply list_elem_of_In.
      by apply (proj1 (Forall_forall _ _) Hall). }
    unfold names in Hle. rewrite length_fmap, length_seq in Hle. lia.
  - apply not_Forall_Exists, Exists_exists in Hn as (i & Hi%elem_of_seq & Hnone); [|apply _]. exists i. split; [lia|done].
Qed.
