(* ===== verification/Crash.v ===== *)
(** Reasoning about effects that can be interrupted.  A world keeps the list of the states
    it went through, so that a crash, or what an observer sees in between, is a point of
    that list; [along] is a Hoare triple that also speaks of every such state. *)
From S2P Require Import Prelude.

(** The states that a world of type [W] went through so far. *)
Class Logged (W S : Type) := past : W → list S.
#[global] Hint Mode Logged + - : typeclass_instances.

Section Passed.
Context {W S : Type} `{Logged W S}.
(** Every state between [w] and [w'] satisfies [I]. *)
Definition passed (I : S → Prop) (w w' : W) : Prop := ∃ new, past w' = past w ++ new ∧ Forall I new.

Lemma passed_refl I w : passed I w w.
Proof. exists []. by rewrite app_nil_r. Qed.
Lemma passed_trans I w1 w2 w3 : passed I w1 w2 → passed I w2 w3 → passed I w1 w3.
Proof. intros (a & H1 & Ha) (b & H2 & Hb). exists (a ++ b). rewrite H2, H1, Forall_app, app_assoc. done. Qed.
Lemma passed_weaken (I I' : S → Prop) w w' : passed I w w' → (∀ s, I s → I' s) → passed I' w w'.
Proof. intros (new & Hn & Hf) HI. exists new. split; [done|]. by eapply Forall_impl. Qed.
Lemma passed_one (I : S → Prop) s w w' : past w' = past w ++ [s] → I s → passed I w w'.
Proof. intros Hw HI. exists [s]. split; [done|]. by constructor. Qed.
Lemma passed_same (I : S → Prop) w w' : past w' = past w → passed I w w'.
Proof. intros Hw. exists []. by rewrite app_nil_r. Qed.
Lemma passed_length I w w' : passed I w w' → (length (past w) ≤ length (past w'))%nat.
Proof. intros (new & -> & _). rewrite length_app. lia. Qed.
(** What held of all states so far and of the new ones holds of all. *)
Lemma passed_past I w w' : passed I w w' → Forall I (past w) → Forall I (past w').
Proof. intros (new & -> & Hn) Hp. by apply Forall_app. Qed.

(** From [w], [m] ends in [Q], and every state on the way satisfies [I]. *)
Definition along {A} (m : PyM W A) (I : S → Prop) (Q : res A → W → Prop) (w : W) : Prop :=
  passed I w (m w).2 ∧ Q (m w).1 (m w).2.

Lemma along_ret {A} (a : A) I (Q : res A → _) w : Q (Ret a) w → along (mret a) I Q w.
Proof. intros HQ. split; [apply passed_refl|done]. Qed.
Lemma along_raise {A} e I (Q : res A → _) w : Q (Raise e) w → along (raise e) I Q w.
Proof. intros HQ. split; [apply passed_refl|done]. Qed.
Lemma along_mono {A} (m : PyM W A) (I I' : S → Prop) (Q Q' : res A → W → Prop) w :
  along m I Q w → (∀ s, I s → I' s) → (∀ r w', passed I w w' → Q r w' → Q' r w') → along m I' Q' w.
Proof. intros [Hp HQ] HI HQ'. split; [by eapply passed_weaken|by apply HQ']. Qed.
Lemma along_bind {A B} (m : PyM W A) (f : A → PyM W B) I Q w :
  along m I (λ r w', match r with Ret a => along (f a) I Q w' | Raise e => Q (Raise e) w' end) w → along (m ≫= f) I Q w.
Proof.
  unfold along, mbind, pym_bind. destruct (m w) as [[a|e] w1]; cbn; [|done]. intros [Hp [Hp2 HQ]].
  split; [by eapply passed_trans|done].
Qed.
Lemma along_try {A} (caught : exn → bool) (m : PyM W A) h I Q w :
  along m I (λ r w', match r with Raise e => if caught e then along (h e) I Q w' else Q (Raise e) w' | Ret a => Q (Ret a) w' end) w →
  along (try_except caught m h) I Q w.
Proof.
  unfold along, try_except. destruct (m w) as [[a|e] w1]; cbn; [done|]. intros [Hp HQ]. destruct (caught e); [|done].
  destruct HQ as [Hp2 HQ]. split; [by eapply passed_trans|done].
Qed.
End Passed.
#[export] Hint Resolve passed_refl : buddy.

(** ** Without interruptions

    From [w], [m] ends in [Q]. *)
Definition leads {W A} (m : PyM W A) (Q : res A → W → Prop) (w : W) : Prop := Q (m w).1 (m w).2.

Section Leads.
Context {W : Type}.
Lemma leads_ret {A} (a : A) (Q : res A → W → Prop) w : Q (Ret a) w → leads (mret a) Q w.
Proof. done. Qed.
Lemma leads_raise {A} e (Q : res A → W → Prop) w : Q (Raise e) w → leads (raise e) Q w.
Proof. done. Qed.
Lemma leads_modify (f : W → W) (Q : res unit → W → Prop) w : Q (Ret tt) (f w) → leads (modify f) Q w.
Proof. done. Qed.
Lemma leads_mono {A} (m : PyM W A) (Q Q' : res A → W → Prop) w : leads m Q w → (∀ r w', Q r w' → Q' r w') → leads m Q' w.
Proof. intros HQ HQ'. by apply HQ'. Qed.
Lemma leads_bind {A B} (m : PyM W A) (f : A → PyM W B) Q w :
  leads m (λ r w', match r with Ret a => leads (f a) Q w' | Raise e => Q (Raise e) w' end) w → leads (m ≫= f) Q w.
Proof. unfold leads, mbind, pym_bind. by destruct (m w) as [[a|e] w1]. Qed.
Lemma leads_try {A} (caught : exn → bool) (m : PyM W A) h Q w :
  leads m (λ r w', match r with Raise e => if caught e then leads (h e) Q w' else Q (Raise e) w' | Ret a => Q (Ret a) w' end) w →
  leads (try_except caught m h) Q w.
Proof. unfold leads, try_except. destruct (m w) as [[a|e] w1]; cbn; [done|]. by destruct (caught e). Qed.
End Leads.
