(* ===== verification/PyValue.v ===== *)
(** Python values as the runtime sees them: text as code points, byte strings,
    dynamically typed values, insertion-ordered dicts, the UTF-8 codec and the
    few [str] methods the sources call. *)
From S2P Require Import Prelude.
From Stdlib Require Import SpecFloat Wf_nat.

(** A [str] is its sequence of code points, a [bytes] its sequence of octets. *)
Abbreviation pystr := (list Z).
Abbreviation bytes := (list Z).

(** A literal of the source. *)
Definition u (s : string) : pystr :=
  map (λ a, Z.of_N (Ascii.N_of_ascii a)) (String.list_ascii_of_string s).
#[global] Arguments u : simpl never.

(** The dynamic values that reach the code: decoded JSON, protobuf fields,
    control messages. *)
#[warnings="-register-all"]
Inductive pyval :=
  | VNone
  | VBool (b : bool)
  | VInt (z : Z)
  | VFloat (f : spec_float)
  | VStr (s : pystr)
  | VBytes (b : bytes)
  | VList (l : list pyval)
  | VDict (d : list (pyval * pyval)).

(** Induction over nested values. *)
Lemma pyval_nested_ind (P : pyval → Prop) :
  (∀ v, match v with VList _ | VDict _ => True | _ => P v end) →
  (∀ l, Forall P l → P (VList l)) → (∀ d, Forall (λ kv, P kv.2) d → P (VDict d)) → ∀ v, P v.
Proof.
  intros Hleaf Hlist Hdict. fix IH 1. intros v. destruct v as [|b|z|f|s|b|l|d];
    [exact (Hleaf VNone)|exact (Hleaf (VBool b))|exact (Hleaf (VInt z))|exact (Hleaf (VFloat f))|exact (Hleaf (VStr s))
    |exact (Hleaf (VBytes b))| |].
  - apply Hlist. induction l as [|x l IHl]; constructor; [apply IH|exact IHl].
  - apply Hdict. induction d as [|[k x] d IHd]; constructor; [apply IH|exact IHd].
Qed.

(** [f == z] for a float and an int. *)
Definition float_eq_Z (f : spec_float) (z : Z) : bool :=
  match f with
  | S754_zero _ => z =? 0
  | S754_finite s m e =>
      let v := if s then Z.neg m else Z.pos m in
      if 0 <=? e then v * 2 ^ e =? z else v =? z * 2 ^ (- e)
  | _ => false
  end.

(** [v == z]: [True == 1], [1.0 == 1]. *)
Definition eq_int (v : pyval) (z : Z) : bool :=
  match v with
  | VBool b => (if b then 1 else 0) =? z
  | VInt n => n =? z
  | VFloat f => float_eq_Z f z
  | _ => false
  end.

Definition eq_str (v : pyval) (s : pystr) : bool :=
  match v with VStr t => bool_decide (t = s) | _ => false end.

(** [bool(v)]. *)
Definition truthy (v : pyval) : bool :=
  match v with
  | VNone => false
  | VBool b => b
  | VInt z => negb (z =? 0)
  | VFloat (S754_zero _) => false
  | VFloat _ => true
  | VStr s => negb (bool_decide (s = []))
  | VBytes b => negb (bool_decide (b = []))
  | VList l => match l with [] => false | _ => true end
  | VDict d => match d with [] => false | _ => true end
  end.

(** [type(v) is int]: a [bool] is not. *)
Definition as_int (v : pyval) : option Z :=
  match v with VInt z => Some z | _ => None end.
(** [isinstance(v, str)], [type(v) is bool]. *)
Definition as_str (v : pyval) : option pystr :=
  match v with VStr s => Some s | _ => None end.
Definition as_bool (v : pyval) : option bool :=
  match v with VBool b => Some b | _ => None end.
(** Lists and dicts are unhashable: using one as a dict key raises [TypeError]. *)
Definition hashable (v : pyval) : bool :=
  match v with VList _ | VDict _ => false | _ => true end.

(** ** Insertion-ordered dicts *)

Section dict.
Context {K V : Type} `{!EqDecision K}.

(** [d.get(k)]. *)
Fixpoint dict_get (k : K) (d : list (K * V)) : option V :=
  match d with
  | [] => None
  | (k', v) :: d' => if decide (k = k') then Some v else dict_get k d'
  end.

(** [d[k] = v]: an existing key keeps its position. *)
Fixpoint dict_set (k : K) (v : V) (d : list (K * V)) : list (K * V) :=
  match d with
  | [] => [(k, v)]
  | (k', v') :: d' =>
      if decide (k = k') then (k', v) :: d' else (k', v') :: dict_set k v d'
  end.

Lemma dict_get_set_eq k v d : dict_get k (dict_set k v d) = Some v.
Proof.
  induction d as [|[k' v'] d IH]; simpl; [by rewrite decide_True|].
  case_decide; simpl; [by rewrite decide_True|by rewrite decide_False].
Qed.

Lemma dict_get_set_ne k k' v d : k ≠ k' → dict_get k (dict_set k' v d) = dict_get k d.
Proof.
  intros Hne. induction d as [|[k0 v0] d IH]; simpl; [by rewrite decide_False|].
  case_decide; simpl; subst; case_decide; simpl; congruence.
Qed.

Lemma dict_set_app_fresh k v d : dict_get k d = None → dict_set k v d = d ++ [(k, v)].
Proof.
  induction d as [|[k' v'] d IH]; simpl; [done|].
  case_decide as Hk; [done|]. intros Hd. by rewrite IH.
Qed.

Lemma dict_get_app k d1 d2 :
  dict_get k (d1 ++ d2) = match dict_get k d1 with Some v => Some v | None => dict_get k d2 end.
Proof. induction d1 as [|[k' v'] d IH]; simpl; [done|]. by case_decide. Qed.

Lemma dict_get_None k d : dict_get k d = None ↔ k ∉ d.*1.
Proof.
  induction d as [|[k' v'] d IH]; simpl; [by split; [intros _; apply not_elem_of_nil|]|].
  case_decide as Hk; rewrite elem_of_cons; [|rewrite IH]; naive_solver.
Qed.

Lemma dict_get_Some_elem k v d : dict_get k d = Some v → (k, v) ∈ d.
Proof.
  induction d as [|[k' v'] d IH]; simpl; [done|].
  case_decide as Hk; [intros [= ->]; rewrite Hk; left|]. intros Hd; right; auto.
Qed.

Lemma dict_get_elem k v d : NoDup d.*1 → dict_get k d = Some v ↔ (k, v) ∈ d.
Proof.
  intros Hnd. split; [apply dict_get_Some_elem|].
  induction d as [|[k' v'] d IH]; simpl; [by intros ?%not_elem_of_nil|].
  simpl in Hnd. apply NoDup_cons in Hnd as [Hk Hnd]. intros [[= -> ->]|Hin]%elem_of_cons.
  - by rewrite decide_True.
  - rewrite decide_False; [auto|]. intros ->. apply Hk, list_elem_of_fmap. by exists (k', v).
Qed.

Lemma dict_get_perm k d d' : NoDup d.*1 → d ≡ₚ d' → dict_get k d = dict_get k d'.
Proof.
  intros Hnd Hp. apply option_eq. intros v.
  rewrite !dict_get_elem by (by rewrite <-?Hp). by rewrite Hp.
Qed.

(** Building a dict from items with distinct keys keeps the items. *)
Lemma dict_of_items d l :
  NoDup (d ++ l).*1 → foldl (λ d kv, dict_set kv.1 kv.2 d) d l = d ++ l.
Proof.
  revert d. induction l as [|[k v] l IH]; intros d Hnd; simpl; [by rewrite app_nil_r|].
  rewrite dict_set_app_fresh.
  - rewrite IH; rewrite <-app_assoc; done.
  - apply dict_get_None. rewrite fmap_app in Hnd. apply NoDup_app in Hnd as (_ & Hd & _).
    intros Hin. apply (Hd k Hin). left.
Qed.
End dict.

(** ** The UTF-8 codec

    [utf8_step] reads one scalar value: [Good cp rest], or [Bad n rest] after the
    longest prefix of [n] bytes that could have started a character. *)

Inductive utf8_result :=
  | Good (cp : Z) (rest : bytes)
  | Bad (rest : bytes).

Definition in_range (lo hi b : Z) : bool := (lo <=? b) && (b <=? hi).
Definition cont_byte (b : Z) : bool := in_range 128 191 b.

(** The range of the second byte of a three- or four-byte sequence. *)
Definition second_ok3 (b0 b1 : Z) : bool :=
  if b0 =? 224 then in_range 160 191 b1
  else if b0 =? 237 then in_range 128 159 b1
  else cont_byte b1.
Definition second_ok4 (b0 b1 : Z) : bool :=
  if b0 =? 240 then in_range 144 191 b1
  else if b0 =? 244 then in_range 128 143 b1
  else cont_byte b1.

Definition utf8_step (b0 : Z) (rest : bytes) : utf8_result :=
  if in_range 0 127 b0 then Good b0 rest
  else if in_range 194 223 b0 then
    match rest with
    | b1 :: r => if cont_byte b1 then Good ((b0 - 192) * 64 + (b1 - 128)) r else Bad rest
    | [] => Bad rest
    end
  else if in_range 224 239 b0 then
    match rest with
    | b1 :: r1 =>
        if negb (second_ok3 b0 b1) then Bad rest else
        match r1 with
        | b2 :: r2 =>
            if cont_byte b2
            then Good ((b0 - 224) * 4096 + (b1 - 128) * 64 + (b2 - 128)) r2 else Bad r1
        | [] => Bad r1
        end
    | [] => Bad rest
    end
  else if in_range 240 244 b0 then
    match rest with
    | b1 :: r1 =>
        if negb (second_ok4 b0 b1) then Bad rest else
        match r1 with
        | b2 :: r2 =>
            if negb (cont_byte b2) then Bad r1 else
            match r2 with
            | b3 :: r3 =>
                if cont_byte b3
                then Good ((b0 - 240) * 262144 + (b1 - 128) * 4096 + (b2 - 128) * 64 + (b3 - 128)) r3
                else Bad r2
            | [] => Bad r2
            end
        | [] => Bad r1
        end
    | [] => Bad rest
    end
  else Bad rest.

Definition step_rest (r : utf8_result) : bytes :=
  match r with Good _ l | Bad l => l end.

Lemma utf8_step_shrinks b0 rest : (length (step_rest (utf8_step b0 rest)) <= length rest)%nat.
Proof. unfold utf8_step. repeat (split_match; simpl); lia. Qed.

(** [raw.decode('utf-8')]: [None] is [UnicodeDecodeError]. *)
Fixpoint utf8_decode_fuel (n : nat) (l : bytes) : option pystr :=
  match n, l with
  | _, [] => Some []
  | O, _ => None
  | S n, b0 :: rest =>
      match utf8_step b0 rest with
      | Good cp r => (cp ::.) <$> utf8_decode_fuel n r
      | Bad _ => None
      end
  end.
Definition utf8_decode (l : bytes) : option pystr := utf8_decode_fuel (length l) l.

(** [raw.decode('utf-8', 'replace')]. *)
Fixpoint utf8_replace_fuel (n : nat) (l : bytes) : pystr :=
  match n, l with
  | _, [] => []
  | O, _ => []
  | S n, b0 :: rest =>
      match utf8_step b0 rest with
      | Good cp r => cp :: utf8_replace_fuel n r
      | Bad r => 65533 :: utf8_replace_fuel n r
      end
  end.
Definition utf8_replace (l : bytes) : pystr := utf8_replace_fuel (length l) l.

Definition scalar (cp : Z) : bool := in_range 0 55295 cp || in_range 57344 1114111 cp.

Definition utf8_char (cp : Z) : bytes :=
  if cp <? 128 then [cp]
  else if cp <? 2048 then [192 + cp / 64; 128 + cp mod 64]
  else if cp <? 65536 then [224 + cp / 4096; 128 + cp / 64 mod 64; 128 + cp mod 64]
  else [240 + cp / 262144; 128 + cp / 4096 mod 64; 128 + cp / 64 mod 64; 128 + cp mod 64].

(** [text.encode('utf-8')]: [None] is [UnicodeEncodeError] (a lone surrogate). *)
Definition utf8_encode (s : pystr) : option bytes :=
  if forallb scalar s then Some (concat (map utf8_char s)) else None.

Lemma in_range_spec lo hi b : in_range lo hi b = true ↔ lo ≤ b ≤ hi.
Proof. unfold in_range. rewrite andb_true_iff, !Z.leb_le. lia. Qed.
Lemma in_range_false lo hi b : in_range lo hi b = false ↔ b < lo ∨ hi < b.
Proof. unfold in_range. rewrite andb_false_iff, !Z.leb_gt. lia. Qed.

#[local] Ltac Zify.zify_post_hook ::= Z.to_euclidean_division_equations.

Ltac range_true := rewrite (proj2 (in_range_spec _ _ _)) by lia.
Ltac range_false := rewrite (proj2 (in_range_false _ _ _)) by lia.

Lemma second_ok3_intro b0 b1 :
  128 ≤ b1 ≤ 191 → (b0 = 224 → 160 ≤ b1) → (b0 = 237 → b1 ≤ 159) → second_ok3 b0 b1 = true.
Proof.
  intros ???. unfold second_ok3, cont_byte.
  destruct (Z.eqb_spec b0 224), (Z.eqb_spec b0 237); apply in_range_spec; lia.
Qed.
Lemma second_ok4_intro b0 b1 :
  128 ≤ b1 ≤ 191 → (b0 = 240 → 144 ≤ b1) → (b0 = 244 → b1 ≤ 143) → second_ok4 b0 b1 = true.
Proof.
  intros ???. unfold second_ok4, cont_byte.
  destruct (Z.eqb_spec b0 240), (Z.eqb_spec b0 244); apply in_range_spec; lia.
Qed.

Lemma scalar_spec cp : scalar cp = true ↔ 0 ≤ cp ≤ 55295 ∨ 57344 ≤ cp ≤ 1114111.
Proof. unfold scalar. by rewrite orb_true_iff, !in_range_spec. Qed.

Lemma utf8_char_nonempty cp : ∃ b l, utf8_char cp = b :: l.
Proof. unfold utf8_char. repeat case_match; eauto. Qed.

Lemma utf8_step_char cp rest b l :
  scalar cp = true → utf8_char cp = b :: l → utf8_step b (l ++ rest) = Good cp rest.
Proof.
  rewrite scalar_spec. intros Hs. unfold utf8_char, utf8_step.
  destruct (Z.ltb_spec cp 128); [intros [= <- <-]; by range_true|].
  destruct (Z.ltb_spec cp 2048); [intros [= <- <-]|].
  { range_false. range_true. simpl. unfold cont_byte. range_true. f_equal. lia. }
  destruct (Z.ltb_spec cp 65536); intros [= <- <-].
  { range_false. range_false. range_true. simpl.
    rewrite second_ok3_intro by lia. unfold cont_byte. simpl. range_true. f_equal. lia. }
  range_false. range_false. range_false. range_true. simpl.
  rewrite second_ok4_intro by lia. unfold cont_byte. simpl. range_true. simpl. range_true.
  f_equal. lia.
Qed.

Lemma utf8_decode_fuel_enough n m l :
  (length l <= n)%nat → (length l <= m)%nat → utf8_decode_fuel n l = utf8_decode_fuel m l.
Proof.
  revert m l. induction n as [|n IH]; intros [|m] [|b l]; simpl; try done; try lia.
  intros. pose proof (utf8_step_shrinks b l).
  destruct (utf8_step b l); simpl in *; [|done]. f_equal. apply IH; lia.
Qed.

Lemma utf8_decode_cons b l :
  utf8_decode (b :: l) =
  match utf8_step b l with Good cp r => (cp ::.) <$> utf8_decode r | Bad _ => None end.
Proof.
  unfold utf8_decode. simpl. pose proof (utf8_step_shrinks b l).
  destruct (utf8_step b l) as [cp r|r]; simpl in *; [|done].
  f_equal. apply utf8_decode_fuel_enough; lia.
Qed.

Lemma utf8_decode_encode s l : utf8_encode s = Some l → utf8_decode l = Some s.
Proof.
  unfold utf8_encode. case_match eqn:Hs; [|done]. intros [= <-].
  induction s as [|cp s IH]; [done|]. simpl in *.
  apply andb_true_iff in Hs as [Hcp Hs].
  destruct (utf8_char_nonempty cp) as (b & l & Hc). rewrite Hc. simpl.
  rewrite utf8_decode_cons, (utf8_step_char cp) by done. by rewrite IH.
Qed.

Lemma second_ok3_elim b0 b1 :
  second_ok3 b0 b1 = true → 128 ≤ b1 ≤ 191 ∧ (b0 = 224 → 160 ≤ b1) ∧ (b0 = 237 → b1 ≤ 159).
Proof.
  unfold second_ok3, cont_byte.
  destruct (Z.eqb_spec b0 224), (Z.eqb_spec b0 237); rewrite in_range_spec; lia.
Qed.
Lemma second_ok4_elim b0 b1 :
  second_ok4 b0 b1 = true → 128 ≤ b1 ≤ 191 ∧ (b0 = 240 → 144 ≤ b1) ∧ (b0 = 244 → b1 ≤ 143).
Proof.
  unfold second_ok4, cont_byte.
  destruct (Z.eqb_spec b0 240), (Z.eqb_spec b0 244); rewrite in_range_spec; lia.
Qed.

(** A decoded character is a scalar value and re-encodes to the bytes it came from. *)
Lemma utf8_step_good b0 rest cp r :
  utf8_step b0 rest = Good cp r → scalar cp = true ∧ b0 :: rest = utf8_char cp ++ r.
Proof.
  rewrite scalar_spec. unfold utf8_step, utf8_char, cont_byte.
  intros H. repeat split_match_in H; simplify_eq;
    repeat match goal with
    | E : negb _ = false |- _ => apply negb_false_iff in E
    | E : in_range _ _ _ = true |- _ => apply in_range_spec in E
    | E : second_ok3 _ _ = true |- _ => apply second_ok3_elim in E
    | E : second_ok4 _ _ = true |- _ => apply second_ok4_elim in E
    | E : in_range _ _ _ = false |- _ => apply in_range_false in E
    end.
  all: split; [lia|].
  all: repeat (case_match; try lia); cbn [app]; repeat f_equal; lia.
Qed.

Lemma utf8_encode_decode l s : utf8_decode l = Some s → utf8_encode s = Some l.
Proof.
  unfold utf8_encode.
  enough (utf8_decode l = Some s → forallb scalar s = true ∧ concat (map utf8_char s) = l) as He.
  { intros [-> ->]%He. done. }
  revert s. induction l as [l IH] using (induction_ltof1 _ (@length _)). unfold ltof in IH.
  intros s. destruct l as [|b l]; [by intros [= <-]|]. rewrite utf8_decode_cons.
  destruct (utf8_step b l) as [cp r|] eqn:Es; [|done].
  pose proof (utf8_step_shrinks b l) as Hlen. rewrite Es in Hlen. simpl in Hlen.
  apply utf8_step_good in Es as [Hcp Hbl].
  destruct (utf8_decode r) as [s'|] eqn:Er; [|done]. intros [= <-].
  destruct (IH r) with (s := s') as [Hs Hc]; [simpl; lia|done|]. simpl. by rewrite Hcp, Hs, Hc, Hbl.
Qed.

(** Encoding ASCII text cannot fail and keeps the code points. *)
Definition ascii_text (s : pystr) : bool := forallb (in_range 0 127) s.

Lemma utf8_encode_ascii s : ascii_text s = true → utf8_encode s = Some s.
Proof.
  intros Ha. unfold utf8_encode.
  assert (forallb scalar s = true ∧ concat (map utf8_char s) = s) as [-> ->]; [|done].
  induction s as [|c s IH]; [done|]. simpl in *. unfold ascii_text in *. simpl in Ha.
  apply andb_true_iff in Ha as [Hc Hs]. destruct (IH Hs) as [-> ->].
  apply in_range_spec in Hc. split.
  - unfold scalar. by range_true.
  - unfold utf8_char. destruct (Z.ltb_spec c 128); [done|lia].
Qed.

(** ** The Unicode character database

    Python ships Unicode tables; the sources use three of their columns through
    [str.isdigit], [str.isprintable] and [int].  They are a parameter with their
    documented ASCII rows. *)

Class UnicodeDB := {
  uc_isdigit : Z → bool;
  uc_isprintable : Z → bool;
  uc_decimal : Z → option Z;
  uc_isdigit_ascii c : 0 ≤ c < 128 → uc_isdigit c = in_range 48 57 c;
  uc_isprintable_ascii c : 0 ≤ c < 128 → uc_isprintable c = in_range 32 126 c;
  uc_decimal_ascii c : 0 ≤ c < 128 → uc_decimal c = if in_range 48 57 c then Some (c - 48) else None;
  uc_decimal_range c d : uc_decimal c = Some d → 0 ≤ d ≤ 9;
}.

(** A database with the ASCII rows only, for evaluating the model. *)
#[export, refine] Instance ascii_db : UnicodeDB := {|
  uc_isdigit := in_range 48 57;
  uc_isprintable := in_range 32 126;
  uc_decimal := λ c, if in_range 48 57 c then Some (c - 48) else None;
|}.
Proof.
  all: try done. intros c d. unfold in_range. destruct (Z.leb_spec 48 c), (Z.leb_spec c 57); intros [= <-]; lia.
Defined.

(** [str.isspace] of one character (the White_Space characters and the
    information separators). *)
Definition is_space (c : Z) : bool :=
  in_range 9 13 c || in_range 28 32 c || (c =? 133) || (c =? 160) || (c =? 5760)
  || in_range 8192 8202 c || (c =? 8232) || (c =? 8233) || (c =? 8239) || (c =? 8287)
  || (c =? 12288).

Fixpoint lstrip (s : pystr) : pystr :=
  match s with [] => [] | c :: s' => if is_space c then lstrip s' else s end.
Definition strip (s : pystr) : pystr := rev (lstrip (rev (lstrip s))).

Fixpoint starts_with (p s : pystr) : bool :=
  match p, s with
  | [], _ => true
  | _, [] => false
  | a :: p', b :: s' => (a =? b) && starts_with p' s'
  end.
Definition ends_with (p s : pystr) : bool := starts_with (rev p) (rev s).
Definition contains_char (c : Z) (s : pystr) : bool := existsb (Z.eqb c) s.
Definition remove_char (c : Z) (s : pystr) : pystr := filter (λ x, x ≠ c) s.
Definition str_isdigit `{UnicodeDB} (s : pystr) : bool :=
  negb (bool_decide (s = [])) && forallb uc_isdigit s.

(** [int(text)]: surrounding whitespace, an optional sign, decimal digits with
    single underscores between them, at most 4300 digits. *)
Fixpoint int_digits `{UnicodeDB} (acc : Z) (n : Z) (prev_digit : bool) (s : pystr) : option Z :=
  match s with
  | [] => if prev_digit && (n <=? 4300) then Some acc else None
  | c :: s' =>
      if c =? 95 then if prev_digit then int_digits acc n false s' else None
      else match uc_decimal c with
           | Some d => int_digits (10 * acc + d) (n + 1) true s'
           | None => None
           end
  end.
Definition int_of_str `{UnicodeDB} (s : pystr) : option Z :=
  match strip s with
  | 45 :: s' => Z.opp <$> int_digits 0 0 false s'
  | 43 :: s' => int_digits 0 0 false s'
  | s' => int_digits 0 0 false s'
  end.

(** [int(v)]. *)
Definition py_int `{UnicodeDB} (v : pyval) : res Z :=
  match v with
  | VBool b => Ret (if b then 1 else 0)
  | VInt z => Ret z
  | VFloat (S754_zero _) => Ret 0
  | VFloat (S754_finite s m e) =>
      let a := if 0 <=? e then Z.pos m * 2 ^ e else Z.pos m / 2 ^ (- e) in
      Ret (if s then - a else a)
  | VFloat S754_nan => Raise ValueError
  | VFloat (S754_infinity _) => Raise OtherError
  | VStr s => match int_of_str s with Some z => Ret z | None => Raise ValueError end
  | VBytes b => match int_of_str b with Some z => Ret z | None => Raise ValueError end
  | VNone | VList _ | VDict _ => Raise TypeError
  end.

(** [str(z)] for an int, used by the f-strings. *)
Fixpoint digits_fuel (n : nat) (z : Z) (acc : pystr) : pystr :=
  match n with
  | O => acc
  | S n =>
      let acc := (48 + z mod 10) :: acc in
      if z <? 10 then acc else digits_fuel n (z / 10) acc
  end.
Definition str_of_int (z : Z) : pystr :=
  let d := digits_fuel (S (Z.to_nat (Z.log2 (Z.abs z)))) (Z.abs z) [] in
  if z <? 0 then 45 :: d else d.

(** *** [strip] *)

Lemma lstrip_head s : match lstrip s with [] => True | c :: _ => is_space c = false end.
Proof. induction s as [|c s IH]; simpl; [done|]. by destruct (is_space c) eqn:E; simpl. Qed.

Lemma lstrip_id s : match s with [] => True | c :: _ => is_space c = false end → lstrip s = s.
Proof. destruct s as [|c s]; simpl; [done|]. by intros ->. Qed.

Lemma lstrip_suffix s : ∃ p, s = p ++ lstrip s.
Proof.
  induction s as [|c s [p IH]]; simpl; [by exists []|].
  destruct (is_space c); [exists (c :: p); simpl; congruence|by exists []].
Qed.

(** Stripping twice is stripping once. *)
Lemma strip_idemp s : strip (strip s) = strip s.
Proof.
  unfold strip. set (t := lstrip (rev (lstrip s))).
  assert (Ht : match t with [] => True | c :: _ => is_space c = false end) by apply lstrip_head.
  destruct (lstrip_suffix (rev (lstrip s))) as [p Hp]. fold t in Hp.
  assert (Hs : lstrip s = rev t ++ rev p) by (rewrite <-rev_app_distr, <-Hp, rev_involutive; done).
  pose proof (lstrip_head s) as Hh. rewrite Hs in Hh.
  rewrite (lstrip_id (rev t)).
  - by rewrite rev_involutive, (lstrip_id t).
  - destruct (rev t); [done|]. exact Hh.
Qed.

(** Text without spaces is not stripped. *)
Lemma lstrip_no_space s : Forall (λ c, is_space c = false) s → lstrip s = s.
Proof. intros Hs. destruct Hs as [|c s Hc Hs]; [done|]. simpl. by rewrite Hc. Qed.
Lemma strip_no_space s : Forall (λ c, is_space c = false) s → strip s = s.
Proof.
  intros Hs. unfold strip. rewrite (lstrip_no_space s Hs).
  rewrite lstrip_no_space by by apply Forall_rev. apply rev_involutive.
Qed.

#[global] Arguments in_range : simpl never.

(** ** JSON documents *)

(** A JSON file: missing, unreadable or not JSON, or a JSON value. *)
Inductive json_file := Missing | Corrupt | Json (v : pyval).

(** [data.get(key)]: a missing key and a JSON [null] are both [None]. *)
Fixpoint get_key (key : pystr) (d : list (pyval * pyval)) : pyval :=
  match d with
  | [] => VNone
  | (k, v) :: d' => if eq_str k key then v else get_key key d'
  end.

(** A key is found at its first entry. *)
Lemma get_key_skip k k' v d : k ≠ k' → get_key k ((VStr k', v) :: d) = get_key k d.
Proof. intros Hne. simpl. by rewrite bool_decide_false. Qed.
Lemma get_key_here k v d : get_key k ((VStr k, v) :: d) = v.
Proof. simpl. by rewrite bool_decide_true. Qed.

Ltac find_key := repeat (rewrite get_key_here || rewrite get_key_skip by (vm_compute; discriminate)).

(** ** Reasons

    [_sanitize_reason] is the same function in [provisioning.py], [boot_mode.py],
    [wifi_station.py] and others: printable characters on one line, at most 200. *)

Definition _REASON_MAX : nat := 200.

Definition reason_char `{UnicodeDB} (ch : Z) : bool :=
  uc_isprintable ch && negb (existsb (Z.eqb ch) [13; 10; 9]).
Definition _sanitize_reason `{UnicodeDB} (reason : pyval) : pystr :=
  match reason with
  | VStr s => take _REASON_MAX (strip (List.filter reason_char s))
  | _ => []
  end.

#[global] Arguments _sanitize_reason : simpl never.

Lemma lstrip_Forall (P : Z → Prop) s : Forall P s → Forall P (lstrip s).
Proof. intros Hs. induction Hs as [|c s Hc Hs IH]; simpl; [done|]. destruct (is_space c); auto. Qed.
Lemma strip_Forall (P : Z → Prop) s : Forall P s → Forall P (strip s).
Proof. intros Hs. unfold strip. apply Forall_rev, lstrip_Forall, Forall_rev, lstrip_Forall, Hs. Qed.

Section Reasons.
Context `{UnicodeDB}.

(** A reason that is safe to log: bounded and printable, on one line. *)
Definition reason_ok (r : pystr) : Prop := (length r ≤ _REASON_MAX)%nat ∧ Forall (λ c, reason_char c = true) r.

Lemma sanitize_reason_ok v : reason_ok (_sanitize_reason v).
Proof.
  destruct v as [| | | |s| | |]; try by (split; [unfold _REASON_MAX; simpl; lia|constructor]).
  unfold _sanitize_reason. split; [rewrite length_take; lia|].
  apply Forall_take, strip_Forall, Forall_forall. intros c Hc%list_elem_of_In%filter_In. apply Hc.
Qed.
Lemma ascii_reason_ok s :
  forallb (in_range 32 126) s = true → (length s ≤ _REASON_MAX)%nat → reason_ok s.
Proof.
  intros Hs Hl. split; [done|]. apply Forall_forall. intros c Hc%list_elem_of_In.
  rewrite forallb_forall in Hs. specialize (Hs c Hc). unfold reason_char.
  apply in_range_spec in Hs as Hr. rewrite uc_isprintable_ascii, Hs by lia. simpl.
  by rewrite !(proj2 (Z.eqb_neq _ _)) by lia.
Qed.
End Reasons.

(** ** Packed integers *)

(** [struct] integers, little endian, [n] bytes; out of range is [struct.error]. *)
Fixpoint le_bytes (n : nat) (v : Z) : bytes :=
  match n with O => [] | S n' => Z.land v 255 :: le_bytes n' (Z.shiftr v 8) end.
Fixpoint le_value (b : bytes) : Z :=
  match b with [] => 0 | x :: b' => x + 256 * le_value b' end.
Definition pack_uint (n : nat) (v : Z) : res bytes :=
  if in_range 0 (2 ^ (8 * Z.of_nat n) - 1) v then Ret (le_bytes n v) else Raise OtherError.

Definition res_app (a b : res bytes) : res bytes :=
  match a, b with
  | Ret x, Ret y => Ret (x ++ y)
  | Raise e, _ => Raise e
  | Ret _, Raise e => Raise e
  end.
Definition zeros (n : nat) : bytes := replicate n 0.

Lemma le_bytes_length n v : length (le_bytes n v) = n.
Proof. revert v. induction n as [|n IH]; intros v; simpl; [done|]. by rewrite IH. Qed.
Lemma le_value_bytes n v : 0 ≤ v < 2 ^ (8 * Z.of_nat n) → le_value (le_bytes n v) = v.
Proof.
  revert v. induction n as [|n IH]; intros v Hv; cbn [le_bytes le_value]; [simpl in Hv; lia|].
  replace (8 * Z.of_nat (S n)) with (8 * Z.of_nat n + 8) in Hv by lia. rewrite Z.pow_add_r in Hv by lia.
  change (2 ^ 8) with 256 in Hv. change 255 with (Z.ones 8).
  rewrite Z.land_ones, Z.shiftr_div_pow2 by lia. change (2 ^ 8) with 256.
  rewrite IH; [pose proof (Z.div_mod v 256); lia|].
  split; [apply Z.div_pos; lia|apply Z.div_lt_upper_bound; lia].
Qed.
Lemma pack_uint_fits n v : 0 ≤ v < 2 ^ (8 * Z.of_nat n) → pack_uint n v = Ret (le_bytes n v).
Proof. intros Hv. unfold pack_uint. by rewrite (proj2 (in_range_spec _ _ _)) by lia. Qed.
Lemma pack_uint_large n v : 2 ^ (8 * Z.of_nat n) ≤ v → pack_uint n v = Raise OtherError.
Proof. intros Hv. unfold pack_uint. by rewrite (proj2 (in_range_false _ _ _)) by lia. Qed.
#[global] Arguments pack_uint : simpl never.
#[global] Arguments le_bytes : simpl never.

(** ** Decimal text *)

(** [s.rjust(n, '0')], the [%0nd] of a number that is not negative. *)
Definition pad0 (n : nat) (s : pystr) : pystr := replicate (n - length s) 48 ++ s.
Definition decimal (s : pystr) : Z := foldl (λ n c, 10 * n + (c - 48)) 0 s.

Lemma digits_fuel_decimal n z acc :
  0 ≤ z < 2 ^ Z.of_nat n → ∃ d, digits_fuel n z acc = d ++ acc ∧ decimal d = z.
Proof.
  revert z acc. induction n as [|n IH]; intros z acc Hz; [exists []; simpl in *; split; [done|unfold decimal; simpl; lia]|].
  cbn [digits_fuel]. destruct (Z.ltb_spec z 10).
  - exists [48 + z mod 10]. split; [done|]. unfold decimal. simpl. rewrite Z.mod_small by lia. lia.
  - replace (Z.of_nat (S n)) with (Z.of_nat n + 1) in Hz by lia. rewrite Z.pow_add_r in Hz by lia.
    change (2 ^ 1) with 2 in Hz. pose proof (Z.div_mod z 10 ltac:(lia)). pose proof (Z.mod_pos_bound z 10 ltac:(lia)).
    destruct (IH (z / 10) ((48 + z mod 10) :: acc)) as (d & -> & Hd); [lia|].
    exists (d ++ [48 + z mod 10]). split; [by rewrite <-app_assoc|]. unfold decimal in *. rewrite foldl_app, Hd. simpl. lia.
Qed.
Lemma decimal_str_of_int z : 0 ≤ z → decimal (str_of_int z) = z.
Proof.
  intros Hz. unfold str_of_int. rewrite (proj2 (Z.ltb_ge z 0)), Z.abs_eq by lia.
  destruct (digits_fuel_decimal (S (Z.to_nat (Z.log2 z))) z []) as (d & -> & Hd); [|by rewrite app_nil_r].
  split; [done|]. rewrite Nat2Z.inj_succ, Z2Nat.id by apply Z.log2_nonneg.
  destruct (decide (z = 0)) as [->|]; [done|]. apply Z.log2_spec. lia.
Qed.
Lemma decimal_pad0 n s : decimal (pad0 n s) = decimal s.
Proof.
  unfold pad0, decimal. rewrite foldl_app. f_equal. induction (n - length s)%nat as [|k IH]; [done|]. apply IH.
Qed.

(** ** Splitting *)

(** [s.split(sep)] for one character. *)
Fixpoint split_on (sep : Z) (s : pystr) : list pystr :=
  match s with
  | [] => [[]]
  | c :: s' =>
      if c =? sep then [] :: split_on sep s'
      else match split_on sep s' with
           | cur :: rest => (c :: cur) :: rest
           | [] => [[c]]
           end
  end.

Lemma split_on_app sep a s :
  Forall (λ c, c ≠ sep) a → split_on sep (a ++ sep :: s) = a :: split_on sep s.
Proof.
  induction 1 as [|c a Hc _ IH]; simpl; [by rewrite Z.eqb_refl|].
  rewrite (proj2 (Z.eqb_neq c sep)), IH by done. done.
Qed.
Lemma split_on_none sep a : Forall (λ c, c ≠ sep) a → split_on sep a = [a].
Proof.
  induction 1 as [|c a Hc _ IH]; simpl; [done|]. by rewrite (proj2 (Z.eqb_neq c sep)), IH.
Qed.

Section Ascii.
Context `{UnicodeDB}.

(** [int] of ASCII text does not depend on the rest of the Unicode tables. *)
Lemma int_digits_ascii acc n p s :
  ascii_text s = true → int_digits acc n p s = @int_digits ascii_db acc n p s.
Proof.
  revert acc n p. induction s as [|c s IH]; intros acc n p; [done|].
  unfold ascii_text. cbn [forallb int_digits]. intros [Hc%in_range_spec Hs]%andb_true_iff.
  rewrite uc_decimal_ascii by lia. cbn [uc_decimal ascii_db].
  repeat case_match; simplify_eq; auto.
Qed.

Lemma int_of_str_ascii s :
  ascii_text (strip s) = true → int_of_str s = @int_of_str ascii_db s.
Proof.
  unfold int_of_str. intros Ha.
  assert (∀ c t, strip s = c :: t → ascii_text t = true) as Ht.
  { intros c t Hs. rewrite Hs in Ha. by apply andb_true_iff in Ha as [_ ?]. }
  destruct (strip s) as [|c t] eqn:Hs; [done|]. specialize (Ht c t eq_refl).
  repeat case_match; by rewrite int_digits_ascii.
Qed.
End Ascii.

(** *** Printing and reading numbers *)

Definition is_digit (c : Z) : bool := in_range 48 57 c.

Lemma digits_fuel_shape n z k acc :
  0 ≤ z < 2 ^ Z.of_nat n → z < 10 ^ Z.of_nat (S k) →
  ∃ d, digits_fuel n z acc = d ++ acc ∧ decimal d = z ∧ Forall (λ c, is_digit c = true) d ∧
       (length d ≤ S k)%nat ∧ (0 < n → d ≠ [])%nat.
Proof.
  revert z k acc. induction n as [|n IH]; intros z k acc Hz Hk.
  { exists []. simpl in Hz. split_and!; [done|unfold decimal; simpl; lia|constructor|simpl; lia|lia]. }
  cbn [digits_fuel]. pose proof (Z.mod_pos_bound z 10 ltac:(lia)) as Hm.
  assert (is_digit (48 + z mod 10) = true) as Hd by (apply in_range_spec; lia).
  destruct (Z.ltb_spec z 10).
  - exists [48 + z mod 10]. split_and!; [done| |by repeat constructor|simpl; lia|done].
    unfold decimal. simpl. rewrite Z.mod_small by lia. lia.
  - replace (Z.of_nat (S n)) with (Z.of_nat n + 1) in Hz by lia. rewrite Z.pow_add_r in Hz by lia.
    change (2 ^ 1) with 2 in Hz. pose proof (Z.div_mod z 10 ltac:(lia)).
    destruct k as [|k]; [change (10 ^ Z.of_nat 1) with 10 in Hk; lia|].
    replace (Z.of_nat (S (S k))) with (Z.of_nat (S k) + 1) in Hk by lia. rewrite Z.pow_add_r in Hk by lia.
    change (10 ^ 1) with 10 in Hk.
    destruct (IH (z / 10) k ((48 + z mod 10) :: acc)) as (d & -> & Hv & Hf & Hl & _); [lia|lia|].
    exists (d ++ [48 + z mod 10]). split_and!.
    + by rewrite <-app_assoc.
    + unfold decimal in *. rewrite foldl_app, Hv. simpl. lia.
    + apply Forall_app_2; [done|by repeat constructor].
    + rewrite length_app. simpl. lia.
    + intros _ ?%app_nil. naive_solver.
Qed.
Lemma str_of_int_shape z k :
  0 ≤ z < 10 ^ Z.of_nat (S k) →
  decimal (str_of_int z) = z ∧ Forall (λ c, is_digit c = true) (str_of_int z) ∧
  (length (str_of_int z) ≤ S k)%nat ∧ str_of_int z ≠ [].
Proof.
  intros Hz. unfold str_of_int. rewrite (proj2 (Z.ltb_ge z 0)), Z.abs_eq by lia.
  destruct (digits_fuel_shape (S (Z.to_nat (Z.log2 z))) z k []) as (d & -> & Hv & Hf & Hl & Hn); [|lia|].
  - split; [lia|]. rewrite Nat2Z.inj_succ, Z2Nat.id by apply Z.log2_nonneg.
    destruct (decide (z = 0)) as [->|]; [done|]. apply Z.log2_spec. lia.
  - rewrite app_nil_r. split_and!; try done. apply Hn. lia.
Qed.

Section Numbers.
Context `{UnicodeDB}.

Lemma int_digits_value acc n p s :
  Forall (λ c, is_digit c = true) s → n + Z.of_nat (length s) ≤ 4300 → (s = [] → p = true) →
  int_digits acc n p s = Some (foldl (λ n c, 10 * n + (c - 48)) acc s).
Proof.
  intros Hs. revert acc n p. induction Hs as [|c s Hc%in_range_spec Hs IH]; intros acc n p Hl Hp; simpl.
  - rewrite Hp by done. simpl in Hl. by rewrite (proj2 (Z.leb_le n 4300)) by lia.
  - rewrite (proj2 (Z.eqb_neq c 95)) by lia. rewrite uc_decimal_ascii by lia.
    rewrite (proj2 (in_range_spec 48 57 c)) by lia. rewrite IH; [done| |done]. cbn [length] in Hl. lia.
Qed.
Lemma digit_not_space c : is_digit c = true → is_space c = false.
Proof. intros Hc%in_range_spec. unfold is_space. rewrite !orb_false_iff, !in_range_false, !Z.eqb_neq. lia. Qed.
(** [int] of a text of at most 4300 decimal digits. *)
Lemma int_of_digits s :
  Forall (λ c, is_digit c = true) s → s ≠ [] → Z.of_nat (length s) ≤ 4300 → int_of_str s = Some (decimal s).
Proof.
  intros Hs Hne Hl. unfold int_of_str.
  rewrite strip_no_space by (eapply Forall_impl; [exact Hs|]; exact digit_not_space).
  destruct s as [|c s]; [done|]. pose proof Hs as Hs'. apply Forall_cons in Hs' as [Hc%in_range_spec _].
  assert (int_digits 0 0 false (c :: s) = Some (decimal (c :: s))) as Hi by (apply int_digits_value; [done|simpl in *; lia|done]).
  destruct c as [|c|c]; try done. do 7 (destruct c as [c|c|]; try done; try lia).
Qed.
Lemma str_isdigit_digits s : Forall (λ c, is_digit c = true) s → s ≠ [] → str_isdigit s = true.
Proof.
  intros Hs Hne. unfold str_isdigit. rewrite bool_decide_false by done. simpl. apply forallb_forall.
  intros c Hc%list_elem_of_In. rewrite Forall_forall in Hs. specialize (Hs c Hc). apply in_range_spec in Hs as Hr.
  rewrite uc_isdigit_ascii by lia. unfold is_digit in Hs. by rewrite Hs.
Qed.
End Numbers.
