(* ===== verification/PyText.v ===== *)
(** Text, numbers and URLs: ASCII case, cutting, joining, decimal numbers, replacing, and what [urllib.parse.urlsplit]
    takes from a URL. *)
From S2P Require Import Prelude PyValue.

Definition alnum (c : Z) : bool := in_range 65 90 c || in_range 97 122 c || in_range 48 57 c.
Definition lower_ascii (s : pystr) : pystr := map (λ c, if in_range 65 90 c then c + 32 else c) s.

(** [str.splitlines]. *)
Definition is_newline (c : Z) : bool :=
  in_range 10 13 c || in_range 28 30 c || (c =? 133) || (c =? 8232) || (c =? 8233).
Fixpoint splitlines_from (cur : pystr) (s : pystr) : list pystr :=
  match s with
  | [] => match cur with [] => [] | _ => [rev cur] end
  | c :: s' =>
      if is_newline c then
        rev cur :: match s' with
                   | c' :: s'' => if (c =? 13) && (c' =? 10) then splitlines_from [] s'' else splitlines_from [] s'
                   | [] => []
                   end
      else splitlines_from (c :: cur) s'
  end.
Definition splitlines (s : pystr) : list pystr := splitlines_from [] s.

(** The newline translation of text mode. *)
Fixpoint newlines (s : pystr) : pystr :=
  match s with
  | [] => []
  | c :: r =>
      if c =? 13 then match r with d :: r' => if d =? 10 then 10 :: newlines r' else 10 :: newlines r | [] => [10] end
      else c :: newlines r
  end.
Lemma newlines_id s : Forall (λ x, x ≠ 13) s → newlines s = s.
Proof. induction 1 as [|c s Hc _ IH]; [done|]. cbn. by rewrite (proj2 (Z.eqb_neq c 13)), IH by done. Qed.
Lemma newlines_no_return s : Forall (λ x, x ≠ 13) (newlines s).
Proof.
  assert (∀ n s, (length s ≤ n)%nat → Forall (λ x, x ≠ 13) (newlines s)) as Hn; [|by apply (Hn (length s))].
  induction n as [|n IH]; intros [|c r]; cbn [length newlines]; intros Hl; try lia; try constructor.
  destruct (Z.eqb_spec c 13); [|constructor; [done|apply IH; lia]].
  destruct r as [|d r']; [by repeat constructor|]. cbn [length] in Hl. destruct (d =? 10); (constructor; [lia|apply IH; cbn [length]; lia]).
Qed.

(** [s.partition(sep)] where [sep] occurs. *)
Fixpoint cut_at (sep : Z) (s : pystr) : option (pystr * pystr) :=
  match s with
  | [] => None
  | c :: s' => if c =? sep then Some ([], s') else (λ p, (c :: p.1, p.2)) <$> cut_at sep s'
  end.
Lemma cut_at_app sep s a b : cut_at sep s = Some (a, b) → s = a ++ sep :: b.
Proof.
  revert a. induction s as [|c s IH]; intros a; simpl; [done|]. case_match eqn:Hc.
  - apply Z.eqb_eq in Hc as ->. by intros [= <- <-].
  - destruct (cut_at sep s) as [[a' b']|]; [|done]. intros [= <- <-]. simpl. by rewrite (IH a').
Qed.
Lemma cut_at_first sep a b : Forall (λ c, c ≠ sep) a → cut_at sep (a ++ sep :: b) = Some (a, b).
Proof.
  induction 1 as [|c a Hc _ IH]; simpl; [by rewrite Z.eqb_refl|]. by rewrite (proj2 (Z.eqb_neq c sep)), IH.
Qed.

(** [sep.join(items)]. *)
Fixpoint join_with (sep : pystr) (items : list pystr) : pystr :=
  match items with
  | [] => []
  | [x] => x
  | x :: rest => x ++ sep ++ join_with sep rest
  end.

Lemma join_with_head sep x l : ∃ r, join_with sep (x :: l) = x ++ r.
Proof. destruct l as [|y l]; [exists []; by rewrite app_nil_r|by eexists]. Qed.

Lemma join_with_length sep (l : list pystr) : Forall (λ x, x ≠ []) l → (length l ≤ length (join_with sep l))%nat.
Proof.
  intros Hl. induction Hl as [|x l Hx Hl IH]; [done|]. destruct x as [|c x]; [done|].
  destruct l as [|y l]; [cbn; lia|]. change (join_with sep ((c :: x) :: y :: l)) with ((c :: x) ++ sep ++ join_with sep (y :: l)).
  rewrite !length_app. cbn [length] in *. lia.
Qed.

Lemma join_with_Forall (P : Z → Prop) sep l : Forall P sep → Forall (Forall P) l → Forall P (join_with sep l).
Proof.
  intros Hs Hl. induction Hl as [|x l Hx _ IH]; [constructor|]. destruct l as [|y l]; [done|]. cbn [join_with].
  apply Forall_app_2; [done|]. by apply Forall_app_2.
Qed.

(** ** The order of text *)

(** The order of Python strings. *)
Fixpoint str_leb (a b : pystr) : bool :=
  match a, b with
  | [], _ => true
  | _, [] => false
  | x :: a', y :: b' => if x =? y then str_leb a' b' else x <? y
  end.
Definition str_le (a b : pystr) : Prop := str_leb a b = true.
#[export] Instance str_le_dec a b : Decision (str_le a b) := decide (str_leb a b = true).
#[export] Instance str_leb_total : Total str_le.
Proof.
  unfold Total, str_le. intros a. induction a as [|x a IH]; intros [|y b]; simpl; [by left|by left|by right|].
  rewrite (Z.eqb_sym y x). case_match; [apply IH|]. rewrite !Z.ltb_lt. lia.
Qed.
#[export] Instance str_le_trans : Transitive str_le.
Proof.
  unfold Transitive, str_le. intros a. induction a as [|x a IH]; intros [|y b] [|z c]; simpl; [done..|].
  destruct (Z.eqb_spec x y) as [->|Hxy], (Z.eqb_spec y z) as [->|Hyz]; try done; [apply IH| |];
    [by rewrite (proj2 (Z.eqb_neq x z)) by done|]. rewrite !Z.ltb_lt. intros ??.
  rewrite (proj2 (Z.eqb_neq x z)), Z.ltb_lt by lia. lia.
Qed.

(** ** Decimal numbers without leading zeroes *)

Definition numeric (s : pystr) : bool :=
  match s with
  | [] => false
  | c :: r => forallb is_digit s && (negb (c =? 48) || bool_decide (r = []))
  end.
Lemma decimal_snoc s c : decimal (s ++ [c]) = 10 * decimal s + (c - 48).
Proof. unfold decimal. by rewrite foldl_app. Qed.
Lemma numeric_digits s : numeric s = true → s ≠ [] ∧ Forall (λ c, is_digit c = true) s.
Proof.
  destruct s as [|c r]; [done|]. intros [Hf _]%andb_true_iff. split; [done|].
  apply Forall_forall. intros x Hx%list_elem_of_In. rewrite forallb_forall in Hf. auto.
Qed.
Lemma decimal_nonneg s : Forall (λ c, is_digit c = true) s → 0 ≤ decimal s.
Proof.
  induction s as [|c s IH] using rev_ind; [done|]. intros [Hs Hc]%Forall_app. rewrite decimal_snoc.
  apply Forall_cons in Hc as [Hc%in_range_spec _]. specialize (IH Hs). lia.
Qed.
Lemma numeric_snoc s c : s ≠ [] → numeric (s ++ [c]) = true → numeric s = true ∧ 0 < decimal s ∧ is_digit c = true.
Proof.
  intros Hne Hn. destruct (numeric_digits _ Hn) as [_ [Hs Hc]%Forall_app]. apply Forall_cons in Hc as [Hc _].
  destruct s as [|d s]; [done|]. cbn [app numeric] in *. apply andb_true_iff in Hn as [_ Hd].
  assert (d ≠ 48) as Hd0.
  { apply orb_true_iff in Hd as [Hd|Hd]; [by apply negb_true_iff, Z.eqb_neq in Hd|].
    apply bool_decide_eq_true in Hd. by destruct s. }
  split_and!; [|clear -Hs Hd0|done].
  - rewrite (proj2 (Z.eqb_neq d 48)) by done. cbn [negb orb]. rewrite andb_true_r. apply forallb_forall.
    intros x Hx%list_elem_of_In. rewrite Forall_forall in Hs. auto.
  - apply Forall_cons in Hs as [Hd%in_range_spec Hs]. induction s as [|c s IH] using rev_ind.
    + unfold decimal. simpl. lia.
    + rewrite app_comm_cons, decimal_snoc. apply Forall_app in Hs as [Hs Hc]. apply Forall_cons in Hc as [Hc%in_range_spec _].
      specialize (IH Hs). lia.
Qed.
(** Numbers without leading zeroes are determined by their value. *)
Lemma numeric_inj s t : numeric s = true → numeric t = true → decimal s = decimal t → s = t.
Proof.
  revert t. induction s as [|c s IH] using rev_ind; [done|]. intros t Hs Ht He.
  destruct t as [|d t _] using rev_ind; [done|]. rewrite !decimal_snoc in He.
  destruct (numeric_digits _ Hs) as [_ [_ Hc]%Forall_app]. destruct (numeric_digits _ Ht) as [_ [_ Hd]%Forall_app].
  apply Forall_cons in Hc as [Hc%in_range_spec _]. apply Forall_cons in Hd as [Hd%in_range_spec _].
  assert (decimal s = decimal t ∧ c = d) as [He' ->] by lia. f_equal.
  destruct (decide (s = [])) as [->|Hs0], (decide (t = [])) as [->|Ht0]; [done| | |].
  - destruct (numeric_snoc t d Ht0 Ht) as (_ & ? & _). unfold decimal in He' at 1. simpl in He'. lia.
  - destruct (numeric_snoc s d Hs0 Hs) as (_ & ? & _). unfold decimal in He' at 2. simpl in He'. lia.
  - destruct (numeric_snoc t d Ht0 Ht) as (? & _). destruct (numeric_snoc s d Hs0 Hs) as (? & _). by apply IH.
Qed.

Lemma numeric_grow s c : numeric s = true → 0 < decimal s → is_digit c = true → numeric (s ++ [c]) = true.
Proof.
  intros Hs Hpos Hc. destruct (numeric_digits s Hs) as [Hne Hf]. destruct s as [|d s]; [done|]. cbn [app numeric] in *.
  apply andb_true_iff in Hs as [Hall Hd]. apply andb_true_iff. split.
  - cbn [forallb] in *. apply andb_true_iff in Hall as [-> Hall]. cbn. rewrite forallb_app, Hall. cbn. by rewrite Hc.
  - apply orb_true_iff in Hd as [-> |Hd]; [done|]. apply bool_decide_eq_true in Hd as ->.
    destruct (Z.eqb_spec d 48) as [->|]; [|done]. unfold decimal in Hpos. simpl in Hpos. lia.
Qed.
Lemma digits_fuel_numeric n z acc :
  (0 < n)%nat → 0 ≤ z < 2 ^ Z.of_nat n → ∃ d, digits_fuel n z acc = d ++ acc ∧ decimal d = z ∧ numeric d = true.
Proof.
  revert z acc. induction n as [|n IH]; intros z acc Hn Hz; [lia|]. cbn [digits_fuel].
  pose proof (Z.mod_pos_bound z 10 ltac:(lia)) as Hm.
  assert (is_digit (48 + z mod 10) = true) as Hd by (apply in_range_spec; lia).
  destruct (Z.ltb_spec z 10).
  - exists [48 + z mod 10]. split_and!; [done| |].
    + unfold decimal. simpl. rewrite Z.mod_small by lia. lia.
    + cbn [numeric forallb]. rewrite Hd. cbn. by rewrite orb_true_r.
  - replace (Z.of_nat (S n)) with (Z.of_nat n + 1) in Hz by lia. rewrite Z.pow_add_r in Hz by lia. change (2 ^ 1) with 2 in Hz.
    pose proof (Z.div_mod z 10 ltac:(lia)).
    destruct n as [|n']; [change (2 ^ Z.of_nat 0) with 1 in Hz; lia|].
    destruct (IH (z / 10) ((48 + z mod 10) :: acc)) as (d & -> & Hv & Hnum); [lia|lia|].
    exists (d ++ [48 + z mod 10]). split_and!; [by rewrite <-app_assoc| |].
    + rewrite decimal_snoc. lia.
    + apply numeric_grow; [done|lia|done].
Qed.
Lemma str_of_int_numeric z : 0 ≤ z → numeric (str_of_int z) = true.
Proof.
  intros Hz. unfold str_of_int. rewrite (proj2 (Z.ltb_ge z 0)), Z.abs_eq by lia.
  destruct (digits_fuel_numeric (S (Z.to_nat (Z.log2 z))) z []) as (d & -> & _ & Hn); [lia| |by rewrite app_nil_r].
  split; [done|]. rewrite Nat2Z.inj_succ, Z2Nat.id by apply Z.log2_nonneg.
  destruct (decide (z = 0)) as [->|]; [done|]. apply Z.log2_spec. lia.
Qed.
Lemma numeric_printed s : numeric s = true → str_of_int (decimal s) = s.
Proof.
  intros Hs. destruct (numeric_digits s Hs) as [_ Hf%decimal_nonneg].
  apply numeric_inj; [by apply str_of_int_numeric|done|by apply decimal_str_of_int].
Qed.

(** ** URLs *)

(** [urlsplit]: leading blanks and every tab and line break are dropped; the scheme ends at
    the first colon and the host part, after two slashes, at the first of [/?#]. *)
Fixpoint drop_blank (s : pystr) : pystr :=
  match s with c :: s' => if in_range 0 32 c then drop_blank s' else s | [] => [] end.
Definition scheme_char (c : Z) : bool := alnum c || (c =? 43) || (c =? 45) || (c =? 46).
Definition split_scheme (url : pystr) : pystr * pystr :=
  match cut_at 58 url with
  | Some (((c :: _) as sch), rest) =>
      if (in_range 65 90 c || in_range 97 122 c) && forallb scheme_char sch then (lower_ascii sch, rest) else ([], url)
  | _ => ([], url)
  end.
Fixpoint until_delim (s : pystr) : pystr :=
  match s with
  | [] => []
  | c :: s' => if (c =? 47) || (c =? 63) || (c =? 35) then [] else c :: until_delim s'
  end.
Definition netloc_of (rest : pystr) : pystr :=
  match rest with 47 :: 47 :: r => until_delim r | _ => [] end.

Definition url_breaks (c : Z) : bool := (c =? 9) || (c =? 10) || (c =? 13).
Definition clean_url (s : pystr) : pystr := List.filter (λ c, negb (url_breaks c)) (drop_blank s).

(** The check of brackets and of characters that turn into delimiters under Unicode
    normalisation is a parameter; it raises. *)
Definition urlsplit (netloc_ok : pystr → bool) (value : pystr) : res (pystr * pystr) :=
  let '(sch, rest) := split_scheme (clean_url value) in
  let netloc := netloc_of rest in
  if netloc_ok netloc then Ret (sch, netloc) else Raise ValueError.

Lemma drop_blank_split s : ∃ p, s = p ++ drop_blank s ∧ Forall (λ c, in_range 0 32 c = true) p.
Proof.
  induction s as [|c s (p & IH & Hp)]; cbn; [by exists []|]. destruct (in_range 0 32 c) eqn:Hc; [|by exists []].
  exists (c :: p). split; [cbn; by rewrite <-IH|by constructor].
Qed.
Lemma split_scheme_https s rest : split_scheme s = (u "https", rest) → ∃ sch, s = sch ++ 58 :: rest ∧ lower_ascii sch = u "https".
Proof.
  unfold split_scheme. destruct (cut_at 58 s) as [[[|c sch] r]|] eqn:Hc; try done. case_match; [|done].
  intros [Hl ->]%pair_equal_spec. apply cut_at_app in Hc. by exists (c :: sch).
Qed.
Lemma clean_url_id s : Forall (λ c, in_range 0 31 c = false) s → clean_url s = drop_blank s.
Proof.
  intros Hs. destruct (drop_blank_split s) as (p & Hp & _). unfold clean_url. rewrite Hp in Hs.
  apply Forall_app in Hs as [_ Hs]. clear Hp. induction Hs as [|c l Hc%in_range_false _ IH]; [done|].
  cbn. unfold url_breaks at 1. rewrite !(proj2 (Z.eqb_neq c _)) by lia. cbn. f_equal. exact IH.
Qed.
Lemma urlsplit_clean netloc_ok s : Forall (λ c, in_range 0 31 c = false) s →
  urlsplit netloc_ok s = (let '(sch, rest) := split_scheme (drop_blank s) in
    if netloc_ok (netloc_of rest) then Ret (sch, netloc_of rest) else Raise ValueError).
Proof. intros Hs. unfold urlsplit. by rewrite clean_url_id. Qed.

(** ** Replacing text *)

(** [text.replace(old, new)] for an [old] that is not empty: leftmost occurrences that do
    not overlap.  [skip] counts the characters of the current occurrence. *)
Fixpoint replace_from (old new : pystr) (skip : nat) (s : pystr) : pystr :=
  match s with
  | [] => []
  | c :: s' =>
      match skip with
      | S k => replace_from old new k s'
      | O => if starts_with old s then new ++ replace_from old new (length old - 1) s'
             else c :: replace_from old new 0 s'
      end
  end.
Definition replace_all (old new s : pystr) : pystr := replace_from old new 0 s.

Definition infix_of (s t : pystr) : Prop := ∃ a b, t = a ++ s ++ b.
Lemma starts_with_iff p s : starts_with p s = true ↔ ∃ r, s = p ++ r.
Proof.
  revert s. induction p as [|c p IH]; intros s; simpl; [by split; [eauto|]|]. destruct s as [|x s].
  - split; [done|]. by intros [r Hr].
  - rewrite andb_true_iff, Z.eqb_eq, IH. split; [intros [-> [r ->]]; by exists r|]. intros [r [= -> ->]]. eauto.
Qed.
Lemma infix_cons_inv s c t : infix_of s (c :: t) → starts_with s (c :: t) = true ∨ infix_of s t.
Proof.
  intros ([|x a] & b & Hab); [left; apply starts_with_iff; by exists b|]. right. injection Hab as -> ->. by exists a, b.
Qed.
Lemma infix_app_l s t t' : infix_of s t → infix_of s (t ++ t').
Proof. intros (a & b & ->). exists a, (b ++ t'). by rewrite <-!app_assoc. Qed.
Lemma infix_app_r s t t' : infix_of s t → infix_of s (t' ++ t).
Proof. intros (a & b & ->). exists (t' ++ a), b. by rewrite <-!app_assoc. Qed.

(** An occurrence does not cross a character it does not hold. *)
Lemma infix_split s c p q : s ≠ [] → c ∉ s → infix_of s (p ++ c :: q) → infix_of s p ∨ infix_of s q.
Proof.
  intros Hne Hc (a & b & Hab). apply app_eq_inv in Hab as [(k & -> & Hk)|(k & -> & Hk)].
  - symmetry in Hk. apply app_eq_inv in Hk as [(m & -> & Hm)|(m & -> & Hm)].
    + left. by exists a, m.
    + destruct m as [|x m]; [left; exists a, []; by rewrite !app_nil_r|]. exfalso. injection Hm as <- _.
      apply Hc, elem_of_app. right. by left.
  - destruct k as [|x k]; [|injection Hk as <- ->; right; by exists k, b].
    destruct s as [|y s]; [done|]. injection Hk as <- _. exfalso. apply Hc. by left.
Qed.

Lemma replace_skip old new k s : replace_from old new k s = replace_from old new 0 (drop k s).
Proof. revert s. induction k as [|k IH]; intros [|c s]; try done. simpl drop. rewrite <-IH. done. Qed.

(** The first occurrence is replaced, then the rest. *)
Lemma replace_cases old new s :
  old ≠ [] →
  (replace_all old new s = s ∧ ¬ infix_of old s) ∨
  ∃ p q, s = p ++ old ++ q ∧ replace_all old new s = p ++ new ++ replace_all old new q ∧ ¬ infix_of old p.
Proof.
  intros Hne. unfold replace_all. induction s as [|c s IH].
  { left. split; [done|]. intros (a & b & Hab). destruct a; [destruct old; done|done]. }
  cbn [replace_from]. destruct (starts_with old (c :: s)) eqn:Hst.
  - apply starts_with_iff in Hst as [q Hq]. right. exists [], q. split; [done|]. split.
    + rewrite replace_skip. destruct old as [|x old]; [done|]. injection Hq as -> ->. cbn [length].
      rewrite Nat.sub_succ, Nat.sub_0_r, drop_app_length. done.
    + intros (a & b & Hab). destruct a; [destruct old; done|done].
  - destruct IH as [[-> Hno]|(p & q & -> & -> & Hno)].
    + left. split; [done|]. intros [?|?]%infix_cons_inv; [congruence|done].
    + right. exists (c :: p), q. split_and!; [done|done|]. intros [Hs|?]%infix_cons_inv; [|done].
      apply starts_with_iff in Hs as [r Hr]. assert (starts_with old (c :: p ++ old ++ q) = true) as Hc; [|congruence].
      apply starts_with_iff. exists (r ++ old ++ q). change (c :: p ++ old ++ q) with ((c :: p) ++ old ++ q).
      by rewrite Hr, <-app_assoc.
Qed.
