(* ===== verification/Toml.v ===== *)
(** TOML documents: the scalars, tables and text literals that [config_schema.py] writes,
    and the reading of [tomllib.loads] for documents made of blank lines, [[table]]
    headers and [key = value] lines.  Every other document (dotted keys, dates, nested
    tables, comments, syntax errors) is outside of [read_doc], which is [None] there. *)
From S2P Require Import Prelude PyValue PyText.

(** A float or a date is a [TOther]. *)
#[warnings="-register-all"]
Inductive tval :=
  | TBool (b : bool) | TInt (z : Z) | TStr (s : pystr) | TArr (l : list tval) | TTab (t : list (pystr * tval)) | TOther (n : nat).
Abbreviation table := (list (pystr * tval)).

(** ** Writing *)

Definition hex_digit (n : Z) : Z := if n <? 10 then 48 + n else 87 + n.
(** One character of a basic string; ['\u%04x'] for the other control characters. *)
Definition toml_char (c : Z) : pystr :=
  if c =? 34 then [92; 34] else if c =? 92 then [92; 92] else if c =? 10 then [92; 110]
  else if c =? 13 then [92; 114] else if c =? 9 then [92; 116]
  else if in_range 0 31 c || (c =? 127) then [92; 117; 48; 48; hex_digit (c / 16); hex_digit (c mod 16)]
  else [c].
Definition toml_text (s : pystr) : pystr := [34] ++ mjoin (toml_char <$> s) ++ [34].
Definition bare_char (c : Z) : bool := alnum c || (c =? 95) || (c =? 45).
Definition _BARE_KEY_RE (s : pystr) : bool := negb (bool_decide (s = [])) && forallb bare_char s.
Definition _toml_key (key : pystr) : pystr := if _BARE_KEY_RE key then key else toml_text key.

(** ** Reading *)

Definition hex_value (c : Z) : option Z :=
  if in_range 48 57 c then Some (c - 48) else if in_range 97 102 c then Some (c - 87)
  else if in_range 65 70 c then Some (c - 55) else None.
Definition simple_escape (c : Z) : option Z :=
  if c =? 34 then Some 34 else if c =? 92 then Some 92 else if c =? 110 then Some 10 else if c =? 114 then Some 13
  else if c =? 116 then Some 9 else if c =? 98 then Some 8 else if c =? 102 then Some 12 else None.
Definition illegal_char (c : Z) : bool := in_range 0 31 c && negb (c =? 9) || (c =? 127).
Definition push {A B} (a : A) (p : option (list A * B)) : option (list A * B) := (λ q, (a :: q.1, q.2)) <$> p.

(** What follows an opening quote, up to its end. *)
Fixpoint basic_string (s : pystr) : option (pystr * pystr) :=
  match s with
  | [] => None
  | c :: r =>
      if c =? 34 then Some ([], r)
      else if c =? 92 then
        match r with
        | e :: r1 =>
            if e =? 117 then
              match r1 with
              | a :: b :: x :: y :: r2 =>
                  match hex_value a, hex_value b, hex_value x, hex_value y with
                  | Some a, Some b, Some x, Some y =>
                      let cp := ((a * 16 + b) * 16 + x) * 16 + y in
                      if scalar cp then push cp (basic_string r2) else None
                  | _, _, _, _ => None
                  end
              | _ => None
              end
            else match simple_escape e with Some c => push c (basic_string r1) | None => None end
        | [] => None
        end
      else if illegal_char c then None else push c (basic_string r)
  end.

Definition blank (c : Z) : bool := (c =? 32) || (c =? 9).
Fixpoint skip_ws (s : pystr) : pystr :=
  match s with c :: r => if blank c then skip_ws r else s | [] => [] end.
Fixpoint span (p : Z → bool) (s : pystr) : pystr * pystr :=
  match s with
  | c :: r => if p c then let q := span p r in (c :: q.1, q.2) else ([], s)
  | [] => ([], [])
  end.
Definition read_key (s : pystr) : option (pystr * pystr) :=
  match s with
  | c :: r => if c =? 34 then basic_string r else let q := span bare_char s in if bool_decide (q.1 = []) then None else Some q
  | [] => None
  end.

Definition number_char (c : Z) : bool := bare_char c || (c =? 43) || (c =? 46) || (c =? 58).
Definition natural (s : pystr) : bool := numeric s && (length s <=? Z.to_nat 4300)%nat.
Definition read_int (s : pystr) : option Z :=
  match s with
  | c :: r => if c =? 45 then if natural r then Some (- decimal r) else None
              else if natural s then Some (decimal s) else None
  | [] => None
  end.
(** The items of an array of strings, after its opening bracket. *)
Fixpoint read_items (n : nat) (s : pystr) : option (list tval * pystr) :=
  match n, skip_ws s with
  | S n, c :: r =>
      if c =? 93 then Some ([], r)
      else if negb (c =? 34) || starts_with [34; 34] r then None
      else match basic_string r with
           | None => None
           | Some (item, r) =>
               match skip_ws r with
               | c :: r => if c =? 93 then Some ([TStr item], r)
                           else if c =? 44 then push (TStr item) (read_items n r) else None
               | [] => None
               end
           end
  | _, _ => None
  end.
Definition read_value (s : pystr) : option (tval * pystr) :=
  match s with
  | [] => None
  | c :: r =>
      if c =? 34 then if starts_with [34; 34] r then None else (λ p, (TStr p.1, p.2)) <$> basic_string r
      else if c =? 91 then (λ p, (TArr p.1, p.2)) <$> read_items (length r) r
      else if starts_with (u "true") s then Some (TBool true, drop 4 s)
      else if starts_with (u "false") s then Some (TBool false, drop 5 s)
      else let q := span number_char s in (λ z, (TInt z, q.2)) <$> read_int q.1
  end.

Inductive line := Blank | Header (key : pystr) | Pair (key : pystr) (value : tval).
Definition read_line (l : pystr) : option line :=
  match skip_ws l with
  | [] => Some Blank
  | c :: r =>
      if c =? 91 then
        match read_key (skip_ws r) with
        | Some (k, r) => match skip_ws r with
                         | c :: r => if (c =? 93) && bool_decide (skip_ws r = []) then Some (Header k) else None
                         | [] => None
                         end
        | None => None
        end
      else match read_key (c :: r) with
           | Some (k, r) =>
               match skip_ws r with
               | c :: r => if c =? 61
                           then match read_value (skip_ws r) with
                                | Some (v, r) => if bool_decide (skip_ws r = []) then Some (Pair k v) else None
                                | None => None
                                end
                           else None
               | [] => None
               end
           | None => None
           end
  end.

(** From the last line up: the pairs before the next header, and the tables after it. *)
Definition add_line (l : line) (acc : option (table * table)) : option (table * table) :=
  match acc with
  | None => None
  | Some (pairs, tables) =>
      match l with
      | Blank => Some (pairs, tables)
      | Pair k v => if bool_decide (k ∈ pairs.*1) then None else Some ((k, v) :: pairs, tables)
      | Header k => if bool_decide (k ∈ tables.*1) then None else Some ([], (k, TTab pairs) :: tables)
      end
  end.
Definition assemble (ls : list line) : option table :=
  match foldr add_line (Some ([], [])) ls with
  | Some (pairs, tables) => if bool_decide (Forall (λ k, k ∉ tables.*1) pairs.*1) then Some (pairs ++ tables) else None
  | None => None
  end.
Definition read_doc (text : pystr) : option table := ls ← mapM read_line (split_on 10 text); assemble ls.

(** ** What was written is read back *)

Lemma hex_value_digit n : 0 ≤ n < 16 → hex_value (hex_digit n) = Some n.
Proof.
  intros Hn. unfold hex_digit, hex_value. destruct (Z.ltb_spec n 10).
  - rewrite (proj2 (in_range_spec _ _ _)) by lia. f_equal. lia.
  - rewrite (proj2 (in_range_false 48 57 _)), (proj2 (in_range_spec 97 102 _)) by lia. f_equal. lia.
Qed.
Lemma basic_string_char c s : basic_string (toml_char c ++ s) = push c (basic_string s).
Proof.
  unfold toml_char. destruct (Z.eqb_spec c 34) as [->|H1]; [done|]. destruct (Z.eqb_spec c 92) as [->|H2]; [done|].
  destruct (Z.eqb_spec c 10) as [->|H3]; [done|]. destruct (Z.eqb_spec c 13) as [->|H4]; [done|].
  destruct (Z.eqb_spec c 9) as [->|H5]; [done|]. destruct (in_range 0 31 c || (c =? 127)) eqn:Hc.
  - assert (0 ≤ c < 128) as Hb.
    { apply orb_true_iff in Hc as [Hc%in_range_spec|Hc%Z.eqb_eq]; lia. }
    pose proof (Z.div_mod c 16 ltac:(lia)). pose proof (Z.mod_pos_bound c 16 ltac:(lia)).
    assert (0 ≤ c / 16 < 16) by (split; [apply Z.div_pos|apply Z.div_lt_upper_bound]; lia).
    cbn [app basic_string]. change (117 =? 117) with true. change (92 =? 34) with false. change (92 =? 92) with true.
    rewrite !hex_value_digit by lia. change (hex_value 48) with (Some 0).
    cbv beta iota zeta. replace (((0 * 16 + 0) * 16 + c / 16) * 16 + c mod 16) with c by lia.
    assert (scalar c = true) as -> by (apply scalar_spec; lia). done.
  - cbn [app basic_string]. rewrite !(proj2 (Z.eqb_neq _ _)) by done. apply orb_false_iff in Hc as [Hr H6].
    unfold illegal_char. by rewrite Hr, H6.
Qed.
Lemma basic_string_text s rest : basic_string (mjoin (toml_char <$> s) ++ 34 :: rest) = Some (s, rest).
Proof.
  induction s as [|c s IH]; [done|]. change (mjoin (toml_char <$> c :: s)) with (toml_char c ++ mjoin (toml_char <$> s)).
  by rewrite <-app_assoc, basic_string_char, IH.
Qed.
(** Escaped text never begins with a second quote, unless it is empty. *)
Lemma toml_text_start s rest : starts_with [34; 34] (mjoin (toml_char <$> s) ++ 34 :: rest) = bool_decide (s = []) && starts_with [34] rest.
Proof.
  destruct s as [|c s]; [done|]. rewrite bool_decide_false by done.
  change (mjoin (toml_char <$> c :: s)) with (toml_char c ++ mjoin (toml_char <$> s)). unfold toml_char.
  destruct (Z.eqb_spec c 34) as [->|Hc]; [done|]. repeat (case_match; [done|]).
  cbn [app starts_with andb]. by rewrite (proj2 (Z.eqb_neq 34 c)) by done.
Qed.
(** A line holds no line break. *)
Abbreviation no_break := (λ x : Z, x ≠ 10 ∧ x ≠ 13).
Lemma toml_char_line c : Forall no_break (toml_char c).
Proof.
  unfold toml_char. destruct (Z.eqb_spec c 34); [repeat constructor; lia|]. destruct (Z.eqb_spec c 92); [repeat constructor; lia|].
  destruct (Z.eqb_spec c 10); [repeat constructor; lia|]. destruct (Z.eqb_spec c 13); [repeat constructor; lia|].
  destruct (Z.eqb_spec c 9); [repeat constructor; lia|]. destruct (in_range 0 31 c || (c =? 127)) eqn:Hc; [|by repeat constructor].
  assert (0 ≤ c < 128) by (apply orb_true_iff in Hc as [Hc%in_range_spec|Hc%Z.eqb_eq]; lia).
  pose proof (Z.mod_pos_bound c 16 ltac:(lia)). assert (0 ≤ c / 16) by (apply Z.div_pos; lia).
  repeat constructor; try lia; unfold hex_digit; case_match; lia.
Qed.
Lemma toml_text_line s : Forall no_break (toml_text s).
Proof.
  unfold toml_text. apply Forall_app_2; [by repeat constructor|]. apply Forall_app_2; [|by repeat constructor].
  induction s as [|c s IH]; [constructor|]. apply Forall_app_2; [apply toml_char_line|done].
Qed.

Lemma span_all (p : Z → bool) s rest :
  Forall (λ c, p c = true) s → match rest with [] => True | c :: _ => p c = false end → span p (s ++ rest) = (s, rest).
Proof.
  intros Hs Hr. induction Hs as [|c s Hc _ IH]; cbn; [|by rewrite Hc, IH].
  destruct rest as [|c r]; [done|]. cbn. by rewrite Hr.
Qed.
Lemma bare_key_chars k : _BARE_KEY_RE k = true → Forall (λ c, bare_char c = true) k ∧ k ≠ [].
Proof.
  intros [Hn%negb_true_iff%bool_decide_eq_false Hf]%andb_true_iff. split; [|done].
  apply Forall_forall. intros c Hc%list_elem_of_In. rewrite forallb_forall in Hf. auto.
Qed.
Lemma bare_char_range c : bare_char c = true → 45 ≤ c ∧ c ≠ 91 ∧ c ≠ 93 ∧ c ≠ 61.
Proof. unfold bare_char, alnum. rewrite !orb_true_iff, !in_range_spec, !Z.eqb_eq. lia. Qed.
Lemma key_line k : Forall no_break (_toml_key k).
Proof.
  unfold _toml_key. destruct (_BARE_KEY_RE k) eqn:Hk; [|apply toml_text_line].
  apply bare_key_chars in Hk as [Hk _]. eapply Forall_impl; [exact Hk|]. intros c Hc%bare_char_range. cbv beta. lia.
Qed.
Lemma read_key_written k rest : match rest with [] => True | c :: _ => bare_char c = false end →
  read_key (_toml_key k ++ rest) = Some (k, rest).
Proof.
  intros Hr. unfold _toml_key. destruct (_BARE_KEY_RE k) eqn:Hk.
  - apply bare_key_chars in Hk as [Hk Hn]. destruct k as [|c k]; [done|]. apply Forall_cons in Hk as Hc. destruct Hc as [Hc _].
    apply bare_char_range in Hc as Hc'. change ((c :: k) ++ rest) with (c :: (k ++ rest)). unfold read_key.
    rewrite (proj2 (Z.eqb_neq c 34)) by lia. change (c :: (k ++ rest)) with ((c :: k) ++ rest).
    rewrite span_all by done. done.
  - unfold toml_text. rewrite <-!app_assoc. cbn [app read_key]. apply basic_string_text.
Qed.
Lemma key_head k : ∃ c r, _toml_key k = c :: r ∧ blank c = false ∧ c ≠ 91.
Proof.
  unfold _toml_key. destruct (_BARE_KEY_RE k) eqn:Hk; [|by eexists _, _].
  apply bare_key_chars in Hk as [Hk Hn]. destruct k as [|c k]; [done|]. apply Forall_cons in Hk as [Hc%bare_char_range _].
  exists c, k. unfold blank. rewrite !(proj2 (Z.eqb_neq c _)) by lia. split_and!; [done|done|lia].
Qed.

(** *** Lines *)

Definition print_value (v : tval) : pystr :=
  match v with
  | TBool b => if b then u "true" else u "false"
  | TInt z => str_of_int z
  | TStr s => toml_text s
  | TArr l => u "[" ++ join_with (u ", ") ((λ v, match v with TStr s => toml_text s | _ => [] end) <$> l) ++ u "]"
  | TTab _ | TOther _ => []
  end.
Definition printable (v : tval) : Prop :=
  match v with
  | TBool _ | TStr _ => True
  | TInt z => (length (str_of_int (Z.abs z)) ≤ Z.to_nat 4300)%nat
  | TArr l => Forall (λ v, ∃ s, v = TStr s) l
  | TTab _ | TOther _ => False
  end.
Definition print_line (l : line) : pystr :=
  match l with Blank => [] | Header k => u "[" ++ _toml_key k ++ u "]" | Pair k v => _toml_key k ++ u " = " ++ print_value v end.
Definition printable_line (l : line) : Prop := match l with Pair _ v => printable v | _ => True end.

Lemma read_items_written l n s :
  Forall (λ v, ∃ s, v = TStr s) l → (length l < n)%nat →
  skip_ws s = join_with (u ", ") ((λ v, match v with TStr s => toml_text s | _ => [] end) <$> l) ++ [93] →
  read_items n s = Some (l, []).
Proof.
  intros Hl. revert n s. induction Hl as [|v l [x ->] Hl IH]; intros n s Hn Hs; (destruct n as [|n]; [lia|]); cbn [read_items]; rewrite Hs; [done|].
  destruct l as [|w l'].
  - cbn [fmap list_fmap join_with]. unfold toml_text. rewrite <-!app_assoc. cbn [app].
    change (34 =? 93) with false. change (negb (34 =? 34)) with false. cbn [orb].
    rewrite toml_text_start, andb_false_r, basic_string_text. done.
  - change ((λ v, match v with TStr s => toml_text s | _ => [] end) <$> TStr x :: w :: l')
      with (toml_text x :: ((λ v, match v with TStr s => toml_text s | _ => [] end) <$> w :: l')).
    remember ((λ v, match v with TStr s => toml_text s | _ => [] end) <$> w :: l') as items eqn:Hi.
    assert (join_with (u ", ") (toml_text x :: items) = toml_text x ++ u ", " ++ join_with (u ", ") items) as -> by by rewrite Hi.
    unfold toml_text at 1. rewrite <-!app_assoc. change (u ", ") with [44; 32] at 1. cbn [app].
    change (34 =? 93) with false. change (negb (34 =? 34)) with false. cbn [orb].
    rewrite toml_text_start, andb_false_r, basic_string_text. cbn [skip_ws]. change (blank 44) with false.
    change (44 =? 93) with false. change (44 =? 44) with true. cbv iota.
    rewrite (IH n); [done|cbn [length] in *; lia|]. cbn [skip_ws]. change (blank 32) with true. cbv iota.
    apply Forall_cons in Hl as [[y ->] _]. rewrite Hi. cbn [fmap list_fmap].
    match goal with |- context [join_with ?sep (?a :: ?l)] => destruct (join_with_head sep a l) as [r ->] end. done.
Qed.
Lemma str_of_int_neg z : z < 0 → str_of_int z = 45 :: str_of_int (Z.abs z).
Proof.
  intros Hz. unfold str_of_int. rewrite (proj2 (Z.ltb_lt z 0)), (proj2 (Z.ltb_ge (Z.abs z) 0)) by lia. by rewrite Z.abs_idemp.
Qed.
Lemma read_int_written z : (length (str_of_int (Z.abs z)) ≤ Z.to_nat 4300)%nat → read_int (str_of_int z) = Some z.
Proof.
  intros Hl. assert (natural (str_of_int (Z.abs z)) = true) as Hn.
  { apply andb_true_iff. split; [apply str_of_int_numeric; lia|by apply Nat.leb_le]. }
  assert (decimal (str_of_int (Z.abs z)) = Z.abs z) as Hd by (apply decimal_str_of_int; lia).
  destruct (Z.ltb_spec z 0) as [Hz|Hz].
  - rewrite str_of_int_neg by done.
    cbn [read_int]. change (45 =? 45) with true. cbv iota. rewrite Hn, Hd. f_equal. lia.
  - rewrite Z.abs_eq in * by lia. destruct (str_of_int z) as [|c r] eqn:Hs; [done|]. unfold read_int.
    apply andb_true_iff in Hn as Hn'. destruct Hn' as [[_ Hf]%numeric_digits _]. apply Forall_cons in Hf as [Hc%in_range_spec _].
    rewrite (proj2 (Z.eqb_neq c 45)) by lia. by rewrite Hn, Hd.
Qed.
Lemma int_chars z : Forall (λ c, number_char c = true ∧ c ≠ 34 ∧ c ≠ 91 ∧ c ≠ 116 ∧ c ≠ 102 ∧ no_break c) (str_of_int z) ∧ str_of_int z ≠ [].
Proof.
  assert (∀ s, numeric s = true → Forall (λ c, number_char c = true ∧ c ≠ 34 ∧ c ≠ 91 ∧ c ≠ 116 ∧ c ≠ 102 ∧ no_break c) s ∧ s ≠ []) as Hs.
  { intros s [Hne Hs]%numeric_digits. split; [|done]. eapply Forall_impl; [exact Hs|]. cbn. intros c Hc%in_range_spec.
    unfold number_char, bare_char, alnum. rewrite (proj2 (in_range_spec 48 57 c)), !orb_true_r by lia. split; [done|lia]. }
  destruct (Hs (str_of_int (Z.abs z))) as [Hf Hne]; [apply str_of_int_numeric; lia|].
  destruct (Z.ltb_spec z 0) as [Hz|Hz]; [|by rewrite Z.abs_eq in * by lia].
  rewrite str_of_int_neg by done. split; [|done]. constructor; [|done]. split; [done|lia].
Qed.
Lemma read_value_written v : printable v → read_value (print_value v) = Some (v, []).
Proof.
  destruct v as [b|z|s|l|t|n]; cbn [printable print_value]; intros Hp; [by destruct b| | | |done|done].
  - destruct (int_chars z) as [Hc Hne]. pose proof (read_int_written z Hp) as Hr.
    destruct (str_of_int z) as [|c r]; [done|]. apply Forall_cons in Hc as Hc'. destruct Hc' as [(_ & H1 & H2 & H3 & H4 & _) _].
    cbn [read_value]. rewrite (proj2 (Z.eqb_neq c 34)), (proj2 (Z.eqb_neq c 91)) by done.
    change (u "true") with [116; 114; 117; 101]. change (u "false") with [102; 97; 108; 115; 101]. cbn [starts_with].
    rewrite (proj2 (Z.eqb_neq 116 c)), (proj2 (Z.eqb_neq 102 c)) by done. cbn [andb].
    rewrite <-(app_nil_r (c :: r)), span_all; [|eapply Forall_impl; [exact Hc|]; by intros ? []|done]. cbn [fst snd]. by rewrite Hr.
  - unfold toml_text. cbn [app read_value]. change (34 =? 34) with true. cbv iota. rewrite toml_text_start, andb_false_r.
    by rewrite basic_string_text.
  - change (u "[") with [91]. change (u "]") with [93]. cbn [app read_value].
    change (91 =? 34) with false. change (91 =? 91) with true. cbv iota. rewrite (read_items_written l); [done|done| |].
    + rewrite length_app. cbn [length].
      assert (length l ≤ length (join_with (u ", ") ((λ v, match v with TStr s => toml_text s | _ => [] end) <$> l)))%nat; [|lia].
      rewrite <-(length_fmap (λ v, match v with TStr s => toml_text s | _ => [] end) l). apply join_with_length.
      apply Forall_fmap. eapply Forall_impl; [exact Hp|]. by intros v [s ->].
    + destruct Hp as [|v l [s ->] Hp]; [done|]. cbn [fmap list_fmap].
      match goal with |- context [join_with ?sep (?a :: ?l)] => destruct (join_with_head sep a l) as [r ->] end. done.
Qed.
Lemma print_value_head v : printable v → ∃ c r, print_value v = c :: r ∧ blank c = false.
Proof.
  destruct v as [b|z|s|l|t|n]; cbn [printable print_value]; intros Hp; [destruct b; by eexists _, _| | | |done|done].
  - destruct (int_chars z) as [Hc Hne]. destruct (str_of_int z) as [|c r]; [done|]. exists c, r. split; [done|].
    apply Forall_cons in Hc as [[Hc _] _]. unfold blank. unfold number_char in Hc. apply orb_false_iff. rewrite !Z.eqb_neq.
    rewrite !orb_true_iff, !Z.eqb_eq in Hc. destruct Hc as [[[Hc%bare_char_range|]|]|]; lia.
  - by eexists _, _.
  - by eexists _, _.
Qed.
Lemma read_line_written l : printable_line l → read_line (print_line l) = Some l.
Proof.
  destruct l as [|k|k v]; cbn [printable_line print_line]; intros Hp; [done| |].
  - change (u "[") with [91]. change (u "]") with [93]. cbn [app]. unfold read_line. cbn [skip_ws]. change (blank 91) with false.
    cbv iota. change (91 =? 91) with true. cbv iota. destruct (key_head k) as (c & r & Hk & Hb & _).
    assert (skip_ws (_toml_key k ++ [93]) = _toml_key k ++ [93]) as -> by (rewrite Hk; cbn [app skip_ws]; by rewrite Hb).
    by rewrite read_key_written.
  - destruct (key_head k) as (c & r & Hk & Hb & Hc). pose proof (read_key_written k (u " = " ++ print_value v)) as Hr.
    rewrite Hk in *. cbn [app] in *. unfold read_line. cbn [skip_ws]. rewrite Hb, (proj2 (Z.eqb_neq c 91)) by done.
    rewrite Hr by done. change (u " = ") with [32; 61; 32]. cbn [app skip_ws]. change (blank 32) with true.
    change (blank 61) with false. cbv iota. change (61 =? 61) with true. cbn [skip_ws]. change (blank 32) with true. cbv iota.
    destruct (print_value_head v Hp) as (d & s & Hv & Hd). pose proof (read_value_written v Hp) as Hrv. rewrite Hv in *.
    cbn [skip_ws]. rewrite Hd, Hrv. done.
Qed.
Lemma print_line_line l : printable_line l → Forall no_break (print_line l).
Proof.
  destruct l as [|k|k v]; cbn [printable_line print_line]; intros Hp; [constructor| |].
  - apply Forall_app_2; [by repeat constructor|]. apply Forall_app_2; [apply key_line|by repeat constructor].
  - apply Forall_app_2; [apply key_line|]. apply Forall_app_2; [by repeat constructor|].
    destruct v as [b|z|s|l|t|n]; cbn [printable print_value] in *; [destruct b; by repeat constructor| |apply toml_text_line| |done|done].
    + eapply Forall_impl; [apply int_chars|]. cbn. by intros ? (_ & _ & _ & _ & _ & ?).
    + apply Forall_app_2; [by repeat constructor|]. apply Forall_app_2; [|by repeat constructor].
      apply join_with_Forall; [by repeat constructor|]. apply Forall_fmap. eapply Forall_impl; [exact Hp|].
      intros v [s ->]. apply toml_text_line.
Qed.

Definition doc_text (ls : list line) : pystr := mjoin ((λ l, print_line l ++ [10]) <$> ls).
(** A document made of printable lines is read as these lines. *)
Lemma read_doc_written ls : Forall printable_line ls → read_doc (doc_text ls) = assemble ls.
Proof.
  intros Hls. unfold read_doc.
  assert (mapM read_line (split_on 10 (doc_text ls)) = Some (ls ++ [Blank])) as ->.
  { induction Hls as [|l ls Hl _ IH]; [done|]. change (doc_text (l :: ls)) with ((print_line l ++ [10]) ++ doc_text ls).
    rewrite <-app_assoc. cbn [app]. rewrite split_on_app by (eapply Forall_impl; [by apply print_line_line|]; by intros ? []). cbn [mapM]. by rewrite read_line_written, IH. }
  cbn. unfold assemble. by rewrite foldr_app.
Qed.
(** ['\n'.join(lines) + '\n']. *)
Lemma joined_lines l ls : join_with [10] (print_line <$> l :: ls) ++ [10] = doc_text (l :: ls).
Proof.
  revert l. induction ls as [|m ls IH]; intros l; [unfold doc_text; cbn; by rewrite app_nil_r|].
  change (doc_text (l :: m :: ls)) with ((print_line l ++ [10]) ++ doc_text (m :: ls)). rewrite <-IH. cbn [fmap list_fmap join_with].
  by rewrite <-!app_assoc.
Qed.
Lemma doc_text_no_return ls : Forall printable_line ls → Forall (λ x, x ≠ 13) (doc_text ls).
Proof.
  intros Hls. induction Hls as [|l ls Hl _ IH]; [constructor|]. change (doc_text (l :: ls)) with ((print_line l ++ [10]) ++ doc_text ls).
  apply Forall_app_2; [|done]. apply Forall_app_2; [|by repeat constructor].
  eapply Forall_impl; [by apply print_line_line|]. by intros ? [].
Qed.
