(* ===== verification/ConfigSchema.v ===== *)
(** [app/config_schema.py]: the device and secrets documents.  The strict allowlist, the
    validation of every field, the normalised document, and the bounded TOML writer; what
    was written is read back as it was.  [tomllib.loads] is [Toml.read_doc] where that is
    defined and a parameter elsewhere. *)
From S2P Require Import Prelude PyValue PyText Toml.

Definition SCHEMA_VERSION := 1.
Definition DEFAULT_PRUSA_SERVER : pystr := u "connect.prusa3d.com".
Definition LEGACY_PRUSA_SERVERS : list pystr := [u "webcam.connect.prusa3d.com"; u "camera-service-webcam.prusa3d.com"].
Definition _DEVICE_SCALARS : list pystr := [u "schema_version"; u "camera_name"; u "fingerprint"].
Definition _DEVICE_TABLES : list (pystr * list pystr) :=
  [(u "prusa", [u "server"]);
   (u "mqtt", [u "enabled"; u "uri"; u "client_id"; u "discovery_prefix"; u "topic_prefix"; u "ca_file"]);
   (u "admin", [u "hostname"]); (u "network", [u "ntp_servers"])].
Definition _META_TABLE : pystr := u "meta".
Definition _SECRET_TABLES : list (pystr * list pystr) :=
  [(u "prusa", [u "token"]); (u "mqtt", [u "username"; u "password"]); (u "wifi", [u "psk"]); (u "admin", [u "password_hash"])].
Definition _SECRET_ORDER : list (pystr * list pystr) :=
  [(u "prusa", [u "token"]); (u "mqtt", [u "username"; u "password"]); (u "wifi", [u "psk"]); (u "admin", [u "password_hash"])].
Definition MAX_NTP_SERVERS : nat := 3.

(** ** Outcomes *)

Inductive config_error := ConfigError | SchemaTooNewError | UnknownKeyError | ValidationError.
(** A call returns, raises a [ConfigError] of some class with its message, or lets another
    exception through. *)
Inductive conf (A : Type) := Good (a : A) | Bad (e : config_error) (msg : pystr) | Crash (e : exn).
Arguments Good {A} a.
Arguments Bad {A} e msg.
Arguments Crash {A} e.
#[export] Instance conf_ret : MRet conf := λ A a, Good a.
#[export] Instance conf_bind : MBind conf := λ A B f m, match m with Good a => f a | Bad e t => Bad e t | Crash e => Crash e end.
Fixpoint conf_map {A B} (f : A → conf B) (l : list A) : conf (list B) :=
  match l with
  | [] => Good []
  | a :: l => match f a with
              | Good b => match conf_map f l with Good r => Good (b :: r) | Bad e t => Bad e t | Crash e => Crash e end
              | Bad e t => Bad e t
              | Crash e => Crash e
              end
  end.
Fixpoint check_all {A} (f : A → conf unit) (l : list A) : conf unit :=
  match l with [] => Good tt | a :: l => match f a with Good _ => check_all f l | r => r end end.

(** ** The documents *)

(** The normalised device document, every documented key filled in. *)
Record device := {
  d_version : Z; camera_name : pystr; fingerprint : pystr; prusa_server : pystr;
  mqtt_enabled : bool; mqtt_uri : pystr; client_id : pystr; discovery_prefix : pystr; topic_prefix : pystr; ca_file : pystr;
  hostname : pystr; ntp_servers : list pystr; d_meta : option (gmap pystr pystr);
}.
Definition default_device : device :=
  {| d_version := SCHEMA_VERSION; camera_name := u "Printer Camera"; fingerprint := []; prusa_server := DEFAULT_PRUSA_SERVER;
     mqtt_enabled := false; mqtt_uri := u "mqtts://broker.example:8883"; client_id := []; discovery_prefix := u "homeassistant";
     topic_prefix := u "pibuddycam"; ca_file := []; hostname := []; ntp_servers := []; d_meta := None |}.
(** The secrets that are present. *)
Record secrets := {
  s_token : option pystr; s_username : option pystr; s_password : option pystr; s_psk : option pystr; s_password_hash : option pystr;
}.

(** [f'{z}'] raises beyond 4300 digits. *)
Definition printable_int (z : Z) : Prop := (length (str_of_int (Z.abs z)) ≤ Z.to_nat 4300)%nat.
Definition int_text (z : Z) : conf pystr :=
  if (length (str_of_int (Z.abs z)) <=? Z.to_nat 4300)%nat then Good (str_of_int z) else Crash ValueError.

(** ** Validation *)

Definition _expect_str (value : tval) (path : pystr) : conf pystr :=
  match value with TStr s => Good s | _ => Bad ValidationError (path ++ u " must be a string") end.
(** [lower] of a text that equals one of the two ASCII names is [lower_ascii]. *)
Definition normalize_prusa_server (value : pystr) : pystr :=
  if bool_decide (lower_ascii (strip value) ∈ LEGACY_PRUSA_SERVERS) then DEFAULT_PRUSA_SERVER else value.
Definition _validate_camera_name (value : tval) : conf pystr :=
  name ← _expect_str value (u "camera_name");
  let name := strip name in
  if bool_decide (name = []) then Bad ValidationError (u "camera_name must not be empty")
  else if (64 <? length name)%nat then Bad ValidationError (u "camera_name must be at most 64 characters")
  else Good name.
Definition prefix_char (c : Z) : bool := alnum c || (c =? 95) || (c =? 47) || (c =? 45).
Definition _validate_prefix (path : pystr) (value : tval) : conf pystr :=
  value ← _expect_str value path;
  if bool_decide (value = []) || negb (forallb prefix_char value)
  then Bad ValidationError (path ++ u " must be non-empty and match [A-Za-z0-9_/-]+")
  else Good value.

(** A label of a host name: 1 to 63 letters, digits and inner hyphens. *)
Definition host_label (s : pystr) : bool :=
  match s, rev s with
  | a :: _, z :: _ => alnum a && alnum z && forallb (λ c, alnum c || (c =? 45)) s && (length s <=? 63)%nat
  | _, _ => false
  end.
(** The final [$] makes no difference: the text is stripped. *)
Definition _NTP_HOST_RE (s : pystr) : bool := (1 <=? length s)%nat && (length s <=? 253)%nat && forallb host_label (split_on 46 s).
Fixpoint ntp_loop (items : list tval) (servers : list pystr) : conf (list pystr) :=
  match items with
  | [] => Good servers
  | item :: items =>
      match item with
      | TStr s =>
          let name := strip s in
          if negb (_NTP_HOST_RE name) then Bad ValidationError (u "network.ntp_servers entry is not a hostname or IPv4 address")
          else ntp_loop items (if bool_decide (name ∈ servers) then servers else servers ++ [name])
      | _ => Bad ValidationError (u "network.ntp_servers entries must be strings")
      end
  end.
Definition validate_ntp_servers (value : tval) : conf (list pystr) :=
  match value with
  | TArr l => if (MAX_NTP_SERVERS <? length l)%nat then Bad ValidationError (u "network.ntp_servers allows at most 3 entries") else ntp_loop l []
  | _ => Bad ValidationError (u "network.ntp_servers must be a list")
  end.

(** [SplitResult.port]: the text after the host; [None] for the [ValueError] it raises. *)
Definition after (sep : Z) (s : pystr) : pystr := match cut_at sep s with Some (_, r) => r | None => [] end.
Definition port_text (netloc : pystr) : pystr :=
  let hostinfo := match cut_at 64 (rev netloc) with Some (h, _) => rev h | None => netloc end in
  match cut_at 91 hostinfo with Some (_, bracketed) => after 58 (after 93 bracketed) | None => after 58 hostinfo end.
Definition uri_port (netloc : pystr) : option (option Z) :=
  match port_text netloc with
  | [] => Some None
  | p => if forallb is_digit p && (length p <=? Z.to_nat 4300)%nat && (decimal p <=? 65535) then Some (Some (decimal p)) else None
  end.

Section Schema.
Context (netloc_ok : pystr → bool) (toml_other : pystr → res (pystr + table)).

Definition _validate_uri (value : tval) : conf pystr :=
  value ← _expect_str value (u "mqtt.uri");
  match urlsplit netloc_ok value with
  | Raise e => Crash e
  | Ret (scheme, netloc) =>
      if negb (bool_decide (scheme ∈ [u "mqtt"; u "mqtts"])) || bool_decide (netloc = [])
      then Bad ValidationError (u "mqtt.uri must use the 'mqtt' or 'mqtts' scheme")
      else if contains_char 64 netloc
      then Bad ValidationError (u "mqtt.uri must not embed credentials; store the MQTT username/password in the secrets document")
      else match uri_port netloc with
           | None => Bad ValidationError (u "mqtt.uri port must be between 1 and 65535")
           | Some (Some p) => if (1 <=? p) && (p <=? 65535) then Good value else Bad ValidationError (u "mqtt.uri port must be between 1 and 65535")
           | Some None => Good value
           end
  end.

(** The message names the key, never a value. *)
Definition quoted (prefix : string) (key : pystr) : pystr := u prefix ++ [39] ++ key ++ [39].
Definition subkeys (prefix : string) (key : pystr) (allowed : list pystr) (section : tval) : conf unit :=
  match section with
  | TTab t => check_all (λ e : pystr * tval, if bool_decide (e.1 ∈ allowed) then Good tt
                                             else Bad UnknownKeyError (quoted prefix (key ++ [46] ++ e.1))) t
  | _ => Bad ValidationError (key ++ u " must be a table")
  end.
Definition _check_device_keys (data : table) : conf unit :=
  check_all (λ e : pystr * tval,
    match dict_get e.1 _DEVICE_TABLES with
    | Some allowed => subkeys "unknown device key " e.1 allowed e.2
    | None =>
        if bool_decide (e.1 = _META_TABLE) then match e.2 with TTab _ => Good tt | _ => Bad ValidationError (u "meta must be a table") end
        else if bool_decide (e.1 ∈ _DEVICE_SCALARS) then Good tt else Bad UnknownKeyError (quoted "unknown device key " e.1)
    end) data.

(** [if key in section: cfg[key] = check(section[key])]. *)
Definition given {A} (key : string) (section : table) (check : tval → conf A) (old : A) : conf A :=
  match dict_get (u key) section with Some v => check v | None => Good old end.
Definition too_new {A} (z : Z) : conf A :=
  t ← int_text z; Bad SchemaTooNewError (u "schema_version " ++ t ++ u " is newer than supported schema 1").
Definition check_version (v : tval) : conf Z :=
  match v with
  | TInt z => if SCHEMA_VERSION <? z then too_new z else Good z
  | _ => Bad ValidationError (u "schema_version must be an integer")
  end.
Definition check_enabled (v : tval) : conf bool :=
  match v with TBool b => Good b | _ => Bad ValidationError (u "mqtt.enabled must be a boolean") end.
Definition expect (path : string) (v : tval) : conf pystr := _expect_str v (u path).
Definition check_server (v : tval) : conf pystr := s ← _expect_str v (u "prusa.server"); Good (normalize_prusa_server s).
Definition section (key : string) (data : table) : table := match dict_get (u key) data with Some (TTab t) => t | _ => [] end.
Definition meta_entry (e : pystr * tval) : conf (pystr * pystr) :=
  match e.2 with TStr s => Good (e.1, s) | _ => Bad ValidationError (quoted "meta value for " e.1 ++ u " must be a string") end.
Definition check_meta (data : table) : conf (option (gmap pystr pystr)) :=
  match dict_get _META_TABLE data with
  | Some (TTab t) => l ← conf_map meta_entry t; Good (Some (list_to_map l))
  | _ => Good None
  end.

Definition _validate_device (data : tval) : conf device :=
  match data with
  | TTab data =>
      _ ← _check_device_keys data;
      version ← given "schema_version" data check_version 1;
      name ← given "camera_name" data _validate_camera_name (camera_name default_device);
      print ← given "fingerprint" data (expect "fingerprint") [];
      server ← given "server" (section "prusa" data) check_server (prusa_server default_device);
      let mqtt := section "mqtt" data in
      enabled ← given "enabled" mqtt check_enabled false;
      uri ← given "uri" mqtt _validate_uri (mqtt_uri default_device);
      client ← given "client_id" mqtt (expect "mqtt.client_id") [];
      ca ← given "ca_file" mqtt (expect "mqtt.ca_file") [];
      discovery ← given "discovery_prefix" mqtt (_validate_prefix (u "mqtt.discovery_prefix")) (discovery_prefix default_device);
      topic ← given "topic_prefix" mqtt (_validate_prefix (u "mqtt.topic_prefix")) (topic_prefix default_device);
      host ← given "hostname" (section "admin" data) (expect "admin.hostname") [];
      ntp ← given "ntp_servers" (section "network" data) validate_ntp_servers [];
      meta ← check_meta data;
      Good {| d_version := version; camera_name := name; fingerprint := print; prusa_server := server; mqtt_enabled := enabled;
              mqtt_uri := uri; client_id := client; discovery_prefix := discovery; topic_prefix := topic; ca_file := ca;
              hostname := host; ntp_servers := ntp; d_meta := meta |}
  | _ => Bad ValidationError (u "device configuration must be a table")
  end.

Definition _check_secrets_keys (data : table) : conf unit :=
  check_all (λ e : pystr * tval,
    if bool_decide (e.1 = u "schema_version") then Good tt
    else match dict_get e.1 _SECRET_TABLES with
         | Some allowed => subkeys "unknown secrets key " e.1 allowed e.2
         | None => Bad UnknownKeyError (quoted "unknown secrets key " e.1)
         end) data.
Definition secret (tab key : string) (data : table) : conf (option pystr) :=
  match dict_get (u key) (section tab data) with
  | Some v => s ← _expect_str v (u tab ++ [46] ++ u key); Good (Some s)
  | None => Good None
  end.
Definition _validate_secrets (data : tval) : conf secrets :=
  match data with
  | TTab data =>
      _ ← match dict_get (u "schema_version") data with Some v => z ← check_version v; Good tt | None => Good tt end;
      _ ← _check_secrets_keys data;
      token ← secret "prusa" "token" data;
      username ← secret "mqtt" "username" data;
      password ← secret "mqtt" "password" data;
      psk ← secret "wifi" "psk" data;
      hash ← secret "admin" "password_hash" data;
      Good {| s_token := token; s_username := username; s_password := password; s_psk := psk; s_password_hash := hash |}
  | _ => Bad ValidationError (u "secrets configuration must be a table")
  end.

(** [_loads]: [tomllib] answers with a table, a decode error or another exception. *)
Definition _loads (text : pystr) : conf table :=
  match match read_doc text with Some t => Ret (inr t) | None => toml_other text end with
  | Ret (inr t) => Good t
  | Ret (inl msg) => Bad ValidationError (u "invalid TOML: " ++ msg)
  | Raise e => Crash e
  end.
Definition parse_device (text : pystr) : conf device := t ← _loads text; _validate_device (TTab t).
Definition parse_secrets (text : pystr) : conf secrets := t ← _loads text; _validate_secrets (TTab t).

(** ** Migrations *)

Definition migration := table → conf table.
Fixpoint migrate_loop (MIGRATIONS : Z → option migration) (n : nat) (version : Z) (current : table) : conf table :=
  match n with
  | O => Good current
  | S n =>
      if version <? SCHEMA_VERSION then
        match MIGRATIONS version with
        | None => t ← int_text version; Bad ConfigError (u "no migration registered from schema version " ++ t)
        | Some m => current ← m current; migrate_loop MIGRATIONS n (version + 1) current
        end
      else Good current
  end.
Definition migrate_device (MIGRATIONS : Z → option migration) (cfg : table) (from_version : Z) : conf table :=
  if SCHEMA_VERSION <? from_version then too_new from_version
  else current ← migrate_loop MIGRATIONS (S (Z.to_nat (SCHEMA_VERSION - from_version))) from_version cfg;
       Good (dict_set (u "schema_version") (TInt SCHEMA_VERSION) current).
End Schema.

(** ** The writers *)

Definition _toml_bool (v : tval) : conf pystr :=
  match v with TBool b => Good (if b then u "true" else u "false") | _ => Bad ValidationError (u "configuration boolean must be a boolean") end.
Definition _toml_str (v : tval) : conf pystr :=
  match v with TStr s => Good (toml_text s) | _ => Bad ValidationError (u "configuration value must be a string") end.

(** [_merge_device_defaults], a key at a time. *)
Definition merged_top (cfg : tval) (key : string) (dflt : tval) : tval :=
  match cfg with TTab t => default dflt (dict_get (u key) t) | _ => dflt end.
Definition merged_sub (cfg : tval) (tab key : string) (dflt : tval) : tval :=
  match cfg with TTab t => default dflt (dict_get (u key) (section tab t)) | _ => dflt end.
Definition merged_meta (cfg : tval) : option table :=
  match cfg with TTab t => match dict_get _META_TABLE t with Some (TTab m) => Some m | _ => None end | _ => None end.

Definition version_line (v : tval) : conf pystr :=
  match v with
  | TInt z => t ← int_text z; Good (u "schema_version = " ++ t)
  | _ => Bad ValidationError (u "schema_version must be an integer")
  end.
Definition text_line (prefix : string) (v : tval) : conf pystr := s ← _toml_str v; Good (u prefix ++ s).
Definition key_le (a b : pystr * tval) : Prop := str_le a.1 b.1.
#[export] Instance key_le_dec a b : Decision (key_le a b) := decide (str_le a.1 b.1).
Definition meta_line (e : pystr * tval) : conf pystr := s ← _toml_str e.2; Good (_toml_key e.1 ++ u " = " ++ s).
Definition ntp_line (v : tval) : conf pystr :=
  servers ← validate_ntp_servers v;
  Good (u "ntp_servers = [" ++ join_with (u ", ") (toml_text <$> servers) ++ u "]").

Definition dumps_device (cfg : tval) : conf pystr :=
  let d := default_device in
  version ← version_line (merged_top cfg "schema_version" (TInt (d_version d)));
  name ← text_line "camera_name = " (merged_top cfg "camera_name" (TStr (camera_name d)));
  print ← text_line "fingerprint = " (merged_top cfg "fingerprint" (TStr (fingerprint d)));
  server ← text_line "server = " (merged_sub cfg "prusa" "server" (TStr (prusa_server d)));
  enabled ← _toml_bool (merged_sub cfg "mqtt" "enabled" (TBool (mqtt_enabled d)));
  uri ← text_line "uri = " (merged_sub cfg "mqtt" "uri" (TStr (mqtt_uri d)));
  client ← text_line "client_id = " (merged_sub cfg "mqtt" "client_id" (TStr (client_id d)));
  discovery ← text_line "discovery_prefix = " (merged_sub cfg "mqtt" "discovery_prefix" (TStr (discovery_prefix d)));
  topic ← text_line "topic_prefix = " (merged_sub cfg "mqtt" "topic_prefix" (TStr (topic_prefix d)));
  ca ← text_line "ca_file = " (merged_sub cfg "mqtt" "ca_file" (TStr (ca_file d)));
  host ← text_line "hostname = " (merged_sub cfg "admin" "hostname" (TStr (hostname d)));
  ntp ← ntp_line (merged_sub cfg "network" "ntp_servers" (TArr []));
  meta ← match merged_meta cfg with
         | None => Good []
         | Some m => lines ← conf_map meta_line (merge_sort key_le m); Good ([] :: u "[meta]" :: lines)
         end;
  Good (join_with [10]
    ([version; name; print; []; u "[prusa]"; server; []; u "[mqtt]"; u "enabled = " ++ enabled; uri; client; discovery; topic; ca;
      []; u "[admin]"; host; []; u "[network]"; ntp] ++ meta) ++ [10]).

Definition secret_line (tab key : pystr) (v : tval) : conf pystr :=
  s ← _expect_str v (tab ++ [46] ++ key); Good (key ++ u " = " ++ toml_text s).
(** One table of the secrets: nothing unless a key is present. *)
Definition secret_block (cfg : table) (e : pystr * list pystr) : conf (list pystr) :=
  match dict_get e.1 cfg with
  | Some (TTab s) =>
      match List.filter (λ k, match dict_get k s with Some _ => true | None => false end) e.2 with
      | [] => Good []
      | present =>
          lines ← conf_map (λ k, match dict_get k s with Some v => secret_line e.1 k v | None => Good [] end) present;
          Good [join_with [10] ((u "[" ++ e.1 ++ u "]") :: lines)]
      end
  | _ => Good []
  end.
Definition dumps_secrets (cfg : table) : conf pystr :=
  blocks ← conf_map (secret_block cfg) _SECRET_ORDER;
  match mjoin blocks with [] => Good [] | bs => Good (join_with [10; 10] bs ++ [10]) end.

(** ** What was written is read back *)

(** The dict of a normalised document. *)
Definition device_doc (d : device) : tval :=
  TTab ([(u "schema_version", TInt (d_version d)); (u "camera_name", TStr (camera_name d)); (u "fingerprint", TStr (fingerprint d));
         (u "prusa", TTab [(u "server", TStr (prusa_server d))]);
         (u "mqtt", TTab [(u "enabled", TBool (mqtt_enabled d)); (u "uri", TStr (mqtt_uri d)); (u "client_id", TStr (client_id d));
                          (u "discovery_prefix", TStr (discovery_prefix d)); (u "topic_prefix", TStr (topic_prefix d));
                          (u "ca_file", TStr (ca_file d))]);
         (u "admin", TTab [(u "hostname", TStr (hostname d))]);
         (u "network", TTab [(u "ntp_servers", TArr (TStr <$> ntp_servers d))])] ++
        match d_meta d with Some m => [(_META_TABLE, TTab (prod_map id TStr <$> map_to_list m))] | None => [] end).
Definition sorted_meta (m : gmap pystr pystr) : table := merge_sort key_le (prod_map id TStr <$> map_to_list m).
Definition device_lines (d : device) : list line :=
  [Pair (u "schema_version") (TInt (d_version d)); Pair (u "camera_name") (TStr (camera_name d));
   Pair (u "fingerprint") (TStr (fingerprint d)); Blank; Header (u "prusa"); Pair (u "server") (TStr (prusa_server d)); Blank;
   Header (u "mqtt"); Pair (u "enabled") (TBool (mqtt_enabled d)); Pair (u "uri") (TStr (mqtt_uri d));
   Pair (u "client_id") (TStr (client_id d)); Pair (u "discovery_prefix") (TStr (discovery_prefix d));
   Pair (u "topic_prefix") (TStr (topic_prefix d)); Pair (u "ca_file") (TStr (ca_file d)); Blank; Header (u "admin");
   Pair (u "hostname") (TStr (hostname d)); Blank; Header (u "network"); Pair (u "ntp_servers") (TArr (TStr <$> ntp_servers d))] ++
  match d_meta d with Some m => [Blank; Header (u "meta")] ++ ((λ e, Pair e.1 e.2) <$> sorted_meta m) | None => [] end.
(** The table that [tomllib] returns for the written text. *)
Definition written (d : device) : table :=
  [(u "schema_version", TInt (d_version d)); (u "camera_name", TStr (camera_name d)); (u "fingerprint", TStr (fingerprint d));
   (u "prusa", TTab [(u "server", TStr (prusa_server d))]);
   (u "mqtt", TTab [(u "enabled", TBool (mqtt_enabled d)); (u "uri", TStr (mqtt_uri d)); (u "client_id", TStr (client_id d));
                    (u "discovery_prefix", TStr (discovery_prefix d)); (u "topic_prefix", TStr (topic_prefix d));
                    (u "ca_file", TStr (ca_file d))]);
   (u "admin", TTab [(u "hostname", TStr (hostname d))]);
   (u "network", TTab [(u "ntp_servers", TArr (TStr <$> ntp_servers d))])] ++
  match d_meta d with Some m => [(u "meta", TTab (sorted_meta m))] | None => [] end.

Lemma conf_bind_good {A B} (f : A → conf B) (m : conf A) b : (m ≫= f) = Good b ↔ ∃ a, m = Good a ∧ f a = Good b.
Proof. destruct m; cbn; naive_solver. Qed.
Lemma conf_map_good {A B} (f : A → conf B) l r : conf_map f l = Good r ↔ Forall2 (λ a b, f a = Good b) l r.
Proof.
  revert r. induction l as [|a l IH]; intros r; cbn.
  - split; [intros [= <-]; constructor|]. by inversion 1.
  - split.
    + destruct (f a) as [b| |] eqn:Hf; [|done|done]. destruct (conf_map f l) as [r'| |]; [|done|done]. intros [= <-].
      constructor; [done|]. by apply IH.
    + inversion 1 as [|? b ? r' Hf Hr]; subst. rewrite Hf. apply IH in Hr. by rewrite Hr.
Qed.
Lemma check_all_good {A} (f : A → conf unit) l : check_all f l = Good tt ↔ Forall (λ a, f a = Good tt) l.
Proof.
  induction l as [|a l IH]; cbn; [by split|]. rewrite Forall_cons, <-IH. destruct (f a) as [[]| |]; naive_solver.
Qed.

Section Meta.
Context (m : gmap pystr pystr).
#[local] Instance key_le_total : Total key_le.
Proof. intros a b. apply (str_leb_total a.1 b.1). Qed.
Lemma sorted_meta_perm : sorted_meta m ≡ₚ prod_map id TStr <$> map_to_list m.
Proof. apply merge_sort_Permutation. Qed.
Lemma sorted_meta_keys : NoDup (sorted_meta m).*1.
Proof.
  rewrite sorted_meta_perm, <-list_fmap_compose. rewrite (list_fmap_ext _ fst) by done. apply NoDup_fst_map_to_list.
Qed.
Lemma sorted_meta_text : Forall (λ e, ∃ s, e.2 = TStr s) (sorted_meta m).
Proof.
  apply Forall_forall. intros e. rewrite sorted_meta_perm. intros ([k s] & -> & _)%list_elem_of_fmap. by eexists.
Qed.
Lemma sorted_meta_entries : ∃ l, conf_map meta_entry (sorted_meta m) = Good l ∧ list_to_map l = m.
Proof.
  assert (∀ t : table, Forall (λ e, ∃ s, e.2 = TStr s) t →
    ∃ l : list (pystr * pystr), conf_map meta_entry t = Good l ∧ t = prod_map id TStr <$> l) as Ht.
  { intros t Ht. induction Ht as [|[k v] t [s Hs] _ (l & IH & ->)]; [by exists []|]. cbn in Hs. subst v.
    exists ((k, s) :: l). cbn. by rewrite IH. }
  destruct (Ht _ sorted_meta_text) as (l & Hl & He). exists l. split; [done|].
  assert (l ≡ₚ map_to_list m) as Hp.
  { pose proof sorted_meta_perm as Hp. rewrite He in Hp.
    assert (∀ l : list (pystr * pystr), (λ e, (e.1, match e.2 with TStr s => s | _ => [] end)) <$> (prod_map id TStr <$> l) = l) as Hinv.
    { intros l'. rewrite <-list_fmap_compose. rewrite <-(list_fmap_id l') at 2. apply list_fmap_ext. by intros _ [? ?] _. }
    rewrite <-(Hinv l), Hp. by rewrite Hinv. }
  rewrite (list_to_map_proper l (map_to_list m)); [by apply list_to_map_to_list| |done].
  rewrite Hp. apply NoDup_fst_map_to_list.
Qed.
End Meta.

(** *** Lookups of literal keys *)

Lemma dict_get_here {A} (k : pystr) (v : A) d : dict_get k ((k, v) :: d) = Some v.
Proof. cbn. by rewrite decide_True. Qed.
Lemma dict_get_skip {A} (k k' : pystr) (v : A) d : k ≠ k' → dict_get k ((k', v) :: d) = dict_get k d.
Proof. intros Hk. cbn. by rewrite decide_False. Qed.
Ltac known_keys := repeat (rewrite dict_get_here || rewrite dict_get_skip by (vm_compute; discriminate)).

(** *** The fields *)

Lemma expect_str_good v path s : _expect_str v path = Good s → v = TStr s.
Proof. destruct v; naive_solver. Qed.
Lemma camera_name_good v n : _validate_camera_name v = Good n → n = strip n ∧ n ≠ [] ∧ (length n ≤ 64)%nat.
Proof.
  intros (s & ->%expect_str_good & Hn)%conf_bind_good. cbv zeta in Hn. case_bool_decide; [done|]. destruct (64 <? _)%nat eqn:Hl; [done|].
  apply Nat.ltb_ge in Hl. injection Hn as <-. by rewrite strip_idemp.
Qed.
Lemma camera_name_again v n : _validate_camera_name v = Good n → _validate_camera_name (TStr n) = Good n.
Proof.
  intros (Hs & Hn & Hl)%camera_name_good. unfold _validate_camera_name, mbind, conf_bind, _expect_str. cbv zeta.
  rewrite <-Hs, bool_decide_false by done. by rewrite (proj2 (Nat.ltb_ge _ _)) by done.
Qed.
Lemma server_again s : normalize_prusa_server (normalize_prusa_server s) = normalize_prusa_server s.
Proof.
  unfold normalize_prusa_server at 2 3. case_bool_decide as Hs; [by vm_compute|]. unfold normalize_prusa_server. by rewrite bool_decide_false.
Qed.
Lemma prefix_again path v s : _validate_prefix path v = Good s →
  v = TStr s ∧ s ≠ [] ∧ Forall (λ c, prefix_char c = true) s ∧ ∀ path', _validate_prefix path' (TStr s) = Good s.
Proof.
  intros (t & ->%expect_str_good & Hv)%conf_bind_good. destruct (bool_decide (t = []) || _) eqn:Hb; [done|]. injection Hv as <-.
  split_and!; [done| | |by intros path'; cbn; rewrite Hb].
  - apply orb_false_iff in Hb as [Hb _]. by apply bool_decide_eq_false in Hb.
  - apply orb_false_iff in Hb as [_ Hb%negb_false_iff]. apply Forall_forall. intros c Hc%list_elem_of_In. rewrite forallb_forall in Hb. auto.
Qed.
Definition ntp_name (s : pystr) : Prop := strip s = s ∧ _NTP_HOST_RE s = true.
Lemma ntp_loop_good items acc l : ntp_loop items acc = Good l → NoDup acc → Forall ntp_name acc →
  NoDup l ∧ Forall ntp_name l ∧ (length l ≤ length acc + length items)%nat.
Proof.
  revert acc. induction items as [|v items IH]; intros acc; cbn [ntp_loop].
  - intros [= <-] ??. cbn. split_and!; [done|done|lia].
  - destruct v as [| |s| | |]; try done. destruct (negb (_NTP_HOST_RE (strip s))) eqn:Hs; [done|]. apply negb_false_iff in Hs.
    intros Hr Hnd Hall. case_bool_decide as Hin.
    + destruct (IH _ Hr Hnd Hall) as (? & ? & ?). cbn. split_and!; [done|done|lia].
    + destruct (IH _ Hr) as (? & ? & Hl).
      * apply NoDup_app. split_and!; [done| |apply NoDup_singleton]. intros x Hx ->%list_elem_of_singleton. done.
      * apply Forall_app_2; [done|]. constructor; [|done]. split; [apply strip_idemp|done].
      * rewrite length_app in Hl. cbn in *. split_and!; [done|done|lia].
Qed.
Lemma ntp_loop_again l acc : NoDup (acc ++ l) → Forall ntp_name l → ntp_loop (TStr <$> l) acc = Good (acc ++ l).
Proof.
  revert acc. induction l as [|s l IH]; intros acc Hnd Hl; cbn [fmap list_fmap ntp_loop]; [by rewrite app_nil_r|].
  apply Forall_cons in Hl as [[-> ->] Hl]. cbn [negb]. rewrite bool_decide_false.
  - rewrite IH; rewrite <-?app_assoc; done.
  - apply NoDup_app in Hnd as (_ & Hno & _). intros Hin. apply (Hno s Hin). by left.
Qed.
Lemma ntp_again v l : validate_ntp_servers v = Good l →
  NoDup l ∧ Forall ntp_name l ∧ (length l ≤ MAX_NTP_SERVERS)%nat ∧ validate_ntp_servers (TArr (TStr <$> l)) = Good l.
Proof.
  destruct v as [| | |items| |]; try done. unfold validate_ntp_servers. destruct (_ <? _)%nat eqn:Hlen; [done|]. apply Nat.ltb_ge in Hlen.
  intros Hl. destruct (ntp_loop_good _ _ _ Hl) as (Hnd & Hf & Hb); [constructor|constructor|]. cbn in Hb.
  split_and!; [done|done|lia|]. rewrite length_fmap, (proj2 (Nat.ltb_ge _ _)) by lia. by apply ntp_loop_again.
Qed.
Lemma given_again {A} (P : A → Prop) key t (f : tval → conf A) old a :
  given key t f old = Good a → P old → (∀ v a, f v = Good a → P a) → P a.
Proof. unfold given. destruct (dict_get _ _) as [v|]; [by eauto|]. by intros [= <-]. Qed.

Section Valid.
Context (netloc_ok : pystr → bool).
Abbreviation valid_device := (_validate_device netloc_ok).
Abbreviation valid_uri := (_validate_uri netloc_ok).

Record device_ok (d : device) : Prop := {
  ok_version : d_version d ≤ SCHEMA_VERSION;
  ok_name : _validate_camera_name (TStr (camera_name d)) = Good (camera_name d);
  ok_server : normalize_prusa_server (prusa_server d) = prusa_server d;
  ok_uri : valid_uri (TStr (mqtt_uri d)) = Good (mqtt_uri d);
  ok_discovery : ∀ path, _validate_prefix path (TStr (discovery_prefix d)) = Good (discovery_prefix d);
  ok_topic : ∀ path, _validate_prefix path (TStr (topic_prefix d)) = Good (topic_prefix d);
  ok_ntp : validate_ntp_servers (TArr (TStr <$> ntp_servers d)) = Good (ntp_servers d);
}.

Lemma uri_again v s : valid_uri v = Good s → v = TStr s ∧ valid_uri (TStr s) = Good s.
Proof.
  intros Hv. assert (v = TStr s) as ->; [|done]. apply conf_bind_good in Hv as (t & ->%expect_str_good & Hv).
  destruct (urlsplit _ _) as [[scheme netloc]|]; [|done]. destruct (_ || _); [done|]. destruct (contains_char _ _); [done|].
  destruct (uri_port _) as [[p|]|]; [destruct (_ && _)| |]; try done; by injection Hv as <-.
Qed.
(** The name check of [urlsplit] lets plain ASCII hosts pass. *)
Class PlainHosts : Prop := plain_host : ∀ s, forallb (λ c, alnum c || (c =? 45) || (c =? 46) || (c =? 58)) s = true → netloc_ok s = true.
Context `{!PlainHosts}.
Lemma default_uri_ok : valid_uri (TStr (mqtt_uri default_device)) = Good (mqtt_uri default_device).
Proof.
  unfold _validate_uri, mbind, conf_bind, _expect_str, urlsplit.
  change (split_scheme (clean_url (mqtt_uri default_device))) with (u "mqtts", u "//broker.example:8883").
  cbv beta iota zeta. change (netloc_of (u "//broker.example:8883")) with (u "broker.example:8883").
  by rewrite (plain_host (u "broker.example:8883")).
Qed.
Lemma validate_ok data d : valid_device data = Good d → device_ok d.
Proof.
  destruct data as [| | | |t|]; try done. unfold _validate_device. intros Hd.
  repeat (apply conf_bind_good in Hd as (? & ? & Hd)). injection Hd as <-. split; cbn [d_version camera_name prusa_server mqtt_uri discovery_prefix topic_prefix ntp_servers].
  - eapply (given_again (λ z, z ≤ SCHEMA_VERSION)); [eassumption|done|]. intros v z. destruct v as [|z'| | | |]; try done.
    unfold check_version. destruct (Z.ltb_spec SCHEMA_VERSION z'); [unfold too_new; by destruct (int_text z')|]. by intros [= <-].
  - eapply (given_again (λ n, _validate_camera_name (TStr n) = Good n)); [eassumption|by vm_compute|]. apply camera_name_again.
  - eapply (given_again (λ n, normalize_prusa_server n = n)); [eassumption|by vm_compute|].
    intros v n (? & _ & [= <-])%conf_bind_good. apply server_again.
  - eapply (given_again (λ n, valid_uri (TStr n) = Good n)); [eassumption|apply default_uri_ok|]. intros v n Hv. by apply uri_again in Hv as [_ ?].
  - eapply (given_again (λ n, ∀ path, _validate_prefix path (TStr n) = Good n)); [eassumption|intros path; by vm_compute|].
    intros v n Hv. by apply prefix_again in Hv as (_ & _ & _ & ?).
  - eapply (given_again (λ n, ∀ path, _validate_prefix path (TStr n) = Good n)); [eassumption|intros path; by vm_compute|].
    intros v n Hv. by apply prefix_again in Hv as (_ & _ & _ & ?).
  - eapply (given_again (λ n, validate_ntp_servers (TArr (TStr <$> n)) = Good n)); [eassumption|by vm_compute|].
    intros v n Hv. by apply ntp_again in Hv as (_ & _ & _ & ?).
Qed.

Lemma given_known {A} key t v (f : tval → conf A) old : dict_get (u key) t = Some v → given key t f old = f v.
Proof. unfold given. by intros ->. Qed.
Lemma section_known key t s : dict_get (u key) t = Some (TTab s) → section key t = s.
Proof. unfold section. by intros ->. Qed.

Section RoundTrip.
Context (d : device).
(** Lookups of the documented keys in a table that lists them. *)
Lemma written_sections :
  section "prusa" (written d) = [(u "server", TStr (prusa_server d))] ∧
  section "mqtt" (written d) =
    [(u "enabled", TBool (mqtt_enabled d)); (u "uri", TStr (mqtt_uri d)); (u "client_id", TStr (client_id d));
     (u "discovery_prefix", TStr (discovery_prefix d)); (u "topic_prefix", TStr (topic_prefix d)); (u "ca_file", TStr (ca_file d))] ∧
  section "admin" (written d) = [(u "hostname", TStr (hostname d))] ∧
  section "network" (written d) = [(u "ntp_servers", TArr (TStr <$> ntp_servers d))].
Proof. unfold written. split_and!; apply section_known; cbn [app]; by known_keys. Qed.
Lemma written_keys : _check_device_keys (written d) = Good tt.
Proof.
  apply check_all_good, Forall_app. split; [repeat constructor; by vm_compute|]. destruct (d_meta d) as [m|]; [|constructor].
  generalize (sorted_meta m). intros t. repeat constructor.
Qed.
Lemma written_meta : check_meta (written d) = Good (d_meta d).
Proof.
  unfold check_meta, written, _META_TABLE. cbn [app]. known_keys. destruct (d_meta d) as [m|]; [|done]. known_keys.
  destruct (sorted_meta_entries m) as (l & -> & <-). done.
Qed.
Lemma validate_written : device_ok d → valid_device (TTab (written d)) = Good d.
Proof.
  intros [Hv Hn Hs Hu Hp Ht Hntp]. destruct written_sections as (Hs1 & Hs2 & Hs3 & Hs4).
  unfold _validate_device. rewrite written_keys, Hs1, Hs2, Hs3, Hs4, written_meta. unfold mbind, conf_bind.
  assert (∀ {A} key v (f : tval → conf A) old, dict_get (u key) (written d) = Some v → given key (written d) f old = f v) as Hg
    by (intros; by apply given_known).
  rewrite (Hg _ "schema_version" (TInt (d_version d))) by done. unfold check_version. rewrite (proj2 (Z.ltb_ge _ _)) by done.
  rewrite (Hg _ "camera_name" (TStr (camera_name d))), Hn by (unfold written; cbn [app]; by known_keys).
  rewrite (Hg _ "fingerprint" (TStr (fingerprint d))) by (unfold written; cbn [app]; by known_keys).
  repeat (rewrite given_known with (v := TStr (prusa_server d)) by by known_keys
    || rewrite given_known with (v := TBool (mqtt_enabled d)) by by known_keys).
  rewrite (given_known "uri" _ (TStr (mqtt_uri d))) by by known_keys. rewrite Hu.
  rewrite (given_known "client_id" _ (TStr (client_id d))) by by known_keys.
  rewrite (given_known "ca_file" _ (TStr (ca_file d))) by by known_keys.
  rewrite (given_known "discovery_prefix" _ (TStr (discovery_prefix d))) by by known_keys. rewrite Hp.
  rewrite (given_known "topic_prefix" _ (TStr (topic_prefix d))) by by known_keys. rewrite Ht.
  rewrite (given_known "hostname" _ (TStr (hostname d))) by by known_keys.
  rewrite (given_known "ntp_servers" _ (TArr (TStr <$> ntp_servers d))) by by known_keys. rewrite Hntp.
  unfold check_server, _expect_str, mbind, conf_bind, mret, conf_ret. rewrite Hs. by destruct d.
Qed.

Lemma assemble_written : assemble (device_lines d) = Some (written d).
Proof.
  unfold assemble, device_lines, written. rewrite foldr_app. destruct (d_meta d) as [m|]; [|by vm_compute].
  assert (foldr add_line (Some ([], [])) ((λ e, Pair e.1 e.2) <$> sorted_meta m) = Some (sorted_meta m, [])) as Hm.
  { pose proof (sorted_meta_keys m) as Hnd. induction (sorted_meta m) as [|[k v] t IH]; [done|]. cbn [fmap list_fmap fst] in Hnd.
    apply NoDup_cons in Hnd as [Hk Hnd]. cbn [fmap list_fmap foldr]. rewrite IH by done. cbn [add_line fst snd]. by rewrite bool_decide_false. }
  rewrite foldr_app, Hm. generalize (sorted_meta m). intros t. by vm_compute.
Qed.
Lemma lines_printable : printable_int (d_version d) → Forall printable_line (device_lines d).
Proof.
  intros Hv. apply Forall_app. split.
  - repeat (apply Forall_cons_2; [try done|]); [|apply Forall_nil_2]. apply Forall_fmap, Forall_true. intros s. by exists s.
  - destruct (d_meta d) as [m|]; [|constructor]. apply Forall_app. split; [repeat constructor|]. apply Forall_fmap.
    eapply Forall_impl; [apply sorted_meta_text|]. cbn. by intros e (s & ->).
Qed.
End RoundTrip.
End Valid.

(** *** The device document *)

Lemma merged_doc d :
  let doc := device_doc d in
  merged_top doc "schema_version" (TInt (d_version default_device)) = TInt (d_version d) ∧
  merged_top doc "camera_name" (TStr (camera_name default_device)) = TStr (camera_name d) ∧
  merged_top doc "fingerprint" (TStr (fingerprint default_device)) = TStr (fingerprint d) ∧
  merged_sub doc "prusa" "server" (TStr (prusa_server default_device)) = TStr (prusa_server d) ∧
  merged_sub doc "mqtt" "enabled" (TBool (mqtt_enabled default_device)) = TBool (mqtt_enabled d) ∧
  merged_sub doc "mqtt" "uri" (TStr (mqtt_uri default_device)) = TStr (mqtt_uri d) ∧
  merged_sub doc "mqtt" "client_id" (TStr (client_id default_device)) = TStr (client_id d) ∧
  merged_sub doc "mqtt" "discovery_prefix" (TStr (discovery_prefix default_device)) = TStr (discovery_prefix d) ∧
  merged_sub doc "mqtt" "topic_prefix" (TStr (topic_prefix default_device)) = TStr (topic_prefix d) ∧
  merged_sub doc "mqtt" "ca_file" (TStr (ca_file default_device)) = TStr (ca_file d) ∧
  merged_sub doc "admin" "hostname" (TStr (hostname default_device)) = TStr (hostname d) ∧
  merged_sub doc "network" "ntp_servers" (TArr []) = TArr (TStr <$> ntp_servers d) ∧
  merged_meta doc = (λ m, prod_map id TStr <$> map_to_list m) <$> d_meta d.
Proof.
  unfold device_doc, merged_top, merged_sub, merged_meta, section. cbn [app].
  split_and!; [known_keys; cbn [default]; by known_keys..|]. unfold _META_TABLE. known_keys. destruct (d_meta d) as [m|]; [|done]. by known_keys.
Qed.
Lemma meta_lines (t : table) : Forall (λ e, ∃ s, e.2 = TStr s) t →
  conf_map meta_line t = Good (print_line <$> ((λ e : pystr * tval, Pair e.1 e.2) <$> t)).
Proof.
  intros Ht. apply conf_map_good. induction Ht as [|[k v] t [s Hs] _ IH]; [constructor|]. constructor; [|exact IH].
  cbn in Hs. by subst v.
Qed.
Lemma dumps_device_doc netloc_ok d : device_ok netloc_ok d → printable_int (d_version d) →
  dumps_device (device_doc d) = Good (doc_text (device_lines d)).
Proof.
  intros Hok Hv. destruct (merged_doc d) as (H1 & H2 & H3 & H4 & H5 & H6 & H7 & H8 & H9 & H10 & H11 & H12 & H13).
  unfold dumps_device. rewrite H1, H2, H3, H4, H5, H6, H7, H8, H9, H10, H11, H12, H13.
  unfold version_line, text_line, ntp_line, int_text, _toml_str, _toml_bool, mbind, conf_bind.
  assert ((length (str_of_int (Z.abs (d_version d))) <=? Z.to_nat 4300)%nat = true) as -> by by apply Nat.leb_le.
  rewrite (ok_ntp _ _ Hok).
  assert (u "ntp_servers = [" ++ join_with (u ", ") (toml_text <$> ntp_servers d) ++ u "]" =
    print_line (Pair (u "ntp_servers") (TArr (TStr <$> ntp_servers d)))) as ->.
  { cbn [print_line print_value]. by rewrite <-list_fmap_compose. }
  unfold device_lines. destruct (d_meta d) as [m|]; cbn [fmap option_fmap option_map].
  - change (merge_sort key_le (prod_map id TStr <$> map_to_list m)) with (sorted_meta m). rewrite (meta_lines (sorted_meta m)) by apply sorted_meta_text. cbv beta iota. cbn [app]. rewrite <-joined_lines. done.
  - cbn [app]. rewrite <-joined_lines. done.
Qed.
Lemma device_text_read netloc_ok toml_other d : device_ok netloc_ok d → printable_int (d_version d) →
  parse_device netloc_ok toml_other (doc_text (device_lines d)) = Good d.
Proof.
  intros Hok Hv. unfold parse_device, _loads. rewrite read_doc_written by by apply lines_printable.
  rewrite assemble_written. by apply validate_written.
Qed.

(** *** The secrets document *)

Definition secret_pair (key : string) (o : option pystr) : table := match o with Some s => [(u key, TStr s)] | None => [] end.
Definition secret_tables (s : secrets) : list (pystr * table) :=
  List.filter (λ e, match e.2 with [] => false | _ => true end)
    [(u "prusa", secret_pair "token" (s_token s)); (u "mqtt", secret_pair "username" (s_username s) ++ secret_pair "password" (s_password s));
     (u "wifi", secret_pair "psk" (s_psk s)); (u "admin", secret_pair "password_hash" (s_password_hash s))].
(** The dict of the secrets that are present. *)
Definition secrets_doc (s : secrets) : table := prod_map id TTab <$> secret_tables s.
Definition secret_blocks (s : secrets) : list (list line) :=
  (λ e : pystr * table, Header e.1 :: ((λ p : pystr * tval, Pair p.1 p.2) <$> e.2)) <$> secret_tables s.
Fixpoint with_blanks (bs : list (list line)) : list line :=
  match bs with [] => [] | [b] => b | b :: bs => b ++ Blank :: with_blanks bs end.
Definition secrets_text (s : secrets) : pystr := doc_text (with_blanks (secret_blocks s)).

Lemma join_with_app (sep : pystr) a b : a ≠ [] → b ≠ [] → join_with sep (a ++ b) = join_with sep a ++ sep ++ join_with sep b.
Proof.
  intros Ha Hb. induction a as [|x a IH]; [done|]. destruct a as [|y a]; [by destruct b|].
  change (join_with sep ((x :: y :: a) ++ b)) with (x ++ sep ++ join_with sep ((y :: a) ++ b)). rewrite IH by done.
  change (join_with sep (x :: y :: a)) with (x ++ sep ++ join_with sep (y :: a)). by rewrite <-!app_assoc.
Qed.
Lemma with_blanks_text bs : Forall (λ b, b ≠ []) bs →
  join_with [10; 10] ((λ b, join_with [10] (print_line <$> b)) <$> bs) = join_with [10] (print_line <$> with_blanks bs) ∧
  (bs ≠ [] → with_blanks bs ≠ []).
Proof.
  intros Hbs. induction Hbs as [|b bs Hb Hbs [IH Hne]]; [done|]. destruct bs as [|c bs]; [done|].
  specialize (Hne ltac:(done)). split; [|by destruct b].
  change (join_with [10; 10] ((λ b, join_with [10] (print_line <$> b)) <$> b :: c :: bs)) with
    (join_with [10] (print_line <$> b) ++ [10; 10] ++ join_with [10; 10] ((λ b, join_with [10] (print_line <$> b)) <$> c :: bs)).
  rewrite IH. change (with_blanks (b :: c :: bs)) with (b ++ Blank :: with_blanks (c :: bs)). rewrite fmap_app, join_with_app.
  - f_equal. destruct (with_blanks (c :: bs)) as [|l ls]; [done|]. done.
  - by destruct b.
  - done.
Qed.
Lemma dumps_secrets_doc s : dumps_secrets (secrets_doc s) = Good (secrets_text s).
Proof.
  unfold dumps_secrets.
  assert (∃ bs, conf_map (secret_block (secrets_doc s)) _SECRET_ORDER = Good bs ∧
    mjoin bs = (λ b, join_with [10] (print_line <$> b)) <$> secret_blocks s) as (bs & -> & Hbs).
  { destruct s as [[?|] [?|] [?|] [?|] [?|]]; eexists; (split; [reflexivity|reflexivity]). }
  unfold mbind, conf_bind. rewrite Hbs. unfold secrets_text.
  assert (Forall (λ b, b ≠ []) (secret_blocks s)) as Hne by (apply Forall_fmap, Forall_true; done).
  destruct (with_blanks_text _ Hne) as [Ht Hn]. destruct (secret_blocks s) as [|b bs'] eqn:Hb; [done|].
  specialize (Hn ltac:(done)). cbn [fmap list_fmap] in *. rewrite Ht. destruct (with_blanks (b :: bs')) as [|l ls]; [done|].
  by rewrite joined_lines.
Qed.
Lemma secrets_text_read toml_other s : parse_secrets toml_other (secrets_text s) = Good s.
Proof.
  unfold parse_secrets, _loads, secrets_text. rewrite read_doc_written.
  - assert (assemble (with_blanks (secret_blocks s)) = Some (secrets_doc s)) as ->
      by (destruct s as [[?|] [?|] [?|] [?|] [?|]]; by vm_compute).
    destruct s as [[?|] [?|] [?|] [?|] [?|]]; by vm_compute.
  - destruct s as [[?|] [?|] [?|] [?|] [?|]]; repeat constructor.
Qed.

(** ** The allowlist *)

Definition allowed_entry (tables : list (pystr * list pystr)) (scalars : list pystr) (e : pystr * tval) : Prop :=
  e.1 ∈ scalars ∨ ∃ allowed sub, dict_get e.1 tables = Some allowed ∧ e.2 = TTab sub ∧ Forall (λ x, x.1 ∈ allowed) sub.
Definition free_entry (e : pystr * tval) : Prop := e.1 = _META_TABLE ∧ ∃ sub, e.2 = TTab sub.
Lemma subkeys_good prefix key allowed sec : subkeys prefix key allowed sec = Good tt → ∃ sub, sec = TTab sub ∧ Forall (λ x, x.1 ∈ allowed) sub.
Proof.
  destruct sec as [| | | |sub|]; try done. cbn. intros Hs%check_all_good. exists sub. split; [done|].
  eapply Forall_impl; [exact Hs|]. cbn. intros e. by case_bool_decide.
Qed.
Lemma device_keys_good t : _check_device_keys t = Good tt →
  Forall (λ e, allowed_entry _DEVICE_TABLES _DEVICE_SCALARS e ∨ free_entry e) t.
Proof.
  intros Hc%check_all_good. eapply Forall_impl; [exact Hc|]. intros [k v]. cbn [fst snd].
  destruct (dict_get k _DEVICE_TABLES) as [allowed|] eqn:Hk.
  - intros (sub & -> & Hs)%subkeys_good. left. right. by exists allowed, sub.
  - case_bool_decide as Hm; [destruct v as [| | | |sub|]; try done; intros _; right; split; [done|by exists sub]|].
    case_bool_decide; [|done]. intros _. left. by left.
Qed.
Lemma secret_keys_good t : _check_secrets_keys t = Good tt → Forall (allowed_entry _SECRET_TABLES [u "schema_version"]) t.
Proof.
  intros Hc%check_all_good. eapply Forall_impl; [exact Hc|]. intros [k v]. cbn [fst snd].
  case_bool_decide as Hk; [intros _; left; apply list_elem_of_singleton; done|].
  destruct (dict_get k _SECRET_TABLES) as [allowed|] eqn:Hd; [|done]. intros (sub & -> & Hs)%subkeys_good. right. by exists allowed, sub.
Qed.

(** What a normalised document says of the table it was made from: each documented key
    that is present has this value, each that is not has the default. *)
Definition carries {A} (key : string) (t : table) (P : tval → A → Prop) (default a : A) : Prop :=
  match dict_get (u key) t with Some v => P v a | None => a = default end.
Definition as_text (v : tval) (s : pystr) : Prop := v = TStr s.
(** The different texts of a list, in the order in which they come first. *)
Fixpoint firsts (l : list pystr) : list pystr :=
  match l with [] => [] | x :: l => x :: filter (λ y, y ≠ x) (firsts l) end.
Definition as_servers (v : tval) (servers : list pystr) : Prop :=
  ∃ names, v = TArr (TStr <$> names) ∧ servers = firsts (strip <$> names).
Definition as_meta (v : tval) (m : option (gmap pystr pystr)) : Prop :=
  ∃ l, v = TTab (prod_map id TStr <$> l) ∧ m = Some (list_to_map l).
Definition agrees (t : table) (d : device) : Prop :=
  let mqtt := section "mqtt" t in
  carries "schema_version" t (λ v z, v = TInt z) 1 (d_version d) ∧
  carries "camera_name" t (λ v n, ∃ s, v = TStr s ∧ n = strip s) (u "Printer Camera") (camera_name d) ∧
  carries "fingerprint" t as_text [] (fingerprint d) ∧
  carries "server" (section "prusa" t) (λ v h, ∃ s, v = TStr s ∧ h = normalize_prusa_server s) DEFAULT_PRUSA_SERVER (prusa_server d) ∧
  carries "enabled" mqtt (λ v b, v = TBool b) false (mqtt_enabled d) ∧
  carries "uri" mqtt as_text (u "mqtts://broker.example:8883") (mqtt_uri d) ∧ carries "client_id" mqtt as_text [] (client_id d) ∧
  carries "ca_file" mqtt as_text [] (ca_file d) ∧
  carries "discovery_prefix" mqtt as_text (u "homeassistant") (discovery_prefix d) ∧
  carries "topic_prefix" mqtt as_text (u "pibuddycam") (topic_prefix d) ∧
  carries "hostname" (section "admin" t) as_text [] (hostname d) ∧
  carries "ntp_servers" (section "network" t) as_servers [] (ntp_servers d) ∧
  carries "meta" t as_meta None (d_meta d).
(** The types and bounds of a normalised document. *)
Definition well_typed (d : device) : Prop :=
  d_version d ≤ SCHEMA_VERSION ∧ camera_name d = strip (camera_name d) ∧ camera_name d ≠ [] ∧ (length (camera_name d) ≤ 64)%nat ∧
  ¬ (lower_ascii (strip (prusa_server d)) ∈ LEGACY_PRUSA_SERVERS) ∧
  (∃ scheme netloc, split_scheme (clean_url (mqtt_uri d)) = (scheme, netloc) ∧ scheme ∈ [u "mqtt"; u "mqtts"] ∧
     netloc_of netloc ≠ [] ∧ 64 ∉ netloc_of netloc) ∧
  Forall (λ p, p ≠ [] ∧ Forall (λ c, prefix_char c = true) p) [discovery_prefix d; topic_prefix d] ∧
  (length (ntp_servers d) ≤ MAX_NTP_SERVERS)%nat ∧ NoDup (ntp_servers d) ∧ Forall (λ s, _NTP_HOST_RE s = true) (ntp_servers d).

Lemma given_carries {A} key t (f : tval → conf A) old a (P : tval → A → Prop) :
  given key t f old = Good a → (∀ v a, f v = Good a → P v a) → carries key t P old a.
Proof. unfold given, carries. intros Hg HP. destruct (dict_get (u key) t); [auto|]. by injection Hg as <-. Qed.
Lemma ntp_loop_firsts items acc l : ntp_loop items acc = Good l →
  ∃ names, items = TStr <$> names ∧ l = acc ++ filter (λ y, y ∉ acc) (firsts (strip <$> names)).
Proof.
  revert acc. induction items as [|v items IH]; intros acc; cbn [ntp_loop].
  { intros [= <-]. exists []. by rewrite app_nil_r. }
  destruct v as [| |s| | |]; try done. destruct (negb _); [done|]. intros Hl. case_bool_decide as Hin.
  - destruct (IH acc Hl) as (names & -> & ->). exists (s :: names). split; [done|]. f_equal. cbn [fmap list_fmap firsts].
    rewrite filter_cons_False by (by intros []). rewrite list_filter_filter. apply list_filter_iff. intros y. split; [|tauto]. intros Hy. split; [done|]. by intros ->.
  - destruct (IH _ Hl) as (names & -> & ->). exists (s :: names). split; [done|]. rewrite <-app_assoc. f_equal. cbn [fmap list_fmap firsts].
    rewrite filter_cons_True by done. cbn [app]. f_equal. rewrite list_filter_filter. apply list_filter_iff.
    intros y. rewrite elem_of_app, list_elem_of_singleton. tauto.
Qed.
Lemma servers_good v l : validate_ntp_servers v = Good l → as_servers v l.
Proof.
  destruct v as [| | |items| |]; try done. unfold validate_ntp_servers. destruct (_ <? _)%nat; [done|]. intros Hl.
  apply ntp_loop_firsts in Hl as (names & -> & ->). exists names. split; [done|]. cbn [app].
  generalize (firsts (strip <$> names)). intros m. induction m as [|x m IH]; [done|].
  rewrite filter_cons_True by apply not_elem_of_nil. by f_equal.
Qed.
Lemma meta_good t m : _check_device_keys t = Good tt → check_meta t = Good m → carries "meta" t as_meta None m.
Proof.
  intros Hk%device_keys_good Hm. unfold carries, check_meta in *. change (u "meta") with _META_TABLE. destruct (dict_get _META_TABLE t) as [v|] eqn:Hv; [|by injection Hm as <-].
  destruct v as [| | | |sub|]; cycle 4.
  { apply conf_bind_good in Hm as (l & Hl & [= <-]). exists l. split; [|done]. f_equal. clear Hv. revert l Hl.
    induction sub as [|[k v] sub IH]; intros l; cbn [conf_map]; [by intros [= <-]|].
    intros (e & He & (r & Hr & [= <-])%conf_bind_good)%conf_bind_good. rewrite (IH r Hr). cbn. f_equal. unfold meta_entry in He. cbn in He.
    destruct v; try done. by injection He as <-. }
  all: exfalso; apply dict_get_Some_elem in Hv; rewrite Forall_forall in Hk; specialize (Hk _ Hv).
  all: destruct Hk as [[Hk|(? & ? & _ & [=] & _)]|(_ & ? & [=])]; apply (bool_decide_eq_true (_META_TABLE ∈ _DEVICE_SCALARS)) in Hk; by vm_compute in Hk.
Qed.
Lemma uri_parts netloc_ok s : _validate_uri netloc_ok (TStr s) = Good s →
  ∃ scheme netloc, split_scheme (clean_url s) = (scheme, netloc) ∧ scheme ∈ [u "mqtt"; u "mqtts"] ∧ netloc_of netloc ≠ [] ∧ 64 ∉ netloc_of netloc.
Proof.
  unfold _validate_uri, _expect_str, mbind, conf_bind, urlsplit. destruct (split_scheme _) as [scheme netloc].
  destruct (netloc_ok _); [|done]. destruct (negb _ || _) eqn:Hb; [done|]. apply orb_false_iff in Hb as [Hs%negb_false_iff Hn].
  destruct (contains_char 64 _) eqn:Hat; [done|]. intros _. exists scheme, netloc.
  apply bool_decide_eq_true in Hs. apply bool_decide_eq_false in Hn. split_and!; [done|done|done|].
  intros Hin. unfold contains_char in Hat. rewrite (proj2 (existsb_exists _ _)) in Hat; [done|]. exists 64. by rewrite <-list_elem_of_In.
Qed.
Lemma device_ok_typed netloc_ok d : device_ok netloc_ok d → well_typed d.
Proof.
  intros [Hv Hn Hs Hu Hp Ht Hntp]. apply camera_name_good in Hn as (Hn1 & Hn2 & Hn3). apply uri_parts in Hu.
  apply ntp_again in Hntp as (Hnd & Hf & Hl & _). specialize (Hp []). apply prefix_again in Hp as (_ & Hp1 & Hp2 & _).
  specialize (Ht []). apply prefix_again in Ht as (_ & Ht1 & Ht2 & _).
  split_and!; try done.
  - intros Hin. unfold normalize_prusa_server in Hs. rewrite bool_decide_true in Hs by done. rewrite <-Hs in Hin.
    apply (bool_decide_eq_true_2 (_ ∈ _)) in Hin. by vm_compute in Hin.
  - repeat constructor; done.
  - eapply Forall_impl; [exact Hf|]. by intros s [_ ?].
Qed.
Lemma as_text_good path v s : expect path v = Good s → as_text v s.
Proof. apply expect_str_good. Qed.
Lemma validate_agrees netloc_ok t d : _validate_device netloc_ok (TTab t) = Good d → _check_device_keys t = Good tt ∧ agrees t d.
Proof.
  unfold _validate_device. intros Hd.
  repeat (let x := fresh "x" in let Hx := fresh "Hx" in apply conf_bind_good in Hd as (x & Hx & Hd)). injection Hd as <-.
  split; [by destruct x|]. unfold agrees. cbn [d_version camera_name fingerprint prusa_server mqtt_enabled mqtt_uri client_id ca_file
    discovery_prefix topic_prefix hostname ntp_servers d_meta].
  match goal with H : check_meta t = Good _ |- _ => rename H into Hmeta end. match goal with H : _check_device_keys t = Good ?y |- _ => destruct y; rename H into Hkeys end.
  split_and!; [.. |by apply meta_good]; (eapply given_carries; [eassumption|]).
  - intros v z. destruct v as [|z'| | | |]; try done. unfold check_version. destruct (Z.ltb_spec SCHEMA_VERSION z'); [unfold too_new; by destruct (int_text z')|].
    by intros [= <-].
  - intros v n (s & ->%expect_str_good & Hn)%conf_bind_good. cbv zeta in Hn. exists s. split; [done|].
    case_bool_decide; [done|]. case_match; [done|]. by injection Hn as <-.
  - apply as_text_good.
  - intros v h (s & ->%expect_str_good & [= <-])%conf_bind_good. by exists s.
  - intros v b. destruct v; try done. by intros [= <-].
  - intros v s Hv. by apply uri_again in Hv as [-> _].
  - apply as_text_good.
  - apply as_text_good.
  - intros v s Hv. by apply prefix_again in Hv as [-> _].
  - intros v s Hv. by apply prefix_again in Hv as [-> _].
  - apply as_text_good.
  - apply servers_good.
Qed.


(** ** No secret in a message *)

(** Two tables with the same keys in the same order, which differ only in the text of
    their strings. *)
Definition alike (v v' : tval) : Prop :=
  match v, v' with
  | TStr _, TStr _ => True
  | TTab a, TTab b => Forall2 (λ x y : pystr * tval, x.1 = y.1 ∧ (x.2 = y.2 ∨ ∃ s s', x.2 = TStr s ∧ y.2 = TStr s')) a b
  | _, _ => v = v'
  end.
Definition alike_tables (t t' : table) : Prop := Forall2 (λ x y, x.1 = y.1 ∧ alike x.2 y.2) t t'.
(** The same error with the same message, or no error. *)
Definition same_error {A} (r r' : conf A) : Prop :=
  match r, r' with Good _, Good _ => True | Bad e m, Bad e' m' => e = e' ∧ m = m' | Crash e, Crash e' => e = e' | _, _ => False end.

Lemma same_error_refl {A} (r : conf A) : same_error r r.
Proof. by destruct r. Qed.
Lemma same_error_bind {A B} (m m' : conf A) (f f' : A → conf B) :
  same_error m m' → (∀ a a', m = Good a → m' = Good a' → same_error (f a) (f' a')) → same_error (m ≫= f) (m' ≫= f').
Proof. destruct m, m'; cbn; try done. intros _ Hf. by apply Hf. Qed.
Lemma same_error_all {A B} (R : A → B → Prop) f g l l' : Forall2 R l l' → (∀ a b, R a b → same_error (f a) (g b)) →
  same_error (check_all f l) (check_all g l').
Proof.
  intros Hl Hf. induction Hl as [|a b l l' Hab _ IH]; [done|]. cbn [check_all]. specialize (Hf a b Hab).
  destruct (f a), (g b); try done.
Qed.
Lemma alike_get k t t' : alike_tables t t' →
  match dict_get k t, dict_get k t' with Some v, Some v' => alike v v' | None, None => True | _, _ => False end.
Proof.
  intros Ht. induction Ht as [|[k1 v] [k2 v'] t t' [Hk Hv] _ IH]; [done|]. cbn [fst snd] in Hk, Hv. subst k2. cbn [dict_get].
  by case_decide.
Qed.
Lemma alike_subkeys prefix key allowed v v' : alike v v' → same_error (subkeys prefix key allowed v) (subkeys prefix key allowed v').
Proof.
  destruct v, v'; cbn [alike]; try done; try (intros [=]; subst; apply same_error_refl).
  intros Ht. unfold subkeys. eapply same_error_all; [exact Ht|]. intros [k1 x] [k2 y] [Hk _]. cbn [fst snd] in *. subst k2. apply same_error_refl.
Qed.
Lemma alike_device_keys t t' : alike_tables t t' → same_error (_check_device_keys t) (_check_device_keys t').
Proof.
  intros Ht. eapply same_error_all; [exact Ht|]. intros [k1 v] [k2 v'] [Hk Hv]. cbn [fst snd] in *. subst k2.
  destruct (dict_get k1 _DEVICE_TABLES); [by apply alike_subkeys|].
  case_bool_decide; [|apply same_error_refl]. destruct v, v'; try done; cbn [alike] in Hv; injection Hv; done.
Qed.
Lemma alike_secret_keys t t' : alike_tables t t' → same_error (_check_secrets_keys t) (_check_secrets_keys t').
Proof.
  intros Ht. eapply same_error_all; [exact Ht|]. intros [k1 v] [k2 v'] [Hk Hv]. cbn [fst snd] in *. subst k2.
  case_bool_decide; [done|]. destruct (dict_get k1 _SECRET_TABLES); [by apply alike_subkeys|apply same_error_refl].
Qed.
Lemma alike_section tab t t' : alike_tables t t' → alike (TTab (section tab t)) (TTab (section tab t')).
Proof.
  intros Ht. pose proof (alike_get (u tab) _ _ Ht) as Hg. unfold section.
  destruct (dict_get (u tab) t) as [v|], (dict_get (u tab) t') as [v'|]; try done; [|by constructor].
  destruct v, v'; cbn [alike] in *; try done; try constructor; try (injection Hg; done).
Qed.
Lemma alike_secret tab key t t' : alike_tables t t' → same_error (secret tab key t) (secret tab key t').
Proof.
  intros Ht. pose proof (alike_section tab _ _ Ht) as Hs. cbn [alike] in Hs. unfold secret.
  generalize dependent (section tab t'). generalize (section tab t). intros a b Hab.
  assert (match dict_get (u key) a, dict_get (u key) b with
          | Some v, Some v' => v = v' ∨ ∃ s s', v = TStr s ∧ v' = TStr s' | None, None => True | _, _ => False end) as Hg.
  { induction Hab as [|[k1 v] [k2 v'] a b [Hk Hv] _ IH]; [done|]. cbn [fst snd] in *. subst k2. cbn [dict_get]. by case_decide. }
  destruct (dict_get (u key) a), (dict_get (u key) b); try done. destruct Hg as [->|(s & s' & -> & ->)]; [apply same_error_refl|done].
Qed.

(** The errors of the secrets document do not depend on the text of any value: documents
    with the same keys are both accepted, or are refused with the same message.  So is the
    key check of the device document, which refuses a secret that was put there. *)
Theorem secrets_not_in_messages t t' :
  alike_tables t t' →
  same_error (_validate_secrets (TTab t)) (_validate_secrets (TTab t')) ∧
  same_error (_check_device_keys t) (_check_device_keys t').
Proof.
  intros Ht. split; [|by apply alike_device_keys]. unfold _validate_secrets. apply same_error_bind.
  { pose proof (alike_get (u "schema_version") _ _ Ht) as Hg.
    destruct (dict_get (u "schema_version") t) as [v|], (dict_get (u "schema_version") t') as [v'|]; try done.
    destruct v, v'; cbn [alike] in Hg; try done; injection Hg; intros; subst; apply same_error_refl. }
  intros _ _ _ _. apply same_error_bind; [by apply alike_secret_keys|]. intros _ _ _ _.
  repeat (apply same_error_bind; [by apply alike_secret|]; intros ? ? _ _). done.
Qed.

(** ** Evaluation *)

Definition any_host (s : pystr) : bool := true.
#[export] Instance any_host_plain : PlainHosts any_host.
Proof. done. Qed.
(** [urlsplit] refuses unbalanced brackets. *)
Definition bracket_check (s : pystr) : bool := Bool.eqb (contains_char 91 s) (contains_char 93 s).
Definition no_other (text : pystr) : res (pystr + table) := Ret (inl (u "unsupported")).
Definition demo_table : table :=
  [(u "camera_name", TStr (u "  Workshop ")); (u "mqtt", TTab [(u "enabled", TBool true); (u "uri", TStr (u "mqtt://broker.lan:1883"))]);
   (u "network", TTab [(u "ntp_servers", TArr [TStr (u "pool.ntp.org"); TStr (u "pool.ntp.org "); TStr (u "10.0.0.1")])]);
   (u "meta", TTab [(u "note", TStr [34; 92; 7])])].
Definition demo_device : device :=
  {| d_version := 1; camera_name := u "Workshop"; fingerprint := []; prusa_server := DEFAULT_PRUSA_SERVER; mqtt_enabled := true;
     mqtt_uri := u "mqtt://broker.lan:1883"; client_id := []; discovery_prefix := u "homeassistant"; topic_prefix := u "pibuddycam";
     ca_file := []; hostname := []; ntp_servers := [u "pool.ntp.org"; u "10.0.0.1"]; d_meta := Some {[u "note" := [34; 92; 7]]} |}.
Lemma secrets_not_in_messages_witness :
  same_error (_validate_secrets (TTab [(u "prusa", TTab [(u "token", TStr (u "hunter2")); (u "pin", TStr (u "x"))])]))
             (_validate_secrets (TTab [(u "prusa", TTab [(u "token", TStr (u "other")); (u "pin", TStr [])])])).
Proof.
  apply (secrets_not_in_messages [(u "prusa", TTab [(u "token", TStr (u "hunter2")); (u "pin", TStr (u "x"))])]
    [(u "prusa", TTab [(u "token", TStr (u "other")); (u "pin", TStr [])])]).
  constructor; [|constructor]. split; [reflexivity|]. cbn [alike snd].
  constructor; [|constructor; [|constructor]]; (split; [reflexivity|]); right; eexists _, _; split; reflexivity.
Defined.
(** The documented exception is [ConfigError]; an unbalanced bracket lets the [ValueError]
    of [urlsplit] through. *)
Example uri_value_error :
  parse_device bracket_check no_other (u "[mqtt]" ++ [10] ++ u "uri = " ++ toml_text (u "mqtts://[broker")) = Crash ValueError.
Proof. vm_compute. reflexivity. Qed.
