(* ===== verification/ConfigFiles.v ===== *)
(** [app/config_schema.py]: the configuration on disk.  The atomic write with its mode,
    saving one document and a pair with roll-back, and loading.  Every operation on the
    disk may fail; the state keeps each version of the directory there was, so that a
    power cut is a point of that history. *)
From S2P Require Import Prelude Crash PyValue PyText Toml ConfigSchema.

Record file := { f_data : bytes; f_mode : Z }.
#[export] Instance file_eq_dec : EqDecision file.
Proof. solve_decision. Defined.
Abbreviation dirmap := (gmap pystr file).
(** The files, and every state that an operation left. *)
Record fsys := { files : dirmap; fs_past : list dirmap }.
Definition fs_ops (w : fsys) : nat := length (fs_past w).

Definition suffix_tmp : pystr := u ".tmp".
Definition DEVICE_TOML_PATH : pystr := u "/data/pibuddycam/config/device.toml".
Definition SECRETS_TOML_PATH : pystr := u "/data/pibuddycam/config/secrets.toml".
Definition device_mode : Z := 416.
Definition secrets_mode : Z := 384.

Section Files.
(** How the [n]-th operation fails: what is left of the bytes it was writing; and the bits
    that the process masks from new files. *)
Context (io : nat → option nat) (umask : Z).
Context (netloc_ok : pystr → bool) (toml_other : pystr → res (pystr + table)).

Definition set_files (f : dirmap) (w : fsys) : fsys := {| files := f; fs_past := fs_past w ++ [f] |}.
Definition fs_op (f : dirmap → dirmap) : PyM fsys unit := λ w,
  match io (fs_ops w) with
  | None => (Ret tt, set_files (f (files w)) w)
  | Some _ => (Raise OSError, set_files (files w) w)
  end.
Definition fs_read {A} (f : dirmap → A) : PyM fsys A := λ w, (Ret (f (files w)), w).
Definition makedirs : PyM fsys unit := fs_op id.
(** [os.open] with [O_CREAT | O_EXCL]. *)
Definition open_excl (path : pystr) (mode : Z) : PyM fsys unit :=
  old ← fs_read (lookup path);
  match old with Some _ => raise OSError | None => fs_op (insert path {| f_data := []; f_mode := Z.land mode (Z.lnot umask) |}) end.
Definition chmod (path : pystr) (mode : Z) : PyM fsys unit := fs_op (alter (λ f, f{{f_mode := mode}}) path).
Definition write_bytes (path : pystr) (data : bytes) : PyM fsys unit := λ w,
  match io (fs_ops w) with
  | None => (Ret tt, set_files (alter (λ f, f{{f_data := data}}) path (files w)) w)
  | Some k => (Raise OSError, set_files (alter (λ f, f{{f_data := take k data}}) path (files w)) w)
  end.
Definition replace (src dst : pystr) : PyM fsys unit :=
  old ← fs_read (lookup src);
  match old with Some f => fs_op (λ m, <[dst := f]> (delete src m)) | None => raise FileNotFound end.
Definition remove (path : pystr) : PyM fsys unit :=
  old ← fs_read (lookup path);
  match old with Some _ => fs_op (delete path) | None => raise FileNotFound end.
Definition encode (text : pystr) : PyM fsys bytes := match utf8_encode text with Some b => mret b | None => raise ValueError end.
(** [except OSError: pass]. *)
Definition quietly (m : PyM fsys unit) : PyM fsys unit := try_except os_error m (λ _, mret tt).

(** The descriptor is closed on every path.  [fsync] of the file is one step with the write it
    follows (either may raise, with the same handling), so that the content is durable before the
    rename, as in the code; a rename is durable at once, where the code syncs the
    directory after it and a power cut before that can still leave the old file.  Closing
    changes nothing here. *)
Definition write_atomic (path text : pystr) (mode : Z) : PyM fsys unit :=
  let tmp := path ++ suffix_tmp in
  try_except any_exception
    (_ ← makedirs;
     _ ← open_excl tmp mode;
     _ ← chmod tmp mode;
     data ← encode text;
     _ ← write_bytes tmp data;
     replace tmp path)
    (λ _, _ ← quietly (remove tmp); raise Prelude.ConfigError).

(** The validated document as text, read back before it is written. *)
Definition device_text (cfg : tval) : conf pystr :=
  d ← _validate_device netloc_ok cfg; text ← dumps_device (device_doc d); _ ← parse_device netloc_ok toml_other text; Good text.
Definition secrets_document (cfg : tval) : conf pystr :=
  s ← _validate_secrets cfg; text ← dumps_secrets (secrets_doc s); _ ← parse_secrets toml_other text; Good text.
Definition saved (m : PyM fsys unit) (w : fsys) : conf bool * fsys :=
  match m w with
  | (Ret _, w) => (Good true, w)
  | (Raise Prelude.ConfigError, w) => (Good false, w)
  | (Raise e, w) => (Crash e, w)
  end.
Definition save (document : tval → conf pystr) (cfg : tval) (path : pystr) (mode : Z) (w : fsys) : conf bool * fsys :=
  match document cfg with
  | Good text => saved (write_atomic path text mode) w
  | Bad e m => (Bad e m, w)
  | Crash e => (Crash e, w)
  end.
Definition save_device : tval → pystr → Z → fsys → conf bool * fsys := save device_text.
Definition save_secrets : tval → pystr → Z → fsys → conf bool * fsys := save secrets_document.

(** [open(path, encoding='utf-8').read()]. *)
Definition read_text (path : pystr) : PyM fsys pystr := λ w,
  match files w !! path with
  | None => (Raise FileNotFound, w)
  | Some f =>
      match io (fs_ops w) with
      | Some _ => (Raise OSError, set_files (files w) w)
      | None => (match utf8_decode (f_data f) with Some t => Ret (newlines t) | None => Raise ValueError end, set_files (files w) w)
      end
  end.
Definition _read_text_if_present (path : pystr) : PyM fsys (bool * option pystr) :=
  try_except os_error (t ← read_text path; mret (true, Some t))
    (λ e, mret (match e with FileNotFound => (false, Some []) | _ => (true, None) end)).
Definition _restore_text (path : pystr) (existed : bool) (text : option pystr) (mode : Z) : PyM fsys unit :=
  if negb existed then quietly (remove path)
  else match text with
       | None => mret tt
       | Some t => try_except (λ e, bool_decide (e = Prelude.ConfigError)) (write_atomic path t mode) (λ _, mret tt)
       end.

Definition save_pair (device_cfg secrets_cfg : tval) (device_path secrets_path : pystr) (device_mode secrets_mode : Z) (w : fsys)
    : conf bool * fsys :=
  match (d ← _validate_device netloc_ok device_cfg; s ← _validate_secrets secrets_cfg;
         dt ← dumps_device (device_doc d); st ← dumps_secrets (secrets_doc s);
         _ ← parse_device netloc_ok toml_other dt; _ ← parse_secrets toml_other st; Good (dt, st)) with
  | Bad e m => (Bad e m, w)
  | Crash e => (Crash e, w)
  | Good (dt, st) =>
      match _read_text_if_present device_path w with
      | (Raise e, w) => (Crash e, w)
      | (Ret (existed, backup), w) =>
          match saved (write_atomic device_path dt device_mode) w with
          | (Good true, w) =>
              match saved (write_atomic secrets_path st secrets_mode) w with
              | (Good false, w) => (Good false, (_restore_text device_path existed backup device_mode w).2)
              | r => r
              end
          | r => r
          end
      end
  end.

(** ** Loading *)

Definition loaded {A} (missing : A) (parse : pystr → conf A) (path : pystr) (w : fsys) : conf A * fsys :=
  match read_text path w with
  | (Ret t, w) => (parse t, w)
  | (Raise FileNotFound, w) => (Good missing, w)
  | (Raise e, w) => (Crash e, w)
  end.
Definition no_secrets : secrets := {| s_token := None; s_username := None; s_password := None; s_psk := None; s_password_hash := None |}.
Definition load_device : pystr → fsys → conf device * fsys := loaded default_device (parse_device netloc_ok toml_other).
Definition load_secrets : pystr → fsys → conf secrets * fsys := loaded no_secrets (parse_secrets toml_other).
(** The documents, with the path of each that failed. *)
Definition load_appliance_config (device_path secrets_path : pystr) (w : fsys) : device * secrets * list pystr * fsys :=
  let '(d, w) := load_device device_path w in
  let '(s, w) := load_secrets secrets_path w in
  (match d with Good d => d | _ => default_device end, match s with Good s => s | _ => no_secrets end,
   match d with Good _ => [] | _ => [device_path] end ++ match s with Good _ => [] | _ => [secrets_path] end, w).
End Files.

(** ** Reasoning about the operations *)

#[export] Instance fsys_logged : Logged fsys dirmap := fs_past.
Lemma along_read {A} (f : dirmap → A) I (Q : res A → fsys → Prop) w : Q (Ret (f (files w))) w → along (fs_read f) I Q w.
Proof. intros HQ. split; [apply passed_refl|done]. Qed.
Lemma fs_ops_set f w : fs_ops (set_files f w) = S (fs_ops w).
Proof. unfold fs_ops. cbn. rewrite length_app. cbn. lia. Qed.
Lemma fs_ops_le f w : (fs_ops w ≤ fs_ops (set_files f w))%nat.
Proof. rewrite fs_ops_set. lia. Qed.
Lemma passed_set (I : dirmap → Prop) (f : dirmap) w : I f → passed I w (set_files f w).
Proof. intros HI. by eapply passed_one. Qed.
Lemma passed_ops I (w w' : fsys) : passed I w w' → (fs_ops w ≤ fs_ops w')%nat.
Proof. apply passed_length. Qed.

Section FilesSpec.
Context (io : nat → option nat) (umask : Z).
(** An operation between two states failed. *)
Definition failed (w w' : fsys) : Prop := ∃ n, (fs_ops w ≤ n < fs_ops w')%nat ∧ io n ≠ None.
Lemma failed_now f w : io (fs_ops w) ≠ None → failed w (set_files f w).
Proof. exists (fs_ops w). rewrite fs_ops_set. split; [lia|done]. Qed.
Lemma failed_weaken w0 w1 w2 w3 : failed w1 w2 → (fs_ops w0 ≤ fs_ops w1)%nat → (fs_ops w2 ≤ fs_ops w3)%nat → failed w0 w3.
Proof. intros (n & Hn & Hio) ??. exists n. split; [lia|done]. Qed.

Lemma along_op (f : dirmap → dirmap) (I : dirmap → Prop) (Q : res unit → fsys → Prop) w :
  (∀ w', failed w w' → files w' = files w → Q (Raise OSError) w') →
  (∀ w', (fs_ops w ≤ fs_ops w')%nat → files w' = f (files w) → Q (Ret tt) w') → I (files w) → I (f (files w)) → along (fs_op io f) I Q w.
Proof.
  intros He Hs H1 H2. unfold along, fs_op. destruct (io (fs_ops w)) eqn:Hio.
  - split; [by apply passed_set|]. apply He; [|done]. apply failed_now. congruence.
  - split; [by apply passed_set|]. apply Hs; [by apply fs_ops_le|done].
Qed.

Lemma along_write (path : pystr) (data : bytes) (I : dirmap → Prop) (Q : res unit → fsys → Prop) w :
  (∀ w' k, failed w w' → files w' = alter (λ f, f{{f_data := take k data}}) path (files w) → Q (Raise OSError) w') →
  (∀ w', (fs_ops w ≤ fs_ops w')%nat → files w' = alter (λ f, f{{f_data := data}}) path (files w) → Q (Ret tt) w') →
  (∀ data', I (alter (λ f, f{{f_data := data'}}) path (files w))) → along (write_bytes io path data) I Q w.
Proof.
  intros He Hs HI. unfold along, write_bytes. destruct (io (fs_ops w)) as [k|] eqn:Hio.
  - split; [by apply passed_set|]. apply (He _ k); [|done]. apply failed_now. congruence.
  - split; [by apply passed_set|]. apply Hs; [by apply fs_ops_le|done].
Qed.

(** The states of a write: the file has its old or its new content; nothing else changes
    but the temporary file, whose mode is never more than the one asked for. *)
Inductive writing (m0 : dirmap) (path : pystr) (new : option file) (mode : Z) : dirmap → Prop :=
  | writing_start : writing m0 path new mode m0
  | writing_gone : writing m0 path new mode (delete (path ++ suffix_tmp) m0)
  | writing_tmp f : Z.land (f_mode f) (Z.lnot mode) = 0 → (f_data f = [] ∨ f_mode f = mode) →
      writing m0 path new mode (<[path ++ suffix_tmp := f]> m0)
  | writing_done f : new = Some f → writing m0 path new mode (<[path := f]> (delete (path ++ suffix_tmp) m0)).

(** Removing the temporary file on the error path. *)
Lemma along_cleanup m0 path new mode w w0 (Q : res unit → fsys → Prop) :
  files w0 = m0 → (fs_ops w0 ≤ fs_ops w)%nat → (files w = m0 ∨ ∃ f, m0 !! (path ++ suffix_tmp) = None ∧
     Z.land (f_mode f) (Z.lnot mode) = 0 ∧ (f_data f = [] ∨ f_mode f = mode) ∧ files w = <[path ++ suffix_tmp := f]> m0) →
  (∀ w', files w' = delete (path ++ suffix_tmp) m0 ∨ failed w0 w' ∧ files w' = files w → (fs_ops w ≤ fs_ops w')%nat → Q (Raise Prelude.ConfigError) w') →
  along (_ ← quietly (remove io (path ++ suffix_tmp)); raise Prelude.ConfigError) (writing m0 path new mode) Q w.
Proof.
  intros Hm0 Ho Hw HQ. set (tmp := path ++ suffix_tmp) in *.
  assert (writing m0 path new mode (files w)) as Hin by (destruct Hw as [->|(f & _ & ? & ? & ->)]; by constructor).
  assert (delete tmp (files w) = delete tmp m0) as Hdel.
  { destruct Hw as [->|(f & Hn & _ & _ & ->)]; [done|]. by rewrite delete_insert_eq. }
  assert (∀ w', (fs_ops w ≤ fs_ops w')%nat → files w' = delete tmp m0 ∨ failed w0 w' ∧ files w' = files w →
    along (raise Prelude.ConfigError) (writing m0 path new mode) Q w') as Hend by (intros; by apply along_raise, HQ).
  apply along_bind, along_try, along_bind, along_read. destruct (files w !! tmp) as [f|] eqn:Hf.
  - apply along_op; [| |done|rewrite Hdel; constructor].
    + intros w' Hf' Hw'. cbn [os_error]. pose proof Hf' as (n & Hn & _). apply along_ret, Hend; [lia|].
      right. split; [by eapply failed_weaken|congruence].
    + intros w' Ho' Hw'. apply Hend; [done|]. left. congruence.
  - apply along_raise. cbn [os_error]. apply along_ret, Hend; [done|]. left. rewrite <-Hdel. by rewrite delete_id.
Qed.
(** The end of a write. *)
Definition new_file (text : pystr) (mode : Z) : option file := (λ d, {| f_data := d; f_mode := mode |}) <$> utf8_encode text.
Definition write_done (m0 : dirmap) (path text : pystr) (mode : Z) (w' : fsys) : Prop :=
  m0 !! (path ++ suffix_tmp) = None ∧ ∃ f, new_file text mode = Some f ∧ files w' = <[path := f]> m0.
Definition write_failed (m0 : dirmap) (path text : pystr) (w w' : fsys) : Prop :=
  (failed w w' ∨ m0 !! (path ++ suffix_tmp) ≠ None ∨ utf8_encode text = None) ∧
  (∀ k, k ≠ path ++ suffix_tmp → files w' !! k = m0 !! k) ∧ (files w' !! (path ++ suffix_tmp) = None ∨ failed w w').

Definition write_end (w : fsys) (path text : pystr) (mode : Z) (r : res unit) (w' : fsys) : Prop :=
  r = Ret tt ∧ write_done (files w) path text mode w' ∨ r = Raise Prelude.ConfigError ∧ write_failed (files w) path text w w'.
Lemma along_write_fails path text mode w w1 :
  let m0 := files w in let tmp := path ++ suffix_tmp in
  (fs_ops w ≤ fs_ops w1)%nat → failed w w1 ∨ m0 !! tmp ≠ None ∨ utf8_encode text = None →
  (files w1 = m0 ∨ ∃ f, m0 !! tmp = None ∧ Z.land (f_mode f) (Z.lnot mode) = 0 ∧ (f_data f = [] ∨ f_mode f = mode) ∧ files w1 = <[tmp := f]> m0) →
  along (_ ← quietly (remove io tmp); raise Prelude.ConfigError) (writing m0 path (new_file text mode) mode) (write_end w path text mode) w1.
Proof.
  intros m0 tmp. intros Ho Hwhy Hw1. eapply along_cleanup; [reflexivity|exact Ho|exact Hw1|]. intros w' Hw' Ho'. right. split; [done|].
  split; [destruct Hwhy as [Hf|?]; [left; by eapply failed_weaken|by right]|].
  destruct Hw' as [->|[Hf ->]]; (split; [intros k Hk|]).
  - by rewrite lookup_delete_ne by done.
  - left. apply lookup_delete_eq.
  - destruct Hw1 as [->|(f & _ & _ & _ & ->)]; [done|]. by rewrite lookup_insert_ne.
  - by right.
Qed.
Lemma failed_from w w1 w2 : failed w1 w2 → (fs_ops w ≤ fs_ops w1)%nat → failed w w2 ∧ (fs_ops w ≤ fs_ops w2)%nat.
Proof. intros Hf Ho. split; [by eapply failed_weaken|]. destruct Hf as (n & Hn & _). lia. Qed.
Lemma alter_insert_same (g : file → file) (f : file) (tmp : pystr) (m : dirmap) : alter g tmp (<[tmp := f]> m) = <[tmp := g f]> m.
Proof. by rewrite alter_insert_eq. Qed.

Lemma along_write_atomic path text mode w :
  along (write_atomic io umask path text mode) (writing (files w) path (new_file text mode) mode) (write_end w path text mode) w.
Proof.
  pose proof (along_write_fails path text mode w) as Hfail. cbv zeta in Hfail. pose proof (failed_from w) as Hf2.
  set (m0 := files w) in *. set (tmp := path ++ suffix_tmp) in *. set (new := new_file text mode) in *.
  apply along_try, along_bind. unfold makedirs. fold tmp.
  apply along_op; [intros w1 Hf Hw1; destruct (Hf2 w w1 Hf ltac:(lia)); apply Hfail; [done|by left|by left]| |constructor|constructor].
  intros w1 Ho1 Hw1. cbn [id] in Hw1. change (files w1 = m0) in Hw1. apply along_bind. unfold open_excl. apply along_bind, along_read. rewrite Hw1.
  destruct (m0 !! tmp) as [old|] eqn:Htmp; [apply along_raise, Hfail; [lia|right; left; congruence|by left]|].
  set (f0 := {| f_data := []; f_mode := Z.land mode (Z.lnot umask) |}).
  assert (Z.land (f_mode f0) (Z.lnot mode) = 0) as Hm0.
  { cbn. rewrite <-Z.land_assoc, (Z.land_comm (Z.lnot umask)), Z.land_assoc, Z.land_lnot_diag. apply Z.land_0_l. }
  assert (∀ f, (f_data f = [] ∨ f_mode f = mode) → Z.land (f_mode f) (Z.lnot mode) = 0 → writing m0 path new mode (<[tmp := f]> m0)) as Hwr
    by (intros; by apply writing_tmp).
  assert (Z.land mode (Z.lnot mode) = 0) as Hmm by apply Z.land_lnot_diag.
  apply along_op; rewrite Hw1; [intros w2 Hf Hw2; destruct (Hf2 w1 w2 Hf Ho1); apply Hfail; [done|by left|left; congruence]| |constructor|apply Hwr; [by left|done]].
  intros w2 Ho2 Hw2. apply along_bind. unfold chmod.
  apply along_op; rewrite Hw2, ?alter_insert_same; [intros w3 Hf Hw3; destruct (Hf2 w2 w3 Hf ltac:(lia)); apply Hfail; [done|by left|right; exists f0; split_and!; [done|done|by left|congruence]]
    | |apply Hwr; [by left|done]|apply Hwr; [by left|done]].
  set (f1 := f0{{f_mode := mode}}). intros w3 Ho3 Hw3. apply along_bind. unfold encode.
  destruct (utf8_encode text) as [data|] eqn:Henc; [apply along_ret|apply along_raise, Hfail; [lia|by right; right|right; exists f1; split_and!; [done|done|by right|done]]].
  set (f2 := {| f_data := data; f_mode := mode |}). assert (new = Some f2) as Hnew by by unfold new, new_file; rewrite Henc.
  apply along_bind, along_write; rewrite Hw3; [intros w4 k Hf Hw4; rewrite alter_insert_same in Hw4; destruct (Hf2 w3 w4 Hf ltac:(lia)); apply Hfail;
    [done|by left|right; exists (f1{{f_data := take k data}}); split_and!; [done|exact Hmm|by right|exact Hw4]]| |intros data'; rewrite alter_insert_same; apply Hwr; [by right|exact Hmm]].
  intros w4 Ho4 Hw4. rewrite alter_insert_same in Hw4. change (f1{{f_data := data}}) with f2 in Hw4.
  unfold replace. apply along_bind, along_read. rewrite Hw4, lookup_insert_eq.
  assert (<[path := f2]> (delete tmp (<[tmp := f2]> m0)) = <[path := f2]> m0) as Hend by by rewrite delete_insert_id.
  apply along_op; rewrite Hw4.
  - intros w5 Hf Hw5. destruct (Hf2 w4 w5 Hf ltac:(lia)). apply Hfail; [done|by left|]. right. exists f2. split_and!; [done|exact Hmm|by right|congruence].
  - intros w5 Ho5 Hw5. left. split; [done|]. split; [done|]. exists f2. split; [done|]. by rewrite Hw5.
  - apply Hwr; [by right|exact Hmm].
  - rewrite Hend. pose proof (writing_done m0 path new mode f2 Hnew) as Hd. by rewrite delete_id in Hd.
Qed.

Lemma tmp_ne (path : pystr) : path ++ suffix_tmp ≠ path.
Proof. intros He. apply (f_equal length) in He. rewrite length_app in He. change (length suffix_tmp) with 4%nat in He. lia. Qed.

(** C27: Whatever operation fails and whenever the power goes, the file has its old or its new
    content, and no other file changes but the temporary one, which never has more rights
    than the mode asked for and holds no byte before it has that mode; a write that returns
    has put the new content there, and one that raises has left the old. *)
Theorem write_atomic_crash_safe path text mode w :
  let tmp := path ++ suffix_tmp in
  let '(r, w') := write_atomic io umask path text mode w in
  (∃ new, fs_past w' = fs_past w ++ new ∧
     Forall (λ m : dirmap, (m !! path = files w !! path ∨ m !! path = new_file text mode) ∧
       (∀ k, k ≠ path → k ≠ tmp → m !! k = files w !! k) ∧
       (m !! tmp = files w !! tmp ∨ m !! tmp = None ∨
          ∃ f, m !! tmp = Some f ∧ Z.land (f_mode f) (Z.lnot mode) = 0 ∧ (f_data f = [] ∨ f_mode f = mode))) new) ∧
  (r = Ret tt ∧ files w' !! path = new_file text mode ∧ new_file text mode ≠ None ∨
   r = Raise Prelude.ConfigError ∧ files w' !! path = files w !! path).
Proof.
  intros tmp. pose proof (along_write_atomic path text mode w) as Hw. unfold along in Hw. pose proof (tmp_ne path) as Hne. fold tmp in Hne.
  destruct (write_atomic _ _ _ _ _ w) as [r w']. cbn [fst snd] in Hw. destruct Hw as [(new & Hnew & Hf) Hend]. split.
  - exists new. split; [done|]. eapply Forall_impl; [exact Hf|]. intros m Hm. destruct Hm as [| |f Hmode Hd|f Hn]; fold tmp.
    + split_and!; auto.
    + rewrite lookup_delete_ne by done. split_and!; [by left| |right; left; apply lookup_delete_eq]. intros k _ Hk. by rewrite lookup_delete_ne by done.
    + rewrite lookup_insert_ne by done. split_and!; [by left|intros k _ Hk; by rewrite lookup_insert_ne by done|]. right. right.
      exists f. by rewrite lookup_insert_eq.
    + rewrite lookup_insert_eq, lookup_insert_ne, lookup_delete_eq by done. split_and!; [by right; rewrite Hn| |by right; left].
      intros k Hk1 Hk2. by rewrite lookup_insert_ne, lookup_delete_ne by done.
  - destruct Hend as [(-> & _ & f & Hn & ->)|(-> & _ & Hk & _)]; [left|right; split; [done|by apply Hk]].
    rewrite lookup_insert_eq, Hn. done.
Qed.

(** *** Saving *)

Lemma saved_end path text mode w :
  let '(r, w') := saved (write_atomic io umask path text mode) w in
  r = Good true ∧ write_done (files w) path text mode w' ∧ passed (writing (files w) path (new_file text mode) mode) w w' ∨
  r = Good false ∧ write_failed (files w) path text w w' ∧ passed (writing (files w) path (new_file text mode) mode) w w'.
Proof.
  pose proof (along_write_atomic path text mode w) as Hw. unfold along in Hw. unfold saved.
  destruct (write_atomic _ _ _ _ _ w) as [r w']. cbn [fst snd] in Hw. destruct Hw as [Hp [(-> & Hd)|(-> & Hd)]]; auto.
Qed.

Context (netloc_ok : pystr → bool) `{!PlainHosts netloc_ok} (toml_other : pystr → res (pystr + table)).
Lemma device_text_good cfg text : device_text netloc_ok toml_other cfg = Good text →
  ∃ d, _validate_device netloc_ok cfg = Good d ∧ device_ok netloc_ok d ∧ printable_int (d_version d) ∧ text = doc_text (device_lines d).
Proof.
  intros (d & Hd & Ht)%conf_bind_good. apply conf_bind_good in Ht as (t & Ht & Hp). apply conf_bind_good in Hp as (_ & _ & [= <-]).
  exists d. pose proof (validate_ok _ _ _ Hd) as Hok.
  assert (printable_int (d_version d)) as Hv.
  { unfold dumps_device in Ht. apply conf_bind_good in Ht as (v & Hv & _). rewrite (proj1 (merged_doc d)) in Hv.
    unfold version_line in Hv. apply conf_bind_good in Hv as (x & Hx & _). unfold int_text in Hx.
    destruct (_ <=? _)%nat eqn:Hl; [|done]. by apply Nat.leb_le in Hl. }
  split_and!; [done|done|done|]. rewrite (dumps_device_doc _ _ Hok Hv) in Ht. by injection Ht as <-.
Qed.
Lemma secrets_text_good cfg text : secrets_document toml_other cfg = Good text →
  ∃ s, _validate_secrets cfg = Good s ∧ text = secrets_text s.
Proof.
  intros (s & Hs & Ht)%conf_bind_good. apply conf_bind_good in Ht as (t & Ht & Hp). apply conf_bind_good in Hp as (_ & _ & [= <-]).
  exists s. rewrite dumps_secrets_doc in Ht. by injection Ht as <-.
Qed.
Lemma secrets_no_return s : Forall (λ x, x ≠ 13) (secrets_text s).
Proof. apply doc_text_no_return. destruct s as [[?|] [?|] [?|] [?|] [?|]]; repeat constructor. Qed.
Lemma read_new_file path text mode w f :
  files w !! path = Some f → new_file text mode = Some f → Forall (λ x, x ≠ 13) text → io (fs_ops w) = None →
  (read_text io path w).1 = Ret text.
Proof.
  unfold read_text, new_file. intros -> Hn Hr ->. destruct (utf8_encode text) as [b|] eqn:Hb; [|done]. injection Hn as <-. cbn [fst f_data].
  by rewrite (utf8_decode_encode _ _ Hb), newlines_id.
Qed.
Lemma load_read {A} (missing : A) parse path w text : (read_text io path w).1 = Ret text → (loaded io missing parse path w).1 = parse text.
Proof. unfold loaded. destruct (read_text io path w) as [r w']. cbn. by intros ->. Qed.

(** A file that holds a document with its mode. *)
Definition device_saved (m : dirmap) (path : pystr) (mode : Z) (d : device) : Prop :=
  device_ok netloc_ok d ∧ printable_int (d_version d) ∧ new_file (doc_text (device_lines d)) mode ≠ None ∧
  m !! path = new_file (doc_text (device_lines d)) mode.
Definition secrets_saved (m : dirmap) (path : pystr) (mode : Z) (s : secrets) : Prop :=
  new_file (secrets_text s) mode ≠ None ∧ m !! path = new_file (secrets_text s) mode.
Lemma new_file_mode text mode f : new_file text mode = Some f → f_mode f = mode.
Proof. unfold new_file. destruct (utf8_encode text); [|done]. by intros [= <-]. Qed.

(** Saving a document writes its text, or leaves the file; no other file changes. *)
Lemma save_end document cfg path mode w r w' : save io umask document cfg path mode w = (r, w') →
  (∀ k, k ≠ path → k ≠ path ++ suffix_tmp → files w' !! k = files w !! k) ∧
  (r = Good true → ∃ text, document cfg = Good text ∧ new_file text mode ≠ None ∧ files w' !! path = new_file text mode) ∧
  (r ≠ Good true → files w' !! path = files w !! path).
Proof.
  unfold save. destruct (document cfg) as [text| |]; [|by intros [= <- <-]..]. intros Hs.
  pose proof (saved_end path text mode w) as He. rewrite Hs in He.
  destruct He as [(-> & (Ht & f & Hf & Hw) & _)|(-> & (_ & Hk & _) & _)].
  - rewrite Hw. split_and!; [|intros _; exists text; rewrite lookup_insert_eq, Hf; done|done].
    intros k Hkp _. by rewrite lookup_insert_ne.
  - split_and!; [by intros k _ ?; apply Hk|done|]. intros _. apply Hk. symmetry. apply tmp_ne.
Qed.
(** Saving succeeds on a disk without errors and without a left-over. *)
Lemma save_succeeds document cfg path mode w text : document cfg = Good text → (∀ n, io n = None) →
  files w !! (path ++ suffix_tmp) = None → utf8_encode text ≠ None →
  ∃ w' f, save io umask document cfg path mode w = (Good true, w') ∧ files w' = <[path := f]> (files w).
Proof.
  intros Hd Hio Ht He. unfold save. rewrite Hd. pose proof (saved_end path text mode w) as Hs.
  destruct (saved _ w) as [r w']. destruct Hs as [(-> & (_ & f & _ & Hw) & _)|(_ & ([(n & _ & Hn)|[?|?]] & _) & _)]; [by exists w', f| |done|done].
  by destruct Hn.
Qed.
Lemma save_device_end cfg path mode w r w' : save_device io umask netloc_ok toml_other cfg path mode w = (r, w') → r = Good true →
  ∃ d, _validate_device netloc_ok cfg = Good d ∧ device_saved (files w') path mode d.
Proof.
  intros (_ & Hg & _)%save_end Hr. destruct (Hg Hr) as (text & (d & Hd & Hok & Hv & ->)%device_text_good & Hn & Hf).
  exists d. done.
Qed.
Lemma save_secrets_end cfg path mode w r w' : save_secrets io umask toml_other cfg path mode w = (r, w') → r = Good true →
  ∃ s, _validate_secrets cfg = Good s ∧ secrets_saved (files w') path mode s.
Proof.
  intros (_ & Hg & _)%save_end Hr. destruct (Hg Hr) as (text & (s & Hs & ->)%secrets_text_good & Hn & Hf). exists s. done.
Qed.
Lemma device_saved_loads path mode d w : device_saved (files w) path mode d → io (fs_ops w) = None →
  (load_device io netloc_ok toml_other path w).1 = Good d.
Proof.
  intros (Hok & Hv & Hn & Hf) Hio. destruct (new_file (doc_text (device_lines d)) mode) as [f|] eqn:Hnew; [|done].
  unfold load_device. erewrite load_read; [by apply device_text_read|].
  eapply read_new_file; [done|done| |done]. by apply doc_text_no_return, lines_printable.
Qed.
Lemma secrets_saved_loads path mode s w : secrets_saved (files w) path mode s → io (fs_ops w) = None →
  (load_secrets io toml_other path w).1 = Good s.
Proof.
  intros (Hn & Hf) Hio. destruct (new_file (secrets_text s) mode) as [f|] eqn:Hnew; [|done].
  unfold load_secrets. erewrite load_read; [by apply secrets_text_read|].
  eapply read_new_file; [done|done|apply secrets_no_return|done].
Qed.
End FilesSpec.

(** C35: What was saved is loaded: when saving a document returns true, it was valid, the file
    has the mode asked for, and loading it, now or after a restart, yields the normalised
    document; for the device and for the secrets. *)
Theorem saved_documents_load io umask netloc_ok `{!PlainHosts netloc_ok} toml_other cfg path mode w w' w2 :
  files w2 !! path = files w' !! path → io (fs_ops w2) = None →
  (save_device io umask netloc_ok toml_other cfg path mode w = (Good true, w') →
     ∃ d f, _validate_device netloc_ok cfg = Good d ∧ files w' !! path = Some f ∧ f_mode f = mode ∧
       (load_device io netloc_ok toml_other path w2).1 = Good d) ∧
  (save_secrets io umask toml_other cfg path mode w = (Good true, w') →
     ∃ s f, _validate_secrets cfg = Good s ∧ files w' !! path = Some f ∧ f_mode f = mode ∧
       (load_secrets io toml_other path w2).1 = Good s).
Proof.
  intros Hw2 Hio. split; intros Hs.
  - destruct (save_device_end _ _ _ _ _ _ _ _ _ _ Hs eq_refl) as (d & Hd & Hok & Hv & Hn & Hf).
    destruct (new_file (doc_text (device_lines d)) mode) as [f|] eqn:Hnew; [|done]. exists d, f. split_and!; [done|done|by eapply new_file_mode|].
    eapply device_saved_loads; [|done]. split_and!; [done|done|by rewrite Hnew|by rewrite Hw2, Hf, Hnew].
  - destruct (save_secrets_end _ _ _ _ _ _ _ _ _ Hs eq_refl) as (sec & Hd & Hn & Hf).
    destruct (new_file (secrets_text sec) mode) as [f|] eqn:Hnew; [|done]. exists sec, f. split_and!; [done|done|by eapply new_file_mode|].
    eapply secrets_saved_loads; [|done]. split; [by rewrite Hnew|by rewrite Hw2, Hf, Hnew].
Qed.

(** *** The pair *)

(** The same text, up to the newline translation of text mode. *)
Definition same_text (o o' : option file) : Prop :=
  match o, o' with
  | None, None => True
  | Some f, Some f' => f' = f ∨ utf8_decode (f_data f') = newlines <$> utf8_decode (f_data f)
  | _, _ => False
  end.
Lemma same_text_refl o : same_text o o.
Proof. destruct o; cbn; auto. Qed.
Definition documents (netloc_ok : pystr → bool) (device_cfg secrets_cfg : tval) (dt st : pystr) : Prop :=
  ∃ d s, _validate_device netloc_ok device_cfg = Good d ∧ _validate_secrets secrets_cfg = Good s ∧
    dt = doc_text (device_lines d) ∧ st = secrets_text s.
Definition one_failure (io : nat → option nat) : Prop := ∀ n m, io n ≠ None → io m ≠ None → n = m.

Lemma newlines_scalar s : forallb scalar s = true → forallb scalar (newlines s) = true.
Proof.
  assert (∀ n s, (length s ≤ n)%nat → forallb scalar s = true → forallb scalar (newlines s) = true) as Hn; [|by apply (Hn (length s))].
  intros n. induction n as [|n IH]; intros [|c r] Hl Hs; try done; [cbn in Hl; lia|]. cbn in Hl.
  apply andb_true_iff in Hs as [Hc Hr]. cbn [newlines]. destruct (c =? 13).
  - destruct r as [|d r']; [done|]. destruct (d =? 10) eqn:Hd.
    + apply andb_true_iff in Hr as [_ Hr]. cbn [forallb]. rewrite IH; [done|cbn in Hl; lia|done].
    + cbn [forallb]. rewrite IH; [done|lia|done].
  - cbn [forallb]. rewrite Hc, IH; [done|lia|done].
Qed.
Lemma restored_text f t mode : utf8_decode (f_data f) = Some t →
  ∃ f', new_file (newlines t) mode = Some f' ∧ same_text (Some f) (Some f').
Proof.
  intros Ht. assert (∃ b, utf8_encode (newlines t) = Some b) as [b Hb].
  { apply utf8_encode_decode in Ht. unfold utf8_encode in *. destruct (forallb scalar t) eqn:Hs; [|done].
    rewrite newlines_scalar by done. by eexists. }
  exists {| f_data := b; f_mode := mode |}. unfold new_file. rewrite Hb. split; [done|]. right. cbn [f_data].
  by rewrite (utf8_decode_encode _ _ Hb), Ht.
Qed.

Section Pair.
Context (io : nat → option nat) (umask : Z).
(** What the roll-back knows of the device file. *)
Definition remembered (m0 : dirmap) (path : pystr) (w : fsys) (r : bool * option pystr) : Prop :=
  match r with
  | (false, _) => m0 !! path = None
  | (true, Some t) => ∃ f t0, m0 !! path = Some f ∧ utf8_decode (f_data f) = Some t0 ∧ t = newlines t0
  | (true, None) => ∃ n, (n < fs_ops w)%nat ∧ io n ≠ None
  end.
Lemma read_present path w :
  let '(r, w') := _read_text_if_present io path w in
  files w' = files w ∧ (fs_ops w ≤ fs_ops w')%nat ∧ match r with Ret r => remembered (files w) path w' r | Raise _ => True end.
Proof.
  unfold _read_text_if_present, try_except, mbind, pym_bind, read_text. destruct (files w !! path) as [f|] eqn:Hf; cbn [os_error mret pym_ret remembered].
  - destruct (io (fs_ops w)) eqn:Hio; cbn [os_error mret pym_ret remembered].
    + split_and!; [done|apply fs_ops_le|]. exists (fs_ops w). rewrite fs_ops_set. split; [lia|congruence].
    + destruct (utf8_decode (f_data f)) as [t|] eqn:Ht; (split_and!; [done|apply fs_ops_le|]); [|done]. by exists f, t.
  - done.
Qed.
(** Without a failure the roll-back brings the old text back. *)
Lemma restore_text m0 path existed backup mode w :
  remembered m0 path w (existed, backup) → (∀ n, io n ≠ None → ∃ k, (k < fs_ops w)%nat ∧ n = k) →
  (existed = true → backup ≠ None) → (∃ f, files w !! path = Some f) → files w !! (path ++ suffix_tmp) = None →
  let w' := (_restore_text io umask path existed backup mode w).2 in
  same_text (m0 !! path) (files w' !! path).
Proof.
  intros Hr Hio Hb [f Hf] Htmp. cbv zeta.
  assert (∀ w', ¬ failed io w w') as Hnf.
  { intros w' (n & Hn & Hin). destruct (Hio n Hin) as (k & Hk & ->). lia. }
  unfold _restore_text. destruct existed; cbn [negb].
  - destruct backup as [t|]; [|by destruct Hb]. cbn in Hr. destruct Hr as (f0 & t0 & -> & Hd & ->).
    destruct (restored_text f0 t0 mode Hd) as (f' & Hn & Hs).
    unfold try_except. pose proof (along_write_atomic io umask path (newlines t0) mode w) as Hw. unfold along in Hw.
    destruct (write_atomic _ _ _ _ _ w) as [r w']. cbn [fst snd] in Hw. destruct Hw as [_ [(-> & _ & g & Hg & Hw)|(-> & [Hwhy|[Hwhy|Hwhy]] & _)]].
    + cbn [snd]. rewrite Hw, lookup_insert_eq. rewrite Hn in Hg. by injection Hg as <-.
    + by apply Hnf in Hwhy.
    + done.
    + unfold new_file in Hn. by rewrite Hwhy in Hn.
  - cbn in Hr. rewrite Hr. unfold quietly, try_except, remove, mbind, pym_bind, fs_read. rewrite Hf. unfold fs_op.
    destruct (io (fs_ops w)) eqn:Hi; [exfalso; destruct (Hio (fs_ops w)) as (k & ? & ?); [congruence|lia]|].
    cbn [snd set_files files]. by rewrite lookup_delete_eq.
Qed.
Lemma restore_frame path existed backup mode w k : k ≠ path → k ≠ path ++ suffix_tmp →
  files (_restore_text io umask path existed backup mode w).2 !! k = files w !! k.
Proof.
  intros Hk Hk2. unfold _restore_text. destruct existed; cbn [negb].
  - destruct backup as [t|]; [|done]. unfold try_except. pose proof (along_write_atomic io umask path t mode w) as Hw. unfold along in Hw.
    destruct (write_atomic _ _ _ _ _ w) as [r w']. cbn [fst snd] in Hw. destruct Hw as [_ [(-> & _ & g & _ & Hw)|(-> & _ & Hw & _)]]; cbn [snd].
    + rewrite Hw. by rewrite lookup_insert_ne by done.
    + by apply Hw.
  - unfold quietly, try_except, remove, mbind, pym_bind, fs_read. destruct (files w !! path); [|done]. unfold fs_op.
    destruct (io (fs_ops w)); cbn [snd set_files files os_error]; [done|]. by rewrite lookup_delete_ne by done.
Qed.
End Pair.

Lemma pair_texts netloc_ok `{!PlainHosts netloc_ok} toml_other dc sc dt st :
  (d ← _validate_device netloc_ok dc; s ← _validate_secrets sc; dt ← dumps_device (device_doc d); st ← dumps_secrets (secrets_doc s);
   _ ← parse_device netloc_ok toml_other dt; _ ← parse_secrets toml_other st; Good (dt, st)) = Good (dt, st) → documents netloc_ok dc sc dt st.
Proof.
  intros (d & Hd & H1)%conf_bind_good. apply conf_bind_good in H1 as (s & Hs & H1). apply conf_bind_good in H1 as (t & Ht & H1).
  apply conf_bind_good in H1 as (t' & Ht' & H1). apply conf_bind_good in H1 as (p & Hp & H1). apply conf_bind_good in H1 as (_ & _ & [= -> ->]).
  exists d, s. split_and!; [done|done| |].
  - destruct (device_text_good netloc_ok toml_other dc dt) as (d' & Hd' & _ & _ & ->); [|by rewrite Hd in Hd'; injection Hd' as <-].
    unfold device_text. rewrite Hd. cbn. rewrite Ht. cbn. by rewrite Hp.
  - rewrite dumps_secrets_doc in Ht'. by injection Ht' as <-.
Qed.

(** C26: The pair is saved together: both documents are validated and turned to text before a
    file is touched; true means that both files hold what loads as these documents; and
    when saving fails, the secrets file is unchanged, and so is the text of the device
    file, if no more than one operation failed and no temporary file was left over. *)
Theorem save_pair_all_or_nothing io umask netloc_ok `{!PlainHosts netloc_ok} toml_other dc sc dp sp dm sm w :
  NoDup [dp; dp ++ suffix_tmp; sp; sp ++ suffix_tmp] →
  let '(r, w') := save_pair io umask netloc_ok toml_other dc sc dp sp dm sm w in
  ((∃ e m, r = Bad e m) ∨ (∃ e, r = Crash e) → files w' = files w) ∧
  (∀ b, r = Good b → ∃ dt st, documents netloc_ok dc sc dt st ∧
     (b = true → files w' !! dp = new_file dt dm ∧ files w' !! sp = new_file st sm) ∧
     (b = false → files w' !! sp = files w !! sp ∧
        (one_failure io → utf8_encode st ≠ None → files w !! (dp ++ suffix_tmp) = None → files w !! (sp ++ suffix_tmp) = None →
         same_text (files w !! dp) (files w' !! dp)))).
Proof.
  intros Hnd. unfold save_pair. pose proof (pair_texts netloc_ok toml_other dc sc) as Htexts.
  destruct (_validate_device netloc_ok dc ≫= _) as [[dt st]|e m|e]; [|by split; [|intros b [=]]..]. specialize (Htexts dt st eq_refl).
  pose proof (read_present io dp w) as Hread. destruct (_read_text_if_present io dp w) as [[[existed backup]|e] w1];
    destruct Hread as (Hw1 & Ho1 & Hr); [|split; [by intros _|intros b [=]]].
  pose proof (saved_end io umask dp dt dm w1) as Hd. destruct (saved (write_atomic _ _ dp dt dm) w1) as [rd w2]. rewrite !Hw1 in Hd.
  assert (dp ≠ dp ++ suffix_tmp ∧ dp ≠ sp ∧ sp ≠ dp ∧ sp ≠ dp ++ suffix_tmp ∧ dp ≠ sp ++ suffix_tmp ∧ sp ++ suffix_tmp ≠ dp ∧
    dp ++ suffix_tmp ≠ sp ++ suffix_tmp ∧ dp ++ suffix_tmp ≠ dp ∧ dp ++ suffix_tmp ≠ sp ∧ sp ≠ sp ++ suffix_tmp)
    as (?&?&?&?&?&?&?&?&?&?) by (rewrite !NoDup_cons, !not_elem_of_cons in Hnd; naive_solver).
  destruct Hd as [(-> & (Ht2 & f & Hf & Hw2) & Ho2%passed_ops)|(-> & (Hwhy & Hsame & _) & _)].
  2: { split; [by intros [(? & ? & [=])|(? & [=])]|]. intros b [= <-]. exists dt, st. split_and!; [done|done|]. intros _.
       rewrite !Hsame by done. split; [done|]. intros _ _ _ _. apply same_text_refl. }
  pose proof (saved_end io umask sp st sm w2) as Hs. destruct (saved (write_atomic _ _ sp st sm) w2) as [rs w3]. rewrite Hw2 in Hs.
  destruct Hs as [(-> & (Ht3 & g & Hg & Hw3) & _)|(-> & (Hwhy & Hsame & _) & Ho3%passed_ops)].
  { split; [by intros [(? & ? & [=])|(? & [=])]|]. intros b [= <-]. exists dt, st. split_and!; [done| |done]. intros _.
    rewrite Hw3, lookup_insert_eq, lookup_insert_ne, lookup_insert_eq by done. by rewrite Hf, Hg. }
  split; [by intros [(? & ? & [=])|(? & [=])]|]. intros b [= <-]. exists dt, st. split_and!; [done|done|]. intros _. split.
  - rewrite restore_frame by done. rewrite Hsame by done.
    by rewrite lookup_insert_ne by done.
  - intros Hone Henc Htd Hts. rewrite lookup_insert_ne in Hwhy by done.
    destruct Hwhy as [(n & Hn & Hin)|[?|?]]; [|done|done].
    apply (restore_text io umask (files w) dp existed backup dm w3).
    + destruct existed; [|exact Hr]. destruct backup; [exact Hr|]. destruct Hr as (k & Hk & Hkio). exists k. split; [lia|done].
    + intros k Hk. exists k. split; [|done]. rewrite (Hone k n) by done. lia.
    + intros -> ->. destruct Hr as (k & Hk & Hkio). specialize (Hone k n Hkio Hin). lia.
    + exists f. rewrite Hsame, lookup_insert_eq by done. done.
    + rewrite Hsame, lookup_insert_ne by done. done.
Qed.

(** ** Evaluation *)

Definition no_failure (n : nat) : option nat := None.
Definition fails_at (k n : nat) : option nat := if (n =? k)%nat then Some 3%nat else None.
Lemma fails_at_once k : one_failure (fails_at k).
Proof. intros n m. unfold fails_at. destruct (Nat.eqb_spec n k), (Nat.eqb_spec m k); congruence. Qed.
Definition text_file (text : pystr) : file := {| f_data := text; f_mode := device_mode |}.
Definition fresh (m : dirmap) : fsys := {| files := m; fs_past := [] |}.
Definition demo_secrets : tval := TTab [(u "wifi", TTab [(u "psk", TStr (u "hunter22"))])].
Definition demo_saved : conf bool * fsys :=
  save_device no_failure 18 any_host no_other (TTab demo_table) DEVICE_TOML_PATH device_mode (fresh ∅).
Lemma saved_documents_load_witness :
  (load_device no_failure any_host no_other DEVICE_TOML_PATH demo_saved.2).1 = Good demo_device.
Proof.
  assert (demo_saved.1 = Good true) as Hr by (vm_compute; reflexivity). destruct demo_saved as [r w'] eqn:He. cbn [fst snd] in *. subst r.
  assert (io_ok : no_failure (fs_ops w') = None) by reflexivity.
  destruct (proj1 (saved_documents_load no_failure 18 any_host no_other (TTab demo_table) DEVICE_TOML_PATH device_mode (fresh ∅) w' w'
    eq_refl io_ok) He) as (d & f & Hd & _ & _ & Hl).
  rewrite Hl, <-Hd. vm_compute. reflexivity.
Defined.
(** The write of the secrets fails: the old device text is back. *)
Definition demo_pair : conf bool * fsys :=
  save_pair (fails_at 9) 18 any_host no_other (TTab demo_table) demo_secrets DEVICE_TOML_PATH SECRETS_TOML_PATH device_mode secrets_mode
    (fresh {[DEVICE_TOML_PATH := text_file (u "camera_name = " ++ toml_text (u "Old"))]}).
Lemma save_pair_all_or_nothing_witness :
  demo_pair.1 = Good false ∧ files demo_pair.2 !! SECRETS_TOML_PATH = None ∧
  same_text (Some (text_file (u "camera_name = " ++ toml_text (u "Old")))) (files demo_pair.2 !! DEVICE_TOML_PATH).
Proof.
  assert (demo_pair.1 = Good false) as Hr by (vm_compute; reflexivity). split; [exact Hr|].
  pose proof (save_pair_all_or_nothing (fails_at 9) 18 any_host no_other (TTab demo_table) demo_secrets DEVICE_TOML_PATH SECRETS_TOML_PATH
    device_mode secrets_mode (fresh {[DEVICE_TOML_PATH := text_file (u "camera_name = " ++ toml_text (u "Old"))]})) as Hp.
  fold demo_pair in Hp. destruct demo_pair as [r w'] eqn:He. cbn [fst snd] in *. subst r.
  destruct Hp as [_ Hp]; [apply (bool_decide_unpack _); vm_compute; exact I|].
  destruct (Hp false eq_refl) as (dt & st & Hdoc & _ & Hf). destruct (Hf eq_refl) as [Hs Ht]. split; [exact Hs|].
  apply Ht; [apply fails_at_once|destruct Hdoc as (d & s & _ & Hsec & _ & ->); injection Hsec as <-; by vm_compute|by vm_compute|by vm_compute].
Defined.
(** A file that is not UTF-8 is reported as [UnicodeDecodeError], not as [ConfigError]; and
    saving over it raises instead of returning false. *)
Example not_utf8_escapes :
  (load_device no_failure any_host no_other DEVICE_TOML_PATH (fresh {[DEVICE_TOML_PATH := text_file [255]]})).1 = Crash ValueError ∧
  (save_pair no_failure 18 any_host no_other (TTab []) (TTab []) DEVICE_TOML_PATH SECRETS_TOML_PATH device_mode secrets_mode
     (fresh {[DEVICE_TOML_PATH := text_file [255]]})).1 = Crash ValueError.
Proof. vm_compute. auto. Qed.
(** The temporary file that a power cut left makes the next save fail; it is removed, and
    the one after succeeds. *)
Example leftover_fails_once :
  let cut := fresh {[DEVICE_TOML_PATH ++ suffix_tmp := text_file []]} in
  let '(first, w) := save_device no_failure 18 any_host no_other (TTab []) DEVICE_TOML_PATH device_mode cut in
  first = Good false ∧ (save_device no_failure 18 any_host no_other (TTab []) DEVICE_TOML_PATH device_mode w).1 = Good true.
Proof. vm_compute. auto. Qed.
