(* ===== verification/Proto.v ===== *)
(** [app/proto.py]: the nanopb wire format, the camera-side WebRTC message and
    the ICE configuration.  A position [offset] in [data] is represented by the
    suffix [data[offset:]]; an offset past the end is the empty suffix. *)
From S2P Require Import Prelude PyValue.
From Stdlib Require Import SpecFloat.

Definition WEBRTC_REQUEST := 1.
Definition WEBRTC_ANSWER := 2.
Definition WEBRTC_OFFER := 3.
Definition WEBRTC_CANDIDATE := 4.

(** ** Varints *)

(** The [while value > 127] loop; the fuel [log2 value] covers it, see
    [encode_varint_eq]. *)
Fixpoint encode_varint_fuel (n : nat) (value : Z) : bytes :=
  match n with
  | S n' =>
      if 127 <? value
      then Z.lor (Z.land value 127) 128 :: encode_varint_fuel n' (Z.shiftr value 7)
      else [Z.land value 127]
  | O => [Z.land value 127]
  end.
Definition encode_varint (value : Z) : bytes :=
  encode_varint_fuel (Z.to_nat (Z.log2 value)) value.

Fixpoint decode_varint_loop (data : bytes) (result shift : Z) : Z * bytes :=
  match data with
  | [] => (result, [])
  | b :: data' =>
      let result := Z.lor result (Z.shiftl (Z.land b 127) shift) in
      if Z.land b 128 =? 0 then (result, data')
      else decode_varint_loop data' result (shift + 7)
  end.
Definition decode_varint (data : bytes) : Z * bytes := decode_varint_loop data 0 0.

(** ** Encoding *)

Definition tag_of (field_number wire : Z) : Z := Z.lor (Z.shiftl field_number 3) wire.

Definition encode_len_field (field_number : Z) (value : bytes) : bytes :=
  encode_varint (tag_of field_number 2) ++ encode_varint (Z.of_nat (length value)) ++ value.

Definition encode_string_field (field_number : Z) (value : pystr) : res bytes :=
  match utf8_encode value with
  | Some encoded => Ret (encode_len_field field_number encoded)
  | None => Raise ValueError
  end.

Definition encode_uint_field (field_number value : Z) : bytes :=
  encode_varint (tag_of field_number 0) ++ encode_varint value.

(** [struct.pack('<f', value)]: round to binary32, little endian; a finite value
    that rounds to infinity raises [OverflowError]. *)
Definition f32_bits (f : spec_float) : Z :=
  match f with
  | S754_zero s => if s then 2 ^ 31 else 0
  | S754_infinity s => (if s then 2 ^ 31 else 0) + 255 * 2 ^ 23
  | S754_nan => 2143289344
  | S754_finite s m e =>
      (if s then 2 ^ 31 else 0)
      + (if Z.pos m <? 2 ^ 23 then Z.pos m else (e + 150) * 2 ^ 23 + (Z.pos m - 2 ^ 23))
  end.
Definition le32 (v : Z) : bytes :=
  [v mod 256; v / 256 mod 256; v / 65536 mod 256; v / 16777216 mod 256].
Definition pack_f32 (f : spec_float) : res bytes :=
  match f with
  | S754_finite s m e =>
      match binary_normalize 24 128 (if s then Z.neg m else Z.pos m) e s with
      | S754_infinity _ => Raise OtherError
      | r => Ret (le32 (f32_bits r))
      end
  | _ => Ret (le32 (f32_bits f))
  end.

Definition encode_float_field (field_number : Z) (value : spec_float) : res bytes :=
  match pack_f32 value with
  | Ret raw => Ret (encode_varint (tag_of field_number 5) ++ raw)
  | Raise e => Raise e
  end.

(** A value of the field dict: [Float32(value)] or an ordinary object. *)
Inductive field_value :=
  | Float32 (value : spec_float)
  | Plain (v : pyval).

(** One iteration of the loop of [encode_message]. *)
Definition encode_field (field_num : Z) (value : field_value) : res bytes :=
  match value with
  | Plain VNone => Ret []
  | Plain (VBool b) => Ret (encode_uint_field field_num (if b then 1 else 0))
  | Plain (VInt z) => Ret (encode_uint_field field_num z)
  | Float32 f => encode_float_field field_num f
  | Plain (VStr s) => encode_string_field field_num s
  | Plain (VBytes b) => Ret (encode_len_field field_num b)
  | Plain (VFloat _ | VList _ | VDict _) => Ret []
  end.

Fixpoint encode_fields (fields : list (Z * field_value)) : res bytes :=
  match fields with
  | [] => Ret []
  | (k, v) :: rest =>
      match encode_field k v with
      | Raise e => Raise e
      | Ret b => match encode_fields rest with Ret bs => Ret (b ++ bs) | Raise e => Raise e end
      end
  end.

(** [sorted(fields.items())]: the keys of a dict are distinct. *)
Definition key_le (x y : Z * field_value) : Prop := x.1 ≤ y.1.
#[global] Instance key_le_dec x y : Decision (key_le x y) := decide (x.1 ≤ y.1).

Definition encode_message (fields : list (Z * field_value)) : res bytes :=
  encode_fields (merge_sort key_le fields).

(** ** Decoding *)

(** [data[offset:offset + n]] and the suffix after it. *)
Definition take_z (n : Z) (l : bytes) : bytes :=
  if Z.of_nat (length l) <=? n then l else take (Z.to_nat n) l.
Definition drop_z (n : Z) (l : bytes) : bytes :=
  if Z.of_nat (length l) <=? n then [] else drop (Z.to_nat n) l.

(** [raw.decode('utf-8')], or [raw] itself when that fails. *)
Definition text_or_bytes (raw : bytes) : pyval :=
  match utf8_decode raw with Some s => VStr s | None => VBytes raw end.

Fixpoint decode_message_loop (n : nat) (data : bytes) (fields : list (Z * pyval)) : list (Z * pyval) :=
  match n, data with
  | _, [] => fields
  | O, _ => fields
  | S n', _ =>
      let '(tag, data) := decode_varint data in
      let field_number := Z.shiftr tag 3 in
      let wire_type := Z.land tag 7 in
      if wire_type =? 0 then
        let '(value, data) := decode_varint data in
        decode_message_loop n' data (dict_set field_number (VInt value) fields)
      else if wire_type =? 2 then
        let '(len, data) := decode_varint data in
        decode_message_loop n' (drop_z len data)
          (dict_set field_number (text_or_bytes (take_z len data)) fields)
      else if wire_type =? 5 then
        decode_message_loop n' (drop_z 4 data) (dict_set field_number (VBytes (take_z 4 data)) fields)
      else if wire_type =? 1 then
        decode_message_loop n' (drop_z 8 data) (dict_set field_number (VBytes (take_z 8 data)) fields)
      else fields
  end.
Definition decode_message (data : bytes) : list (Z * pyval) :=
  decode_message_loop (length data) data [].

(** The generator [_iter_fields], as the list of what it yields. *)
Fixpoint iter_fields_loop (n : nat) (data : bytes) : list (Z * Z * pyval) :=
  match n, data with
  | _, [] => []
  | O, _ => []
  | S n', _ =>
      let '(tag, data) := decode_varint data in
      let field := Z.shiftr tag 3 in
      let wire := Z.land tag 7 in
      if wire =? 0 then
        let '(value, data) := decode_varint data in
        (field, wire, VInt value) :: iter_fields_loop n' data
      else if wire =? 2 then
        let '(len, data) := decode_varint data in
        (field, wire, VBytes (take_z len data)) :: iter_fields_loop n' (drop_z len data)
      else if wire =? 5 then
        (field, wire, VBytes (take_z 4 data)) :: iter_fields_loop n' (drop_z 4 data)
      else if wire =? 1 then
        (field, wire, VBytes (take_z 8 data)) :: iter_fields_loop n' (drop_z 8 data)
      else []
  end.
Definition _iter_fields (data : bytes) : list (Z * Z * pyval) :=
  iter_fields_loop (length data) data.

(** ** The camera-side WebRTC message *)

Record webrtc_message := WebRTCMessage {
  request_id : pyval;
  client_id : pyval;
  session_id : pyval;
  field4 : pyval;
  field4_fields : list (Z * pyval);
  field5 : pyval;
  field6 : pyval;
  field7 : pyval;
  ice_config : pyval;
  field9 : pyval;
  raw : list (Z * pyval);
}.

(** [fields.get(k, d)]. *)
Definition field_get (k : Z) (d : pyval) (fields : list (Z * pyval)) : pyval :=
  match dict_get k fields with Some v => v | None => d end.

(** The [for ... break] over [_iter_fields]: the first length-delimited tag 4. *)
Fixpoint first_field4 (items : list (Z * Z * pyval)) : list (Z * pyval) :=
  match items with
  | [] => []
  | (field, wire, value) :: items' =>
      if (field =? 4) && (wire =? 2)
      then match value with VBytes b => decode_message b | _ => [] end
      else first_field4 items'
  end.

Definition decode_camera_webrtc_message (data : bytes) : webrtc_message :=
  let fields := decode_message data in
  {| request_id := field_get 1 (VStr []) fields;
     client_id := field_get 2 (VStr []) fields;
     session_id := field_get 3 (VStr []) fields;
     field4 := field_get 4 (VStr []) fields;
     field4_fields := first_field4 (_iter_fields data);
     field5 := field_get 5 (VInt 0) fields;
     field6 := field_get 6 (VInt 0) fields;
     field7 := field_get 7 (VInt 0) fields;
     ice_config := field_get 8 (VBytes []) fields;
     field9 := field_get 9 (VBytes []) fields;
     raw := fields |}.

Definition nonempty_str (v : pyval) : bool :=
  match v with VStr (_ :: _) => true | _ => false end.

Definition encode_camera_webrtc_message (token request_id fingerprint : pyval) (msg_type : Z)
    (sdp candidate mid : pystr) : res bytes :=
  if negb (existsb (Z.eqb msg_type) [WEBRTC_REQUEST; WEBRTC_ANSWER; WEBRTC_OFFER; WEBRTC_CANDIDATE])
  then Raise ValueError
  else if negb (nonempty_str request_id) then Raise ValueError
  else
    let fields := [(1, Plain token); (2, Plain request_id); (3, Plain fingerprint);
                   (5, Plain (VInt msg_type)); (7, Plain (VInt 1))] in
    let body :=
      match sdp, candidate with
      | _ :: _, _ => Some [(1, Plain (VStr sdp)); (2, Plain (VStr []))]
      | [], _ :: _ => Some [(1, Plain (VStr candidate)); (2, Plain (VStr mid))]
      | [], [] => None
      end in
    match body with
    | Some f4 =>
        match encode_message f4 with
        | Ret sub => encode_message (dict_set 4 (Plain (VBytes sub)) fields)
        | Raise e => Raise e
        end
    | None => encode_message fields
    end.

(** ** ICE candidates *)

(** [normalize]: drop an [a=] prefix, keep the text only if it is a candidate. *)
Definition normalize (text : pystr) : pystr :=
  let text := if starts_with (u "a=") text then drop 2 text else text in
  if starts_with (u "candidate:") text then text else [].

(** First non-empty answer of a loop over values. *)
Fixpoint first_found {A} (scan : A → res pystr) (values : list A) : res pystr :=
  match values with
  | [] => Ret []
  | v :: values' =>
      match scan v with
      | Ret [] => first_found scan values'
      | r => r
      end
  end.

(** [scan(value, depth)] with [n = 9 - depth]: [depth > 8] gives the empty text.
    Re-encoding a text with a lone surrogate raises. *)
Fixpoint scan (n : nat) (value : pyval) : res pystr :=
  match n with
  | O => Ret []
  | S n' =>
      let inner raw := first_found (scan n') (decode_message raw).*2 in
      match value with
      | VBytes b =>
          match normalize (utf8_replace b) with [] => inner b | found => Ret found end
      | VStr s =>
          match normalize s with
          | [] => match utf8_encode s with Some raw => inner raw | None => Raise ValueError end
          | found => Ret found
          end
      | _ => Ret []
      end
  end.

Definition find_webrtc_candidate (msg : webrtc_message) : res pystr :=
  first_found (scan 9) (raw msg).*2.

(** ** ICE server configuration *)

Record ice_server := IceServer {
  server_id : pyval;
  host : pystr;
  port : Z;
  server_type : Z;
}.

Record ice_result := IceResult {
  servers : list ice_server;
  username : pystr;
  credential : pystr;
}.

(** Python ints include the bools; a decoded field is never a bool. *)
Definition as_server (inner : list (Z * pyval)) : option ice_server :=
  match dict_get 2 inner, dict_get 3 inner, dict_get 4 inner with
  | Some (VStr h), Some (VInt p), Some (VInt t) =>
      Some (IceServer (field_get 1 (VInt 0) inner) h p t)
  | _, _, _ => None
  end.

Definition is_turn_username `{UnicodeDB} (text : pystr) : bool :=
  contains_char 58 text && str_isdigit (remove_char 58 text).
Definition is_turn_credential (text : pystr) : bool :=
  (16 <=? Z.of_nat (length text)) && ends_with (u "=") text && negb (contains_char 32 text).

(** The body of the loop of [walk]; [walk] is the recursive call. *)
Definition ice_step `{UnicodeDB} (walk : bytes → ice_result → ice_result)
    (acc : ice_result) (item : Z * Z * pyval) : ice_result :=
  let '(_, wire, value) := item in
  match value with
  | VBytes value =>
      if negb (wire =? 2) then acc else
      let text := match utf8_decode value with Some t => t | None => [] end in
      if is_turn_username text then acc{{username := text}}
      else if is_turn_credential text then acc{{credential := text}}
      else match as_server (decode_message value) with
           | Some srv => acc{{servers := servers acc ++ [srv] }}
           | None => walk value acc
           end
  | _ => acc
  end.

(** [walk(blob)]; the fuel bounds the nesting, which shrinks the blob. *)
Fixpoint ice_walk `{UnicodeDB} (n : nat) (blob : bytes) (acc : ice_result) : ice_result :=
  match n with
  | O => acc
  | S n' => foldl (ice_step (ice_walk n')) acc (_iter_fields blob)
  end.

(** Indexing a non-empty [str] gives a [str], and [str & int] raises. *)
Definition decode_ice_config `{UnicodeDB} (data : pyval) : res ice_result :=
  match data with
  | VBytes b => Ret (ice_walk (S (length b)) b (IceResult [] [] []))
  | VStr [] => Ret (IceResult [] [] [])
  | VStr (_ :: _) => Raise TypeError
  | _ => Raise TypeError
  end.

Definition decode_ice_servers `{UnicodeDB} (data : pyval) : res (list ice_server) :=
  match decode_ice_config data with Ret r => Ret (servers r) | Raise e => Raise e end.

(** ** The Socket.IO configuration message *)

Fixpoint config_walk (n : nat) (raw : bytes) : list (pyval * pyval) :=
  match n with
  | O => []
  | S n' =>
      map (λ kv : Z * pyval,
        let nested :=
          match kv.2 with
          | VBytes b => config_walk n' b
          | VStr s => match utf8_encode s with Some b => config_walk n' b | None => [] end
          | _ => []
          end in
        (VInt kv.1, match nested with [] => kv.2 | _ => VDict nested end))
      (decode_message raw)
  end.

(** The payload is [bytes] or [str]; encoding the latter may raise. *)
Definition decode_config_message (data : pystr + bytes) : res (list (pyval * pyval)) :=
  match data with
  | inr b => Ret (config_walk (S (length b)) b)
  | inl s => match utf8_encode s with
             | Some b => Ret (config_walk (S (length b)) b)
             | None => Raise ValueError
             end
  end.

#[local] Ltac Zify.zify_post_hook ::= Z.to_euclidean_division_equations.

(** ** Varints: the loop equation and the round trip *)

Lemma shiftr7_lt v : 127 < v → Z.log2 (Z.shiftr v 7) = Z.log2 v - 7.
Proof.
  intros Hv. rewrite Z.log2_shiftr by lia.
  assert (7 ≤ Z.log2 v) by (apply Z.log2_le_pow2; lia). lia.
Qed.

Lemma encode_varint_fuel_enough n m v :
  (Z.to_nat (Z.log2 v) <= n)%nat → (Z.to_nat (Z.log2 v) <= m)%nat →
  encode_varint_fuel n v = encode_varint_fuel m v.
Proof.
  assert (Hlog : ∀ v, 127 < v → 7 ≤ Z.log2 v) by (intros; apply Z.log2_le_pow2; lia).
  revert m v. induction n as [|n IH]; intros m v Hn Hm.
  - destruct m as [|m]; simpl; [done|].
    destruct (Z.ltb_spec 127 v) as [Hv|]; [|done]. specialize (Hlog v Hv). lia.
  - destruct m as [|m]; simpl;
      (destruct (Z.ltb_spec 127 v) as [Hv|]; [|done]); specialize (Hlog v Hv); [lia|].
    f_equal. apply IH; rewrite shiftr7_lt by done; lia.
Qed.

(** The fuel is enough: [encode_varint] is the loop of the source. *)
Lemma encode_varint_eq v :
  encode_varint v =
  if 127 <? v then Z.lor (Z.land v 127) 128 :: encode_varint (Z.shiftr v 7) else [Z.land v 127].
Proof.
  unfold encode_varint.
  rewrite (encode_varint_fuel_enough _ (S (Z.to_nat (Z.log2 v)))) by lia. simpl.
  destruct (Z.ltb_spec 127 v) as [Hv|]; [|done]. f_equal.
  apply encode_varint_fuel_enough; rewrite shiftr7_lt by done; lia.
Qed.

Lemma lor_shiftl_add a x k : 0 ≤ k → 0 ≤ a < 2 ^ k → Z.lor a (Z.shiftl x k) = a + x * 2 ^ k.
Proof.
  intros Hk Ha. rewrite <-Z.shiftl_mul_pow2 by done. symmetry. apply Z.add_nocarry_lor.
  apply Z.bits_inj'. intros i Hi. rewrite Z.land_spec, Z.bits_0, Z.shiftl_spec by lia.
  destruct (Z.lt_ge_cases i k).
  - rewrite (Z.testbit_neg_r x) by lia. apply andb_false_r.
  - destruct (Z.eq_dec a 0) as [->|]; [by rewrite Z.bits_0|].
    rewrite (Z.bits_above_log2 a); [done|lia|].
    apply Z.lt_le_trans with k; [|done]. apply Z.log2_lt_pow2; lia.
Qed.

Lemma land127 v : Z.land v 127 = v mod 128.
Proof. apply (Z.land_ones v 7). lia. Qed.

Lemma low_byte_continues v : Z.land (Z.lor (Z.land v 127) 128) 128 = 128.
Proof.
  rewrite Z.land_lor_distr_l, <-Z.land_assoc. by rewrite Z.land_0_r.
Qed.
Lemma low_byte_payload v : Z.land (Z.lor (Z.land v 127) 128) 127 = v mod 128.
Proof.
  rewrite Z.land_lor_distr_l, <-Z.land_assoc, <-land127. simpl. by rewrite Z.lor_0_r.
Qed.
Lemma last_byte_stops v : Z.land (Z.land v 127) 128 = 0.
Proof. rewrite <-Z.land_assoc. apply Z.land_0_r. Qed.

Lemma decode_varint_loop_encode v rest acc shift :
  0 ≤ v → 0 ≤ shift → 0 ≤ acc < 2 ^ shift →
  decode_varint_loop (encode_varint v ++ rest) acc shift = (acc + v * 2 ^ shift, rest).
Proof.
  revert acc shift. induction v as [v IH] using (well_founded_induction (Z.lt_wf 0)).
  intros acc shift Hv Hs Ha. rewrite encode_varint_eq.
  destruct (Z.ltb_spec 127 v) as [Hgt|Hle]; cbn [app decode_varint_loop].
  - rewrite low_byte_continues, low_byte_payload. simpl.
    rewrite lor_shiftl_add by lia. rewrite Z.shiftr_div_pow2 by lia. change (2 ^ 7) with 128.
    assert (Hp : 2 ^ (shift + 7) = 2 ^ shift * 128) by (rewrite Z.pow_add_r by lia; done).
    assert (v = 128 * (v / 128) + v mod 128 ∧ 0 ≤ v mod 128 < 128) as [Hdm Hm] by lia.
    rewrite IH, Hp by (rewrite ?Hp; nia). f_equal. rewrite Hdm at 3. ring.
  - rewrite last_byte_stops, <-Z.land_assoc. simpl.
    rewrite land127, Z.mod_small, lor_shiftl_add by lia. done.
Qed.

Lemma decode_varint_encode v rest :
  0 ≤ v → decode_varint (encode_varint v ++ rest) = (v, rest).
Proof.
  intros Hv. unfold decode_varint. rewrite decode_varint_loop_encode by (simpl; lia).
  f_equal. simpl. lia.
Qed.

Lemma decode_varint_loop_shrinks data acc shift :
  (length (decode_varint_loop data acc shift).2 <= length data - 1)%nat.
Proof.
  revert acc shift. induction data as [|b data IH]; intros acc shift; simpl; [lia|].
  case_match; simpl; [lia|]. etrans; [apply IH|]. lia.
Qed.

Lemma decode_varint_shrinks data v rest :
  decode_varint data = (v, rest) → (length rest <= length data - 1)%nat.
Proof.
  unfold decode_varint. intros E. pose proof (decode_varint_loop_shrinks data 0 0) as Hs.
  by rewrite E in Hs.
Qed.

Lemma length_drop_z n l : (length (drop_z n l) <= length l)%nat.
Proof. unfold drop_z. case_match; simpl; [lia|]. rewrite length_drop. lia. Qed.
Lemma length_take_z n l : (length (take_z n l) <= length l)%nat.
Proof. unfold take_z. case_match; simpl; [lia|]. rewrite length_take. lia. Qed.

(** ** Enough fuel: the decoders consume at least the tag byte per field *)

Lemma iter_fields_fuel n m data :
  (length data <= n)%nat → (length data <= m)%nat → iter_fields_loop n data = iter_fields_loop m data.
Proof.
  revert m data. induction n as [|n IH]; intros m data Hn Hm.
  - destruct data; [by destruct m|simpl in *; lia].
  - destruct data as [|b data]; [by destruct m|]. destruct m as [|m]; [simpl in *; lia|].
    cbn [iter_fields_loop]. destruct (decode_varint (b :: data)) as [tag d1] eqn:E1.
    apply decode_varint_shrinks in E1. destruct (decode_varint d1) as [v d2] eqn:E2.
    apply decode_varint_shrinks in E2. simpl in *.
    pose proof (length_drop_z v d2). pose proof (length_drop_z 4 d1). pose proof (length_drop_z 8 d1).
    repeat case_match; f_equal; apply IH; lia.
Qed.

(** What the dict of [decode_message] keeps of a yielded field. *)
Definition collapse (item : Z * Z * pyval) : Z * pyval :=
  let '(field, wire, value) := item in
  (field, if wire =? 2 then match value with VBytes b => text_or_bytes b | v => v end else value).

Definition last_wins (fields : list (Z * pyval)) (item : Z * Z * pyval) : list (Z * pyval) :=
  dict_set (collapse item).1 (collapse item).2 fields.

Lemma decode_message_loop_iter n data fields :
  decode_message_loop n data fields = foldl last_wins fields (iter_fields_loop n data).
Proof.
  revert data fields. induction n as [|n IH]; intros data fields; [by destruct data|].
  destruct data as [|b data]; [done|]. cbn [iter_fields_loop decode_message_loop].
  destruct (decode_varint (b :: data)) as [tag d1]. destruct (decode_varint d1) as [v d2].
  repeat case_match; cbn [foldl]; rewrite ?IH; try done;
    f_equal; unfold last_wins, collapse; simpl; repeat case_match; done || lia.
Qed.

(** ** The wire format round trip *)

Lemma iter_fields_unfold data :
  data ≠ [] →
  _iter_fields data =
  let '(tag, d1) := decode_varint data in
  let field := Z.shiftr tag 3 in
  let wire := Z.land tag 7 in
  if wire =? 0 then let '(v, d2) := decode_varint d1 in (field, wire, VInt v) :: _iter_fields d2
  else if wire =? 2 then
    let '(len, d2) := decode_varint d1 in
    (field, wire, VBytes (take_z len d2)) :: _iter_fields (drop_z len d2)
  else if wire =? 5 then (field, wire, VBytes (take_z 4 d1)) :: _iter_fields (drop_z 4 d1)
  else if wire =? 1 then (field, wire, VBytes (take_z 8 d1)) :: _iter_fields (drop_z 8 d1)
  else [].
Proof.
  intros Hne. unfold _iter_fields at 1. destruct data as [|b data]; [done|].
  cbn [length iter_fields_loop]. destruct (decode_varint (b :: data)) as [tag d1] eqn:E1.
  apply decode_varint_shrinks in E1. destruct (decode_varint d1) as [v d2] eqn:E2.
  apply decode_varint_shrinks in E2. simpl in *.
  pose proof (length_drop_z v d2). pose proof (length_drop_z 4 d1). pose proof (length_drop_z 8 d1).
  repeat case_match; f_equal; apply iter_fields_fuel; lia.
Qed.

Lemma tag_field k w : 0 ≤ w < 8 → Z.shiftr (tag_of k w) 3 = k.
Proof.
  intros Hw. unfold tag_of. rewrite Z.lor_comm, lor_shiftl_add by (simpl; lia).
  rewrite Z.shiftr_div_pow2 by lia. simpl. lia.
Qed.
Lemma tag_wire k w : 0 ≤ w < 8 → Z.land (tag_of k w) 7 = w.
Proof.
  intros Hw. unfold tag_of. rewrite Z.lor_comm, lor_shiftl_add by (simpl; lia).
  rewrite (Z.land_ones _ 3) by lia. simpl. lia.
Qed.
Lemma tag_nonneg k w : 0 ≤ k → 0 ≤ w → 0 ≤ tag_of k w.
Proof. intros. apply Z.lor_nonneg. split; [by apply Z.shiftl_nonneg|done]. Qed.

Lemma encode_varint_nonempty v : encode_varint v ≠ [].
Proof. rewrite encode_varint_eq. by case_match. Qed.

Lemma take_z_app l rest : take_z (Z.of_nat (length l)) (l ++ rest) = l.
Proof.
  unfold take_z. rewrite length_app. case_match eqn:E.
  - apply Z.leb_le in E. assert (rest = []) as -> by (apply length_zero_iff_nil; lia). apply app_nil_r.
  - by rewrite Nat2Z.id, take_app_length.
Qed.
Lemma drop_z_app l rest : drop_z (Z.of_nat (length l)) (l ++ rest) = rest.
Proof.
  unfold drop_z. rewrite length_app. case_match eqn:E.
  - apply Z.leb_le in E. by assert (rest = []) as -> by (apply length_zero_iff_nil; lia).
  - by rewrite Nat2Z.id, drop_app_length.
Qed.

Lemma iter_fields_tagged k w body :
  0 ≤ k → 0 ≤ w < 8 →
  _iter_fields (encode_varint (tag_of k w) ++ body) =
  if w =? 0 then let '(v, d2) := decode_varint body in (k, w, VInt v) :: _iter_fields d2
  else if w =? 2 then
    let '(len, d2) := decode_varint body in
    (k, w, VBytes (take_z len d2)) :: _iter_fields (drop_z len d2)
  else if w =? 5 then (k, w, VBytes (take_z 4 body)) :: _iter_fields (drop_z 4 body)
  else if w =? 1 then (k, w, VBytes (take_z 8 body)) :: _iter_fields (drop_z 8 body)
  else [].
Proof.
  intros Hk Hw. rewrite iter_fields_unfold.
  - rewrite decode_varint_encode by (apply tag_nonneg; lia). cbv zeta.
    by rewrite tag_field, tag_wire.
  - destruct (encode_varint (tag_of k w)) eqn:E; [by apply encode_varint_nonempty in E|done].
Qed.

(** What a field of the dict becomes on the wire; [None] when it is not sent. *)
Definition wire_item (kv : Z * field_value) : option (Z * Z * pyval) :=
  match kv.2 with
  | Plain (VBool b) => Some (kv.1, 0, VInt (if b then 1 else 0))
  | Plain (VInt z) => Some (kv.1, 0, VInt z)
  | Plain (VStr s) => match utf8_encode s with Some b => Some (kv.1, 2, VBytes b) | None => None end
  | Plain (VBytes b) => Some (kv.1, 2, VBytes b)
  | Float32 f => match pack_f32 f with Ret b => Some (kv.1, 5, VBytes b) | Raise _ => None end
  | _ => None
  end.

(** Field numbers and unsigned values are not negative. *)
Definition wire_ok (kv : Z * field_value) : Prop :=
  0 ≤ kv.1 ∧ match kv.2 with Plain (VInt z) => 0 ≤ z | _ => True end.

Lemma pack_f32_length f b : pack_f32 f = Ret b → length b = 4%nat.
Proof. unfold pack_f32. repeat case_match; by intros [= <-]. Qed.

Lemma encode_field_iter k v b rest :
  wire_ok (k, v) → encode_field k v = Ret b →
  _iter_fields (b ++ rest) = option_list (wire_item (k, v)) ++ _iter_fields rest.
Proof.
  intros [Hk Hv] Hb. simpl in Hk, Hv.
  assert (Hlen : ∀ l, _iter_fields (encode_len_field k l ++ rest) = (k, 2, VBytes l) :: _iter_fields rest).
  { intros l. unfold encode_len_field. rewrite <-!app_assoc, iter_fields_tagged by lia. simpl.
    rewrite decode_varint_encode by lia. by rewrite take_z_app, drop_z_app. }
  assert (Hint : ∀ z, 0 ≤ z → _iter_fields (encode_uint_field k z ++ rest) = (k, 0, VInt z) :: _iter_fields rest).
  { intros z Hz. unfold encode_uint_field. rewrite <-!app_assoc, iter_fields_tagged by lia. simpl.
    by rewrite decode_varint_encode. }
  destruct v as [f|[]]; unfold wire_item; simpl in *; simplify_eq; try done; try (by apply Hlen);
    try (by apply Hint; try case_match).
  - unfold encode_float_field in Hb. destruct (pack_f32 f) as [l|] eqn:El; simplify_eq.
    rewrite <-app_assoc, iter_fields_tagged by lia. simpl.
    apply pack_f32_length in El. change 4 with (Z.of_nat 4). rewrite <-El.
    by rewrite take_z_app, drop_z_app.
  - unfold encode_string_field in Hb. destruct (utf8_encode s); simplify_eq. apply Hlen.
Qed.

Lemma encode_fields_iter fields bs :
  Forall wire_ok fields → encode_fields fields = Ret bs →
  _iter_fields bs = omap wire_item fields.
Proof.
  intros Hok. revert bs. induction Hok as [|[k v] fields Hkv _ IH]; intros bs; cbn [encode_fields];
    [by intros [= <-]|].
  destruct (encode_field k v) as [b|] eqn:Eb; [|done].
  destruct (encode_fields fields) as [bs'|]; [|done]. intros [= <-].
  rewrite (encode_field_iter k v b bs') by done. rewrite (IH bs') by done.
  cbn [omap list_omap]. by destruct (wire_item (k, v)).
Qed.

(** What a reader of the dict sees of an encoded field. *)
Definition wire_view (v : field_value) : option pyval :=
  match v with
  | Plain (VBool b) => Some (VInt (if b then 1 else 0))
  | Plain (VInt z) => Some (VInt z)
  | Plain (VStr s) => Some (VStr s)
  | Plain (VBytes b) => Some (text_or_bytes b)
  | Float32 f => match pack_f32 f with Ret b => Some (VBytes b) | Raise _ => None end
  | _ => None
  end.

(** A field the encoder does not raise on. *)
Definition encodable (kv : Z * field_value) : Prop :=
  match encode_field kv.1 kv.2 with Ret _ => True | Raise _ => False end.

Lemma encode_fields_encodable fields bs : encode_fields fields = Ret bs → Forall encodable fields.
Proof.
  revert bs. induction fields as [|[k v] fields IH]; intros bs; cbn [encode_fields]; [constructor|].
  destruct (encode_field k v) eqn:E; [|done].
  destruct (encode_fields fields) eqn:E'; [|done]. intros _.
  constructor; [by unfold encodable; simpl; rewrite E|eauto].
Qed.

Lemma collapse_wire_item kv :
  encodable kv → collapse <$> wire_item kv = pair kv.1 <$> wire_view kv.2.
Proof.
  destruct kv as [k [f|[]]]; unfold encodable; simpl; try done; try (by case_match).
  - unfold encode_float_field, wire_item. simpl. by destruct (pack_f32 f).
  - unfold encode_string_field, wire_item. simpl. destruct (utf8_encode s) eqn:E; [|done].
    intros _. simpl. unfold text_or_bytes. by rewrite (utf8_decode_encode s).
Qed.

Definition sent (kv : Z * field_value) : option (Z * pyval) := pair kv.1 <$> wire_view kv.2.

Lemma collapse_omap fields :
  Forall encodable fields → collapse <$> omap wire_item fields = omap sent fields.
Proof.
  induction 1 as [|kv fields Hkv _ IH]; [done|]. cbn [omap list_omap].
  apply collapse_wire_item in Hkv. unfold sent at 1. rewrite <-Hkv.
  destruct (wire_item kv); simpl; [f_equal|]; apply IH.
Qed.

Lemma sent_keys fields : (omap sent fields).*1 `sublist_of` fields.*1.
Proof.
  induction fields as [|[k v] fields IH]; [done|]. cbn [omap list_omap]. unfold sent at 1. simpl.
  destruct (wire_view v); simpl; [by apply sublist_skip|by apply sublist_cons].
Qed.

Lemma sent_lookup k fields :
  NoDup fields.*1 → dict_get k (omap sent fields) = dict_get k fields ≫= wire_view.
Proof.
  induction fields as [|[k' v] fields IH]; [done|]. cbn [omap list_omap fmap list_fmap].
  intros [Hk Hnd]%NoDup_cons. unfold sent at 1. simpl. case_decide as Hd.
  - subst k'. simpl. destruct (wire_view v); simpl; [by rewrite decide_True|].
    apply dict_get_None. intros Hin. apply Hk. by eapply elem_of_sublist; [|apply sent_keys].
  - destruct (wire_view v); simpl; [rewrite decide_False by done|]; by apply IH.
Qed.

Lemma decode_message_items data :
  decode_message data = foldl (λ d kv, dict_set kv.1 kv.2 d) [] (collapse <$> _iter_fields data).
Proof.
  unfold decode_message. rewrite decode_message_loop_iter. unfold _iter_fields.
  generalize (@nil (Z * pyval)) as d0.
  induction (iter_fields_loop (length data) data) as [|x l IH]; intros d0; simpl; [done|apply IH].
Qed.

(** Encoding a dict and decoding the bytes gives the sent fields, by field number. *)
Lemma decode_encode_fields fields bs :
  NoDup fields.*1 → Forall wire_ok fields → encode_fields fields = Ret bs →
  decode_message bs = omap sent fields.
Proof.
  intros Hnd Hok Henc. rewrite decode_message_items, (encode_fields_iter fields) by done.
  pose proof (encode_fields_encodable _ _ Henc).
  rewrite collapse_omap by done. apply (dict_of_items []).
  eapply sublist_NoDup; [exact Hnd|apply sent_keys].
Qed.

Lemma sorted_fields_perm fields : merge_sort key_le fields ≡ₚ fields.
Proof. apply merge_sort_Permutation. Qed.

Lemma decode_encode_message fields bs :
  NoDup fields.*1 → Forall wire_ok fields → encode_message fields = Ret bs →
  decode_message bs = omap sent (merge_sort key_le fields).
Proof.
  intros Hnd Hok Henc. apply decode_encode_fields; [| |done]; by rewrite sorted_fields_perm.
Qed.

(** ** Nested blobs shrink *)

(** A yielded value is an int, or bytes shorter than the message. *)
Definition shorter_value (data : bytes) (v : pyval) : Prop :=
  match v with
  | VInt _ => True
  | VBytes b => (length b < length data)%nat
  | _ => False
  end.

Lemma shorter_value_mono data data' v :
  (length data <= length data')%nat → shorter_value data v → shorter_value data' v.
Proof. destruct v; simpl; try done. lia. Qed.

Lemma iter_fields_loop_values n data f w v :
  (f, w, v) ∈ iter_fields_loop n data → shorter_value data v.
Proof.
  revert data. induction n as [|n IH]; intros data; [by destruct data; intros ?%not_elem_of_nil|].
  destruct data as [|b data]; [by intros ?%not_elem_of_nil|]. cbn [iter_fields_loop].
  destruct (decode_varint (b :: data)) as [tag d1] eqn:E1. apply decode_varint_shrinks in E1.
  destruct (decode_varint d1) as [len d2] eqn:E2. apply decode_varint_shrinks in E2. simpl in *.
  pose proof (length_drop_z len d2). pose proof (length_drop_z 4 d1). pose proof (length_drop_z 8 d1).
  pose proof (length_take_z len d2). pose proof (length_take_z 4 d1). pose proof (length_take_z 8 d1).
  repeat case_match; try (by intros ?%not_elem_of_nil);
    (intros [?|Hin]%elem_of_cons;
     [simplify_eq; simpl; (done || lia)
     |eapply shorter_value_mono; [|eapply IH; exact Hin]; simpl; lia]).
Qed.

Lemma iter_fields_values data f w v : (f, w, v) ∈ _iter_fields data → shorter_value data v.
Proof. apply iter_fields_loop_values. Qed.

(** A value of a decoded dict: an int, or what its bytes decode to. *)
Definition decoded_value (data : bytes) (v : pyval) : Prop :=
  match v with
  | VInt _ => True
  | VBytes b => (length b < length data)%nat
  | VStr s => ∃ b, utf8_encode s = Some b ∧ (length b < length data)%nat
  | _ => False
  end.

Lemma collapse_decoded data item :
  item ∈ _iter_fields data → decoded_value data (collapse item).2.
Proof.
  destruct item as [[f w] v]. intros Hv%iter_fields_values. unfold collapse. simpl.
  destruct v; try done; simpl; [by case_match|]. case_match; [|done].
  unfold text_or_bytes. destruct (utf8_decode b) eqn:E; [|done].
  exists b. eauto using utf8_encode_decode.
Qed.

Lemma dict_set_elem k v (d : list (Z * pyval)) x : x ∈ dict_set k v d → x = (k, v) ∨ x ∈ d.
Proof.
  induction d as [|[k' v'] d IH]; simpl; [rewrite elem_of_cons; naive_solver|].
  case_decide as Hk; [rewrite Hk|]; rewrite !elem_of_cons; clear -IH; naive_solver.
Qed.

Lemma dict_build_elem l d0 (x : Z * pyval) :
  x ∈ foldl (λ d kv, dict_set kv.1 kv.2 d) d0 l → x ∈ d0 ∨ x ∈ l.
Proof.
  revert d0. induction l as [|[k v] l IH]; intros d0; simpl; [by left|].
  intros [[?|?]%dict_set_elem|?]%IH; rewrite elem_of_cons; naive_solver.
Qed.

Lemma decode_message_values data k v : (k, v) ∈ decode_message data → decoded_value data v.
Proof.
  rewrite decode_message_items. intros [?%not_elem_of_nil|Hin]%dict_build_elem; [done|].
  apply list_elem_of_fmap in Hin as (item & Heq & Hin). apply collapse_decoded in Hin.
  by rewrite <-Heq in Hin.
Qed.

Lemma decode_message_snd data v : v ∈ (decode_message data).*2 → decoded_value data v.
Proof.
  intros ([k v'] & -> & Hin)%list_elem_of_fmap. by eapply decode_message_values.
Qed.

(** ** Enough fuel for the nested walks *)

Lemma foldl_ext_elem {A B} (f g : A → B → A) l a :
  (∀ a b, b ∈ l → f a b = g a b) → foldl f a l = foldl g a l.
Proof.
  revert a. induction l as [|b l IH]; intros a Hfg; simpl; [done|].
  rewrite (Hfg a b) by left. apply IH. intros. apply Hfg. by right.
Qed.

Lemma ice_walk_fuel `{UnicodeDB} n m blob acc :
  (length blob < n)%nat → (length blob < m)%nat → ice_walk n blob acc = ice_walk m blob acc.
Proof.
  revert m blob acc. induction n as [|n IH]; intros [|m] blob acc Hn Hm; try lia.
  cbn [ice_walk]. apply foldl_ext_elem. intros a [[f w] v] Hin%iter_fields_values.
  unfold ice_step. destruct v; try done. simpl in Hin. repeat case_match; try done.
  all: apply IH; lia.
Qed.

Lemma config_walk_fuel n m raw :
  (length raw < n)%nat → (length raw < m)%nat → config_walk n raw = config_walk m raw.
Proof.
  revert m raw. induction n as [|n IH]; intros [|m] raw Hn Hm; try lia.
  cbn [config_walk]. apply map_ext_in. intros [k v] Hin%list_elem_of_In%decode_message_values.
  cbn [fst snd]. destruct v; try done; simpl in Hin.
  - destruct Hin as (b & -> & Hb). by rewrite (IH m) by lia.
  - by rewrite (IH m) by lia.
Qed.

(** ** Properties of the codec *)

Lemma sent_ascending fields : StronglySorted key_le fields → NoDup fields.*1 → StronglySorted Z.lt (omap sent fields).*1.
Proof.
  induction 1 as [|[k v] fields _ IH Hle]; [constructor|]. intros [Hk Hnd]%NoDup_cons. cbn [omap list_omap]. unfold sent at 1. cbn [fst snd].
  destruct (wire_view v); cbn [fmap list_fmap option_fmap option_map]; [|by apply IH]. constructor; [by apply IH|].
  apply Forall_forall. intros k' Hin. assert (k' ∈ fields.*1) as Hin' by (eapply elem_of_sublist; [exact Hin|apply sent_keys]).
  rewrite Forall_forall in Hle. apply list_elem_of_fmap in Hin' as ([k2 v2] & -> & Hin2). specialize (Hle _ Hin2). unfold key_le in Hle. cbn in *.
  assert (k ≠ k2); [|lia]. intros ->. apply Hk. by apply (list_elem_of_fmap_2 fst fields (k2, v2)).
Qed.
#[global] Instance key_le_total : Total key_le.
Proof. intros x y. unfold key_le. lia. Qed.
#[global] Instance key_le_trans : Transitive key_le.
Proof. intros x y z. unfold key_le. lia. Qed.

(** C1: encoding a dict of non-negative tags and integers and decoding the bytes gives exactly
    the fields that were sent, each once, in ascending order of the tags: ints (and booleans
    as 0 and 1) and texts as themselves, 32-bit floats as their four bytes, byte strings as
    text when they are valid UTF-8, and nothing for [None]. *)
Theorem decode_message_encode_message fields bs :
  NoDup fields.*1 → Forall wire_ok fields → encode_message fields = Ret bs →
  decode_message bs ≡ₚ omap sent fields ∧ StronglySorted Z.lt (decode_message bs).*1 ∧
  ∀ k, dict_get k (decode_message bs) = dict_get k fields ≫= wire_view.
Proof.
  intros Hnd Hok Henc. rewrite (decode_encode_message fields) by done. split; [by rewrite sorted_fields_perm|]. split.
  - apply sent_ascending; [apply (StronglySorted_merge_sort key_le)|by rewrite sorted_fields_perm].
  - intros k. rewrite sent_lookup by (by rewrite sorted_fields_perm).
    by rewrite (dict_get_perm k (merge_sort key_le fields) fields)
      by (rewrite ?sorted_fields_perm; done).
Qed.

Definition sample_fields : list (Z * field_value) :=
  [(5, Plain (VInt 300)); (1, Plain (VStr (u "tok"))); (9, Plain VNone)].

Lemma decode_message_encode_message_witness :
  ∃ bs, encode_message sample_fields = Ret bs ∧ StronglySorted Z.lt (decode_message bs).*1 ∧
    dict_get 5 (decode_message bs) = dict_get 5 sample_fields ≫= wire_view.
Proof.
  eexists. split; [vm_compute; reflexivity|].
  refine (match decode_message_encode_message sample_fields _ _ _ _ with conj _ (conj Hs Hk) => conj Hs (Hk 5) end); clear.
  - refine (bool_decide_unpack _ _). vm_compute. exact I.
  - repeat constructor; simpl; lia.
  - vm_compute. reflexivity.
Defined.

(** [decode_message] keeps of [_iter_fields] the last value of each field, at
    the place of its first occurrence. *)
Theorem decode_message_collapses_iter_fields data :
  decode_message data = foldl last_wins [] (_iter_fields data).
Proof. apply decode_message_loop_iter. Qed.

(** The fields of an outbound WebRTC message in wire order. *)
Definition webrtc_fields (token request_id fingerprint : pyval) (sub : option bytes) (t : Z)
    : list (Z * field_value) :=
  [(1, Plain token); (2, Plain request_id); (3, Plain fingerprint)]
  ++ option_list ((λ b, (4, Plain (VBytes b))) <$> sub)
  ++ [(5, Plain (VInt t)); (7, Plain (VInt 1))].

Lemma webrtc_fields_sorted token rid fp t sub :
  encode_message (dict_set 4 (Plain (VBytes sub))
    [(1, Plain token); (2, Plain rid); (3, Plain fp); (5, Plain (VInt t)); (7, Plain (VInt 1))])
  = encode_fields (webrtc_fields token rid fp (Some sub) t).
Proof. reflexivity. Qed.

Lemma webrtc_fields_sorted_none token rid fp t :
  encode_message
    [(1, Plain token); (2, Plain rid); (3, Plain fp); (5, Plain (VInt t)); (7, Plain (VInt 1))]
  = encode_fields (webrtc_fields token rid fp None t).
Proof. reflexivity. Qed.

(** The two texts of tag 4: an SDP travels with an empty mid. *)
Definition tag4_texts (sdp candidate mid : pystr) : option (pystr * pystr) :=
  match sdp, candidate with
  | _ :: _, _ => Some (sdp, [])
  | [], _ :: _ => Some (candidate, mid)
  | [], [] => None
  end.

Lemma encode_webrtc_inv token rid fp t sdp cand mid bs :
  encode_camera_webrtc_message token rid fp t sdp cand mid = Ret bs →
  1 ≤ t ≤ 4 ∧ ∃ sub,
    encode_fields (webrtc_fields token rid fp sub t) = Ret bs ∧
    match tag4_texts sdp cand mid, sub with
    | Some (a, b), Some raw => encode_message [(1, Plain (VStr a)); (2, Plain (VStr b))] = Ret raw
    | None, None => True
    | _, _ => False
    end.
Proof.
  unfold encode_camera_webrtc_message. case_match eqn:Ht; [done|]. case_match eqn:Hr; [done|]. intros H.
  apply negb_false_iff, existsb_exists in Ht as (x & Hx & ->%Z.eqb_eq).
  split; [simpl in Hx; unfold WEBRTC_REQUEST, WEBRTC_ANSWER, WEBRTC_OFFER, WEBRTC_CANDIDATE in Hx; lia|].
  cbv zeta in H. destruct sdp as [|c sdp], cand as [|c' cand]; cbv iota in H.
  1: { exists None. split; [|done]. by rewrite <-webrtc_fields_sorted_none. }
  all: match type of H with context [match encode_message ?f with _ => _ end] =>
         destruct (encode_message f) as [sub|] eqn:E end;
    [|done]; exists (Some sub); split; [|done]; by rewrite <-webrtc_fields_sorted.
Qed.

Lemma decode_pair a b bs :
  encode_message [(1, Plain (VStr a)); (2, Plain (VStr b))] = Ret bs →
  decode_message bs = [(1, VStr a); (2, VStr b)].
Proof.
  intros Henc. rewrite (decode_encode_message [(1, Plain (VStr a)); (2, Plain (VStr b))]); [done| | |done].
  - refine (bool_decide_unpack _ _). vm_compute. exact I.
  - repeat constructor; simpl; lia.
Qed.

(** A camera-side WebRTC message decodes to what was sent: the three texts,
    the type, and in tag 4 the SDP (with an empty mid) or the candidate and its mid. *)
Theorem webrtc_message_roundtrip token rid fp t sdp cand mid bs :
  encode_camera_webrtc_message (VStr token) (VStr rid) (VStr fp) t sdp cand mid = Ret bs →
  let m := decode_camera_webrtc_message bs in
  request_id m = VStr token ∧ client_id m = VStr rid ∧ session_id m = VStr fp ∧
  field5 m = VInt t ∧ field6 m = VInt 0 ∧ field7 m = VInt 1 ∧ ice_config m = VBytes [] ∧
  field4_fields m =
    match tag4_texts sdp cand mid with
    | Some (a, b) => [(1, VStr a); (2, VStr b)]
    | None => []
    end.
Proof.
  intros (Ht & sub & Henc & Hsub)%encode_webrtc_inv. simpl.
  assert (Hnd : NoDup (webrtc_fields (VStr token) (VStr rid) (VStr fp) sub t).*1).
  { destruct sub; refine (bool_decide_unpack _ _); vm_compute; exact I. }
  assert (Hok : Forall wire_ok (webrtc_fields (VStr token) (VStr rid) (VStr fp) sub t)).
  { destruct sub; repeat constructor; simpl; lia. }
  rewrite (decode_encode_fields _ _ Hnd Hok Henc), (encode_fields_iter _ _ Hok Henc).
  apply encode_fields_encodable in Henc. unfold webrtc_fields in Henc.
  apply Forall_app in Henc as [Henc _].
  repeat match goal with H : Forall encodable (_ :: _) |- _ => apply Forall_cons in H as [? H] end.
  repeat match goal with
  | H : encodable (_, Plain (VStr ?s)) |- _ =>
      unfold encodable, encode_field, encode_string_field in H; simpl in H;
      destruct (utf8_encode s) eqn:?; [clear H|done]
  end.
  destruct sub as [raw|], (tag4_texts sdp cand mid) as [[a b]|]; try done;
    unfold webrtc_fields; simpl; unfold wire_item; simpl;
    repeat match goal with H : utf8_encode ?s = _ |- _ => rewrite H; clear H end; simpl;
    repeat split; try done.
  by apply decode_pair.
Qed.

Lemma webrtc_message_roundtrip_witness :
  ∃ bs, encode_camera_webrtc_message (VStr (u "tok")) (VStr (u "rid")) (VStr (u "fp")) WEBRTC_CANDIDATE
          [] (u "candidate:1 1 udp") (u "video0") = Ret bs ∧
    field4_fields (decode_camera_webrtc_message bs) =
      [(1, VStr (u "candidate:1 1 udp")); (2, VStr (u "video0"))].
Proof.
  eexists. split; [vm_compute; reflexivity|].
  eapply (webrtc_message_roundtrip (u "tok") (u "rid") (u "fp") WEBRTC_CANDIDATE [] (u "candidate:1 1 udp") (u "video0")).
  vm_compute. reflexivity.
Defined.

(** ** Candidates *)

Lemma normalize_result s : normalize s = [] ∨ starts_with (u "candidate:") (normalize s) = true.
Proof. unfold normalize. case_match; [right|left]; auto. Qed.

Definition candidate_or_empty (r : res pystr) : Prop :=
  match r with
  | Ret t => t = [] ∨ starts_with (u "candidate:") t = true
  | Raise _ => False
  end.

Lemma first_found_candidate {A} (f : A → res pystr) l :
  (∀ v, v ∈ l → candidate_or_empty (f v)) → candidate_or_empty (first_found f l).
Proof.
  induction l as [|v l IH]; intros Hall; simpl; [by left|].
  pose proof (Hall v ltac:(left)) as Hv. destruct (f v) as [[|c t]|]; [|done|done].
  apply IH. intros w Hw. apply Hall. by right.
Qed.

Lemma scan_candidate n data v : decoded_value data v → candidate_or_empty (scan n v).
Proof.
  revert data v. induction n as [|n IH]; intros data v Hv; [by left|].
  assert (Hin : ∀ b, candidate_or_empty (first_found (scan n) (decode_message b).*2)).
  { intros b. apply first_found_candidate. intros w Hw. eapply IH, decode_message_snd, Hw. }
  destruct v; simpl in *; try done; [by left| |].
  - destruct Hv as (b & -> & _). pose proof (normalize_result s). by destruct (normalize s).
  - pose proof (normalize_result (utf8_replace b)). by destruct (normalize (utf8_replace b)).
Qed.

(** Looking for a candidate in any received message returns, and returns the
    empty text or a text that starts with [candidate:]. *)
Theorem find_webrtc_candidate_safe data :
  ∃ t, find_webrtc_candidate (decode_camera_webrtc_message data) = Ret t ∧
       (t = [] ∨ starts_with (u "candidate:") t = true).
Proof.
  assert (candidate_or_empty (find_webrtc_candidate (decode_camera_webrtc_message data))) as H.
  { apply first_found_candidate. intros v Hv. eapply scan_candidate, decode_message_snd, Hv. }
  destruct (find_webrtc_candidate _) as [t|]; [eauto|done].
Qed.

(** ** ICE configuration *)

(** The submessage [{1: id, 2: host, 3: port, 4: type}] of one server. *)
Definition server_fields (id : Z) (h : pystr) (p t : Z) : list (Z * field_value) :=
  [(1, Plain (VInt id)); (2, Plain (VStr h)); (3, Plain (VInt p)); (4, Plain (VInt t))].

Lemma encode_small_varint v : 0 ≤ v < 128 → encode_varint v = [v].
Proof.
  intros Hv. rewrite (encode_varint_eq v).
  destruct (Z.ltb_spec 127 v); [lia|]. by rewrite land127, Z.mod_small by lia.
Qed.

Lemma encode_server_split id h p t bs :
  encode_message (server_fields id h p t) = Ret bs → 0 ≤ t < 128 →
  ∃ l, bs = 8 :: l ++ [t].
Proof.
  change (encode_message (server_fields id h p t)) with (encode_fields (server_fields id h p t)).
  unfold server_fields. cbn [encode_fields encode_field]. unfold encode_string_field.
  destruct (utf8_encode h) as [hb|]; [|done]. intros Henc Ht. injection Henc as <-.
  rewrite (encode_small_varint t), app_nil_r by done.
  exists (encode_varint id ++ 18 :: (encode_varint (Z.of_nat (length hb)) ++ hb)
          ++ 24 :: encode_varint p ++ [32]).
  change (Z.land (tag_of 1 0) 127) with 8. change (Z.land (tag_of 2 2) 127) with 18.
  change (Z.land (tag_of 3 0) 127) with 24. change (Z.land (tag_of 4 0) 127) with 32.
  by simplify_list_eq.
Qed.

Lemma utf8_char_last cp b l : scalar cp = true → b < 128 → utf8_char cp = l ++ [b] → cp = b.
Proof.
  intros Hs Hb. apply scalar_spec in Hs. unfold utf8_char.
  repeat case_match; intros He; apply (f_equal last) in He; rewrite last_snoc in He;
    simpl in He; simplify_eq; lia.
Qed.

(** A text whose encoding ends in an ASCII byte ends in that character. *)
Lemma utf8_decode_last l b s : b < 128 → utf8_decode (l ++ [b]) = Some s → last s = Some b.
Proof.
  intros Hb Hd%utf8_encode_decode. unfold utf8_encode in Hd.
  destruct (forallb scalar s) eqn:Hs; [|done]. injection Hd as Hd.
  destruct s as [|c s _] using rev_ind; [by destruct l|].
  rewrite last_snoc. f_equal. rewrite map_app, concat_app in Hd. simpl in Hd. rewrite app_nil_r in Hd.
  rewrite forallb_app in Hs. apply andb_true_iff in Hs as [_ Hs]. simpl in Hs. rewrite andb_true_r in Hs.
  destruct (utf8_char c) as [|x cs _] eqn:Hc using rev_ind.
  { destruct (utf8_char_nonempty c) as (? & ? & Hn). congruence. }
  rewrite app_assoc in Hd. apply app_inj_tail in Hd as [_ ->]. by eapply utf8_char_last.
Qed.

Lemma ends_with_last c s : last s ≠ Some c → ends_with [c] s = false.
Proof.
  unfold ends_with. destruct s as [|d s _] using rev_ind; [done|].
  rewrite last_snoc, rev_app_distr. simpl. intros Hne. rewrite andb_true_r.
  apply Z.eqb_neq. congruence.
Qed.

Section IceConfig.
Context `{UnicodeDB}.

(** A server element is neither a TURN user name nor a credential. *)
Lemma server_not_username l :
  is_turn_username (match utf8_decode (8 :: l) with Some t => t | None => [] end) = false.
Proof.
  unfold is_turn_username. rewrite utf8_decode_cons. cbn [utf8_step in_range Z.leb andb].
  change (utf8_step 8 l) with (Good 8 l). cbv beta iota.
  destruct (utf8_decode l) as [s|]; simpl; [|done].
  unfold str_isdigit, remove_char. rewrite filter_cons_True by lia.
  cbn [forallb]. rewrite uc_isdigit_ascii by lia. by rewrite !andb_false_r.
Qed.

Lemma server_not_credential l t :
  0 ≤ t < 61 →
  is_turn_credential (match utf8_decode (8 :: l ++ [t]) with Some s => s | None => [] end) = false.
Proof.
  intros Ht. unfold is_turn_credential. destruct (utf8_decode (8 :: l ++ [t])) as [s|] eqn:E; [|done].
  rewrite app_comm_cons in E. apply utf8_decode_last in E; [|lia].
  change (u "=") with [61]. rewrite ends_with_last by (rewrite E; intros [= ->]; lia).
  by rewrite andb_false_r.
Qed.

Lemma as_server_encoded id h p t bs :
  0 ≤ id → 0 ≤ p → 0 ≤ t → encode_message (server_fields id h p t) = Ret bs →
  as_server (decode_message bs) = Some (IceServer (VInt id) h p t).
Proof.
  intros ??? Henc. rewrite (decode_encode_message (server_fields id h p t)); [done| | |done].
  - refine (bool_decide_unpack _ _). vm_compute. exact I.
  - repeat constructor; simpl; lia.
Qed.
End IceConfig.

(** A server as the peer encodes it, and its element of the list. *)
Definition encodes_server (s : Z * pystr * Z * Z) (bs : bytes) : Prop :=
  let '(id, h, p, t) := s in
  0 ≤ id ∧ 0 ≤ p ∧ 1 ≤ t ≤ 3 ∧ encode_message (server_fields id h p t) = Ret bs.
Definition server_of (s : Z * pystr * Z * Z) : ice_server :=
  let '(id, h, p, t) := s in IceServer (VInt id) h p t.
Definition elements_of (blobs : list bytes) : bytes := concat (map (encode_len_field 1) blobs).

Lemma iter_elements blobs :
  _iter_fields (elements_of blobs) = (λ b, (1, 2, VBytes b)) <$> blobs.
Proof.
  unfold elements_of. induction blobs as [|b blobs IH]; [done|]. cbn [map concat].
  rewrite (encode_field_iter 1 (Plain (VBytes b)) (encode_len_field 1 b)) by (done || (split; simpl; [lia|done])).
  simpl. by rewrite IH.
Qed.

(** A list of STUN/TURN/TURNS servers in the tag-8 wire form is parsed back to
    exactly those servers, in order, with no user name and no credential. *)
Theorem decode_ice_config_servers `{UnicodeDB} srvs blobs :
  Forall2 encodes_server srvs blobs →
  decode_ice_config (VBytes (elements_of blobs)) = Ret (IceResult (server_of <$> srvs) [] []).
Proof.
  intros Hall. unfold decode_ice_config. cbn [ice_walk]. f_equal. rewrite iter_elements.
  generalize (ice_walk (length (elements_of blobs))) as walk. intros walk.
  enough (∀ acc, foldl (ice_step walk) (IceResult acc [] []) ((λ b, (1, 2, VBytes b)) <$> blobs)
                 = IceResult (acc ++ (server_of <$> srvs)) [] []) as He by apply (He []).
  induction Hall as [|[[[id h] p] t] bs srvs blobs (Hid & Hp & Ht & Henc) _ IH]; intros acc.
  { simpl. by rewrite app_nil_r. }
  cbn [fmap list_fmap foldl]. unfold ice_step at 2. cbv beta iota zeta.
  assert (Hsrv : as_server (decode_message bs) = Some (IceServer (VInt id) h p t))
    by (apply as_server_encoded; [done|done|lia|done]).
  destruct (encode_server_split id h p t bs) as [l ->]; [done|lia|].
  rewrite server_not_username, server_not_credential, Hsrv by lia. cbn [negb Z.eqb Pos.eqb].
  etrans; [apply (IH (acc ++ [IceServer (VInt id) h p t]))|]. by rewrite <-app_assoc.
Qed.

Lemma decode_ice_config_servers_witness :
  ∃ bs, decode_ice_config (VBytes (elements_of [bs])) = Ret (IceResult [IceServer (VInt 1) (u "stun.prusa3d.com") 3478 1] [] []).
Proof.
  eexists. apply (decode_ice_config_servers [(1, u "stun.prusa3d.com", 3478, 1)]).
  constructor; [|constructor].
  split; [lia|]. split; [lia|]. split; [lia|]. vm_compute. reflexivity.
Defined.

(** The nested walks end: any fuel above the length of the data gives the
    result of the model, for the ICE configuration and for the configuration event. *)
Theorem nested_walks_terminate `{UnicodeDB} n data :
  (length data < n)%nat →
  decode_ice_config (VBytes data) = Ret (ice_walk n data (IceResult [] [] [])) ∧
  decode_config_message (inr data) = Ret (config_walk n data).
Proof.
  intros Hn. unfold decode_ice_config, decode_config_message.
  split; f_equal; [apply ice_walk_fuel|apply config_walk_fuel]; lia.
Qed.

Lemma nested_walks_terminate_witness :
  decode_config_message (inr [10; 2; 8; 5]) = Ret [(VInt 1, VDict [(VInt 1, VInt 5)])].
Proof. apply (nested_walks_terminate 40 [10; 2; 8; 5]). simpl. lia. Defined.

(** An ICE configuration whose bytes happen to be valid UTF-8 (hosts and ports
    below 128) is handed on as text by [decode_message], and parsing that raises. *)
Theorem ice_config_as_text_raises `{UnicodeDB} fields blob bs :
  NoDup fields.*1 → Forall wire_ok fields → dict_get 8 fields = Some (Plain (VBytes blob)) →
  encode_message fields = Ret bs → blob ≠ [] → is_Some (utf8_decode blob) →
  decode_ice_config (ice_config (decode_camera_webrtc_message bs)) = Raise TypeError.
Proof.
  intros Hnd Hok H8 Henc Hne [s Hs]. cbn [ice_config decode_camera_webrtc_message]. unfold field_get.
  rewrite (decode_encode_message fields) by done.
  rewrite sent_lookup, (dict_get_perm _ _ fields), H8 by (rewrite ?sorted_fields_perm; done).
  simpl. unfold text_or_bytes. rewrite Hs. destruct s as [|c s]; [|done].
  by apply utf8_encode_decode in Hs as [= <-].
Qed.

(** One TURN server on port 80. *)
Definition port80_blob : bytes := [10; 13; 8; 1; 18; 5; 116; 46; 111; 114; 103; 24; 80; 32; 2].

Lemma ice_config_as_text_raises_witness :
  decode_ice_config (ice_config (decode_camera_webrtc_message [66; 15; 10; 13; 8; 1; 18; 5; 116; 46; 111; 114; 103; 24; 80; 32; 2]))
  = Raise TypeError.
Proof.
  apply (ice_config_as_text_raises [(8, Plain (VBytes port80_blob))] port80_blob).
  - refine (bool_decide_unpack _ _). vm_compute. exact I.
  - repeat constructor; simpl; lia.
  - reflexivity.
  - vm_compute. reflexivity.
  - done.
  - vm_compute. eauto.
Defined.
