(* ===== verification/CameraState.v ===== *)
(** [app/state.py] and the validators it shares: [rotation.py], [gpio_pins.py],
    [timezone.valid_zone_name], the ranges of [timelapse.py].

    [CameraState] is the one object every handler mutates; each setter returns
    Python's [bool] with the state it leaves.  Settings arrive as dynamic values,
    so the type tests of the source are explicit. *)
From S2P Require Import Prelude PyValue.
From Stdlib Require Import QArith.
#[local] Open Scope Z_scope.

(** ** Validators *)

Definition ROTATIONS : list Z := [0; 90; 180; 270].
Definition DEFAULT_ROTATION := 0.

Definition is_rotation (z : Z) : bool := existsb (Z.eqb z) ROTATIONS.
#[global] Arguments is_rotation : simpl never.

Definition valid_rotation (value : pyval) : option Z :=
  match as_int value with
  | Some z => if is_rotation z then Some z else None
  | None => None
  end.
Definition is_transposed (rotation : Z) : bool := existsb (Z.eqb rotation) [90; 270].
Definition oriented (width height rotation : Z) : Z * Z :=
  if is_transposed rotation then (height, width) else (width, height).

(** [bcm -> (physical header pin, nearest ground pin)]. *)
Definition SAFE_PINS : list (Z * (Z * Z)) :=
  [(4, (7, 9)); (5, (29, 30)); (6, (31, 30)); (12, (32, 34)); (13, (33, 34)); (16, (36, 34));
   (17, (11, 9)); (18, (12, 14)); (19, (35, 34)); (20, (38, 39)); (21, (40, 39)); (22, (15, 14));
   (23, (16, 14)); (24, (18, 20)); (25, (22, 20)); (26, (37, 39)); (27, (13, 14))].
Definition safe_pin (z : Z) : bool := existsb (Z.eqb z) SAFE_PINS.*1.
#[global] Arguments safe_pin : simpl never.
Definition valid_pin (value : pyval) : bool :=
  match as_int value with Some z => safe_pin z | None => false end.

Definition INTERVAL_MIN := 1.
Definition INTERVAL_MAX := 3600.
Definition FPS_MIN := 1.
Definition FPS_MAX := 30.

(** [int(value)] under [except (TypeError, ValueError): return None]; the
    [OverflowError] of an infinite float is not caught. *)
Definition int_in_range `{UnicodeDB} (lo hi : Z) (value : pyval) : res (option Z) :=
  match py_int value with
  | Ret z => Ret (if in_range lo hi z then Some z else None)
  | Raise (TypeError | ValueError) => Ret None
  | Raise e => Raise e
  end.
Definition valid_interval `{UnicodeDB} := int_in_range INTERVAL_MIN INTERVAL_MAX.
Definition valid_fps `{UnicodeDB} := int_in_range FPS_MIN FPS_MAX.

(** *** Time zones *)

Definition ZONE_NAME_MAX := 64.
Definition zone_char (c : Z) : bool :=
  in_range 65 90 c || in_range 97 122 c || in_range 48 57 c || (c =? 95) || (c =? 43) || (c =? 45).

(** Components of a path, split at [/]. *)
Fixpoint split_slash (cur : pystr) (s : pystr) : list pystr :=
  match s with
  | [] => [rev cur]
  | c :: s' => if c =? 47 then rev cur :: split_slash [] s' else split_slash (c :: cur) s'
  end.
Definition zone_component (s : pystr) : bool :=
  negb (bool_decide (s = [])) && forallb zone_char s.
Definition zone_shape (s : pystr) : bool :=
  let parts := split_slash [] s in
  (Z.of_nat (length parts) <=? 3) && forallb zone_component parts.
(** [ZONE_NAME_RE.match]: the final [$] also matches before one trailing newline. *)
Definition zone_name_match (s : pystr) : bool :=
  zone_shape s || (bool_decide (last s = Some 10) && zone_shape (removelast s)).

Definition valid_zone_name (zones : list pystr) (name : pyval) : bool :=
  match as_str name with
  | None => false
  | Some s =>
      if bool_decide (s = []) || (ZONE_NAME_MAX <? Z.of_nat (length s)) then false
      else if negb (zone_name_match s) then false
      else match zones with [] => true | _ => bool_decide (s ∈ zones) end
  end.

(** ** The state *)

Definition RAW_TO_ENUM : list (Z * Z) := [(5, 1); (6, 2); (7, 3)].
Definition ENUM_TO_RAW : list (Z * Z) := [(1, 5); (2, 6); (3, 7)].
Definition RESOLUTIONS : list (Z * (Z * Z)) := [(1, (640, 480)); (2, (1280, 720)); (3, (1920, 1080))].
Definition DEFAULT_QUALITY := 3.
Definition SNAPSHOT_INTERVAL_MIN := 10.
Definition SNAPSHOT_INTERVAL_MAX := 600.

Definition snapshot_interval_from_config `{UnicodeDB} (raw : pyval) : res (option Z) :=
  int_in_range SNAPSHOT_INTERVAL_MIN SNAPSHOT_INTERVAL_MAX raw.

Inductive trigger_mode := Interval | Gpio.
#[global] Instance trigger_mode_eq_dec : EqDecision trigger_mode.
Proof. solve_decision. Defined.
Definition trigger_name (t : trigger_mode) : pystr :=
  match t with Interval => u "interval" | Gpio => u "gpio" end.

Record CameraState := {
  camera_name : pystr;
  quality : Z;
  rotation : Z;
  snapshot_interval : Z;
  snapshot_upload_enabled : bool;
  rtsp_mode : Z;
  rtsp_running : bool;
  webrtc_mode : Z;
  webrtc_status : Z;
  streaming : bool;
  turn_online : bool;
  info_dirty : bool;
  tz_name : pystr;
  timelapse_enabled : bool;
  timelapse_interval : Z;
  timelapse_fps : Z;
  timelapse_trigger : trigger_mode;
  timelapse_gpio_pin : option Z;
  timelapse_gpio_record_pin : option Z;
  timelapse_recording : bool;
  timelapse_trigger_latency : option Q;
  timezone : pystr;
  ir_available : bool;
  speaker_available : bool;
  fan_available : bool;
  microsd_available : bool;
  ir_mode : option Z;
  last_reboot_monotonic : option Q;
  last_capture_at : option Q;
  last_capture_ok : option bool;
  last_snapshot_at : option Q;
  last_snapshot_ok : option bool;
  snapshot_interval_changed : bool;
}.

(** [__init__] with its default arguments. *)
Definition initial_state : CameraState := {|
  camera_name := u "PiBuddyCam"; quality := DEFAULT_QUALITY; rotation := DEFAULT_ROTATION;
  snapshot_interval := SNAPSHOT_INTERVAL_MIN; snapshot_upload_enabled := true;
  rtsp_mode := 1; rtsp_running := false; webrtc_mode := 1; webrtc_status := 1;
  streaming := false; turn_online := false; info_dirty := true; tz_name := [];
  timelapse_enabled := false; timelapse_interval := 10; timelapse_fps := 10;
  timelapse_trigger := Interval; timelapse_gpio_pin := None; timelapse_gpio_record_pin := None;
  timelapse_recording := false; timelapse_trigger_latency := None; timezone := [];
  ir_available := false; speaker_available := false; fan_available := false;
  microsd_available := false; ir_mode := None; last_reboot_monotonic := None;
  last_capture_at := None; last_capture_ok := None; last_snapshot_at := None;
  last_snapshot_ok := None; snapshot_interval_changed := false |}.

Definition default_resolution : Z * Z := (1920, 1080).
Definition resolution (s : CameraState) : Z * Z :=
  match dict_get (quality s) RESOLUTIONS with Some r => r | None => default_resolution end.
Definition oriented_resolution (s : CameraState) : Z * Z :=
  let '(width, height) := resolution s in oriented width height (rotation s).

Definition mark_info_dirty (s : CameraState) : CameraState := s{{info_dirty := true}}.

(** ** Setters *)

Definition set_rotation (degrees : pyval) (s : CameraState) : bool * CameraState :=
  match valid_rotation degrees with
  | None => (false, s)
  | Some d =>
      if d =? rotation s then (true, s)
      else (true, mark_info_dirty (s{{rotation := d}}))
  end.

Definition set_quality (q : pyval) (s : CameraState) : bool * CameraState :=
  match as_int q with
  | Some z =>
      match dict_get z RESOLUTIONS with
      | Some _ => (true, s{{quality := z}})
      | None => (false, s)
      end
  | None => (false, s)
  end.

Definition set_snapshot_interval (seconds : pyval) (s : CameraState) : bool * CameraState :=
  match as_int seconds with
  | None => (false, s)
  | Some z =>
      if negb (in_range SNAPSHOT_INTERVAL_MIN SNAPSHOT_INTERVAL_MAX z) then (false, s)
      else (true, mark_info_dirty (s{{snapshot_interval := z; snapshot_interval_changed := true}}))
  end.

(** [valid_interval] of an int cannot raise, so the test is the range. *)
Definition set_timelapse_interval (seconds : pyval) (s : CameraState) : bool * CameraState :=
  match as_int seconds with
  | None => (false, s)
  | Some z =>
      if negb (in_range INTERVAL_MIN INTERVAL_MAX z) then (false, s)
      else (true, s{{timelapse_interval := z}})
  end.

Definition trigger_of (v : pyval) : option trigger_mode :=
  if eq_str v (u "interval") then Some Interval
  else if eq_str v (u "gpio") then Some Gpio else None.

Definition set_timelapse_trigger (trigger : pyval) (s : CameraState) : bool * CameraState :=
  match trigger_of trigger with
  | None => (false, s)
  | Some t =>
      if bool_decide (t = Gpio) && bool_decide (timelapse_gpio_pin s = None) then (false, s)
      else (true, s{{timelapse_trigger := t}})
  end.

Definition set_timelapse_gpio_pin (pin : pyval) (s : CameraState) : bool * CameraState :=
  match pin with
  | VNone =>
      if bool_decide (timelapse_trigger s = Gpio) then (false, s)
      else (true, s{{timelapse_gpio_pin := None}})
  | _ =>
      match as_int pin with
      | Some z =>
          if negb (safe_pin z) || bool_decide (timelapse_gpio_record_pin s = Some z) then (false, s)
          else (true, s{{timelapse_gpio_pin := Some z}})
      | None => (false, s)
      end
  end.

Definition set_timelapse_gpio_record_pin (pin : pyval) (s : CameraState) : bool * CameraState :=
  match pin with
  | VNone => (true, s{{timelapse_gpio_record_pin := None}})
  | _ =>
      match as_int pin with
      | Some z =>
          if negb (safe_pin z) || bool_decide (timelapse_gpio_pin s = Some z) then (false, s)
          else (true, s{{timelapse_gpio_record_pin := Some z}})
      | None => (false, s)
      end
  end.

Definition set_camera_name (name : pyval) (s : CameraState) : bool * CameraState :=
  match as_str name with
  | None => (false, s)
  | Some n => match strip n with
              | [] => (false, s)
              | stripped => (true, s{{camera_name := stripped}})
              end
  end.

#[global] Arguments set_rotation : simpl never.
#[global] Arguments set_quality : simpl never.
#[global] Arguments set_snapshot_interval : simpl never.
#[global] Arguments set_timelapse_interval : simpl never.
#[global] Arguments set_timelapse_trigger : simpl never.
#[global] Arguments set_timelapse_gpio_pin : simpl never.
#[global] Arguments set_timelapse_gpio_record_pin : simpl never.
#[global] Arguments set_camera_name : simpl never.

Definition periodic_snapshot_allowed (s : CameraState) : bool := snapshot_upload_enabled s.

(** ** Durable settings *)

Definition pin_val (p : option Z) : pyval := match p with Some z => VInt z | None => VNone end.

Definition persistable_state (s : CameraState) : list (pyval * pyval) :=
  [(VStr (u "quality_tier"), VInt (quality s));
   (VStr (u "rotation"), VInt (rotation s));
   (VStr (u "camera_name"), VStr (camera_name s));
   (VStr (u "snapshot_interval"), VInt (snapshot_interval s));
   (VStr (u "snapshot_upload_enabled"), VBool (snapshot_upload_enabled s));
   (VStr (u "timelapse_interval"), VInt (timelapse_interval s));
   (VStr (u "timelapse_enabled"), VBool (timelapse_enabled s));
   (VStr (u "timelapse_fps"), VInt (timelapse_fps s));
   (VStr (u "timelapse_trigger"), VStr (trigger_name (timelapse_trigger s)));
   (VStr (u "timelapse_gpio_pin"), pin_val (timelapse_gpio_pin s));
   (VStr (u "timelapse_gpio_record_pin"), pin_val (timelapse_gpio_record_pin s));
   (VStr (u "timezone"), VStr (timezone s));
   (VStr (u "rtsp_mode"), VInt (rtsp_mode s));
   (VStr (u "webrtc_mode"), VInt (webrtc_mode s))].

(** [if value is not None and setter(value): applied.append(key)]. *)
Definition apply_key (key : pystr) (setter : pyval → CameraState → bool * CameraState)
    (value : pyval) (acc : list pystr * CameraState) : list pystr * CameraState :=
  let '(applied, s) := acc in
  match value with
  | VNone => (applied, s)
  | _ => let '(ok, s') := setter value s in (if ok then applied ++ [key] else applied, s')
  end.

(** The fields without a setter: the test of the source, then the assignment. *)
Definition when_bool (f : bool → CameraState → CameraState) (v : pyval) (s : CameraState) :=
  match as_bool v with Some b => (true, f b s) | None => (false, s) end.
Definition when_int (ok : Z → bool) (f : Z → CameraState → CameraState) (v : pyval) (s : CameraState) :=
  match as_int v with
  | Some z => if ok z then (true, f z s) else (false, s)
  | None => (false, s)
  end.

Section Zones.
(** The zones of the system's tz database. *)
Variable zones : list pystr.

Definition set_timezone (name : pyval) (s : CameraState) : bool * CameraState :=
  match as_str name with
  | Some n =>
      if negb (bool_decide (n = [])) && negb (valid_zone_name zones name) then (false, s)
      else (true, s{{timezone := n}})
  | None => (false, s)
  end.

Definition apply_persisted (data : pyval) (s : CameraState) : list pystr * CameraState :=
  match data with
  | VDict d =>
      let step key setter := apply_key (u key) setter (get_key (u key) d) in
      step "webrtc_mode" (when_int (in_range 0 1) (λ z s, s{{webrtc_mode := z}}))
      (step "rtsp_mode" (when_int (in_range 1 2) (λ z s, s{{rtsp_mode := z}}))
      (step "timezone" set_timezone
      (step "timelapse_trigger" set_timelapse_trigger
      (step "timelapse_gpio_record_pin" set_timelapse_gpio_record_pin
      (step "timelapse_gpio_pin" set_timelapse_gpio_pin
      (step "timelapse_fps" (when_int (in_range FPS_MIN FPS_MAX) (λ z s, s{{timelapse_fps := z}}))
      (step "timelapse_enabled" (when_bool (λ b s, s{{timelapse_enabled := b}}))
      (step "timelapse_interval" set_timelapse_interval
      (step "snapshot_upload_enabled" (when_bool (λ b s, s{{snapshot_upload_enabled := b}}))
      (step "snapshot_interval" set_snapshot_interval
      (step "camera_name" set_camera_name
      (step "rotation" set_rotation
      (step "quality_tier" set_quality ([], s))))))))))))))
  | _ => ([], s)
  end.
End Zones.

(** [timelapse.apply_enable]. *)
Definition apply_enable (action : pystr) (s : CameraState) : bool * CameraState :=
  if bool_decide (action = u "timelapse_enable") then (true, s{{timelapse_enabled := true}})
  else if bool_decide (action = u "timelapse_disable") then (true, s{{timelapse_enabled := false}})
  else (false, s).

(** ** Well-formed settings *)

Definition pin_ok (p : option Z) : Prop := ∀ z, p = Some z → safe_pin z = true.

Record settings_ok (zones : list pystr) (s : CameraState) : Prop := {
  ok_quality : 1 ≤ quality s ≤ 3;
  ok_rotation : is_rotation (rotation s) = true;
  ok_name : strip (camera_name s) = camera_name s ∧ camera_name s ≠ [];
  ok_snapshot : 10 ≤ snapshot_interval s ≤ 600;
  ok_tl_interval : 1 ≤ timelapse_interval s ≤ 3600;
  ok_tl_fps : 1 ≤ timelapse_fps s ≤ 30;
  ok_trigger : timelapse_trigger s = Gpio → timelapse_gpio_pin s ≠ None;
  ok_pin : pin_ok (timelapse_gpio_pin s);
  ok_record_pin : pin_ok (timelapse_gpio_record_pin s);
  ok_pins_differ : timelapse_gpio_pin s ≠ None → timelapse_gpio_pin s ≠ timelapse_gpio_record_pin s;
  ok_timezone : timezone s = [] ∨ valid_zone_name zones (VStr (timezone s)) = true;
  ok_rtsp : 1 ≤ rtsp_mode s ≤ 2;
  ok_webrtc : 0 ≤ webrtc_mode s ≤ 1;
}.

Lemma initial_state_ok zones : settings_ok zones initial_state.
Proof.
  split; simpl; try done; try (by left); try (split; (done || lia)); try lia.
Qed.

(** What the coordinator and the restore rely on of a setter: an accepted value
    keeps the settings well formed, a refused one changes nothing. *)
Class GoodSetter (zones : list pystr) (f : pyval → CameraState → bool * CameraState) : Prop := {
  setter_ok v s : settings_ok zones s → settings_ok zones (f v s).2;
  setter_refuses v s : (f v s).1 = false → (f v s).2 = s;
}.

Ltac setter_solve :=
  repeat match goal with
  | |- context [match ?x with _ => _ end] => destruct x eqn:?; simpl
  end; try done.

(** Close a goal [settings_ok zones s'] where [s'] updates some fields of [s]. *)
Ltac settings_solve H :=
  destruct H; split; simpl in *; unfold constant in *; try assumption; try lia; eauto;
  try (unfold pin_ok in *; naive_solver).

Lemma dict_get_RESOLUTIONS z r : dict_get z RESOLUTIONS = Some r → 1 ≤ z ≤ 3.
Proof. simpl. repeat (case_decide; [lia|]). done. Qed.

Lemma valid_rotation_spec v d : valid_rotation v = Some d → v = VInt d ∧ is_rotation d = true.
Proof. unfold valid_rotation. destruct v; simpl; try done. case_match; [|done]. by intros [= <-]. Qed.

#[export] Instance set_rotation_good zones : GoodSetter zones set_rotation.
Proof.
  split; intros v s.
  - intros H. unfold set_rotation. setter_solve. apply valid_rotation_spec in Heqo as [-> ?].
    settings_solve H.
  - unfold set_rotation. by setter_solve.
Qed.

#[export] Instance set_quality_good zones : GoodSetter zones set_quality.
Proof.
  split; intros v s; unfold set_quality; setter_solve.
  intros H. pose proof (dict_get_RESOLUTIONS _ _ Heqo0). settings_solve H.
Qed.

#[export] Instance set_snapshot_interval_good zones : GoodSetter zones set_snapshot_interval.
Proof.
  split; intros v s; unfold set_snapshot_interval; setter_solve. intros H.
  apply negb_false_iff, in_range_spec in Heqb.
  unfold SNAPSHOT_INTERVAL_MIN, SNAPSHOT_INTERVAL_MAX in *. settings_solve H.
Qed.

#[export] Instance set_timelapse_interval_good zones : GoodSetter zones set_timelapse_interval.
Proof.
  split; intros v s; unfold set_timelapse_interval; setter_solve. intros H.
  apply negb_false_iff, in_range_spec in Heqb. unfold INTERVAL_MIN, INTERVAL_MAX in *.
  settings_solve H.
Qed.

#[export] Instance set_timelapse_trigger_good zones : GoodSetter zones set_timelapse_trigger.
Proof.
  split; intros v s; unfold set_timelapse_trigger; setter_solve. intros H.
  apply andb_false_iff in Heqb as [Hb|Hb]; apply bool_decide_eq_false in Hb; settings_solve H.
Qed.

#[export] Instance set_timelapse_gpio_pin_good zones : GoodSetter zones set_timelapse_gpio_pin.
Proof.
  split; intros v s; unfold set_timelapse_gpio_pin; destruct v; simpl; setter_solve; intros H.
  - apply bool_decide_eq_false in Heqb. settings_solve H.
  - apply orb_false_iff in Heqb as [Hz%negb_false_iff Hr%bool_decide_eq_false].
    settings_solve H.
Qed.

#[export] Instance set_timelapse_gpio_record_pin_good zones :
  GoodSetter zones set_timelapse_gpio_record_pin.
Proof.
  split; intros v s; unfold set_timelapse_gpio_record_pin; destruct v; simpl; setter_solve; intros H.
  - settings_solve H.
  - apply orb_false_iff in Heqb as [Hz%negb_false_iff Hr%bool_decide_eq_false].
    settings_solve H.
Qed.

#[export] Instance set_camera_name_good zones : GoodSetter zones set_camera_name.
Proof.
  split; intros v s; unfold set_camera_name; destruct (as_str v) as [n|]; simpl; try done;
    destruct (strip n) as [|c n'] eqn:E; simpl; try done.
  intros H. assert (strip (c :: n') = c :: n') by (rewrite <-E; apply strip_idemp).
  destruct s. settings_solve H.
Qed.

#[export] Instance set_timezone_good zones : GoodSetter zones (set_timezone zones).
Proof.
  split; intros v s; unfold set_timezone; destruct v; simpl; try done; case_match eqn:E; simpl; try done.
  intros H. assert (s0 = [] ∨ valid_zone_name zones (VStr s0) = true) as Hz.
  { apply andb_false_iff in E as [Hn|Hn]; apply negb_false_iff in Hn; [left|by right].
    by apply bool_decide_eq_true in Hn. }
  destruct s. settings_solve H.
Qed.

#[export] Instance when_webrtc_good zones :
  GoodSetter zones (when_int (in_range 0 1) (λ z s, s{{webrtc_mode := z}})).
Proof.
  split; intros v s; unfold when_int; destruct v; simpl; try done; case_match eqn:E; simpl; try done.
  intros H. apply in_range_spec in E. destruct s. settings_solve H.
Qed.
#[export] Instance when_rtsp_good zones :
  GoodSetter zones (when_int (in_range 1 2) (λ z s, s{{rtsp_mode := z}})).
Proof.
  split; intros v s; unfold when_int; destruct v; simpl; try done; case_match eqn:E; simpl; try done.
  intros H. apply in_range_spec in E. destruct s. settings_solve H.
Qed.
#[export] Instance when_fps_good zones :
  GoodSetter zones (when_int (in_range FPS_MIN FPS_MAX) (λ z s, s{{timelapse_fps := z}})).
Proof.
  split; intros v s; unfold when_int; destruct v; simpl; try done; case_match eqn:E; simpl; try done.
  intros H. apply in_range_spec in E. unfold FPS_MIN, FPS_MAX in E. destruct s. settings_solve H.
Qed.
#[export] Instance when_enabled_good zones :
  GoodSetter zones (when_bool (λ b s, s{{timelapse_enabled := b}})).
Proof.
  split; intros v s; unfold when_bool; destruct v; simpl; try done.
  intros H. destruct s. settings_solve H.
Qed.
#[export] Instance when_upload_good zones :
  GoodSetter zones (when_bool (λ b s, s{{snapshot_upload_enabled := b}})).
Proof.
  split; intros v s; unfold when_bool; destruct v; simpl; try done.
  intros H. destruct s. settings_solve H.
Qed.

Lemma apply_key_ok zones key f v acc :
  GoodSetter zones f → settings_ok zones acc.2 → settings_ok zones (apply_key key f v acc).2.
Proof.
  intros Hf Hok. destruct acc as [applied s]. unfold apply_key.
  destruct v; try done; match goal with |- context [f ?v s] => pose proof (setter_ok v s Hok) end;
    by destruct (f _ s).
Qed.

(** Restoring any JSON document leaves the settings well formed: quality,
    ranges, modes, time zone, and a [gpio] trigger always with its layer pin. *)
Theorem apply_persisted_ok zones data s :
  settings_ok zones s → settings_ok zones (apply_persisted zones data s).2.
Proof.
  intros Hok. unfold apply_persisted. destruct data; try done.
  repeat (apply apply_key_ok; [apply _|]). done.
Qed.

Lemma apply_persisted_ok_witness :
  settings_ok [] (apply_persisted [] (VDict [(VStr (u "timelapse_trigger"), VStr (u "gpio"));
                                             (VStr (u "quality_tier"), VInt 9)]) initial_state).2.
Proof. apply (apply_persisted_ok []). apply (initial_state_ok []). Defined.

(** The document [d] holds the durable settings of [s], key by key. *)
Definition holds_settings (d : list (pyval * pyval)) (s : CameraState) : Prop :=
  get_key (u "quality_tier") d = VInt (quality s) ∧
  get_key (u "rotation") d = VInt (rotation s) ∧
  get_key (u "camera_name") d = VStr (camera_name s) ∧
  get_key (u "snapshot_interval") d = VInt (snapshot_interval s) ∧
  get_key (u "snapshot_upload_enabled") d = VBool (snapshot_upload_enabled s) ∧
  get_key (u "timelapse_interval") d = VInt (timelapse_interval s) ∧
  get_key (u "timelapse_enabled") d = VBool (timelapse_enabled s) ∧
  get_key (u "timelapse_fps") d = VInt (timelapse_fps s) ∧
  get_key (u "timelapse_trigger") d = VStr (trigger_name (timelapse_trigger s)) ∧
  get_key (u "timelapse_gpio_pin") d = pin_val (timelapse_gpio_pin s) ∧
  get_key (u "timelapse_gpio_record_pin") d = pin_val (timelapse_gpio_record_pin s) ∧
  get_key (u "timezone") d = VStr (timezone s) ∧
  get_key (u "rtsp_mode") d = VInt (rtsp_mode s) ∧
  get_key (u "webrtc_mode") d = VInt (webrtc_mode s).

(** Reading back each key of the snapshot, whatever follows it in the document. *)
Lemma persistable_keys s rest : holds_settings (persistable_state s ++ rest) s.
Proof. unfold holds_settings, persistable_state. cbn [app]. repeat split; by find_key. Qed.

(** The state carries no pins and waits for the timer, as at start-up. *)
Definition no_pins (s : CameraState) : Prop :=
  timelapse_trigger s = Interval ∧ timelapse_gpio_pin s = None ∧ timelapse_gpio_record_pin s = None.

Lemma set_quality_valid z s :
  1 ≤ z ≤ 3 → set_quality (VInt z) s = (true, s{{quality := z}}).
Proof.
  intros Hz. unfold set_quality. cbn [as_int].
  assert (z = 1 ∨ z = 2 ∨ z = 3) as [->|[->| ->]] by lia; reflexivity.
Qed.
Lemma set_rotation_valid d s :
  is_rotation d = true →
  set_rotation (VInt d) s = (true, s{{rotation := d; info_dirty := info_dirty s || negb (d =? rotation s)}}).
Proof.
  intros Hd. unfold set_rotation, valid_rotation. simpl. rewrite Hd.
  destruct (Z.eqb_spec d (rotation s)) as [->|]; destruct s; simpl; unfold constant, mark_info_dirty; simpl;
    [by rewrite orb_false_r|by rewrite orb_true_r].
Qed.
Lemma set_camera_name_valid n s :
  strip n = n → n ≠ [] → set_camera_name (VStr n) s = (true, s{{camera_name := n}}).
Proof. intros Hs Hn. unfold set_camera_name. simpl. rewrite Hs. by destruct n. Qed.
Lemma set_timezone_valid zones n s :
  n = [] ∨ valid_zone_name zones (VStr n) = true → set_timezone zones (VStr n) s = (true, s{{timezone := n}}).
Proof.
  intros Hz. unfold set_timezone. cbn [as_str].
  destruct Hz as [->|Hz]; [done|]. rewrite Hz. by rewrite andb_false_r.
Qed.

Lemma apply_key_accepts key f v l s s' :
  v ≠ VNone → f v s = (true, s') → apply_key key f v (l, s) = (l ++ [key], s').
Proof. intros Hv Hf. unfold apply_key. by destruct v; rewrite ?Hf. Qed.

Lemma set_snapshot_interval_valid z s :
  10 ≤ z ≤ 600 →
  set_snapshot_interval (VInt z) s =
  (true, mark_info_dirty (s{{snapshot_interval := z; snapshot_interval_changed := true}})).
Proof.
  intros Hz. unfold set_snapshot_interval. simpl.
  by rewrite (proj2 (in_range_spec SNAPSHOT_INTERVAL_MIN SNAPSHOT_INTERVAL_MAX z) Hz).
Qed.
Lemma set_timelapse_interval_valid z s :
  1 ≤ z ≤ 3600 → set_timelapse_interval (VInt z) s = (true, s{{timelapse_interval := z}}).
Proof.
  intros Hz. unfold set_timelapse_interval. simpl.
  by rewrite (proj2 (in_range_spec INTERVAL_MIN INTERVAL_MAX z) Hz).
Qed.
Lemma when_int_valid lo hi f z s :
  lo ≤ z ≤ hi → when_int (in_range lo hi) f (VInt z) s = (true, f z s).
Proof. intros Hz. unfold when_int. simpl. by rewrite (proj2 (in_range_spec _ _ z) Hz). Qed.

Lemma set_pin_valid z s :
  safe_pin z = true → timelapse_gpio_record_pin s = None →
  set_timelapse_gpio_pin (VInt z) s = (true, s{{timelapse_gpio_pin := Some z}}).
Proof. intros Hz Hr. unfold set_timelapse_gpio_pin. simpl. rewrite Hz, bool_decide_false; [done|congruence]. Qed.
Lemma set_record_pin_valid z s :
  safe_pin z = true → timelapse_gpio_pin s ≠ Some z →
  set_timelapse_gpio_record_pin (VInt z) s = (true, s{{timelapse_gpio_record_pin := Some z}}).
Proof.
  intros Hz Hr. unfold set_timelapse_gpio_record_pin. simpl. by rewrite Hz, bool_decide_false.
Qed.
Lemma set_trigger_valid t s :
  (t = Gpio → timelapse_gpio_pin s ≠ None) →
  set_timelapse_trigger (VStr (trigger_name t)) s = (true, s{{timelapse_trigger := t}}).
Proof.
  intros Ht. unfold set_timelapse_trigger.
  assert (trigger_of (VStr (trigger_name t)) = Some t) as -> by (by destruct t).
  destruct t; simpl; [done|]. rewrite bool_decide_false; [done|auto].
Qed.

(** The three keys that depend on each other, restored in the order of the source. *)
Lemma restore_pins zones s l s0 :
  settings_ok zones s → no_pins s0 →
  let r := apply_key (u "timelapse_trigger") set_timelapse_trigger (VStr (trigger_name (timelapse_trigger s)))
           (apply_key (u "timelapse_gpio_record_pin") set_timelapse_gpio_record_pin (pin_val (timelapse_gpio_record_pin s))
           (apply_key (u "timelapse_gpio_pin") set_timelapse_gpio_pin (pin_val (timelapse_gpio_pin s)) (l, s0))) in
  r.2 = s0{{timelapse_gpio_pin := timelapse_gpio_pin s;
            timelapse_gpio_record_pin := timelapse_gpio_record_pin s;
            timelapse_trigger := timelapse_trigger s}}.
Proof.
  intros Hok (Ht & Hp & Hr). cbv zeta.
  assert (∃ l1, apply_key (u "timelapse_gpio_pin") set_timelapse_gpio_pin (pin_val (timelapse_gpio_pin s)) (l, s0)
          = (l1, s0{{timelapse_gpio_pin := timelapse_gpio_pin s}})) as [l1 ->].
  { destruct (timelapse_gpio_pin s) as [z|] eqn:E; simpl.
    - rewrite set_pin_valid by (try apply (ok_pin _ _ Hok); done). eauto.
    - exists l. f_equal. destruct s0; simpl in *. by subst. }
  assert (∃ l2, apply_key (u "timelapse_gpio_record_pin") set_timelapse_gpio_record_pin
                  (pin_val (timelapse_gpio_record_pin s)) (l1, s0{{timelapse_gpio_pin := timelapse_gpio_pin s}})
          = (l2, s0{{timelapse_gpio_pin := timelapse_gpio_pin s;
                     timelapse_gpio_record_pin := timelapse_gpio_record_pin s}})) as [l2 ->].
  { destruct (timelapse_gpio_record_pin s) as [z|] eqn:E; simpl.
    - rewrite set_record_pin_valid; [eauto|by apply (ok_record_pin _ _ Hok)|].
      intros Heq. assert (timelapse_gpio_pin s = Some z) as Hz by (by destruct s0).
      apply (ok_pins_differ _ _ Hok); congruence.
    - exists l1. f_equal. destruct s0; simpl in *. by subst. }
  erewrite apply_key_accepts; [done|done|]. apply set_trigger_valid. intros Hg.
  pose proof (ok_trigger _ _ Hok Hg). by destruct s0.
Qed.

(** A document that holds the settings of [s] restores them. *)
Lemma restore_settings zones d s s0 :
  settings_ok zones s → no_pins s0 → holds_settings d s →
  persistable_state (apply_persisted zones (VDict d) s0).2 = persistable_state s.
Proof.
  intros Hok Hnp Hd. unfold apply_persisted. cbv beta zeta.
  destruct Hd as (-> & -> & -> & -> & -> & -> & -> & -> & -> & -> & -> & -> & -> & ->).
  pose proof (ok_quality _ _ Hok). pose proof (ok_snapshot _ _ Hok). pose proof (ok_rotation _ _ Hok).
  pose proof (ok_tl_interval _ _ Hok). pose proof (ok_tl_fps _ _ Hok). pose proof (ok_timezone _ _ Hok).
  pose proof (ok_rtsp _ _ Hok). pose proof (ok_webrtc _ _ Hok). destruct (ok_name _ _ Hok).
  erewrite (apply_key_accepts (u "quality_tier")) by (done || by apply set_quality_valid).
  erewrite (apply_key_accepts (u "rotation")) by (done || by apply set_rotation_valid).
  erewrite (apply_key_accepts (u "camera_name")) by (done || by apply set_camera_name_valid).
  erewrite (apply_key_accepts (u "snapshot_interval")) by (done || by apply set_snapshot_interval_valid).
  erewrite (apply_key_accepts (u "snapshot_upload_enabled")) by (done || reflexivity).
  erewrite (apply_key_accepts (u "timelapse_interval")) by (done || by apply set_timelapse_interval_valid).
  erewrite (apply_key_accepts (u "timelapse_enabled")) by (done || reflexivity).
  erewrite (apply_key_accepts (u "timelapse_fps")) by (done || by apply when_int_valid).
  match goal with |- context [apply_key (u "timelapse_gpio_pin") _ _ (?l, ?s1)] =>
    assert (no_pins s1) as Hs1 by (by destruct s0);
    pose proof (restore_pins zones s l s1 Hok Hs1) as Hr; clear Hs1 end.
  cbv zeta in Hr. match type of Hr with snd ?x = _ => destruct x as [l1 s1] end.
  cbn [snd] in Hr. rewrite Hr. clear Hr.
  erewrite (apply_key_accepts (u "timezone")) by (done || by apply set_timezone_valid).
  erewrite (apply_key_accepts (u "rtsp_mode")) by (done || by apply when_int_valid).
  erewrite (apply_key_accepts (u "webrtc_mode")) by (done || by apply when_int_valid).
  by destruct s0.
Qed.

(** A saved settings document restores the settings it was saved from, on a
    state with no GPIO pins (as at start-up): every durable key, pins and trigger
    included. *)
Theorem persist_restore_roundtrip zones s s0 :
  settings_ok zones s → no_pins s0 →
  persistable_state (apply_persisted zones (VDict (persistable_state s)) s0).2 = persistable_state s.
Proof.
  intros Hok Hnp. apply restore_settings; [done..|].
  rewrite <-(app_nil_r (persistable_state s)). apply persistable_keys.
Qed.

Definition gpio_state : CameraState :=
  initial_state{{quality := 1; rotation := 90; timelapse_trigger := Gpio;
                 timelapse_gpio_pin := Some 17; timelapse_gpio_record_pin := Some 27}}.

Lemma gpio_state_ok : settings_ok [] gpio_state.
Proof. split; simpl; try done; try lia; try (intros z [= <-]; reflexivity). by left. Qed.

Lemma persist_restore_roundtrip_witness :
  persistable_state (apply_persisted [] (VDict (persistable_state gpio_state)) initial_state).2
  = persistable_state gpio_state.
Proof. apply (persist_restore_roundtrip []); [apply gpio_state_ok|done]. Defined.
