(* ===== verification/Coordinator.v ===== *)
(** [app/settings_coordinator.py] with the control modules it drives:
    [quality_control.py], [rtsp_control.py], [webrtc_control.py].

    The coordinator is the single mutation path of the shared settings.  Its
    injected callables are [hooks]: arbitrary effects on the shared state and an
    environment [E], which may return any value or raise.  Every call of a hook is
    recorded in [clog], so that a theorem can say that nothing was persisted,
    published or restarted. *)
From S2P Require Import Prelude PyValue CameraState.

(** ** World and hooks *)

Inductive call :=
  | CPersist | CPublish | CQualityApply | CQualityPersist | CRotationApply
  | CGpioApply | CTimezoneApply | CRtspStart | CRtspStop | CRtspQuery | CRtspWrite
  | CWebrtcStart | CWebrtcStop.
#[global] Instance call_eq_dec : EqDecision call.
Proof. solve_decision. Defined.

Record SettingsResult := {
  ok : bool;
  reason : option pystr;
  changed : list pystr;
  result_state : list (pyval * pyval);
}.

Section Coordinator.
Context {E : Type}.
(** The zones of the system's tz database. *)
Variable zones : list pystr.

(** An injected callable. *)
Definition Hook (A : Type) : Type := A → PyM (CameraState * E) pyval.

(** The constructor arguments; [None] is Python's [None].  [rtsp_write] is
    [rtsp_control.write_mode], the file write behind the RTSP mode. *)
Record hooks := {
  persist : Hook unit;
  publish : Hook unit;
  quality_apply : option (Hook pyval);
  quality_persist : option (Hook Z);
  rotation_apply : option (Hook pyval);
  rtsp_start : option (Hook unit);
  rtsp_stop : option (Hook unit);
  rtsp_query : option (Hook unit);
  rtsp_write : Hook Z;
  webrtc_start : option (Hook unit);
  webrtc_stop : option (Hook unit);
  gpio_apply : option (Hook unit);
  timezone_apply : option (Hook pystr);
}.

Record cworld := { cstate : CameraState; cenv : E; clog : list call }.

Definition call_hook {A} (c : call) (h : Hook A) (a : A) : PyM cworld pyval := λ w,
  let '(r, (s, e)) := h a (cstate w, cenv w) in
  (r, {| cstate := s; cenv := e; clog := clog w ++ [c] |}).

Definition read_state : PyM cworld CameraState := λ w, (Ret (cstate w), w).
Definition update (f : CameraState → CameraState) : PyM cworld unit :=
  modify (λ w, w{{cstate := f (cstate w)}}).
(** A setter of [CameraState]: its answer, and the state it leaves. *)
Definition run_setter (f : CameraState → bool * CameraState) : PyM cworld bool := λ w,
  let '(b, s) := f (cstate w) in (Ret b, w{{cstate := s}}).

Variable h : hooks.

(** ** Helpers *)

Definition _result (o : bool) (r : option pystr) (c : list pystr) : PyM cworld SettingsResult :=
  s ← read_state;
  mret {| ok := o; reason := r; changed := c; result_state := persistable_state s |}.
Definition reject (r : pystr) : PyM cworld SettingsResult := _result false (Some r) [].

(** A guarded call whose outcome is ignored. *)
Definition ignored (m : PyM cworld pyval) : PyM cworld unit :=
  _ ← try_except any_exception m (λ _, mret VNone); mret tt.
(** A guarded call whose outcome decides; raising counts as [False]. *)
Definition guarded (m : PyM cworld pyval) : PyM cworld bool :=
  v ← try_except any_exception m (λ _, mret (VBool false)); mret (truthy v).

Definition _publish_state : PyM cworld unit := ignored (call_hook CPublish (publish h) tt).
Definition _persist_state : PyM cworld unit := ignored (call_hook CPersist (persist h) tt).
Definition _apply_gpio : PyM cworld unit :=
  match gpio_apply h with
  | None => mret tt
  | Some g => ignored (call_hook CGpioApply g tt)
  end.

Definition _commit (c : list pystr) : PyM cworld SettingsResult :=
  _ ← _persist_state;
  _ ← _publish_state;
  _result true None c.

(** ** Startup *)

Definition restore (persisted : pyval) : PyM cworld SettingsResult :=
  applied ← (λ w, let '(l, s) := apply_persisted zones persisted (cstate w) in
                  (Ret l, w{{cstate := s}}) : res (list pystr) * cworld);
  _ ← _publish_state;
  _ ← _apply_gpio;
  _result true None applied.

(** ** Quality *)

(** [RAW_TO_ENUM.get(raw)]: an unhashable key raises. *)
Definition raw_to_enum (raw : pyval) : res (option Z) :=
  if hashable raw
  then Ret (snd <$> find (λ kv : Z * Z, eq_int raw kv.1) RAW_TO_ENUM)
  else Raise TypeError.

(** [quality.quality_change_allowed] with both tiers known. *)
Definition quality_change_allowed (current requested : Z) (turn : bool) : bool :=
  negb turn || (requested <=? current).

Definition TURN_QUALITY_LOCK_LOG : pystr :=
  u "TURN client ONLINE - WebRTC is active, video quality change is not allowed".

(** [quality_control.handle_quality]; the tiers are read before the call. *)
Definition handle_quality (raw : pyval) (persist_flag : bool) (live_apply : Hook pyval)
    (current : Z) (turn : bool) : PyM cworld bool :=
  match raw_to_enum raw with
  | Raise e => raise e
  | Ret None => mret false
  | Ret (Some qenum) =>
      if negb (quality_change_allowed current qenum turn) then mret false else
      live ← call_hook CQualityApply live_apply raw;
      if negb (truthy live) then mret false else
      if persist_flag then
        try_except any_exception
          (match quality_persist h with
           | Some p => _ ← call_hook CQualityPersist p qenum; mret true
           | None => raise TypeError
           end)
          (λ _, mret false)
      else mret true
  end.

Definition _quality_reason (raw : pyval) : PyM cworld pystr :=
  s ← read_state;
  mret (match raw_to_enum raw with
        | Ret (Some qenum) =>
            if negb (quality_change_allowed (quality s) qenum (turn_online s))
            then TURN_QUALITY_LOCK_LOG else u "live apply failed"
        | _ => u "unknown quality value"
        end).

Definition co_set_quality (raw : pyval) (persist_flag : bool) : PyM cworld SettingsResult :=
  match quality_apply h with
  | None => reject (u "live apply unavailable")
  | Some live =>
      s ← read_state;
      done ← try_except any_exception
               (handle_quality raw persist_flag live (quality s) (turn_online s))
               (λ _, mret false);
      if negb done then (r ← _quality_reason raw; reject r) else
      if negb persist_flag then (_ ← _publish_state; _result true None [u "quality_tier"])
      else _commit [u "quality_tier"]
  end.

(** ** Rotation *)

Definition co_set_rotation (degrees : pyval) : PyM cworld SettingsResult :=
  match valid_rotation degrees with
  | None => reject (u "rotation must be one of 0, 90, 180, 270")
  | Some _ =>
      match rotation_apply h with
      | None => reject (u "live apply unavailable")
      | Some f =>
          done ← guarded (call_hook CRotationApply f degrees);
          if negb done then reject (u "live apply failed") else
          _ ← run_setter (set_rotation degrees);
          _commit [u "rotation"]
      end
  end.

(** ** Snapshots *)

Definition co_set_snapshot_upload (enabled : pyval) : PyM cworld SettingsResult :=
  match as_bool enabled with
  | None => reject (u "snapshot upload flag must be a boolean")
  | Some b => _ ← update (λ s : CameraState, s{{snapshot_upload_enabled := b}}); _commit [u "snapshot_upload_enabled"]
  end.

Definition co_set_snapshot_interval (seconds : pyval) : PyM cworld SettingsResult :=
  b ← run_setter (set_snapshot_interval seconds);
  if negb b then reject (u "snapshot interval must be an int in 10..600")
  else _commit [u "snapshot_interval"].

(** ** Timelapse *)

(** [timelapse_enable] is the default [timelapse.apply_enable]. *)
Definition co_set_timelapse_enabled (action : pystr) : PyM cworld SettingsResult :=
  b ← run_setter (apply_enable action);
  if negb b then reject (u "timelapse action not recognized")
  else _commit [u "timelapse_enabled"].

Definition co_set_timelapse_interval (seconds : pyval) : PyM cworld SettingsResult :=
  b ← run_setter (set_timelapse_interval seconds);
  if negb b then reject (u "timelapse interval must be an int in 1..3600")
  else _commit [u "timelapse_interval"].

Definition co_set_timelapse_fps (fps : pyval) : PyM cworld SettingsResult :=
  match as_int fps with
  | None => reject (u "timelapse fps must be an int in 1..30")
  | Some z =>
      if negb (in_range FPS_MIN FPS_MAX z) then reject (u "timelapse fps must be an int in 1..30")
      else _ ← update (λ s : CameraState, s{{timelapse_fps := z}}); _commit [u "timelapse_fps"]
  end.

Definition co_set_timelapse_trigger (trigger : pyval) : PyM cworld SettingsResult :=
  match trigger_of trigger with
  | None => reject (u "timelapse trigger must be interval or gpio")
  | Some _ =>
      b ← run_setter (set_timelapse_trigger trigger);
      if negb b then reject (u "choose a layer pin before using the GPIO trigger") else
      r ← _commit [u "timelapse_trigger"];
      _ ← _apply_gpio;
      mret r
  end.

(** [pin is not None and type(pin) is not int]. *)
Definition pin_shape (pin : pyval) : bool :=
  match pin with VNone | VInt _ => true | _ => false end.

Definition co_set_timelapse_gpio_pin (pin : pyval) : PyM cworld SettingsResult :=
  if negb (pin_shape pin) then reject (u "GPIO pin must be a BCM number or null") else
  b ← run_setter (set_timelapse_gpio_pin pin);
  if negb b then
    match pin with
    | VNone => reject (u "switch the trigger back to interval first")
    | _ => reject (u "GPIO pin is not offered or is already the recording pin")
    end
  else
    r ← _commit [u "timelapse_gpio_pin"];
    _ ← _apply_gpio;
    mret r.

Definition co_set_timelapse_gpio_record_pin (pin : pyval) : PyM cworld SettingsResult :=
  if negb (pin_shape pin) then reject (u "GPIO pin must be a BCM number or null") else
  b ← run_setter (set_timelapse_gpio_record_pin pin);
  if negb b then reject (u "GPIO pin is not offered or is already the layer pin") else
  r ← _commit [u "timelapse_gpio_record_pin"];
  _ ← _apply_gpio;
  mret r.

(** ** Time zone *)

Definition co_set_timezone (name : pyval) : PyM cworld SettingsResult :=
  match as_str name with
  | None => reject (u "time zone must be a string")
  | Some [] => _ ← run_setter (set_timezone zones (VStr [])); _commit [u "timezone"]
  | Some n =>
      if negb (valid_zone_name zones name) then reject (u "unknown time zone") else
      match timezone_apply h with
      | None => reject (u "live apply unavailable")
      | Some f =>
          done ← guarded (call_hook CTimezoneApply f n);
          if negb done then reject (u "time zone could not be applied (needs a newer image)") else
          _ ← run_setter (set_timezone zones name);
          _commit [u "timezone"]
      end
  end.

(** ** Streaming modes *)

Definition RTSP_ENABLED := 2.

(** [rtsp_control.runtime_after_command]. *)
Definition runtime_after_command (mode : Z) : PyM cworld bool :=
  active ← (match rtsp_query h with
            | None => mret VNone
            | Some q => try_except any_exception (call_hook CRtspQuery q tt) (λ _, mret VNone)
            end : PyM cworld pyval);
  mret (match active with VNone => mode =? RTSP_ENABLED | v => truthy v end).

(** [rtsp_control.apply_mode]. *)
Definition rtsp_apply_mode (mode : pyval) : PyM cworld bool :=
  match as_int mode with
  | None => mret false
  | Some m =>
      if negb (in_range 1 2 m) then mret false else
      _ ← update (λ s : CameraState, s{{rtsp_mode := m}});
      _ ← (if m =? RTSP_ENABLED
           then match rtsp_start h with None => mret tt | Some f => ignored (call_hook CRtspStart f tt) end
           else match rtsp_stop h with None => mret tt | Some f => ignored (call_hook CRtspStop f tt) end
           : PyM cworld unit);
      _ ← ignored (call_hook CRtspWrite (rtsp_write h) m);
      running ← runtime_after_command m;
      _ ← update (λ s : CameraState, mark_info_dirty (s{{rtsp_running := running}}));
      mret true
  end.

Definition co_set_rtsp_mode (mode : pyval) : PyM cworld SettingsResult :=
  b ← try_except any_exception (rtsp_apply_mode mode) (λ _, mret false);
  if negb b then reject (u "invalid rtsp mode") else _commit [u "rtsp_mode"].

(** One guarded service command of [webrtc_control.apply_mode]: the status
    follows only when it did not raise. *)
Definition webrtc_move (c : call) (f : option (Hook unit)) (status : Z) : PyM cworld bool :=
  match f with
  | None => _ ← update (λ s : CameraState, s{{webrtc_status := status}}); mret true
  | Some f =>
      moved ← try_except any_exception (_ ← call_hook c f tt; mret true) (λ _, mret false);
      if negb moved then mret false else
      _ ← update (λ s : CameraState, s{{webrtc_status := status}}); mret true
  end.

(** [webrtc_control.apply_mode]. *)
Definition webrtc_apply_mode (requested : pyval) : PyM cworld bool :=
  match as_int requested with
  | None => mret false
  | Some r =>
      if negb (in_range 0 1 r) then mret false else
      s ← read_state;
      done ← (if (webrtc_status s =? 0) && negb (r =? 0)
              then webrtc_move CWebrtcStart (webrtc_start h) 1
              else if negb (webrtc_status s =? 0) && (r =? 0)
              then webrtc_move CWebrtcStop (webrtc_stop h) 0
              else mret true : PyM cworld bool);
      if negb done then mret false else
      _ ← update (λ s : CameraState, mark_info_dirty (s{{webrtc_mode := r}}));
      mret true
  end.

Definition co_set_webrtc_mode (mode : pyval) : PyM cworld SettingsResult :=
  match as_int mode with
  | None => reject (u "invalid webrtc mode")
  | Some m =>
      if negb (in_range 0 1 m) then reject (u "invalid webrtc mode") else
      b ← try_except any_exception (webrtc_apply_mode mode) (λ _, mret false);
      if negb b then reject (u "webrtc service apply failed") else _commit [u "webrtc_mode"]
  end.

Definition co_set_camera_name (name : pyval) : PyM cworld SettingsResult :=
  b ← run_setter (set_camera_name name);
  if negb b then reject (u "camera name must be a non-empty string") else _commit [u "camera_name"].

(** ** UI mutation dispatch *)

(** The allowlist; one constructor per name of [MUTATION_FIELDS]. *)
Inductive mutation_field :=
  | MCameraName | MQuality | MRotation | MSnapshotUpload | MSnapshotInterval
  | MTimelapseEnabled | MTimelapseInterval | MTimelapseFps | MTimelapseTrigger
  | MTimelapseGpioPin | MTimelapseGpioRecordPin | MTimezone | MRtspMode | MWebrtcMode.

Definition MUTATION_FIELDS : list (pystr * mutation_field) :=
  [(u "camera_name", MCameraName); (u "quality", MQuality); (u "rotation", MRotation);
   (u "snapshot_upload_enabled", MSnapshotUpload); (u "snapshot_interval", MSnapshotInterval);
   (u "timelapse_enabled", MTimelapseEnabled); (u "timelapse_interval", MTimelapseInterval);
   (u "timelapse_fps", MTimelapseFps); (u "timelapse_trigger", MTimelapseTrigger);
   (u "timelapse_gpio_pin", MTimelapseGpioPin);
   (u "timelapse_gpio_record_pin", MTimelapseGpioRecordPin); (u "timezone", MTimezone);
   (u "rtsp_mode", MRtspMode); (u "webrtc_mode", MWebrtcMode)].

(** [_QUALITY_NAMES] composed with [ENUM_TO_RAW]; [_RTSP_NAMES]; [_WEBRTC_NAMES]. *)
Definition _QUALITY_RAW : list (pystr * Z) := [(u "sd", 5); (u "hd", 6); (u "fhd", 7)].
Definition _RTSP_NAMES : list (pystr * Z) := [(u "disabled", 1); (u "enabled", 2)].
Definition _WEBRTC_NAMES : list (pystr * Z) := [(u "disabled", 0); (u "enabled", 1)].
Definition named (names : list (pystr * Z)) (v : pyval) : option Z :=
  match as_str v with Some s => dict_get s names | None => None end.

(** The [_mutate_<field>] handlers. *)
Definition mutate (f : mutation_field) (value : pyval) : PyM cworld SettingsResult :=
  match f with
  | MCameraName =>
      match as_str value with
      | None => reject (u "camera name must be a string")
      | Some _ => co_set_camera_name value
      end
  | MQuality =>
      match named _QUALITY_RAW value with
      | None => reject (u "quality must be one of sd, hd, fhd")
      | Some raw => co_set_quality (VInt raw) true
      end
  | MRotation => co_set_rotation value
  | MSnapshotUpload => co_set_snapshot_upload value
  | MSnapshotInterval => co_set_snapshot_interval value
  | MTimelapseEnabled =>
      match as_bool value with
      | None => reject (u "timelapse enabled must be a boolean")
      | Some b => co_set_timelapse_enabled (if b then u "timelapse_enable" else u "timelapse_disable")
      end
  | MTimelapseInterval => co_set_timelapse_interval value
  | MTimelapseFps => co_set_timelapse_fps value
  | MTimelapseTrigger => co_set_timelapse_trigger value
  | MTimelapseGpioPin => co_set_timelapse_gpio_pin value
  | MTimelapseGpioRecordPin => co_set_timelapse_gpio_record_pin value
  | MTimezone => co_set_timezone value
  | MRtspMode =>
      match named _RTSP_NAMES value with
      | None => reject (u "rtsp mode must be enabled or disabled")
      | Some m => co_set_rtsp_mode (VInt m)
      end
  | MWebrtcMode =>
      match named _WEBRTC_NAMES value with
      | None => reject (u "webrtc mode must be enabled or disabled")
      | Some m => co_set_webrtc_mode (VInt m)
      end
  end.

Definition apply_mutation (field value : pyval) : PyM cworld SettingsResult :=
  match as_str field with
  | None => reject (u "unknown setting field")
  | Some name =>
      match dict_get name MUTATION_FIELDS with
      | None => reject (u "unknown setting field")
      | Some f => try_except any_exception (mutate f value)
                    (λ _, reject (name ++ u " could not be applied"))
      end
  end.
End Coordinator.
#[global] Arguments hooks : clear implicits.
#[global] Arguments cworld : clear implicits.

(** ** What the coordinator relies on of its hooks *)

Section Contract.
Context {E : Type} (zones : list pystr).

(** A hook that leaves the durable settings alone, whatever it returns. *)
Definition quiet {A} (f : @Hook E A) : Prop := ∀ a s e,
  persistable_state (f a (s, e)).2.1 = persistable_state s.
Definition quiet_opt {A} (f : option (@Hook E A)) : Prop :=
  match f with Some f => quiet f | None => True end.

Definition refused (r : res pyval) : Prop :=
  match r with Ret v => truthy v = false | Raise _ => True end.

(** The live quality change may set a tier, but only when it reports success. *)
Definition quality_apply_ok (f : @Hook E pyval) : Prop := ∀ raw s e,
  (settings_ok zones s → settings_ok zones (f raw (s, e)).2.1) ∧
  (refused (f raw (s, e)).1 → persistable_state (f raw (s, e)).2.1 = persistable_state s).

(** The durable quality write succeeds. *)
Definition quality_persist_total (f : option (@Hook E Z)) : Prop :=
  match f with
  | Some f => quiet f ∧ ∀ q s e, ∃ v, (f q (s, e)).1 = Ret v
  | None => False
  end.

(** [saved e d]: the environment holds [d] as the durable settings.  The persist
    hook establishes it; the GPIO hook re-enters the coordinator, which keeps it. *)
Variable saved : E → list (pyval * pyval) → Prop.

Class HooksOk (h : hooks E) : Prop := {
  hook_persist : quiet (persist h);
  hook_persist_saved s e : saved (persist h tt (s, e)).2.2 (persistable_state s);
  hook_publish : quiet (publish h);
  hook_publish_saved s e d : saved e d → saved (publish h tt (s, e)).2.2 d;
  hook_quality : match quality_apply h with Some f => quality_apply_ok f | None => True end;
  hook_quality_persist : quality_persist_total (quality_persist h);
  hook_rotation : quiet_opt (rotation_apply h);
  hook_rtsp_start : quiet_opt (rtsp_start h);
  hook_rtsp_stop : quiet_opt (rtsp_stop h);
  hook_rtsp_query : quiet_opt (rtsp_query h);
  hook_rtsp_write : quiet (rtsp_write h);
  hook_webrtc_start : quiet_opt (webrtc_start h);
  hook_webrtc_stop : quiet_opt (webrtc_stop h);
  hook_gpio : match gpio_apply h with
              | Some f => ∀ s e,
                  (settings_ok zones s → settings_ok zones (f tt (s, e)).2.1) ∧
                  (saved e (persistable_state s) →
                   saved (f tt (s, e)).2.2 (persistable_state (f tt (s, e)).2.1))
              | None => True
              end;
  hook_timezone : quiet_opt (timezone_apply h);
}.

(** Well-formedness only looks at the durable settings. *)
Lemma settings_ok_durable s s' :
  persistable_state s' = persistable_state s → settings_ok zones s → settings_ok zones s'.
Proof.
  intros Heq Hok. unfold persistable_state in Heq.
  injection Heq as Eq Er En Es Eu Ei Ee Ef Ht Hp Hr Ez Em Ew.
  assert (timelapse_trigger s' = timelapse_trigger s) as Ht'.
  { by destruct (timelapse_trigger s'), (timelapse_trigger s). }
  assert (timelapse_gpio_pin s' = timelapse_gpio_pin s) as Hp'.
  { revert Hp. by destruct (timelapse_gpio_pin s'), (timelapse_gpio_pin s); simpl; intros; simplify_eq. }
  assert (timelapse_gpio_record_pin s' = timelapse_gpio_record_pin s) as Hr'.
  { revert Hr. by destruct (timelapse_gpio_record_pin s'), (timelapse_gpio_record_pin s); simpl;
      intros; simplify_eq. }
  destruct Hok. split; rewrite ?Eq, ?Er, ?En, ?Es, ?Ei, ?Ef, ?Ht', ?Hp', ?Hr', ?Ez, ?Em, ?Ew; done.
Qed.
End Contract.

(** ** Reasoning about coordinator operations *)

Section Specs.
Context {E : Type} (zones : list pystr) (saved : E → list (pyval * pyval) → Prop).
Abbreviation W := (cworld E).

(** [m] returns from [w], in a world and with a value that satisfy [Q]. *)
Definition returns {A} (m : PyM W A) (w : W) (Q : A → W → Prop) : Prop :=
  ∃ a w', m w = (Ret a, w') ∧ Q a w'.

Lemma returns_ret {A} (a : A) w (Q : A → W → Prop) : Q a w → returns (mret a) w Q.
Proof. intros HQ. by exists a, w. Qed.
Lemma returns_bind {A B} (m : PyM W A) (k : A → PyM W B) w (Q : B → W → Prop) :
  returns m w (λ a w', returns (k a) w' Q) → returns (m ≫= k) w Q.
Proof.
  intros (a & w' & Hm & b & w'' & Hk & HQ). exists b, w''.
  unfold mbind, pym_bind. by rewrite Hm.
Qed.
Lemma returns_read w (Q : CameraState → W → Prop) : Q (cstate w) w → returns read_state w Q.
Proof. intros. by exists (cstate w), w. Qed.
Lemma returns_update f w (Q : unit → W → Prop) :
  Q tt (w{{cstate := f (cstate w)}}) → returns (update f) w Q.
Proof. intros. by eexists tt, _. Qed.
Lemma returns_setter f w (Q : bool → W → Prop) :
  Q (f (cstate w)).1 (w{{cstate := (f (cstate w)).2}}) → returns (run_setter f) w Q.
Proof. intros. unfold returns, run_setter. destruct (f (cstate w)). by eexists _, _. Qed.
Lemma returns_result o r c w (Q : SettingsResult → W → Prop) :
  Q {| ok := o; reason := r; changed := c; result_state := persistable_state (cstate w) |} w →
  returns (_result o r c) w Q.
Proof. intros. by eexists _, _. Qed.
Lemma returns_weaken {A} (m : PyM W A) w (P Q : A → W → Prop) :
  returns m w P → (∀ a w', P a w' → Q a w') → returns m w Q.
Proof. intros (a & w' & ? & ?) HPQ. exists a, w'. eauto. Qed.

(** The world after a hook: some environment, the call on the log. *)
Definition after (c : call) (w : W) (s : CameraState) (e : E) : W :=
  {| cstate := s; cenv := e; clog := clog w ++ [c] |}.

Lemma returns_guarded {A} c (f : @Hook E A) a w (Q : bool → W → Prop) :
  quiet f →
  (∀ b s e, persistable_state s = persistable_state (cstate w) → Q b (after c w s e)) →
  returns (guarded (call_hook c f a)) w Q.
Proof.
  intros Hq HQ. specialize (Hq a (cstate w) (cenv w)).
  unfold returns, guarded, mbind, pym_bind, try_except, call_hook.
  destruct (f a (cstate w, cenv w)) as [[v|ex] [s e]]; simpl in *; eexists _, _; (split; [done|]); by apply HQ.
Qed.
(** The same with the environment the hook leaves. *)
Lemma returns_ignored_env {A} c (f : @Hook E A) a w (Q : unit → W → Prop) :
  quiet f →
  (∀ s, persistable_state s = persistable_state (cstate w) →
        Q tt (after c w s (f a (cstate w, cenv w)).2.2)) →
  returns (ignored (call_hook c f a)) w Q.
Proof.
  intros Hq HQ. specialize (Hq a (cstate w) (cenv w)).
  unfold returns, ignored, mbind, pym_bind, try_except, call_hook.
  destruct (f a (cstate w, cenv w)) as [[v|ex] [s e]]; simpl in *; eexists _, _; (split; [done|]); by apply HQ.
Qed.
Lemma returns_ignored {A} c (f : @Hook E A) a w (Q : unit → W → Prop) :
  quiet f →
  (∀ s e, persistable_state s = persistable_state (cstate w) → Q tt (after c w s e)) →
  returns (ignored (call_hook c f a)) w Q.
Proof.
  intros Hq HQ. specialize (Hq a (cstate w) (cenv w)).
  unfold returns, ignored, mbind, pym_bind, try_except, call_hook.
  destruct (f a (cstate w, cenv w)) as [[v|ex] [s e]]; simpl in *; eexists _, _; (split; [done|]); by apply HQ.
Qed.
Lemma returns_caught {A} (m : PyM W A) d w (Q : A → W → Prop) :
  returns m w Q → returns (try_except any_exception m d) w Q.
Proof. intros (a & w' & Hm & HQ). exists a, w'. unfold try_except. by rewrite Hm. Qed.

(** The calls a rejected mutation must not make. *)
Definition visible (l : list call) : list call := filter (λ c, c = CPersist ∨ c = CPublish) l.

(** From [w], with well-formed settings, to [w'] with answer [r]: an accepted
    mutation persists once and then publishes once, and what is saved is the
    state it leaves; a rejected one does neither
    and leaves the durable settings as they were. *)
Definition mutation_ok (w : W) (r : SettingsResult) (w' : W) : Prop :=
  settings_ok zones (cstate w') ∧
  ∃ l, clog w' = clog w ++ l ∧
    if ok r
    then visible l = [CPersist; CPublish] ∧ saved (cenv w') (persistable_state (cstate w'))
    else visible l = [] ∧ persistable_state (cstate w') = persistable_state (cstate w)
         ∧ result_state r = persistable_state (cstate w).

Definition mutates (m : PyM W SettingsResult) : Prop := ∀ w,
  settings_ok zones (cstate w) → returns m w (mutation_ok w).

Lemma visible_app l1 l2 : visible (l1 ++ l2) = visible l1 ++ visible l2.
Proof. apply filter_app. Qed.
End Specs.

Section Mutations.
Context {E : Type} (zones : list pystr) (saved : E → list (pyval * pyval) → Prop).
Context (h : hooks E) `{Hh : !HooksOk zones saved h}.
Abbreviation W := (cworld E).

(** [w1] is reached from [w] without persisting or publishing ... *)
Definition unseen (w w1 : W) : Prop := ∃ l, clog w1 = clog w ++ l ∧ visible l = [].
(** ... and with the same durable settings. *)
Definition undisturbed (w w1 : W) : Prop :=
  unseen w w1 ∧ persistable_state (cstate w1) = persistable_state (cstate w).

Lemma undisturbed_refl w : undisturbed w w.
Proof. split; [|done]. exists []. by rewrite app_nil_r. Qed.
Lemma unseen_state w w1 s : unseen w w1 → unseen w (w1{{cstate := s}}).
Proof. by destruct w1. Qed.
Lemma unseen_after w w1 c s e :
  unseen w w1 → c ≠ CPersist → c ≠ CPublish → unseen w (after c w1 s e).
Proof.
  intros (l & Hl & Hv) ??. exists (l ++ [c]). simpl. rewrite Hl, app_assoc. split; [done|].
  rewrite visible_app, Hv. unfold visible. by rewrite filter_cons_False by naive_solver.
Qed.
Lemma undisturbed_after w w1 c s e :
  undisturbed w w1 → c ≠ CPersist → c ≠ CPublish →
  persistable_state s = persistable_state (cstate w1) → undisturbed w (after c w1 s e).
Proof. intros [Hu Hp] ???. split; [by apply unseen_after|]. simpl. congruence. Qed.
Lemma undisturbed_ok w w1 :
  undisturbed w w1 → settings_ok zones (cstate w) → settings_ok zones (cstate w1).
Proof. intros [_ Hp]. by apply settings_ok_durable. Qed.

Lemma reject_spec r w w1 :
  undisturbed w w1 → settings_ok zones (cstate w) → returns (reject r) w1 (mutation_ok zones saved w).
Proof.
  intros Hu Hok. apply returns_result. split; [by eapply undisturbed_ok|].
  destruct Hu as [(l & Hl & Hv) Hp]. exists l. simpl. by rewrite Hp.
Qed.

(** After [_commit] the result says so, and the log shows both calls. *)
Definition committed (w : W) (r : SettingsResult) (w' : W) : Prop :=
  ok r = true ∧ mutation_ok zones saved w r w'.

Lemma commit_spec c w w1 :
  unseen w w1 → settings_ok zones (cstate w1) → returns (_commit h c) w1 (committed w).
Proof.
  intros (l & Hl & Hv) Hok. unfold _commit, _persist_state, _publish_state.
  apply returns_bind, returns_ignored_env; [apply Hh|]. intros s1 Hs1.
  apply returns_bind, returns_ignored_env; [apply Hh|]. intros s2 Hs2.
  apply returns_result. split; [done|]. split.
  - simpl in *. eapply settings_ok_durable; [|exact Hok]. congruence.
  - exists (l ++ [CPersist; CPublish]). simpl in *. rewrite Hl, visible_app, Hv, <-!app_assoc.
    rewrite Hs2, Hs1. split_and!; [done..|]. apply (hook_publish_saved zones saved).
    apply (hook_persist_saved zones saved).
Qed.

Lemma commit_mutation c w w1 :
  unseen w w1 → settings_ok zones (cstate w1) → returns (_commit h c) w1 (mutation_ok zones saved w).
Proof. intros. eapply returns_weaken; [by apply commit_spec|]. by intros r w' [_ ?]. Qed.

(** [_apply_gpio] after a commit adds no persist or publish of this mutation. *)
Lemma commit_gpio_mutation c w w1 :
  unseen w w1 → settings_ok zones (cstate w1) →
  returns (r ← _commit h c; _ ← _apply_gpio h; mret r) w1 (mutation_ok zones saved w).
Proof.
  intros Hu Hok. apply returns_bind. eapply returns_weaken; [by apply commit_spec|].
  intros r w2 [Hr [Hok2 (l & Hl & Hv)]]. rewrite Hr in Hv. destruct Hv as [Hv Hsaved]. apply returns_bind. unfold _apply_gpio.
  pose proof (hook_gpio zones saved (h := h)) as Hg. destruct (gpio_apply h) as [g|].
  - unfold returns at 1, ignored, mbind, pym_bind, try_except, call_hook.
    destruct (Hg (cstate w2) (cenv w2)) as [Hg1 Hg2]. specialize (Hg1 Hok2). specialize (Hg2 Hsaved).
    destruct (g tt (cstate w2, cenv w2)) as [[v|ex] [s e]]; simpl in *;
      eexists tt, _; (split; [done|]); apply returns_ret; (split; [done|]);
      exists (l ++ [CGpioApply]); simpl; rewrite Hl, app_assoc; rewrite Hr, visible_app, Hv; done.
  - apply returns_ret, returns_ret. split; [done|]. exists l. by rewrite Hr.
Qed.

(** The common shape: a setter decides, then commit. *)
Lemma setter_mutation f v w (k : bool → PyM W SettingsResult) :
  GoodSetter zones f → settings_ok zones (cstate w) →
  (∀ w1, undisturbed w w1 → returns (k false) w1 (mutation_ok zones saved w)) →
  (∀ w1, unseen w w1 → settings_ok zones (cstate w1) → returns (k true) w1 (mutation_ok zones saved w)) →
  returns (b ← run_setter (f v); k b) w (mutation_ok zones saved w).
Proof.
  intros Hf Hok Hno Hyes. apply returns_bind, returns_setter.
  pose proof (setter_ok v (cstate w) Hok) as Hs. pose proof (setter_refuses v (cstate w)) as Hr.
  destruct (f v (cstate w)) as [[] s]; simpl in *.
  - apply Hyes; [apply unseen_state, undisturbed_refl|by destruct w].
  - rewrite Hr by done. apply Hno. destruct w. apply undisturbed_refl.
Qed.

#[local] Hint Resolve undisturbed_refl unseen_state : buddy.

Lemma simple_setter_mutation f v msg key :
  GoodSetter zones f →
  mutates zones saved (b ← run_setter (f v); if negb b then reject msg else _commit h key).
Proof.
  intros Hf w Hok. apply setter_mutation; [done|done|..]; intros w1 Hu; simpl.
  - by apply reject_spec.
  - by apply commit_mutation.
Qed.

Lemma gpio_setter_mutation f v (rej : PyM W SettingsResult) key :
  GoodSetter zones f → (∀ w w1, undisturbed w w1 → settings_ok zones (cstate w) →
                                returns rej w1 (mutation_ok zones saved w)) →
  mutates zones saved (b ← run_setter (f v); if negb b then rej else r ← _commit h key; _ ← _apply_gpio h; mret r).
Proof.
  intros Hf Hrej w Hok. apply setter_mutation; [done|done|..]; intros w1 Hu; simpl.
  - by apply Hrej.
  - by apply commit_gpio_mutation.
Qed.

Lemma reject_mutates msg : mutates (E := E) zones saved (reject msg).
Proof. intros w Hok. apply reject_spec; auto with buddy. Qed.

(** A direct assignment, then commit. *)
Lemma update_mutates f key :
  (∀ s, settings_ok zones s → settings_ok zones (f s)) →
  mutates zones saved (_ ← update f; _commit h key).
Proof.
  intros Hf w Hok. apply returns_bind, returns_update, commit_mutation.
  - destruct (undisturbed_refl w). auto with buddy.
  - destruct w. by apply Hf.
Qed.

(** A live apply that must succeed, then a setter, then commit. *)
Lemma live_mutates {A} c (f : @Hook E A) a msg g v key :
  quiet f → c ≠ CPersist → c ≠ CPublish → GoodSetter zones g →
  mutates zones saved (done ← guarded (call_hook c f a);
                 if negb done then reject msg else _ ← run_setter (g v); _commit h key).
Proof.
  intros Hq ?? Hg w Hok. apply returns_bind, returns_guarded; [done|]. intros b s e Hs.
  assert (undisturbed w (after c w s e)) as Hu by (apply undisturbed_after; auto with buddy).
  destruct b; simpl; [|by apply reject_spec].
  apply returns_bind, returns_setter, commit_mutation.
  - destruct Hu as [Hu _]. auto with buddy.
  - apply setter_ok. by eapply undisturbed_ok.
Qed.

Lemma set_rotation_mutates v : mutates zones saved (co_set_rotation h v).
Proof.
  unfold co_set_rotation. destruct (valid_rotation v); [|apply reject_mutates].
  pose proof (hook_rotation zones saved (h := h)) as Hr. destruct (rotation_apply h); [|apply reject_mutates].
  by apply live_mutates; [..|apply set_rotation_good].
Qed.

Lemma set_timezone_mutates v : mutates zones saved (co_set_timezone zones h v).
Proof.
  unfold co_set_timezone. destruct (as_str v) as [[|c n]|] eqn:Ev; [| |apply reject_mutates].
  - intros w Hok. apply returns_bind, returns_setter, commit_mutation.
    + destruct (undisturbed_refl w). auto with buddy.
    + destruct w. apply (setter_ok (f := set_timezone zones)). done.
  - destruct (negb (valid_zone_name zones v)); [apply reject_mutates|].
    pose proof (hook_timezone zones saved (h := h)) as Ht. destruct (timezone_apply h); [|apply reject_mutates].
    by apply live_mutates; [..|apply set_timezone_good].
Qed.

Lemma set_snapshot_upload_mutates v : mutates zones saved (co_set_snapshot_upload h v).
Proof.
  unfold co_set_snapshot_upload. destruct (as_bool v) as [b|]; [|apply reject_mutates].
  apply update_mutates. intros s Hok. 
  exact (setter_ok (f := when_bool (λ b (s : CameraState), s{{snapshot_upload_enabled := b}})) (VBool b) s Hok).
Qed.

Lemma set_timelapse_fps_mutates v : mutates zones saved (co_set_timelapse_fps h v).
Proof.
  unfold co_set_timelapse_fps. destruct (as_int v) as [z|]; [|apply reject_mutates].
  destruct (in_range FPS_MIN FPS_MAX z) eqn:Hz; simpl; [|apply reject_mutates].
  apply update_mutates. intros s Hok. apply in_range_spec in Hz.
  pose proof (setter_ok (f := when_int (in_range FPS_MIN FPS_MAX)
    (λ z (s : CameraState), s{{timelapse_fps := z}})) (VInt z) s Hok) as Hs.
  by rewrite when_int_valid in Hs.
Qed.

#[export] Instance apply_enable_good : GoodSetter zones
  (λ v, match v with VStr a => apply_enable a | _ => λ s, (false, s) end).
Proof.
  split; intros v s; destruct v; try done; unfold apply_enable; repeat case_match; simpl; try done;
    intros Hok;
    [exact (setter_ok (f := when_bool (λ b (s : CameraState), s{{timelapse_enabled := b}})) (VBool true) s Hok)
    |exact (setter_ok (f := when_bool (λ b (s : CameraState), s{{timelapse_enabled := b}})) (VBool false) s Hok)].
Qed.

(** A world from which [_commit] may follow. *)
Definition ready (w w1 : W) : Prop := unseen w w1 ∧ settings_ok zones (cstate w1).

Lemma ready_after w w1 c s e :
  ready w w1 → c ≠ CPersist → c ≠ CPublish →
  persistable_state s = persistable_state (cstate w1) → ready w (after c w1 s e).
Proof.
  intros [Hu Hok] ???. split; [by apply unseen_after|]. by eapply settings_ok_durable.
Qed.
Lemma ready_durable w w1 s :
  ready w w1 → persistable_state s = persistable_state (cstate w1) → ready w (w1{{cstate := s}}).
Proof.
  intros [Hu Hok] Hs. split; [by apply unseen_state|].
  destruct w1. by eapply settings_ok_durable.
Qed.

(** An optional service command between two steps. *)
Lemma optional_command {A} c (f : option (@Hook E A)) a w w1 (Q : unit → W → Prop) :
  quiet_opt f → c ≠ CPersist → c ≠ CPublish → ready w w1 →
  (∀ w2, ready w w2 → Q tt w2) →
  returns (match f with None => mret tt | Some f => ignored (call_hook c f a) end) w1 Q.
Proof.
  intros Hq ?? Hr HQ. destruct f as [f|]; [|by apply returns_ret, HQ].
  apply returns_ignored; [done|]. intros s e Hs. by apply HQ, ready_after.
Qed.

Lemma runtime_after_command_spec m w w1 (Q : bool → W → Prop) :
  ready w w1 → (∀ b w2, ready w w2 → Q b w2) → returns (runtime_after_command h m) w1 Q.
Proof.
  intros Hr HQ. unfold runtime_after_command. apply returns_bind.
  pose proof (hook_rtsp_query zones saved (h := h)) as Hq. destruct (rtsp_query h) as [q|].
  - unfold returns at 1, try_except, call_hook. specialize (Hq tt (cstate w1) (cenv w1)).
    destruct (q tt (cstate w1, cenv w1)) as [[v|ex] [s e]]; simpl in *; eexists _, _;
      (split; [done|]); by apply returns_ret, HQ, (ready_after w w1 CRtspQuery).
  - by apply returns_ret, returns_ret, HQ.
Qed.

Lemma set_rtsp_mode_mutates v : mutates zones saved (co_set_rtsp_mode h v).
Proof.
  intros w Hok. unfold co_set_rtsp_mode. apply returns_bind, returns_caught. unfold rtsp_apply_mode.
  destruct (as_int v) as [m|]; [|apply returns_ret; apply reject_spec; auto with buddy].
  destruct (in_range 1 2 m) eqn:Hm; cbn [negb]; [|apply returns_ret; apply reject_spec; auto with buddy].
  apply returns_bind, returns_update.
  assert (ready w (w{{cstate := (cstate w){{rtsp_mode := m}}}})) as Hr.
  { split; [apply unseen_state, undisturbed_refl|]. apply in_range_spec in Hm.
    pose proof (setter_ok (f := when_int (in_range 1 2) (λ z (s : CameraState), s{{rtsp_mode := z}}))
      (VInt m) (cstate w) Hok) as Hs. rewrite when_int_valid in Hs by done. by destruct w. }
  revert Hr. generalize (w{{cstate := (cstate w){{rtsp_mode := m}}}}) as w1. intros w1 Hr.
  apply returns_bind.
  assert (∀ w2, ready w w2 →
    returns (_ ← ignored (call_hook CRtspWrite (rtsp_write h) m);
             running ← runtime_after_command h m;
             _ ← update (λ s : CameraState, mark_info_dirty (s{{rtsp_running := running}}));
             mret true) w2
      (λ b w3, returns (if negb b then reject (u "invalid rtsp mode") else _commit h [u "rtsp_mode"]) w3
                 (mutation_ok zones saved w))) as Hrest.
  { intros w2 Hr2. apply returns_bind, returns_ignored; [apply Hh|]. intros s e Hs.
    apply returns_bind. eapply runtime_after_command_spec; [by apply ready_after|]. intros b w3 Hr3.
    apply returns_bind, returns_update, returns_ret. simpl.
    assert (ready w (w3{{cstate := mark_info_dirty ((cstate w3){{rtsp_running := b}})}})) as [??].
    { apply ready_durable; [done|]. by destruct (cstate w3). }
    by apply commit_mutation. }
  pose proof (hook_rtsp_start zones saved (h := h)). pose proof (hook_rtsp_stop zones saved (h := h)).
  destruct (m =? RTSP_ENABLED); by eapply optional_command; [..|exact Hrest].
Qed.

Lemma webrtc_move_spec c f st w w1 (Q : bool → W → Prop) :
  quiet_opt f → c ≠ CPersist → c ≠ CPublish → undisturbed w w1 →
  (∀ b w2, undisturbed w w2 → Q b w2) → returns (webrtc_move c f st) w1 Q.
Proof.
  intros Hq ?? Hu HQ.
  assert (∀ w2, undisturbed w w2 →
    returns (_ ← update (λ s : CameraState, s{{webrtc_status := st}}); mret true) w2 Q) as Hup.
  { intros w2 [Hu2 Hp2]. apply returns_bind, returns_update, returns_ret, HQ.
    split; [by apply unseen_state|]. rewrite <-Hp2. by destruct w2 as [[]]. }
  unfold webrtc_move. destruct f as [f|]; [|by apply Hup]. apply returns_bind.
  specialize (Hq tt (cstate w1) (cenv w1)).
  unfold returns at 1, try_except, mbind, pym_bind, call_hook.
  destruct (f tt (cstate w1, cenv w1)) as [[v|ex] [s e]]; simpl in *; eexists _, _;
    (split; [done|]); simpl; [apply Hup|apply returns_ret, HQ];
    by apply (undisturbed_after w w1 c).
Qed.

Lemma set_webrtc_mode_mutates v : mutates zones saved (co_set_webrtc_mode h v).
Proof.
  intros w Hok. unfold co_set_webrtc_mode, webrtc_apply_mode.
  destruct (as_int v) as [m|]; [|by apply reject_mutates].
  destruct (in_range 0 1 m) eqn:Hm; cbn [negb]; [|by apply reject_mutates].
  apply returns_bind, returns_caught, returns_bind, returns_read, returns_bind.
  assert (∀ (b : bool) w1, undisturbed w w1 →
    returns (if negb b then mret false
             else _ ← update (λ s : CameraState, mark_info_dirty (s{{webrtc_mode := m}})); mret true) w1
      (λ b w3, returns (if negb b then reject (u "webrtc service apply failed")
                        else _commit h [u "webrtc_mode"]) w3 (mutation_ok zones saved w))) as Hrest.
  { intros b w1 Hu. destruct b; simpl; [|apply returns_ret; simpl; by apply reject_spec].
    apply returns_bind, returns_update, returns_ret. simpl. apply commit_mutation.
    - apply unseen_state, Hu.
    - apply in_range_spec in Hm. pose proof (undisturbed_ok _ _ Hu Hok) as Hok1.
      pose proof (setter_ok (f := when_int (in_range 0 1) (λ z (s : CameraState), s{{webrtc_mode := z}}))
        (VInt m) (cstate w1) Hok1) as Hs. rewrite when_int_valid in Hs by done.
      eapply settings_ok_durable; [|exact Hs]. by destruct w1 as [[]]. }
  pose proof (hook_webrtc_start zones saved (h := h)). pose proof (hook_webrtc_stop zones saved (h := h)).
  repeat case_match; [by eapply webrtc_move_spec; [..|exact Hrest]; auto with buddy..|].
  apply returns_ret, Hrest. auto with buddy.
Qed.

(** Under the contract, [handle_quality] returns (or raises before any effect):
    refused with nothing disturbed, or accepted with a well-formed tier. *)
Lemma handle_quality_spec raw pf live w :
  quality_apply_ok zones live → settings_ok zones (cstate w) →
  returns (try_except any_exception (handle_quality h raw pf live (quality (cstate w)) (turn_online (cstate w)))
             (λ _, mret false)) w
    (λ b w1, if b : bool then ready w w1 else undisturbed w w1).
Proof.
  intros Hl Hok. unfold handle_quality.
  destruct (raw_to_enum raw) as [[q|]|]; [|exists false, w; split; [done|apply undisturbed_refl]..].
  destruct (quality_change_allowed _ _ _); cbn [negb];
    [|exists false, w; split; [done|apply undisturbed_refl]].
  destruct (Hl raw (cstate w) (cenv w)) as [Hlok Href].
  unfold returns, try_except, mbind, pym_bind, call_hook at 1.
  destruct (live raw (cstate w, cenv w)) as [[v|ex] [s e]]; cbn in Hlok, Href;
    [|exists false, (after CQualityApply w s e); split; [done|];
      by apply undisturbed_after; [apply undisturbed_refl|done|done|apply Href]].
  destruct (truthy v) eqn:Hv; cbn [negb];
    [|exists false, (after CQualityApply w s e); split; [done|];
      by apply undisturbed_after; [apply undisturbed_refl|done|done|apply Href]].
  assert (ready w (after CQualityApply w s e)) as Hr.
  { split; [apply unseen_after; [apply undisturbed_refl|done|done]|by apply Hlok]. }
  destruct pf; [|by exists true, (after CQualityApply w s e)].
  pose proof (hook_quality_persist zones saved (h := h)) as Hp. unfold quality_persist_total in Hp.
  destruct (quality_persist h) as [p|]; [|done]. destruct Hp as [Hq Ht].
  specialize (Hq q s e). specialize (Ht q s e) as [pv Hpv]. unfold call_hook. simpl in *.
  destruct (p q (s, e)) as [r [s' e']]. simpl in *. subst r. eexists true, _. split; [done|].
  by apply (ready_after w (after CQualityApply w s e) CQualityPersist).
Qed.

Lemma set_quality_mutates raw : mutates zones saved (co_set_quality h raw true).
Proof.
  intros w Hok. unfold co_set_quality. pose proof (hook_quality zones saved (h := h)) as Hl.
  destruct (quality_apply h) as [live|]; [|by apply reject_mutates].
  apply returns_bind, returns_read, returns_bind.
  eapply returns_weaken; [by apply handle_quality_spec|]. intros b w1 Hw1. destruct b; cbn [negb].
  - destruct Hw1. by apply commit_mutation.
  - apply returns_bind, returns_bind, returns_read, returns_ret. by apply reject_spec.
Qed.

Lemma set_timelapse_enabled_mutates a : mutates zones saved (co_set_timelapse_enabled h a).
Proof.
  apply (simple_setter_mutation
    (λ v, match v with VStr a => apply_enable a | _ => λ s, (false, s) end) (VStr a)). apply _.
Qed.

Lemma mutate_mutates f v : mutates zones saved (mutate zones h f v).
Proof.
  destruct f; cbn [mutate]; try case_match; try apply reject_mutates;
    try (apply simple_setter_mutation; apply _).
  - apply set_quality_mutates.
  - apply set_rotation_mutates.
  - apply set_snapshot_upload_mutates.
  - apply set_timelapse_enabled_mutates.
  - apply set_timelapse_fps_mutates.
  - unfold co_set_timelapse_trigger. case_match; [|apply reject_mutates].
    apply gpio_setter_mutation; [apply _|intros; by apply reject_spec].
  - unfold co_set_timelapse_gpio_pin. destruct (negb (pin_shape v)); [apply reject_mutates|].
    apply gpio_setter_mutation; [apply _|intros; case_match; by apply reject_spec].
  - unfold co_set_timelapse_gpio_record_pin. destruct (negb (pin_shape v)); [apply reject_mutates|].
    apply gpio_setter_mutation; [apply _|intros; by apply reject_spec].
  - apply set_timezone_mutates.
  - apply set_rtsp_mode_mutates.
  - apply set_webrtc_mode_mutates.
Qed.

Lemma apply_mutation_mutates field v : mutates zones saved (apply_mutation zones h field v).
Proof.
  unfold apply_mutation. destruct (as_str field); [|apply reject_mutates].
  destruct (dict_get _ _); [|apply reject_mutates].
  intros w Hok. apply returns_caught. by apply mutate_mutates.
Qed.
End Mutations.
