(* ===== verification/QualityControl.v ===== *)
(** [app/quality.py], [quality_control.apply_live_quality], [settings_store.py] and
    [settings_coordinator.persist_state]: the files behind the quality tier and the
    durable settings, wired into the coordinator as [main.py] does. *)
From S2P Require Import Prelude PyValue CameraState Coordinator.

(** ** The quality environment files *)

(** [CAM_WIDTH=w\nCAM_HEIGHT=h\n]. *)
Definition env_text (res : Z * Z) : pystr :=
  u "CAM_WIDTH=" ++ str_of_int res.1 ++ [10] ++ u "CAM_HEIGHT=" ++ str_of_int res.2 ++ [10].
Definition tier_size (q : Z) : Z * Z :=
  match dict_get q RESOLUTIONS with Some r => r | None => default_resolution end.
(** What [write_live] and [write_current] put in their file. *)
Definition tier_text (q : Z) : pystr := env_text (tier_size q).

(** The lines of a text file, newline included in none. *)
Fixpoint split_lines (cur : pystr) (s : pystr) : list pystr :=
  match s with
  | [] => match cur with [] => [] | _ => [rev cur] end
  | c :: s' => if c =? 10 then rev cur :: split_lines [] s' else split_lines (c :: cur) s'
  end.
(** [line.split('=', 1)] of a line that has a [=]. *)
Fixpoint split_eq (cur : pystr) (s : pystr) : option (pystr * pystr) :=
  match s with
  | [] => None
  | c :: s' => if c =? 61 then Some (rev cur, s') else split_eq (c :: cur) s'
  end.
Definition _read_env (text : pystr) : list (pystr * pystr) :=
  foldl (λ env line, match split_eq [] (strip line) with
                     | Some (k, v) => dict_set k v env
                     | None => env
                     end) [] (split_lines [] text).

(** The body of the [try] of [read_current]; [None] is any exception. *)
Definition read_size `{UnicodeDB} (text : pystr) : option (Z * Z) :=
  let env := _read_env text in
  w ← dict_get (u "CAM_WIDTH") env ≫= int_of_str;
  h ← dict_get (u "CAM_HEIGHT") env ≫= int_of_str;
  Some (w, h).
Definition tier_of (size : Z * Z) : Z :=
  match find (λ kv : Z * (Z * Z), bool_decide (kv.2 = size)) RESOLUTIONS with
  | Some kv => kv.1
  | None => DEFAULT_QUALITY
  end.

(** [read_current]: the live override, then the persisted file, then the default.
    A file that cannot be read is [None]. *)
Fixpoint first_size `{UnicodeDB} (files : list (option pystr)) : option (Z * Z) :=
  match files with
  | [] => None
  | f :: files' => match f ≫= read_size with Some r => Some r | None => first_size files' end
  end.
Definition read_current `{UnicodeDB} (live persisted : option pystr) : Z * (Z * Z) :=
  match first_size [live; persisted] with
  | Some size => (tier_of size, size)
  | None => (DEFAULT_QUALITY, default_resolution)
  end.

(** ** The live change *)

(** What the operating system does on one call: a failing read; a failing write
    or restore, with what it leaves in the file; the return code of the restart. *)
Record live_io := {
  io_read_fails : bool;
  io_write : option (option pystr);
  io_restart : res Z;
  io_restore : option (option pystr);
}.

Definition _restore_live (io : live_io) (previous live : option pystr) : option pystr :=
  match io_restore io with None => previous | Some content => content end.

Definition apply_live_quality (io : live_io) (raw : pyval) (s : CameraState) (live : option pystr)
    : res bool * (CameraState * option pystr) :=
  match raw_to_enum raw with
  | Raise e => (Raise e, (s, live))
  | Ret None => (Ret false, (s, live))
  | Ret (Some qenum) =>
      if io_read_fails io then (Ret false, (s, live)) else
      let previous := live in
      match io_write io with
      | Some content => (Ret false, (s, _restore_live io previous content))
      | None =>
          let live := Some (tier_text qenum) in
          match io_restart io with
          | Ret 0 => (Ret true, (s{{quality := qenum}}, live))
          | _ => (Ret false, (s, _restore_live io previous live))
          end
      end
  end.

(** ** The settings store *)

Definition store_version : pyval * pyval := (VStr (u "version"), VInt 1).

(** [save]: the rename is atomic, so a failed write leaves the old file. *)
Definition save (available write_ok : bool) (data : list (pyval * pyval)) (f : json_file)
    : bool * json_file :=
  if negb available then (false, f)
  else if write_ok then (true, Json (VDict (data ++ [store_version]))) else (false, f).

(** [load]: a corrupt file or a non-object is moved aside. *)
Definition load (f : json_file) : list (pyval * pyval) * json_file :=
  match f with
  | Missing => ([], Missing)
  | Json (VDict d) => (d, f)
  | _ => ([], Missing)
  end.

(** [settings_coordinator.persist_state]. *)
Definition persist_state (available write_ok : bool) (s : CameraState) (f : json_file)
    : bool * json_file :=
  if negb available then (false, f) else save available write_ok (persistable_state s) f.

(** ** The wiring of [main.py] *)

Record env := {
  live_file : option pystr;
  quality_file : option pystr;
  state_json : json_file;
  live_outcome : live_io;
}.

Definition main_quality_apply : @Hook env pyval := λ raw '(s, e),
  let '(r, (s', live)) := apply_live_quality (live_outcome e) raw s (live_file e) in
  (match r with Ret b => Ret (VBool b) | Raise x => Raise x end, (s', e{{live_file := live}})).

(** [quality_control.persist_quality]; [fails] when the file cannot be written. *)
Definition main_quality_persist (fails : bool) : @Hook env Z := λ q '(s, e),
  if fails then (Raise OSError, (s, e))
  else (Ret VNone, (s, e{{quality_file := Some (tier_text q)}})).

Definition main_persist (available write_ok : bool) : @Hook env unit := λ _ '(s, e),
  let '(b, f) := persist_state available write_ok s (state_json e) in
  (Ret (VBool b), (s, e{{state_json := f}})).

Definition main_publish : @Hook env unit := λ _ '(s, e), (Ret VNone, (mark_info_dirty s, e)).

(** The remaining hooks (systemd, GPIO, time zone) come from [base]. *)
Definition main_hooks (quality_fails available write_ok : bool) (base : hooks env) : hooks env :=
  {| persist := main_persist available write_ok; publish := main_publish;
     quality_apply := Some main_quality_apply;
     quality_persist := Some (main_quality_persist quality_fails);
     rotation_apply := rotation_apply base; rtsp_start := rtsp_start base;
     rtsp_stop := rtsp_stop base; rtsp_query := rtsp_query base; rtsp_write := rtsp_write base;
     webrtc_start := webrtc_start base; webrtc_stop := webrtc_stop base;
     gpio_apply := gpio_apply base; timezone_apply := timezone_apply base |}.

(** ** Reading back the tier files *)

Section Ascii.
Context `{UnicodeDB}.

Lemma tier_text_read q :
  1 ≤ q ≤ 3 → read_size (tier_text q) = Some (tier_size q) ∧ tier_of (tier_size q) = q.
Proof.
  intros Hq. assert (q = 1 ∨ q = 2 ∨ q = 3) as Hc by lia.
  assert (∀ k d, dict_get k (_read_env (tier_text q)) = Some d →
            ascii_text (strip d) = true → int_of_str d = @int_of_str ascii_db d) as Hint.
  { intros. by apply int_of_str_ascii. }
  split; [|by destruct Hc as [->|[->| ->]]]. unfold read_size.
  destruct Hc as [->|[->| ->]];
    (destruct (dict_get (u "CAM_WIDTH") _) as [w|] eqn:Hw; [|by vm_compute in Hw]);
    (destruct (dict_get (u "CAM_HEIGHT") _) as [h|] eqn:Hh; [|by vm_compute in Hh]);
    vm_compute in Hw, Hh; simplify_eq; simpl;
    rewrite !(@int_of_str_ascii H) by reflexivity; reflexivity.
Qed.
End Ascii.

(** A tier written to the persisted file is read back, and a live override
    wins over it: [read_current] returns the tier and its resolution. *)
Theorem quality_file_roundtrip `{UnicodeDB} q live :
  1 ≤ q ≤ 3 →
  read_current None (Some (tier_text q)) = (q, tier_size q) ∧
  read_current (Some (tier_text q)) live = (q, tier_size q).
Proof.
  intros Hq. destruct (tier_text_read q Hq) as [Hr Ht]. unfold read_current. simpl.
  by rewrite Hr, Ht.
Qed.

Lemma quality_file_roundtrip_witness : read_current None (Some (tier_text 2)) = (2, (1280, 720)).
Proof. apply (quality_file_roundtrip 2 None). lia. Defined.

(** ** The live change *)

(** A live quality change is all or nothing.  When it reports success the
    restart returned 0, the override file holds the new tier and the state has it;
    otherwise the state is the one before and, if the restore itself succeeds, so
    is the override file. *)
Theorem apply_live_quality_atomic io raw s live r s' live' :
  apply_live_quality io raw s live = (r, (s', live')) →
  match r with
  | Ret true => ∃ q, raw_to_enum raw = Ret (Some q) ∧ io_restart io = Ret 0 ∧
                     s' = s{{quality := q}} ∧ live' = Some (tier_text q)
  | _ => s' = s ∧ (io_restore io = None → live' = live)
  end.
Proof.
  unfold apply_live_quality, _restore_live. intros H.
  repeat case_match; simplify_eq; eauto 10; (split; [done|congruence]).
Qed.

Definition failing_restart : live_io :=
  {| io_read_fails := false; io_write := None; io_restart := Ret 1; io_restore := None |}.

Lemma apply_live_quality_atomic_witness :
  (apply_live_quality failing_restart (VInt 5) initial_state (Some (u "CAM_WIDTH=1"))).2.2 = Some (u "CAM_WIDTH=1").
Proof.
  apply (apply_live_quality_atomic failing_restart (VInt 5) initial_state (Some (u "CAM_WIDTH=1")) (Ret false)
    initial_state); reflexivity.
Defined.

(** ** The wiring satisfies the coordinator's contract *)

Lemma raw_to_enum_tier raw q : raw_to_enum raw = Ret (Some q) → 1 ≤ q ≤ 3.
Proof.
  unfold raw_to_enum. case_match; [|done]. simpl. repeat case_match; simpl; intros; simplify_eq; lia.
Qed.

(** The part of the live change that the coordinator sees. *)
Lemma apply_live_quality_state io raw s live r s' live' :
  apply_live_quality io raw s live = (r, (s', live')) →
  match r with
  | Ret true => ∃ q, raw_to_enum raw = Ret (Some q) ∧ s' = s{{quality := q}}
  | _ => s' = s
  end.
Proof. unfold apply_live_quality. intros H. repeat case_match; simplify_eq; eauto. Qed.

Lemma main_quality_apply_ok zones : quality_apply_ok zones main_quality_apply.
Proof.
  intros raw s e. unfold main_quality_apply.
  destruct (apply_live_quality (live_outcome e) raw s (live_file e)) as [r [s' live]] eqn:Ha. simpl.
  apply apply_live_quality_state in Ha. destruct r as [[]|]; simpl.
  - destruct Ha as (q & Hq%raw_to_enum_tier & ->). split; [|done]. intros Hok.
    pose proof (setter_ok (f := set_quality) (VInt q) s Hok) as Hs. by rewrite set_quality_valid in Hs.
  - by rewrite Ha.
  - by rewrite Ha.
Qed.

(** The document in [state.json]. *)
Definition stored (e : env) (d : list (pyval * pyval)) : Prop :=
  state_json e = Json (VDict (d ++ [store_version])).

(** The same, when the store is mounted and the write works; a failed write is only
    logged. *)
Definition stored_if (available write_ok : bool) (e : env) (d : list (pyval * pyval)) : Prop :=
  available && write_ok = true → stored e d.

(** What [main] relies on of the other hooks. *)
Class BaseHooksOk (zones : list pystr) (base : hooks env) : Prop := {
  base_rotation : quiet_opt (rotation_apply base);
  base_rtsp_start : quiet_opt (rtsp_start base);
  base_rtsp_stop : quiet_opt (rtsp_stop base);
  base_rtsp_query : quiet_opt (rtsp_query base);
  base_rtsp_write : quiet (rtsp_write base);
  base_webrtc_start : quiet_opt (webrtc_start base);
  base_webrtc_stop : quiet_opt (webrtc_stop base);
  base_timezone : quiet_opt (timezone_apply base);
  base_gpio : match gpio_apply base with
              | Some f => ∀ s e,
                  (settings_ok zones s → settings_ok zones (f tt (s, e)).2.1) ∧
                  (stored e (persistable_state s) →
                   stored (f tt (s, e)).2.2 (persistable_state (f tt (s, e)).2.1))
              | None => True
              end;
}.

#[export] Instance main_hooks_ok zones available write_ok base `{!BaseHooksOk zones base} :
  HooksOk zones (stored_if available write_ok) (main_hooks false available write_ok base).
Proof.
  split; simpl; try apply base_rotation; try apply base_rtsp_start; try apply base_rtsp_stop;
    try apply base_rtsp_query; try apply base_rtsp_write; try apply base_webrtc_start;
    try apply base_webrtc_stop; try apply base_timezone; try done.
  - intros a s e. unfold main_persist. simpl. by destruct (persist_state _ _ _ _).
  - intros s e [-> ->]%andb_true_iff. done.
  - apply main_quality_apply_ok.
  - split; [done|]. intros q s e. by exists VNone.
  - pose proof base_gpio as Hg. destruct (gpio_apply base) as [f|]; [|done].
    intros s e. destruct (Hg s e) as [Hok Hst]. split; [done|]. intros Hs Hw. by apply Hst, Hs.
Qed.

(** ** The coordinator, with its hooks *)

(** Only the change of the quality uses the hook that writes its durable file. *)
Lemma mutate_without_quality zones fails fails' available write_ok base f value : f ≠ MQuality →
  mutate zones (main_hooks fails available write_ok base) f value = mutate zones (main_hooks fails' available write_ok base) f value.
Proof. by destruct f. Qed.
(** The live change was made, but its durable file could not be written. *)
Definition tier_ahead (w w' : cworld env) (l : list call) : Prop :=
  l = [CQualityApply; CQualityPersist] ∧ ∃ q, 1 ≤ q ≤ 3 ∧ cstate w' = (cstate w){{quality := q}}.
Lemma unwritable_quality available write_ok base raw (w : cworld env) :
  ∃ r w', co_set_quality (main_hooks true available write_ok base) (VInt raw) true w = (Ret r, w') ∧ ok r = false ∧
    result_state r = persistable_state (cstate w') ∧
    ∃ l, clog w' = clog w ++ l ∧ visible l = [] ∧ (cstate w' = cstate w ∨ tier_ahead w w' l).
Proof.
  unfold co_set_quality. cbn [quality_apply main_hooks]. unfold mbind at 1, pym_bind at 1, read_state at 1.
  assert (∀ w1 l, clog w1 = clog w ++ l → visible l = [] → cstate w1 = cstate w ∨ tier_ahead w w1 l →
    ∃ r w', (r ← _quality_reason (VInt raw); reject r) w1 = (Ret r, w') ∧ ok r = false ∧ result_state r = persistable_state (cstate w') ∧
    ∃ l, clog w' = clog w ++ l ∧ visible l = [] ∧ (cstate w' = cstate w ∨ tier_ahead w w' l)) as Hreject.
  { intros w1 l H1 H2 H3. do 2 eexists. split; [reflexivity|]. split; [done|]. split; [done|]. by exists l. }
  unfold mbind at 1, pym_bind at 1, try_except at 1, handle_quality. cbn [quality_persist main_hooks].
  destruct (raw_to_enum (VInt raw)) as [[q|]|] eqn:Hq; [|by apply (Hreject w []); [by rewrite app_nil_r| |left]..].
  destruct (quality_change_allowed _ _ _); cbn [negb]; [|by apply (Hreject w []); [by rewrite app_nil_r| |left]].
  unfold mbind at 1, pym_bind at 1, call_hook at 1, main_quality_apply at 1.
  destruct (apply_live_quality (live_outcome (cenv w)) (VInt raw) (cstate w) (live_file (cenv w))) as [[ok|e] [s live]] eqn:Hlive;
    pose proof (apply_live_quality_state _ _ _ _ _ _ _ Hlive) as Hs; [|by apply (Hreject _ [CQualityApply]); [| |left]].
  destruct ok; cbn [truthy negb]; [|by apply (Hreject _ [CQualityApply]); [| |left]].
  destruct Hs as (q' & Hq' & ->). unfold try_except, mbind at 1, pym_bind at 1, call_hook at 1. cbn -[_quality_reason reject].
  apply (Hreject _ [CQualityApply; CQualityPersist]); [cbn; by rewrite <-app_assoc|done|]. right. split; [done|]. exists q'. split; [by eapply raw_to_enum_tier|done].
Qed.
(** What a mutation leaves with [main]'s hooks: the settings well formed, and, when it is
    accepted, the document saved if the store takes it; when it is refused, the settings as
    before, except for the tier of a change of quality that could not be made durable. *)
Definition main_outcome (quality_change : Prop) (zones : list pystr) (fails available write_ok : bool)
    (w : cworld env) (r : SettingsResult) (w' : cworld env) : Prop :=
  settings_ok zones (cstate w') ∧ ∃ l, clog w' = clog w ++ l ∧
    if ok r then visible l = [CPersist; CPublish] ∧ stored_if available write_ok (cenv w') (persistable_state (cstate w'))
    else visible l = [] ∧ result_state r = persistable_state (cstate w') ∧
      (persistable_state (cstate w') = persistable_state (cstate w) ∨ fails = true ∧ quality_change ∧ tier_ahead w w' l).
Definition main_mutates (quality_change : Prop) (zones : list pystr) (fails available write_ok : bool)
    (m : PyM (cworld env) SettingsResult) : Prop :=
  ∀ w, settings_ok zones (cstate w) → ∃ r w', m w = (Ret r, w') ∧ main_outcome quality_change zones fails available write_ok w r w'.
Lemma plain_mutates P zones fails available write_ok m :
  mutates zones (stored_if available write_ok) m → main_mutates P zones fails available write_ok m.
Proof.
  intros Hm w Hok. destruct (Hm w Hok) as (r & w' & Hr & Hok' & l & Hl & Hcase). exists r, w'. split; [done|]. split; [done|]. exists l. split; [done|].
  destruct (ok r); [done|]. destruct Hcase as (H1 & H2 & H3). rewrite H2. auto.
Qed.
Lemma quality_mutates zones fails available write_ok base raw : BaseHooksOk zones base →
  main_mutates True zones fails available write_ok (co_set_quality (main_hooks fails available write_ok base) (VInt raw) true).
Proof.
  intros Hb. destruct fails; [|by apply plain_mutates; apply (set_quality_mutates zones (stored_if available write_ok) (main_hooks false available write_ok base))]. intros w Hok.
  destruct (unwritable_quality available write_ok base raw w) as (r & w' & Hrun & Hr & Hres & l & Hl & Hv & Hst). exists r, w'. split; [done|]. split.
  - destruct Hst as [->|(_ & q & Hq & ->)]; [done|]. pose proof (setter_ok (f := set_quality) (VInt q) (cstate w) Hok) as Hs.
    rewrite set_quality_valid in Hs; [exact Hs|lia].
  - exists l. split; [done|]. rewrite Hr. split; [done|]. split; [done|]. destruct Hst as [->|Hst]; [by left|right]. by split.
Qed.
Definition quality_field : pyval := VStr (u "quality").
Lemma quality_name_only name : dict_get name MUTATION_FIELDS = Some MQuality → name = u "quality".
Proof. unfold MUTATION_FIELDS. simpl. intros. repeat case_decide; simplify_eq; done. Qed.
Lemma main_mutation_spec zones fails available write_ok base field value : BaseHooksOk zones base →
  main_mutates (field = quality_field) zones fails available write_ok (apply_mutation zones (main_hooks fails available write_ok base) field value).
Proof.
  intros Hb. unfold apply_mutation.
  destruct (as_str field) as [name|] eqn:Hname; [|apply plain_mutates; eapply reject_mutates].
  destruct (dict_get name MUTATION_FIELDS) as [f|] eqn:Hf; [|apply plain_mutates; eapply reject_mutates].
  assert (f = MQuality ∨ f ≠ MQuality) as [->|Hne] by (destruct f; auto).
  - assert (field = quality_field) as Hq by (destruct field; try done; injection Hname as ->; unfold quality_field; f_equal; by apply quality_name_only).
    unfold try_except. cbn [mutate]. destruct (named _QUALITY_RAW value) as [raw|] eqn:Hraw; intros w Hok.
    + destruct (quality_mutates zones fails available write_ok base raw Hb w Hok) as (r & w' & Hrun & Hok' & l & Hl & Hcase).
      exists r, w'. split; [by rewrite Hrun|]. split; [done|]. exists l. split; [done|]. destruct (ok r); [done|].
      destruct Hcase as (H1 & H2 & [H3|(H3 & _ & H4)]); auto 10.
    + destruct (plain_mutates (field = quality_field) zones fails available write_ok (reject (u "quality must be one of sd, hd, fhd")) (reject_mutates _ _ _) w Hok)
        as (r & w' & Hrun & Ho). exists r, w'. by rewrite Hrun.
  - rewrite (mutate_without_quality zones fails false) by done. apply plain_mutates. intros w Hok. apply returns_caught.
    by apply (mutate_mutates zones (stored_if available write_ok) (main_hooks false available write_ok base)).
Qed.

(** C2: for any field name and any value, and whether or not the store is mounted, its write
    works and the durable quality file can be written, a UI mutation returns (never raises)
    and keeps the settings well formed.  Accepted, it persisted once and then published once,
    and the saved document is the state it leaves, if the store is mounted and the write works.
    Rejected, it persisted and published nothing, the result carries the settings as they then
    are, and these are as before, with one exception: a change of quality whose durable file
    cannot be written leaves the new tier. *)
Theorem apply_mutation_safe zones quality_fails available write_ok base field value w :
  BaseHooksOk zones base → settings_ok zones (cstate w) →
  ∃ r w', apply_mutation zones (main_hooks quality_fails available write_ok base) field value w = (Ret r, w') ∧
    settings_ok zones (cstate w') ∧
    ∃ l, clog w' = clog w ++ l ∧
      if ok r
      then visible l = [CPersist; CPublish] ∧
           (available && write_ok = true →
            state_json (cenv w') = Json (VDict (persistable_state (cstate w') ++ [store_version])))
      else visible l = [] ∧ result_state r = persistable_state (cstate w') ∧
           (persistable_state (cstate w') = persistable_state (cstate w) ∨
            quality_fails = true ∧ field = quality_field ∧ tier_ahead w w' l).
Proof. intros. by apply main_mutation_spec. Qed.

(** A base without services, for running the model. *)
Definition no_services : hooks env :=
  {| persist := λ _ se, (Ret VNone, se); publish := λ _ se, (Ret VNone, se);
     quality_apply := None; quality_persist := None; rotation_apply := None; rtsp_start := None;
     rtsp_stop := None; rtsp_query := None; rtsp_write := λ _ se, (Ret (VBool true), se);
     webrtc_start := None; webrtc_stop := None; gpio_apply := None; timezone_apply := None |}.
#[export] Instance no_services_ok zones : BaseHooksOk zones no_services.
Proof. by split. Qed.

Definition working_io : live_io :=
  {| io_read_fails := false; io_write := None; io_restart := Ret 0; io_restore := None |}.
Definition start_world : cworld env :=
  {| cstate := initial_state; clog := [];
     cenv := {| live_file := None; quality_file := None; state_json := Missing; live_outcome := working_io |} |}.

Lemma apply_mutation_safe_witness :
  ∃ r w', apply_mutation [] (main_hooks false true true no_services)
            (VStr (u "quality")) (VStr (u "sd")) start_world = (Ret r, w') ∧ settings_ok [] (cstate w').
Proof.
  destruct (apply_mutation_safe [] false true true no_services (VStr (u "quality")) (VStr (u "sd")) start_world)
    as (r & w' & He & Hok & _).
  - apply no_services_ok.
  - apply initial_state_ok.
  - exists r, w'. split; [exact He|exact Hok].
Defined.

(** C30: if the store is mounted and its write works, what an accepted mutation saved survives a
    restart: loading [state.json] and restoring it into the start-up state gives back every
    durable setting, whether or not the durable quality file can be written. *)
Theorem accepted_mutation_survives_restart zones quality_fails available write_ok base field value w r w' :
  available && write_ok = true → BaseHooksOk zones base → settings_ok zones (cstate w) →
  apply_mutation zones (main_hooks quality_fails available write_ok base) field value w = (Ret r, w') → ok r = true →
  persistable_state (apply_persisted zones (VDict (load (state_json (cenv w'))).1) initial_state).2
  = persistable_state (cstate w').
Proof.
  intros Hstore Hb Hok Ha Hr.
  destruct (main_mutation_spec zones quality_fails available write_ok base field value Hb w Hok) as (r' & w'' & Ha' & Hok' & l & _ & Hl).
  rewrite Ha in Ha'. simplify_eq. rewrite Hr in Hl. destruct Hl as [_ Hl]. rewrite (Hl Hstore).
  cbn [load fst]. apply restore_settings; [done..|]. apply persistable_keys.
Qed.

Lemma accepted_mutation_survives_restart_witness :
  ∃ r w', apply_mutation [] (main_hooks false true true no_services)
            (VStr (u "snapshot_interval")) (VInt 60) start_world = (Ret r, w') ∧
    persistable_state (apply_persisted [] (VDict (load (state_json (cenv w'))).1) initial_state).2
    = persistable_state (cstate w').
Proof.
  do 2 eexists. split; [vm_compute; reflexivity|].
  eapply (accepted_mutation_survives_restart [] false true true no_services (VStr (u "snapshot_interval")) (VInt 60) start_world).
  - done.
  - apply no_services_ok.
  - apply initial_state_ok.
  - vm_compute. reflexivity.
  - reflexivity.
Defined.

(** The exception to the safety of a mutation.  When the live change works but the durable quality
    file cannot be written, the mutation is rejected and not saved, although the
    tier of the shared state has already changed and the encoder was restarted. *)
Theorem quality_persist_failure_keeps_new_tier zones base w raw q value :
  named _QUALITY_RAW value = Some raw → raw_to_enum (VInt raw) = Ret (Some q) →
  quality_change_allowed (quality (cstate w)) q (turn_online (cstate w)) = true →
  live_outcome (cenv w) = working_io →
  ∃ r w', apply_mutation zones (main_hooks true true true base) (VStr (u "quality")) value w = (Ret r, w') ∧
    ok r = false ∧ quality (cstate w') = q ∧ clog w' = clog w ++ [CQualityApply; CQualityPersist].
Proof.
  intros Hn Hq Hallow Hio. unfold apply_mutation. cbn [as_str].
  change (dict_get (u "quality") MUTATION_FIELDS) with (Some MQuality). cbn [mutate].
  rewrite Hn. unfold co_set_quality, try_except, mbind, pym_bind, read_state, handle_quality.
  cbn [quality_apply main_hooks]. rewrite Hq, Hallow. cbn [negb].
  unfold call_hook, main_quality_apply, apply_live_quality. rewrite Hq.
  destruct w as [s [lf qf sj lo] l]. cbn [cstate cenv live_outcome] in *. subst lo. cbn.
  unfold _quality_reason, reject, _result, read_state, mbind, pym_bind. cbn.
  eexists _, _. split; [reflexivity|]. cbn. rewrite <-app_assoc. by destruct s.
Qed.

Lemma quality_persist_failure_keeps_new_tier_witness :
  ∃ r w', apply_mutation [] (main_hooks true true true no_services) (VStr (u "quality")) (VStr (u "sd")) start_world
            = (Ret r, w') ∧ ok r = false ∧ quality (cstate w') = 1 ∧ clog w' = [CQualityApply; CQualityPersist].
Proof.
  apply (quality_persist_failure_keeps_new_tier [] no_services start_world 5 1 (VStr (u "sd"))); reflexivity.
Defined.
