(* ===== verification/Provisioning.v ===== *)
(** [app/provisioning.py] (the persisted state machine) and [app/boot_mode.py] (the
    decision it drives at boot).  The object in memory and the file on disk are the
    two halves of [pworld]; what the storage does on a call is the argument [io]. *)
From S2P Require Import Prelude PyValue.

(** ** States *)

Inductive prov_state :=
  | Factory | StorageReady | CameraValidated | Unclaimed | Claimed | Configured | Running
  | Recovery.
#[export] Instance prov_state_eq_dec : EqDecision prov_state.
Proof. solve_decision. Defined.

Definition STATES : list prov_state :=
  [Factory; StorageReady; CameraValidated; Unclaimed; Claimed; Configured; Running].
Definition ALL_STATES : list prov_state := STATES ++ [Recovery].

Definition state_name (s : prov_state) : pystr :=
  match s with
  | Factory => u "factory"
  | StorageReady => u "storage_ready"
  | CameraValidated => u "camera_validated"
  | Unclaimed => u "unclaimed"
  | Claimed => u "claimed"
  | Configured => u "configured"
  | Running => u "running"
  | Recovery => u "recovery"
  end.

(** [v in ALL_STATES]: the state that [v] names, if any. *)
Definition state_of (v : pyval) : option prov_state :=
  find (λ s, eq_str v (state_name s)) ALL_STATES.

Definition NEXT_STATE (s : prov_state) : option prov_state :=
  match s with
  | Factory => Some StorageReady
  | StorageReady => Some CameraValidated
  | CameraValidated => Some Unclaimed
  | Unclaimed => Some Claimed
  | Claimed => Some Configured
  | Configured => Some Running
  | Running | Recovery => None
  end.

(** [STATES.index]; [recovery] is not in the chain. *)
Definition index (s : prov_state) : option nat := fst <$> list_find (eq s) STATES.

(** ** Timestamps *)

(** [_format_now]: [moment] is the ISO text of the given or current time. *)
Definition _format_now (moment : pystr) (now : pyval) : pystr :=
  match now with
  | VStr ((_ :: _) as s) => s
  | _ => moment
  end.

(** ** The claim predicate *)

(** [isinstance(value, str) and bool(value.strip())] of a key of a section. *)
Definition section_text_set (section key : pystr) (secrets : pyval) : bool :=
  match secrets with
  | VDict d =>
      match get_key section d with
      | VDict d' =>
          match get_key key d' with
          | VStr s => match strip s with [] => false | _ => true end
          | _ => false
          end
      | _ => false
      end
  | _ => false
  end.
Definition _password_set : pyval → bool := section_text_set (u "admin") (u "password_hash").
Definition _token_set : pyval → bool := section_text_set (u "prusa") (u "token").

(** [reparse d] is the outcome of [parse_device(dumps_device(d))]. *)
Definition device_is_valid (reparse : pyval → res pyval) (device : pyval) : bool :=
  match device with
  | VDict (_ :: _) => match reparse device with Ret _ => true | Raise _ => false end
  | _ => false
  end.
Definition is_claimed (reparse : pyval → res pyval) (secrets device : pyval) : bool :=
  _password_set secrets && device_is_valid reparse device.

(** ** Facts *)

Record Facts := {
  f_storage_ready : pyval;
  f_camera_validated : pyval;
  f_admin_password_set : pyval;
  f_device_valid : pyval;
  f_prusa_token_set : pyval;
  f_camera_running : pyval;
  f_recovery_reason : pyval;
}.
Definition default_facts : Facts := {|
  f_storage_ready := VBool false; f_camera_validated := VBool false;
  f_admin_password_set := VBool false; f_device_valid := VBool false;
  f_prusa_token_set := VBool false; f_camera_running := VBool false;
  f_recovery_reason := VStr [] |}.

(** What the file system and the configuration loaders answer. *)
Record probe := {
  pr_available : bool;
  pr_isdir : bool;
  pr_isfile : bool;
  pr_device : res pyval;
  pr_secrets : res pyval;
}.

Definition observe_facts `{UnicodeDB} (p : probe) (camera_validated camera_running recovery_reason : pyval)
    : res Facts :=
  let facts device_valid secrets := Ret {|
    f_storage_ready := VBool (pr_available p && pr_isdir p);
    f_camera_validated := VBool (truthy camera_validated);
    f_admin_password_set := VBool (_password_set secrets);
    f_device_valid := VBool device_valid;
    f_prusa_token_set := VBool (_token_set secrets);
    f_camera_running := VBool (truthy camera_running);
    f_recovery_reason := VStr (_sanitize_reason recovery_reason) |} in
  let with_secrets device_valid :=
    match pr_secrets p with
    | Ret secrets => facts device_valid secrets
    | Raise ConfigError => facts device_valid (VDict [])
    | Raise e => Raise e
    end in
  if pr_isfile p
  then match pr_device p with
       | Ret _ => with_secrets true
       | Raise ConfigError => with_secrets false
       | Raise e => Raise e
       end
  else with_secrets false.

(** [facts] as the caller passes them. *)
Inductive facts_arg := IsFacts (f : Facts) | IsNone | IsDict (d : list (pyval * pyval)) | IsOther.

Definition fact_or (default : pyval) (key : pystr) (d : list (pyval * pyval)) : pyval :=
  match find (λ kv : pyval * pyval, eq_str kv.1 key) d with Some kv => kv.2 | None => default end.
Definition _coerce_facts (value : facts_arg) : Facts :=
  match value with
  | IsFacts f => f
  | IsNone | IsOther => default_facts
  | IsDict d => {|
      f_storage_ready := fact_or (VBool false) (u "storage_ready") d;
      f_camera_validated := fact_or (VBool false) (u "camera_validated") d;
      f_admin_password_set := fact_or (VBool false) (u "admin_password_set") d;
      f_device_valid := fact_or (VBool false) (u "device_valid") d;
      f_prusa_token_set := fact_or (VBool false) (u "prusa_token_set") d;
      f_camera_running := fact_or (VBool false) (u "camera_running") d;
      f_recovery_reason := fact_or (VStr []) (u "recovery_reason") d |}
  end.

Definition _milestone (f : Facts) : prov_state :=
  if negb (truthy (f_storage_ready f)) then Factory
  else if negb (truthy (f_camera_validated f)) then StorageReady
  else if negb (truthy (f_admin_password_set f) && truthy (f_device_valid f)) then Unclaimed
  else if negb (truthy (f_prusa_token_set f)) then Claimed
  else if negb (truthy (f_camera_running f)) then Configured
  else Running.

(** ** The machine *)

Record TransitionResult := {
  tr_ok : bool;
  tr_reason : pystr;
  tr_state : prov_state;
  tr_previous : option prov_state;
  tr_persisted : bool;
}.

Record ProvisioningState := {
  ps_state : prov_state;
  ps_reason : pystr;
  ps_updated_at : pystr;
  ps_last_good : option prov_state;
}.

Record pworld := { pv : ProvisioningState; disk : json_file }.

(** Whether [/data] is mounted and the atomic write works, and the clock. *)
Record store_io := { io_available : bool; io_write_ok : bool; io_moment : pystr }.

Definition fresh : ProvisioningState :=
  {| ps_state := Factory; ps_reason := []; ps_updated_at := []; ps_last_good := None |}.

Section Machine.
Context `{UnicodeDB}.

Definition ps_load (f : json_file) : ProvisioningState :=
  match f with
  | Missing => fresh
  | Corrupt => fresh{{ps_reason := u "provisioning state unreadable"}}
  | Json (VDict d) =>
      let inst :=
        match state_of (get_key (u "state") d) with
        | Some s => fresh{{ps_state := s}}
        | None => fresh{{ps_reason := u "provisioning state value is invalid"}}
        end in
      let inst :=
        match get_key (u "reason") d with
        | VStr ((_ :: _) as r) => inst{{ps_reason := _sanitize_reason (VStr r)}}
        | _ => inst
        end in
      match get_key (u "updated_at") d with
      | VStr t => inst{{ps_updated_at := t}}
      | _ => inst
      end
  | Json _ => fresh{{ps_reason := u "provisioning state is not an object"}}
  end.

(** The document; keys are sorted. *)
Definition payload (p : ProvisioningState) : pyval := VDict
  [(VStr (u "reason"), VStr (ps_reason p));
   (VStr (u "schema_version"), VInt 1);
   (VStr (u "state"), VStr (state_name (ps_state p)));
   (VStr (u "updated_at"), VStr (ps_updated_at p))].

Definition ps_save (io : store_io) (w : pworld) : bool * pworld :=
  if negb (io_available io) then (false, w)
  else if io_write_ok io then (true, w{{disk := Json (payload (pv w))}})
  else (false, w).

Definition _legal (p : ProvisioningState) (target : prov_state) : bool :=
  if bool_decide (target = Recovery) then bool_decide (ps_state p ∈ STATES)
  else if bool_decide (ps_state p = Recovery) then bool_decide (target ∈ STATES)
  else bool_decide (NEXT_STATE (ps_state p) = Some target).

Definition _apply (io : store_io) (target : prov_state) (reason now : pyval) (p : ProvisioningState)
    : ProvisioningState :=
  {| ps_state := target; ps_reason := _sanitize_reason reason;
     ps_updated_at := _format_now (io_moment io) now;
     ps_last_good := if bool_decide (target = Recovery) then ps_last_good p else Some target |}.

Definition refusal (reason : pystr) (p : ProvisioningState) : TransitionResult :=
  {| tr_ok := false; tr_reason := reason; tr_state := ps_state p; tr_previous := None; tr_persisted := false |}.
Definition unchanged (reason : pystr) (p : ProvisioningState) : TransitionResult :=
  {| tr_ok := true; tr_reason := reason; tr_state := ps_state p; tr_previous := Some (ps_state p);
     tr_persisted := false |}.

Definition transition (io : store_io) (to_ reason now : pyval) (w : pworld) : TransitionResult * pworld :=
  let p := pv w in
  match state_of to_ with
  | None => (refusal (u "unknown provisioning state") p, w)
  | Some target =>
      if bool_decide (target = ps_state p) then (unchanged (u "already in state") p, w)
      else if negb (_legal p target) then
        (refusal (u "illegal transition " ++ state_name (ps_state p) ++ u " -> " ++ state_name target) p, w)
      else
        let snapshot := p in
        let '(saved, w) := ps_save io (w{{pv := _apply io target reason now p}}) in
        if negb saved then
          (refusal (u "durable storage unavailable; state not persisted") snapshot, w{{pv := snapshot}})
        else
          ({| tr_ok := true; tr_reason := ps_reason (pv w); tr_state := ps_state (pv w);
              tr_previous := Some (ps_state snapshot); tr_persisted := true |}, w)
  end.

Definition recover (io : store_io) (now : pyval) (w : pworld) : TransitionResult * pworld :=
  if negb (bool_decide (ps_state (pv w) = Recovery)) then (refusal (u "not in recovery") (pv w), w)
  else
    let target := match ps_last_good (pv w) with
                  | Some g => if bool_decide (g ∈ STATES) then g else Configured
                  | None => Configured
                  end in
    transition io (VStr (state_name target)) (VStr (u "recovery cleared")) now w.

Definition returning {A W} (x : A * W) : res A * W := (Ret x.1, x.2).

(** [advance]; [observed] is what [observe_facts()] returns when no facts are given.
    [raise OtherError] is Python's [ValueError]/[IndexError] of a bad index. *)
Definition advance (io : store_io) (now : pyval) (observed : res Facts) (arg : facts_arg)
    : PyM pworld TransitionResult := λ w,
  match (match arg with IsNone => observed | _ => Ret (_coerce_facts arg) end) with
  | Raise e => (Raise e, w)
  | Ret facts =>
      let to_recovery := returning (transition io (VStr (state_name Recovery)) (f_recovery_reason facts) now w) in
      if bool_decide (ps_state (pv w) = Recovery) then
        if truthy (f_recovery_reason facts) then to_recovery else returning (recover io now w)
      else if truthy (f_recovery_reason facts) then to_recovery
      else
        match index (ps_state (pv w)), index Claimed, index (_milestone facts) with
        | Some i, Some claimed, Some target =>
            if bool_decide (claimed ≤ i)%nat &&
               (negb (truthy (f_storage_ready facts))
                || (truthy (f_admin_password_set facts) && negb (truthy (f_device_valid facts))))
            then returning (transition io (VStr (state_name Recovery))
                         (VStr (u "durable configuration is invalid")) now w)
            else if bool_decide (target = i) then (Ret (unchanged (u "no change") (pv w)), w)
            else
              match (if bool_decide (i < target)%nat then STATES !! S i else STATES !! pred i) with
              | Some step =>
                  returning (transition io (VStr (state_name step))
                          (VStr (u "advanced to " ++ state_name step)) now w)
              | None => (Raise OtherError, w)
              end
        | _, _, _ => (Raise OtherError, w)
        end
  end.

(** ** The boot decision *)

Inductive mode := MODE_PROVISIONING | MODE_CAMERA.
Inductive unit_name := PROVISIONING_UNIT | CAMERA_TARGET.

Definition CAMERA_STATES : list prov_state := [Claimed; Configured; Running].
Definition resolve_mode (f : json_file) : mode :=
  if bool_decide (ps_state (ps_load f) ∈ CAMERA_STATES) then MODE_CAMERA else MODE_PROVISIONING.

Definition unit_for (m : mode) : unit_name :=
  match m with MODE_CAMERA => CAMERA_TARGET | MODE_PROVISIONING => PROVISIONING_UNIT end.
Definition unit_text (un : unit_name) : pystr :=
  match un with
  | PROVISIONING_UNIT => u "pibuddycam-provisioning.service"
  | CAMERA_TARGET => u "pibuddycam.target"
  end.

(** [runner] is the outcome of [systemctl --no-block start <unit>]: its return code
    (any object) or an exception. *)
Definition start_unit (runner : unit_name → res pyval) (un : unit_name) : bool * pystr :=
  match runner un with
  | Raise TimeoutExpired => (false, u "systemctl start timed out")
  | Raise OSError | Raise FileNotFound => (false, u "systemctl unavailable")
  | Raise _ => (false, u "systemctl start failed")
  | Ret code =>
      let returncode := match code with VInt z => z | VBool b => if b then 1 else 0 | _ => 1 end in
      if returncode =? 0 then (true, [])
      else (false, _sanitize_reason (VStr (u "systemctl start " ++ unit_text un ++
                     u " failed (exit " ++ str_of_int returncode ++ u ")")))
  end.
Definition start_camera (runner : unit_name → res pyval) : bool := (start_unit runner CAMERA_TARGET).1.

(** [main --apply]: the exit status and the unit asked for. *)
Definition boot_main (runner : unit_name → res pyval) (f : json_file) : Z * unit_name :=
  let un := unit_for (resolve_mode f) in
  (if (start_unit runner un).1 then 0 else 1, un).
End Machine.

(** ** Lemmas on states *)

Lemma state_of_name s : state_of (VStr (state_name s)) = Some s.
Proof. by destruct s; vm_compute. Qed.
Lemma in_STATES s : s ∈ STATES ↔ s ≠ Recovery.
Proof. rewrite <-(bool_decide_spec (s ∈ STATES)), <-(bool_decide_spec (s ≠ Recovery)). by destruct s. Qed.
Lemma state_of_inv v s : state_of v = Some s → v = VStr (state_name s).
Proof.
  unfold state_of. intros [_ Hs]%find_some. destruct v; simpl in Hs; try done.
  by apply bool_decide_eq_true in Hs as ->.
Qed.

Section Facts.
Context `{UnicodeDB}.

(** ** Loading what was saved *)

Lemma load_payload p :
  ps_load (Json (payload p)) =
  {| ps_state := ps_state p; ps_reason := _sanitize_reason (VStr (ps_reason p));
     ps_updated_at := ps_updated_at p; ps_last_good := None |}.
Proof.
  unfold ps_load, payload. find_key. rewrite state_of_name.
  destruct (ps_reason p); reflexivity.
Qed.
Lemma load_reason_ok f : reason_ok (ps_reason (ps_load f)).
Proof.
  assert (∀ s, forallb (in_range 32 126) s = true → (length s <=? _REASON_MAX)%nat = true → reason_ok s) as Hlit.
  { intros s ??. apply ascii_reason_ok; [done|]. by apply Nat.leb_le. }
  destruct f as [| |[| | | | | | |d]]; simpl; try (by apply Hlit; vm_compute).
  destruct (state_of _); destruct (get_key (u "reason") d) as [| | | |[|c r]| | |];
    destruct (get_key (u "updated_at") d); unfold constant; simpl;
    try apply sanitize_reason_ok; by apply Hlit; vm_compute.
Qed.
Lemma load_last_good f : ps_last_good (ps_load f) = None.
Proof.
  destruct f as [| |[| | | | | | |d]]; try done. unfold ps_load.
  destruct (state_of _); destruct (get_key (u "reason") d) as [| | | |[|c r]| | |];
    by destruct (get_key (u "updated_at") d).
Qed.

(** ** Transitions *)

Definition moved (io : store_io) (t : prov_state) (reason now : pyval) (w : pworld) : pworld :=
  let p := _apply io t reason now (pv w) in {| pv := p; disk := Json (payload p) |}.

(** A transition changes nothing, or is a legal edge that reached the disk. *)
Lemma transition_cases io to_ reason now w r w' :
  transition io to_ reason now w = (r, w') →
  (w' = w ∧ tr_persisted r = false ∧ tr_state r = ps_state (pv w)) ∨
  (∃ t, state_of to_ = Some t ∧ _legal (pv w) t = true ∧ io_available io = true ∧ io_write_ok io = true ∧
    w' = moved io t reason now w ∧ tr_ok r = true ∧ tr_persisted r = true ∧ tr_state r = t ∧
    tr_previous r = Some (ps_state (pv w))).
Proof.
  unfold transition, ps_save, moved. intros He.
  destruct (state_of to_) as [t|] eqn:Ht; [|simplify_eq; by left].
  destruct (bool_decide_reflect (t = ps_state (pv w))); [simplify_eq; by left|].
  destruct (_legal (pv w) t) eqn:Hl; [|cbn [negb] in He; simplify_eq; by left].
  destruct (io_available io) eqn:Ha, (io_write_ok io) eqn:Hw; simpl in He; simplify_eq;
    try (left; destruct w; done).
  right. exists t. done.
Qed.

Lemma transition_moves io t reason now w :
  _legal (pv w) t = true → t ≠ ps_state (pv w) → io_available io = true → io_write_ok io = true →
  (transition io (VStr (state_name t)) reason now w).2 = moved io t reason now w.
Proof.
  intros Hl Hne Ha Hw. unfold transition, ps_save, moved.
  rewrite state_of_name, bool_decide_false by done. rewrite Hl, Ha, Hw. done.
Qed.
End Facts.

(** ** Reachable worlds *)

Section Reach.
Context `{UnicodeDB}.

(** A process that starts on the file [f], and the calls it serves.  [OReload] is a
    restart: the object is built again from the file. *)
Inductive op :=
  | OTransition (io : store_io) (to_ reason now : pyval)
  | OAdvance (io : store_io) (now : pyval) (observed : res Facts) (arg : facts_arg)
  | ORecover (io : store_io) (now : pyval)
  | OReload.

Definition started (f : json_file) : pworld := {| pv := ps_load f; disk := f |}.
Definition run_op (o : op) (w : pworld) : pworld :=
  match o with
  | OTransition io to_ reason now => (transition io to_ reason now w).2
  | OAdvance io now observed arg => (advance io now observed arg w).2
  | ORecover io now => (recover io now w).2
  | OReload => started (disk w)
  end.

Inductive reachable (f : json_file) : pworld → Prop :=
  | reach_start : reachable f (started f)
  | reach_step o w : reachable f w → reachable f (run_op o w).

(** [advance] and [recover] are at most one transition. *)
Lemma recover_transition io now w :
  (recover io now w).2 = w ∨ ∃ t r, (recover io now w).2 = (transition io t r now w).2.
Proof. unfold recover. destruct (negb _); [by left|right; eauto]. Qed.
Lemma advance_transition io now observed arg w :
  (advance io now observed arg w).2 = w ∨
  ∃ t r, (advance io now observed arg w).2 = (transition io t r now w).2.
Proof.
  unfold advance, returning. repeat (case_match; simpl; eauto); apply recover_transition.
Qed.

(** An invariant of transitions and restarts is one of the machine. *)
Lemma reachable_ind_transition f (P : pworld → Prop) :
  P (started f) → (∀ w, P w → P (started (disk w))) →
  (∀ io to_ reason now w, P w → P (transition io to_ reason now w).2) →
  ∀ w, reachable f w → P w.
Proof.
  intros Hs Hr Ht w Hw. induction Hw as [|o w Hw IH]; [done|]. destruct o; simpl; auto.
  - destruct (advance_transition io now observed arg w) as [->|(t & r & ->)]; auto.
  - destruct (recover_transition io now w) as [->|(t & r & ->)]; auto.
Qed.

Record synced (w : pworld) : Prop := {
  sync_state : ps_state (ps_load (disk w)) = ps_state (pv w);
  sync_time : ps_updated_at (ps_load (disk w)) = ps_updated_at (pv w);
  sync_reason : reason_ok (ps_reason (pv w));
  sync_last_good : ps_last_good (pv w) ≠ Some Recovery;
}.

Lemma started_synced f : synced (started f).
Proof. split; try done; simpl; [apply load_reason_ok|by rewrite load_last_good]. Qed.

Lemma moved_synced io t reason now w :
  ps_last_good (pv w) ≠ Some Recovery → synced (moved io t reason now w).
Proof.
  intros Hg. split; unfold moved; cbn [disk pv].
  - by rewrite load_payload.
  - by rewrite load_payload.
  - apply sanitize_reason_ok.
  - simpl. destruct (bool_decide_reflect (t = Recovery)); congruence.
Qed.

Lemma transition_synced io to_ reason now w :
  synced w → synced (transition io to_ reason now w).2.
Proof.
  intros Hs. destruct (transition io to_ reason now w) as [r w'] eqn:He. simpl.
  apply transition_cases in He as [(-> & _)|(t & _ & _ & _ & _ & -> & _)]; [done|].
  apply moved_synced, Hs.
Qed.

(** C4: memory never claims a state that is not on disk.  In every world reachable
    from any file by any sequence of calls, failed writes and restarts included, a
    restart would load the state and the timestamp that the object has; its reason is
    printable, on one line and at most 200 characters. *)
Theorem reachable_synced f w :
  reachable f w →
  ps_state (ps_load (disk w)) = ps_state (pv w) ∧
  ps_updated_at (ps_load (disk w)) = ps_updated_at (pv w) ∧ reason_ok (ps_reason (pv w)).
Proof.
  intros Hr. destruct (reachable_ind_transition f synced (started_synced f)
    (λ w _, started_synced (disk w)) transition_synced w Hr) as [? ? ? _]. done.
Qed.
End Reach.

Definition working : store_io := {| io_available := true; io_write_ok := true; io_moment := u "2026-01-01T00:00:00+00:00" |}.
Definition storage_facts : Facts :=
  {| f_storage_ready := VBool true; f_camera_validated := VBool false;
     f_admin_password_set := VBool false; f_device_valid := VBool false;
     f_prusa_token_set := VBool false; f_camera_running := VBool false;
     f_recovery_reason := VStr [] |}.

Lemma reachable_synced_witness :
  let w := run_op OReload (run_op (OAdvance working VNone (Raise OtherError) (IsFacts storage_facts)) (started Missing)) in
  ps_state (pv w) = StorageReady ∧ ps_state (ps_load (disk w)) = ps_state (pv w).
Proof.
  split; [reflexivity|]. apply (reachable_synced Missing). do 2 apply reach_step. apply reach_start.
Defined.

(** ** Progress *)

Section Progress.
Context `{UnicodeDB}.

(** [n] calls of [advance] with the same facts and storage that works. *)
Fixpoint advance_n (n : nat) (io : store_io) (now : pyval) (f : Facts) (w : pworld) : pworld :=
  match n with
  | O => w
  | S n' => advance_n n' io now f (advance io now (Ret f) (IsFacts f) w).2
  end.

Definition claim_facts (f : Facts) : Prop :=
  truthy (f_storage_ready f) = true ∧ truthy (f_camera_validated f) = true ∧
  truthy (f_admin_password_set f) = true ∧ truthy (f_device_valid f) = true.

(** The facts behind a milestone from [claimed] on. *)
Lemma milestone_claimed f j : index (_milestone f) = Some j → (4 ≤ j)%nat → claim_facts f.
Proof.
  unfold _milestone, claim_facts. repeat (case_match; try (intros [= <-]; lia)).
  all: intros _ _; repeat match goal with
    | Hb : negb _ = false |- _ => apply negb_false_iff in Hb
    | Hb : _ && _ = true |- _ => apply andb_true_iff in Hb as [? ?]
    end; done.
Qed.

Lemma index_claimed : index Claimed = Some 4%nat.
Proof. reflexivity. Qed.
Lemma index_next s i t : index s = Some i → STATES !! S i = Some t → NEXT_STATE s = Some t ∧ index t = Some (S i).
Proof. destruct s; intros [= <-]; vm_compute; intros [= <-]; done. Qed.
Lemma index_lookup k t : STATES !! k = Some t → index t = Some k.
Proof. do 7 (destruct k as [|k]; [by intros [= <-]|]). done. Qed.
Lemma index_bound s i : index s = Some i → (i < 7)%nat.
Proof. destruct s; intros [= <-]; lia. Qed.
Lemma index_not_recovery s i : index s = Some i → s ≠ Recovery.
Proof. by intros Hi ->. Qed.
Lemma index_inj s t i : index s = Some i → index t = Some i → s = t.
Proof. by destruct s; intros [= <-]; destruct t; intros [=]. Qed.

Lemma legal_next p t : NEXT_STATE (ps_state p) = Some t → _legal p t = true.
Proof. unfold _legal. destruct (ps_state p); intros [= <-]; reflexivity. Qed.

(** What [advance] does below the milestone of its facts. *)
Lemma advance_forward io now f w i j :
  truthy (f_recovery_reason f) = false → index (ps_state (pv w)) = Some i →
  index (_milestone f) = Some j → (i < j)%nat →
  ∃ t, NEXT_STATE (ps_state (pv w)) = Some t ∧ index t = Some (S i) ∧
    advance io now (Ret f) (IsFacts f) w =
    returning (transition io (VStr (state_name t)) (VStr (u "advanced to " ++ state_name t)) now w).
Proof.
  intros Hr Hi Hj Hlt. assert (S i < length STATES)%nat as Hb by (apply index_bound in Hj; simpl; lia).
  apply lookup_lt_is_Some_2 in Hb as [t Ht]. exists t.
  destruct (index_next _ _ _ Hi Ht) as [Hn Hit]. do 2 (split; [done|]).
  unfold advance. cbn [_coerce_facts]. rewrite Hr, Hi, Hj, index_claimed.
  rewrite bool_decide_false by eauto using index_not_recovery.
  rewrite (bool_decide_false (j = i)) by lia. rewrite (bool_decide_true (i < j)%nat), Ht by done.
  destruct (bool_decide_reflect (4 ≤ i)%nat) as [Hc|]; [|done].
  destruct (milestone_claimed f j Hj) as (-> & _ & -> & ->); [lia|done].
Qed.

(** Facts under which [advance] never goes to [recovery]. *)
Definition steady (f : Facts) : Prop :=
  truthy (f_recovery_reason f) = false ∧ truthy (f_storage_ready f) = true ∧ truthy (f_device_valid f) = true.
Lemma milestone_index f : ∃ j, index (_milestone f) = Some j.
Proof. unfold _milestone. repeat case_match; eexists; reflexivity. Qed.
(** With such facts a call returns, keeps out of [recovery], goes up by one at most, and
    with storage that works goes up exactly when the milestone is higher. *)
Lemma advance_steady io now f w i : steady f → index (ps_state (pv w)) = Some i →
  ∃ r w' k, advance io now (Ret f) (IsFacts f) w = (Ret r, w') ∧ index (ps_state (pv w')) = Some k ∧ (k ≤ S i)%nat ∧
    (io_available io = true → io_write_ok io = true → ∀ j, index (_milestone f) = Some j →
       ((i < j)%nat → tr_ok r = true ∧ k = S i) ∧ (i = j → w' = w)).
Proof.
  intros (Hr & Hs & Hd) Hi. destruct (milestone_index f) as [j Hj].
  destruct (decide (i < j)%nat) as [Hij|Hij].
  - destruct (advance_forward io now f w i j) as (t & Hn & Ht & ->); [done..|]. unfold returning.
    destruct (transition io _ _ now w) as [r w'] eqn:He. cbn [fst snd].
    pose proof He as [(-> & Hp & _)|(t' & Ht' & _ & _ & _ & -> & Hok & _)]%transition_cases.
    + exists r, w, i. split_and!; [done|done|lia|]. intros Ha Hw j' [= <-]%(λ H, eq_trans (eq_sym Hj) H). split; [|lia]. intros _.
      pose proof (transition_moves io t (VStr (u "advanced to " ++ state_name t)) now w) as Hm. rewrite He in Hm. cbn [snd] in Hm.
      assert (ps_state (pv w) = t) as Hst; [|rewrite Hst, Ht in Hi; injection Hi; lia].
      rewrite Hm at 1; [done|by apply legal_next|intros ->; rewrite Hi in Ht; injection Ht; lia|done|done].
    + rewrite state_of_name in Ht'. injection Ht' as <-. eexists r, _, (S i). split_and!; [done|done|lia|]. intros _ _ j' Hj'. split; [done|].
      rewrite Hj in Hj'. injection Hj' as <-. lia.
  - unfold advance. cbn [_coerce_facts]. rewrite Hr, Hi, Hj, index_claimed, Hs, Hd. cbn [negb]. rewrite andb_false_r, andb_false_r.
    rewrite bool_decide_false by eauto using index_not_recovery. rewrite (bool_decide_false (i < j)%nat) by lia.
    destruct (bool_decide_reflect (j = i)) as [->|Hne].
    + eexists _, w, i. split_and!; [done|done|lia|]. intros _ _ j' Hj'. assert (j' = i) as -> by congruence. split; [lia|done].
    + assert (∃ t, STATES !! pred i = Some t) as [t Ht].
      { apply lookup_lt_is_Some_2. apply index_bound in Hi. cbn. lia. }
      rewrite Ht. unfold returning. destruct (transition io _ _ now w) as [r w'] eqn:He. cbn [fst snd].
      assert (∃ k, index (ps_state (pv w')) = Some k ∧ (k ≤ S i)%nat) as (k & Hk & Hle).
      { apply transition_cases in He as [(-> & _)|(t' & Ht' & _ & _ & _ & -> & _)]; [exists i; split; [done|lia]|].
        rewrite state_of_name in Ht'. injection Ht' as <-. exists (pred i). split; [by apply index_lookup|lia]. }
      exists r, w', k. split_and!; [done|done|done|]. intros _ _ j' Hj'. assert (j' = j) as -> by congruence. split; [lia|]. intros ->. done.
Qed.
Lemma advance_synced io now observed arg w : synced w → synced (advance io now observed arg w).2.
Proof. intros Hs. destruct (advance_transition io now observed arg w) as [->|(t & r & ->)]; [done|]. by apply transition_synced. Qed.

(** With facts that do not change and storage that works, the machine reaches
    the milestone its facts justify, one edge at a time: from a state [i] edges
    before the milestone [j], after exactly [j - i] calls, and it stays there. *)
Theorem advance_reaches_milestone io now f w i j :
  io_available io = true → io_write_ok io = true → truthy (f_recovery_reason f) = false →
  index (ps_state (pv w)) = Some i → index (_milestone f) = Some j → (i ≤ j)%nat →
  ps_state (pv (advance_n (j - i) io now f w)) = _milestone f ∧
  ∀ w', ps_state (pv w') = _milestone f → (advance io now (Ret f) (IsFacts f) w').2 = w'.
Proof.
  intros Ha Hw Hr Hi Hj Hle. split.
  - remember (j - i)%nat as n eqn:Hn. revert w i Hi Hle Hn.
    induction n as [|n IH]; intros w i Hi Hle Hn; simpl.
    + assert (i = j) as -> by lia. eauto using index_inj.
    + destruct (advance_forward io now f w i j) as (t & Hnext & Ht & ->); [done..|lia|].
      simpl. rewrite transition_moves; [|by apply legal_next|intros ->; simplify_eq; lia|done|done].
      apply (IH _ (S i)); [done|lia|lia].
  - intros w' Hs. unfold advance. cbn [_coerce_facts]. rewrite Hr, Hs, Hj, index_claimed.
    rewrite bool_decide_false by eauto using index_not_recovery.
    rewrite (bool_decide_true (j = j)) by done.
    destruct (bool_decide_reflect (4 ≤ j)%nat) as [Hc|]; [|done].
    by destruct (milestone_claimed f j Hj Hc) as (-> & _ & -> & ->).
Qed.
End Progress.

Definition ready_facts : Facts :=
  {| f_storage_ready := VBool true; f_camera_validated := VBool true;
     f_admin_password_set := VBool true; f_device_valid := VBool true;
     f_prusa_token_set := VBool true; f_camera_running := VBool true;
     f_recovery_reason := VStr [] |}.

Lemma advance_reaches_milestone_witness :
  ps_state (pv (advance_n 6 working VNone ready_facts (started Missing))) = Running.
Proof. apply (advance_reaches_milestone working VNone ready_facts (started Missing) 0 6); reflexivity || lia. Defined.

(** ** The claim rule *)

Section Claim.
Context `{UnicodeDB}.

(** A run driven by [advance], with any storage failures and restarts; [fs] are the facts
    it has seen. *)
Inductive boot_run (f : json_file) : list Facts → pworld → Prop :=
  | run_start : boot_run f [] (started f)
  | run_advance io now facts fs w :
      boot_run f fs w → boot_run f (fs ++ [facts]) (advance io now (Ret facts) (IsFacts facts) w).2
  | run_restart fs w : boot_run f fs w → boot_run f fs (started (disk w)).

Definition pre_claim (s : prov_state) : Prop := s ∈ [Factory; StorageReady; CameraValidated; Unclaimed].

#[local] Instance pre_claim_dec s : Decision (pre_claim s).
Proof. unfold pre_claim. apply _. Defined.

Lemma pre_claim_index s : pre_claim s ↔ ∃ i, index s = Some i ∧ (i < 4)%nat.
Proof.
  split.
  - unfold pre_claim. intros Hs. pose proof (bool_decide_eq_true_2 _ Hs) as Hb. destruct s; vm_compute in Hb; try done; eexists; (split; [vm_compute; reflexivity|lia]).
  - intros (i & Hi & Hlt). apply (bool_decide_eq_true_1 _). destruct s; try done; vm_compute in Hi;
      simplify_eq; lia.
Qed.

Definition recovery_facts (f : Facts) : Prop := truthy (f_recovery_reason f) = true.

(** Leaving the states before the claim needs the facts of a claim. *)
Lemma advance_leaves_pre_claim io now f w :
  truthy (f_recovery_reason f) = false → pre_claim (ps_state (pv w)) →
  pre_claim (ps_state (pv (advance io now (Ret f) (IsFacts f) w).2)) ∨ claim_facts f.
Proof.
  intros Hr (i & Hi & Hlt)%pre_claim_index. destruct (index (_milestone f)) as [j|] eqn:Hj.
  2:{ unfold _milestone in Hj. repeat case_match; done. }
  destruct (decide (4 ≤ j)%nat); [right; by eapply milestone_claimed|left].
  destruct (decide (i < j)%nat) as [Hij|].
  - destruct (advance_forward io now f w i j) as (t & _ & Ht & ->); [done..|]. simpl.
    destruct (transition io _ _ now w) as [r w'] eqn:He.
    apply transition_cases in He as [(-> & _)|(t' & Ht' & _ & _ & _ & -> & _)]; apply pre_claim_index; [by exists i|].
    rewrite state_of_name in Ht'. simplify_eq. exists (S i). split; [done|lia].
  - unfold advance. cbn [_coerce_facts]. rewrite Hr, Hi, Hj, index_claimed.
    rewrite bool_decide_false by eauto using index_not_recovery.
    rewrite (bool_decide_false (4 ≤ i)%nat), (bool_decide_false (i < j)%nat) by lia. cbn [andb].
    destruct (bool_decide (j = i)); [apply pre_claim_index; by exists i|].
    destruct (STATES !! pred i) as [t|] eqn:Ht; simpl; [|apply pre_claim_index; by exists i].
    destruct (transition io _ _ now w) as [r w'] eqn:He.
    apply transition_cases in He as [(-> & _)|(t' & Ht' & _ & _ & _ & -> & _)]; apply pre_claim_index; [by exists i|].
    rewrite state_of_name in Ht'. simplify_eq. exists (pred i).
    split; [by apply index_lookup|lia].
Qed.

Lemma boot_run_synced f fs w : boot_run f fs w → synced w.
Proof.
  induction 1; [apply started_synced| |apply started_synced].
  destruct (advance_transition io now (Ret facts) (IsFacts facts) w) as [->|(t & r & ->)]; [done|].
  by apply transition_synced.
Qed.

Lemma boot_run_claim f fs w :
  boot_run f fs w → pre_claim (ps_state (ps_load f)) →
  pre_claim (ps_state (pv w)) ∨ ∃ facts, facts ∈ fs ∧ (claim_facts facts ∨ recovery_facts facts).
Proof.
  intros Hrun Hf. induction Hrun as [|io now facts fs w Hrun IH|fs w Hrun IH]; [by left| |].
  - destruct IH as [Hp|(g & Hg & Hc)]; [|right; exists g; by rewrite elem_of_app; auto].
    destruct (truthy (f_recovery_reason facts)) eqn:Hr; [right; exists facts; rewrite elem_of_app, list_elem_of_singleton; by auto|].
    destruct (advance_leaves_pre_claim io now facts w Hr Hp) as [?|?]; [by left|].
    right. exists facts. rewrite elem_of_app, list_elem_of_singleton. auto.
  - simpl. by rewrite (sync_state w (boot_run_synced _ _ _ Hrun)).
Qed.

(** C29: a device that started before the claim boots into the camera runtime only
    after facts were observed that include an administrator password and a valid device
    configuration, storage and a validated camera, or facts with a reason to recover (from there the
    code leads to [configured] without a claim: [recovery_skips_claim]).  Whatever the
    order of observations, failed writes and restarts, nothing else does it; a Prusa token
    alone never does. *)
Theorem camera_mode_needs_claim f fs w :
  boot_run f fs w → pre_claim (ps_state (ps_load f)) → resolve_mode (disk w) = MODE_CAMERA →
  ∃ facts, facts ∈ fs ∧ (claim_facts facts ∨ recovery_facts facts).
Proof.
  intros Hrun Hf Hm. destruct (boot_run_claim f fs w Hrun Hf) as [Hp|]; [|done].
  unfold resolve_mode in Hm. rewrite (sync_state w (boot_run_synced _ _ _ Hrun)) in Hm.
  pose proof (bool_decide_eq_true_2 _ Hp) as Hb. by destruct (ps_state (pv w)); vm_compute in Hb.
Qed.
End Claim.

Lemma camera_mode_needs_claim_witness :
  resolve_mode (disk (advance_n 4 working VNone ready_facts (started Missing))) = MODE_CAMERA ∧
  ∃ facts, facts ∈ replicate 4 ready_facts ∧ (claim_facts facts ∨ recovery_facts facts).
Proof.
  split; [reflexivity|].
  apply (camera_mode_needs_claim Missing _ (advance_n 4 working VNone ready_facts (started Missing))).
  - apply (run_advance Missing working VNone ready_facts [ready_facts; ready_facts; ready_facts]).
    apply (run_advance Missing working VNone ready_facts [ready_facts; ready_facts]).
    apply (run_advance Missing working VNone ready_facts [ready_facts]).
    apply (run_advance Missing working VNone ready_facts []), run_start.
  - left.
  - reflexivity.
Defined.

(** The recovery edge is the exception to the claim rule.  On a freshly loaded device in
    any state of the chain, factory included, one call with a recovery reason and
    one without it leave the state [configured] on disk, whatever the other facts
    are, and the next boot starts the camera runtime. *)
Theorem recovery_skips_claim `{UnicodeDB} io now f f1 f2 :
  ps_state (ps_load f) ≠ Recovery → io_available io = true → io_write_ok io = true →
  truthy (f_recovery_reason f1) = true → truthy (f_recovery_reason f2) = false →
  let w1 := (advance io now (Ret f1) (IsFacts f1) (started f)).2 in
  let w2 := (advance io now (Ret f2) (IsFacts f2) w1).2 in
  ps_state (pv w1) = Recovery ∧ ps_state (pv w2) = Configured ∧ resolve_mode (disk w2) = MODE_CAMERA.
Proof.
  intros Hs Ha Hw H1 H2. cbv zeta.
  assert ((advance io now (Ret f1) (IsFacts f1) (started f)).2 =
          moved io Recovery (f_recovery_reason f1) now (started f)) as ->.
  { unfold advance. cbn [_coerce_facts]. rewrite H1. simpl. rewrite bool_decide_false by done. simpl.
    apply (transition_moves io Recovery); try done. unfold _legal. simpl. by apply bool_decide_eq_true, in_STATES. }
  set (w1 := moved _ _ _ _ _).
  assert ((advance io now (Ret f2) (IsFacts f2) w1).2 =
          moved io Configured (VStr (u "recovery cleared")) now w1) as ->.
  { unfold advance. cbn [_coerce_facts]. rewrite H2. unfold w1, recover, moved. simpl.
    rewrite load_last_good. by apply (transition_moves io Configured). }
  split; [done|]. split; [done|]. unfold resolve_mode, moved. cbn [disk]. by rewrite load_payload.
Qed.

Definition failing_facts : Facts := default_facts{{f_recovery_reason := VStr (u "camera probe failed")}}.

Lemma recovery_skips_claim_witness :
  let w1 := (advance working VNone (Ret failing_facts) (IsFacts failing_facts) (started Missing)).2 in
  let w2 := (advance working VNone (Ret default_facts) (IsFacts default_facts) w1).2 in
  ps_state (pv w1) = Recovery ∧ ps_state (pv w2) = Configured ∧ resolve_mode (disk w2) = MODE_CAMERA.
Proof. apply (recovery_skips_claim working VNone Missing failing_facts default_facts); done. Defined.

Lemma load_state `{UnicodeDB} d :
  ps_state (ps_load (Json (VDict d))) = default Factory (state_of (get_key (u "state") d)).
Proof.
  unfold ps_load. destruct (state_of _);
    by destruct (get_key (u "reason") d) as [| | | |[|c r]| | |], (get_key (u "updated_at") d).
Qed.
Lemma not_camera_factory : Factory ∉ CAMERA_STATES.
Proof. intros Hs. pose proof (bool_decide_eq_true_2 _ Hs) as Hb. vm_compute in Hb. discriminate. Qed.
Lemma load_camera_state `{UnicodeDB} f :
  (∃ d s, f = Json (VDict d) ∧ get_key (u "state") d = VStr (state_name s) ∧ s ∈ CAMERA_STATES)
  ↔ ps_state (ps_load f) ∈ CAMERA_STATES.
Proof.
  split.
  - intros (d & s & -> & Hd & Hs). by rewrite load_state, Hd, state_of_name.
  - destruct f as [| |[| | | | | | |d]]; try (by intros Hs%not_camera_factory).
    rewrite load_state. intros Hs. exists d.
    destruct (state_of (get_key (u "state") d)) as [s|] eqn:Hd; [|by apply not_camera_factory in Hs].
    exists s. apply state_of_inv in Hd as Hv. done.
Qed.

(** The boot selector is fail-closed and never raises.  Whatever the state file
    holds and whatever [systemctl] does, exactly one unit is started; it is the camera
    target only for a JSON object whose [state] is [claimed], [configured] or
    [running]; the exit status is 0 exactly when the start returned 0, and a failure
    has a reason that is safe to log. *)
Theorem boot_fail_closed `{UnicodeDB} runner f :
  ((boot_main runner f).2 = CAMERA_TARGET ↔
   ∃ d s, f = Json (VDict d) ∧ get_key (u "state") d = VStr (state_name s) ∧ s ∈ CAMERA_STATES) ∧
  ((boot_main runner f).1 = 0 ↔ ∃ v, runner (boot_main runner f).2 = Ret v ∧ (v = VInt 0 ∨ v = VBool false)) ∧
  ∀ un, reason_ok (start_unit runner un).2.
Proof.
  split; [|split].
  - unfold boot_main, resolve_mode. cbn [snd].
    rewrite load_camera_state. case_bool_decide; by split.
  - unfold boot_main. cbn [fst snd]. unfold start_unit. destruct (runner _) as [v|e].
    + destruct v as [|[]|z| | | | |]; simpl; try (split; [done|by intros (? & Hv & [->| ->])]).
      * split; [eauto|done].
      * destruct (Z.eqb_spec z 0) as [->|]; simpl; [split; [eauto|done]|].
        split; [done|]. intros (? & Hv & [->| ->]); congruence.
    + destruct e; simpl; (split; [done|by intros (? & ? & _)]).
  - intros un. unfold start_unit. destruct (runner un) as [v|e].
    + case_match; [split; [simpl; unfold _REASON_MAX; lia|constructor]|apply sanitize_reason_ok].
    + destruct e; apply ascii_reason_ok; vm_compute; (done || lia).
Qed.
