(* ===== verification/Identity.v ===== *)
(** [app/identity.py] and the device-identity functions of [app/provisioning.py]: the
    wire fingerprint (configured value, Wi-Fi MAC or persisted random seed), the
    device id derived from it, and the names built from the id.  The hashes (MD5 and
    UUID version 5) and [str.lower] are arguments. *)
From S2P Require Import Prelude PyValue.

(** ** MAC addresses *)

Definition is_hex (c : Z) : bool := in_range 48 57 c || in_range 65 70 c || in_range 97 102 c.
Definition is_sep (c : Z) : bool := (c =? 58) || (c =? 45).

(** [_MAC_RE.fullmatch]: [n] pairs with their separator, and one more pair. *)
Fixpoint mac_match (n : nat) (s : pystr) : bool :=
  match s with
  | a :: b :: rest =>
      is_hex a && is_hex b &&
      match n, rest with
      | O, [] => true
      | S n', sep :: rest' => is_sep sep && mac_match n' rest'
      | _, _ => false
      end
  | _ => false
  end.

(** [str.upper] of a matched address, whose letters are hexadecimal digits. *)
Definition upper_hex (c : Z) : Z := if in_range 97 102 c then c - 32 else c.
(** [value.replace('-', ':')], split at [':'], upper-cased and joined again. *)
Definition canonical_char (c : Z) : Z := upper_hex (if c =? 45 then 58 else c).
Definition normalize_wifi_mac (mac : pystr) : res pystr :=
  let value := strip mac in
  if mac_match 5 value then Ret (map canonical_char value) else Raise ValueError.

(** ** The fallback seed *)

Definition FALLBACK_SEED_LENGTH : nat := 10.
Definition FALLBACK_SEED_ALPHABET : pystr :=
  u "abcdefghijklmnopqrstuvwxyzABCDEFGHIJKLMNOPQRSTUVWXYZ0123456789".

(** [draw i] is the random index of the [i]th [secrets.choice]. *)
Definition generate_fallback_seed (draw : nat → nat) : pystr :=
  map (λ i, nth (draw i mod length FALLBACK_SEED_ALPHABET) FALLBACK_SEED_ALPHABET 0)
    (seq 0 FALLBACK_SEED_LENGTH).
Definition _valid_fallback_seed (seed : pystr) : bool := (length seed =? FALLBACK_SEED_LENGTH)%nat.

(** The seed file: absent, unreadable, not text, or text. *)
Inductive seed_file := SeedMissing | SeedUnreadable | SeedNotText | SeedText (s : pystr).

(** What a call does not control: the random draws and whether the seed can be
    written. *)
Record seed_io := { seed_draw : nat → nat; seed_write_ok : bool }.

Definition load_or_create_fallback_seed (io : seed_io) : PyM seed_file pystr := λ f,
  let create :=
    let seed := generate_fallback_seed (seed_draw io) in
    (Ret seed, if seed_write_ok io then SeedText seed else f) in
  match f with
  | SeedText text =>
      let seed := strip text in
      if _valid_fallback_seed seed then (Ret seed, f) else create
  | SeedNotText => (Raise ValueError, f)
  | SeedMissing | SeedUnreadable => create
  end.

(** ** Fingerprints *)

Section Identity.
Context (md5_hex : bytes → pystr) (uuid5_hex : pystr → pystr) (lower : pystr → pystr).

(** The normalized address is ASCII: its bytes are its characters. *)
Definition fingerprint_from_mac (mac : pystr) : res pystr :=
  match normalize_wifi_mac mac with
  | Ret normalized => Ret (md5_hex normalized)
  | Raise e => Raise e
  end.
Definition fingerprint_from_seed (seed : pystr) : res pystr :=
  match utf8_encode seed with
  | Some b => Ret (md5_hex b)
  | None => Raise ValueError
  end.

(** [try: normalize_wifi_mac(..) except (TypeError, ValueError, AttributeError)]. *)
Definition mac_or (A : Type) (raw_mac : pystr) (found : pystr → A) (bad : A) : A :=
  match normalize_wifi_mac raw_mac with
  | Ret mac => found mac
  | Raise _ => bad
  end.

Definition identity_from_mac_or_fallback (io : seed_io) (raw_mac : pystr) : PyM seed_file (pystr * pystr) :=
  mac_or (PyM seed_file (pystr * pystr)) raw_mac
    (λ mac, fp ← of_res (fingerprint_from_mac mac); mret (mac, fp))
    (seed ← load_or_create_fallback_seed io; fp ← of_res (fingerprint_from_seed seed); mret ([], fp)).

Definition resolve_fingerprint (io : seed_io) (configured raw_mac : pystr) : PyM seed_file (pystr * pystr) :=
  match configured with
  | _ :: _ => mret (mac_or _ raw_mac id [], configured)
  | [] => identity_from_mac_or_fallback io raw_mac
  end.

(** ** The device id and its names *)

Definition derive_device_id (seed : pystr) : res pystr :=
  match strip seed with
  | [] => Raise ValueError
  | _ => Ret (uuid5_hex (u "pibuddycam:" ++ seed))
  end.

Definition alnum (c : Z) : bool := in_range 97 122 c || in_range 48 57 c.
(** [None] or a string; a [UUID] is its hexadecimal text. *)
Definition _sanitize_device_id (device_id : option pystr) : pystr :=
  List.filter alnum (lower (default [] device_id)).
(** [cleaned[-6:]]. *)
Definition setup_ssid_suffix (device_id : option pystr) : pystr :=
  let cleaned := _sanitize_device_id device_id in
  drop (length cleaned - 6) cleaned.
Definition prefixed (prefix : pystr) (device_id : option pystr) : pystr :=
  match setup_ssid_suffix device_id with
  | [] => []
  | suffix => prefix ++ suffix
  end.
Definition setup_ssid : option pystr → pystr := prefixed (u "PiBuddyCam-Setup-").
Definition admin_hostname : option pystr → pystr := prefixed (u "pibuddycam-").

(** [resolve_device_id]: [device] is the outcome of [load_device], [mac_text] the
    content of the sysfs file, if it can be read. *)
Definition configured_fingerprint (device : res pyval) : pystr :=
  match device with
  | Ret (VDict d) => match get_key (u "fingerprint") d with VStr s => strip s | _ => [] end
  | _ => []
  end.
Definition resolve_device_id (io : seed_io) (device : res pyval) (mac_text : option pystr)
    : PyM seed_file pystr := λ f,
  match resolve_fingerprint io (configured_fingerprint device) (strip (default [] mac_text)) f with
  | (Raise _, f') => (Ret [], f')
  | (Ret (_, []), f') => (Ret [], f')
  | (Ret (_, fingerprint), f') =>
      match derive_device_id fingerprint with
      | Ret id => (Ret id, f')
      | Raise _ => (Ret [], f')
      end
  end.
End Identity.

(** ** The identity is stable *)

Lemma seed_char (draw : nat → nat) i :
  alnum (nth (draw i mod length FALLBACK_SEED_ALPHABET) FALLBACK_SEED_ALPHABET 0)
  || in_range 65 90 (nth (draw i mod length FALLBACK_SEED_ALPHABET) FALLBACK_SEED_ALPHABET 0) = true.
Proof.
  set (k := (draw i mod length FALLBACK_SEED_ALPHABET)%nat).
  assert (k < length FALLBACK_SEED_ALPHABET)%nat as Hk by (apply Nat.mod_upper_bound; done).
  assert (forallb (λ c, alnum c || in_range 65 90 c) FALLBACK_SEED_ALPHABET = true) as Ha by reflexivity.
  rewrite forallb_forall in Ha. apply (Ha (nth k FALLBACK_SEED_ALPHABET 0)), nth_In, Hk.
Qed.
Lemma seed_char_space c : alnum c || in_range 65 90 c = true → is_space c = false.
Proof.
  unfold alnum, is_space. rewrite !orb_true_iff, !in_range_spec. intros Hc.
  rewrite !orb_false_iff, !in_range_false, !Z.eqb_neq. lia.
Qed.
Lemma generated_seed_valid draw :
  strip (generate_fallback_seed draw) = generate_fallback_seed draw ∧
  _valid_fallback_seed (generate_fallback_seed draw) = true.
Proof.
  split; [|done]. apply strip_no_space, Forall_forall. unfold generate_fallback_seed.
  intros c (i & -> & _)%list_elem_of_fmap. apply seed_char_space, seed_char.
Qed.

(** A seed that was returned and could be written is returned again. *)
Lemma seed_stable io io' f seed f' :
  seed_write_ok io = true → load_or_create_fallback_seed io f = (Ret seed, f') →
  load_or_create_fallback_seed io' f' = (Ret seed, f').
Proof.
  intros Hw. destruct (generated_seed_valid (seed_draw io)) as [Hs Hv].
  unfold load_or_create_fallback_seed. rewrite Hw. destruct f as [| | |text]; intros He; simplify_eq.
  - by rewrite Hs, Hv.
  - by rewrite Hs, Hv.
  - destruct (_valid_fallback_seed (strip text)) eqn:Ht; simplify_eq; [by rewrite Ht|by rewrite Hs, Hv].
Qed.

Lemma load_seed_total io f :
  (∃ seed f', load_or_create_fallback_seed io f = (Ret seed, f')) ∨
  load_or_create_fallback_seed io f = (Raise ValueError, f).
Proof. unfold load_or_create_fallback_seed. destruct f; eauto. case_match; eauto. Qed.

Lemma resolve_fingerprint_stable md5_hex io io' conf mac f :
  seed_write_ok io = true →
  resolve_fingerprint md5_hex io' conf mac (resolve_fingerprint md5_hex io conf mac f).2
  = resolve_fingerprint md5_hex io conf mac f.
Proof.
  intros Hw. destruct conf as [|c conf]; [|done]. simpl. unfold identity_from_mac_or_fallback, mac_or.
  unfold mbind, pym_bind, of_res. destruct (normalize_wifi_mac mac) as [m|e].
  - by destruct (fingerprint_from_mac md5_hex m).
  - destruct (load_seed_total io f) as [(seed & f' & He)|He]; rewrite He.
    + destruct (fingerprint_from_seed md5_hex seed) eqn:Hf; simpl;
        by rewrite (seed_stable io io' f seed f' Hw He), Hf.
    + simpl. destruct f; simplify_eq/=; try done. unfold load_or_create_fallback_seed in He. case_match; done.
Qed.

(** The device id survives restarts.  From the same device document and MAC
    text, a later resolution gives the id of the first one and leaves the seed file
    alone, whatever is drawn, if the first one could write its seed; and a configured
    fingerprint decides the id by itself. *)
Theorem device_id_stable md5_hex uuid5_hex io io' device mac f :
  seed_write_ok io = true →
  let first := resolve_device_id md5_hex uuid5_hex io device mac f in
  resolve_device_id md5_hex uuid5_hex io' device mac first.2 = first ∧
  (configured_fingerprint device ≠ [] →
   first = (Ret (uuid5_hex (u "pibuddycam:" ++ configured_fingerprint device)), f)).
Proof.
  intros Hw. cbv zeta. split.
  - unfold resolve_device_id.
    pose proof (resolve_fingerprint_stable md5_hex io io' (configured_fingerprint device)
      (strip (default [] mac)) f Hw) as Hst.
    destruct (resolve_fingerprint md5_hex io _ _ f) as [[[m [|c fp]]|e] f'] eqn:He; simpl in *;
      try by rewrite Hst.
    by destruct (derive_device_id uuid5_hex (c :: fp)) eqn:Hd; simpl; rewrite Hst, Hd.
  - intros Hc. unfold resolve_device_id, derive_device_id.
    assert (strip (configured_fingerprint device) = configured_fingerprint device) as Hs.
    { destruct device as [[| | | | | | |d]|]; try done. simpl. case_match; try done. apply strip_idemp. }
    destruct (configured_fingerprint device) as [|c conf]; [done|]. cbn -[strip]. by rewrite Hs.
Qed.

(** A stand-in for the hashes: the text itself. *)
Definition no_hash (s : pystr) : pystr := s.
Definition unlucky : seed_io := {| seed_draw := λ _, O; seed_write_ok := true |}.
Definition other_draws : seed_io := {| seed_draw := λ i, i; seed_write_ok := false |}.

Lemma device_id_stable_witness :
  resolve_device_id no_hash no_hash other_draws (Raise ConfigError) None
    (resolve_device_id no_hash no_hash unlucky (Raise ConfigError) None SeedMissing).2
  = (Ret (u "pibuddycam:aaaaaaaaaa"), SeedText (u "aaaaaaaaaa")).
Proof. apply (device_id_stable no_hash no_hash unlucky other_draws (Raise ConfigError) None SeedMissing eq_refl). Defined.

(** ** Names *)

Definition hostname_char (c : Z) : bool := alnum c || (c =? 45).
Definition ssid_char (c : Z) : bool := alnum c || in_range 65 90 c || (c =? 45).

Lemma suffix_spec lower id :
  (length (setup_ssid_suffix lower id) ≤ 6)%nat ∧ Forall (λ c, alnum c = true) (setup_ssid_suffix lower id).
Proof.
  unfold setup_ssid_suffix. split; [rewrite length_drop; lia|].
  apply Forall_drop, Forall_forall. intros c Hc%list_elem_of_In%filter_In. apply Hc.
Qed.

(** Whatever the device id is, the setup network name is empty or a printable
    ASCII SSID of at most 32 bytes, and the host name is empty or a DNS label: letters,
    digits and hyphens, at most 63 of them, neither starting nor ending in a hyphen. *)
Theorem device_names_valid lower id :
  (setup_ssid lower id = [] ∨
   (length (setup_ssid lower id) ≤ 32)%nat ∧ forallb ssid_char (setup_ssid lower id) = true) ∧
  (admin_hostname lower id = [] ∨
   (length (admin_hostname lower id) ≤ 63)%nat ∧ forallb hostname_char (admin_hostname lower id) = true ∧
   head (admin_hostname lower id) ≠ Some 45 ∧ last (admin_hostname lower id) ≠ Some 45).
Proof.
  destruct (suffix_spec lower id) as [Hl Ha]. unfold setup_ssid, admin_hostname, prefixed.
  destruct (setup_ssid_suffix lower id) as [|c suf]; [by split; left|].
  assert (∀ P, (∀ x, alnum x = true → P x = true) → forallb P (c :: suf) = true) as Hall.
  { intros P HP. apply forallb_forall. intros x Hx%list_elem_of_In. rewrite Forall_forall in Ha. auto. }
  split; right.
  - split; [rewrite length_app; simpl in *; lia|]. rewrite forallb_app, Hall; [done|].
    intros x Hx. unfold ssid_char. by rewrite Hx.
  - split; [rewrite length_app; simpl in *; lia|]. split; [rewrite forallb_app, Hall; [done|]|].
    { intros x Hx. unfold hostname_char. by rewrite Hx. }
    split; [done|]. rewrite last_app. destruct (last (c :: suf)) as [x|] eqn:Hx; [|by apply last_None in Hx].
    intros [= ->]. apply last_Some_elem_of in Hx. rewrite Forall_forall in Ha. by specialize (Ha _ Hx).
Qed.
