(* ===== verification/Trigger.v ===== *)
(** [app/trigger.py]: the inbound trigger message and the plan of actions it asks
    for. *)
From S2P Require Import Prelude PyValue Proto CameraState.

Inductive action :=
  | STATUS | FEATURES | PROTOCOL_INFO | SNAPSHOT | SNAPSHOT_ENABLE | SNAPSHOT_DISABLE
  | RTSP_START | RTSP_STOP | TIMELAPSE_ENABLE | TIMELAPSE_DISABLE | FW_UPDATE | REBOOT
  | TIMELAPSE_MAKE | TIMELAPSE_FILE_LIST.
#[export] Instance action_eq_dec : EqDecision action.
Proof. solve_decision. Defined.

Definition _ACTION_BY_FIELD_VALUE : list (Z * Z * action) :=
  [(1, 1, STATUS); (2, 1, FEATURES); (3, 1, SNAPSHOT); (4, 1, SNAPSHOT_ENABLE); (4, 2, SNAPSHOT_DISABLE);
   (5, 1, TIMELAPSE_ENABLE); (5, 2, TIMELAPSE_DISABLE); (8, 1, FW_UPDATE); (9, 1, REBOOT);
   (10, 1, RTSP_START); (10, 2, RTSP_STOP); (12, 1, PROTOCOL_INFO); (14, 1, TIMELAPSE_MAKE);
   (15, 1, TIMELAPSE_FILE_LIST)].
Definition _UNSUPPORTED_BY_FIELD_VALUE : list (Z * Z * action) :=
  [(14, 2, TIMELAPSE_MAKE); (15, 2, TIMELAPSE_FILE_LIST)].
Definition _METADATA_TAGS : list Z := [11; 13].
Definition _DOCUMENTED_TAGS : list Z := (fst ∘ fst <$> _ACTION_BY_FIELD_VALUE) ++ _METADATA_TAGS.

(** [table.get((tag, value))]: a tuple with a value that cannot be hashed raises. *)
Definition field_action (table : list (Z * Z * action)) (tag : Z) (value : pyval) : res (option action) :=
  if hashable value
  then Ret (snd <$> find (λ e : Z * Z * action, (e.1.1 =? tag) && eq_int value e.1.2) table)
  else Raise TypeError.

Definition normalize_string (value : pyval) : pystr :=
  match value with
  | VBytes b => utf8_replace b
  | VStr s => s
  | _ => []
  end.

(** [TriggerMessage]: the decoded fields by tag. *)
Definition TriggerMessage := list (Z * pyval).
Definition tm_get (tag : Z) (m : TriggerMessage) : pyval := default VNone (dict_get tag m).
Definition request_id (m : TriggerMessage) : pystr := normalize_string (tm_get 11 m).
Definition secondary_string (m : TriggerMessage) : pystr := normalize_string (tm_get 13 m).

Definition decode_trigger (data : pyval) : TriggerMessage :=
  match data with
  | VBytes b => decode_message b
  | _ => []
  end.

(** The warnings of the loop. *)
Inductive notice := Unsupported (tag : Z) | UndocumentedValue (tag : Z) | UnknownField (tag : Z).

Definition tag_le (x y : Z * pyval) : Prop := x.1 ≤ y.1.
#[global] Instance tag_le_dec x y : Decision (tag_le x y) := decide (x.1 ≤ y.1).

Fixpoint plan (fields : TriggerMessage) : res (list action * list notice) :=
  match fields with
  | [] => Ret ([], [])
  | (tag, value) :: rest =>
      match field_action _ACTION_BY_FIELD_VALUE tag value, plan rest with
      | Raise e, _ => Raise e
      | Ret _, Raise e => Raise e
      | Ret (Some a), Ret (actions, notices) => Ret (a :: actions, notices)
      | Ret None, Ret (actions, notices) =>
          if bool_decide (tag ∈ _METADATA_TAGS) then Ret (actions, notices)
          else match field_action _UNSUPPORTED_BY_FIELD_VALUE tag value with
               | Ret (Some _) => Ret (actions, Unsupported tag :: notices)
               | Ret None =>
                   if bool_decide (tag ∈ _DOCUMENTED_TAGS)
                   then Ret (actions, UndocumentedValue tag :: notices)
                   else Ret (actions, UnknownField tag :: notices)
               | Raise e => Raise e
               end
      end
  end.

(** [trigger_actions]: the fields in ascending order of tag. *)
Definition trigger_plan (decoded : TriggerMessage) : res (list action * list notice) :=
  plan (merge_sort tag_le decoded).
Definition trigger_actions (decoded : TriggerMessage) : res (list action) :=
  match trigger_plan decoded with Ret (actions, _) => Ret actions | Raise e => Raise e end.

Definition apply_snapshot_upload (a : action) (s : CameraState) : bool * CameraState :=
  match a with
  | SNAPSHOT_ENABLE => (true, s{{snapshot_upload_enabled := true}})
  | SNAPSHOT_DISABLE => (true, s{{snapshot_upload_enabled := false}})
  | _ => (false, s)
  end.

(** ** What a trigger asks for *)

(** The specification: every row of the table is tested on its own, as the firmware
    does, and the rows that match give the plan. *)
Definition requested (m : TriggerMessage) : list action :=
  omap (λ '(tag, value, a), if eq_int (tm_get tag m) value then Some a else None) _ACTION_BY_FIELD_VALUE.

(** A decoded value: an int, a string or bytes. *)
Definition scalar_value (v : pyval) : bool :=
  match v with VInt _ | VStr _ | VBytes _ => true | _ => false end.

Definition action_of (tag : Z) (value : pyval) : option action :=
  snd <$> find (λ e : Z * Z * action, (e.1.1 =? tag) && eq_int value e.1.2) _ACTION_BY_FIELD_VALUE.

Lemma scalar_hashable v : scalar_value v = true → hashable v = true.
Proof. by destruct v. Qed.

Lemma plan_actions fields :
  Forall (λ kv, scalar_value kv.2 = true) fields →
  ∃ ns, plan fields = Ret (omap (λ kv, action_of kv.1 kv.2) fields, ns).
Proof.
  induction 1 as [|[tag v] fields Hv _ [ns IH]]; [by eexists|]. cbn [plan omap list_omap fst snd].
  unfold field_action. rewrite scalar_hashable, IH by done.
  fold (action_of tag v). destruct (action_of tag v) as [a|]; [by eexists|].
  repeat case_match; simplify_eq; by eexists.
Qed.

(** Reading a strictly ascending list of keys from an ascending association list. *)
Lemma omap_ext_elem {A B} (f g : A → option B) (l : list A) :
  (∀ x, x ∈ l → f x = g x) → omap f l = omap g l.
Proof.
  induction l as [|x l IH]; intros Hl; [done|]. cbn [omap list_omap].
  rewrite (Hl x) by left. rewrite IH; [done|]. intros y Hy. apply Hl. by right.
Qed.
Lemma omap_None {A B} (f : A → option B) (l : list A) : (∀ x, x ∈ l → f x = None) → omap f l = [].
Proof.
  intros Hl. rewrite (omap_ext_elem f (λ _, None)) by done. clear Hl. by induction l.
Qed.

Lemma omap_by_key {A B} (f : Z → A → option B) (l : list (Z * A)) (ks : list Z) :
  StronglySorted Z.lt l.*1 → StronglySorted Z.lt ks →
  (∀ k v, (k, v) ∈ l → k ∉ ks → f k v = None) →
  omap (λ kv, f kv.1 kv.2) l = omap (λ k, dict_get k l ≫= f k) ks.
Proof.
  revert ks. induction l as [|[k v] l IH]; intros ks Hl Hks Hf; [symmetry; by apply omap_None|].
  cbn [omap list_omap fst snd]. inversion Hl as [|?? Hl' Hk]; subst. rewrite Forall_forall in Hk.
  assert (∀ k' (ks' : list Z), k ∉ ks' → k' ∈ ks' → dict_get k' ((k, v) :: l) = dict_get k' l) as Hskip.
  { intros k' ks' Hn Hin. simpl. rewrite decide_False; [done|]. congruence. }
  destruct (decide (k ∈ ks)) as [(a & b & ->)%list_elem_of_split|Hn].
  - apply StronglySorted_app in Hks as (Hab & Ha & [Hb Hkb]%StronglySorted_inv).
    rewrite Forall_forall in Hkb. rewrite omap_app, (omap_None _ a).
    + cbn [omap list_omap app]. rewrite (omap_ext_elem _ (λ k', dict_get k' l ≫= f k') b).
      * rewrite <-IH; [cbn [dict_get]; by rewrite decide_True|done..|].
        intros k' v' Hin Hnb. apply (Hf k' v'); [by right|].
        assert (k < k') by (apply Hk, list_elem_of_fmap; by exists (k', v')).
        rewrite elem_of_app, elem_of_cons. intros [Hka|[->|?]]; [|lia|done].
        assert (k' < k) by (apply Hab; [done|left]). lia.
      * intros k' Hin. rewrite (Hskip k' b); [done| |done]. intros Hkb'. specialize (Hkb k Hkb'). lia.
    + intros k' Hin. assert (k' < k) by (apply Hab; [done|left]).
      rewrite (proj2 (dict_get_None k' _)); [done|]. cbn. rewrite elem_of_cons.
      intros [->|Hin']; [lia|]. specialize (Hk k' Hin'). lia.
  - rewrite (Hf k v) by (done || left). rewrite (IH ks); [|done..|].
    + apply omap_ext_elem. intros k' Hin. by rewrite (Hskip k' ks).
    + intros k' v' Hin. apply Hf. by right.
Qed.

(** ** Decoded messages *)

Lemma dict_set_keys {V} (k : Z) (v : V) d x : x ∈ (dict_set k v d).*1 ↔ x = k ∨ x ∈ d.*1.
Proof.
  induction d as [|[k' v'] d IH]; simpl; [by rewrite list_elem_of_singleton, elem_of_nil; naive_solver|].
  case_decide; simpl; rewrite !elem_of_cons, ?IH; naive_solver.
Qed.
Lemma dict_set_NoDup {V} (k : Z) (v : V) d : NoDup d.*1 → NoDup (dict_set k v d).*1.
Proof.
  induction d as [|[k' v'] d IH]; simpl; intros Hd; [by apply NoDup_singleton|].
  apply NoDup_cons in Hd as [Hk Hd]. case_decide; simpl; apply NoDup_cons; [done|].
  split; [|by apply IH]. rewrite dict_set_keys. naive_solver.
Qed.
Lemma decode_message_keys data : NoDup (decode_message data).*1.
Proof.
  rewrite decode_message_items. assert (NoDup (@nil (Z * pyval)).*1) as Hd by constructor.
  revert Hd. generalize (@nil (Z * pyval)). induction (collapse <$> _iter_fields data) as [|kv l IH]; intros d Hd; [done|].
  simpl. by apply IH, dict_set_NoDup.
Qed.
Lemma decode_trigger_keys data : NoDup (decode_trigger data).*1.
Proof. destruct data; try by constructor. apply decode_message_keys. Qed.
Lemma decode_trigger_scalars data : Forall (λ kv, scalar_value kv.2 = true) (decode_trigger data).
Proof.
  destruct data as [| | | | |b| |]; try by constructor. simpl. apply Forall_forall. intros [k v] Hin.
  apply decode_message_values in Hin. simpl. by destruct v.
Qed.

Lemma eq_int_unique v a b : eq_int v a = true → eq_int v b = true → scalar_value v = true → a = b.
Proof. destruct v; simpl; try done. rewrite !Z.eqb_eq. congruence. Qed.

Definition ACTION_TAGS : list Z := [1; 2; 3; 4; 5; 8; 9; 10; 12; 14; 15].

Lemma action_of_tag k v : k ∉ ACTION_TAGS → action_of k v = None.
Proof.
  intros Hk. unfold action_of. destruct (find _ _) as [[[t x] a]|] eqn:Hf; [|done].
  apply find_some in Hf as [Hin Hm]. apply andb_true_iff in Hm as [Ht%Z.eqb_eq _]. simpl in Ht. subst t.
  destruct Hk. simpl in Hin. unfold ACTION_TAGS. rewrite !elem_of_cons.
  repeat destruct Hin as [Hin|Hin]; simplify_eq; tauto.
Qed.

(** The rows of one tag. *)
Definition row (m : TriggerMessage) (e : Z * Z * action) : option action :=
  let '(tag, value, a) := e in if eq_int (tm_get tag m) value then Some a else None.
Definition rows (k : Z) : list (Z * Z * action) := filter (λ e, e.1.1 = k) _ACTION_BY_FIELD_VALUE.

Lemma omap_concat {A B} (f : A → option B) (ls : list (list A)) :
  omap f (concat ls) = concat (map (omap f) ls).
Proof. induction ls as [|l ls IH]; [done|]. simpl. by rewrite omap_app, IH. Qed.
Lemma concat_option_list {A B} (f : A → option B) (l : list A) :
  concat (map (λ x, option_list (f x)) l) = omap f l.
Proof. induction l as [|x l IH]; [done|]. cbn. rewrite IH. by destruct (f x). Qed.

Lemma rows_action m k :
  k ∈ ACTION_TAGS → (∀ v, dict_get k m = Some v → scalar_value v = true) →
  omap (row m) (rows k) = option_list (dict_get k m ≫= action_of k).
Proof.
  intros Hk Hs. assert (tm_get k m = default VNone (dict_get k m)) as Ht by done.
  unfold ACTION_TAGS in Hk. rewrite !elem_of_cons, elem_of_nil in Hk.
  repeat destruct Hk as [->|Hk]; try done; unfold rows; vm_compute (filter _ _);
    unfold row; cbn [omap list_omap]; rewrite Ht; destruct (dict_get _ m) as [v|]; try done;
    specialize (Hs v eq_refl); destruct v; try done; unfold action_of; simpl;
    repeat (case_match; simpl; try done); (congruence || lia).
Qed.

(** The tags in ascending order, each looked up once. *)
Lemma requested_by_tag m :
  Forall (λ kv, scalar_value kv.2 = true) m →
  requested m = omap (λ k, dict_get k m ≫= action_of k) ACTION_TAGS.
Proof.
  intros Hm. rewrite <-concat_option_list.
  change (requested m) with (omap (row m) (concat (map rows ACTION_TAGS))). rewrite omap_concat, map_map.
  f_equal. apply map_ext_in. intros k Hk%list_elem_of_In. apply rows_action; [done|].
  intros v Hv%dict_get_Some_elem. rewrite Forall_forall in Hm. by apply (Hm (k, v)).
Qed.

Lemma sorted_tags m : NoDup m.*1 → StronglySorted Z.lt (merge_sort tag_le m).*1.
Proof.
  intros Hnd. assert (merge_sort tag_le m ≡ₚ m) as Hp by apply merge_sort_Permutation.
  assert (NoDup (merge_sort tag_le m).*1) as Hnd' by (by rewrite Hp).
  assert (StronglySorted tag_le (merge_sort tag_le m)) as Hs.
  { apply StronglySorted_merge_sort; [intros x y z; unfold tag_le; lia|intros x y; unfold tag_le; lia]. }
  clear Hp Hnd. induction Hs as [|x l Hs IH Hx]; [constructor|].
  simpl in Hnd'. apply NoDup_cons in Hnd' as [Hn Hnd]. constructor; [by apply IH|].
  apply Forall_forall. intros k (y & -> & Hy)%list_elem_of_fmap.
  rewrite Forall_forall in Hx. specialize (Hx y Hy). unfold tag_le in Hx.
  assert (x.1 ≠ y.1) by (intros Heq; apply Hn; rewrite Heq; by apply list_elem_of_fmap_2). lia.
Qed.

(** A trigger never raises, and the plan is the one of the firmware's rule.  For
    any payload, bytes or not, well formed or not, [trigger_actions] returns the
    actions whose documented (tag, value) pair the decoded message holds, each pair
    tested on its own, in ascending order of tag, and nothing else. *)
Theorem trigger_actions_requested data :
  trigger_actions (decode_trigger data) = Ret (requested (decode_trigger data)).
Proof.
  set (m := decode_trigger data). unfold trigger_actions, trigger_plan.
  pose proof (decode_trigger_scalars data) as Hs. pose proof (decode_trigger_keys data) as Hk.
  assert (merge_sort tag_le m ≡ₚ m) as Hp by apply merge_sort_Permutation.
  destruct (plan_actions (merge_sort tag_le m)) as [ns ->]; [by rewrite Hp|].
  f_equal. rewrite requested_by_tag by done.
  rewrite (omap_by_key action_of (merge_sort tag_le m) ACTION_TAGS).
  - apply omap_ext_elem. intros k _. f_equal. apply dict_get_perm; [|done]. by rewrite Hp.
  - by apply sorted_tags.
  - repeat constructor; lia.
  - intros k v _ Hn. by apply action_of_tag.
Qed.

(** A message with RTSP stop (tag 10), get status (tag 1) and an undocumented value. *)
Example trigger_example :
  trigger_actions (decode_trigger (VBytes [80; 2; 8; 1; 72; 7])) = Ret [STATUS; RTSP_STOP].
Proof. reflexivity. Qed.
