(* ===== verification/Dispatch.v ===== *)
(** [app/settings_dispatch.py]: a mutation sent from another thread to the event loop
    that owns the coordinator.  The model runs the callback at the moment the loop
    does: before the deadline, after it, or never. *)
From S2P Require Import Prelude PyValue CameraState Coordinator QualityControl.

(** What becomes of the callback: the loop is closed, runs it in time, runs it after
    the deadline, or stops before running it. *)
Inductive loop_timing := Closed | InTime | Late | Dropped.

Record envelope := {
  e_ok : bool;
  e_reason : pystr;
  e_changed : list pystr;
  e_settings : list (pyval * pyval);
  e_timed_out : bool;
}.

Definition _failure (reason : pystr) : envelope :=
  {| e_ok := false; e_reason := reason; e_changed := []; e_settings := []; e_timed_out := false |}.

Definition dispatch_apply {E} (zones : list pystr) (h : hooks E) (t : loop_timing) (field value : pyval)
    (w : cworld E) : envelope * cworld E :=
  match t with
  | Closed => (_failure (u "settings runtime is not accepting changes"), w)
  | Dropped => (_failure (u "settings update timed out; refresh to confirm"), w)
  | Late => (_failure (u "settings update timed out; refresh to confirm"),
             (apply_mutation zones h field value w).2)
  | InTime =>
      match apply_mutation zones h field value w with
      | (Ret r, w') =>
          ({| e_ok := ok r; e_reason := default [] (reason r); e_changed := changed r;
              e_settings := result_state r; e_timed_out := false |}, w')
      | (Raise _, w') => (_failure (u "settings update failed"), w')
      end
  end.

(** The envelope is truthful.  A mutation reported as accepted ran in time,
    persisted and then published, and the document on disk is the state it leaves;
    one reported as failed changed no durable setting and persisted nothing, except
    when the loop ran it after the deadline; in that case, too, the envelope says
    [timed_out = False]. *)
Theorem dispatch_truthful zones base t field value w :
  BaseHooksOk zones base → settings_ok zones (cstate w) →
  let '(e, w') := dispatch_apply zones (main_hooks false true true base) t field value w in
  settings_ok zones (cstate w') ∧ e_timed_out e = false ∧
  ∃ l, clog w' = clog w ++ l ∧
    if e_ok e
    then t = InTime ∧ visible l = [CPersist; CPublish] ∧
         state_json (cenv w') = Json (VDict (persistable_state (cstate w') ++ [store_version]))
    else t = Late ∨ visible l = [] ∧ persistable_state (cstate w') = persistable_state (cstate w).
Proof.
  intros Hb Hok.
  destruct (apply_mutation_mutates zones (stored_if true true) (main_hooks false true true base) field value w Hok)
    as (r & w' & He & Hok' & l & Hl & Hr).
  assert (clog w = clog w ++ []) by (by rewrite app_nil_r).
  unfold dispatch_apply. destruct t; rewrite ?He; simpl.
  - split_and!; [done..|]. exists []. auto.
  - split_and!; [done..|]. exists l. split; [done|]. destruct (ok r).
    + destruct Hr as [? Hs]. split_and!; [done..|]. by apply Hs.
    + destruct Hr as (? & ? & _). auto.
  - split_and!; [done..|]. exists l. auto.
  - split_and!; [done..|]. exists []. auto.
Qed.

Lemma dispatch_truthful_witness :
  ∃ l, clog (dispatch_apply [] (main_hooks false true true no_services) InTime
               (VStr (u "snapshot_interval")) (VInt 60) start_world).2 = [] ++ l ∧
       visible l = [CPersist; CPublish].
Proof.
  pose proof (dispatch_truthful [] no_services InTime (VStr (u "snapshot_interval")) (VInt 60) start_world
    (no_services_ok []) (initial_state_ok [])) as Hd.
  destruct (dispatch_apply _ _ _ _ _ _) as [e w'] eqn:He.
  assert (e_ok e = true) as Ho by (change e with (e, w').1; rewrite <-He; vm_compute; reflexivity).
  rewrite Ho in Hd. destruct Hd as (_ & _ & l & Hl & _ & Hv & _). exists l. split; [exact Hl|exact Hv].
Defined.
