(* ===== verification/NetworkSettings.v ===== *)
(** The pure part of [app/network_settings.py]: validation of a network change, the
    parser of [nmcli -t] output and the result document.  Time stamps are whole
    seconds. *)
From S2P Require Import Prelude PyValue PyText.

(** ** IPv4 addresses ([ipaddress] of the standard library) *)

Definition ascii_digit (c : Z) : bool := in_range 48 57 c.
Definition octet_value (s : pystr) : Z := foldl (λ n c, 10 * n + (c - 48)) 0 s.
Definition parse_octet (s : pystr) : option Z :=
  match s with
  | [] => None
  | c :: rest =>
      if negb (forallb ascii_digit s) then None
      else if (3 <? length s)%nat then None
      else if (c =? 48) && negb (bool_decide (rest = [])) then None
      else let v := octet_value s in if 255 <? v then None else Some v
  end.

(** [IPv4Address(text)] as a 32-bit number. *)
Definition parse_ipv4 (text : pystr) : option Z :=
  match split_on 46 text with
  | [a; b; c; d] =>
      a ← parse_octet a; b ← parse_octet b; c ← parse_octet c; d ← parse_octet d;
      Some (((a * 256 + b) * 256 + c) * 256 + d)
  | _ => None
  end.
(** [str(IPv4Address)]. *)
Definition octet (a : Z) (i : Z) : Z := Z.land (Z.shiftr a (8 * i)) 255.
Definition ipv4_text (a : Z) : pystr :=
  str_of_int (octet a 3) ++ [46] ++ str_of_int (octet a 2) ++ [46] ++
  str_of_int (octet a 1) ++ [46] ++ str_of_int (octet a 0).

(** [IPv4Network(f'{address}/{prefix}', strict=False)]. *)
Definition hostmask (prefix : Z) : Z := Z.ones (32 - prefix).
Definition netmask (prefix : Z) : Z := Z.lxor (Z.ones 32) (hostmask prefix).
Definition network_address (a prefix : Z) : Z := Z.land a (netmask prefix).
Definition broadcast_address (a prefix : Z) : Z := Z.lor (network_address a prefix) (hostmask prefix).
Definition in_network (b a prefix : Z) : bool :=
  (network_address a prefix <=? b) && (b <=? broadcast_address a prefix).

(** ** Validation *)

Definition MAX_SSID_BYTES : nat := 32.
Definition MIN_PSK_LENGTH : nat := 8.
Definition MAX_PSK_LENGTH : nat := 63.
Definition MAX_DNS_SERVERS : nat := 3.
Definition MIN_PREFIX := 1.
Definition MAX_PREFIX := 30.

(** [ValidationError] is a [ValueError]. *)
Definition _ipv4 (value : pyval) : res Z :=
  match value with
  | VStr s => match parse_ipv4 (strip s) with Some a => Ret a | None => Raise ValueError end
  | _ => Raise ValueError
  end.

Record static_ipv4 := { address : pystr; prefix : Z; gateway : pystr; dns : list pystr }.
Record request := { ssid : pystr; psk : pystr; manual : option static_ipv4 }.

Definition psk_length_ok (p : pystr) : bool :=
  bool_decide (p = []) || ((MIN_PSK_LENGTH <=? length p)%nat && (length p <=? MAX_PSK_LENGTH)%nat).
Definition control_char (c : Z) : bool := (c <? 32) || (c =? 127).

Definition validate_ssid (v : pyval) : res pystr :=
  match v with
  | VStr s =>
      let s := strip s in
      if bool_decide (s = []) then Raise ValueError
      else match utf8_encode s with
           | None => Raise ValueError
           | Some b =>
               if (MAX_SSID_BYTES <? length b)%nat then Raise ValueError
               else if existsb control_char s then Raise ValueError else Ret s
           end
  | _ => Raise ValueError
  end.
Definition validate_psk (v : pyval) : res pystr :=
  match v with
  | VNone => Ret []
  | VStr p => if psk_length_ok p then Ret p else Raise ValueError
  | _ => Raise ValueError
  end.

(** The loop over the DNS servers: duplicates are dropped. *)
Fixpoint dns_servers (items : list pyval) (servers : list pystr) : res (list pystr) :=
  match items with
  | [] => Ret servers
  | item :: rest =>
      match _ipv4 item with
      | Raise e => Raise e
      | Ret a =>
          let server := ipv4_text a in
          dns_servers rest (if bool_decide (server ∈ servers) then servers else servers ++ [server])
      end
  end.
Definition validate_dns (v : pyval) : res (list pystr) :=
  match v with
  | VNone => Ret []
  | VList items => if (MAX_DNS_SERVERS <? length items)%nat then Raise ValueError else dns_servers items []
  | _ => Raise ValueError
  end.

Definition validate_static (addr pref gate dns_v : pyval) : res static_ipv4 :=
  match _ipv4 addr with
  | Raise e => Raise e
  | Ret a =>
      match pref with
      | VInt p =>
          if negb (in_range MIN_PREFIX MAX_PREFIX p) then Raise ValueError else
          match _ipv4 gate with
          | Raise e => Raise e
          | Ret g =>
              if negb (in_network g a p) then Raise ValueError
              else if g =? a then Raise ValueError
              else if (a =? network_address a p) || (a =? broadcast_address a p) then Raise ValueError
              else match validate_dns dns_v with
                   | Raise e => Raise e
                   | Ret servers =>
                       Ret {| address := ipv4_text a; prefix := p; gateway := ipv4_text g; dns := servers |}
                   end
          end
      | _ => Raise ValueError
      end
  end.

(** [body.get(key, default)]. *)
Definition get_or (default : pyval) (key : pystr) (d : list (pyval * pyval)) : pyval :=
  match find (λ kv : pyval * pyval, eq_str kv.1 key) d with Some kv => kv.2 | None => default end.

Definition validate_request (body : list (pyval * pyval)) : res request :=
  match validate_ssid (get_key (u "ssid") body) with
  | Raise e => Raise e
  | Ret s =>
      match validate_psk (get_or (VStr []) (u "psk") body) with
      | Raise e => Raise e
      | Ret p =>
          let method := get_or (VStr (u "auto")) (u "ipv4_method") body in
          if eq_str method (u "manual") then
            match validate_static (get_key (u "address") body) (get_key (u "prefix") body)
                    (get_key (u "gateway") body) (get_or (VList []) (u "dns") body) with
            | Ret st => Ret {| ssid := s; psk := p; manual := Some st |}
            | Raise e => Raise e
            end
          else if eq_str method (u "auto") then Ret {| ssid := s; psk := p; manual := None |}
          else Raise ValueError
      end
  end.

(** The request dict that is serialized for the root unit. *)
Definition request_dict (r : request) : list (pyval * pyval) :=
  [(VStr (u "ssid"), VStr (ssid r)); (VStr (u "psk"), VStr (psk r));
   (VStr (u "ipv4_method"), VStr (if manual r is Some _ then u "manual" else u "auto"))] ++
  match manual r with
  | Some st => [(VStr (u "address"), VStr (address st)); (VStr (u "prefix"), VInt (prefix st));
                (VStr (u "gateway"), VStr (gateway st)); (VStr (u "dns"), VList (map VStr (dns st)))]
  | None => []
  end.

(** ** [nmcli -t] output *)

(** [s.replace(ab, c)] of a pair of characters by one. *)
Fixpoint replace_pair (a b c : Z) (s : pystr) : pystr :=
  match s with
  | x :: (y :: s'') as s' => if (x =? a) && (y =? b) then c :: replace_pair a b c s'' else x :: replace_pair a b c s'
  | _ => s
  end.
(** [line.partition(':')]. *)
Fixpoint partition_at (sep : Z) (s : pystr) : option (pystr * pystr) :=
  match s with
  | [] => None
  | c :: s' =>
      if c =? sep then Some ([], s')
      else match partition_at sep s' with Some (k, v) => Some (c :: k, v) | None => None end
  end.

Definition _split_terse (line : pystr) : option pystr * pystr :=
  match partition_at 58 line with
  | None => (None, [])
  | Some (key, value) => (Some (strip key), strip (replace_pair 92 92 92 (replace_pair 92 58 58 value)))
  end.

(** [re.sub(r'\[\d+\]$', '', key)], on the reversed key. *)
Fixpoint drop_digits `{UnicodeDB} (s : pystr) : pystr :=
  match s with c :: s' => if uc_decimal c is Some _ then drop_digits s' else s | [] => [] end.
Definition drop_index `{UnicodeDB} (key : pystr) : pystr :=
  match rev key with
  | 93 :: d :: s =>
      if uc_decimal d is Some _
      then match drop_digits s with 91 :: rest => rev rest | _ => key end
      else key
  | _ => key
  end.

Definition _terse_map `{UnicodeDB} (text : pystr) : list (pystr * list pystr) :=
  foldl (λ fields line,
    match _split_terse line with
    | (Some ((_ :: _) as key), (_ :: _) as value) =>
        let key := drop_index key in
        dict_set key (default [] (dict_get key fields) ++ [value]) fields
    | _ => fields
    end) [] (splitlines text).
Definition _first (fields : list (pystr * list pystr)) (key : pystr) : pystr :=
  default [] (dict_get key fields ≫= head).

(** ** The result document *)

Inductive apply_state := STATE_APPLYING | STATE_APPLIED | STATE_REVERTED | STATE_HOTSPOT.
#[export] Instance apply_state_eq_dec : EqDecision apply_state.
Proof. solve_decision. Defined.

Record result_doc := { res_state : apply_state; res_reason : pystr; res_updated_at : option Z }.

Definition APPLY_STALE_SECONDS := 180.

Definition _bounded `{UnicodeDB} (value : pystr) : pystr :=
  take 200 (strip (List.filter uc_isprintable value)).

(** [read_result]: [None] is a missing, corrupt or foreign document. *)
Definition read_result `{UnicodeDB} (doc : option result_doc) (now : Z) : option result_doc :=
  match doc with
  | None => None
  | Some data =>
      let v := data{{res_reason := _bounded (res_reason data)}} in
      Some (match res_state v, res_updated_at v with
            | STATE_APPLYING, Some t =>
                if APPLY_STALE_SECONDS <? now - t
                then v{{res_state := STATE_REVERTED; res_reason := u "apply did not finish"}}
                else v
            | _, _ => v
            end)
  end.

(** ** Addresses round trip *)

Definition ipv4_ok (a : Z) : Prop := 0 ≤ a < 2 ^ 32.

Lemma octet_texts :
  forallb (λ n, bool_decide (parse_octet (str_of_int n) = Some n) &&
                forallb ascii_digit (str_of_int n)) (seqZ 0 256) = true.
Proof. vm_compute. reflexivity. Qed.
Lemma octet_text n :
  0 ≤ n < 256 → parse_octet (str_of_int n) = Some n ∧ Forall (λ c, ascii_digit c = true) (str_of_int n).
Proof.
  intros Hn. pose proof octet_texts as Ht. rewrite forallb_forall in Ht.
  specialize (Ht n). rewrite andb_true_iff, bool_decide_eq_true, forallb_forall in Ht.
  destruct Ht as [Hp Hd]; [apply list_elem_of_In, elem_of_seqZ; lia|].
  split; [done|]. apply Forall_forall. intros c Hc%list_elem_of_In. auto.
Qed.
Lemma parse_octet_range s n : parse_octet s = Some n → 0 ≤ n < 256.
Proof.
  destruct s as [|c rest]; [done|]. unfold parse_octet. destruct (forallb ascii_digit (c :: rest)) eqn:Hd; [|done].
  simpl negb. cbn iota. case_match; [done|]. case_match; [done|]. destruct (255 <? octet_value (c :: rest)) eqn:Hv; [done|]. intros [= <-].
  apply Z.ltb_ge in Hv. split; [|lia]. clear Hv. unfold octet_value.
  assert (∀ l acc, 0 ≤ acc → forallb ascii_digit l = true → 0 ≤ foldl (λ n c, 10 * n + (c - 48)) acc l) as Hf.
  { induction l as [|x l IH]; simpl; intros acc Ha; [done|].
    rewrite andb_true_iff. intros [Hx%in_range_spec Hl]. apply IH; [lia|done]. }
  by apply Hf.
Qed.

Lemma digits_no_dot s : Forall (λ c, ascii_digit c = true) s → Forall (λ c, c ≠ 46) s.
Proof. intros Hs. eapply Forall_impl; [exact Hs|]. intros c Hc%in_range_spec. lia. Qed.

Lemma octet_range a i : 0 ≤ octet a i < 256.
Proof. unfold octet. change 255 with (Z.ones 8). rewrite Z.land_ones by lia. apply Z.mod_pos_bound. lia. Qed.
#[local] Ltac Zify.zify_post_hook ::= Z.to_euclidean_division_equations.
Lemma octets_value a :
  ipv4_ok a → ((octet a 3 * 256 + octet a 2) * 256 + octet a 1) * 256 + octet a 0 = a.
Proof.
  intros Ha. unfold ipv4_ok in Ha. unfold octet. change 255 with (Z.ones 8).
  rewrite !Z.land_ones, !Z.shiftr_div_pow2 by lia.
  change (2 ^ (8 * 3)) with 16777216. change (2 ^ (8 * 2)) with 65536. change (2 ^ (8 * 1)) with 256.
  change (2 ^ (8 * 0)) with 1. change (2 ^ 8) with 256. lia.
Qed.
#[local] Ltac Zify.zify_post_hook ::= idtac.

Lemma parse_ipv4_text a : ipv4_ok a → parse_ipv4 (ipv4_text a) = Some a.
Proof.
  intros Ha. unfold parse_ipv4, ipv4_text.
  destruct (octet_text (octet a 3) (octet_range a 3)) as [H3 D3%digits_no_dot].
  destruct (octet_text (octet a 2) (octet_range a 2)) as [H2 D2%digits_no_dot].
  destruct (octet_text (octet a 1) (octet_range a 1)) as [H1 D1%digits_no_dot].
  destruct (octet_text (octet a 0) (octet_range a 0)) as [H0 D0%digits_no_dot].
  cbn [app]. rewrite !split_on_app, split_on_none by done. rewrite H3, H2, H1, H0. simpl.
  f_equal. by apply octets_value.
Qed.
Lemma parse_ipv4_range s a : parse_ipv4 s = Some a → ipv4_ok a.
Proof.
  unfold parse_ipv4, ipv4_ok. destruct (split_on 46 s) as [|w1 [|w2 [|w3 [|w4 [|]]]]]; try done.
  destruct (parse_octet w1) as [x1|] eqn:E1; [|done]. simpl. destruct (parse_octet w2) as [x2|] eqn:E2; [|done].
  simpl. destruct (parse_octet w3) as [x3|] eqn:E3; [|done]. simpl. destruct (parse_octet w4) as [x4|] eqn:E4; [|done].
  simpl. intros [= <-]. apply parse_octet_range in E1, E2, E3, E4. lia.
Qed.

Lemma ipv4_text_stripped a : strip (ipv4_text a) = ipv4_text a.
Proof.
  apply strip_no_space.
  assert (∀ i, Forall (λ c, is_space c = false) (str_of_int (octet a i))) as Ho.
  { intros i. destruct (octet_text (octet a i) (octet_range a i)) as [_ Hd].
    eapply Forall_impl; [exact Hd|]. intros c Hc%in_range_spec. unfold is_space.
    rewrite !orb_false_iff, !in_range_false, !Z.eqb_neq. lia. }
  unfold ipv4_text. rewrite !Forall_app. repeat split; auto; by repeat constructor.
Qed.
Lemma ipv4_again a : ipv4_ok a → _ipv4 (VStr (ipv4_text a)) = Ret a.
Proof. intros Ha. unfold _ipv4. by rewrite ipv4_text_stripped, parse_ipv4_text. Qed.
Lemma ipv4_inv v a : _ipv4 v = Ret a → ipv4_ok a.
Proof.
  destruct v; try done. simpl. destruct (parse_ipv4 (strip s)) eqn:Hp; [|done].
  intros [= <-]. by eapply parse_ipv4_range.
Qed.

(** ** Requests are stable *)

#[local] Opaque ipv4_text.

Lemma get_or_here d k v l : get_or d k ((VStr k, v) :: l) = v.
Proof. unfold get_or. simpl. by rewrite bool_decide_true. Qed.
Lemma get_or_skip d k k' v l : k ≠ k' → get_or d k ((VStr k', v) :: l) = get_or d k l.
Proof. intros Hk. unfold get_or. simpl. by rewrite bool_decide_false. Qed.
Ltac find_or := repeat (rewrite get_or_here || rewrite get_or_skip by (vm_compute; discriminate)).

Lemma validate_ssid_inv v s :
  validate_ssid v = Ret s →
  strip s = s ∧ s ≠ [] ∧ existsb control_char s = false ∧
  ∃ b, utf8_encode s = Some b ∧ (length b ≤ MAX_SSID_BYTES)%nat.
Proof.
  destruct v as [| | | |t| | |]; try done. unfold validate_ssid. case_bool_decide; [done|].
  destruct (utf8_encode (strip t)) as [b|] eqn:Hb; [|done].
  destruct (MAX_SSID_BYTES <? length b)%nat eqn:Hl; [done|].
  destruct (existsb control_char (strip t)) eqn:Hc; [done|]. intros [= <-].
  split; [apply strip_idemp|]. do 2 (split; [done|]). exists b. split; [done|]. by apply Nat.ltb_ge.
Qed.
Lemma validate_ssid_again v s : validate_ssid v = Ret s → validate_ssid (VStr s) = Ret s.
Proof.
  intros (Hs & Hn & Hc & b & Hb & Hl)%validate_ssid_inv. unfold validate_ssid.
  rewrite Hs, bool_decide_false, Hb, Hc by done. by rewrite (proj2 (Nat.ltb_ge _ _)).
Qed.
Lemma validate_psk_inv v p : validate_psk v = Ret p → psk_length_ok p = true.
Proof. destruct v as [| | | |t| | |]; try done; simpl; [by intros [= <-]|]. destruct (psk_length_ok t) eqn:Hp; [|done]. by intros [= <-]. Qed.

(** The servers of an accepted list: distinct addresses in canonical form. *)
Definition server_ok (t : pystr) : Prop := ∃ a, ipv4_ok a ∧ t = ipv4_text a.

Lemma dns_servers_inv items servers out :
  dns_servers items servers = Ret out → Forall server_ok servers → NoDup servers →
  Forall server_ok out ∧ NoDup out ∧ (length out ≤ length servers + length items)%nat.
Proof.
  revert servers. induction items as [|item items IH]; simpl; intros servers He Ho Hn.
  - simplify_eq. split_and!; [done..|lia].
  - destruct (_ipv4 item) as [a|] eqn:Ha; [|done]. apply ipv4_inv in Ha. case_bool_decide as Hin.
    + destruct (IH _ He Ho Hn) as (? & ? & ?). split_and!; [done..|lia].
    + destruct (IH _ He) as (? & ? & Hl).
      * apply Forall_app_2; [done|]. constructor; [by exists a|constructor].
      * apply NoDup_app. split_and!; [done| |apply NoDup_singleton]. intros x Hx ->%list_elem_of_singleton. done.
      * split_and!; [done..|]. rewrite length_app in Hl. simpl in Hl. lia.
Qed.
Lemma dns_servers_again servers out :
  Forall server_ok out → NoDup (servers ++ out) → dns_servers (map VStr out) servers = Ret (servers ++ out).
Proof.
  intros Ho. revert servers. induction Ho as [|t out (a & Ha & ->) _ IH]; intros servers Hn; cbn [map dns_servers].
  - by rewrite app_nil_r.
  - rewrite ipv4_again by done. rewrite bool_decide_false.
    + rewrite IH; rewrite <-app_assoc; done.
    + apply NoDup_app in Hn as (_ & Hd & _). intros Hin. apply (Hd _ Hin). left.
Qed.
Lemma validate_dns_inv v out :
  validate_dns v = Ret out → Forall server_ok out ∧ NoDup out ∧ (length out ≤ MAX_DNS_SERVERS)%nat.
Proof.
  destruct v as [| | | | | |l|]; try done; simpl.
  - intros [= <-]. split_and!; [constructor|constructor|simpl; unfold MAX_DNS_SERVERS; lia].
  - destruct (Nat.ltb_spec MAX_DNS_SERVERS (length l)); [done|].
    intros (? & ? & ?)%dns_servers_inv; [|constructor|constructor]. simpl in *. split_and!; [done..|lia].
Qed.
Lemma validate_dns_again v out : validate_dns v = Ret out → validate_dns (VList (map VStr out)) = Ret out.
Proof.
  intros (Ho & Hn & Hl)%validate_dns_inv. unfold validate_dns. rewrite length_map.
  rewrite (proj2 (Nat.ltb_ge _ _)) by done. by rewrite dns_servers_again.
Qed.

(** A static configuration: canonical addresses, a host address and its gateway in
    one subnet. *)
Definition static_ok (st : static_ipv4) : Prop :=
  ∃ a g, ipv4_ok a ∧ ipv4_ok g ∧ address st = ipv4_text a ∧ gateway st = ipv4_text g ∧
    MIN_PREFIX ≤ prefix st ≤ MAX_PREFIX ∧ in_network g a (prefix st) = true ∧ g ≠ a ∧
    a ≠ network_address a (prefix st) ∧ a ≠ broadcast_address a (prefix st) ∧
    Forall server_ok (dns st) ∧ NoDup (dns st) ∧ (length (dns st) ≤ MAX_DNS_SERVERS)%nat.

Lemma validate_static_inv av pv gv dv st :
  validate_static av pv gv dv = Ret st →
  static_ok st ∧
  validate_static (VStr (address st)) (VInt (prefix st)) (VStr (gateway st)) (VList (map VStr (dns st))) = Ret st.
Proof.
  unfold validate_static. destruct (_ipv4 av) as [a|] eqn:Ha; [|done]. destruct pv as [| |p| | | | |]; try done.
  destruct (in_range MIN_PREFIX MAX_PREFIX p) eqn:Hp; [|done]. cbn [negb].
  destruct (_ipv4 gv) as [g|] eqn:Hg; [|done]. destruct (in_network g a p) eqn:Hin; [|done]. cbn [negb].
  destruct (g =? a) eqn:Hga; [done|].
  destruct ((a =? network_address a p) || (a =? broadcast_address a p)) eqn:Hh; [done|].
  destruct (validate_dns dv) as [servers|] eqn:Hd; [|done]. intros [= <-]. cbn [address prefix gateway dns].
  apply ipv4_inv in Ha, Hg. rewrite !ipv4_again, Hp, Hin, Hga, Hh by done. cbn [negb].
  rewrite (validate_dns_again dv) by done. split; [|done].
  apply validate_dns_inv in Hd as (? & ? & ?). apply orb_false_iff in Hh as [??].
  apply in_range_spec in Hp. exists a, g. cbn [address prefix gateway dns].
  split_and?; try done; lia.
Qed.

Record request_ok (r : request) : Prop := {
  req_ssid : strip (ssid r) = ssid r ∧ ssid r ≠ [] ∧ existsb control_char (ssid r) = false;
  req_ssid_bytes : ∃ b, utf8_encode (ssid r) = Some b ∧ (length b ≤ MAX_SSID_BYTES)%nat;
  req_psk : psk_length_ok (psk r) = true;
  req_static st : manual r = Some st → static_ok st;
}.

(** An accepted network request is well formed (an SSID of at most 32 bytes
    without control characters; a password that is empty or 8 to 63 characters; for
    a static address a host address and a gateway of one subnet, canonical, with at
    most three distinct DNS servers), and the root unit, which validates what the
    console sent once more, accepts it unchanged. *)
Theorem validate_request_stable body r :
  validate_request body = Ret r → request_ok r ∧ validate_request (request_dict r) = Ret r.
Proof.
  unfold validate_request at 1. destruct (validate_ssid _) as [s|] eqn:Hs; [|done].
  destruct (validate_psk _) as [p|] eqn:Hp; [|done].
  pose proof (validate_ssid_inv _ _ Hs) as (? & ? & ? & ?). apply validate_psk_inv in Hp as Hpi.
  apply validate_ssid_again in Hs.
  destruct (eq_str _ (u "manual")) eqn:Hm.
  - destruct (validate_static _ _ _ _) as [st|] eqn:Hst; [|done]. intros [= <-].
    apply validate_static_inv in Hst as [Hok Hag]. split; [split; try done; cbn; by intros ? [= <-]|].
    unfold validate_request, request_dict. cbn [ssid psk manual app]. find_key. find_or.
    rewrite Hs. cbn [validate_psk]. rewrite Hpi. change (eq_str _ (u "manual")) with true. cbn iota. by rewrite Hag.
  - destruct (eq_str _ (u "auto")) eqn:Ha; [|done]. intros [= <-]. split; [by split|].
    unfold validate_request, request_dict. cbn [ssid psk manual app]. find_key. find_or.
    rewrite Hs. cbn [validate_psk]. rewrite Hpi. reflexivity.
Qed.

Definition static_body : list (pyval * pyval) :=
  [(VStr (u "ssid"), VStr (u " home ")); (VStr (u "psk"), VStr (u "password1"));
   (VStr (u "ipv4_method"), VStr (u "manual")); (VStr (u "address"), VStr (u "192.168.1.20"));
   (VStr (u "prefix"), VInt 24); (VStr (u "gateway"), VStr (u " 192.168.1.1"));
   (VStr (u "dns"), VList [VStr (u "8.8.8.8"); VStr (u "8.8.8.8")])].
Definition static_request : request :=
  {| ssid := u "home"; psk := u "password1";
     manual := Some {| address := u "192.168.1.20"; prefix := 24; gateway := u "192.168.1.1"; dns := [u "8.8.8.8"] |} |}.

Lemma validate_request_stable_witness :
  request_ok static_request ∧ validate_request (request_dict static_request) = Ret static_request.
Proof. apply (validate_request_stable static_body). vm_compute. reflexivity. Defined.
