(* ===== verification/WifiStation.v ===== *)
(** [app/wifi_station.py]: the [nmcli] commands that create, update and activate the
    station profile, and the short-lived credential file.  [runner] is
    NetworkManager: it sees the arguments and the credential files present. *)
From S2P Require Import Prelude PyValue PyText NetworkSettings.

Definition CONNECTION_NAME : pystr := u "pibuddycam-station".
Definition DEFAULT_IFNAME : pystr := u "wlan0".
Definition PASSWD_FILE_PREFIX : pystr := u "802-11-wireless-security.psk:".

(** ** Command shapes *)

(** [None]: not given; [Some None]: DHCP; [Some (Some st)]: static. *)
Definition _ipv4_args (ipv4 : option (option static_ipv4)) : list pystr :=
  match ipv4 with
  | None => [u "ipv4.method"; u "auto"]
  | Some None =>
      [u "ipv4.method"; u "auto"; u "ipv4.addresses"; []; u "ipv4.gateway"; []; u "ipv4.dns"; [];
       u "ipv4.ignore-auto-dns"; u "no"]
  | Some (Some st) =>
      [u "ipv4.method"; u "manual";
       u "ipv4.addresses"; address st ++ u "/" ++ str_of_int (prefix st);
       u "ipv4.gateway"; gateway st;
       u "ipv4.dns"; join_with (u " ") (dns st);
       u "ipv4.ignore-auto-dns"; match dns st with [] => u "no" | _ => u "yes" end]
  end.

Definition security_args (wpa : bool) : list pystr :=
  if wpa then [u "wifi-sec.key-mgmt"; u "wpa-psk"] else [].
Definition _add_command (ssid ifname : pystr) (wpa : bool) (ipv4 : option (option static_ipv4)) : list pystr :=
  [u "nmcli"; u "connection"; u "add"; u "type"; u "wifi"; u "ifname"; ifname; u "con-name"; CONNECTION_NAME;
   u "autoconnect"; u "yes"; u "ssid"; ssid; u "--"] ++ _ipv4_args ipv4 ++ security_args wpa.
Definition _modify_command (ssid ifname : pystr) (wpa : bool) (ipv4 : option (option static_ipv4)) : list pystr :=
  [u "nmcli"; u "connection"; u "modify"; CONNECTION_NAME; u "connection.autoconnect"; u "yes";
   u "802-11-wireless.ssid"; ssid] ++ _ipv4_args ipv4 ++ security_args wpa.
Definition _remove_security_command : list pystr :=
  [u "nmcli"; u "connection"; u "modify"; CONNECTION_NAME; u "remove"; u "802-11-wireless-security"].
Definition _up_command : list pystr := [u "nmcli"; u "connection"; u "up"; CONNECTION_NAME].
Definition _up_with_passwd_file_command (file : pystr) : list pystr := _up_command ++ [u "passwd-file"; file].

(** ** The world of a call *)

Section Station.
Context `{UnicodeDB} {N : Type}.

Abbreviation files := (list (pystr * pystr)).

(** [runner]: the return code and the output, or the exception. *)
Variable runner : list pystr → files → N → res (Z * pystr) * N.

Record station := { st_nm : N; st_argv : list (list pystr); st_files : files }.

(** The temporary file of this call: its name, and whether writing and removing it
    work; [fi_partial] is what a failed write leaves. *)
Record file_io := {
  fi_mkstemp : option pystr;
  fi_write_ok : bool;
  fi_partial : pystr;
  fi_remove_ok : bool;
}.

(** [_run]: the return code and the failure reason. *)
Definition _run (args : list pystr) : PyM station (Z + pystr) := λ w,
  let '(r, nm') := runner args (st_files w) (st_nm w) in
  let w' := {| st_nm := nm'; st_argv := st_argv w ++ [args]; st_files := st_files w |} in
  match r with
  | Ret (code, _) => (Ret (inl code), w')
  | Raise TimeoutExpired => (Ret (inr (u "network manager command timed out")), w')
  | Raise OSError | Raise FileNotFound => (Ret (inr (u "network manager tool unavailable")), w')
  | Raise _ => (Ret (inr (u "network manager command failed")), w')
  end.

Definition _remove_passwd_file (io : file_io) (path : pystr) : PyM station unit := λ w,
  (Ret tt, if fi_remove_ok io then w{{st_files := filter (λ f : pystr * pystr, f.1 ≠ path) (st_files w)}} else w).

(** The path of the file, or the reason; text that has no UTF-8 encoding raises out
    of the [try], whose handler only takes [OSError]. *)
Definition _write_passwd_file (io : file_io) (p : pystr) : PyM station (pystr + pystr) := λ w,
  match fi_mkstemp io with
  | None => (Ret (inr (u "could not create Wi-Fi credential file")), w)
  | Some path =>
      match utf8_encode p with
      | None => (Raise ValueError, w{{st_files := st_files w ++ [(path, fi_partial io)] }})
      | Some _ =>
          if fi_write_ok io
          then (Ret (inl path), w{{st_files := st_files w ++ [(path, PASSWD_FILE_PREFIX ++ p ++ [10])] }})
          else (_ ← _remove_passwd_file io path; mret (inr (u "could not write Wi-Fi credential file")))
                 (w{{st_files := st_files w ++ [(path, fi_partial io)] }})
      end
  end.

Definition exit_reason (what : pystr) (code : Z) : pystr :=
  _sanitize_reason (VStr (what ++ u " failed (exit " ++ str_of_int code ++ u ")")).

(** The activation; the credential file is removed however it ends. *)
Definition activate (io : file_io) (passwd_file : option pystr) : PyM station (bool * pystr) :=
  r ← _run (match passwd_file with Some f => _up_with_passwd_file_command f | None => _up_command end);
  _ ← match passwd_file with Some f => _remove_passwd_file io f | None => mret tt end;
  mret (match r with
        | inr failure => (false, failure)
        | inl 0 => (true, [])
        | inl code => (false, exit_reason (u "nmcli station activation") code)
        end).

(** What follows the profile commands. *)
Definition connect (io : file_io) (p : pystr) (wpa write_psk : bool) : PyM station (bool * pystr) :=
  _ ← (if wpa then mret (inl 0) else _run _remove_security_command);
  if write_psk then
    f ← _write_passwd_file io p;
    match f with
    | inr reason => mret (false, reason)
    | inl path => activate io (Some path)
    end
  else activate io None.

(** From the first profile command on. *)
Definition apply_profile (io : file_io) (s p ifname : pystr) (ipv4 : option (option static_ipv4))
    (keep_psk existing : bool) : PyM station (bool * pystr) :=
  let wpa := negb (bool_decide (p = [])) || keep_psk in
  let write_psk := negb (bool_decide (p = [])) && negb keep_psk in
  let add := _add_command s ifname wpa ipv4 in
  let modify := _modify_command s ifname wpa ipv4 in
  let '(first, second) := if existing then (modify, add) else (add, modify) in
  r ← _run first;
  match r with
  | inr failure => mret (false, failure)
  | inl 0 => connect io p wpa write_psk
  | inl _ =>
      r ← _run second;
      match r with
      | inr failure => mret (false, failure)
      | inl 0 => connect io p wpa write_psk
      | inl code => mret (false, exit_reason (u "nmcli station profile") code)
      end
  end.

Definition apply (io : file_io) (s p ifname : pystr) (ipv4 : option (option static_ipv4))
    (keep_psk : bool) (existing : option bool) : PyM station (bool * pystr) :=
  if bool_decide (strip s = []) then mret (false, u "wifi SSID is required")
  else if negb (psk_length_ok p) then mret (false, u "wifi PSK must be 8..63 characters")
  else
    let s := strip s in
    match existing with
    | Some e => apply_profile io s p ifname ipv4 keep_psk e
    | None =>
        r ← _run [u "nmcli"; u "connection"; u "show"; CONNECTION_NAME];
        apply_profile io s p ifname ipv4 keep_psk (match r with inl 0 => true | _ => false end)
    end.
End Station.

(** ** The password stays out of the commands *)

Section Secrecy.
Context `{UnicodeDB} {N : Type}.
Variable runner : list pystr → list (pystr * pystr) → N → res (Z * pystr) * N.
Abbreviation W := (@station N).

(** [m] and [m'] run the same commands and leave the files as they were, from any
    world in which the temporary name is new. *)
Definition agree (io : file_io) {A} (m m' : PyM W A) : Prop := ∀ w,
  (∀ path, fi_mkstemp io = Some path → path ∉ (st_files w).*1) →
  st_argv (m w).2 = st_argv (m' w).2 ∧ st_files (m w).2 = st_files w ∧ st_files (m' w).2 = st_files w.

Lemma run_argv args w :
  ∃ r nm', _run runner args w = (Ret r, {| st_nm := nm'; st_argv := st_argv w ++ [args]; st_files := st_files w |}).
Proof.
  unfold _run. destruct (runner args (st_files w) (st_nm w)) as [[[code out]|e] nm']; [eauto|].
  destruct e; eauto.
Qed.

Lemma agree_run io args {A} (k k' : Z + pystr → PyM W A) :
  (∀ r, agree io (k r) (k' r)) → agree io (r ← _run runner args; k r) (r ← _run runner args; k' r).
Proof.
  intros Hk w Hw. unfold mbind, pym_bind. destruct (run_argv args w) as (r & nm' & ->).
  by apply (Hk r {| st_nm := nm'; st_argv := st_argv w ++ [args]; st_files := st_files w |}).
Qed.
Lemma agree_ret io {A} (a : A) : agree io (mret a) (mret a).
Proof. by intros w Hw. Qed.

Lemma remove_last (files : list (pystr * pystr)) path content :
  path ∉ files.*1 → filter (λ f : pystr * pystr, f.1 ≠ path) (files ++ [(path, content)]) = files.
Proof.
  intros Hp. rewrite filter_app, (filter_cons_False _ _ []), filter_nil, app_nil_r by (simpl; auto).
  induction files as [|f files IH]; [done|]. cbn [fmap list_fmap] in Hp. apply not_elem_of_cons in Hp as [??].
  by rewrite filter_cons_True, IH.
Qed.

(** The credential file is there for the activation only. *)
Lemma agree_credentials io p p' b b' :
  fi_remove_ok io = true → utf8_encode p = Some b → utf8_encode p' = Some b' →
  agree io
    (f ← _write_passwd_file io p;
     match f with inr reason => mret (false, reason) | inl path => activate runner io (Some path) end)
    (f ← _write_passwd_file io p';
     match f with inr reason => mret (false, reason) | inl path => activate runner io (Some path) end).
Proof.
  intros Hr Hb Hb' w Hw. unfold mbind, pym_bind, _write_passwd_file. rewrite Hb, Hb'.
  destruct (fi_mkstemp io) as [path|]; [|done]. specialize (Hw path eq_refl).
  destruct (fi_write_ok io).
  - unfold activate, mbind, pym_bind.
    destruct (run_argv (_up_with_passwd_file_command path) (w{{st_files := st_files w ++ [(path, PASSWD_FILE_PREFIX ++ p ++ [10])] }}))
      as (r & nm1 & ->).
    destruct (run_argv (_up_with_passwd_file_command path) (w{{st_files := st_files w ++ [(path, PASSWD_FILE_PREFIX ++ p' ++ [10])] }}))
      as (r' & nm2 & ->).
    unfold _remove_passwd_file. rewrite Hr. unfold mret, pym_ret. cbn [snd st_files st_argv].
    destruct w as [nm argv fs]. cbn in *. unfold constant. rewrite !remove_last; done.
  - unfold mbind, pym_bind, _remove_passwd_file. rewrite Hr. destruct w as [nm argv fs]. cbn in *. unfold constant.
    by rewrite !remove_last.
Qed.

Lemma agree_connect io p p' b b' keep :
  fi_remove_ok io = true → utf8_encode p = Some b → utf8_encode p' = Some b' →
  agree io (connect runner io p true (negb keep)) (connect runner io p' true (negb keep)).
Proof.
  intros Hr Hb Hb'. unfold connect. destruct keep; cbn [negb]; intros w Hw; unfold mbind at 1, pym_bind at 1, mret at 1, pym_ret at 1.
  - unfold mbind at 1, pym_bind at 1, mret at 1, pym_ret at 1. revert w Hw. apply agree_run. intros r. apply agree_ret.
  - revert w Hw. by apply (agree_credentials io p p' b b').
Qed.

(** The Wi-Fi password never reaches a command line, and no copy of it stays
    behind.  Two calls that differ only in a non-empty password (of valid length and
    encodable) run the same commands with the same arguments, whatever NetworkManager
    answers to the credential file, and leave the temporary files as they found them
    if the file can be removed. *)
Theorem apply_hides_psk io s p p' b b' ifname ipv4 keep existing w :
  fi_remove_ok io = true →
  (∀ path, fi_mkstemp io = Some path → path ∉ (st_files w).*1) →
  p ≠ [] → psk_length_ok p = true → utf8_encode p = Some b →
  p' ≠ [] → psk_length_ok p' = true → utf8_encode p' = Some b' →
  let w1 := (apply runner io s p ifname ipv4 keep existing w).2 in
  let w2 := (apply runner io s p' ifname ipv4 keep existing w).2 in
  st_argv w1 = st_argv w2 ∧ st_files w1 = st_files w ∧ st_files w2 = st_files w.
Proof.
  intros Hr Hw Hp Hpl Hb Hp' Hpl' Hb'. cbv zeta.
  assert (∀ e, agree io (apply_profile runner io (strip s) p ifname ipv4 keep e)
                        (apply_profile runner io (strip s) p' ifname ipv4 keep e)) as Hprofile.
  { intros e. unfold apply_profile. rewrite !bool_decide_false by done. cbn [negb orb andb].
    pose proof (agree_connect io p p' b b' keep Hr Hb Hb') as Hc.
    destruct e; (apply agree_run; intros [[|code|code]|f]; [exact Hc| | |apply agree_ret]);
      (apply agree_run; intros [[|code'|code']|f]; [exact Hc|apply agree_ret..]). }
  unfold apply. rewrite Hpl, Hpl'. case_bool_decide; [done|]. cbn [negb].
  destruct existing as [e|]; [by apply Hprofile|]. revert w Hw. by apply agree_run.
Qed.
End Secrecy.

(** NetworkManager that accepts everything, and one file. *)
Definition accepting : list pystr → list (pystr * pystr) → unit → res (Z * pystr) * unit :=
  λ _ _ nm, (Ret (0, []), nm).
Definition tmp_io : file_io :=
  {| fi_mkstemp := Some (u "/run/pibuddycam-psk-1"); fi_write_ok := true; fi_partial := []; fi_remove_ok := true |}.
Definition no_files : @station unit := {| st_nm := tt; st_argv := []; st_files := [] |}.

Lemma apply_hides_psk_witness :
  st_argv (apply accepting tmp_io (u "home") (u "password1") DEFAULT_IFNAME None false (Some true) no_files).2 =
  st_argv (apply accepting tmp_io (u "home") (u "hunter2hunter2") DEFAULT_IFNAME None false (Some true) no_files).2 ∧
  length (st_argv (apply accepting tmp_io (u "home") (u "password1") DEFAULT_IFNAME None false (Some true) no_files).2) = 2%nat.
Proof.
  split; [|reflexivity].
  apply (apply_hides_psk accepting tmp_io (u "home") (u "password1") (u "hunter2hunter2")
           (u "password1") (u "hunter2hunter2") DEFAULT_IFNAME None false (Some true) no_files);
    try reflexivity; try discriminate. intros path _. apply not_elem_of_nil.
Defined.

(** Otherwise the call returns. *)
Lemma write_passwd_returns {N} io p b (w : @station N) :
  utf8_encode p = Some b → ∃ r w', _write_passwd_file io p w = (Ret r, w').
Proof.
  intros Hb. unfold _write_passwd_file. rewrite Hb. destruct (fi_mkstemp io); [|eauto].
  destruct (fi_write_ok io); eauto.
Qed.
Lemma activate_returns `{UnicodeDB} {N} runner io f (w : @station N) :
  ∃ r w', activate runner io f w = (Ret r, w').
Proof.
  unfold activate, mbind, pym_bind. edestruct (run_argv runner) as (r & nm' & ->).
  destruct f; unfold _remove_passwd_file, mret, pym_ret; eauto.
Qed.
Lemma apply_returns `{UnicodeDB} {N} runner io s p b ifname ipv4 keep existing (w : @station N) :
  utf8_encode p = Some b → ∃ r w', apply runner io s p ifname ipv4 keep existing w = (Ret r, w').
Proof.
  intros Hb. assert (∀ wpa write w, ∃ r w', connect (N := N) runner io p wpa write w = (Ret r, w')) as Hc.
  { intros wpa write w0. unfold connect. unfold mbind at 1, pym_bind at 1.
    assert (∃ r w1, (if wpa then mret (inl 0) else _run runner _remove_security_command) w0 = (Ret r, w1)) as (r & w1 & ->).
    { destruct wpa; [by do 2 eexists|]. edestruct (run_argv runner) as (? & ? & ->). eauto. }
    destruct write; [|apply activate_returns]. unfold mbind, pym_bind.
    destruct (write_passwd_returns io p b w1 Hb) as ([path|reason] & w2 & ->); [apply activate_returns|eauto]. }
  assert (∀ e w, ∃ r w', apply_profile (N := N) runner io (strip s) p ifname ipv4 keep e w = (Ret r, w')) as Hp.
  { intros e w0. unfold apply_profile. destruct e; unfold mbind, pym_bind;
      edestruct (run_argv runner) as ([[|c|c]|f] & n1 & ->); eauto; try apply Hc;
      edestruct (run_argv runner) as ([[|c'|c']|f] & n2 & ->); eauto; apply Hc. }
  unfold apply. case_match; [eauto|]. case_match; [eauto|]. destruct existing; [apply Hp|].
  unfold mbind, pym_bind. edestruct (run_argv runner) as (r & n1 & ->). apply Hp.
Qed.

(** The exception.  A password that has no UTF-8 encoding (JSON can carry a lone
    surrogate) passes the length check, and the call raises after the profile was
    changed, with the credential file left behind. *)
Theorem unencodable_psk_raises `{UnicodeDB} {N} runner io path s p ifname ipv4 w nm' out :
  strip s ≠ [] → p ≠ [] → psk_length_ok p = true → utf8_encode p = None → fi_mkstemp io = Some path →
  runner (_modify_command (strip s) ifname true ipv4) (st_files w) (st_nm w) = (Ret (0, out), nm') →
  apply (N := N) runner io s p ifname ipv4 false (Some true) w =
  (Raise ValueError,
   {| st_nm := nm'; st_argv := st_argv w ++ [_modify_command (strip s) ifname true ipv4];
      st_files := st_files w ++ [(path, fi_partial io)] |}).
Proof.
  intros Hs Hp Hl He Hf Hr. unfold apply, apply_profile, connect, _write_passwd_file.
  rewrite !bool_decide_false, Hl by done. cbn [negb orb andb]. unfold mbind, pym_bind, mret, pym_ret, _run.
  rewrite Hr. cbn [st_files]. by rewrite Hf, He.
Qed.

Lemma unencodable_psk_raises_witness :
  apply accepting tmp_io (u "home") (55296 :: u "assword") DEFAULT_IFNAME None false (Some true) no_files =
  (Raise ValueError,
   {| st_nm := tt; st_argv := [_modify_command (u "home") DEFAULT_IFNAME true None];
      st_files := [(u "/run/pibuddycam-psk-1", [])] |}).
Proof.
  apply (unencodable_psk_raises accepting tmp_io (u "/run/pibuddycam-psk-1") (u "home") (55296 :: u "assword")
           DEFAULT_IFNAME None no_files tt []); reflexivity || discriminate.
Defined.
