(* ===== verification/NetworkApply.v ===== *)
(** [app/network_apply.py]: the root transaction behind a network change.  The machine
    it runs on (NetworkManager, clocks, key file, hotspot) is a record of operations on
    an opaque state; the world adds the result document and a log of the
    transaction's steps.  Times are milliseconds of the monotonic clock. *)
From S2P Require Import Prelude PyValue NetworkSettings WifiStation.

Abbreviation files := (list (pystr * pystr)).

Record host (N : Type) := {
  h_runner : list pystr → files → N → res (Z * pystr) * N;
  h_monotonic : N → Z;
  h_sleep : Z → N → N;
  h_clock : N → Z;
  h_keyfile : N → option bytes;
  (** writing the key file; [None] is an [OSError] *)
  h_write_keyfile : bytes → N → option N;
  h_start_hotspot : N → res bool * N;
  h_stop_hotspot : N → res bool * N;
  (** whether the result document can be written *)
  h_result_ok : N → bool;
}.
Arguments h_runner {N}. Arguments h_monotonic {N}. Arguments h_sleep {N}. Arguments h_clock {N}.
Arguments h_keyfile {N}. Arguments h_write_keyfile {N}. Arguments h_start_hotspot {N}.
Arguments h_stop_hotspot {N}. Arguments h_result_ok {N}.

(** The steps of a transaction. *)
Inductive net_event :=
  | EApply (ok : bool)
  | EHealth (ok : bool)
  | ERestore (snapshot : option bytes) (ok : bool)
  | EHotspot (ok : bool)
  | EResult (s : apply_state).

Section Apply.
Context `{UnicodeDB} {N : Type} (h : host N).

Record net := { n_st : @station N; n_doc : option result_doc; n_log : list net_event }.

Definition nm (w : net) : N := st_nm (n_st w).
Definition set_nm (n : N) (w : net) : net := w{{n_st := (n_st w){{st_nm := n}} }}.
Definition log_event (e : net_event) (w : net) : net := w{{n_log := n_log w ++ [e] }}.

(** [_text]: the output of a command that returned 0. *)
Definition _text (args : list pystr) (w : net) : option pystr * net :=
  let '(r, n) := h_runner h args (st_files (n_st w)) (nm w) in
  (match r with Ret (0, out) => Some out | _ => None end,
   w{{n_st := {| st_nm := n; st_argv := st_argv (n_st w) ++ [args]; st_files := st_files (n_st w) |} }}).

Definition write_result (s : apply_state) (reason : pystr) (w : net) : net :=
  let w := log_event (EResult s) w in
  if h_result_ok h (nm w)
  then w{{n_doc := Some {| res_state := s; res_reason := reason; res_updated_at := Some (h_clock h (nm w)) |} }}
  else w.

(** [(exists, ssid, has_wpa)]. *)
Definition _profile_info (w : net) : (bool * pystr * bool) * net :=
  let '(out, w) := _text [u "nmcli"; u "-t"; u "-f"; u "802-11-wireless.ssid,802-11-wireless-security.key-mgmt";
                          u "connection"; u "show"; CONNECTION_NAME] w in
  match out with
  | None => ((false, [], false), w)
  | Some out =>
      let fields := _terse_map out in
      ((true, _first fields (u "802-11-wireless.ssid"),
        negb (bool_decide (_first fields (u "802-11-wireless-security.key-mgmt") = []))), w)
  end.

(** The parsed answer of [nmcli device show]. *)
Definition before_slash (s : pystr) : pystr :=
  match partition_at 47 s with Some (host, _) => host | None => s end.
Definition link_fields (expected out : pystr) : option pystr :=
  let fields := _terse_map out in
  let state := _first fields (u "GENERAL.STATE") in
  let address := before_slash (_first fields (u "IP4.ADDRESS")) in
  let gateway := _first fields (u "IP4.GATEWAY") in
  if negb (starts_with (u "100") state) || bool_decide (address = []) || bool_decide (gateway = []) then None
  else if negb (bool_decide (expected = [])) && negb (bool_decide (address = expected)) then None
  else Some gateway.

(** [_link_ready]: the gateway of a usable link. *)
Definition _link_ready (ifname expected : pystr) (w : net) : option pystr * net :=
  let '(out, w) := _text [u "nmcli"; u "-t"; u "-f"; u "GENERAL.STATE,IP4.ADDRESS,IP4.GATEWAY";
                          u "device"; u "show"; ifname] w in
  (match out with
   | None | Some [] => None
   | Some out => link_fields expected out
   end, w).

Definition _ping (gateway : pystr) (w : net) : bool * net :=
  let '(out, w) := _text [u "ping"; u "-c"; u "1"; u "-W"; u "2"; gateway] w in
  (match out with Some _ => true | None => false end, w).

Definition HEALTH_TIMEOUT := 60000.
Definition RESTORE_TIMEOUT := 30000.
Definition POLL := 2000.

(** The polling loop; [None] when the fuel runs out. *)
Fixpoint health_loop (fuel : nat) (ifname expected : pystr) (require_ping : bool) (deadline : Z)
    (reason : pystr) (w : net) : option ((bool * pystr) * net) :=
  match fuel with
  | O => None
  | S fuel =>
      let again reason w :=
        if deadline <=? h_monotonic h (nm w) then Some ((false, reason), w)
        else health_loop fuel ifname expected require_ping deadline reason (set_nm (h_sleep h POLL (nm w)) w) in
      match _link_ready ifname expected w with
      | (None, w) => again reason w
      | (Some gateway, w) =>
          let '(pong, w) := _ping gateway w in
          if negb require_ping || pong then Some ((true, []), w)
          else again (u "gateway unreachable") w
      end
  end.
Definition wait_healthy (fuel : nat) (ifname expected : pystr) (require_ping : bool) (timeout : Z) (w : net)
    : option ((bool * pystr) * net) :=
  match health_loop fuel ifname expected require_ping (h_monotonic h (nm w) + timeout)
          (u "no IPv4 address or default route") w with
  | Some ((ok, reason), w) => Some ((ok, reason), log_event (EHealth ok) w)
  | None => None
  end.

Definition _restore (snapshot : option bytes) (w : net) : bool * net :=
  let reload ok w := (ok, log_event (ERestore snapshot ok) w) in
  match snapshot with
  | None =>
      let w := (_text [u "nmcli"; u "connection"; u "delete"; CONNECTION_NAME] w).2 in
      reload true (_text [u "nmcli"; u "connection"; u "reload"] w).2
  | Some content =>
      match h_write_keyfile h content (nm w) with
      | None => reload false w
      | Some n =>
          let w := (_text [u "nmcli"; u "connection"; u "reload"] (set_nm n w)).2 in
          reload true (_text _up_command w).2
      end
  end.

(** [wifi_station.apply] in this world. *)
Definition station_apply (io : file_io) (r : request) (ifname : pystr) (keep existing : bool) (w : net)
    : res (bool * pystr) * net :=
  let '(x, st) := apply (h_runner h) io (ssid r) (psk r) ifname (Some (manual r)) keep (Some existing) (n_st w) in
  let w := w{{n_st := st}} in
  (x, match x with Ret (ok, _) => log_event (EApply ok) w | Raise _ => w end).

Definition start_hotspot (w : net) : bool * net :=
  let '(x, n) := h_start_hotspot h (nm w) in
  let started := match x with Ret b => b | Raise _ => false end in
  (started, log_event (EHotspot started) (set_nm n w)).

(** After a failed change: restore, check, and the hotspot as the last resort. *)
Definition revert (fuel : nat) (ifname : pystr) (snapshot : option bytes) (reason : pystr) (w : net)
    : option (apply_state * net) :=
  let reason := match reason with [] => u "activation failed" | _ => reason end in
  let '(restored, w) := _restore snapshot w in
  let last_resort w :=
    let '(started, w) := start_hotspot w in
    let s := if started then STATE_HOTSPOT else STATE_REVERTED in
    Some (s, write_result s (reason ++ u "; previous network did not come back") w) in
  match restored, snapshot with
  | true, Some _ =>
      match wait_healthy fuel ifname [] false RESTORE_TIMEOUT w with
      | None => None
      | Some ((true, _), w) => Some (STATE_REVERTED, write_result STATE_REVERTED reason w)
      | Some ((false, _), w) => last_resort w
      end
  | _, _ => last_resort w
  end.

(** [run]; the outer [option] is the fuel. *)
Definition run (fuel : nat) (io : file_io) (ifname : pystr) (r : request) (w : net)
    : option (res apply_state * net) :=
  let w := write_result STATE_APPLYING [] w in
  let '((exists_, current_ssid, has_wpa), w) := _profile_info w in
  let keep := bool_decide (psk r = []) && exists_ && has_wpa && bool_decide (current_ssid = ssid r) in
  let snapshot := h_keyfile h (nm w) in
  let reverting reason w := match revert fuel ifname snapshot reason w with
                            | Some (s, w) => Some (Ret s, w)
                            | None => None
                            end in
  match station_apply io r ifname keep exists_ w with
  | (Raise e, w) => Some (Raise e, w)
  | (Ret (false, reason), w) => reverting reason w
  | (Ret (true, _), w) =>
      let expected := match manual r with Some st => address st | None => [] end in
      let static := match manual r with Some _ => true | None => false end in
      match wait_healthy fuel ifname expected static HEALTH_TIMEOUT w with
      | None => None
      | Some ((true, _), w) => Some (Ret STATE_APPLIED, write_result STATE_APPLIED [] w)
      | Some ((false, reason), w) => reverting reason w
      end
  end.
End Apply.

(** ** Termination of the polling loop *)

(** The monotonic clock does not run backwards, and a sleep takes its time. *)
Class ClockOk {N} (h : host N) : Prop := {
  clock_runner args fs n : h_monotonic h n ≤ h_monotonic h (h_runner h args fs n).2;
  clock_sleep d n : 0 ≤ d → h_monotonic h n + d ≤ h_monotonic h (h_sleep h d n);
}.

Section Health.
Context `{UnicodeDB} {N : Type} (h : host N) `{Hclock : !ClockOk h}.

Lemma text_clock args w :
  h_monotonic h (nm w) ≤ h_monotonic h (nm (_text h args w).2) ∧ n_log (_text h args w).2 = n_log w.
Proof.
  unfold _text. pose proof (clock_runner args (st_files (n_st w)) (nm w)) as Hc.
  destruct (h_runner h args (st_files (n_st w)) (nm w)) as [r n]. by split.
Qed.
Ltac use_text := match goal with |- context [_text ?h ?a ?w] =>
  pose proof (text_clock a w) as [Ht Hl]; destruct (_text h a w); by split end.
Lemma link_ready_clock ifname expected w :
  h_monotonic h (nm w) ≤ h_monotonic h (nm (_link_ready h ifname expected w).2) ∧
  n_log (_link_ready h ifname expected w).2 = n_log w.
Proof. unfold _link_ready. use_text. Qed.
Lemma ping_clock gateway w :
  h_monotonic h (nm w) ≤ h_monotonic h (nm (_ping h gateway w).2) ∧ n_log (_ping h gateway w).2 = n_log w.
Proof. unfold _ping. use_text. Qed.

(** The outcome [x] of a health check: a success saw a usable link, a failure lasted
    until the deadline. *)
Definition checked (ifname expected : pystr) (deadline : Z) (w : @net N) (x : (bool * pystr) * @net N) : Prop :=
  let '((ok, _), w') := x in
  n_log w' = n_log w ∧
  if ok then ∃ w1 gateway, (_link_ready h ifname expected w1).1 = Some gateway
  else deadline ≤ h_monotonic h (nm w').

Lemma health_loop_total ifname expected ping deadline fuel reason w :
  deadline ≤ h_monotonic h (nm w) + POLL * (Z.of_nat fuel - 1) → (0 < fuel)%nat →
  ∃ x, health_loop h fuel ifname expected ping deadline reason w = Some x ∧
       checked ifname expected deadline w x.
Proof.
  revert reason w. induction fuel as [|fuel IH]; intros reason w Hd Hf; [lia|]. cbn [health_loop].
  set (again := λ reason (w : @net N), if deadline <=? h_monotonic h (nm w) then Some ((false, reason), w)
    else health_loop h fuel ifname expected ping deadline reason (set_nm (h_sleep h POLL (nm w)) w)).
  assert (∀ reason w', h_monotonic h (nm w) ≤ h_monotonic h (nm w') → n_log w' = n_log w →
    ∃ x, again reason w' = Some x ∧ checked ifname expected deadline w x) as Hagain.
  { intros reason' w' Hm Hl. unfold again. destruct (Z.leb_spec deadline (h_monotonic h (nm w'))) as [Hle|Hgt].
    - eexists. split; [reflexivity|]. done.
    - pose proof (clock_sleep POLL (nm w') ltac:(unfold POLL; lia)) as Hs.
      set (w2 := set_nm (h_sleep h POLL (nm w')) w').
      assert (nm w2 = h_sleep h POLL (nm w')) as Hn by (by destruct w' as [[] ? ?]).
      assert (n_log w2 = n_log w) as Hl2 by (by destruct w' as [[] ? ?]).
      destruct (IH reason' w2) as ([[ok r] w3] & He & Hx); [rewrite Hn; lia| |].
      { destruct fuel; [|lia]. unfold POLL in *. lia. }
      exists ((ok, r), w3). split; [done|]. destruct Hx as [Hl3 Hx]. split; [congruence|done]. }
  destruct (link_ready_clock ifname expected w) as [Hm Hl].
  destruct (_link_ready h ifname expected w) as [[gateway|] w1] eqn:Hlr; simpl in Hm, Hl; [|by apply Hagain].
  destruct (ping_clock gateway w1) as [Hm2 Hl2].
  destruct (_ping h gateway w1) as [pong w2]. simpl in Hm2, Hl2.
  destruct (negb ping || pong); [|apply Hagain; [lia|congruence]].
  eexists. split; [reflexivity|]. split; [congruence|]. exists w, gateway. by rewrite Hlr.
Qed.

(** A health check returns.  With a clock that advances, one poll per two seconds
    of the timeout and one more are enough fuel; a positive answer saw an activated link with
    an address and a gateway, and a negative one was given no earlier than the
    timeout. *)
Theorem wait_healthy_returns ifname expected ping timeout fuel w :
  0 ≤ timeout → timeout ≤ POLL * (Z.of_nat fuel - 1) →
  ∃ ok reason w', wait_healthy h fuel ifname expected ping timeout w = Some ((ok, reason), w') ∧
    if ok then ∃ w1 gateway, (_link_ready h ifname expected w1).1 = Some gateway
    else h_monotonic h (nm w) + timeout ≤ h_monotonic h (nm w').
Proof.
  intros Ht Hf. unfold wait_healthy.
  destruct (health_loop_total ifname expected ping (h_monotonic h (nm w) + timeout) fuel
              (u "no IPv4 address or default route") w) as ([[ok r] w'] & -> & _ & Hx);
    [lia|unfold POLL in *; lia|].
  exists ok, r, (log_event (EHealth ok) w'). split; [done|]. destruct ok; [done|]. by destruct w' as [[] ? ?].
Qed.
End Health.

(** A machine whose NetworkManager answers [out] to every command, in 100 ms. *)
Definition answering (code : Z) (out : pystr) (key : option bytes) (hotspot : bool) : host Z := {|
  h_runner := λ _ _ t, (Ret (code, out), t + 100);
  h_monotonic := λ t, t; h_sleep := λ d t, t + d; h_clock := λ t, t / 1000;
  h_keyfile := λ _, key; h_write_keyfile := λ _ t, Some t;
  h_start_hotspot := λ t, (Ret hotspot, t); h_stop_hotspot := λ t, (Ret true, t);
  h_result_ok := λ _, true |}.
#[export] Instance answering_clock code out key hotspot : ClockOk (answering code out key hotspot).
Proof. split; simpl; lia. Qed.
Definition idle : @net Z := {| n_st := {| st_nm := 0; st_argv := []; st_files := [] |}; n_doc := None; n_log := [] |}.
Definition offline : host Z := answering 10 [] (Some [91]) true.
Definition online : host Z :=
  answering 0 (u "GENERAL.STATE:100 (connected)" ++ [10] ++ u "IP4.ADDRESS[1]:192.168.1.20/24" ++ [10] ++
               u "IP4.GATEWAY:192.168.1.1" ++ [10]) (Some [91]) true.

Lemma wait_healthy_returns_witness :
  ∃ w', wait_healthy offline 31 (u "wlan0") [] false HEALTH_TIMEOUT idle
        = Some ((false, u "no IPv4 address or default route"), w') ∧ 60000 ≤ nm w'.
Proof.
  edestruct (wait_healthy_returns offline (u "wlan0") [] false HEALTH_TIMEOUT 31 idle) as (ok & r & w' & He & Hx);
    [unfold HEALTH_TIMEOUT; lia|unfold HEALTH_TIMEOUT, POLL; lia|].
  vm_compute in He. simplify_eq. eexists. split; [vm_compute; reflexivity|exact Hx].
Defined.

(** ** The transaction *)

(** The steps between [applying] and the final result, by outcome. *)
Inductive change_failed : list net_event → Prop :=
  | rejected : change_failed [EApply false]
  | unhealthy : change_failed [EApply true; EHealth false].

Inductive transaction (snapshot : option bytes) : apply_state → list net_event → Prop :=
  | t_applied : transaction snapshot STATE_APPLIED [EApply true; EHealth true]
  | t_reverted l k :
      change_failed l → snapshot = Some k →
      transaction snapshot STATE_REVERTED (l ++ [ERestore snapshot true; EHealth true])
  | t_no_profile l (b : bool) :
      change_failed l → snapshot = None →
      transaction snapshot (if b then STATE_HOTSPOT else STATE_REVERTED) (l ++ [ERestore None true; EHotspot b])
  | t_not_restored l (b : bool) :
      change_failed l →
      transaction snapshot (if b then STATE_HOTSPOT else STATE_REVERTED) (l ++ [ERestore snapshot false; EHotspot b])
  | t_not_back l (b : bool) k :
      change_failed l → snapshot = Some k →
      transaction snapshot (if b then STATE_HOTSPOT else STATE_REVERTED)
        (l ++ [ERestore snapshot true; EHealth false; EHotspot b]).

Section Transaction.
Context `{UnicodeDB} {N : Type} (h : host N) `{Hclock : !ClockOk h}.
Abbreviation W := (@net N).

Lemma wait_healthy_log ifname expected ping timeout fuel (w : W) :
  0 ≤ timeout → timeout ≤ POLL * (Z.of_nat fuel - 1) →
  ∃ ok reason w', wait_healthy h fuel ifname expected ping timeout w = Some ((ok, reason), w') ∧
    n_log w' = n_log w ++ [EHealth ok].
Proof.
  intros Ht Hf. unfold wait_healthy.
  destruct (health_loop_total h ifname expected ping (h_monotonic h (nm w) + timeout) fuel
              (u "no IPv4 address or default route") w) as ([[ok r] w'] & -> & Hl & _);
    [lia|unfold POLL in *; lia|].
  exists ok, r, (log_event (EHealth ok) w'). split; [done|]. cbn. by rewrite Hl.
Qed.

(** The document after [write_result]. *)
Definition reports (s : apply_state) (w : W) : Prop := h_result_ok h (nm w) = true → res_state <$> n_doc w = Some s.
Lemma write_result_log s reason (w : W) :
  n_log (write_result h s reason w) = n_log w ++ [EResult s] ∧ reports s (write_result h s reason w).
Proof.
  unfold reports, write_result. destruct w as [st d l]. cbn. unfold nm. cbn.
  destruct (h_result_ok h (st_nm st)) eqn:E; cbn; [done|]. split; [done|]. congruence.
Qed.

Lemma log_event_log e (w : W) : n_log (log_event e w) = n_log w ++ [e].
Proof. done. Qed.
Lemma restore_log snapshot (w : W) :
  n_log (_restore h snapshot w).2 = n_log w ++ [ERestore snapshot (_restore h snapshot w).1] ∧
  (snapshot = None → (_restore h snapshot w).1 = true).
Proof.
  unfold _restore. destruct snapshot as [k|].
  - destruct (h_write_keyfile h k (nm w)) as [n|]; [|done]. split; [|done]. cbn [fst snd].
    by rewrite log_event_log, !(proj2 (text_clock h _ _)).
  - split; [|done]. cbn [fst snd]. by rewrite log_event_log, !(proj2 (text_clock h _ _)).
Qed.
Lemma start_hotspot_log (w : W) : n_log (start_hotspot h w).2 = n_log w ++ [EHotspot (start_hotspot h w).1].
Proof. unfold start_hotspot. by destruct (h_start_hotspot h (nm w)). Qed.

Definition done_with (snapshot : option bytes) (before : list net_event) (l : list net_event) (s : apply_state) (w' : W) : Prop :=
  ∃ l', transaction snapshot s (l ++ l') ∧ n_log w' = before ++ l ++ l' ++ [EResult s] ∧ reports s w'.

Lemma revert_log fuel ifname snapshot reason before l (w : W) :
  RESTORE_TIMEOUT ≤ POLL * (Z.of_nat fuel - 1) → change_failed l → n_log w = before ++ l →
  ∃ s w', revert h fuel ifname snapshot reason w = Some (s, w') ∧ done_with snapshot before l s w'.
Proof.
  intros Hf Hl Hw. unfold revert. set (why := match reason with [] => u "activation failed" | _ => reason end).
  destruct (restore_log snapshot w) as [Hr Hn]. destruct (_restore h snapshot w) as [restored w1]. simpl in Hr, Hn.
  assert (∀ l' (w2 : W), n_log w2 = before ++ l ++ l' →
    (∀ b : bool, transaction snapshot (if b then STATE_HOTSPOT else STATE_REVERTED) (l ++ l' ++ [EHotspot b])) →
    ∃ s w', (let '(started, w) := start_hotspot h w2 in
             let s := if started then STATE_HOTSPOT else STATE_REVERTED in
             Some (s, write_result h s (why ++ u "; previous network did not come back") w)) = Some (s, w') ∧
            done_with snapshot before l s w') as Hlast.
  { intros l' w2 Hw2 Ht. pose proof (start_hotspot_log w2) as Hs. destruct (start_hotspot h w2) as [b w3]. simpl in Hs.
    eexists _, _. split; [reflexivity|]. exists (l' ++ [EHotspot b]).
    edestruct write_result_log as [Hlog Hrep]. split; [apply Ht|]. split; [|exact Hrep].
    rewrite Hlog, Hs, Hw2. by rewrite <-!app_assoc. }
  destruct restored; [destruct snapshot as [k|]|].
  - destruct (wait_healthy_log ifname [] false RESTORE_TIMEOUT fuel w1) as (ok & r & w2 & -> & Hl2);
      [unfold RESTORE_TIMEOUT; lia|done|]. rewrite Hr, Hw in Hl2. destruct ok.
    + edestruct write_result_log as [Hlog Hrep]. eexists _, _. split; [reflexivity|].
      exists [ERestore (Some k) true; EHealth true]. split; [by eapply t_reverted|]. split; [|exact Hrep].
      rewrite Hlog, Hl2. by rewrite <-!app_assoc.
    + apply (Hlast [ERestore (Some k) true; EHealth false]); [by rewrite Hl2, <-!app_assoc|].
      intros b. cbn [app]. by eapply t_not_back.
  - apply (Hlast [ERestore None true]); [by rewrite Hr, Hw, <-app_assoc|]. intros b. by apply t_no_profile.
  - assert (restored_false : n_log w1 = before ++ l ++ [ERestore snapshot false]) by (by rewrite Hr, Hw, <-app_assoc).
    destruct snapshot; (eapply (Hlast [ERestore _ false]); [exact restored_false|]; intros b; by apply t_not_restored).
Qed.

(** C11: with a clock that does not run backwards and 31 polls of fuel, the transaction ends, and
    never leaves the device out of reach without trying the hotspot.  Either [run] returns
    [applied], [reverted] or [hotspot], the result document says so if it can be written,
    and its steps are one of the five sequences of [transaction]: a healthy link after the change,
    the snapshot taken before the change restored and healthy, or an attempt to start the
    hotspot.  Or the password has no UTF-8 encoding (a lone surrogate) and [run] raises:
    no step was taken after the profile was changed, and the document still says [applying]. *)
Theorem run_outcome fuel io ifname r (w : W) :
  (31 ≤ fuel)%nat →
  let snapshot := h_keyfile h (nm (_profile_info h (write_result h STATE_APPLYING [] w)).2) in
  ∃ res w', run h fuel io ifname r w = Some (res, w') ∧
    match res with
    | Ret s => ∃ l, transaction snapshot s l ∧ n_log w' = n_log w ++ [EResult STATE_APPLYING] ++ l ++ [EResult s] ∧
        (h_result_ok h (nm w') = true → res_state <$> n_doc w' = Some s)
    | Raise _ => utf8_encode (psk r) = None ∧ n_log w' = n_log w ++ [EResult STATE_APPLYING] ∧
        (h_result_ok h (nm w) = true → res_state <$> n_doc w' = Some STATE_APPLYING)
    end.
Proof.
  intros Hf. cbv zeta. unfold run. destruct (write_result_log STATE_APPLYING [] w) as [Hw0 Hrep0].
  assert (h_result_ok h (nm w) = true → res_state <$> n_doc (write_result h STATE_APPLYING [] w) = Some STATE_APPLYING) as Hdoc.
  { intros Hr. apply Hrep0. unfold write_result.
    change (nm (log_event (EResult STATE_APPLYING) w)) with (nm w). by rewrite Hr. }
  set (w0 := write_result h STATE_APPLYING [] w) in *.
  assert (n_log (_profile_info h w0).2 = n_log w0 ∧ n_doc (_profile_info h w0).2 = n_doc w0) as [Hw1 Hd1].
  { unfold _profile_info. match goal with |- context [_text h ?a w0] =>
      pose proof (text_clock h a w0) as [_ Hl]; assert (n_doc (_text h a w0).2 = n_doc w0) as Hd
        by (unfold _text; by destruct (h_runner h _ _ _)); by destruct (_text h a w0) as [[out|] w1] end. }
  destruct (_profile_info h w0) as [[[ex cur] wpa] w1]. simpl in Hw1, Hd1. cbn [snd].
  set (snapshot := h_keyfile h (nm w1)). set (keep := _ && _).
  assert (∀ e st, apply (h_runner h) io (ssid r) (psk r) ifname (Some (manual r)) keep (Some ex) (n_st w1) = (Raise e, st) →
    utf8_encode (psk r) = None) as Hraise.
  { intros e st He. destruct (utf8_encode (psk r)) as [b|] eqn:Hb; [|done].
    destruct (apply_returns (h_runner h) io (ssid r) (psk r) b ifname (Some (manual r)) keep (Some ex) (n_st w1) Hb) as (x & st' & Hx). congruence. }
  unfold station_apply. destruct (apply (h_runner h) io _ _ _ _ _ _ _) as [[[ok reason]|e] st].
  2: { eexists _, _. split; [reflexivity|]. split; [by eapply Hraise|]. split; [exact (eq_trans Hw1 Hw0)|].
    intros Hr. change (res_state <$> n_doc w1 = Some STATE_APPLYING). rewrite Hd1. by apply Hdoc. }
  clear Hraise Hdoc Hd1.
  set (before := n_log w ++ [EResult STATE_APPLYING]).
  assert (n_log w1 = before) as Hbefore by (by rewrite Hw1, Hw0).
  assert (∀ x : list net_event, n_log w ++ [EResult STATE_APPLYING] ++ x = before ++ x) as Happ
    by (intros; unfold before; by rewrite <-app_assoc).
  assert (∀ why l (w2 : W), change_failed l → n_log w2 = before ++ l →
    ∃ res w', match revert h fuel ifname snapshot why w2 with Some (s, w) => Some (Ret s, w) | None => None end = Some (res, w') ∧
      match res with
      | Ret s => ∃ l', transaction snapshot s l' ∧ n_log w' = n_log w ++ [EResult STATE_APPLYING] ++ l' ++ [EResult s] ∧ reports s w'
      | Raise _ => utf8_encode (psk r) = None ∧ n_log w' = before ∧ (h_result_ok h (nm w) = true → res_state <$> n_doc w' = Some STATE_APPLYING)
      end) as Hrev.
  { intros why l w2 Hl Hw2. destruct (revert_log fuel ifname snapshot why before l w2) as (s & w' & -> & l' & Ht & Hlog & Hr);
      [unfold RESTORE_TIMEOUT, POLL; lia|done|done|].
    exists (Ret s), w'. split; [done|]. exists (l ++ l'). split; [done|]. split; [|done]. by rewrite Happ, Hlog, <-!app_assoc. }
  destruct ok; cbn iota beta.
  - match goal with |- context [wait_healthy h fuel ifname ?e ?p HEALTH_TIMEOUT ?x] =>
      destruct (wait_healthy_log ifname e p HEALTH_TIMEOUT fuel x) as (ok & why & w2 & -> & Hl2) end;
      [unfold HEALTH_TIMEOUT; lia|unfold HEALTH_TIMEOUT, POLL; lia|].
    rewrite log_event_log in Hl2. change (n_log w1{{n_st := st}}) with (n_log w1) in Hl2.
    rewrite Hbefore, <-app_assoc in Hl2. destruct ok.
    + edestruct write_result_log as [Hlog Hrep]. eexists (Ret _), _. split; [reflexivity|]. exists [EApply true; EHealth true]. split; [constructor|]. split; [|exact Hrep]. rewrite Happ, Hlog, Hl2. by rewrite <-app_assoc.
    + apply (Hrev _ [EApply true; EHealth false]); [constructor|exact Hl2].
  - apply (Hrev _ [EApply false]); [constructor|]. by rewrite <-Hbefore.
Qed.
End Transaction.

Lemma run_outcome_witness :
  ∃ w' l, run offline 31 tmp_io (u "wlan0") static_request idle = Some (Ret STATE_HOTSPOT, w') ∧
    transaction (Some [91]) STATE_HOTSPOT l.
Proof.
  destruct (run_outcome offline 31 tmp_io (u "wlan0") static_request idle) as (s & w' & He & Ht); [lia|].
  assert (s = Ret STATE_HOTSPOT) as -> by (vm_compute in He; congruence).
  destruct Ht as (l & Ht & _). exists w', l. split; [exact He|exact Ht].
Defined.
