(* ===== verification/Watchdog.v ===== *)
(** [app/network_watchdog.py]: one pass per minute that starts the setup hotspot when
    the station link has been unusable for too long, and retries the station while the
    hotspot is up.  The wall clock is in seconds. *)
From S2P Require Import Prelude PyValue NetworkSettings WifiStation NetworkApply.

Definition DEFAULT_MINUTES := 10.
Definition RETRY_MINUTES := 10.
Definition RECOVERY_TIMEOUT := 30000.

Inductive outcome :=
  | DISABLED | UNCLAIMED | BUSY | HEALTHY | WAITING | HOTSPOT_STARTED | HOTSPOT_HELD
  | RECOVERED | RECOVERY_FAILED.
#[export] Instance outcome_eq_dec : EqDecision outcome.
Proof. solve_decision. Defined.

(** [threshold_minutes]: the value of the environment variable, [''] when unset. *)
Definition threshold_minutes `{UnicodeDB} (raw : pystr) : Z :=
  match int_of_str (strip raw) with
  | None => DEFAULT_MINUTES
  | Some v => if in_range 0 (24 * 60) v then v else DEFAULT_MINUTES
  end.

(** The document in [/run], which only this program writes; [{}] is [no_state]. *)
Record wd_state := {
  d_down_since : option Z;
  d_hotspot : bool;
  d_last_retry : option Z;
  d_since : option Z;
}.
Definition no_state : wd_state :=
  {| d_down_since := None; d_hotspot := false; d_last_retry := None; d_since := None |}.
#[export] Instance wd_state_eq_dec : EqDecision wd_state.
Proof. solve_decision. Defined.

Section Watchdog.
Context `{UnicodeDB} {N : Type} (h : host N).
(** Whether the state document can be written. *)
Variable save_ok : N → bool.

Record wd_world := { w_net : @net N; w_state : wd_state }.

Definition save_state (s : wd_state) (w : wd_world) : wd_world :=
  if save_ok (nm (w_net w)) then w{{w_state := s}} else w.

Definition call_hotspot (f : N → res bool * N) (n : @net N) : bool * @net N :=
  let '(x, nm') := f (nm n) in (match x with Ret b => b | Raise _ => false end, set_nm nm' n).

Definition _retry_station (fuel : nat) (ifname : pystr) (w : wd_world) : option (outcome * wd_world) :=
  let state := w_state w in
  let now := h_clock h (nm (w_net w)) in
  let n := (_text h _up_command (w_net w)).2 in
  match wait_healthy h fuel ifname [] false RECOVERY_TIMEOUT n with
  | None => None
  | Some ((true, _), n) =>
      let n := (call_hotspot (h_stop_hotspot h) n).2 in
      let w := save_state no_state (w{{w_net := n}}) in
      Some (RECOVERED, w{{w_net := write_result h STATE_APPLIED (u "the network came back; hotspot stopped") (w_net w)}})
  | Some ((false, _), n) =>
      let n := (call_hotspot (h_start_hotspot h) n).2 in
      Some (RECOVERY_FAILED, save_state (state{{d_last_retry := Some now}}) (w{{w_net := n}}))
  end.

Definition busy (doc : option result_doc) (now : Z) : bool :=
  match read_result doc now with
  | Some v => bool_decide (res_state v = STATE_APPLYING)
  | None => false
  end.

Definition tick (fuel : nat) (minutes : Z) (ifname : pystr) (w : wd_world) : option (outcome * wd_world) :=
  if minutes <=? 0 then Some (DISABLED, w) else
  let '((exists_, _, _), n) := _profile_info h (w_net w) in
  let w := w{{w_net := n}} in
  if negb exists_ then Some (UNCLAIMED, w) else
  let now := h_clock h (nm n) in
  if busy (n_doc n) now then Some (BUSY, w) else
  let state := w_state w in
  if d_hotspot state then
    if now - default now (d_last_retry state) <? RETRY_MINUTES * 60 then Some (HOTSPOT_HELD, w)
    else _retry_station fuel ifname w
  else
    let '(ready, n) := _link_ready h ifname [] n in
    let w := w{{w_net := n}} in
    match ready with
    | Some _ => Some (HEALTHY, if bool_decide (state = no_state) then w else save_state no_state w)
    | None =>
        match d_down_since state with
        | Some down_since =>
            if now <? down_since then Some (WAITING, save_state (no_state{{d_down_since := Some now}}) w)
            else if now - down_since <? minutes * 60 then Some (WAITING, w)
            else
              let '(started, n) := call_hotspot (h_start_hotspot h) n in
              let w := w{{w_net := n}} in
              if negb started then Some (WAITING, w)
              else
                let w := save_state {| d_down_since := None; d_hotspot := true; d_last_retry := Some now;
                                       d_since := Some down_since |} w in
                Some (HOTSPOT_STARTED,
                      w{{w_net := write_result h STATE_HOTSPOT
                           (u "no network for " ++ str_of_int minutes ++ u " minutes; the setup hotspot was started")
                           (w_net w)}})
        | None => Some (WAITING, save_state (no_state{{d_down_since := Some now}}) w)
        end
    end.

(** ** Runs of the timer *)

(** The time a pass takes as "now". *)
Definition tick_time (n : @net N) : Z := h_clock h (nm (_profile_info h n).2).

(** What the watchdog did so far, and the document it left.  Between two passes the
    network, its clocks and the result document change at will. *)
Inductive history (fuel : nat) (minutes : Z) (ifname : pystr) : list (Z * outcome) → wd_state → Prop :=
  | no_pass : history fuel minutes ifname [] no_state
  | one_pass past s n o w' :
      history fuel minutes ifname past s → tick fuel minutes ifname {| w_net := n; w_state := s |} = Some (o, w') →
      history fuel minutes ifname (past ++ [(tick_time n, o)]) (w_state w').

(** An outage that the watchdog has seen start at [t0] and not end since. *)
Definition outage (past : list (Z * outcome)) (t0 : Z) : Prop :=
  ∃ before since, past = before ++ (t0, WAITING) :: since ∧ Forall (λ e, e.2 ≠ HEALTHY) since.

Hypothesis Hsave : ∀ n, save_ok n = true.

Lemma outage_grows past t0 e : outage past t0 → e.2 ≠ HEALTHY → outage (past ++ [e]) t0.
Proof.
  intros (before & since & -> & Hs) He. exists before, (since ++ [e]). split; [by rewrite <-app_assoc|].
  apply Forall_app_2; [done|]. by constructor.
Qed.
Lemma outage_starts past t0 : outage (past ++ [(t0, WAITING)]) t0.
Proof. by exists past, []. Qed.

Lemma save_state_doc s w : w_state (save_state s w) = s.
Proof. unfold save_state. rewrite Hsave. done. Qed.

(** One pass: the document after it, by outcome. *)
Lemma tick_cases fuel minutes ifname n s o w' :
  tick fuel minutes ifname {| w_net := n; w_state := s |} = Some (o, w') →
  let now := tick_time n in
  match o with
  | DISABLED | UNCLAIMED | BUSY | HOTSPOT_HELD => w_state w' = s
  | HEALTHY | RECOVERED => w_state w' = no_state
  | RECOVERY_FAILED => d_hotspot s = true ∧ ∃ t, w_state w' = s{{d_last_retry := Some t}}
  | HOTSPOT_STARTED => d_down_since (w_state w') = None ∧ d_hotspot s = false ∧
      ∃ t0, d_down_since s = Some t0 ∧ t0 ≤ now ∧ minutes * 60 ≤ now - t0
  | WAITING => d_hotspot s = false ∧
      (w_state w' = s ∧ d_down_since s ≠ None ∨ w_state w' = no_state{{d_down_since := Some now}})
  end.
Proof.
  unfold tick, tick_time. destruct (minutes <=? 0); [by intros [= <- <-]|]. cbn [w_net w_state].
  destruct (_profile_info h n) as [[[ex cur] wpa] n1]. cbn [snd].
  destruct ex; cbn [negb]; [|by intros [= <- <-]]. destruct (busy _ _); [by intros [= <- <-]|].
  change (w_state {| w_net := n; w_state := s |}{{w_net := n1}}) with s. destruct (d_hotspot s) eqn:Hh.
  - destruct (_ <? RETRY_MINUTES * 60); [by intros [= <- <-]|]. unfold _retry_station.
    destruct (wait_healthy _ _ _ _ _ _ _) as [[[[] r] n2]|]; [| |done]; intros [= <- <-].
    + exact (save_state_doc no_state _).
    + rewrite save_state_doc. eauto.
  - destruct (_link_ready h ifname [] n1) as [[gw|] n2].
    + case_bool_decide; intros [= <- <-]; [done|]. by rewrite save_state_doc.
    + destruct (d_down_since s) as [t0|] eqn:Hd.
      * destruct (Z.ltb_spec (h_clock h (nm n1)) t0); [intros [= <- <-]; rewrite save_state_doc; eauto|].
        destruct (Z.ltb_spec (h_clock h (nm n1) - t0) (minutes * 60)); [intros [= <- <-]; eauto|].
        destruct (call_hotspot _ n2) as [[] n3]; cbn [negb]; intros [= <- <-]; [|eauto].
        split; [exact (f_equal d_down_since (save_state_doc _ _))|]. eauto 10.
      * intros [= <- <-]. rewrite save_state_doc. auto.
Qed.

Lemma history_outage fuel minutes ifname past s :
  history fuel minutes ifname past s →
  (d_hotspot s = true → d_down_since s = None) ∧ ∀ t0, d_down_since s = Some t0 → outage past t0.
Proof.
  induction 1 as [|past s n o w' Hp [IHh IH] Ht]; [done|]. apply tick_cases in Ht. cbv zeta in Ht.
  destruct o; try (rewrite Ht; split; [done|]; intros t0 Hd; apply outage_grows; [by apply IH|done]);
    try (rewrite Ht; split; [done|]; intros t0 [=]).
  - destruct Ht as [Hs [[-> _]| ->]]; cbn.
    + split; [by rewrite Hs|]. intros t0 Hd. apply outage_grows; [by apply IH|done].
    + split; [done|]. unfold constant. intros t0 [= <-]. apply outage_starts.
  - destruct Ht as (Hn & _). rewrite Hn. done.
  - destruct Ht as (Hs & t & ->). destruct s. cbn in *. rewrite (IHh Hs). done.
Qed.

(** The hotspot is never started early.  Whenever a pass starts it, an earlier
    pass had found the link unusable at least the threshold before, and no pass in
    between found it usable (the state document being writable). *)
Theorem hotspot_only_after_outage fuel minutes ifname past s n w' :
  history fuel minutes ifname past s →
  tick fuel minutes ifname {| w_net := n; w_state := s |} = Some (HOTSPOT_STARTED, w') →
  ∃ t0 before since, past = before ++ (t0, WAITING) :: since ∧
    Forall (λ e, e.2 ≠ HEALTHY) since ∧ minutes * 60 ≤ tick_time n - t0.
Proof.
  intros Hp Ht. apply tick_cases in Ht as (_ & _ & t0 & Hd & _ & Hm).
  destruct (history_outage _ _ _ _ _ Hp) as [_ Ho]. destruct (Ho t0 Hd) as (before & since & -> & Hs).
  by exists t0, before, since.
Qed.

(** ** The hotspot does come up *)

(** A pass on a claimed device, with no change running, that finds the link unusable
    and can start the hotspot. *)
Record link_down (ifname : pystr) (n : @net N) : Prop := {
  down_claimed : (_profile_info h n).1.1.1 = true;
  down_idle : busy (n_doc (_profile_info h n).2) (tick_time n) = false;
  down_link : (_link_ready h ifname [] (_profile_info h n).2).1 = None;
  down_start m : ∃ m', h_start_hotspot h m = (Ret true, m');
}.

(** The outcomes of a sequence of passes. *)
Fixpoint passes (fuel : nat) (minutes : Z) (ifname : pystr) (ns : list (@net N)) (s : wd_state)
    : option (list outcome) :=
  match ns with
  | [] => Some []
  | n :: ns' =>
      match tick fuel minutes ifname {| w_net := n; w_state := s |} with
      | None => None
      | Some (o, w') =>
          match passes fuel minutes ifname ns' (w_state w') with
          | Some os => Some (o :: os)
          | None => None
          end
      end
  end.

Lemma tick_down fuel minutes ifname n s :
  0 < minutes → link_down ifname n → d_hotspot s = false →
  let now := tick_time n in
  ∃ w', match d_down_since s with
        | Some t0 =>
            if t0 <=? now then
              if minutes * 60 <=? now - t0
              then tick fuel minutes ifname {| w_net := n; w_state := s |} = Some (HOTSPOT_STARTED, w')
              else tick fuel minutes ifname {| w_net := n; w_state := s |} = Some (WAITING, w') ∧ w_state w' = s
            else tick fuel minutes ifname {| w_net := n; w_state := s |} = Some (WAITING, w')
        | None => tick fuel minutes ifname {| w_net := n; w_state := s |} = Some (WAITING, w') ∧
                  w_state w' = no_state{{d_down_since := Some now}}
        end.
Proof.
  intros Hm [Hc Hi Hl Hs] Hh. cbv zeta. unfold tick, tick_time in *.
  rewrite (proj2 (Z.leb_gt _ _)) by done. cbn [w_net w_state].
  destruct (_profile_info h n) as [[[ex cur] wpa] n1]. cbn [fst snd] in *. subst ex. cbn [negb]. rewrite Hi.
  change (w_state {| w_net := n; w_state := s |}{{w_net := n1}}) with s. rewrite Hh.
  destruct (_link_ready h ifname [] n1) as [r n2]. cbn [fst] in Hl. subst r.
  destruct (d_down_since s) as [t0|]; [|eexists; split; [reflexivity|by rewrite save_state_doc]].
  destruct (Z.leb_spec t0 (h_clock h (nm n1))).
  - rewrite (proj2 (Z.ltb_ge _ _)) by done. destruct (Z.leb_spec (minutes * 60) (h_clock h (nm n1) - t0)).
    + rewrite (proj2 (Z.ltb_ge _ _)) by done. unfold call_hotspot. destruct (Hs (nm n2)) as (m' & ->). by eexists.
    + rewrite (proj2 (Z.ltb_lt _ _)) by done. by eexists.
  - rewrite (proj2 (Z.ltb_lt _ _)) by done. by eexists.
Qed.

(** Passes that wait, up to one that starts the hotspot. *)
Definition hotspot_comes_up (fuel : nat) (minutes : Z) (ifname : pystr) (ns : list (@net N)) (s : wd_state) : Prop :=
  ∃ k waiting, passes fuel minutes ifname (take k ns) s = Some (waiting ++ [HOTSPOT_STARTED]) ∧ Forall (eq WAITING) waiting.
Lemma comes_up_now fuel minutes ifname n ns s w' :
  tick fuel minutes ifname {| w_net := n; w_state := s |} = Some (HOTSPOT_STARTED, w') → hotspot_comes_up fuel minutes ifname (n :: ns) s.
Proof. intros Ht. exists 1%nat, []. cbn [take passes]. by rewrite Ht. Qed.
Lemma comes_up_later fuel minutes ifname n ns s w' :
  tick fuel minutes ifname {| w_net := n; w_state := s |} = Some (WAITING, w') →
  hotspot_comes_up fuel minutes ifname ns (w_state w') → hotspot_comes_up fuel minutes ifname (n :: ns) s.
Proof.
  intros Ht (k & waiting & Hp & Hw). exists (S k), (WAITING :: waiting). cbn [take passes]. rewrite Ht, Hp. by split; [|constructor].
Qed.
Lemma passes_down fuel minutes ifname t0 ns last s :
  0 < minutes → d_hotspot s = false → d_down_since s = Some t0 →
  Forall (λ n, link_down ifname n ∧ t0 ≤ tick_time n) (ns ++ [last]) → minutes * 60 ≤ tick_time last - t0 →
  hotspot_comes_up fuel minutes ifname (ns ++ [last]) s.
Proof.
  intros Hm. revert s. induction ns as [|n ns IH]; intros s Hh Hd Hall Hlast; cbn [app];
    apply Forall_cons in Hall as [[Hdown Hle] Hall];
    destruct (tick_down fuel minutes ifname _ s Hm Hdown Hh) as (w' & Ht); rewrite Hd in Ht;
    rewrite (proj2 (Z.leb_le _ _)) in Ht by done.
  - rewrite (proj2 (Z.leb_le _ _)) in Ht by done. by eapply comes_up_now.
  - destruct (minutes * 60 <=? tick_time n - t0); [by eapply comes_up_now|].
    destruct Ht as [Ht Hw]. eapply comes_up_later; [exact Ht|]. rewrite Hw. by apply IH.
Qed.

(** C33: the hotspot does come up.  For a positive threshold and a state document that can be
    written: start from any state in which the hotspot is not up and no outage is recorded (as after a
    boot), or one that began before the first pass.  If each pass finds a claimed device,
    no change of the network running (no result [applying], which makes a pass [BUSY]), an unusable
    link and a hotspot that can be started, no pass is earlier than the first by the wall clock,
    and the last is at least the threshold after it, then the passes wait
    until one of them starts the hotspot. *)
Theorem hotspot_starts_after_outage fuel minutes ifname first ns last s :
  0 < minutes → d_hotspot s = false → default (tick_time first) (d_down_since s) ≤ tick_time first →
  link_down ifname first → Forall (λ n, link_down ifname n ∧ tick_time first ≤ tick_time n) (ns ++ [last]) →
  minutes * 60 ≤ tick_time last - tick_time first →
  hotspot_comes_up fuel minutes ifname (first :: ns ++ [last]) s.
Proof.
  intros Hm Hh Hsince Hf Hall Hlast. destruct (d_down_since s) as [t0|] eqn:Hd; cbn [default] in Hsince.
  - apply (passes_down fuel minutes ifname t0 (first :: ns) last s); [done|done|done| |unfold default in Hsince; simpl in Hsince; lia].
    cbn [app]. constructor; [by split|]. eapply Forall_impl; [exact Hall|]. simpl in *. intros n [? ?]. split; [done|lia].
  - destruct (tick_down fuel minutes ifname first s Hm Hf Hh) as (w' & Ht). rewrite Hd in Ht. destruct Ht as [Ht Hw].
    eapply comes_up_later; [exact Ht|]. rewrite Hw. by eapply passes_down.
Qed.
End Watchdog.

(** A claimed device that lost its network at time 0: NetworkManager knows the profile
    but the device has no address; one pass a minute. *)
Definition claimed_offline : host Z := {|
  h_runner := λ args _ t, (Ret (if bool_decide (args !! 4%nat = Some (u "connection")) then 0 else 10, []), t);
  h_monotonic := λ t, t; h_sleep := λ d t, t + d; h_clock := λ t, t;
  h_keyfile := λ _, None; h_write_keyfile := λ _ t, Some t;
  h_start_hotspot := λ t, (Ret true, t); h_stop_hotspot := λ t, (Ret true, t);
  h_result_ok := λ _, true |}.
Definition at_time (t : Z) : @net Z := idle{{n_st := {| st_nm := t; st_argv := []; st_files := [] |} }}.
Definition always : Z → bool := λ _, true.

Lemma claimed_offline_down t : link_down claimed_offline (u "wlan0") (at_time t).
Proof. split; try reflexivity. intros m. by exists m. Qed.

Lemma hotspot_starts_after_outage_witness :
  passes claimed_offline always 16 10 (u "wlan0") [at_time 0; at_time 300; at_time 600] no_state
  = Some [WAITING; WAITING; HOTSPOT_STARTED] ∧
  hotspot_comes_up claimed_offline always 16 10 (u "wlan0") [at_time 0; at_time 300; at_time 600] no_state.
Proof.
  split; [vm_compute; reflexivity|].
  apply (hotspot_starts_after_outage claimed_offline always (λ _, eq_refl) 16 10 (u "wlan0") (at_time 0) [at_time 300]
           (at_time 600) no_state).
  - lia.
  - done.
  - vm_compute. discriminate.
  - apply claimed_offline_down.
  - do 2 (apply Forall_cons; split; [split; [apply claimed_offline_down|vm_compute; discriminate]|]). constructor.
  - vm_compute. discriminate.
Defined.

Definition down_0 : wd_state := no_state{{d_down_since := Some 0}}.
Definition seen (t : Z) : Z := tick_time claimed_offline (at_time t).

Lemma hotspot_only_after_outage_witness :
  ∃ t0 before since, [] ++ [(seen 0, WAITING)] ++ [(seen 300, WAITING)] = before ++ (t0, WAITING) :: since ∧
    Forall (λ e : Z * outcome, e.2 ≠ HEALTHY) since ∧ 10 * 60 ≤ seen 600 - t0.
Proof.
  eapply (hotspot_only_after_outage claimed_offline always (λ _, eq_refl) 16 10 (u "wlan0") _ down_0 (at_time 600)).
  - eapply (one_pass _ _ _ _ _ [(seen 0, WAITING)] down_0 (at_time 300) WAITING {| w_net := _; w_state := down_0 |}).
    + eapply (one_pass _ _ _ _ _ [] no_state (at_time 0) WAITING {| w_net := _; w_state := down_0 |});
        [constructor|vm_compute; reflexivity].
    + vm_compute. reflexivity.
  - vm_compute. reflexivity.
Defined.
