(* ===== verification/StreamMux.v ===== *)
(** [app/stream_mux.py]: the SPS patch, the fan-out queues and the keyframe buffer of
    the H.264 multiplexer. *)
From S2P Require Import Prelude PyValue.

Definition MAX_QUEUE : nat := 120.
Definition START : bytes := [0; 0; 0; 1].
Definition SPS_PROFILE_IDC := 66.
Definition SPS_CONSTRAINT_FLAGS := 224.
Definition SPS_LEVEL_IDC := 31.
Definition nal_type (b : Z) : Z := Z.land b 31.

(** [data.find(pat, i)]. *)
Fixpoint find_suffix (pat l : bytes) (pos : nat) : option nat :=
  if starts_with pat l then Some pos
  else match l with [] => None | _ :: l' => find_suffix pat l' (S pos) end.
Definition find_from (pat data : bytes) (i : nat) : option nat :=
  if (i <=? length data)%nat then find_suffix pat (drop i data) i else None.

(** One pass of the loop of [patch_sps] at the start code [j]. *)
Definition patch_at (j : nat) (out : bytes) : bytes :=
  let k := (j + 3)%nat in
  if (k + 3 <? length out)%nat && (nal_type (nth k out 0) =? 7)
  then <[(k + 3)%nat := SPS_LEVEL_IDC]> (<[(k + 2)%nat := SPS_CONSTRAINT_FLAGS]> (<[(k + 1)%nat := SPS_PROFILE_IDC]> out))
  else out.
Fixpoint patch_loop (fuel : nat) (out : bytes) (i : nat) : option bytes :=
  match fuel with
  | O => None
  | S fuel =>
      match find_from [0; 0; 1] out i with
      | None => Some out
      | Some j => patch_loop fuel (patch_at j out) (j + 3)
      end
  end.
Definition patch_sps (data : bytes) : option bytes := patch_loop (S (length data)) data 0.

(** ** Channels *)

Record Channel := { ch_patch : bool; ch_clients : list (list bytes); ch_keyframe : bytes }.

(** [while len(q) > MAX_QUEUE: q.popleft()]. *)
Fixpoint trim_queue (fuel : nat) (q : list bytes) : list bytes :=
  match fuel, q with
  | S fuel, _ :: q' => if (MAX_QUEUE <? length q)%nat then trim_queue fuel q' else q
  | _, _ => q
  end.
Definition enqueue (data : bytes) (q : list bytes) : list bytes :=
  let q := q ++ [data] in trim_queue (length q) q.

(** What a channel carries of a chunk. *)
Definition outgoing (patch : bool) (data : bytes) : bytes :=
  if patch then default data (patch_sps data) else data.

Definition broadcast (data : bytes) (ch : Channel) : Channel :=
  ch{{ch_clients := map (enqueue (outgoing (ch_patch ch) data)) (ch_clients ch)}}.
Definition set_keyframe (data : bytes) (ch : Channel) : Channel := ch{{ch_keyframe := data}}.

(** [_handle]: a client reads the bootstrap, and is registered when it was sent. *)
Definition bootstrap (ch : Channel) : bytes := ch_keyframe ch.
Definition register (ch : Channel) : Channel := ch{{ch_clients := ch_clients ch ++ [ [] ] }}.
(** The sender of client [i] takes the next chunk. *)
Definition pop_client (i : nat) (ch : Channel) : option bytes * Channel :=
  match ch_clients ch !! i with
  | Some (c :: q) => (Some c, ch{{ch_clients := <[i := q]> (ch_clients ch)}})
  | _ => (None, ch)
  end.

(** ** The keyframe buffer *)

Definition keyframe_nal (b : Z) : bool := (nal_type b =? 5) || (nal_type b =? 7).

Fixpoint keyframe_scan (fuel : nat) (data : bytes) (found : option nat) : bool :=
  match fuel, found with
  | S fuel, Some i =>
      if (i + 4 <? length data)%nat then
        if keyframe_nal (nth (i + 4) data 0) then true
        else keyframe_scan fuel data (find_from START data (i + 4))
      else false
  | _, _ => false
  end.
Definition _is_keyframe_start (data : bytes) : bool :=
  keyframe_scan (S (length data)) data (find_from START data 0).

(** The first offset below [len(chunk) - 4] with a start code of an SPS or IDR. *)
Definition keyframe_at (chunk : bytes) (i : nat) : bool :=
  starts_with START (drop i chunk) && keyframe_nal (nth (i + 4) chunk 0).
Definition sps_pos (chunk : bytes) : nat :=
  match find (keyframe_at chunk) (seq 0 (length chunk - 4)) with
  | Some i => i
  | None => length chunk
  end.

Record mux := { kf_buf : bytes; channels : list Channel }.
Definition new_mux : mux :=
  {| kf_buf := [];
     channels := [ {| ch_patch := false; ch_clients := []; ch_keyframe := [] |};
                   {| ch_patch := true; ch_clients := []; ch_keyframe := [] |} ] |}.

Definition PROMOTE := 32768.
Definition buffer_chunk (chunk : bytes) (m : mux) : mux :=
  if _is_keyframe_start chunk then m{{kf_buf := drop (sps_pos chunk) chunk}}
  else match kf_buf m with
       | [] => m
       | _ =>
           let buf := kf_buf m ++ chunk in
           if PROMOTE <? Z.of_nat (length buf)
           then {| kf_buf := [];
                   channels := map (λ ch, set_keyframe (outgoing (ch_patch ch) buf) ch) (channels m) |}
           else m{{kf_buf := buf}}
       end.
(** One turn of the main loop, on a chunk that is not empty. *)
Definition feed (chunk : bytes) (m : mux) : mux :=
  let m := buffer_chunk chunk m in m{{channels := map (broadcast chunk) (channels m)}}.

(** ** Searching *)

Lemma starts_with_take p l : starts_with p l = true ↔ take (length p) l = p.
Proof.
  revert l. induction p as [|c p IH]; intros [|d l]; simpl; try done.
  rewrite andb_true_iff, Z.eqb_eq, IH. split; [intros [-> ->]; done|intros [= -> ->]; done].
Qed.

Lemma find_suffix_spec pat l pos j :
  find_suffix pat l pos = Some j →
  ∃ i, j = (pos + i)%nat ∧ starts_with pat (drop i l) = true ∧ ∀ i', (i' < i)%nat → starts_with pat (drop i' l) = false.
Proof.
  revert pos. induction l as [|c l IH]; intros pos; simpl.
  - destruct (starts_with pat []) eqn:E; [|done]. intros [= <-]. exists O. split; [lia|]. split; [done|lia].
  - destruct (starts_with pat (c :: l)) eqn:E.
    + intros [= <-]. exists O. split; [lia|]. split; [done|lia].
    + intros (i & -> & Hi & Hn)%IH. exists (S i). split; [lia|]. split; [done|].
      intros [|i'] Hlt; [done|]. apply Hn. lia.
Qed.
Lemma find_suffix_None pat l pos :
  find_suffix pat l pos = None → ∀ i, (i ≤ length l)%nat → starts_with pat (drop i l) = false.
Proof.
  revert pos. induction l as [|c l IH]; intros pos; simpl.
  - destruct (starts_with pat []) eqn:E; [done|]. intros _ i Hi. by rewrite drop_nil.
  - destruct (starts_with pat (c :: l)) eqn:E; [done|]. intros Hn [|i] Hi; [done|]. simpl. eapply IH; [done|lia].
Qed.

Lemma find_from_Some pat data i j :
  find_from pat data i = Some j →
  (i ≤ j)%nat ∧ starts_with pat (drop j data) = true ∧
  ∀ j', (i ≤ j' < j)%nat → starts_with pat (drop j' data) = false.
Proof.
  unfold find_from. destruct (i <=? length data)%nat; [|done]. intros (k & -> & Hk & Hn)%find_suffix_spec.
  rewrite drop_drop in Hk. split; [lia|]. split; [done|]. intros j' Hj.
  specialize (Hn (j' - i)%nat ltac:(lia)). rewrite drop_drop in Hn. by replace (i + (j' - i))%nat with j' in Hn by lia.
Qed.
Lemma find_from_None pat data i j :
  find_from pat data i = None → (i ≤ j ≤ length data)%nat → starts_with pat (drop j data) = false.
Proof.
  unfold find_from. intros Hf Hj. rewrite (proj2 (Nat.leb_le _ _)) in Hf by lia.
  pose proof (find_suffix_None _ _ _ Hf (j - i)%nat) as Hn. rewrite length_drop, drop_drop in Hn.
  replace (i + (j - i))%nat with j in Hn by lia. apply Hn. lia.
Qed.

(** ** The patch *)

(** A start code at [j], the SPS header behind it, and the patched bytes. *)
Definition sc (out : bytes) (j : nat) : Prop :=
  out !! j = Some 0 ∧ out !! (j + 1)%nat = Some 0 ∧ out !! (j + 2)%nat = Some 1.
Definition sps_header (out : bytes) (j : nat) : Prop :=
  sc out j ∧ (∃ b, out !! (j + 3)%nat = Some b ∧ nal_type b = 7) ∧ (j + 6 < length out)%nat.
Definition sps_ok (out : bytes) (j : nat) : Prop :=
  sps_header out j →
  out !! (j + 4)%nat = Some SPS_PROFILE_IDC ∧ out !! (j + 5)%nat = Some SPS_CONSTRAINT_FLAGS ∧
  out !! (j + 6)%nat = Some SPS_LEVEL_IDC.

Lemma sc_starts out j : starts_with [0; 0; 1] (drop j out) = true ↔ sc out j.
Proof.
  unfold sc. rewrite starts_with_take. rewrite <-(Nat.add_0_r j) at 2. rewrite <-!lookup_drop.
  destruct (drop j out) as [|a [|b [|c l]]]; simpl; try (split; [done|by intros (? & ? & ?)]).
  split; [intros [= -> -> ->]; done|intros ([= ->] & [= ->] & [= ->]); done].
Qed.
Lemma sc_overlap out j j' : sc out j → sc out j' → (j ≤ j' ≤ j + 2)%nat → j' = j.
Proof.
  intros (H0 & H1 & H2) (H0' & H1' & H2') Hj.
  assert (j' = j ∨ j' = j + 1 ∨ j' = j + 2)%nat as [->|[->| ->]] by lia; [done| |congruence].
  replace (j + 1 + 1)%nat with (j + 2)%nat in H1' by lia. congruence.
Qed.

Lemma patch_at_length j out : length (patch_at j out) = length out.
Proof. unfold patch_at. case_match; [|done]. by rewrite !length_insert. Qed.
Lemma patch_at_other j out p : (p < j + 4 ∨ j + 6 < p)%nat → patch_at j out !! p = out !! p.
Proof.
  intros Hp. unfold patch_at. case_match; [|done].
  rewrite !list_lookup_insert_ne by lia. done.
Qed.
Lemma patch_at_sc j out j' : (j' + 2 < j + 4)%nat → sc (patch_at j out) j' ↔ sc out j'.
Proof. intros Hj. unfold sc. by rewrite !patch_at_other by lia. Qed.

(** What is patched is an SPS header, and then it is right. *)
Lemma patch_at_done j out :
  sc out j → sps_ok (patch_at j out) j ∧ (patch_at j out ≠ out → sps_header (patch_at j out) j).
Proof.
  intros Hsc. unfold sps_ok, sps_header. rewrite patch_at_sc, patch_at_other, patch_at_length by lia.
  unfold patch_at. destruct (_ && _) eqn:Hc.
  - apply andb_true_iff in Hc as [Hl%Nat.ltb_lt Ht%Z.eqb_eq]. split.
    + intros _. replace (j + 3 + 1)%nat with (j + 4)%nat by lia. replace (j + 3 + 2)%nat with (j + 5)%nat by lia.
      replace (j + 3 + 3)%nat with (j + 6)%nat by lia. split_and!.
      * rewrite !list_lookup_insert_ne by lia. rewrite list_lookup_insert_eq; [done|lia].
      * rewrite list_lookup_insert_ne by lia. rewrite list_lookup_insert_eq; [done|rewrite length_insert; lia].
      * rewrite list_lookup_insert_eq; [done|rewrite !length_insert; lia].
    + intros _. split; [done|]. split; [|lia]. exists (nth (j + 3) out 0). split; [|done].
      destruct (nth_lookup_or_length out (j + 3) 0); [done|lia].
  - split; [|done]. intros (_ & (b & Hb & Ht) & Hl). exfalso.
    apply andb_false_iff in Hc as [Hc|Hc]; [apply Nat.ltb_ge in Hc; lia|].
    apply Z.eqb_neq in Hc. apply Hc. by rewrite (nth_lookup out), Hb.
Qed.

(** Below [i] the output is final: headers are patched, and what differs from the
    input is the three bytes behind a header. *)
Record patched (data out : bytes) (i : nat) : Prop := {
  p_length : length out = length data;
  p_ok j : (j < i)%nat → sps_ok out j;
  p_frame p : out !! p = data !! p ∨ ∃ j, (j < i)%nat ∧ sps_header out j ∧ (j + 4 ≤ p ≤ j + 6)%nat;
}.

(** A header below the position of the next start code survives the patch there. *)
Lemma header_before out j j' :
  sc out j → (j' < j)%nat → sc out j' → (j' + 6 < j + 4)%nat.
Proof.
  intros Hj Hlt Hj'. destruct (decide (j' + 6 < j + 4)%nat) as [|Hge]; [done|].
  assert (j = j') by (eapply sc_overlap; eauto; lia). lia.
Qed.
Lemma sps_header_before out j j' :
  sc out j → (j' < j)%nat → sps_header (patch_at j out) j' ↔ sps_header out j'.
Proof.
  intros Hj Hlt. unfold sps_header. rewrite patch_at_sc, patch_at_other, patch_at_length by lia. done.
Qed.

Lemma patched_step data out i j :
  patched data out i → find_from [0; 0; 1] out i = Some j → patched data (patch_at j out) (j + 3).
Proof.
  intros [Hl Hok Hf] (Hij & Hsc%sc_starts & Hmin)%find_from_Some. split.
  - by rewrite patch_at_length.
  - intros j' Hj'. destruct (decide (j' = j)) as [->|Hne]; [by apply patch_at_done|].
    destruct (decide (j' < j)%nat) as [Hlt|].
    + intros Hh%sps_header_before; [|done..]. destruct (Nat.lt_ge_cases j' i) as [Hi|Hi].
      * pose proof (header_before out j j' Hsc Hlt (proj1 Hh)). rewrite !patch_at_other by lia. by apply Hok.
      * destruct Hh as [Hh%sc_starts _]. rewrite Hmin in Hh by lia. done.
    + intros (Hh & _). assert (sc (patch_at j out) j) by (apply patch_at_sc; [lia|done]).
      assert (j' = j) by (eapply sc_overlap; eauto; lia). done.
  - intros p. destruct (decide (j + 4 ≤ p ≤ j + 6)%nat) as [Hp|Hp].
    + destruct (decide (patch_at j out = out)) as [He|He].
      * rewrite He. destruct (Hf p) as [->|(j' & Hj' & Hh & Hp')]; [by left|right; exists j'; split; [lia|done]].
      * right. exists j. split; [lia|]. split; [by apply patch_at_done|done].
    + rewrite patch_at_other by lia. destruct (Hf p) as [->|(j' & Hj' & Hh & Hp')]; [by left|].
      right. exists j'. split; [lia|]. split; [|done]. apply sps_header_before; [done|lia|done].
Qed.

Lemma patch_loop_spec data fuel out i :
  patched data out i → (length data < fuel + i)%nat → (i ≤ length data)%nat →
  ∃ out', patch_loop fuel out i = Some out' ∧ patched data out' (length data).
Proof.
  revert out i. induction fuel as [|fuel IH]; intros out i Hp Hf Hi; [lia|]. simpl.
  destruct (find_from [0; 0; 1] out i) as [j|] eqn:Hj.
  - pose proof (find_from_Some _ _ _ _ Hj) as (Hij & (_ & _ & Hlt%lookup_lt_Some)%sc_starts & _).
    rewrite (p_length _ _ _ Hp) in Hlt. apply IH; [by eapply patched_step|lia|lia].
  - exists out. split; [done|]. destruct Hp as [Hl Hok Hfr]. split; [done| |].
    + intros j Hlt. destruct (Nat.lt_ge_cases j i) as [|Hge]; [by apply Hok|].
      intros [Hs%sc_starts _]. rewrite (find_from_None _ _ _ j Hj) in Hs by lia. done.
    + intros p. destruct (Hfr p) as [|(j & Hlt & ?)]; [by left|right; exists j]. split; [lia|done].
Qed.
Lemma patch_sps_patched data : ∃ out, patch_sps data = Some out ∧ patched data out (length data).
Proof. apply patch_loop_spec; [|lia|lia]. split; [done|lia|by left]. Qed.

(** A stream whose headers are right is not changed. *)
Lemma patch_at_id j out : sc out j → sps_ok out j → patch_at j out = out.
Proof.
  intros Hs Hok. unfold patch_at. destruct (_ && _) eqn:Hc; [|done].
  apply andb_true_iff in Hc as [Hl%Nat.ltb_lt Ht%Z.eqb_eq]. destruct Hok as (H4 & H5 & H6).
  { split; [done|]. split; [|lia]. exists (nth (j + 3) out 0). split; [|done].
    destruct (nth_lookup_or_length out (j + 3) 0); [done|lia]. }
  replace (j + 3 + 1)%nat with (j + 4)%nat by lia. replace (j + 3 + 2)%nat with (j + 5)%nat by lia.
  replace (j + 3 + 3)%nat with (j + 6)%nat by lia.
  rewrite (list_insert_id out), (list_insert_id out), (list_insert_id out) by done. done.
Qed.
Lemma patch_loop_id fuel out i :
  (∀ j, sps_ok out j) → (length out < fuel + i)%nat → (i ≤ length out)%nat → patch_loop fuel out i = Some out.
Proof.
  intros Hok. revert i. induction fuel as [|fuel IH]; intros i Hf Hi; [lia|]. simpl.
  destruct (find_from [0; 0; 1] out i) as [j|] eqn:Hj; [|done].
  apply find_from_Some in Hj as (Hij & Hs%sc_starts & _). rewrite patch_at_id by done.
  pose proof (lookup_lt_Some _ _ _ (proj2 (proj2 Hs))). apply IH; lia.
Qed.

(** C32: the patched stream is what the WebRTC peer accepts, and otherwise the stream
    of the camera.  On any bytes the loop ends; the result has the same length; in it
    every complete SPS behind a start code has the profile, constraint and level bytes
    42 e0 1f; a byte that differs from the input is one of those three of some SPS; and
    patching again changes nothing. *)
Theorem patch_sps_spec data :
  ∃ out, patch_sps data = Some out ∧ length out = length data ∧ (∀ j, sps_ok out j) ∧
    (∀ p, out !! p ≠ data !! p → ∃ j, sps_header out j ∧ (j + 4 ≤ p ≤ j + 6)%nat) ∧
    patch_sps out = Some out.
Proof.
  destruct (patch_sps_patched data) as (out & He & [Hl Hok Hf]).
  assert (∀ j, sps_ok out j) as Hall.
  { intros j Hh. destruct (Nat.lt_ge_cases j (length data)); [by apply Hok|]. destruct Hh as (_ & _ & ?). lia. }
  exists out. split_and!; try done.
  - intros p Hp. destruct (Hf p) as [|(j & _ & ?)]; [done|by exists j].
  - apply patch_loop_id; [done|lia|lia].
Qed.

Example patch_example :
  patch_sps [0; 0; 0; 1; 39; 66; 128; 41; 141; 0; 0; 1; 40; 9] =
  Some [0; 0; 0; 1; 39; 66; 224; 31; 141; 0; 0; 1; 40; 9].
Proof. reflexivity. Qed.

(** ** Queues and keyframes *)

Lemma trim_queue_spec fuel q :
  (length q ≤ fuel)%nat → trim_queue fuel q = drop (length q - MAX_QUEUE) q.
Proof.
  revert q. induction fuel as [|fuel IH]; intros [|c q] Hl; try done; [cbn in Hl; lia|].
  cbn [trim_queue length] in *. destruct (Nat.ltb_spec MAX_QUEUE (S (length q))).
  - rewrite IH by lia. by replace (S (length q) - MAX_QUEUE)%nat with (S (length q - MAX_QUEUE)) by lia.
  - by replace (S (length q) - MAX_QUEUE)%nat with O by lia.
Qed.

(** A new client starts on a keyframe: a start code and an SPS or IDR header. *)
Definition clean_start (b : bytes) : Prop := starts_with START b = true ∧ keyframe_nal (nth 4 b 0) = true.

Lemma clean_start_app a b : clean_start a → (4 < length a)%nat → clean_start (a ++ b).
Proof.
  intros [Hs Hk] Hl. split; [|by rewrite app_nth1].
  rewrite starts_with_take in *. rewrite take_app_le by (simpl; lia). done.
Qed.

(** The patch does not touch the first five bytes of such a buffer. *)
Lemma clean_start_patch b out : clean_start b → (4 < length b)%nat → patch_sps b = Some out → clean_start out.
Proof.
  intros [Hs Hk] Hl He. destruct (patch_sps_patched b) as (out' & He' & [Hlen Hok Hf]). simplify_eq.
  apply starts_with_take in Hs as Ht. destruct b as [|b0 [|b1 [|b2 [|b3 [|b4 b]]]]]; simpl in Hl; try lia.
  simpl in Ht. unfold START in Ht. simplify_eq.
  assert (∀ p, (p < 5)%nat → out !! p = ([0; 0; 0; 1; b4] ++ b) !! p) as Hsame.
  { assert (¬ sps_header out 0) as Hno.
    { intros [(_ & _ & H2) _]. destruct (Hf 2%nat) as [E|(j & _ & _ & ?)]; [simpl in E, H2; congruence|lia]. }
    intros p Hp. destruct (Hf p) as [|(j & _ & Hh & Hj)]; [done|]. destruct j; [done|lia]. }
  destruct out as [|c0 [|c1 [|c2 [|c3 [|c4 out]]]]]; simpl in Hlen; try lia.
  pose proof (Hsame 0%nat ltac:(lia)). pose proof (Hsame 1%nat ltac:(lia)). pose proof (Hsame 2%nat ltac:(lia)).
  pose proof (Hsame 3%nat ltac:(lia)). pose proof (Hsame 4%nat ltac:(lia)). simpl in *. simplify_eq. by split.
Qed.

Lemma outgoing_clean patch b : clean_start b → (4 < length b)%nat → clean_start (outgoing patch b).
Proof.
  intros Hc Hl. unfold outgoing. destruct patch; [|done].
  destruct (patch_sps_patched b) as (out & He & _). rewrite He. simpl. by eapply clean_start_patch.
Qed.

(** The first keyframe of a chunk is found by the trim loop. *)
Lemma keyframe_scan_found fuel data i :
  keyframe_scan fuel data (find_from START data i) = true →
  ∃ j, (j + 4 < length data)%nat ∧ keyframe_at data j = true.
Proof.
  revert i. induction fuel as [|fuel IH]; intros i; [done|]. simpl.
  destruct (find_from START data i) as [j|] eqn:Hj; [|done]. apply find_from_Some in Hj as (_ & Hs & _).
  destruct (Nat.ltb_spec (j + 4) (length data)); [|done].
  destruct (keyframe_nal (nth (j + 4) data 0)) eqn:Hk; [|apply IH].
  intros _. exists j. split; [done|]. unfold keyframe_at. by rewrite Hs, Hk.
Qed.
Lemma trimmed_clean chunk :
  _is_keyframe_start chunk = true →
  clean_start (drop (sps_pos chunk) chunk) ∧ (4 < length (drop (sps_pos chunk) chunk))%nat.
Proof.
  intros (j & Hj & Hk)%keyframe_scan_found. unfold sps_pos.
  destruct (find (keyframe_at chunk) _) as [i|] eqn:Hf.
  - apply find_some in Hf as [Hi%in_seq Hk']. apply andb_true_iff in Hk' as [Hs Hn]. split.
    + split; [done|]. by rewrite nth_skipn.
    + rewrite length_drop. lia.
  - exfalso. pose proof (find_none _ _ Hf j) as Hn. rewrite Hn in Hk; [done|]. apply in_seq. lia.
Qed.

Record mux_ok (m : mux) : Prop := {
  buf_clean : kf_buf m = [] ∨ clean_start (kf_buf m) ∧ (4 < length (kf_buf m))%nat;
  keyframes_clean : Forall (λ ch, ch_keyframe ch = [] ∨ clean_start (ch_keyframe ch)) (channels m);
  queues_bounded : Forall (λ ch, Forall (λ q, (length q ≤ MAX_QUEUE)%nat) (ch_clients ch)) (channels m);
}.

(** The steps of the multiplexer: a chunk, a client that registers, one that takes a
    chunk from its queue or leaves. *)
Inductive mux_step : mux → mux → Prop :=
  | step_feed chunk m : mux_step m (feed chunk m)
  | step_register i m : mux_step m (m{{channels := alter register i (channels m)}})
  | step_pop i c m : mux_step m (m{{channels := alter (λ ch, (pop_client c ch).2) i (channels m)}})
  | step_leave i c m :
      mux_step m (m{{channels := alter (λ ch, ch{{ch_clients := delete c (ch_clients ch)}}) i (channels m)}}).

Lemma broadcast_ok data ch :
  ch_keyframe (broadcast data ch) = ch_keyframe ch ∧
  Forall (λ q, (length q ≤ MAX_QUEUE)%nat) (ch_clients (broadcast data ch)).
Proof.
  split; [done|]. cbn. unfold constant. apply Forall_forall. intros q (q' & -> & _)%list_elem_of_fmap.
  unfold enqueue. rewrite trim_queue_spec by done. rewrite length_drop. lia.
Qed.

Lemma buffer_chunk_ok chunk m : mux_ok m → mux_ok (buffer_chunk chunk m).
Proof.
  intros [Hb Hk Hq]. unfold buffer_chunk. destruct (_is_keyframe_start chunk) eqn:Hs.
  - split; [|done..]. right. by apply trimmed_clean.
  - destruct (kf_buf m) as [|c buf] eqn:Hm; [split; [by left; rewrite Hm|done..]|].
    destruct Hb as [Hb|[Hc Hl]]; [done|].
    assert (clean_start ((c :: buf) ++ chunk)) as Hc' by (by apply clean_start_app).
    assert (4 < length ((c :: buf) ++ chunk))%nat as Hl' by (rewrite length_app; lia).
    destruct (PROMOTE <? Z.of_nat (length ((c :: buf) ++ chunk))); split; cbn; try done; [by left| | |by right].
    + apply Forall_map, Forall_true. intros ch. right. by apply outgoing_clean.
    + apply Forall_map. done.
Qed.
Lemma feed_ok chunk m : mux_ok m → mux_ok (feed chunk m).
Proof.
  intros Hm. apply (buffer_chunk_ok chunk) in Hm as [Hb Hk Hq]. unfold feed. split; cbn; [done| |].
  - apply Forall_map. exact Hk.
  - apply Forall_map, Forall_true. intros ch. apply broadcast_ok.
Qed.

(** Changing the clients of one channel. *)
Lemma clients_ok (f : Channel → Channel) i m :
  mux_ok m → (∀ ch, ch_keyframe (f ch) = ch_keyframe ch) →
  (∀ ch, Forall (λ q, (length q ≤ MAX_QUEUE)%nat) (ch_clients ch) →
         Forall (λ q, (length q ≤ MAX_QUEUE)%nat) (ch_clients (f ch))) →
  mux_ok (m{{channels := alter f i (channels m)}}).
Proof.
  intros [Hb Hk Hq] Hkf Hc. split; cbn; [done| |]; unfold constant; apply Forall_alter; try done.
  - intros ch Hi Hch. by rewrite Hkf.
  - intros ch Hi Hch. by apply Hc.
Qed.

Lemma pop_client_ok c ch :
  ch_keyframe (pop_client c ch).2 = ch_keyframe ch ∧
  (Forall (λ q, (length q ≤ MAX_QUEUE)%nat) (ch_clients ch) →
   Forall (λ q, (length q ≤ MAX_QUEUE)%nat) (ch_clients (pop_client c ch).2)).
Proof.
  unfold pop_client. destruct (ch_clients ch !! c) as [[|x q]|] eqn:Hc; try done. split; [done|].
  intros Hq. cbn. unfold constant. apply Forall_insert; [done|].
  pose proof (Forall_lookup_1 _ _ _ _ Hq Hc) as Hl. simpl in Hl. lia.
Qed.

Lemma mux_step_ok m m' : mux_step m m' → mux_ok m → mux_ok m'.
Proof.
  intros [chunk m0|i m0|i c m0|i c m0] Hm; [by apply feed_ok|apply clients_ok; [done..|]|apply clients_ok; [done|..]|apply clients_ok; [done..|]].
  - intros ch Hq. cbn. unfold constant. apply Forall_app_2; [done|]. constructor; [simpl; lia|constructor].
  - intros ch. apply pop_client_ok.
  - intros ch. apply pop_client_ok.
  - intros ch Hq. cbn. unfold constant. by apply Forall_delete.
Qed.

(** The multiplexer's state stays bounded and its bootstrap stays clean.  From
    the start, after any chunks and any clients that come, read and leave, no queue
    holds more than 120 chunks, and what a new client is sent first is empty or starts
    with the start code and header of an SPS or IDR, on the patched port as well. *)
Theorem mux_bounded_and_clean m :
  rtc mux_step new_mux m →
  Forall (λ ch, Forall (λ q, (length q ≤ MAX_QUEUE)%nat) (ch_clients ch) ∧
                (bootstrap ch = [] ∨ clean_start (bootstrap ch))) (channels m).
Proof.
  intros Hr. assert (mux_ok m) as [_ Hk Hq].
  { assert (mux_ok new_mux) as Hm by (split; repeat constructor). revert Hm.
    induction Hr as [|m1 m2 m3 Hs _ IH]; [done|]. intros Hm. apply IH. by eapply mux_step_ok. }
  by apply Forall_and.
Qed.

(** A client registers, then a chunk arrives. *)
Definition one_client : mux := feed [0; 0; 0; 1; 101; 7] (new_mux{{channels := alter register 0%nat (channels new_mux)}}).

Lemma mux_bounded_and_clean_witness :
  Forall (λ ch, Forall (λ q, (length q ≤ MAX_QUEUE)%nat) (ch_clients ch) ∧
                (bootstrap ch = [] ∨ clean_start (bootstrap ch))) (channels one_client) ∧
  kf_buf one_client = [0; 0; 0; 1; 101; 7].
Proof.
  split; [|reflexivity]. apply mux_bounded_and_clean.
  eapply rtc_l; [apply (step_register 0%nat)|]. eapply rtc_l; [apply step_feed|]. apply rtc_refl.
Defined.

(** No frame is lost by a client that keeps up: a broadcast appends the chunk
    (patched on the patched port) to every queue, in order, and drops from the front
    only what exceeds 120. *)
Lemma broadcast_queues data ch i q :
  ch_clients ch !! i = Some q →
  ch_clients (broadcast data ch) !! i =
  Some (drop (S (length q) - MAX_QUEUE) (q ++ [outgoing (ch_patch ch) data])).
Proof.
  intros Hi. cbn [broadcast ch_clients]. change (ch_clients (broadcast data ch)) with
    (enqueue (outgoing (ch_patch ch) data) <$> ch_clients ch).
  rewrite list_lookup_fmap, Hi. cbn. f_equal. unfold enqueue. rewrite trim_queue_spec by done.
  rewrite length_app. simpl. by rewrite Nat.add_1_r.
Qed.
