(* ===== verification/Sessions.v ===== *)
(** The per-print sessions of [app/timelapse.py]: the marker of the open session, the
    folders of frames and their deletion.  The directory is a finite map from names to
    nodes; the operating system may refuse a call. *)
From S2P Require Import Prelude PyValue PyText.

Definition SESSION_PREFIX : pystr := u "session_".
Definition AVI_SUFFIX : pystr := u ".avi".
Definition FRAME_PREFIX : pystr := u "timelapse_".
Definition FRAME_SUFFIX : pystr := u ".jpg".

(** An entry of a session folder; a link may lead to a file. *)
Inductive entry := EFile | EDir | ELink (to_file : bool).
#[export] Instance entry_eq_dec : EqDecision entry.
Proof. solve_decision. Defined.
(** An entry of the timelapse root.  A link may lead to a directory, a file or
    nowhere. *)
Inductive node := NFile | NDir (entries : gmap pystr entry) | NLink (to_dir to_something : bool).

(** [.active_session]: absent (or unreadable), not UTF-8, or text. *)
Inductive marker := NoMarker | MarkerNotText | MarkerText (s : pystr).

Record sddir := { nodes : gmap pystr node; active_marker : marker }.

(** What the operating system grants: a new folder, writing and removing the marker,
    removing a frame or a folder. *)
Record sd_io := {
  io_mkdir : bool;
  io_mark : bool;
  io_unmark : bool;
  io_unlink : pystr → bool;
}.

(** [SESSION_NAME_RE.match]: [$] also matches before a final newline. *)
Definition digit (c : Z) : bool := in_range 48 57 c.
Definition session_name_shape (name : pystr) : bool :=
  bool_decide (take 8 name = SESSION_PREFIX) &&
  match drop 8 name with
  | d => (length d =? 15)%nat && forallb digit (take 8 d) && bool_decide (d !! 8%nat = Some 45) && forallb digit (drop 9 d)
  end.
Definition valid_session_name (name : pystr) : bool :=
  session_name_shape name ||
  match rev name with 10 :: r => session_name_shape (rev r) | _ => false end.

(** [os.path.exists] and a real directory. *)
Definition path_exists (d : sddir) (name : pystr) : bool :=
  match nodes d !! name with
  | Some (NLink _ something) => something
  | Some _ => true
  | None => false
  end.
Definition is_real_dir (d : sddir) (name : pystr) : bool :=
  match nodes d !! name with Some (NDir _) => true | _ => false end.

(** [handle.read(64).strip()], checked. *)
Definition active_session : PyM sddir (option pystr) := λ d,
  match active_marker d with
  | NoMarker => (Ret None, d)
  | MarkerNotText => (Raise ValueError, d)
  | MarkerText text =>
      let name := strip (take 64 text) in
      (Ret (if valid_session_name name && is_real_dir d name then Some name else None), d)
  end.

Section Stamp.
(** [time.strftime('%Y%m%d-%H%M%S', time.localtime(now))]. *)
Variable local_stamp : Z → pystr.

Definition _session_stamp (now : Z) : pystr := SESSION_PREFIX ++ local_stamp now.
Definition taken (d : sddir) (name : pystr) : bool := path_exists d name || path_exists d (name ++ AVI_SUFFIX).

(** The search for a free second; [None] when the fuel runs out. *)
Fixpoint free_second (fuel : nat) (d : sddir) (now : Z) : option Z :=
  match fuel with
  | O => None
  | S fuel => if taken d (_session_stamp now) then free_second fuel d (now + 1) else Some now
  end.

Definition open_session (fuel : nat) (io : sd_io) (now : Z) : PyM sddir (option pystr) := λ d,
  match free_second fuel d now with
  | None => (Ret None, d)
  | Some t =>
      let name := _session_stamp t in
      if negb (io_mkdir io) then (Raise OSError, d)
      else
        let d := d{{nodes := <[name := NDir ∅]> (nodes d)}} in
        if negb (io_mark io) then (Raise OSError, d)
        else (Ret (Some name), d{{active_marker := MarkerText (name ++ [10])}})
  end.
End Stamp.

Definition close_session (io : sd_io) : PyM sddir (option pystr) :=
  name ← active_session;
  _ ← modify (λ d, if io_unmark io then d{{active_marker := NoMarker}} else d);
  mret name.

Definition session_frame_dir : PyM sddir pystr :=
  name ← active_session;
  mret (match name with Some ((_ :: _) as n) => u "/" ++ n | _ => [] end).


Definition list_sessions (d : sddir) : list pystr :=
  merge_sort str_le (List.filter (λ n, valid_session_name n && is_real_dir d n) (map fst (map_to_list (nodes d)))).

Definition is_frame_name (n : pystr) : bool := starts_with FRAME_PREFIX n && ends_with FRAME_SUFFIX n.
Definition list_frames (d : sddir) (name : pystr) : list pystr :=
  match nodes d !! name with
  | Some (NDir es) =>
      merge_sort str_le (map fst (List.filter (λ e : pystr * entry,
        is_frame_name e.1 && match e.2 with EFile | ELink true => true | _ => false end) (map_to_list es)))
  | _ => []
  end.

(** ** Deleting a session *)

Inductive session_error := BadName | ActiveSession | NotFound | UnexpectedContent.
(** The answer: an error with its code, or the number of frames and whether the video
    was removed. *)
Definition deletion : Type := session_error + (nat * bool).

Definition frame_entry (e : pystr * entry) : bool := is_frame_name e.1 && bool_decide (e.2 = EFile).

(** The loop over the frames; a refused [unlink] raises and leaves the rest. *)
Fixpoint unlink_frames (io : sd_io) (name : pystr) (frames : list pystr) : PyM sddir unit :=
  match frames with
  | [] => mret tt
  | f :: rest =>
      _ ← (if io_unlink io f
           then modify (λ d, d{{nodes := alter (λ n, match n with NDir es => NDir (delete f es) | _ => n end) name (nodes d)}})
           else raise OSError);
      unlink_frames io name rest
  end.

Definition delete_video_file (io : sd_io) (name : pystr) : PyM sddir bool := λ d,
  let video := name ++ AVI_SUFFIX in
  match nodes d !! video with
  | Some NFile => if io_unlink io video then (Ret true, d{{nodes := delete video (nodes d)}}) else (Ret false, d)
  | _ => (Ret false, d)
  end.

Definition delete_session (io : sd_io) (name : pystr) (delete_video : bool) : PyM sddir deletion :=
  if negb (valid_session_name name) then mret (inl BadName)
  else
    active ← active_session;
    if bool_decide (active = Some name) then mret (inl ActiveSession)
    else λ d,
      match nodes d !! name with
      | Some (NDir es) =>
          let entries := map_to_list es in
          if negb (forallb frame_entry entries) then (Ret (inl UnexpectedContent), d)
          else
            (_ ← unlink_frames io name (map fst entries);
             _ ← (if io_unlink io name then modify (λ d, d{{nodes := delete name (nodes d)}}) else raise OSError);
             video ← (if delete_video then delete_video_file io name else mret false);
             mret (inr (length entries, video))) d
      | _ => (Ret (inl NotFound), d)
      end.

(** ** Opening *)

(** What is relied on of [localtime] in the seconds from [lo] to [hi]: the text has
    the right shape, and different seconds give different texts (the UTC offset does
    not change). *)
Class StampOk (local_stamp : Z → pystr) (lo hi : Z) : Prop := {
  stamp_shape t : lo ≤ t ≤ hi → session_name_shape (_session_stamp local_stamp t) = true;
  stamp_inj t t' : lo ≤ t ≤ hi → lo ≤ t' ≤ hi → local_stamp t = local_stamp t' → t = t';
}.

Section Opening.
Context (local_stamp : Z → pystr) (lo hi : Z) `{Hst : !StampOk local_stamp lo hi}.

Lemma session_stamp_inj t t' :
  lo ≤ t ≤ hi → lo ≤ t' ≤ hi → _session_stamp local_stamp t = _session_stamp local_stamp t' → t = t'.
Proof. unfold _session_stamp. intros Ht Ht' He%app_inv_head. by apply (stamp_inj (lo := lo) (hi := hi)). Qed.

Lemma free_second_spec fuel d now t :
  free_second local_stamp fuel d now = Some t →
  now ≤ t ∧ taken d (_session_stamp local_stamp t) = false ∧
  ∀ t', now ≤ t' < t → taken d (_session_stamp local_stamp t') = true.
Proof.
  revert now. induction fuel as [|fuel IH]; intros now; [done|]. simpl.
  destruct (taken d (_session_stamp local_stamp now)) eqn:Ht.
  - intros (Hle & Hf & Hall)%IH. split; [lia|]. split; [done|]. intros t' Hr.
    destruct (decide (t' = now)) as [->|]; [done|]. apply Hall. lia.
  - intros [= <-]. split; [lia|]. split; [done|]. lia.
Qed.

Lemma free_second_range fuel d now t :
  free_second local_stamp (S fuel) d now = Some t → now ≤ t ≤ now + Z.of_nat fuel.
Proof.
  revert now. induction fuel as [|fuel IH]; intros now; simpl.
  - destruct (taken d (_session_stamp local_stamp now)); [done|]. intros [= <-]. lia.
  - destruct (taken d (_session_stamp local_stamp now)); [|intros [= <-]; lia]. intros Hr%IH. lia.
Qed.

(** The names that make a second taken: at most one second per node. *)
Definition blocker (d : sddir) (name : pystr) : pystr := if path_exists d name then name else name ++ AVI_SUFFIX.
Lemma blocker_in d t :
  taken d (_session_stamp local_stamp t) = true →
  blocker d (_session_stamp local_stamp t) ∈ dom (nodes d).
Proof.
  unfold taken, blocker. intros Ht. apply elem_of_dom.
  assert (∀ n, path_exists d n = true → is_Some (nodes d !! n)) as Hx.
  { intros n. unfold path_exists. destruct (nodes d !! n) as [[]|]; eauto; done. }
  destruct (path_exists d (_session_stamp local_stamp t)) eqn:E; [by apply Hx|]. simpl in Ht. by apply Hx.
Qed.
Lemma stamp_length t : lo ≤ t ≤ hi → length (_session_stamp local_stamp t) = 23%nat.
Proof.
  intros Ht. pose proof (stamp_shape t Ht) as Hs. unfold session_name_shape in Hs.
  rewrite !andb_true_iff in Hs. destruct Hs as [_ (((Hl & _) & _) & _)]. apply Nat.eqb_eq in Hl.
  rewrite length_drop in Hl. lia.
Qed.
Lemma blocker_inj d t t' :
  lo ≤ t ≤ hi → lo ≤ t' ≤ hi → blocker d (_session_stamp local_stamp t) = blocker d (_session_stamp local_stamp t') → t = t'.
Proof.
  unfold blocker. intros Ht Ht' He. apply session_stamp_inj; [done..|]. apply (f_equal (take 23)) in He.
  assert (∀ s, lo ≤ s ≤ hi → take 23 (if path_exists d (_session_stamp local_stamp s) then _session_stamp local_stamp s
                        else _session_stamp local_stamp s ++ AVI_SUFFIX) = _session_stamp local_stamp s) as Hk.
  { intros s Hs. pose proof (stamp_length s Hs). destruct (path_exists d (_session_stamp local_stamp s)); [by rewrite take_ge by lia|].
    rewrite (take_app_le (_session_stamp local_stamp s) AVI_SUFFIX) by lia. by rewrite take_ge by lia. }
  by rewrite !Hk in He.
Qed.

(** One second more than there are nodes is enough. *)
Lemma free_second_total d :
  hi = lo + Z.of_nat (size (nodes d)) →
  ∃ t, free_second local_stamp (S (size (nodes d))) d lo = Some t.
Proof.
  intros Hhi. destruct (free_second local_stamp (S (size (nodes d))) d lo) as [t|] eqn:Hf; [eauto|]. exfalso.
  assert (∀ fuel n, free_second local_stamp fuel d n = None →
    ∀ i, (i < fuel)%nat → taken d (_session_stamp local_stamp (n + Z.of_nat i)) = true) as Hall.
  { induction fuel as [|fuel IH]; intros n Hn i Hi; [lia|]. simpl in Hn.
    destruct (taken d (_session_stamp local_stamp n)) eqn:Ht; [|done]. destruct i as [|i]; [by rewrite Z.add_0_r|].
    specialize (IH _ Hn i ltac:(lia)). by replace (n + Z.of_nat (S i)) with (n + 1 + Z.of_nat i) by lia. }
  pose proof (Hall _ _ Hf) as Htaken.
  set (names := (λ i, blocker d (_session_stamp local_stamp (lo + Z.of_nat i))) <$> seq 0 (S (size (nodes d)))).
  assert (NoDup names) as Hnd.
  { apply NoDup_fmap_2_strong; [|apply NoDup_seq]. intros x y Hx%elem_of_seq Hy%elem_of_seq He%blocker_inj; lia. }
  assert (list_to_set names ⊆ dom (nodes d)) as Hsub.
  { intros n Hn. apply elem_of_list_to_set, list_elem_of_fmap in Hn as (i & -> & Hi%elem_of_seq).
    apply blocker_in, Htaken. lia. }
  apply subseteq_size in Hsub. rewrite size_list_to_set, size_dom in Hsub by done.
  unfold names in Hsub. rewrite length_fmap, length_seq in Hsub. lia.
Qed.
End Opening.

(** ** The life of a session *)

Lemma shape_no_space name : session_name_shape name = true → strip (take 64 (name ++ [10])) = name.
Proof.
  unfold session_name_shape. rewrite !andb_true_iff, bool_decide_eq_true, Nat.eqb_eq, bool_decide_eq_true.
  intros [Hp (((Hl & Hd1) & Hd) & Hd2)].
  assert (Forall (λ c, is_space c = false) name) as Hs.
  { rewrite <-(take_drop 8 name), Hp. apply Forall_app_2; [by repeat constructor|].
    rewrite <-(take_drop 8 (drop 8 name)). apply Forall_app_2.
    - apply Forall_forall. intros c Hc%list_elem_of_In. rewrite forallb_forall in Hd1. specialize (Hd1 c Hc).
      apply in_range_spec in Hd1. unfold is_space. rewrite !orb_false_iff, !in_range_false, !Z.eqb_neq. lia.
    - destruct (drop 8 (drop 8 name)) as [|x r] eqn:Hr; [constructor|].
      assert (x = 45) as ->.
      { assert (drop 8 (drop 8 name) !! 0%nat = Some 45) as Hx by (by rewrite lookup_drop).
        rewrite Hr in Hx. by injection Hx. }
      constructor; [done|]. replace (drop 9 (drop 8 name)) with r in Hd2.
      + apply Forall_forall. intros c Hc%list_elem_of_In. rewrite forallb_forall in Hd2. specialize (Hd2 c Hc).
        apply in_range_spec in Hd2. unfold is_space. rewrite !orb_false_iff, !in_range_false, !Z.eqb_neq. lia.
      + change 9%nat with (8 + 1)%nat. rewrite <-drop_drop, Hr. done. }
  rewrite length_drop in Hl. rewrite take_ge by (rewrite length_app; simpl; lia).
  unfold strip. destruct name as [|c name]; [simpl in Hl; lia|].
  cbn [app lstrip]. apply Forall_cons in Hs as Hs'. destruct Hs' as [-> _].
  change (c :: name ++ [10]) with ((c :: name) ++ [10]). rewrite rev_app_distr.
  transitivity (rev (lstrip (rev (c :: name)))); [reflexivity|].
  rewrite lstrip_no_space; [apply rev_involutive|]. by apply Forall_rev in Hs.
Qed.

(** The session just opened is the active one. *)
Lemma opened_is_active name d :
  session_name_shape name = true → is_real_dir d name = true → active_marker d = MarkerText (name ++ [10]) →
  active_session d = (Ret (Some name), d).
Proof.
  intros Hs Hd Hm. unfold active_session. rewrite Hm, shape_no_space by done.
  unfold valid_session_name. by rewrite Hs, Hd.
Qed.

(** Opening on working storage. *)
Lemma open_session_works local_stamp now io d :
  StampOk local_stamp now (now + Z.of_nat (size (nodes d))) → io_mkdir io = true → io_mark io = true →
  ∃ name, session_name_shape name = true ∧ taken d name = false ∧
    open_session local_stamp (S (size (nodes d))) io now d =
    (Ret (Some name), {| nodes := <[name := NDir ∅]> (nodes d); active_marker := MarkerText (name ++ [10]) |}).
Proof.
  intros Hst Hm Hk. destruct (free_second_total local_stamp now _ d eq_refl) as [t Ht].
  destruct (free_second_spec _ _ _ _ _ Ht) as (_ & Hfree & _). exists (_session_stamp local_stamp t).
  split; [apply (stamp_shape t); by eapply free_second_range|]. split; [done|].
  unfold open_session. by rewrite Ht, Hm, Hk.
Qed.
Lemma marked_is_active name ns :
  session_name_shape name = true →
  let d := {| nodes := <[name := NDir ∅]> ns; active_marker := MarkerText (name ++ [10]) |} in
  active_session d = (Ret (Some name), d).
Proof. intros Hs. apply opened_is_active; [done| |done]. unfold is_real_dir. cbn. by rewrite lookup_insert_eq. Qed.
Lemma open_session_free local_stamp now io d :
  StampOk local_stamp now (now + Z.of_nat (size (nodes d))) → io_mkdir io = true → io_mark io = true →
  ∃ name d', open_session local_stamp (S (size (nodes d))) io now d = (Ret (Some name), d') ∧
    active_session d' = (Ret (Some name), d').
Proof.
  intros Hst Hm Hk. destruct (open_session_works local_stamp now io d Hst Hm Hk) as (name & Hs & _ & Ho).
  eexists name, _. split; [exact Ho|]. by apply marked_is_active.
Qed.

(** Opening a session always ends with a fresh one.  With one try more than there are
    entries in the directory, [open_session] finds a name; the name is new, both as a
    folder and as a video; nothing else in the directory changes; and the session is
    then the active one, empty, until it is closed. *)
Theorem open_session_fresh local_stamp now io d :
  StampOk local_stamp now (now + Z.of_nat (size (nodes d))) → io_mkdir io = true → io_mark io = true → io_unmark io = true →
  ∃ name d', open_session local_stamp (S (size (nodes d))) io now d = (Ret (Some name), d') ∧
    valid_session_name name = true ∧ path_exists d name = false ∧ path_exists d (name ++ AVI_SUFFIX) = false ∧
    (∀ n, n ≠ name → nodes d' !! n = nodes d !! n) ∧
    active_session d' = (Ret (Some name), d') ∧ list_frames d' name = [] ∧
    close_session io d' = (Ret (Some name), d'{{active_marker := NoMarker}}).
Proof.
  intros Hst Hm Hk Hu. destruct (open_session_works local_stamp now io d Hst Hm Hk) as (name & Hs & Hfree & Ho).
  pose proof (marked_is_active name (nodes d) Hs) as Ha. cbv zeta in Ha.
  unfold taken in Hfree. apply orb_false_iff in Hfree as [Hf1 Hf2].
  eexists name, _. split; [exact Ho|]. split_and!; try done.
  - unfold valid_session_name. by rewrite Hs.
  - intros n Hn. cbn. by rewrite lookup_insert_ne.
  - unfold list_frames. cbn [nodes]. by rewrite lookup_insert_eq, map_to_list_empty.
  - unfold close_session, mbind, pym_bind. rewrite Ha. unfold modify, mret, pym_ret. by rewrite Hu.
Qed.

(** A clock that shows the last six digits of the second. *)
Definition digits6 (t : Z) : pystr :=
  map (λ k, 48 + (t / 10 ^ k) mod 10) [5; 4; 3; 2; 1; 0].
Definition counter_stamp (t : Z) : pystr := u "20260101-" ++ digits6 t.
Definition used_dir : sddir :=
  {| nodes := {[ u "session_20260101-000000" := NFile; u "session_20260101-000001.avi" := NFile ]};
     active_marker := NoMarker |}.
Definition granted : sd_io := {| io_mkdir := true; io_mark := true; io_unmark := true; io_unlink := λ _, true |}.

Lemma counter_stamp_ok : StampOk counter_stamp 0 2.
Proof.
  split.
  - intros t Ht. assert (t = 0 ∨ t = 1 ∨ t = 2) as [->|[->| ->]] by lia; reflexivity.
  - intros t t' Ht Ht'. assert (t = 0 ∨ t = 1 ∨ t = 2) as [->|[->| ->]] by lia;
      assert (t' = 0 ∨ t' = 1 ∨ t' = 2) as [->|[->| ->]] by lia; done.
Qed.

Lemma open_session_fresh_witness :
  ∃ d', open_session counter_stamp 3 granted 0 used_dir = (Ret (Some (u "session_20260101-000002")), d') ∧
    active_session d' = (Ret (Some (u "session_20260101-000002")), d').
Proof.
  destruct (open_session_fresh counter_stamp 0 granted used_dir) as (name & d' & Ho & _ & _ & _ & _ & Ha & _);
    [apply counter_stamp_ok|reflexivity..|].
  assert (name = u "session_20260101-000002") as ->.
  { assert ((open_session counter_stamp 3 granted 0 used_dir).1 = Ret (Some (u "session_20260101-000002"))) as Hn
      by (vm_compute; reflexivity).
    change (S (size (nodes used_dir))) with 3%nat in Ho. rewrite Ho in Hn. by injection Hn. }
  exists d'. split; [exact Ho|exact Ha].
Defined.

(** ** Deletion *)

Lemma unlink_frames_frame io name frames d r d' :
  unlink_frames io name frames d = (r, d') →
  active_marker d' = active_marker d ∧ ∀ n, n ≠ name → nodes d' !! n = nodes d !! n.
Proof.
  revert d. induction frames as [|f frames IH]; intros d; [by intros [= <- <-]|].
  cbn [unlink_frames]. unfold mbind, pym_bind. destruct (io_unlink io f); [|by intros [= <- <-]].
  unfold modify. intros [Hm Hn]%IH. split; [done|]. intros n Hne. rewrite Hn by done. cbn. unfold constant.
  by rewrite lookup_alter_ne.
Qed.

Lemma delete_video_spec io name d v d' :
  delete_video_file io name d = (Ret v, d') →
  active_marker d' = active_marker d ∧
  (v = true → nodes d !! (name ++ AVI_SUFFIX) = Some NFile) ∧
  ∀ n, nodes d' !! n = if v && bool_decide (n = name ++ AVI_SUFFIX) then None else nodes d !! n.
Proof.
  unfold delete_video_file. destruct (nodes d !! (name ++ AVI_SUFFIX)) as [[]|] eqn:Hv;
    try destruct (io_unlink io (name ++ AVI_SUFFIX)); intros [= <- <-]; try done.
  split; [done|]. split; [done|]. intros n. cbn. unfold constant. case_bool_decide as Hn; [subst n; apply lookup_delete_eq|].
  by rewrite lookup_delete_ne.
Qed.

Lemma frame_entries es :
  forallb frame_entry (map_to_list es) = true →
  ∀ f e, es !! f = Some e → is_frame_name f = true ∧ e = EFile.
Proof.
  intros Hall f e He. rewrite forallb_forall in Hall.
  specialize (Hall (f, e)). rewrite <-list_elem_of_In, elem_of_map_to_list in Hall.
  apply Hall, andb_true_iff in He as [Hf Hb]. by apply bool_decide_eq_true in Hb.
Qed.

(** A deletion takes only what it may.  If [delete_session] answers with an error
    code, nothing has changed.  If it succeeds, the name was a real folder that held only
    regular frames and was not the open session; the folder is gone, with its video
    only if that was asked for and is a regular file; and nothing else has changed. *)
Theorem delete_session_safe io name delete_video d r d' :
  delete_session io name delete_video d = (Ret r, d') →
  match r with
  | inl _ => d' = d
  | inr (frames, video) =>
      valid_session_name name = true ∧ (active_session d).1 ≠ Ret (Some name) ∧
      (∃ es, nodes d !! name = Some (NDir es) ∧ frames = size es ∧
             ∀ f e, es !! f = Some e → is_frame_name f = true ∧ e = EFile) ∧
      nodes d' !! name = None ∧ active_marker d' = active_marker d ∧
      (video = true → delete_video = true ∧ nodes d !! (name ++ AVI_SUFFIX) = Some NFile) ∧
      ∀ n, n ≠ name → nodes d' !! n = if video && bool_decide (n = name ++ AVI_SUFFIX) then None else nodes d !! n
  end.
Proof.
  unfold delete_session. destruct (valid_session_name name) eqn:Hv; cbn [negb]; [|by intros [= <- <-]].
  unfold mbind at 1, pym_bind at 1.
  assert (∃ a, active_session d = (a, d)) as [a Ha] by (unfold active_session; case_match; eauto).
  rewrite Ha. destruct a as [active|]; [|done]. case_bool_decide as Hact; [by intros [= <- <-]|].
  destruct (nodes d !! name) as [[|es|]|] eqn:Hn; try by intros [= <- <-].
  destruct (forallb frame_entry (map_to_list es)) eqn:Hf; cbn [negb]; [|by intros [= <- <-]].
  unfold mbind, pym_bind. destruct (unlink_frames _ _ _ d) as [[]  d1] eqn:Hu; [|done].
  apply unlink_frames_frame in Hu as [Hm1 Hn1]. destruct (io_unlink io name); [|done]. unfold modify.
  set (d2 := d1{{nodes := delete name (nodes d1)}}).
  assert (active_marker d2 = active_marker d ∧ nodes d2 !! name = None ∧
          ∀ n, n ≠ name → nodes d2 !! n = nodes d !! n) as (Hm2 & Hd2 & Hn2).
  { unfold d2. cbn. unfold constant. split_and!; [done|apply lookup_delete_eq|].
    intros n Hne. rewrite lookup_delete_ne by done. by apply Hn1. }
  assert (name ++ AVI_SUFFIX ≠ name) as Hvid.
  { intros Hx%(f_equal length). rewrite length_app in Hx. simpl in Hx. lia. }
  destruct ((if delete_video then delete_video_file io name else mret false) d2) as [[v|e] d3] eqn:Hdv; [|done].
  intros [= <- <-]. unfold mret, pym_ret in *. rewrite length_map_to_list.
  split; [done|]. split; [simpl; congruence|].
  split; [exists es; split_and!; [done..|by apply frame_entries]|]. destruct delete_video.
  - apply delete_video_spec in Hdv as (Hm3 & Hvf & Hn3). rewrite Hn3, Hm3.
    rewrite (bool_decide_false (name = _)) by done. rewrite andb_false_r. split_and!; [done..| |].
    + intros Hv'. split; [done|]. rewrite <-Hn2 by done. auto.
    + intros n Hne. by rewrite Hn3, Hn2.
  - injection Hdv as <- <-. by split_and!.
Qed.

Definition one_session : sddir :=
  {| nodes := {[ u "session_20260101-000000" := NDir {[ u "timelapse_01.jpg" := EFile ]};
                 u "session_20260101-000000.avi" := NFile ]};
     active_marker := NoMarker |}.

Lemma delete_session_safe_witness :
  ∃ d', delete_session granted (u "session_20260101-000000") false one_session = (Ret (inr (1%nat, false)), d') ∧
    nodes d' !! u "session_20260101-000000" = None ∧
    nodes d' !! u "session_20260101-000000.avi" = Some NFile.
Proof.
  destruct (delete_session granted (u "session_20260101-000000") false one_session) as [r d'] eqn:He.
  assert (r = Ret (inr (1%nat, false))) as -> by (change r with (r, d').1; rewrite <-He; vm_compute; reflexivity).
  destruct (delete_session_safe granted (u "session_20260101-000000") false one_session _ d' He)
    as (_ & _ & _ & Hn & _ & _ & Hf).
  exists d'. split; [reflexivity|]. split; [exact Hn|]. rewrite Hf; [reflexivity|vm_compute; discriminate].
Defined.
