(* ===== verification/GpioTrigger.v ===== *)
(** [app/gpio_trigger.py]: the request structure of the kernel interface, and the
    trigger itself: arming and releasing the lines, the rate limit of the layer pin
    and the recording sessions.  Times are milliseconds of the monotonic clock. *)
From S2P Require Import Prelude PyValue Sessions.

(** ** The kernel request *)

Definition MAX_LINES : nat := 64.
Definition MAX_ATTRS : nat := 10.
Definition _REQUEST_SIZE : nat := 592.
Definition FLAG_INPUT := 4.
Definition FLAG_EDGE_RISING := 16.
Definition FLAG_EDGE_FALLING := 32.
Definition FLAG_BIAS_PULL_UP := 256.
Definition ATTR_FLAGS := 1.
Definition ATTR_DEBOUNCE := 3.
Definition EDGE_RISING := 1.
Definition EDGE_FALLING := 2.
Definition SHOT_DEBOUNCE_US := 10000.
Definition RECORD_DEBOUNCE_US := 50000.
Definition MIN_SHOT_GAP := 1000.

(** [b.ljust(n, b'\0')]. *)
Definition ljust (n : nat) (b : bytes) : bytes := b ++ zeros (n - length b).

Record line := { l_offset : Z; l_edges : Z; l_debounce : Z }.

(** [_ATTR_ENTRY.pack(id, 0, value, mask)]. *)
Definition attr_entry (id value mask : Z) : res bytes :=
  res_app (pack_uint 4 id) (res_app (pack_uint 4 0) (res_app (pack_uint 8 value) (pack_uint 8 mask))).
Fixpoint pack_attrs (index : nat) (lines : list line) : res bytes :=
  match lines with
  | [] => Ret []
  | l :: rest =>
      let mask := Z.shiftl 1 (Z.of_nat index) in
      res_app (attr_entry ATTR_FLAGS (Z.lor (Z.lor FLAG_INPUT FLAG_BIAS_PULL_UP) (l_edges l)) mask)
        (res_app (attr_entry ATTR_DEBOUNCE (l_debounce l) mask) (pack_attrs (S index) rest))
  end.
Fixpoint pack_offsets (offsets : list Z) : res bytes :=
  match offsets with
  | [] => Ret []
  | o :: rest => res_app (pack_uint 4 o) (pack_offsets rest)
  end.

Definition pack_request (lines : list line) : res bytes :=
  if negb ((1 <=? length lines)%nat && (length lines <=? MAX_LINES)%nat) then Raise ValueError
  else
    match pack_attrs 0 lines with
    | Raise e => Raise e
    | Ret attrs =>
        let num_attrs := (2 * length lines)%nat in
        if (MAX_ATTRS <? num_attrs)%nat then Raise ValueError
        else
          match
            res_app (pack_offsets (map l_offset lines ++ replicate (MAX_LINES - length lines) 0))
            (res_app (Ret (ljust 32 (u "pibuddycam")))
            (res_app (res_app (pack_uint 8 (Z.lor FLAG_INPUT FLAG_BIAS_PULL_UP))
                     (res_app (pack_uint 4 (Z.of_nat num_attrs)) (Ret (zeros 20))))
            (res_app (Ret (ljust (24 * MAX_ATTRS) attrs))
                     (res_app (pack_uint 4 (Z.of_nat (length lines)))
                     (res_app (pack_uint 4 64) (Ret (zeros 24)))))))
          with
          | Raise e => Raise e
          | Ret request => if (length request =? _REQUEST_SIZE)%nat then Ret request else Raise OtherError
          end
    end.

(** [read_events]: whole 48-byte records as (offset, edge). *)
Definition _EVENT_SIZE : nat := 48.
Fixpoint parse_events (fuel : nat) (blob : bytes) : list (Z * Z) :=
  match fuel with
  | O => []
  | S fuel =>
      if (length blob <? _EVENT_SIZE)%nat then []
      else (le_value (take 4 (drop 12 blob)), le_value (take 4 (drop 8 blob)))
             :: parse_events fuel (drop _EVENT_SIZE blob)
  end.

(** ** The trigger *)

(** Why the kernel layer failed: a [GpioError] with its message, or anything else. *)
Inductive gpio_failure := GpioError (message : pystr) | OtherFailure.

(** The answers of the kernel and of the event loop to one call. *)
Record backend := {
  b_find_chip : gpio_failure + unit;
  b_request : list line → gpio_failure + Z;
  b_add_reader : bool;
  b_values : res Z;
  b_events : pystr + list (Z * Z);
}.

(** The calls to the rest of the program. *)
Inductive gcall :=
  | OnShot (at_ : Z) | SetEnabled (b : bool) | BuildSession (name : pystr) | OnChange.

Record gpio := {
  g_fd : option Z;
  g_config : option (Z * option Z);
  g_error : pystr;
  g_last_shot : option Z;
  g_last_trigger_at : option Z;
  g_triggers : Z;
  g_ignored : Z;
  g_recording : bool;
}.

(** The world: the trigger, the timelapse directory, the calls made, the
    [timelapse_enabled] setting, and the descriptors open and watched. *)
Record gworld := {
  gt : gpio;
  sd : sddir;
  calls : list gcall;
  enabled : bool;
  open_fds : list Z;
  readers : list Z;
}.

(** Clocks and storage of one call. *)
Record now := { t_mono : Z; t_wall : Z; t_io : sd_io }.

Section Trigger.
Variable local_stamp : Z → pystr.

Definition put (f : gpio → gpio) : PyM gworld unit := modify (λ w, w{{gt := f (gt w)}}).
Definition call (c : gcall) : PyM gworld unit := modify (λ w, w{{calls := calls w ++ [c] }}).
(** [_changed]: a failing mirror is only logged. *)
Definition _changed : PyM gworld unit := call OnChange.
Definition set_enabled (b : bool) : PyM gworld unit :=
  _ ← call (SetEnabled b); modify (λ w, w{{enabled := b}}).
Definition on_sd {A} (m : PyM sddir A) : PyM gworld A := λ w,
  let '(r, d) := m (sd w) in (r, w{{sd := d}}).
Definition when (b : bool) (m : PyM gworld unit) : PyM gworld unit := if b then m else mret tt.

Definition close_fd (fd : Z) : PyM gworld unit :=
  modify (λ w, w{{open_fds := filter (λ x, x ≠ fd) (open_fds w)}}).
Definition remove_reader (fd : Z) : PyM gworld unit :=
  modify (λ w, w{{readers := filter (λ x, x ≠ fd) (readers w)}}).

Definition release : PyM gworld unit :=
  w ← get;
  let fd := g_fd (gt w) in
  let was_recording := g_recording (gt w) in
  _ ← put (λ g, g{{g_fd := None; g_config := None; g_recording := false}});
  _ ← when was_recording _changed;
  match fd with
  | None => mret tt
  | Some fd => _ ← remove_reader fd; close_fd fd
  end.

(** ** Sessions *)

Definition session_fuel (w : gworld) : nat := S (size (nodes (sd w))).

(** [_record_active]; only [OSError] is caught. *)
Definition _record_active (t : now) : PyM gworld unit :=
  active ← on_sd active_session;
  opened ← match active with
           | Some name => mret true
           | None =>
               try_except os_error
                 (w ← get; _ ← on_sd (open_session local_stamp (session_fuel w) (t_io t) (t_wall t)); mret true)
                 (λ _, _ ← put (λ g, g{{g_error := u "could not create the session folder"}}); mret false)
           end;
  if opened : bool then
    w ← get;
    let changed := negb (g_recording (gt w)) in
    _ ← put (λ g, g{{g_recording := true}});
    _ ← set_enabled true;
    when changed _changed
  else mret tt.

Definition _close_and_build (t : now) : PyM gworld unit :=
  w ← get;
  let changed := g_recording (gt w) in
  _ ← put (λ g, g{{g_recording := false}});
  _ ← when changed _changed;
  name ← on_sd (close_session (t_io t));
  match name with
  | None => mret tt
  | Some name =>
      w ← get;
      match list_frames (sd w) name with
      | [] => mret tt
      | _ => call (BuildSession name)
      end
  end.

Definition _record_inactive (t : now) : PyM gworld unit :=
  _ ← set_enabled false; _close_and_build t.

Definition _arm_recording (b : backend) (t : now) : PyM gworld unit :=
  match b_values b with
  | Raise _ => mret tt
  | Ret bits => if Z.testbit bits 1 then _close_and_build t else _record_active t
  end.

(** ** Configuration *)

Definition armed_lines (shot_pin : Z) (record_pin : option Z) : list line :=
  {| l_offset := shot_pin; l_edges := FLAG_EDGE_FALLING; l_debounce := SHOT_DEBOUNCE_US |} ::
  match record_pin with
  | Some r => [ {| l_offset := r; l_edges := Z.lor FLAG_EDGE_RISING FLAG_EDGE_FALLING;
                   l_debounce := RECORD_DEBOUNCE_US |} ]
  | None => []
  end.
Definition failure_text (f : gpio_failure) : pystr :=
  match f with GpioError m => m | OtherFailure => u "GPIO unavailable" end.

Definition configure (b : backend) (t : now) (gpio_mode : bool) (shot_pin record_pin : option Z) : PyM gworld unit :=
  match gpio_mode, shot_pin with
  | true, Some shot =>
      w ← get;
      if bool_decide (g_fd (gt w) ≠ None ∧ g_config (gt w) = Some (shot, record_pin)) then mret tt
      else
        _ ← release;
        match b_find_chip b with
        | inl f => put (λ g, g{{g_error := failure_text f}})
        | inr _ =>
            match b_request b (armed_lines shot record_pin) with
            | inl f => put (λ g, g{{g_error := failure_text f}})
            | inr fd =>
                _ ← modify (λ w, w{{open_fds := fd :: open_fds w}});
                _ ← put (λ g, g{{g_fd := Some fd; g_config := Some (shot, record_pin); g_error := [];
                                 g_last_shot := None}});
                if b_add_reader b then
                  _ ← modify (λ w, w{{readers := fd :: readers w}});
                  match record_pin with Some _ => _arm_recording b t | None => mret tt end
                else
                  _ ← close_fd fd;
                  put (λ g, g{{g_fd := None; g_config := None; g_error := u "GPIO unavailable"}})
            end
        end
  | _, _ => _ ← release; put (λ g, g{{g_error := [] }})
  end.

(** ** Events *)

Definition _shot (t : now) : PyM gworld unit :=
  w ← get;
  let ignore := put (λ g, g{{g_ignored := g_ignored g + 1}}) in
  if negb (enabled w) then ignore
  else if match g_last_shot (gt w) with Some last => t_mono t - last <? MIN_SHOT_GAP | None => false end then ignore
  else
    _ ← put (λ g, g{{g_last_shot := Some (t_mono t); g_triggers := g_triggers g + 1;
                     g_last_trigger_at := Some (t_wall t)}});
    call (OnShot (t_wall t)).

Definition handle_edge (t : now) (offset edge : Z) : PyM gworld unit :=
  w ← get;
  match g_config (gt w) with
  | None => mret tt
  | Some (shot_pin, record_pin) =>
      if (offset =? shot_pin) && (edge =? EDGE_FALLING) then _shot t
      else if bool_decide (record_pin = Some offset) then
        if edge =? EDGE_FALLING then _record_active t
        else if edge =? EDGE_RISING then _record_inactive t
        else mret tt
      else mret tt
  end.

Fixpoint handle_edges (t : now) (events : list (Z * Z)) : PyM gworld unit :=
  match events with
  | [] => mret tt
  | (offset, edge) :: rest => _ ← handle_edge t offset edge; handle_edges t rest
  end.
Definition _on_readable (b : backend) (t : now) : PyM gworld unit :=
  w ← get;
  match g_fd (gt w) with
  | None => mret tt
  | Some _ =>
      match b_events b with
      | inl message => _ ← put (λ g, g{{g_error := message}}); release
      | inr events => handle_edges t events
      end
  end.
End Trigger.

(** ** Lines are owned *)

Definition lines_of (w : gworld) : option Z * option (Z * option Z) * list Z * list Z :=
  (g_fd (gt w), g_config (gt w), open_fds w, readers w).

(** A call that leaves the lines alone. *)
Definition keeps {A} (m : PyM gworld A) : Prop := ∀ w, lines_of (m w).2 = lines_of w.

Lemma keeps_bind {A B} (m : PyM gworld A) (f : A → PyM gworld B) :
  keeps m → (∀ a, keeps (f a)) → keeps (m ≫= f).
Proof.
  intros Hm Hf w. unfold mbind, pym_bind. specialize (Hm w). destruct (m w) as [[a|e] w']; simpl in *; [|done].
  by rewrite Hf.
Qed.
Lemma keeps_ret {A} (a : A) : keeps (mret a).
Proof. done. Qed.
Lemma keeps_get : keeps get.
Proof. done. Qed.
Lemma keeps_modify f : (∀ w, lines_of (f w) = lines_of w) → keeps (modify f).
Proof. intros Hf w. apply Hf. Qed.
Lemma keeps_put f : (∀ g, g_fd (f g) = g_fd g ∧ g_config (f g) = g_config g) → keeps (put f).
Proof. intros Hf w. unfold put, modify, lines_of. cbn. unfold constant. destruct (Hf (gt w)) as [-> ->]. done. Qed.
Lemma keeps_on_sd {A} (m : PyM sddir A) : keeps (on_sd m).
Proof. intros w. unfold on_sd. by destruct (m (sd w)). Qed.
Lemma keeps_try {A} caught (m : PyM gworld A) k :
  keeps m → (∀ e, keeps (k e)) → keeps (try_except caught m k).
Proof.
  intros Hm Hk w. unfold try_except. specialize (Hm w). destruct (m w) as [[a|e] w']; simpl in *; [done|].
  destruct (caught e); [by rewrite Hk|done].
Qed.
Create HintDb lines.
Ltac keep_lines := cbv zeta; repeat first
  [ solve [auto with lines nocore] | apply keeps_bind; [|intros ?] | apply keeps_ret | apply keeps_get | apply keeps_on_sd
  | apply keeps_put; by intros [] | apply keeps_modify; by intros []
  | apply keeps_try; [|intros ?] | match goal with |- keeps (match ?x with _ => _ end) => destruct x end
  | match goal with |- keeps (if ?x then _ else _) => destruct x end
  | match goal with |- keeps (when ?x _) => destruct x end ].

Section Owned.
Variable local_stamp : Z → pystr.

Lemma record_active_keeps t : keeps (_record_active local_stamp t).
Proof. unfold _record_active, set_enabled, _changed, call. keep_lines. Qed.
Lemma close_and_build_keeps t : keeps (_close_and_build t).
Proof. unfold _close_and_build, _changed, call. keep_lines. Qed.
Lemma record_inactive_keeps t : keeps (_record_inactive t).
Proof.
  unfold _record_inactive, set_enabled, call. keep_lines.
Qed.
Lemma shot_keeps t : keeps (_shot t).
Proof. unfold _shot, call. keep_lines. Qed.
#[local] Hint Resolve record_active_keeps close_and_build_keeps record_inactive_keeps shot_keeps : lines.
Lemma handle_edge_keeps t o e : keeps (handle_edge local_stamp t o e).
Proof.
  unfold handle_edge. keep_lines.
Qed.
Lemma handle_edges_keeps t es : keeps (handle_edges local_stamp t es).
Proof.
  induction es as [|[o e] es IH]; [done|]. cbn [handle_edges]. apply keeps_bind; [apply handle_edge_keeps|done].
Qed.
Lemma arm_recording_keeps b t : keeps (_arm_recording local_stamp b t).
Proof. unfold _arm_recording. keep_lines. Qed.

(** The descriptor that is held is the one that is open and watched; nothing else is. *)
Definition owned (w : gworld) : Prop :=
  match g_fd (gt w) with
  | Some fd => open_fds w = [fd] ∧ readers w = [fd] ∧ g_config (gt w) ≠ None
  | None => open_fds w = [] ∧ readers w = [] ∧ g_config (gt w) = None
  end.

Lemma keeps_owned {A} (m : PyM gworld A) w : keeps m → owned w → owned (m w).2.
Proof.
  intros Hm Ho. specialize (Hm w). unfold lines_of in Hm. injection Hm as Hf Hc Hop Hr.
  unfold owned. by rewrite Hf, Hc, Hop, Hr.
Qed.

Lemma filter_self (fd : Z) : filter (λ x, x ≠ fd) [fd] = [].
Proof. rewrite filter_cons_False; [done|]. by intros Hx. Qed.

(** [release] hands everything back. *)
Lemma release_spec w :
  owned w →
  ∃ w', release w = (Ret tt, w') ∧ g_fd (gt w') = None ∧ g_config (gt w') = None ∧ open_fds w' = [] ∧
        readers w' = [] ∧ g_recording (gt w') = false.
Proof.
  unfold owned, release, get, mbind, pym_bind, put, modify, when, _changed, call. cbn. intros Ho.
  destruct w as [[fd cfg er ls lt tr ig rec] d cs en fds rd]. cbn in *.
  destruct rec, fd as [fd|]; destruct Ho as (-> & -> & _); eexists; (split; [reflexivity|]); cbn -[filter];
    unfold constant; rewrite ?filter_self; done.
Qed.

Lemma configure_owned b t m shot rec w : owned w → owned (configure local_stamp b t m shot rec w).2.
Proof.
  intros Ho. unfold configure. destruct (release_spec w Ho) as (w' & Hr & Hf & Hc & Hop & Hrd & _).
  assert (∀ f : gpio → gpio, (∀ g, g_fd (f g) = g_fd g ∧ g_config (f g) = g_config g) → owned (put f w').2) as Hput.
  { intros f Hk. apply keeps_owned; [by apply keeps_put|]. unfold owned. by rewrite Hf, Hc, Hop. }
  destruct m, shot as [shot|]; try (unfold mbind, pym_bind; rewrite Hr; apply Hput; by intros []).
  unfold mbind at 1, pym_bind at 1, get. case_bool_decide; [done|].
  unfold mbind at 1, pym_bind at 1. rewrite Hr.
  destruct (b_find_chip b) as [f|]; [apply Hput; by intros []|].
  destruct (b_request b (armed_lines shot rec)) as [f|fd]; [apply Hput; by intros []|].
  unfold modify at 1, put at 1, modify at 1, mbind, pym_bind. cbn [fst snd].
  destruct w' as [[fd0 cfg er ls lt tr ig rc] d cs en fds rd]. cbn in *. unfold constant. subst.
  destruct (b_add_reader b).
  - unfold modify. destruct rec as [r|]; [apply keeps_owned; [apply arm_recording_keeps|]|]; done.
  - unfold close_fd, modify, put, owned. cbn -[filter]. unfold constant. by rewrite filter_self.
Qed.

(** The calls the runtime makes; an exception leaves the world where it is. *)
Inductive gop :=
  | GConfigure (b : backend) (t : now) (m : bool) (shot rec : option Z)
  | GReadable (b : backend) (t : now)
  | GEdge (t : now) (o e : Z)
  | GRelease.
Definition run_gop (o : gop) (w : gworld) : gworld :=
  match o with
  | GConfigure b t m shot rec => (configure local_stamp b t m shot rec w).2
  | GReadable b t => (_on_readable local_stamp b t w).2
  | GEdge t o e => (handle_edge local_stamp t o e w).2
  | GRelease => (release w).2
  end.

Lemma run_gop_owned o w : owned w → owned (run_gop o w).
Proof.
  assert (∀ w, owned w → owned (release w).2) as Hrel.
  { intros w0 Ho. destruct (release_spec w0 Ho) as (w' & -> & Hf & Hc & Hop & Hrd & _).
    unfold owned. cbn. by rewrite Hf, Hc, Hop. }
  intros Ho. destruct o as [b t m shot rec|b t|t o e|]; simpl.
  - by apply configure_owned.
  - unfold _on_readable. unfold mbind at 1, pym_bind at 1, get. destruct (g_fd (gt w)) eqn:Hfd; [|done].
    destruct (b_events b) as [message|events].
    + apply (Hrel (put (λ g, g{{g_error := message}}) w).2), keeps_owned; [apply keeps_put; by intros []|done].
    + apply keeps_owned; [apply handle_edges_keeps|done].
  - apply keeps_owned; [apply handle_edge_keeps|done].
  - by apply Hrel.
Qed.

(** No GPIO descriptor leaks.  After any calls, in any order and whatever the
    kernel, the event loop and the storage answer (exceptions included), the
    descriptor the trigger holds is the only one open and the only one watched, and a
    trigger that holds none has no pins configured. *)
Theorem gpio_lines_owned ops w :
  owned w → owned (foldl (λ w o, run_gop o w) w ops).
Proof. revert w. induction ops as [|o ops IH]; intros w Hw; [done|]. simpl. by apply IH, run_gop_owned. Qed.
End Owned.

Definition new_gpio : gpio :=
  {| g_fd := None; g_config := None; g_error := []; g_last_shot := None; g_last_trigger_at := None;
     g_triggers := 0; g_ignored := 0; g_recording := false |}.
Definition new_gworld : gworld :=
  {| gt := new_gpio; sd := {| nodes := ∅; active_marker := NoMarker |}; calls := []; enabled := true;
     open_fds := []; readers := [] |}.
Definition granting (fd : Z) (bits : Z) : backend :=
  {| b_find_chip := inr tt; b_request := λ _, inr fd; b_add_reader := true; b_values := Ret bits;
     b_events := inr [] |}.
Definition at_ms (t : Z) : now := {| t_mono := t; t_wall := t / 1000; t_io := granted |}.
Definition rearm : list gop :=
  [GConfigure (granting 7 2) (at_ms 0) true (Some 17) None;
   GConfigure (granting 8 2) (at_ms 10) true (Some 27) (Some 22)].

Lemma gpio_lines_owned_witness :
  owned (foldl (λ w o, run_gop counter_stamp o w) new_gworld rearm) ∧
  open_fds (foldl (λ w o, run_gop counter_stamp o w) new_gworld rearm) = [8].
Proof. split; [apply gpio_lines_owned; by split|vm_compute; reflexivity]. Defined.

(** ** The rate limit *)

Section Shots.
Variable local_stamp : Z → pystr.

(** What the counters and the last shot are; sessions do not touch them. *)
Definition shot_view (w : gworld) : Z * Z * option Z * option (Z * option Z) :=
  (g_triggers (gt w), g_ignored (gt w), g_last_shot (gt w), g_config (gt w)).
Definition keeps_shots {A} (m : PyM gworld A) : Prop := ∀ w, shot_view (m w).2 = shot_view w.

Lemma keeps_shots_bind {A B} (m : PyM gworld A) (f : A → PyM gworld B) :
  keeps_shots m → (∀ a, keeps_shots (f a)) → keeps_shots (m ≫= f).
Proof.
  intros Hm Hf w. unfold mbind, pym_bind. specialize (Hm w). destruct (m w) as [[a|e] w']; simpl in *; [|done].
  by rewrite Hf.
Qed.
Lemma keeps_shots_try {A} caught (m : PyM gworld A) k :
  keeps_shots m → (∀ e, keeps_shots (k e)) → keeps_shots (try_except caught m k).
Proof.
  intros Hm Hk w. unfold try_except. specialize (Hm w). destruct (m w) as [[a|e] w']; simpl in *; [done|].
  destruct (caught e); [by rewrite Hk|done].
Qed.
Lemma keeps_shots_put f : (∀ g, shot_view {| gt := f g; sd := sd new_gworld; calls := []; enabled := true; open_fds := []; readers := [] |}
                             = shot_view {| gt := g; sd := sd new_gworld; calls := []; enabled := true; open_fds := []; readers := [] |}) →
  keeps_shots (put f).
Proof. intros Hf w. exact (Hf (gt w)). Qed.
Lemma keeps_shots_on_sd {A} (m : PyM sddir A) : keeps_shots (on_sd m).
Proof. intros w. unfold on_sd. by destruct (m (sd w)). Qed.
Ltac keep_shots := cbv zeta; repeat first
  [ apply keeps_shots_bind; [|intros ?] | apply keeps_shots_on_sd | by intros [] | apply keeps_shots_put; by intros []
  | apply keeps_shots_try; [|intros ?]
  | match goal with |- keeps_shots (match ?x with _ => _ end) => destruct x end
  | match goal with |- keeps_shots (if ?x then _ else _) => destruct x end
  | match goal with |- keeps_shots (when ?x _) => destruct x end ].

Lemma record_active_shots t : keeps_shots (_record_active local_stamp t).
Proof. unfold _record_active, set_enabled, _changed, call, modify. keep_shots. Qed.
Lemma record_inactive_shots t : keeps_shots (_record_inactive t).
Proof. unfold _record_inactive, _close_and_build, set_enabled, _changed, call, modify. keep_shots. Qed.

(** A falling edge of the layer pin. *)
Definition is_shot (w : gworld) (o e : Z) : bool :=
  match g_config (gt w) with Some (shot, _) => (o =? shot) && (e =? EDGE_FALLING) | None => false end.
(** Whether the last accepted shot is far enough back. *)
Definition gap_ok (last : option Z) (t : Z) : Prop := match last with Some l => l + MIN_SHOT_GAP ≤ t | None => True end.

(** An edge is accepted as a shot, counted as ignored, or no shot at all. *)
Inductive edge_effect (t : now) (w w' : gworld) : bool → Prop :=
  | accepted : enabled w = true → gap_ok (g_last_shot (gt w)) (t_mono t) →
      shot_view w' = (g_triggers (gt w) + 1, g_ignored (gt w), Some (t_mono t), g_config (gt w)) →
      edge_effect t w w' true
  | ignored : enabled w = false ∨ ¬ gap_ok (g_last_shot (gt w)) (t_mono t) →
      shot_view w' = (g_triggers (gt w), g_ignored (gt w) + 1, g_last_shot (gt w), g_config (gt w)) →
      edge_effect t w w' true
  | no_shot : shot_view w' = shot_view w → edge_effect t w w' false.

Lemma handle_edge_effect t o e w :
  edge_effect t w (handle_edge local_stamp t o e w).2 (is_shot w o e).
Proof.
  unfold handle_edge, is_shot. unfold mbind at 1, pym_bind at 1, get.
  destruct (g_config (gt w)) as [[shot rec]|] eqn:Hc; [|by constructor].
  destruct ((o =? shot) && (e =? EDGE_FALLING)).
  - unfold _shot, mbind, pym_bind, get.
    destruct w as [[fd cfg er ls lt tr ig rc] d cs en fds rd]. cbn in Hc |- *. subst cfg. destruct en; cbn [negb].
    + destruct ls as [l|]; [destruct (Z.ltb_spec (t_mono t - l) MIN_SHOT_GAP)|].
      * apply ignored; [right; simpl; lia|done].
      * apply accepted; [done|simpl; lia|done].
      * by apply accepted.
    + apply ignored; [by left|done].
  - case_bool_decide; [|by constructor]. destruct (e =? EDGE_FALLING); [apply no_shot, record_active_shots|].
    destruct (e =? EDGE_RISING); [apply no_shot, record_inactive_shots|by constructor].
Qed.

(** The times of the accepted shots of a sequence of edges, and the world after it. *)
Fixpoint accepted_shots (es : list (now * Z * Z)) (w : gworld) : list Z * gworld :=
  match es with
  | [] => ([], w)
  | (t, o, e) :: rest =>
      let w' := (handle_edge local_stamp t o e w).2 in
      let '(ts, w'') := accepted_shots rest w' in
      ((if g_triggers (gt w) <? g_triggers (gt w') then t_mono t :: ts else ts), w'')
  end.

(** The number of layer-pin edges in the sequence. *)
Definition shot_edges (es : list (now * Z * Z)) (w : gworld) : Z :=
  Z.of_nat (length (List.filter (λ '(_, o, e), is_shot w o e) es)).

Lemma is_shot_config w w' o e : g_config (gt w') = g_config (gt w) → is_shot w' o e = is_shot w o e.
Proof. unfold is_shot. by intros ->. Qed.

(** Frames are rate-limited and every pulse is accounted for.  Over any sequence
    of edges on configured lines, recordings in between included, two accepted shots
    are at least one second apart (the first one also from the last before), and the
    layer-pin pulses are exactly the accepted shots and the ignored ones. *)
Theorem shots_rate_limited es w ts w' :
  accepted_shots es w = (ts, w') →
  Sorted (λ a b, a + MIN_SHOT_GAP ≤ b) (option_list (g_last_shot (gt w)) ++ ts) ∧
  g_triggers (gt w') = g_triggers (gt w) + Z.of_nat (length ts) ∧
  shot_edges es w = Z.of_nat (length ts) + (g_ignored (gt w') - g_ignored (gt w)).
Proof.
  revert w ts w'. induction es as [|[[t o] e] es IH]; intros w ts w'; simpl.
  - intros [= <- <-]. split; [|unfold shot_edges; simpl; lia]. rewrite app_nil_r. destruct (g_last_shot (gt w)); repeat constructor.
  - set (w1 := (handle_edge local_stamp t o e w).2). destruct (accepted_shots es w1) as [ts1 w2] eqn:Ha.
    pose proof (handle_edge_effect t o e w) as Heff. fold w1 in Heff. destruct (IH _ _ _ Ha) as (Hs & Ht & Hc).
    assert (shot_edges es w1 = shot_edges es w → shot_edges ((t, o, e) :: es) w =
            (if is_shot w o e then 1 else 0) + shot_edges es w1) as Hcount.
    { intros ->. unfold shot_edges. simpl. destruct (is_shot w o e); simpl length; lia. }
    assert (g_config (gt w1) = g_config (gt w) → shot_edges es w1 = shot_edges es w) as Hcfg.
    { intros Hg. unfold shot_edges. do 2 f_equal. apply filter_ext. intros [[t' o'] e']. by apply is_shot_config. }
    intros [= <- <-].
    destruct Heff as [Hen Hgap [= Htr Hig Hls Hcf]|Hig' [= Htr Hig Hls Hcf]|[= Htr Hig Hls Hcf]];
      rewrite Hcount, Hc by auto; rewrite Htr in *; rewrite Hls in Hs.
    + rewrite (proj2 (Z.ltb_lt _ _)) by lia. split; [|simpl length; lia].
      destruct (g_last_shot (gt w)) as [l|]; simpl in *; [|done]. constructor; [done|]. by constructor.
    + rewrite (proj2 (Z.ltb_ge _ _)) by lia. split; [done|lia].
    + rewrite (proj2 (Z.ltb_ge _ _)) by lia. split; [done|lia].
Qed.
End Shots.

Definition armed : gworld := (configure counter_stamp (granting 7 2) (at_ms 0) true (Some 17) None new_gworld).2.
Definition pulses : list (now * Z * Z) := [(at_ms 100, 17, 2); (at_ms 600, 17, 2); (at_ms 1200, 17, 2)].

Lemma shots_rate_limited_witness :
  (accepted_shots counter_stamp pulses armed).1 = [100; 1200] ∧
  Sorted (λ a b, a + MIN_SHOT_GAP ≤ b) (option_list (g_last_shot (gt armed)) ++ [100; 1200]).
Proof.
  split; [vm_compute; reflexivity|].
  apply (shots_rate_limited counter_stamp pulses armed [100; 1200] (accepted_shots counter_stamp pulses armed).2).
  vm_compute. reflexivity.
Defined.

(** ** Recording sessions *)

Section Recording.
Context (local_stamp : Z → pystr).

Lemma try_returns {A} caught (m : PyM gworld A) k w a w' :
  m w = (Ret a, w') → try_except caught m k w = (Ret a, w').
Proof. intros Hm. unfold try_except. by rewrite Hm. Qed.

(** What follows an open session in [_record_active]. *)
Lemma record_started name d0 d w :
  sd w = d0 → active_session d = (Ret (Some name), d) →
  ∃ w', ((w1 ← get;
          let changed := negb (g_recording (gt w1)) in
          _ ← put (λ g, g{{g_recording := true}}); _ ← set_enabled true; when changed _changed)
         (w{{sd := d}})) = (Ret tt, w') ∧
    sd w' = d ∧ enabled w' = true ∧ g_recording (gt w') = true.
Proof.
  intros _ Ha. unfold mbind, pym_bind, get, put, set_enabled, call, modify, when, _changed, call, modify.
  destruct w as [[fd cfg er ls lt tr ig rc] d1 cs en fds rd]. cbn. destruct rc; cbn; eauto.
Qed.

(** The falling edge. *)
Lemma record_active_spec t w :
  StampOk local_stamp (t_wall t) (t_wall t + Z.of_nat (size (nodes (sd w)))) →
  io_mkdir (t_io t) = true → io_mark (t_io t) = true → active_marker (sd w) ≠ MarkerNotText →
  ∃ name w1, _record_active local_stamp t w = (Ret tt, w1) ∧
    active_session (sd w1) = (Ret (Some name), sd w1) ∧ enabled w1 = true ∧ g_recording (gt w1) = true ∧
    (∀ n, (active_session (sd w)).1 = Ret (Some n) → name = n ∧ sd w1 = sd w).
Proof.
  intros Hst Hm Hk Hmk. unfold _record_active. unfold mbind at 1, pym_bind at 1, on_sd.
  assert (∃ r, active_session (sd w) = (Ret r, sd w)) as [r Hr].
  { unfold active_session. destruct (active_marker (sd w)); [eauto|done|eauto]. }
  rewrite Hr. destruct r as [name|].
  - destruct (record_started name (sd w) (sd w) w eq_refl Hr) as (w' & He & Hd & Hen & Hrec).
    exists name, w'. split; [exact He|]. rewrite Hd. split_and!; [done..|]. intros n [= <-]. done.
  - destruct (open_session_free local_stamp (t_wall t) (t_io t) (sd w) Hst Hm Hk) as (name & d & Ho & Ha).
    destruct (record_started name (sd w) d w eq_refl Ha) as (w' & He & Hd & Hen & Hrec).
    exists name, w'. rewrite Hd. split; [|by split_and!].
    unfold mbind at 1, pym_bind at 1. rewrite (try_returns _ _ _ _ true (w{{sd := d}})); [exact He|].
    unfold mbind, pym_bind, get, on_sd. change (session_fuel (w{{sd := sd w}})) with (S (size (nodes (sd w)))).
    change (sd (w{{sd := sd w}})) with (sd w). rewrite Ho. by destruct w.
Qed.

(** The rising edge. *)
Lemma record_inactive_spec t name w :
  active_session (sd w) = (Ret (Some name), sd w) → g_recording (gt w) = true → io_unmark (t_io t) = true →
  ∃ w2, _record_inactive t w = (Ret tt, w2) ∧ active_session (sd w2) = (Ret None, sd w2) ∧
    enabled w2 = false ∧ g_recording (gt w2) = false ∧
    calls w2 = calls w ++ [SetEnabled false; OnChange] ++
               (if list_frames (sd w) name is [] then [] else [BuildSession name]).
Proof.
  intros Ha Hrec Hu.
  unfold _record_inactive, _close_and_build, set_enabled, when, _changed, call, close_session, on_sd, get, put, modify,
    mbind, pym_bind, mret, pym_ret.
  destruct w as [[fd cfg er ls lt tr ig rc] d1 cs en fds rd].
  cbn -[active_session list_frames] in Ha, Hrec |- *. subst rc.
  cbn [sd]. rewrite Ha. cbn -[list_frames]. rewrite Hu. unfold constant. cbn -[list_frames].
  destruct d1 as [nd mk]. change (list_frames {| nodes := nd; active_marker := mk |} name)
    with (list_frames {| nodes := nd; active_marker := NoMarker |} name).
  destruct (list_frames {| nodes := nd; active_marker := NoMarker |} name);
    (eexists; split; [reflexivity|]); cbn; by rewrite <-!app_assoc.
Qed.

(** A print is one session.  The falling edge of the recording pin resumes the
    session named by the marker, or opens a fresh one (when the marker is readable and
    the storage works), and enables the timelapse; the rising edge then disables it,
    removes the marker and queues the build of exactly that session if it has
    frames. *)
Theorem recording_lifecycle t t' w :
  StampOk local_stamp (t_wall t) (t_wall t + Z.of_nat (size (nodes (sd w)))) →
  io_mkdir (t_io t) = true → io_mark (t_io t) = true → io_unmark (t_io t') = true →
  active_marker (sd w) ≠ MarkerNotText →
  ∃ name w1 w2,
    _record_active local_stamp t w = (Ret tt, w1) ∧ active_session (sd w1) = (Ret (Some name), sd w1) ∧
    enabled w1 = true ∧ g_recording (gt w1) = true ∧
    (∀ n, (active_session (sd w)).1 = Ret (Some n) → name = n ∧ sd w1 = sd w) ∧
    _record_inactive t' w1 = (Ret tt, w2) ∧ active_session (sd w2) = (Ret None, sd w2) ∧
    enabled w2 = false ∧ g_recording (gt w2) = false ∧
    calls w2 = calls w1 ++ [SetEnabled false; OnChange] ++
               (if list_frames (sd w1) name is [] then [] else [BuildSession name]).
Proof.
  intros Hst Hm Hk Hu Hmk.
  destruct (record_active_spec t w Hst Hm Hk Hmk) as (name & w1 & He & Ha & Hen & Hrec & Hres).
  destruct (record_inactive_spec t' name w1 Ha Hrec Hu) as (w2 & He2 & Ha2 & Hen2 & Hrec2 & Hc).
  exists name, w1, w2. by split_and!.
Qed.
End Recording.

Lemma recording_lifecycle_witness :
  ∃ w1, _record_active counter_stamp (at_ms 0) new_gworld = (Ret tt, w1) ∧
    active_session (sd w1) = (Ret (Some (u "session_20260101-000000")), sd w1).
Proof.
  destruct (recording_lifecycle counter_stamp (at_ms 0) (at_ms 0) new_gworld)
    as (name & w1 & _ & He & Ha & _); [|reflexivity..|discriminate|].
  - split.
    + intros t Ht. change (0 <= t <= 0) in Ht. assert (t = 0) as -> by lia. reflexivity.
    + intros t t' Ht Ht' _. change (0 <= t <= 0) in Ht. change (0 <= t' <= 0) in Ht'. lia.
  - assert (name = u "session_20260101-000000") as ->.
    { assert ((active_session (sd (_record_active counter_stamp (at_ms 0) new_gworld).2)).1
              = Ret (Some (u "session_20260101-000000"))) as Hn by (vm_compute; reflexivity).
      rewrite He in Hn. cbn [snd] in Hn. rewrite Ha in Hn. by injection Hn. }
    exists w1. split; [exact He|exact Ha].
Defined.
