(* ===== verification/Avi.v ===== *)
(** The video half of [app/timelapse.py]: JPEG dimensions, the two AVI writers (in
    memory and streaming), the video index and [build_avi]. *)
From S2P Require Import Prelude PyValue PyText Sessions.

(** ** JPEG dimensions *)

Definition byte_at (data : bytes) (i : nat) : Z := nth i data 0.
(** [struct.unpack('>H', data[i:i + 2])]. *)
Definition be16 (data : bytes) (i : nat) : Z := 256 * byte_at data i + byte_at data (i + 1).

(** The marker loop; every turn advances, so [len(data)] turns are enough. *)
Fixpoint sof_loop (fuel : nat) (data : bytes) (i : nat) : option (Z * Z) :=
  match fuel with
  | O => None
  | S fuel =>
      let n := length data in
      if negb (i + 1 <? n)%nat then None
      else if negb (byte_at data i =? 255) then sof_loop fuel data (i + 1)
      else
        let marker := byte_at data (i + 1) in
        if marker =? 255 then sof_loop fuel data (i + 1)
        else
          let i := (i + 2)%nat in
          if (marker =? 216) || (marker =? 1) || in_range 208 215 marker then sof_loop fuel data i
          else if (marker =? 217) || (n <? i + 2)%nat then None
          else if in_range 192 194 marker then
            if (n <? i + 7)%nat then None else Some (be16 data (i + 5), be16 data (i + 3))
          else sof_loop fuel data (i + Z.to_nat (be16 data i))
  end.
Definition _jpeg_dimensions (data : bytes) : option (Z * Z) :=
  if (length data <? 4)%nat || negb (bool_decide (take 2 data = [255; 216])) then None
  else sof_loop (length data) data 2.

Lemma sof_loop_enough data fuel fuel' i :
  (length data - i ≤ fuel)%nat → (length data - i ≤ fuel')%nat → sof_loop fuel data i = sof_loop fuel' data i.
Proof.
  assert (∀ fuel i, (length data ≤ i + 1)%nat → sof_loop fuel data i = None) as Hend.
  { intros [|n] j Hj; [done|]. cbn [sof_loop]. by rewrite (proj2 (Nat.ltb_ge _ _)). }
  revert fuel' i. induction fuel as [|fuel IH]; intros fuel' i Hf Hf'; [by rewrite !Hend by lia|].
  destruct fuel' as [|fuel']; [by rewrite !Hend by lia|]. cbn [sof_loop].
  destruct (i + 1 <? length data)%nat; cbn [negb]; [|done].
  repeat case_match; try done; apply IH; lia.
Qed.

(** ** The AVI header *)

(** A field of a [struct] format: unsigned or signed of [n] bytes, or raw bytes. *)
Inductive sfield := U (n : nat) (v : Z) | I (n : nat) (v : Z) | Raw (b : bytes).
Definition pack_field (f : sfield) : res bytes :=
  match f with
  | U n v => pack_uint n v
  | I n v =>
      let half := 2 ^ (8 * Z.of_nat n - 1) in
      if in_range (- half) (half - 1) v then Ret (le_bytes n v) else Raise OtherError
  | Raw b => Ret b
  end.
Fixpoint pack (fs : list sfield) : res bytes :=
  match fs with [] => Ret [] | f :: fs => res_app (pack_field f) (pack fs) end.

(** [int(a / b)]: true division of integers rounds to 53 bits, half to even, and
    [int] truncates; division by zero raises. *)
Definition truediv_trunc (a b : Z) : Z :=
  let e := Z.log2 a - Z.log2 b - 52 in
  let scaled s := if 0 <=? s then (a, b * 2 ^ s) else (a * 2 ^ (- s), b) in
  let s := let '(p, q) := scaled e in if p / q <? 2 ^ 52 then e - 1 else e in
  let '(p, q) := scaled s in
  let m := p / q in
  let r := 2 * (p mod q) in
  let m := if (q <? r) || ((r =? q) && Z.odd m) then m + 1 else m in
  if 0 <=? s then m * 2 ^ s else m / 2 ^ (- s).
Definition int_truediv (a b : Z) : res Z :=
  if b =? 0 then Raise OtherError
  else if a =? 0 then Ret 0
  else Ret (Z.sgn a * Z.sgn b * truediv_trunc (Z.abs a) (Z.abs b)).

Definition odd_pad (n : nat) : bytes := if Nat.odd n then [0] else [].
Definition _avi_chunk (fourcc payload : bytes) : res bytes :=
  size ← pack_uint 4 (Z.of_nat (length payload));
  mret (fourcc ++ size ++ payload ++ odd_pad (length payload)).

(** [b'LIST' + struct.pack('<I', len(body)) + body]. *)
Definition sized (fourcc body : bytes) : res bytes :=
  size ← pack_uint 4 (Z.of_nat (length body));
  mret (fourcc ++ size ++ body).

Definition _avi_header (fps width height frame_count max_frame total_bytes : Z) : res bytes :=
  micro ← int_truediv 1000000 fps;
  let micro_per_frame := Z.max 1 micro in
  max_bytes_per_sec ← int_truediv (total_bytes * fps) frame_count;
  avih ← pack [U 4 micro_per_frame; U 4 max_bytes_per_sec; U 4 0; U 4 16; U 4 frame_count; U 4 0; U 4 1;
               U 4 max_frame; U 4 width; U 4 height; U 4 0; U 4 0; U 4 0; U 4 0];
  strh ← pack [Raw (u "vids"); Raw (u "MJPG"); U 4 0; U 2 0; U 2 0; U 4 0; U 4 1; U 4 fps; U 4 0;
               U 4 frame_count; U 4 max_frame; U 4 4294967295; U 4 0; I 2 0; I 2 0; I 2 width; I 2 height];
  strf ← pack [U 4 40; I 4 width; I 4 height; U 2 1; U 2 24; Raw (u "MJPG"); U 4 (width * height * 3);
               I 4 0; I 4 0; U 4 0; U 4 0];
  c1 ← _avi_chunk (u "strh") strh;
  c2 ← _avi_chunk (u "strf") strf;
  strl ← sized (u "LIST") (u "strl" ++ c1 ++ c2);
  c3 ← _avi_chunk (u "avih") avih;
  sized (u "LIST") (u "hdrl" ++ c3 ++ strl).

(** ** The writer in memory *)

Definition idx_entry (offset size : Z) : res bytes := pack [Raw (u "00dc"); U 4 16; U 4 offset; U 4 size].

Fixpoint movi_loop (payloads : list bytes) (movi idx : bytes) : res (bytes * bytes) :=
  match payloads with
  | [] => mret (movi, idx)
  | jpeg :: rest =>
      let offset := Z.of_nat (length movi) in
      chunk ← _avi_chunk (u "00dc") jpeg;
      entry ← idx_entry offset (Z.of_nat (length jpeg));
      movi_loop rest (movi ++ chunk) (idx ++ entry)
  end.

Definition total_of (sizes : list Z) : Z := foldr Z.add 0 sizes.
Definition max_of (sizes : list Z) : Z := foldr Z.max 0 sizes.
Definition sizes_of (payloads : list bytes) : list Z := map (λ p, Z.of_nat (length p)) payloads.

Definition _build_avi_bytes (payloads : list bytes) (fps width height : Z) : res bytes :=
  match payloads with
  | [] => Raise ValueError
  | _ =>
      let sizes := sizes_of payloads in
      hdrl ← _avi_header fps width height (Z.of_nat (length payloads)) (max_of sizes) (total_of sizes);
      '(movi, idx) ← movi_loop payloads (u "movi") [];
      movi_list ← sized (u "LIST") movi;
      idx1 ← sized (u "idx1") idx;
      sized (u "RIFF") (u "AVI " ++ hdrl ++ movi_list ++ idx1)
  end.

(** ** The streaming writer *)

(** A frame: the size taken beforehand, and what opening it gives. *)
Record frame := { f_size : nat; f_open : res bytes }.

(** The output so far, how often the stop event was asked, and the progress calls. *)
Record aworld := { out : bytes; polls : nat; progressed : list (Z * Z) }.

(** The environment of a build: whether the output may grow to a length, and the
    answers of the stop event. *)
Record build_io := { can_grow : nat → bool; stop_event : nat → bool }.

Definition BUILD_READ_CHUNK : nat := Z.to_nat 65536.

Section Stream.
Context (io : build_io) (read_chunk : nat).

Definition write (b : bytes) : PyM aworld unit := λ w,
  if can_grow io (length (out w ++ b)) then (Ret tt, w{{out := out w ++ b}}) else (Raise OSError, w).
Definition write_packed (b : res bytes) : PyM aworld unit := x ← of_res b; write x.
Definition check_stop : PyM aworld unit := λ w,
  ((if stop_event io (polls w) then Raise BuildCancelled else Ret tt), w{{polls := S (polls w)}}).
Definition progress (written total : Z) : PyM aworld unit :=
  modify (λ w, w{{progressed := progressed w ++ [(written, total)] }}).

(** [while remaining > 0], with the part of the file not read yet. *)
Fixpoint copy_frame (fuel remaining : nat) (content : bytes) : PyM aworld unit :=
  match fuel with
  | O => mret tt
  | S fuel =>
      if (remaining =? 0)%nat then mret tt
      else
        _ ← check_stop;
        let chunk := take (read_chunk `min` remaining) content in
        match chunk with
        | [] => raise OSError
        | _ => _ ← write chunk; copy_frame fuel (remaining - length chunk) (drop (length chunk) content)
        end
  end.

Fixpoint write_frames (frames : list frame) (written total : Z) : PyM aworld unit :=
  match frames with
  | [] => mret tt
  | f :: rest =>
      _ ← write_packed (pack [Raw (u "00dc"); U 4 (Z.of_nat (f_size f))]);
      content ← of_res (f_open f);
      _ ← copy_frame (f_size f) (f_size f) content;
      _ ← (if Nat.odd (f_size f) then write [0] else mret tt);
      _ ← progress (written + 1) total;
      write_frames rest (written + 1) total
  end.

(** [8 + size + (size & 1)]. *)
Definition chunk_len (size : Z) : Z := 8 + size + Z.land size 1.

Fixpoint write_index (frames : list frame) (offset : Z) : PyM aworld unit :=
  match frames with
  | [] => mret tt
  | f :: rest =>
      let size := Z.of_nat (f_size f) in
      _ ← write_packed (idx_entry offset size);
      write_index rest (offset + chunk_len size)
  end.

(** The first pass: [(max_frame, total_bytes, movi_payload_len)]. *)
Fixpoint measure (frames : list frame) (acc : Z * Z * Z) : Z * Z * Z :=
  match frames with
  | [] => acc
  | f :: rest =>
      let '(max_frame, total_bytes, movi_payload_len) := acc in
      let size := Z.of_nat (f_size f) in
      measure rest ((if max_frame <? size then size else max_frame), total_bytes + size,
                    movi_payload_len + chunk_len size)
  end.

Definition _build_avi_stream (frames : list frame) (fps width height : Z) : PyM aworld unit :=
  match frames with
  | [] => raise ValueError
  | _ =>
      let frame_count := Z.of_nat (length frames) in
      let '(max_frame, total_bytes, movi_payload_len) := measure frames (0, 0, 4) in
      hdrl ← of_res (_avi_header fps width height frame_count max_frame total_bytes);
      let idx_len := 16 * frame_count in
      let body_len := 4 + Z.of_nat (length hdrl) + 8 + movi_payload_len + 8 + idx_len in
      _ ← write_packed (pack [Raw (u "RIFF"); U 4 body_len; Raw (u "AVI ")]);
      _ ← write hdrl;
      _ ← write_packed (pack [Raw (u "LIST"); U 4 movi_payload_len; Raw (u "movi")]);
      _ ← write_frames frames 0 frame_count;
      _ ← write_packed (pack [Raw (u "idx1"); U 4 idx_len]);
      write_index frames 4
  end.
End Stream.

(** ** Building a video *)

Definition CSV_NAME : pystr := u ".timelapse_videos.csv".
Definition FRAME_HEAD_BYTES : nat := Z.to_nat 65536.
Definition VIDEO_STATUS_DONE : pystr := u "D".
Definition VIDEO_STATUS_ERROR : pystr := u "E".

(** The regular files: directory and base name, and the content. *)
Abbreviation vfs := (gmap (pystr * pystr) bytes).

(** The local time of a build, with its milliseconds. *)
Record clock_time := { c_hour : Z; c_min : Z; c_sec : Z; c_ms : Z }.

(** What the operating system grants to a build. *)
Record video_io := {
  v_build : build_io;
  v_open_ok : bool;
  v_unlink_ok : bool;
  v_index_ok : bool;
  v_readable : pystr → bool;
  v_time : clock_time;
}.

Definition _stamp (tm : clock_time) (ms : Z) : pystr :=
  pad0 2 (str_of_int (c_hour tm)) ++ u "-" ++ pad0 2 (str_of_int (c_min tm)) ++ u "-" ++
  pad0 2 (str_of_int (c_sec tm)) ++ u "-" ++ pad0 3 (str_of_int ms).
Definition stamped (suffix : pystr) (tm : clock_time) (ms : Z) : pystr := FRAME_PREFIX ++ _stamp tm ms ++ suffix.
(** [None] when the fuel runs out. *)
Fixpoint unique_from (fuel : nat) (dir suffix : pystr) (tm : clock_time) (ms : Z) (fs : vfs) : option pystr :=
  match fuel with
  | O => None
  | S fuel =>
      match fs !! (dir, stamped suffix tm ms) with
      | None => Some (stamped suffix tm ms)
      | Some _ => unique_from fuel dir suffix tm (ms + 1) fs
      end
  end.
Definition _unique_name (fuel : nat) (dir suffix : pystr) (tm : clock_time) (fs : vfs) : option pystr :=
  unique_from fuel dir suffix tm (c_ms tm) fs.

Definition dir_names (fs : vfs) (dir : pystr) : list pystr :=
  map snd (filter (λ k, k.1 = dir) (map fst (map_to_list fs))).
Definition stored_frames (fs : vfs) (dir : pystr) : list pystr :=
  merge_sort str_le (List.filter is_frame_name (dir_names fs dir)).
(** The re-check of an explicit frame list. *)
Definition frame_argument (name : pystr) : bool :=
  negb (contains_char 47 name) && negb (contains_char 92 name) && is_frame_name name.
Definition chosen_frames (fs : vfs) (dir : pystr) (names : option (list pystr)) : list pystr :=
  match names with
  | None => stored_frames fs dir
  | Some names => List.filter frame_argument names
  end.

Definition _read_head (io : video_io) (fs : vfs) (dir name : pystr) : bytes :=
  match fs !! (dir, name) with
  | Some content => if v_readable io name then take FRAME_HEAD_BYTES content else []
  | None => []
  end.

Definition _append_video_index (io : video_io) (dir filename status : pystr) : PyM vfs unit := λ fs,
  if negb (v_index_ok io) then (Raise OSError, fs)
  else
    let old := default [] (fs !! (dir, CSV_NAME)) in
    match utf8_encode (filename ++ u ":" ++ status ++ [10]) with
    | None => (Raise ValueError, <[(dir, CSV_NAME) := old]> fs)
    | Some row => (Ret tt, <[(dir, CSV_NAME) := old ++ row]> fs)
    end.

(** The frames as the stream takes them; [None] when a size cannot be read. *)
Definition entries (io : video_io) (fs : vfs) (dir : pystr) (names : list pystr) : option (list frame) :=
  mapM (λ name, content ← fs !! (dir, name);
                mret {| f_size := length content;
                        f_open := if v_readable io name then Ret content else Raise OSError |}) names.

(** [width or 640] after the dimensions of the first frame took precedence. *)
Definition or_default (d : Z) (v : option Z) : Z := match v with Some 0 | None => d | Some x => x end.
Definition dimensions (head : bytes) (width height : option Z) : Z * Z :=
  let '(w, h) := match _jpeg_dimensions head with Some (w, h) => (Some w, Some h) | None => (width, height) end in
  (or_default 640 w, or_default 480 h).

Definition output_name (fuel : nat) (io : video_io) (out_dir : pystr) (name : option pystr) (fs : vfs) : option pystr :=
  match name with
  | Some ((_ :: _) as n) =>
      if bool_decide (is_Some (fs !! (out_dir, n))) || contains_char 47 n || negb (ends_with AVI_SUFFIX n)
      then _unique_name fuel out_dir AVI_SUFFIX (v_time io) fs
      else Some n
  | _ => _unique_name fuel out_dir AVI_SUFFIX (v_time io) fs
  end.

(** Writing the video under its name. *)
Definition write_video (io : video_io) (frames : list frame) (fps width height : Z) (key : pystr * pystr) : PyM vfs unit :=
  λ fs,
  if negb (v_open_ok io) then (Raise OSError, fs)
  else
    let '(r, w) := _build_avi_stream (v_build io) BUILD_READ_CHUNK frames fps width height
                     {| out := []; polls := 0; progressed := [] |} in
    (r, <[key := out w]> fs).

(** After a failure: the partial file goes, the index keeps an [E] row. *)
Definition discard_video (io : video_io) (out_dir name : pystr) (e : exn) : PyM vfs unit :=
  _ ← modify (λ fs, if v_unlink_ok io then delete (out_dir, name) fs else fs);
  _ ← try_except os_error (_append_video_index io out_dir name VIDEO_STATUS_ERROR) (λ _, mret tt);
  raise e.

(** [build_avi], with the base name of the video; the outer [option] is the fuel. *)
Definition build_avi (fuel : nat) (io : video_io) (dir : pystr) (fps : Z) (width height : option Z)
    (names : option (list pystr)) (out_dir : option pystr) (name : option pystr) (fs : vfs)
    : option (res (option pystr) * vfs) :=
  let out_dir := match out_dir with Some ((_ :: _) as o) => o | _ => dir end in
  match chosen_frames fs dir names with
  | [] => Some (Ret None, fs)
  | first :: _ =>
      match entries io fs dir (chosen_frames fs dir names) with
      | None => Some (Ret None, fs)
      | Some frames =>
          let '(width, height) := dimensions (_read_head io fs dir first) width height in
          match output_name fuel io out_dir name fs with
          | None => None
          | Some target =>
              Some ((_ ← try_except any_exception
                           (write_video io frames (Z.max 1 fps) width height (out_dir, target))
                           (discard_video io out_dir target);
                     _ ← _append_video_index io out_dir target VIDEO_STATUS_DONE;
                     mret (Some target)) fs)
          end
      end
  end.

(** ** Both writers write the same file *)

(** The file, with its header [h], as plain text. *)
Definition le4 (v : Z) : bytes := le_bytes 4 v.
Definition movi_chunk (p : bytes) : bytes :=
  u "00dc" ++ le4 (Z.of_nat (length p)) ++ p ++ odd_pad (length p).
Definition idx_row (offset size : Z) : bytes := u "00dc" ++ le4 16 ++ le4 offset ++ le4 size.
Fixpoint idx_rows (offset : Z) (sizes : list Z) : bytes :=
  match sizes with
  | [] => []
  | s :: rest => idx_row offset s ++ idx_rows (offset + chunk_len s) rest
  end.
Definition movi_len (sizes : list Z) : Z := 4 + total_of (map chunk_len sizes).
Definition body_size (h : bytes) (sizes : list Z) : Z :=
  4 + Z.of_nat (length h) + 8 + movi_len sizes + 8 + 16 * Z.of_nat (length sizes).
Definition avi_file (h : bytes) (payloads : list bytes) : bytes :=
  let sizes := sizes_of payloads in
  (u "RIFF" ++ le4 (body_size h sizes) ++ u "AVI ") ++ h ++ (u "LIST" ++ le4 (movi_len sizes) ++ u "movi") ++
  concat (map movi_chunk payloads) ++ (u "idx1" ++ le4 (16 * Z.of_nat (length payloads))) ++ idx_rows 4 sizes.

Lemma fits4 v : 0 ≤ v < 4294967296 → pack_uint 4 v = Ret (le4 v).
Proof. exact (pack_uint_fits 4 v). Qed.
Lemma large4 v : 4294967296 ≤ v → pack_uint 4 v = Raise OtherError.
Proof. exact (pack_uint_large 4 v). Qed.
Lemma odd_pad_length n : Z.of_nat (length (odd_pad n)) = Z.land (Z.of_nat n) 1.
Proof.
  change 1 with (Z.ones 1). rewrite Z.land_ones by lia. change (2 ^ 1) with 2.
  unfold odd_pad. destruct (Nat.odd n) eqn:Ho.
  - apply Nat.odd_spec in Ho as [m ->]. simpl length. pose proof (Z.div_mod (Z.of_nat (2 * m + 1)) 2).
    pose proof (Z.mod_pos_bound (Z.of_nat (2 * m + 1)) 2). lia.
  - rewrite <-Nat.negb_even, negb_false_iff in Ho. apply Nat.even_spec in Ho as [m ->]. simpl length.
    pose proof (Z.div_mod (Z.of_nat (2 * m)) 2). pose proof (Z.mod_pos_bound (Z.of_nat (2 * m)) 2). lia.
Qed.
Lemma movi_chunk_length p : Z.of_nat (length (movi_chunk p)) = chunk_len (Z.of_nat (length p)).
Proof.
  unfold movi_chunk, chunk_len, le4. rewrite !length_app, le_bytes_length, !Nat2Z.inj_add, odd_pad_length.
  change (length (u "00dc")) with 4%nat. lia.
Qed.
Lemma chunk_len_pos s : 0 ≤ s → 8 + s ≤ chunk_len s.
Proof. intros Hs. unfold chunk_len. pose proof (Z.land_nonneg s 1). lia. Qed.
Lemma chunks_length ps :
  Z.of_nat (length (concat (map movi_chunk ps))) = total_of (map chunk_len (sizes_of ps)).
Proof.
  induction ps as [|p ps IH]; [done|]. unfold total_of, sizes_of in *. cbn [map concat foldr].
  by rewrite (length_app (movi_chunk p)), Nat2Z.inj_add, movi_chunk_length, IH.
Qed.
Lemma total_chunks_pos ps : 0 ≤ total_of (map chunk_len (sizes_of ps)).
Proof. rewrite <-chunks_length. lia. Qed.
Lemma idx_rows_length offset sizes : length (idx_rows offset sizes) = (16 * length sizes)%nat.
Proof.
  revert offset. induction sizes as [|s sizes IH]; intros offset; cbn [idx_rows length]; [done|].
  rewrite length_app, IH. unfold idx_row, le4. rewrite !length_app, !le_bytes_length. simpl. lia.
Qed.

(** Packing a size either fits or raises. *)
Lemma pack4_cases v : 0 ≤ v →
  pack_uint 4 v = Ret (le4 v) ∧ v < 4294967296 ∨ pack_uint 4 v = Raise OtherError ∧ 4294967296 ≤ v.
Proof. intros Hv. destruct (Z.lt_ge_cases v 4294967296); [left|right]; split; try done; [by apply fits4|by apply large4]. Qed.
Ltac pack4 v := destruct (pack4_cases v ltac:(lia)) as [[-> ?]|[-> ?]]; cbn [mbind res_bind mret res_ret res_app].

Lemma sized_cases fourcc body :
  sized fourcc body = Ret (fourcc ++ le4 (Z.of_nat (length body)) ++ body) ∧ Z.of_nat (length body) < 4294967296 ∨
  sized fourcc body = Raise OtherError ∧ 4294967296 ≤ Z.of_nat (length body).
Proof. unfold sized. pack4 (Z.of_nat (length body)); auto. Qed.
Lemma idx_entry_cases offset size : 0 ≤ offset → 0 ≤ size →
  idx_entry offset size = Ret (idx_row offset size) ∨
  idx_entry offset size = Raise OtherError ∧ 4294967296 ≤ offset `max` size.
Proof.
  intros Ho Hs. unfold idx_entry, idx_row, pack, pack_field. rewrite (fits4 16) by lia.
  pack4 offset; [|right; split; [done|lia]]. pack4 size; [|right; split; [done|lia]]. rewrite app_nil_r. auto.
Qed.
Lemma movi_loop_cases ps movi idx :
  movi_loop ps movi idx =
    Ret (movi ++ concat (map movi_chunk ps), idx ++ idx_rows (Z.of_nat (length movi)) (sizes_of ps)) ∨
  movi_loop ps movi idx = Raise OtherError ∧
    4294967296 ≤ Z.of_nat (length movi) + total_of (map chunk_len (sizes_of ps)).
Proof.
  revert movi idx. induction ps as [|p ps IH]; intros movi idx; [left; simpl; by rewrite !app_nil_r|].
  change (total_of (map chunk_len (sizes_of (p :: ps))))
    with (chunk_len (Z.of_nat (length p)) + total_of (map chunk_len (sizes_of ps))).
  cbn [movi_loop map concat sizes_of idx_rows]. fold (sizes_of ps). pose proof (total_chunks_pos ps).
  pose proof (chunk_len_pos (Z.of_nat (length p)) ltac:(lia)).
  unfold _avi_chunk. pack4 (Z.of_nat (length p)); [|right; split; [done|lia]].
  destruct (idx_entry_cases (Z.of_nat (length movi)) (Z.of_nat (length p))) as [->|[-> ?]];
    cbn [mbind res_bind]; [lia..| |right; split; [done|lia]].
  fold (movi_chunk p).
  destruct (IH (movi ++ movi_chunk p) (idx ++ idx_row (Z.of_nat (length movi)) (Z.of_nat (length p)))) as [->|[-> Hl]];
    rewrite ?length_app, ?Nat2Z.inj_add, ?movi_chunk_length in *; [left; by rewrite <-!app_assoc|right; split; [done|lia]].
Qed.

Lemma sizes_of_length ps : length (sizes_of ps) = length ps.
Proof. apply length_map. Qed.

(** The writer in memory. *)
Lemma build_avi_bytes_spec ps fps width height :
  ps ≠ [] →
  _build_avi_bytes ps fps width height =
  match _avi_header fps width height (Z.of_nat (length ps)) (max_of (sizes_of ps)) (total_of (sizes_of ps)) with
  | Raise e => Raise e
  | Ret h => if body_size h (sizes_of ps) <? 4294967296 then Ret (avi_file h ps) else Raise OtherError
  end.
Proof.
  intros Hps. unfold _build_avi_bytes. destruct ps as [|p0 ps0] eqn:E; [done|]. rewrite <-E in *. clear E p0 ps0 Hps.
  destruct (_avi_header _ _ _ _ _ _) as [h|e]; cbn [mbind res_bind]; [|done].
  pose proof (total_chunks_pos ps) as HL. pose proof (sizes_of_length ps) as Hsl.
  assert (Z.of_nat (length (u "movi" ++ concat (map movi_chunk ps))) = movi_len (sizes_of ps)) as Hml.
  { by rewrite length_app, Nat2Z.inj_add, chunks_length. }
  assert (Z.of_nat (length (idx_rows 4 (sizes_of ps))) = 16 * Z.of_nat (length ps)) as Hil.
  { rewrite idx_rows_length, Hsl. lia. }
  assert (∀ A (x y : A), 4294967296 ≤ body_size h (sizes_of ps) →
    (if body_size h (sizes_of ps) <? 4294967296 then x else y) = y) as Hbig.
  { intros A x y Hb. by rewrite (proj2 (Z.ltb_ge _ _)). }
  unfold movi_len in Hml. unfold body_size, movi_len in Hbig |- *. rewrite Hsl in *.
  destruct (movi_loop_cases ps (u "movi") []) as [->|[-> Hm]]; cbn [mbind res_bind];
    [|rewrite Hbig; [done|change (Z.of_nat (length (u "movi"))) with 4 in Hm; lia]].
  change (Z.of_nat (length (u "movi"))) with 4. cbn [app].
  destruct (sized_cases (u "LIST") (u "movi" ++ concat (map movi_chunk ps))) as [[-> _]|[-> Hm]]; cbn [mbind res_bind];
    rewrite Hml in *; [|rewrite Hbig; [done|lia]].
  destruct (sized_cases (u "idx1") (idx_rows 4 (sizes_of ps))) as [[-> _]|[-> Hm]]; cbn [mbind res_bind];
    rewrite Hil in *; [|rewrite Hbig; [done|lia]].
  match goal with |- sized _ ?body = _ => assert (Z.of_nat (length body) =
    4 + Z.of_nat (length h) + 8 + (4 + total_of (map chunk_len (sizes_of ps))) + 8 + 16 * Z.of_nat (length ps)) as Hbl end.
  { unfold le4. rewrite !length_app, !le_bytes_length, !Nat2Z.inj_add, Hil. rewrite length_app, Nat2Z.inj_add in Hml.
    change (length (u "AVI ")) with 4%nat. change (length (u "LIST")) with 4%nat.
    change (length (u "idx1")) with 4%nat. lia. }
  destruct (sized_cases (u "RIFF") (u "AVI " ++ h ++ (u "LIST" ++ le4 (4 + total_of (map chunk_len (sizes_of ps)))
    ++ u "movi" ++ concat (map movi_chunk ps)) ++ u "idx1" ++ le4 (16 * Z.of_nat (length ps)) ++ idx_rows 4 (sizes_of ps)))
    as [[-> Hf]|[-> Hf]]; rewrite Hbl in *; [|by rewrite Hbig].
  rewrite (proj2 (Z.ltb_lt _ _)) by done. f_equal. unfold avi_file, body_size, movi_len. rewrite Hsl.
  by rewrite <-!app_assoc.
Qed.

(** *** The streaming writer *)

(** A frame whose file has at least the size taken before. *)
Definition holds (f : frame) : Prop := ∃ c, f_open f = Ret c ∧ (f_size f ≤ length c)%nat.
Definition payload (f : frame) : bytes :=
  match f_open f with Ret c => take (f_size f) c | Raise _ => [] end.
Definition frame_sizes (frames : list frame) : list Z := map (λ f, Z.of_nat (f_size f)) frames.

Lemma payload_length f : holds f → length (payload f) = f_size f.
Proof. intros (c & Ho & Hl). unfold payload. rewrite Ho. rewrite length_take. lia. Qed.
Lemma payload_sizes frames : Forall holds frames → sizes_of (map payload frames) = frame_sizes frames.
Proof.
  induction 1 as [|f frames Hf _ IH]; [done|]. unfold sizes_of, frame_sizes in *. cbn [map]. by rewrite payload_length, IH.
Qed.

Lemma measure_spec frames a b c :
  0 ≤ a → measure frames (a, b, c) =
    (a `max` max_of (frame_sizes frames), b + total_of (frame_sizes frames),
     c + total_of (map chunk_len (frame_sizes frames))).
Proof.
  revert a b c. induction frames as [|f frames IH]; intros a b c Ha; cbn [measure].
  - unfold max_of, total_of. simpl. f_equal; [f_equal|]; lia.
  - rewrite IH by (destruct (a <? _); lia). unfold max_of, total_of, frame_sizes. cbn [map foldr].
    f_equal; [f_equal|]; [|lia..]. destruct (Z.ltb_spec a (Z.of_nat (f_size f))); lia.
Qed.

(** What a step has written when it returns, and that it returns. *)
Definition appends (m : PyM aworld unit) (b : bytes) : Prop := ∀ w w', m w = (Ret tt, w') → out w' = out w ++ b.
Definition works (m : PyM aworld unit) : Prop := ∀ w, ∃ w', m w = (Ret tt, w').

Section Writers.
Context (io : build_io) (read_chunk : nat).

Lemma appends_bind m k b b' : appends m b → appends k b' → appends (_ ← m; k) (b ++ b').
Proof.
  intros Hm Hk w w'. unfold mbind, pym_bind. destruct (m w) as [[[]|] w1] eqn:E; [|done].
  intros Hw%Hk. by rewrite Hw, (Hm _ _ E), app_assoc.
Qed.
Lemma appends_nil m : (∀ w, out (m w).2 = out w) → appends m [].
Proof. intros Hm w w' E. specialize (Hm w). rewrite E in Hm. by rewrite app_nil_r. Qed.
Lemma appends_write b : appends (write io b) b.
Proof. intros w w'. unfold write. case_match; [|done]. by intros [= <-]. Qed.
Lemma appends_packed r b : (∀ x, r = Ret x → x = b) → appends (write_packed io r) b.
Proof.
  intros Hr w w'. unfold write_packed, mbind, pym_bind, of_res. destruct r as [x|]; [|done].
  rewrite (Hr x) by done. apply appends_write.
Qed.
Lemma works_bind m k : works m → works k → works (_ ← m; k).
Proof. intros Hm Hk w. unfold mbind, pym_bind. destruct (Hm w) as [w1 ->]. apply Hk. Qed.

(** The copy of one frame. *)
Lemma copy_frame_returns fuel remaining content w w' :
  (remaining ≤ fuel)%nat → copy_frame io read_chunk fuel remaining content w = (Ret tt, w') →
  (remaining ≤ length content)%nat ∧ out w' = out w ++ take remaining content.
Proof.
  revert remaining content w. induction fuel as [|fuel IH]; intros remaining content w Hr; cbn [copy_frame].
  { intros [= <-]. assert (remaining = O) as -> by lia. by rewrite take_0, app_nil_r; split; [lia|]. }
  destruct (Nat.eqb_spec remaining 0) as [->|Hz].
  { intros [= <-]. by rewrite take_0, app_nil_r; split; [lia|]. }
  unfold mbind, pym_bind, check_stop. destruct (stop_event io (polls w)); [done|].
  set (chunk := take (read_chunk `min` remaining) content).
  assert (length chunk ≤ remaining)%nat as Hc by (unfold chunk; rewrite length_take; lia).
  assert (take (length chunk) content = chunk) as Ht.
  { unfold chunk. rewrite length_take. destruct (Nat.le_gt_cases (read_chunk `min` remaining) (length content)).
    - by rewrite (Nat.min_l _ (length content)) by lia.
    - by rewrite (Nat.min_r _ (length content)), !take_ge by lia. }
  clearbody chunk. destruct chunk as [|x xs]; [done|]. assert (0 < length (x :: xs))%nat as Hpos by (simpl; lia).
  set (chunk := x :: xs) in *. clearbody chunk.
  destruct (write io chunk _) as [[[]|] w1] eqn:Hw; [|done].
  apply appends_write in Hw. cbn in Hw. unfold constant in Hw. intros [Hl Ho]%IH; [|lia].
  apply (f_equal length) in Ht as Hlt. rewrite length_take in Hlt. rewrite length_drop in Hl. split; [lia|]. rewrite Ho, Hw, <-app_assoc. f_equal.
  rewrite <-Ht at 1. rewrite <-(take_drop (length chunk) (take remaining content)), take_take, Nat.min_l by lia.
  by rewrite skipn_firstn_comm.
Qed.

(** What [write_frames] writes. *)
Lemma write_frames_returns frames written total w w' :
  write_frames io read_chunk frames written total w = (Ret tt, w') →
  Forall holds frames ∧ out w' = out w ++ concat (map movi_chunk (map payload frames)).
Proof.
  revert written w. induction frames as [|f frames IH]; intros written w; cbn [write_frames].
  { intros [= <-]. split; [constructor|]. by rewrite app_nil_r. }
  unfold mbind at 1, pym_bind at 1. destruct (write_packed _ _ w) as [[[]|] w1] eqn:H1; [|done].
  apply (appends_packed _ (u "00dc" ++ le4 (Z.of_nat (f_size f)))) in H1.
  2:{ intros x. unfold pack, pack_field. pack4 (Z.of_nat (f_size f)); [|done]. rewrite app_nil_r. by intros [= <-]. }
  unfold mbind at 1, pym_bind at 1, of_res. destruct (f_open f) as [c|] eqn:Hopen; [|done].
  unfold mbind at 1, pym_bind at 1. destruct (copy_frame _ _ _ _ _ w1) as [[[]|] w2] eqn:H2; [|done].
  apply copy_frame_returns in H2 as [Hl H2]; [|done].
  assert (holds f) as Hf by (by exists c). pose proof (payload_length f Hf) as Hpl.
  unfold mbind at 1, pym_bind at 1. destruct ((if Nat.odd (f_size f) then write io [0] else mret tt) w2) as [[[]|] w3] eqn:H3; [|done].
  assert (out w3 = out w2 ++ odd_pad (f_size f)) as H3'.
  { unfold odd_pad. destruct (Nat.odd (f_size f)); [by apply appends_write in H3|]. injection H3 as <-. by rewrite app_nil_r. }
  unfold mbind, pym_bind, progress, modify. intros [Hall Ho]%IH. split; [by constructor|].
  change (out w' = out w3 ++ concat (map movi_chunk (map payload frames))) in Ho. cbn [map concat]. rewrite Ho, H3', H2, H1. unfold movi_chunk at 2. rewrite Hpl. unfold payload at 2. rewrite Hopen.
  by rewrite <-!app_assoc.
Qed.

Lemma frame_sizes_pos frames : Forall (λ s, 0 ≤ s) (frame_sizes frames).
Proof. apply Forall_map, Forall_true. intros f. lia. Qed.

Lemma write_index_appends frames offset : 0 ≤ offset →
  appends (write_index io frames offset) (idx_rows offset (frame_sizes frames)).
Proof.
  revert offset. induction frames as [|f frames IH]; intros offset Ho; [by apply appends_nil|].
  cbn [write_index frame_sizes map idx_rows]. pose proof (chunk_len_pos (Z.of_nat (f_size f)) ltac:(lia)).
  apply appends_bind; [|apply IH; lia]. apply appends_packed. intros x.
  destruct (idx_entry_cases offset (Z.of_nat (f_size f)) Ho ltac:(lia)) as [->|[-> _]]; [|done]. by intros [= <-].
Qed.

(** A tag and a size. *)
Lemma pack_raws bs : pack (map Raw bs) = Ret (concat bs).
Proof. induction bs as [|b bs IH]; [done|]. cbn [map pack]. by rewrite IH. Qed.
Lemma write_size_returns a v bs w w' :
  0 ≤ v → write_packed io (pack (Raw a :: U 4 v :: map Raw bs)) w = (Ret tt, w') →
  v < 4294967296 ∧ out w' = out w ++ a ++ le4 v ++ concat bs.
Proof.
  intros Hv. cbn [pack pack_field]. rewrite pack_raws. pack4 v; [|done].
  intros Hw. split; [done|]. revert Hw. apply appends_packed. by intros x [= <-].
Qed.
Lemma total_sizes_pos frames : 0 ≤ total_of (map chunk_len (frame_sizes frames)).
Proof.
  unfold total_of, frame_sizes. induction frames as [|f frames IH]; cbn [map foldr]; [lia|].
  pose proof (chunk_len_pos (Z.of_nat (f_size f)) ltac:(lia)). lia.
Qed.
Lemma frame_sizes_length frames : length (frame_sizes frames) = length frames.
Proof. apply length_map. Qed.

(** When the stream returns, its output is the file of the writer in memory. *)
Lemma build_avi_stream_returns frames fps width height w w' :
  _build_avi_stream io read_chunk frames fps width height w = (Ret tt, w') →
  Forall holds frames ∧
  ∃ b, _build_avi_bytes (map payload frames) fps width height = Ret b ∧ out w' = out w ++ b.
Proof.
  unfold _build_avi_stream. destruct frames as [|f0 fs0] eqn:E; [done|]. rewrite <-E. rewrite measure_spec by lia.
  assert (map payload frames ≠ []) as Hne by (by rewrite E).
  rewrite Z.max_r, Z.add_0_l by (rewrite E; unfold max_of; simpl; lia). clear E f0 fs0.
  pose proof (total_sizes_pos frames) as Ht. pose proof (frame_sizes_length frames) as Hfl.
  unfold mbind at 1, pym_bind at 1, of_res. destruct (_avi_header _ _ _ _ _ _) as [h|] eqn:Hh; [|done].
  unfold mbind at 1, pym_bind at 1. destruct (write_packed io _ w) as [[[]|] w1] eqn:H1; [|done].
  apply (write_size_returns _ _ [u "AVI "]) in H1 as [Hbody H1]; [|lia].
  unfold mbind at 1, pym_bind at 1. destruct (write io h w1) as [[[]|] w2] eqn:H2; [|done].
  apply appends_write in H2.
  unfold mbind at 1, pym_bind at 1. destruct (write_packed io _ w2) as [[[]|] w3] eqn:H3; [|done].
  apply (write_size_returns _ _ [u "movi"]) in H3 as [_ H3]; [|lia].
  unfold mbind at 1, pym_bind at 1. destruct (write_frames io _ _ _ _ w3) as [[[]|] w4] eqn:H4; [|done].
  apply write_frames_returns in H4 as [Hall H4].
  unfold mbind at 1, pym_bind at 1. destruct (write_packed io _ w4) as [[[]|] w5] eqn:H5; [|done].
  apply (write_size_returns _ _ []) in H5 as [_ H5]; [|lia].
  intros H6%write_index_appends; [|lia]. split; [done|]. pose proof (payload_sizes frames Hall) as Hps.
  rewrite build_avi_bytes_spec by done. rewrite Hps, length_map, Hh.
  rewrite (proj2 (Z.ltb_lt _ _)) by (unfold body_size, movi_len; rewrite Hfl; lia).
  eexists. split; [reflexivity|]. rewrite H6, H5, H4, H3, H2, H1. unfold avi_file, body_size, movi_len.
  rewrite Hps, Hfl, length_map. cbn [concat]. by rewrite !app_nil_r, <-!app_assoc.
Qed.
End Writers.

(** With room and no stop request, the stream returns exactly when the file fits. *)
Section Works.
Context (io : build_io) (read_chunk : nat).
Context (Hroom : ∀ n, can_grow io n = true) (Hstop : ∀ n, stop_event io n = false) (Hchunk : (0 < read_chunk)%nat).

Lemma works_write b : works (write io b).
Proof. intros w. unfold write. rewrite Hroom. eauto. Qed.
Lemma works_packed r b : r = Ret b → works (write_packed io r).
Proof. intros -> w. apply works_write. Qed.
Lemma works_size a v bs : 0 ≤ v < 4294967296 → works (write_packed io (pack (Raw a :: U 4 v :: map Raw bs))).
Proof. intros Hv. eapply works_packed. cbn [pack pack_field]. rewrite pack_raws, fits4 by done. reflexivity. Qed.

Lemma works_copy fuel remaining content :
  (remaining ≤ length content)%nat → works (copy_frame io read_chunk fuel remaining content).
Proof.
  revert remaining content. induction fuel as [|fuel IH]; intros remaining content Hr; cbn [copy_frame]; [by eexists|].
  destruct (Nat.eqb_spec remaining 0) as [->|Hz]; [by eexists|].
  apply works_bind; [intros w; unfold check_stop; rewrite Hstop; eauto|].
  set (chunk := take (read_chunk `min` remaining) content).
  assert (length chunk = read_chunk `min` remaining)%nat as Hl by (unfold chunk; rewrite length_take; lia).
  clearbody chunk. destruct chunk as [|x xs]; [simpl in Hl; lia|].
  apply works_bind; [apply works_write|]. apply IH. rewrite length_drop. lia.
Qed.

Lemma works_frames frames written total :
  Forall holds frames → total_of (map chunk_len (frame_sizes frames)) < 4294967296 →
  works (write_frames io read_chunk frames written total).
Proof.
  intros Hall. revert written. induction Hall as [|f frames (c & Ho & Hc) Hall IH]; intros written Hf; [by eexists|].
  change (total_of _) with (chunk_len (Z.of_nat (f_size f)) + total_of (map chunk_len (frame_sizes frames))) in Hf.
  pose proof (chunk_len_pos (Z.of_nat (f_size f)) ltac:(lia)). pose proof (total_sizes_pos frames).
  cbn [write_frames]. apply works_bind; [apply (works_size _ _ []); lia|]. rewrite Ho.
  apply (works_bind (copy_frame _ _ _ _ _)); [by apply works_copy|].
  apply works_bind; [destruct (Nat.odd (f_size f)); [apply works_write|by eexists]|].
  apply works_bind; [by eexists|]. apply IH. lia.
Qed.
Lemma works_index frames offset :
  0 ≤ offset → offset + total_of (map chunk_len (frame_sizes frames)) < 4294967296 →
  works (write_index io frames offset).
Proof.
  revert offset. induction frames as [|f frames IH]; intros offset Ho Hf; [by eexists|].
  change (total_of _) with (chunk_len (Z.of_nat (f_size f)) + total_of (map chunk_len (frame_sizes frames))) in Hf.
  pose proof (chunk_len_pos (Z.of_nat (f_size f)) ltac:(lia)). pose proof (total_sizes_pos frames).
  cbn [write_index]. apply works_bind; [|apply IH; lia].
  destruct (idx_entry_cases offset (Z.of_nat (f_size f))) as [Hi|[_ ?]]; [lia..| |lia]. by eapply works_packed.
Qed.

Lemma build_avi_stream_ends frames fps width height w :
  Forall holds frames →
  (_build_avi_stream io read_chunk frames fps width height w).1 =
  match _build_avi_bytes (map payload frames) fps width height with Ret _ => Ret tt | Raise e => Raise e end.
Proof.
  intros Hall. unfold _build_avi_stream. destruct frames as [|f0 fs0] eqn:E; [done|]. rewrite <-E in *.
  rewrite measure_spec by lia. rewrite build_avi_bytes_spec by (by rewrite E).
  rewrite Z.max_r, Z.add_0_l by (rewrite E; unfold max_of; simpl; lia). clear E f0 fs0.
  pose proof (total_sizes_pos frames) as Ht. pose proof (frame_sizes_length frames) as Hfl.
  rewrite (payload_sizes frames Hall), length_map.
  unfold mbind at 1, pym_bind at 1, of_res. destruct (_avi_header _ _ _ _ _ _) as [h|] eqn:Hh; [|done].
  unfold body_size, movi_len. rewrite Hfl.
  set (body := 4 + Z.of_nat (length h) + 8 + _ + 8 + _).
  destruct (Z.ltb_spec body 4294967296) as [Hlt|Hge].
  - assert (works (_ ← write_packed io (pack [Raw (u "RIFF"); U 4 body; Raw (u "AVI ")]); _ ← write io h;
      _ ← write_packed io (pack [Raw (u "LIST"); U 4 (4 + total_of (map chunk_len (frame_sizes frames))); Raw (u "movi")]);
      _ ← write_frames io read_chunk frames 0 (Z.of_nat (length frames));
      _ ← write_packed io (pack [Raw (u "idx1"); U 4 (16 * Z.of_nat (length frames))]); write_index io frames 4)) as Hw.
    { apply works_bind; [apply (works_size _ _ [_]); lia|]. apply works_bind; [apply works_write|].
      apply works_bind; [apply (works_size _ _ [_]); lia|]. apply works_bind; [apply works_frames; [done|lia]|].
      apply works_bind; [apply (works_size _ _ []); lia|]. apply works_index; lia. }
    destruct (Hw w) as [w' He]. by rewrite He.
  - unfold mbind at 1, pym_bind at 1, write_packed, pack, pack_field. by rewrite (large4 body).
Qed.
End Works.

(** C14: the streaming writer is the writer in memory.  Whatever the storage, the stop
    event and the files do, a stream that returns has written byte for byte the file
    that [_build_avi_bytes] makes of the frames, cut to the sizes taken beforehand, and
    no file was shorter; with room, no stop request and complete files it does return,
    or raises exactly the error of [_build_avi_bytes]. *)
Theorem avi_stream_equals_bytes io read_chunk frames fps width height w :
  (∀ w', _build_avi_stream io read_chunk frames fps width height w = (Ret tt, w') →
     Forall holds frames ∧
     ∃ b, _build_avi_bytes (map payload frames) fps width height = Ret b ∧ out w' = out w ++ b) ∧
  ((∀ n, can_grow io n = true) → (∀ n, stop_event io n = false) → (0 < read_chunk)%nat → Forall holds frames →
   (_build_avi_stream io read_chunk frames fps width height w).1 =
   match _build_avi_bytes (map payload frames) fps width height with Ret _ => Ret tt | Raise e => Raise e end).
Proof.
  split.
  - intros w'. apply build_avi_stream_returns.
  - intros Hroom Hstop Hchunk. by apply build_avi_stream_ends.
Qed.

Definition roomy : build_io := {| can_grow := λ _, true; stop_event := λ _, false |}.
Definition two_frames : list frame :=
  [ {| f_size := 3; f_open := Ret [255; 216; 255] |}; {| f_size := 2; f_open := Ret [1; 2; 3] |} ].

Lemma avi_stream_equals_bytes_witness :
  let w := {| out := []; polls := 0; progressed := [] |} in
  (_build_avi_stream roomy 2 two_frames 10 640 480 w).1 = Ret tt ∧
  (_build_avi_stream roomy 2 two_frames 10 40000 480 w).1 = Raise OtherError.
Proof.
  cbv zeta. assert (Forall holds two_frames) as Hh by (repeat constructor; eexists; (split; [reflexivity|simpl; lia])).
  split.
  - rewrite (proj2 (avi_stream_equals_bytes roomy 2 two_frames 10 640 480 _)); [vm_compute; reflexivity|done|done|lia|exact Hh].
  - rewrite (proj2 (avi_stream_equals_bytes roomy 2 two_frames 10 40000 480 _)); [vm_compute; reflexivity|done|done|lia|exact Hh].
Defined.

(** ** The index finds the frames *)

Lemma drop_app_exact {A} (n : nat) (a b : list A) : n = length a → drop n (a ++ b) = b.
Proof. intros ->. apply drop_app_length. Qed.
Lemma take_app_exact {A} (n : nat) (a b : list A) : n = length a → take n (a ++ b) = a.
Proof. intros ->. apply take_app_length. Qed.

Lemma idx_row_length offset size : length (idx_row offset size) = 16%nat.
Proof. unfold idx_row, le4. rewrite !length_app, !le_bytes_length. done. Qed.
Lemma idx_rows_at ps pre i p :
  ps !! i = Some p →
  ∃ offset, 0 ≤ offset ≤ Z.of_nat (length (pre ++ concat (map movi_chunk ps))) ∧
    take 16 (drop (16 * i) (idx_rows (Z.of_nat (length pre)) (sizes_of ps))) = idx_row offset (Z.of_nat (length p)) ∧
    take (8 + length p) (drop (Z.to_nat offset) (pre ++ concat (map movi_chunk ps))) =
      u "00dc" ++ le4 (Z.of_nat (length p)) ++ p.
Proof.
  revert pre i. induction ps as [|q ps IH]; intros pre i; [done|].
  cbn [map concat sizes_of idx_rows]. fold (sizes_of ps). destruct i as [|i]; cbn [lookup list_lookup].
  - intros [= <-]. exists (Z.of_nat (length pre)). split; [rewrite length_app; lia|]. split.
    + cbn [Nat.mul]. apply take_app_exact. by rewrite idx_row_length.
    + rewrite Nat2Z.id, drop_app_length. unfold movi_chunk. rewrite <-!app_assoc.
      rewrite (app_assoc (u "00dc")), (app_assoc (u "00dc" ++ _)), (app_assoc (u "00dc")).
      apply take_app_exact. unfold le4. rewrite !length_app, le_bytes_length. done.
  - intros Hi. destruct (IH (pre ++ movi_chunk q) i Hi) as (offset & Ho & Hr & Hm).
    rewrite <-app_assoc in Ho, Hm. exists offset. split; [done|]. split; [|done].
    rewrite length_app, Nat2Z.inj_add, movi_chunk_length in Hr. rewrite <-Hr. f_equal.
    replace (16 * S i)%nat with (16 + 16 * i)%nat by lia. rewrite <-drop_drop. f_equal.
Qed.

(** The offset and size of row [i] of an index. *)
Definition row_offset (idx : bytes) (i : nat) : Z := le_value (take 4 (drop 8 (take 16 (drop (16 * i) idx)))).
Definition row_size (idx : bytes) (i : nat) : Z := le_value (take 4 (drop 12 (take 16 (drop (16 * i) idx)))).

Lemma idx_row_fields offset size :
  0 ≤ offset < 4294967296 → 0 ≤ size < 4294967296 →
  le_value (take 4 (drop 8 (idx_row offset size))) = offset ∧ le_value (take 4 (drop 12 (idx_row offset size))) = size.
Proof.
  intros Ho Hs. unfold idx_row. rewrite (app_assoc (u "00dc")). split.
  - rewrite drop_app_exact by done. rewrite take_app_exact by (symmetry; apply le_bytes_length).
    by apply (le_value_bytes 4).
  - rewrite (app_assoc (u "00dc" ++ le4 16)), drop_app_exact.
    2:{ unfold le4. rewrite !length_app, !le_bytes_length. done. }
    rewrite take_ge by (unfold le4; rewrite le_bytes_length; lia). by apply (le_value_bytes 4).
Qed.

(** Every size field is exact and the index finds every frame.  A file made of
    the payloads is a RIFF chunk of its own length; it ends with an index of one
    16-byte row per frame; and the offset of row [i], counted from the list type
    [movi], leads to the chunk that holds exactly payload [i]. *)
Theorem avi_index_finds_frames payloads fps width height b :
  _build_avi_bytes payloads fps width height = Ret b →
  ∃ head movi idx,
    b = head ++ movi ++ u "idx1" ++ le4 (Z.of_nat (length idx)) ++ idx ∧
    take 4 b = u "RIFF" ∧ le_value (take 4 (drop 4 b)) + 8 = Z.of_nat (length b) ∧
    drop (length head - 8) head = u "LIST" ++ le4 (Z.of_nat (length movi)) ∧ take 4 movi = u "movi" ∧
    length idx = (16 * length payloads)%nat ∧
    ∀ i p, payloads !! i = Some p →
      row_size idx i = Z.of_nat (length p) ∧
      take (8 + length p) (drop (Z.to_nat (row_offset idx i)) movi) = u "00dc" ++ le4 (Z.of_nat (length p)) ++ p.
Proof.
  destruct payloads as [|p0 ps0] eqn:E; [done|]. rewrite <-E.
  rewrite build_avi_bytes_spec by (by rewrite E). clear E p0 ps0.
  destruct (_avi_header _ _ _ _ _ _) as [h|]; [|done].
  destruct (Z.ltb_spec (body_size h (sizes_of payloads)) 4294967296) as [Hb|]; [|done]. intros [= <-].
  pose proof (total_chunks_pos payloads) as Ht. pose proof (chunks_length payloads) as Hcl.
  pose proof (sizes_of_length payloads) as Hsl.
  set (movi := u "movi" ++ concat (map movi_chunk payloads)). set (idx := idx_rows 4 (sizes_of payloads)).
  assert (length idx = (16 * length payloads)%nat) as Hil by (unfold idx; by rewrite idx_rows_length, Hsl).
  assert (Z.of_nat (length movi) = movi_len (sizes_of payloads)) as Hml.
  { unfold movi. by rewrite length_app, Nat2Z.inj_add, Hcl. }
  exists ((u "RIFF" ++ le4 (body_size h (sizes_of payloads)) ++ u "AVI ") ++ h ++ u "LIST" ++ le4 (movi_len (sizes_of payloads))),
    movi, idx.
  assert (∀ v, length (le4 v) = 4%nat) as Hl4 by (intros v; apply le_bytes_length).
  split_and!; try done.
  - unfold avi_file, movi, idx. rewrite idx_rows_length, Hsl, Nat2Z.inj_mul. by rewrite <-!app_assoc.
  - unfold avi_file. rewrite <-!app_assoc, drop_app_exact, take_app_exact by (by rewrite ?Hl4).
    rewrite (le_value_bytes 4) by (unfold body_size, movi_len in *; lia).
    rewrite !length_app, !Hl4, !Nat2Z.inj_add, Hcl. fold idx. rewrite Hil. unfold body_size, movi_len. rewrite Hsl.
    change (length (u "RIFF")) with 4%nat. change (length (u "AVI ")) with 4%nat. change (length (u "LIST")) with 4%nat.
    change (length (u "movi")) with 4%nat. change (length (u "idx1")) with 4%nat. lia.
  - rewrite Hml, (app_assoc _ h). apply drop_app_exact. rewrite !length_app, !Hl4.
    change (length (u "LIST")) with 4%nat. lia.
  - intros i p Hi. destruct (idx_rows_at payloads (u "movi") i p Hi) as (offset & Ho & Hr & Hm). fold movi in Ho, Hm.
    change (Z.of_nat (length (u "movi"))) with 4 in Hr. fold idx in Hr. unfold row_size, row_offset. rewrite Hr.
    assert (8 + Z.of_nat (length p) ≤ Z.of_nat (length movi)) as Hp.
    { apply (f_equal length) in Hm. rewrite length_take, length_drop, !length_app, Hl4 in Hm.
      change (length (u "00dc")) with 4%nat in Hm. lia. }
    unfold body_size in Hb. destruct (idx_row_fields offset (Z.of_nat (length p))) as [-> ->]; [lia..|]. done.
Qed.

Lemma avi_index_finds_frames_witness :
  ∃ b, _build_avi_bytes [[255; 216; 255]; [1; 2]] 10 640 480 = Ret b ∧
    ∃ idx movi, row_size idx 1 = 2 ∧ take 10 (drop (Z.to_nat (row_offset idx 1)) movi) = u "00dc" ++ le4 2 ++ [1; 2].
Proof.
  destruct (_build_avi_bytes [[255; 216; 255]; [1; 2]] 10 640 480) as [b|] eqn:E; [|vm_compute in E; discriminate].
  exists b. split; [reflexivity|].
  destruct (avi_index_finds_frames [[255; 216; 255]; [1; 2]] 10 640 480 b E) as (head & movi & idx & _ & _ & _ & _ & _ & _ & Hi).
  exists idx, movi. exact (Hi 1%nat [1; 2] eq_refl).
Defined.

(** ** A build and the directory *)

Lemma stamped_inj suffix tm ms ms' :
  0 ≤ ms → 0 ≤ ms' → stamped suffix tm ms = stamped suffix tm ms' → ms = ms'.
Proof.
  intros H H'. unfold stamped, _stamp. rewrite <-!app_assoc. intros He. do 7 apply app_inv_head in He.
  apply app_inv_tail in He. apply (f_equal decimal) in He. by rewrite !decimal_pad0, !decimal_str_of_int in He.
Qed.

Lemma starts_with_app p s : starts_with p (p ++ s) = true.
Proof. induction p as [|c p IH]; simpl; [done|]. by rewrite Z.eqb_refl, IH. Qed.
Lemma ends_with_app p s : ends_with p (s ++ p) = true.
Proof. unfold ends_with. rewrite rev_app_distr. apply starts_with_app. Qed.

Lemma unique_from_free fuel dir suffix tm ms fs i :
  (i < fuel)%nat → fs !! (dir, stamped suffix tm (ms + Z.of_nat i)) = None →
  ∃ n, unique_from fuel dir suffix tm ms fs = Some n ∧ fs !! (dir, n) = None ∧ ends_with suffix n = true.
Proof.
  revert ms i. induction fuel as [|fuel IH]; intros ms i Hi Hf; [lia|]. cbn [unique_from].
  destruct (fs !! (dir, stamped suffix tm ms)) eqn:Hx.
  - destruct i as [|i]; [rewrite Z.add_0_r in Hf; congruence|]. apply (IH (ms + 1) i); [lia|].
    by replace (ms + 1 + Z.of_nat i) with (ms + Z.of_nat (S i)) by lia.
  - eexists. split; [done|]. split; [done|]. unfold stamped. rewrite app_assoc. apply ends_with_app.
Qed.

(** One try more than there are files finds a free name. *)
Lemma output_name_free fuel io out_dir name fs :
  (size fs < fuel)%nat → 0 ≤ c_ms (v_time io) →
  ∃ n, output_name fuel io out_dir name fs = Some n ∧ fs !! (out_dir, n) = None ∧ ends_with AVI_SUFFIX n = true.
Proof.
  intros Hf Hms.
  assert (∃ n, _unique_name fuel out_dir AVI_SUFFIX (v_time io) fs = Some n ∧
               fs !! (out_dir, n) = None ∧ ends_with AVI_SUFFIX n = true) as Hu.
  { destruct (free_name fs (λ i, (out_dir, stamped AVI_SUFFIX (v_time io) (c_ms (v_time io) + Z.of_nat i)))) as (i & Hi & Hn).
    - intros i j He. apply (f_equal snd) in He. cbn [snd] in He. apply stamped_inj in He; lia.
    - eapply unique_from_free; [|exact Hn]. lia. }
  unfold output_name. destruct name as [[|c n]|]; [done| |done].
  destruct (bool_decide _) eqn:Hb; [done|]. apply bool_decide_eq_false in Hb.
  destruct (contains_char 47 (c :: n)); [done|]. destruct (ends_with AVI_SUFFIX (c :: n)) eqn:He; [|done].
  exists (c :: n). split; [done|]. split; [by apply eq_None_not_Some|done].
Qed.

Lemma csv_not_avi n : ends_with AVI_SUFFIX n = true → n ≠ CSV_NAME.
Proof. by intros Hn ->. Qed.

Lemma entries_payloads io fs dir names frames :
  entries io fs dir names = Some frames →
  Forall holds frames → Forall2 (λ n p, fs !! (dir, n) = Some p) names (map payload frames).
Proof.
  unfold entries. rewrite mapM_Some. induction 1 as [|n f names frames Hf _ IH]; [constructor|].
  intros [(c & Ho & Hc) Hh]%Forall_cons. constructor; [|by apply IH].
  destruct (fs !! (dir, n)) as [content|]; [|done]. cbn in Hf. injection Hf as <-. unfold payload. cbn in *.
  destruct (v_readable io n); [|done]. by rewrite take_ge.
Qed.

(** The index keeps the rest of the directory. *)
Lemma append_index_other io dir n status fs k :
  k ≠ (dir, CSV_NAME) → (_append_video_index io dir n status fs).2 !! k = fs !! k.
Proof.
  intros Hk. unfold _append_video_index. destruct (v_index_ok io); [|done]. cbn [negb].
  destruct (utf8_encode _); cbn; by rewrite lookup_insert_ne.
Qed.

(** A failed build leaves every other file alone, and no video if it may be removed. *)
Lemma discard_video_result io out_dir n e fs :
  (discard_video io out_dir n e fs).1 ≠ Ret tt ∧
  (∀ k, k ≠ (out_dir, n) → k ≠ (out_dir, CSV_NAME) → (discard_video io out_dir n e fs).2 !! k = fs !! k) ∧
  (n ≠ CSV_NAME → v_unlink_ok io = true → (discard_video io out_dir n e fs).2 !! (out_dir, n) = None).
Proof.
  set (fs1 := if v_unlink_ok io then delete (out_dir, n) fs else fs).
  assert ((discard_video io out_dir n e fs).1 ≠ Ret tt ∧
          (discard_video io out_dir n e fs).2 = (_append_video_index io out_dir n VIDEO_STATUS_ERROR fs1).2) as [Hr Hs].
  { unfold discard_video, mbind, pym_bind, modify, try_except, raise, mret, pym_ret. fold fs1.
    destruct (_append_video_index io out_dir n VIDEO_STATUS_ERROR fs1) as [[[]|e'] fs2]; [done|].
    by destruct (os_error e'). }
  split; [done|]. rewrite Hs. split.
  - intros k Hk Hc. rewrite append_index_other by done. unfold fs1. destruct (v_unlink_ok io); [|done].
    by rewrite lookup_delete_ne.
  - intros Hn Hu. rewrite append_index_other by congruence. unfold fs1. by rewrite Hu, lookup_delete_eq.
Qed.

Lemma write_video_result io frames fps width height key fs :
  match write_video io frames fps width height key fs with
  | (Ret tt, fs') =>
      Forall holds frames ∧ ∃ b, _build_avi_bytes (map payload frames) fps width height = Ret b ∧ fs' = <[key := b]> fs
  | (Raise _, fs') => ∀ k, k ≠ key → fs' !! k = fs !! k
  end.
Proof.
  unfold write_video. destruct (v_open_ok io); cbn [negb]; [|done].
  destruct (_build_avi_stream _ _ _ _ _ _ _) as [[[]|e] w'] eqn:Hs.
  - apply build_avi_stream_returns in Hs as (Hall & b & Hb & ->). split; [done|]. by exists b.
  - intros k Hk. by rewrite lookup_insert_ne.
Qed.

(** The video that a complete build stores. *)
Definition built (io : video_io) (fs : vfs) (dir : pystr) (fps : Z) (width height : option Z)
    (names : option (list pystr)) (b : bytes) : Prop :=
  ∃ first rest payloads, chosen_frames fs dir names = first :: rest ∧
    Forall2 (λ n p, fs !! (dir, n) = Some p) (first :: rest) payloads ∧
    let '(w, h) := dimensions (_read_head io fs dir first) width height in
    _build_avi_bytes payloads (Z.max 1 fps) w h = Ret b.

(** A build never overwrites and never leaves half a video.  It ends, with one
    try more than there are files.  It answers [None] only without a change.  A video it
    reports has a name that was free, holds the AVI of the chosen frames with the
    dimensions of the first, has its [D] row in the index, and is the only other change.
    When it raises, at most the new name and the index differ, and the new name is gone if
    it may be removed and the index can be written. *)
Theorem build_avi_safe fuel io dir fps width height names out_dir name fs :
  (size fs < fuel)%nat → 0 ≤ c_ms (v_time io) →
  let od := match out_dir with Some ((_ :: _) as o) => o | _ => dir end in
  ∃ r fs', build_avi fuel io dir fps width height names out_dir name fs = Some (r, fs') ∧
  match r with
  | Ret None => fs' = fs
  | Ret (Some t) =>
      fs !! (od, t) = None ∧ ends_with AVI_SUFFIX t = true ∧
      ∃ b row, built io fs dir fps width height names b ∧ utf8_encode (t ++ u ":D" ++ [10]) = Some row ∧
        fs' = <[(od, CSV_NAME) := default [] (fs !! (od, CSV_NAME)) ++ row]> (<[(od, t) := b]> fs)
  | Raise _ =>
      ∃ t, fs !! (od, t) = None ∧
        (∀ k, k ≠ (od, t) → k ≠ (od, CSV_NAME) → fs' !! k = fs !! k) ∧
        (v_unlink_ok io = true → v_index_ok io = true → is_Some (utf8_encode (t ++ u ":D" ++ [10])) →
         fs' !! (od, t) = None)
  end.
Proof.
  intros Hf Hms. cbv zeta. unfold build_avi.
  set (od := match out_dir with Some ((_ :: _) as o) => o | _ => dir end). clearbody od.
  destruct (chosen_frames fs dir names) as [|first rest] eqn:Hc; [by do 2 eexists|].
  destruct (entries io fs dir (first :: rest)) as [frames|] eqn:He; [|by do 2 eexists].
  destruct (dimensions (_read_head io fs dir first) width height) as [w h] eqn:Hd.
  destruct (output_name_free fuel io od name fs Hf Hms) as (t & -> & Hfree & Hend).
  pose proof (csv_not_avi t Hend) as Ht. eexists _, _. split; [apply f_equal, surjective_pairing|].
  unfold mbind, pym_bind, try_except.
  destruct (write_video io frames (Z.max 1 fps) w h (od, t) fs) as [r1 fs1] eqn:Hw.
  pose proof (write_video_result io frames (Z.max 1 fps) w h (od, t) fs) as Hv. rewrite Hw in Hv.
  destruct r1 as [[]|e]; cbn [any_exception].
  - destruct Hv as (Hall & b & Hb & ->).
    assert (built io fs dir fps width height names b) as Hbuilt.
    { exists first, rest, (map payload frames). rewrite Hd. split_and!; [done| |done]. by eapply entries_payloads. }
    unfold _append_video_index. change (u ":" ++ VIDEO_STATUS_DONE ++ [10]) with (u ":D" ++ [10]).
    assert ((<[(od, t) := b]> fs) !! (od, CSV_NAME) = fs !! (od, CSV_NAME)) as Hcsv by (rewrite lookup_insert_ne; congruence).
    destruct (v_index_ok io); cbn [negb].
    + destruct (utf8_encode (t ++ u ":D" ++ [10])) as [row|] eqn:Hrow; cbn [fst snd mret pym_ret]; rewrite Hcsv.
      * split_and!; [done..|]. exists b, row. done.
      * exists t. split; [done|]. split; [|intros _ _ [x Hx]; congruence]. intros k Hk Hk'. by rewrite !lookup_insert_ne.
    + cbn [fst snd]. exists t. split_and!; [done| |done]. intros k Hk Hk'. by rewrite lookup_insert_ne.
  - destruct (discard_video_result io od t e fs1) as (Hr & Hother & Hgone).
    destruct (discard_video io od t e fs1) as [[[]|e'] fs2]; [done|]. cbn [fst snd] in *. exists t.
    split_and!; [done| |intros Hu _ _; by apply Hgone]. intros k Hk Hk'. rewrite Hother by done. by apply Hv.
Qed.

Definition plain_io : video_io :=
  {| v_build := roomy; v_open_ok := true; v_unlink_ok := true; v_index_ok := true; v_readable := λ _, true;
     v_time := {| c_hour := 12; c_min := 30; c_sec := 0; c_ms := 5 |} |}.
Definition one_frame : vfs :=
  {[ (u "/sd", u "timelapse_12-29-59-000.jpg") := [255; 216; 255; 217]; (u "/sd", u "timelapse_12-30-00-005.avi") := [] ]}.

Lemma build_avi_safe_witness :
  ∃ t fs', build_avi 3 plain_io (u "/sd") 10 None None None None None one_frame = Some (Ret (Some t), fs') ∧
    t = u "timelapse_12-30-00-006.avi" ∧ one_frame !! (u "/sd", t) = None.
Proof.
  assert ((size one_frame < 3)%nat) as Hs by (vm_compute; lia).
  assert (0 ≤ c_ms (v_time plain_io)) as Hms by (vm_compute; discriminate).
  destruct (build_avi_safe 3 plain_io (u "/sd") 10 None None None None None one_frame Hs Hms) as (r & fs' & He & Hr).
  assert (fst <$> build_avi 3 plain_io (u "/sd") 10 None None None None None one_frame =
          Some (Ret (Some (u "timelapse_12-30-00-006.avi")))) as Hv by (vm_compute; reflexivity).
  rewrite He in Hv. cbn in Hv. injection Hv as ->. destruct Hr as (Hfree & _).
  exists (u "timelapse_12-30-00-006.avi"), fs'. split; [exact He|]. split; [reflexivity|exact Hfree].
Defined.
