(* ===== verification/MediaLibrary.v ===== *)
(** [app/media_library.py] and the index of [app/timelapse.py]: which names are media,
    the bounded scan of a directory, the catalogues and their pages, opening a file,
    and HTTP ranges.  A directory is the list of its entries with what [lstat] says;
    modification times are integers. *)
From S2P Require Import Prelude PyValue PyText Sessions.

(** ** Names *)

Definition MAX_NAME_CHARS : nat := 128.
Definition MAX_SCAN_ENTRIES : nat := Z.to_nat 4096.
Definition MAX_JPEG_BYTES := 8 * 1024 * 1024.
Definition MAX_VIDEO_BYTES := 4 * 1024 * 1024 * 1024.

Definition safe_char (c : Z) : bool := alnum c || (c =? 46) || (c =? 95) || (c =? 45).

(** A pattern that ends in [$] also accepts one final newline. *)
Definition dollar (shape : pystr → bool) (s : pystr) : bool :=
  shape s || match rev s with 10 :: r => shape (rev r) | _ => false end.
Definition _SAFE_CHARS : pystr → bool := dollar (λ s, negb (bool_decide (s = [])) && forallb safe_char s).

Definition _FRAME_NAME : pystr → bool := dollar (λ s,
  (length s =? 26)%nat && starts_with (u "timelapse_") s &&
  forallb is_digit (take 2 (drop 10 s)) && bool_decide (s !! 12%nat = Some 45) &&
  forallb is_digit (take 2 (drop 13 s)) && bool_decide (s !! 15%nat = Some 45) &&
  forallb is_digit (take 2 (drop 16 s)) && bool_decide (s !! 18%nat = Some 45) &&
  forallb is_digit (take 3 (drop 19 s)) && bool_decide (drop 22 s = u ".jpg")).
Definition _VIDEO_NAME : pystr → bool := dollar (λ s,
  (5 <=? length s)%nat && match s with c :: _ => alnum c | [] => false end && forallb safe_char s && ends_with (u ".avi") s).

Inductive kind := Video | Frame.
#[export] Instance kind_eq_dec : EqDecision kind.
Proof. solve_decision. Defined.

(** [os.path.basename(name) != name] exactly for a name with a slash. *)
Definition classify_name (name : pystr) : option kind :=
  if bool_decide (name = []) || (MAX_NAME_CHARS <? length name)%nat then None
  else if starts_with [46] name || contains_char 47 name || contains_char 92 name then None
  else if negb (_SAFE_CHARS name) then None
  else if _FRAME_NAME name then Some Frame
  else if _VIDEO_NAME name then Some Video
  else None.

(** ** Status characters *)

Inductive label := Completed | ErrorLabel | PendingLabel | UnknownLabel | AllLabel.
Definition status_label (status : pystr) : label :=
  if bool_decide (status = u "D") then Completed
  else if bool_decide (status = u "E") then ErrorLabel
  else if bool_decide (status = u "P") then PendingLabel
  else UnknownLabel.
Definition status_char (l : label) : option pystr :=
  match l with
  | Completed => Some (u "D") | ErrorLabel => Some (u "E") | PendingLabel => Some (u "P")
  | UnknownLabel => Some (u "U") | AllLabel => None
  end.

(** [read_video_index]: [name:status] rows; [None] for a file that cannot be read. *)
Definition read_video_index (lines : option (list pystr)) : list (pystr * pystr) :=
  match lines with
  | None => []
  | Some lines =>
      foldl (λ d line, match cut_at 58 line with
                       | Some (((_ :: _) as name), status) =>
                           dict_set name (match status with c :: _ => [c] | [] => u "U" end) d
                       | _ => d
                       end) [] lines
  end.

(** ** Scanning *)

Inductive ftype := Regular | Directory | OtherType.
#[export] Instance ftype_eq_dec : EqDecision ftype.
Proof. solve_decision. Defined.
Record finfo := { fi_type : ftype; fi_nlink : Z; fi_size : Z; fi_mtime : Z }.
Record dirent := { de_name : pystr; de_stat : option finfo }.
Record MediaEntry := { m_name : pystr; m_size : Z; m_modified : Z; m_status : option pystr }.

Definition scan_entry (k : kind) (e : dirent) : option MediaEntry :=
  if bool_decide (classify_name (de_name e) = Some k) then
    match de_stat e with
    | Some i =>
        if bool_decide (fi_type i = Regular) && (fi_nlink i =? 1)
        then Some {| m_name := de_name e; m_size := fi_size i; m_modified := fi_mtime i; m_status := None |}
        else None
    | None => None
    end
  else None.
Definition _scan (dir : option (list dirent)) (k : kind) : list MediaEntry * bool :=
  match dir with
  | None => ([], false)
  | Some es => (omap (scan_entry k) (take MAX_SCAN_ENTRIES es), (MAX_SCAN_ENTRIES <? length es)%nat)
  end.

Definition _attach_status (statuses : list (pystr * pystr)) (e : MediaEntry) : MediaEntry :=
  let raw := default (u "U") (dict_get (m_name e) statuses) in
  e{{m_status := Some (if bool_decide (raw ∈ [u "D"; u "E"; u "P"; u "U"]) then raw else u "U")}}.

Definition newest_first (a b : MediaEntry) : Prop :=
  m_modified b < m_modified a ∨ m_modified a = m_modified b ∧ str_leb (m_name b) (m_name a) = true.
#[export] Instance newest_first_dec a b : Decision (newest_first a b).
Proof. unfold newest_first. apply _. Defined.
Definition by_name (a b : MediaEntry) : Prop := str_leb (m_name a) (m_name b) = true.
#[export] Instance by_name_dec a b : Decision (by_name a b) := decide (_ = true).

Definition catalog_videos (dir : option (list dirent)) (index : option (list pystr)) : list MediaEntry * bool :=
  let '(es, truncated) := _scan dir Video in
  (merge_sort newest_first (map (_attach_status (read_video_index index)) es), truncated).
Definition catalog_frames (dir : option (list dirent)) : list MediaEntry * bool :=
  let '(es, truncated) := _scan dir Frame in (merge_sort by_name es, truncated).

Definition status_counts (es : list MediaEntry) (l : label) : nat :=
  length (List.filter (λ e, match status_label (default [] (m_status e)), l with
                            | Completed, Completed | ErrorLabel, ErrorLabel | PendingLabel, PendingLabel
                            | UnknownLabel, UnknownLabel => true
                            | _, _ => false
                            end) es).

(** ** Session folders *)

(** [lstat] of an entry of the media directory, and the entries of one of its folders. *)
Definition lstat_in (es : list dirent) (name : pystr) : option finfo :=
  dict_get name (map (λ e, (de_name e, de_stat e)) es) ≫= id.

Definition session_dir (es : list dirent) (session : pystr) : option pystr :=
  if negb (valid_session_name session) then None
  else match lstat_in es session with
       | Some i => if bool_decide (fi_type i = Directory) then Some session else None
       | None => None
       end.

(** [None] for a lock file that is not there. *)
Definition build_running (lock_mtime : option Z) (stale_seconds now : Z) : bool :=
  match lock_mtime with None => false | Some m => now - m <=? stale_seconds end.

Record session_item := { si_name : pystr; si_frames : nat; si_bytes : Z; si_modified : Z; si_video : option pystr }.

Definition session_entry (sub : pystr → option (list dirent)) (videos : list pystr) (e : dirent) : option (session_item * bool) :=
  if negb (valid_session_name (de_name e)) then None
  else match de_stat e with
       | Some i =>
           if negb (bool_decide (fi_type i = Directory)) then None
           else
             let '(frames, cut) := _scan (sub (de_name e)) Frame in
             let video := de_name e ++ AVI_SUFFIX in
             Some ({| si_name := de_name e; si_frames := length frames;
                      si_bytes := foldr Z.add 0 (map m_size frames);
                      si_modified := match map m_modified frames with [] => 0 | m :: ms => foldl Z.max m ms end;
                      si_video := if bool_decide (video ∈ videos) then Some video else None |}, cut)
       | None => None
       end.
Definition by_session (a b : session_item) : Prop := str_leb (si_name b) (si_name a) = true.
#[export] Instance by_session_dec a b : Decision (by_session a b) := decide (_ = true).
Definition catalog_sessions (dir : option (list dirent)) (sub : pystr → option (list dirent)) : list session_item * bool :=
  let videos := map m_name (_scan dir Video).1 in
  match dir with
  | None => ([], false)
  | Some es =>
      let found := omap (session_entry sub videos) (take MAX_SCAN_ENTRIES es) in
      (merge_sort by_session found.*1, existsb snd found || (MAX_SCAN_ENTRIES <? length es)%nat)
  end.

Definition valid_jpeg_head (head : bytes) : bool :=
  match head with a :: b :: c :: _ => (a =? 255) && (b =? 216) && (c =? 255) | _ => false end.

(** ** Pages *)

Record page := { pg_page : Z; pg_size : Z; pg_total : Z; pg_pages : Z; pg_items : list MediaEntry }.
(** A slice with bounds that are not negative. *)
Definition slice {A} (lo hi : Z) (l : list A) : list A := take (Z.to_nat (hi - lo)) (drop (Z.to_nat lo) l).
Definition paginate (es : list MediaEntry) (p size : Z) : page :=
  let total := Z.of_nat (length es) in
  let start := (p - 1) * size in
  {| pg_page := p; pg_size := size; pg_total := total;
     pg_pages := if total =? 0 then 0 else (total + size - 1) / size;
     pg_items := slice start (start + size) es |}.

(** ** Opening *)

(** What [open] with [O_NOFOLLOW] and [fstat] find under a name. *)
Inductive media_error := NotFound404 | TooLarge413.
Definition open_media (fstat : pystr → option finfo) (name : pystr) (expect : option kind) : media_error + (Z * kind) :=
  match classify_name name with
  | None => inl NotFound404
  | Some k =>
      if match expect with Some e => negb (bool_decide (k = e)) | None => false end then inl NotFound404
      else
        match fstat name with
        | None => inl NotFound404
        | Some i =>
            if negb (bool_decide (fi_type i = Regular) && (fi_nlink i =? 1)) then inl NotFound404
            else if (fi_size i <? 0) || ((match k with Video => MAX_VIDEO_BYTES | Frame => MAX_JPEG_BYTES end) <? fi_size i)
            then inl TooLarge413
            else inr (fi_size i, k)
        end
  end.

(** ** Ranges *)

Section Ranges.
Context `{UnicodeDB} (lower : pystr → pystr).

(** [int(text)] after [text.isdigit()]. *)
Definition range_number (text : pystr) : res Z :=
  if negb (str_isdigit text) then Raise RangeNotSatisfiable
  else match int_of_str text with Some z => Ret z | None => Raise ValueError end.

Definition parse_range (value : pyval) (size : Z) : res (option (Z * Z)) :=
  match value with
  | VNone => Ret None
  | VStr text =>
      let spec := strip text in
      if negb (starts_with (u "bytes=") (lower spec)) then Raise RangeNotSatisfiable
      else
        let ranges := strip (drop 6 spec) in
        if contains_char 44 ranges then Raise RangeNotSatisfiable
        else
          match cut_at 45 ranges with
          | None => Raise RangeNotSatisfiable
          | Some (first, last) =>
              match strip first, strip last with
              | [], [] => Raise RangeNotSatisfiable
              | [], last =>
                  suffix ← range_number last;
                  if (suffix <=? 0) || (size <=? 0) then Raise RangeNotSatisfiable
                  else Ret (Some (Z.max 0 (size - suffix), size - 1))
              | first, last =>
                  start ← range_number first;
                  if (size <=? 0) || (size <=? start) then Raise RangeNotSatisfiable
                  else match last with
                       | [] => Ret (Some (start, size - 1))
                       | _ => end_ ← range_number last;
                              if end_ <? start then Raise RangeNotSatisfiable
                              else Ret (Some (start, Z.min end_ (size - 1)))
                       end
              end
          end
  | _ => Raise RangeNotSatisfiable
  end.
End Ranges.

(** ** Ranges are inside the file *)

(** [str.lower] leaves text alone that has no cased character. *)
Class LowerOk (lower : pystr → pystr) : Prop := {
  lower_plain s : Forall (λ c, 0 ≤ c < 128 ∧ ¬ 65 ≤ c ≤ 90) s → lower s = s;
}.

Section RangesOk.
Context `{UnicodeDB} (lower : pystr → pystr).

Lemma int_digits_pos acc n p s z : 0 ≤ acc → int_digits acc n p s = Some z → 0 ≤ z.
Proof.
  revert acc n p. induction s as [|c s IH]; intros acc n p Ha; simpl.
  - case_match; [|done]. by intros [= <-].
  - case_match; [case_match; [by apply IH|done]|]. destruct (uc_decimal c) as [d|] eqn:Hd; [|done].
    apply uc_decimal_range in Hd. apply IH. lia.
Qed.
(** A number of digits is not negative, and a plain one is read. *)
Lemma range_number_cases text :
  match range_number text with
  | Ret z => 0 ≤ z
  | Raise e => e = RangeNotSatisfiable ∨ e = ValueError ∧ ¬ (ascii_text text = true ∧ (length text ≤ 4300)%nat)
  end.
Proof.
  unfold range_number. destruct (str_isdigit text) eqn:Hd; cbn [negb]; [|by left].
  apply andb_true_iff in Hd as [Hne Hall]. apply negb_true_iff, bool_decide_eq_false in Hne.
  rewrite forallb_forall in Hall. destruct (int_of_str text) as [z|] eqn:Hi.
  - unfold int_of_str in Hi. assert (∀ t, strip text ≠ 45 :: t) as Hminus.
    { intros t Ht. assert (45 ∈ text) as Hin.
      { destruct (decide (45 ∈ text)) as [|Hno]; [done|]. exfalso.
        assert (Forall (λ c, c ≠ 45) (strip text)) as Hf; [|rewrite Ht in Hf; by apply Forall_cons in Hf as [? _]].
        apply strip_Forall, Forall_forall. by intros c Hc ->. }
      apply list_elem_of_In in Hin. apply Hall in Hin. by rewrite uc_isdigit_ascii in Hin by lia. }
    destruct (strip text) as [|c t] eqn:Hs; [by apply int_digits_pos in Hi|].
    destruct (decide (c = 45)) as [->|Hc]; [by destruct (Hminus t)|].
    destruct (decide (c = 43)) as [->|Hc']; [by apply int_digits_pos in Hi|].
    assert (int_digits 0 0 false (c :: t) = Some z) as Hz; [|by apply int_digits_pos in Hz].
    rewrite <-Hi. repeat case_match; congruence.
  - right. split; [done|]. intros [Ha Hl]. rewrite int_of_digits in Hi; [done| |done|lia].
    apply Forall_forall. intros c Hc%list_elem_of_In. pose proof (Hall c Hc) as Hu.
    unfold ascii_text in Ha. rewrite forallb_forall in Ha. specialize (Ha c Hc). apply in_range_spec in Ha.
    by rewrite uc_isdigit_ascii in Hu by lia.
Qed.

(** Text that [int] reads: ASCII and at most 4300 characters. *)
Definition plain_text (s : pystr) : Prop := Forall (λ c, 0 ≤ c < 128) s ∧ (length s ≤ 4300)%nat.

Lemma strip_plain s : plain_text s → plain_text (strip s).
Proof.
  intros [Ha Hl]. split; [by apply strip_Forall|]. etrans; [|exact Hl]. unfold strip. rewrite length_rev.
  assert (∀ t, length (lstrip t) ≤ length t)%nat as Hls.
  { intros t. destruct (lstrip_suffix t) as [p Hp]. rewrite Hp at 2. rewrite length_app. lia. }
  etrans; [apply Hls|]. rewrite length_rev. apply Hls.
Qed.
Lemma plain_app a b : plain_text (a ++ b) → plain_text a ∧ plain_text b.
Proof. intros [[Ha Hb]%Forall_app Hl]. rewrite length_app in Hl. split; (split; [done|lia]). Qed.
Lemma plain_ascii s : plain_text s → ascii_text s = true ∧ (length s ≤ 4300)%nat.
Proof.
  intros [Ha Hl]. split; [|done]. apply forallb_forall. intros c Hc%list_elem_of_In.
  rewrite Forall_forall in Ha. apply in_range_spec. specialize (Ha c Hc). simpl in Ha. lia.
Qed.

(** What a call may answer for a text, when a raised [ValueError] means one that is not plain. *)
Definition range_answer (plain : Prop) (size : Z) (r : res (option (Z * Z))) : Prop :=
  match r with
  | Ret (Some (a, b)) => 0 ≤ a ≤ b ∧ b < size
  | Ret None => False
  | Raise e => e = RangeNotSatisfiable ∨ e = ValueError ∧ ¬ plain
  end.
Lemma range_number_bind plain text size k :
  (plain → plain_text text) → (∀ z, 0 ≤ z → range_answer plain size (k z)) →
  range_answer plain size (range_number text ≫= k).
Proof.
  intros Hp Hk. pose proof (range_number_cases text) as Hn. destruct (range_number text) as [z|e]; [by apply Hk|].
  destruct Hn as [->|[-> Hn]]; [by left|right]. split; [done|]. intros Hpl. by apply Hn, plain_ascii, Hp.
Qed.

Lemma parse_range_answer text size :
  range_answer (plain_text text) size (parse_range lower (VStr text) size).
Proof.
  unfold parse_range. case_match; [by left|]. case_match; [by left|].
  destruct (cut_at 45 _) as [[first last]|] eqn:Hc; [|by left]. apply cut_at_app in Hc.
  assert (plain_text text → plain_text (strip first) ∧ plain_text (strip last)) as Hpl.
  { intros Hp%strip_plain. rewrite <-(take_drop 6 (strip text)) in Hp. apply plain_app in Hp as [_ Hp%strip_plain].
    rewrite Hc in Hp. change (45 :: last) with ([45] ++ last) in Hp.
    apply plain_app in Hp as [? [_ ?]%plain_app]. split; by apply strip_plain. }
  destruct (strip first) as [|f1 f2], (strip last) as [|l1 l2]; [by left| | |].
  - apply range_number_bind; [intros; by apply Hpl|]. intros z Hz. case_match eqn:Hs; [by left|].
    apply orb_false_iff in Hs as [?%Z.leb_gt ?%Z.leb_gt]. simpl. lia.
  - apply range_number_bind; [intros; by apply Hpl|]. intros z Hz. case_match eqn:Hs; [by left|].
    apply orb_false_iff in Hs as [?%Z.leb_gt ?%Z.leb_gt]. simpl. lia.
  - apply range_number_bind; [intros; by apply Hpl|]. intros z Hz. case_match eqn:Hs; [by left|].
    apply orb_false_iff in Hs as [?%Z.leb_gt ?%Z.leb_gt].
    apply range_number_bind; [intros; by apply Hpl|]. intros e He. case_match eqn:Hlt; [by left|].
    apply Z.ltb_ge in Hlt. simpl. lia.
Qed.

(** *** Ranges as a client writes them *)

Definition readable (z : Z) : Prop := 0 ≤ z ∧ Z.of_nat (length (str_of_int z)) ≤ 4300.
Lemma str_of_int_digits z : 0 ≤ z →
  decimal (str_of_int z) = z ∧ Forall (λ c, is_digit c = true) (str_of_int z) ∧ str_of_int z ≠ [].
Proof.
  intros Hz. destruct (str_of_int_shape z (Z.to_nat z)) as (? & ? & _ & ?); [|done].
  split; [done|]. rewrite Nat2Z.inj_succ, Z2Nat.id by done. pose proof (Z.pow_gt_lin_r 10 (Z.succ z)). lia.
Qed.
Lemma range_number_int z : readable z → range_number (str_of_int z) = Ret z.
Proof.
  intros [Hz Hl]. destruct (str_of_int_digits z Hz) as (Hd & Hf & Hne). unfold range_number.
  by rewrite str_isdigit_digits, int_of_digits, Hd.
Qed.

Definition range_char (c : Z) : Prop := is_digit c = true ∨ c = 45.
Lemma range_text_parsed size first last `{!LowerOk lower} :
  Forall (λ c, is_digit c = true) first → Forall (λ c, is_digit c = true) last → (first ≠ [] ∨ last ≠ []) →
  parse_range lower (VStr (u "bytes=" ++ first ++ 45 :: last)) size =
    match first, last with
    | [], _ => suffix ← range_number last;
               if (suffix <=? 0) || (size <=? 0) then Raise RangeNotSatisfiable
               else Ret (Some (Z.max 0 (size - suffix), size - 1))
    | _, _ => start ← range_number first;
              if (size <=? 0) || (size <=? start) then Raise RangeNotSatisfiable
              else match last with
                   | [] => Ret (Some (start, size - 1))
                   | _ => end_ ← range_number last;
                          if end_ <? start then Raise RangeNotSatisfiable
                          else Ret (Some (start, Z.min end_ (size - 1)))
                   end
    end.
Proof.
  intros Hf Hl Hne. unfold parse_range.
  assert (∀ d, Forall (λ c, is_digit c = true) d → Forall (λ c, 45 ≤ c ≤ 57 ∧ is_space c = false) d) as Hdig.
  { intros d Hd. eapply Forall_impl; [exact Hd|]. simpl. intros c Hc. split; [|by apply digit_not_space].
    apply in_range_spec in Hc. lia. }
  assert (Forall (λ c, 45 ≤ c ≤ 57 ∧ is_space c = false) (first ++ 45 :: last)) as Hall.
  { apply Forall_app; split; [by apply Hdig|]. constructor; [done|by apply Hdig]. }
  assert (∀ d, Forall (λ c, 45 ≤ c ≤ 57 ∧ is_space c = false) d → strip d = d) as Hstrip.
  { intros d Hd. apply strip_no_space. eapply Forall_impl; [exact Hd|]. naive_solver. }
  rewrite (strip_no_space (u "bytes=" ++ _)).
  2:{ apply Forall_app; split; [by repeat constructor|]. eapply Forall_impl; [exact Hall|]. naive_solver. }
  rewrite lower_plain.
  2:{ apply Forall_app; split; [unfold u; simpl; repeat (apply Forall_cons; split; [lia|]); by constructor|]. eapply Forall_impl; [exact Hall|]. simpl. lia. }
  change (starts_with (u "bytes=") (u "bytes=" ++ first ++ 45 :: last)) with true. cbn [negb].
  change (drop 6 (u "bytes=" ++ first ++ 45 :: last)) with (first ++ 45 :: last). rewrite (Hstrip _ Hall).
  assert (contains_char 44 (first ++ 45 :: last) = false) as ->.
  { apply not_true_iff_false. intros Hc%existsb_exists. destruct Hc as (c & Hc%list_elem_of_In & Heq%Z.eqb_eq).
    rewrite Forall_forall in Hall. apply Hall in Hc. simpl in Hc. lia. }
  rewrite cut_at_first; [|eapply Forall_impl; [exact Hf|]; simpl; intros c Hc%in_range_spec; lia].
  rewrite !Hstrip by auto. destruct first, last; naive_solver.
Qed.
End RangesOk.

(** ** Catalogues *)

#[export] Instance newest_first_total : Total newest_first.
Proof.
  unfold Total, newest_first. intros a b. destruct (str_leb_total (m_name a) (m_name b)); unfold str_le in *; destruct (Z.lt_trichotomy (m_modified a) (m_modified b)) as [?|[?|?]]; auto with lia.
Qed.
#[export] Instance newest_first_trans : Transitive newest_first.
Proof.
  unfold Transitive, newest_first. intros a b c [?|[? ?]] [?|[? ?]]; [left; lia..|].
  right. split; [lia|]. by apply (str_le_trans _ (m_name b)).
Qed.

(** The files a catalogue of a kind shows. *)
Definition listed (es : list dirent) (k : kind) (e : MediaEntry) : Prop :=
  ∃ i, {| de_name := m_name e; de_stat := Some i |} ∈ es ∧ classify_name (m_name e) = Some k ∧
       fi_type i = Regular ∧ fi_nlink i = 1 ∧ fi_size i = m_size e ∧ fi_mtime i = m_modified e.

Lemma scan_listed es k e : e ∈ (_scan (Some es) k).1 → listed es k e ∧ m_status e = None.
Proof.
  intros (d & Hd & He)%list_elem_of_omap. apply elem_of_take in Hd as (n & Hd%list_elem_of_lookup_2 & _).
  unfold scan_entry in He. case_bool_decide as Hk; [|done]. destruct d as [name [i|]]; [|done]. simpl in *.
  destruct (bool_decide (fi_type i = Regular)) eqn:Ht; [|done]. destruct (Z.eqb_spec (fi_nlink i) 1); [|done].
  apply bool_decide_eq_true in Ht. simplify_eq/=. split; [|done]. by exists i.
Qed.
Lemma scan_complete es k e :
  (length es ≤ MAX_SCAN_ENTRIES)%nat → m_status e = None → listed es k e → e ∈ (_scan (Some es) k).1.
Proof.
  intros Hl Hn (i & Hi & Hk & Ht & Hln & Hs & Hm). apply list_elem_of_omap.
  eexists. split; [rewrite take_ge by done; exact Hi|]. unfold scan_entry. simpl.
  rewrite bool_decide_true by done. rewrite bool_decide_true by done. rewrite Hln. simpl.
  destruct e. simpl in *. by subst.
Qed.
Lemma scan_names es k : NoDup (map de_name es) → NoDup (map m_name (_scan (Some es) k).1).
Proof.
  intros Hnd. simpl. assert (NoDup (map de_name (take MAX_SCAN_ENTRIES es))) as Ht.
  { rewrite <-(take_drop MAX_SCAN_ENTRIES es), map_app in Hnd. by apply NoDup_app in Hnd as [? _]. }
  revert Ht. generalize (take MAX_SCAN_ENTRIES es). clear. intros l. induction l as [|d l IH]; simpl; [done|].
  intros [Hd Hnd]%NoDup_cons. destruct (scan_entry k d) as [e|] eqn:He; [|by apply IH].
  simpl. apply NoDup_cons. split; [|by apply IH]. intros (e' & Heq & (d' & Hd' & He')%list_elem_of_omap)%list_elem_of_fmap.
  assert (∀ d e, scan_entry k d = Some e → m_name e = de_name d) as Hname.
  { intros d0 e0. unfold scan_entry. repeat case_match; naive_solver. }
  apply Hd. apply list_elem_of_fmap. exists d'. split; [|done]. by rewrite <-(Hname d' e'), <-Heq, (Hname d e).
Qed.

(** Statuses as [catalog_videos] shows them. *)
Definition known_status (s : option pystr) : Prop := ∃ c, s = Some c ∧ c ∈ [u "D"; u "E"; u "P"; u "U"].
Lemma attach_known st e : known_status (m_status (_attach_status st e)).
Proof.
  destruct e as [n sz m s]. unfold _attach_status. case_bool_decide as Hr; [by eexists|].
  exists (u "U"). split; [done|]. set_solver.
Qed.
Lemma attach_fields st e :
  m_name (_attach_status st e) = m_name e ∧ m_size (_attach_status st e) = m_size e ∧
  m_modified (_attach_status st e) = m_modified e.
Proof. by destruct e. Qed.

(** A listed file opens, with the size shown, while it does not change. *)
Lemma lstat_in_elem es d : NoDup (map de_name es) → d ∈ es → lstat_in es (de_name d) = de_stat d.
Proof.
  intros Hnd Hd. unfold lstat_in.
  assert (dict_get (de_name d) (map (λ e, (de_name e, de_stat e)) es) = Some (de_stat d)) as ->; [|done].
  apply dict_get_elem; [by rewrite <-list_fmap_compose|]. apply list_elem_of_fmap. by exists d.
Qed.
Lemma open_listed es k e :
  NoDup (map de_name es) → listed es k e → 0 ≤ m_size e →
  open_media (lstat_in es) (m_name e) (Some k) =
    if (match k with Video => MAX_VIDEO_BYTES | Frame => MAX_JPEG_BYTES end) <? m_size e
    then inl TooLarge413 else inr (m_size e, k).
Proof.
  intros Hnd (i & Hi & Hk & Ht & Hln & Hs & Hm) Hpos. unfold open_media. rewrite Hk, bool_decide_true by done.
  cbn [negb]. pose proof (lstat_in_elem es _ Hnd Hi) as Hst. simpl in Hst. rewrite Hst.
  rewrite bool_decide_true, Hln, Hs by done. cbn [Z.eqb negb andb Pos.eqb].
  by rewrite (proj2 (Z.ltb_ge (m_size e) 0)) by lia.
Qed.

(** *** Pages *)

Lemma pages_concat {A} (size n : nat) (l : list A) :
  (0 < size)%nat → (length l ≤ n * size)%nat →
  concat (map (λ p, take size (drop (p * size) l)) (seq 0 n)) = l.
Proof.
  intros Hs. revert l. induction n as [|n IH]; intros l Hl; [by destruct l; simpl in *; [|lia]|].
  cbn [seq map concat]. rewrite <-seq_shift, map_map. cbn [Nat.mul]. rewrite drop_0.
  etrans; [|apply (take_drop size l)]. f_equal.
  rewrite <-(IH (drop size l)) by (rewrite length_drop; simpl in Hl; lia).
  f_equal. apply map_ext. intros p. by rewrite drop_drop.
Qed.
(** The pages of a gallery, in order, are the gallery. *)
Lemma paginate_concat es size :
  0 < size →
  let pages := pg_pages (paginate es 1 size) in
  concat (map (λ p, pg_items (paginate es (1 + Z.of_nat p) size)) (seq 0 (Z.to_nat pages))) = es ∧
  (∀ p, 1 ≤ p → Z.of_nat (length (pg_items (paginate es p size))) ≤ size ∧
        (pg_items (paginate es p size) = [] ↔ pages < p)).
Proof.
  intros Hs. cbn [pg_pages paginate]. set (total := Z.of_nat (length es)).
  assert (Hpages : 0 ≤ (if total =? 0 then 0 else (total + size - 1) / size) ∧
                   (∀ p, 0 ≤ p → (p < (if total =? 0 then 0 else (total + size - 1) / size) ↔ p * size < total))).
  { destruct (Z.eqb_spec total 0) as [Ht|Ht]; [split; [done|]; intros; split; nia|].
    assert (0 < total) by lia. split; [apply Z.div_pos; lia|]. intros p Hp.
    pose proof (Z.div_mod (total + size - 1) size ltac:(lia)). pose proof (Z.mod_pos_bound (total + size - 1) size Hs).
    split; nia. }
  set (pages := if total =? 0 then 0 else _) in *. destruct Hpages as [Hp0 Hp]. split.
  - transitivity (concat (map (λ p, take (Z.to_nat size) (drop (p * Z.to_nat size) es)) (seq 0 (Z.to_nat pages)))).
    + f_equal. apply map_ext. intros p. unfold paginate, slice. cbn [pg_items]. f_equal; [lia|f_equal; nia].
    + apply pages_concat; [lia|]. specialize (Hp pages Hp0). nia.
  - intros p Hp1. unfold paginate, slice. cbn [pg_items]. split; [rewrite length_take; lia|].
    specialize (Hp (p - 1) ltac:(lia)). rewrite <-length_zero_iff_nil, length_take, length_drop.
    subst total. nia.
Qed.

(** *** Status counts *)

Lemma status_counts_total es :
  (status_counts es Completed + status_counts es ErrorLabel + status_counts es PendingLabel +
   status_counts es UnknownLabel)%nat = length es.
Proof.
  unfold status_counts. induction es as [|e es IH]; [done|]. simpl.
  unfold status_label in *. repeat case_bool_decide; simpl; lia.
Qed.

(** C36: a [Range] header yields no range only when it is absent, and otherwise an
    interval inside the file or [RangeNotSatisfiable]; a [ValueError] escapes only for
    text that is not ASCII or longer than [int] reads.  The three forms a client writes
    mean what HTTP says, clamped to the file, and anything that cannot be satisfied is
    refused. *)
Theorem parse_range_spec `{UnicodeDB} (lower : pystr → pystr) `{!LowerOk lower} value size :
  match parse_range lower value size with
  | Ret None => value = VNone
  | Ret (Some (a, b)) => 0 ≤ a ≤ b ∧ b < size
  | Raise e => e = RangeNotSatisfiable ∨ e = ValueError ∧ ∃ s, value = VStr s ∧ ¬ plain_text s
  end ∧
  (∀ a b, readable a → readable b →
    parse_range lower (VStr (u "bytes=" ++ str_of_int a ++ u "-" ++ str_of_int b)) size =
      (if (a <? size) && (a <=? b) then Ret (Some (a, Z.min b (size - 1))) else Raise RangeNotSatisfiable) ∧
    parse_range lower (VStr (u "bytes=" ++ str_of_int a ++ u "-")) size =
      (if a <? size then Ret (Some (a, size - 1)) else Raise RangeNotSatisfiable) ∧
    parse_range lower (VStr (u "bytes=" ++ u "-" ++ str_of_int a)) size =
      (if (0 <? a) && (0 <? size) then Ret (Some (Z.max 0 (size - a), size - 1)) else Raise RangeNotSatisfiable)).
Proof.
  split.
  - destruct value as [| | | |s| | |]; [done|by left|by left|by left| |by left|by left|by left].
    pose proof (parse_range_answer lower s size) as Ha. unfold range_answer in Ha.
    destruct (parse_range lower (VStr s) size) as [[[a b]|]|e]; [done|done|]. naive_solver.
  - intros a b Ha Hb. change (u "-") with [45]. cbn [app].
    destruct (str_of_int_digits a) as (_ & Hfa & Hna); [apply Ha|].
    destruct (str_of_int_digits b) as (_ & Hfb & Hnb); [apply Hb|].
    rewrite (range_text_parsed lower size _ (str_of_int b)), (range_text_parsed lower size _ []) by auto.
    rewrite (range_text_parsed lower size [] (str_of_int a)) by auto. rewrite !range_number_int by done.
    destruct (str_of_int a), (str_of_int b); try done. destruct Ha as [Ha _]. clear -Ha. cbn.
    destruct (Z.leb_spec size 0), (Z.leb_spec size a), (Z.ltb_spec a size), (Z.ltb_spec b a), (Z.leb_spec a b),
      (Z.leb_spec a 0), (Z.ltb_spec 0 a), (Z.ltb_spec 0 size); try lia; done.
Qed.
#[export] Instance lower_ascii_ok : LowerOk lower_ascii.
Proof.
  split. intros s Hs. unfold lower_ascii. rewrite <-(map_id s) at 2. apply map_ext_in. intros c Hc%list_elem_of_In.
  rewrite Forall_forall in Hs. apply Hs in Hc. by rewrite (proj2 (in_range_false _ _ _)) by lia.
Qed.
Lemma parse_range_spec_witness :
  @parse_range ascii_db lower_ascii (VStr (u "bytes=2-900")) 10 = Ret (Some (2, 9)).
Proof. apply (proj2 (@parse_range_spec ascii_db lower_ascii _ VNone 10) 2 900); split; vm_compute; congruence. Defined.

(** The video gallery of a directory shows every allowlisted regular file with one
    link, newest first and each with one of the four statuses, as long as it is not
    reported as truncated, which is exactly beyond the scan limit; nothing else is ever
    shown; its pages in order are the whole gallery and no page exceeds its size; and what
    it shows opens with the size shown, or is refused as too large. *)
Theorem catalog_videos_exact es index videos truncated size :
  NoDup (map de_name es) → catalog_videos (Some es) index = (videos, truncated) → 0 < size →
  (StronglySorted newest_first videos ∧ NoDup (map m_name videos)) ∧
  (truncated = true ↔ (MAX_SCAN_ENTRIES < length es)%nat) ∧
  (∀ v, v ∈ videos → listed es Video v ∧ known_status (m_status v) ∧
     (0 ≤ m_size v → open_media (lstat_in es) (m_name v) (Some Video) =
                     if MAX_VIDEO_BYTES <? m_size v then inl TooLarge413 else inr (m_size v, Video))) ∧
  (truncated = false → ∀ v, listed es Video v → m_name v ∈ map m_name videos) ∧
  concat (map (λ p, pg_items (paginate videos (1 + Z.of_nat p) size))
              (seq 0 (Z.to_nat (pg_pages (paginate videos 1 size))))) = videos ∧
  (∀ p, 1 ≤ p → Z.of_nat (length (pg_items (paginate videos p size))) ≤ size) ∧
  (status_counts videos Completed + status_counts videos ErrorLabel + status_counts videos PendingLabel +
   status_counts videos UnknownLabel)%nat = length videos.
Proof.
  intros Hnd Hcat Hs. unfold catalog_videos in Hcat.
  destruct (_scan (Some es) Video) as [found cut] eqn:Hscan.
  pose proof (scan_names es Video Hnd) as Hn. pose proof (scan_listed es Video) as Hl.
  pose proof (scan_complete es Video) as Hc. rewrite Hscan in Hn, Hl, Hc. cbn [fst] in Hn, Hl, Hc.
  assert (cut = (MAX_SCAN_ENTRIES <? length es)%nat) as Hcut by (unfold _scan in Hscan; by injection Hscan).
  injection Hcat as Hv Ht. set (st := read_video_index index) in *.
  assert (∀ v, v ∈ videos ↔ ∃ e, v = _attach_status st e ∧ e ∈ found) as Hmem.
  { intros v. rewrite <-Hv, merge_sort_Permutation. apply list_elem_of_fmap. }
  assert (map m_name videos ≡ₚ map m_name found) as Hnames.
  { rewrite <-Hv, merge_sort_Permutation, map_map. by rewrite (map_ext _ m_name) by (intros; apply attach_fields). }
  destruct (paginate_concat videos size Hs) as [Hpages Hpage]. split_and!.
  - rewrite <-Hv. apply StronglySorted_merge_sort; apply _.
  - by rewrite Hnames.
  - rewrite <-Ht, Hcut. apply Nat.ltb_lt.
  - intros v (e & -> & He)%Hmem. apply Hl in He as [(i & Hi) _]. destruct (attach_fields st e) as (Hen & Hes & Hem).
    assert (listed es Video (_attach_status st e)) as Hle by (exists i; by rewrite Hen, Hes, Hem).
    split; [done|]. split; [apply attach_known|]. intros Hpos. exact (open_listed es Video _ Hnd Hle Hpos).
  - intros Hf v Hv'. rewrite Hnames. apply list_elem_of_fmap. exists {| m_name := m_name v; m_size := m_size v; m_modified := m_modified v; m_status := None |}.
    split; [done|]. apply Hc; [|done|exact Hv']. rewrite <-Ht, Hcut in Hf. by apply Nat.ltb_ge.
  - done.
  - intros p Hp. by apply Hpage.
  - apply status_counts_total.
Qed.
Definition demo_file (n : string) (t : Z) : dirent :=
  {| de_name := u n; de_stat := Some {| fi_type := Regular; fi_nlink := 1; fi_size := 100 + t; fi_mtime := t |} |}.
Lemma catalog_videos_exact_witness :
  let es := [demo_file "a.avi" 5; demo_file ".hidden.avi" 9; demo_file "b.avi" 7; demo_file "b.jpg" 8] in
  map m_name (catalog_videos (Some es) (Some [u "b.avi:D"])).1 = [u "b.avi"; u "a.avi"] ∧
  known_status (Some (u "D")).
Proof.
  intros es. destruct (catalog_videos (Some es) (Some [u "b.avi:D"])) as [vs tr] eqn:Hc.
  destruct (catalog_videos_exact es _ vs tr 1 ltac:(apply (bool_decide_unpack _); vm_compute; exact I) Hc ltac:(done))
    as (_ & _ & Hall & _).
  split; [by rewrite <-Hc|]. vm_compute in Hc. injection Hc as <- <-.
  exact (proj1 (proj2 (Hall _ (list_elem_of_here _ _)))).
Defined.

(** The session list names a video only when the video gallery has it. *)
Lemma catalog_sessions_video es index sub s v :
  s ∈ (catalog_sessions (Some es) sub).1 → si_video s = Some v →
  v = si_name s ++ AVI_SUFFIX ∧ v ∈ map m_name (catalog_videos (Some es) index).1.
Proof.
  unfold catalog_sessions, catalog_videos. destruct (_scan (Some es) Video) as [found cut]. cbn [fst].
  rewrite merge_sort_Permutation. intros ([s' c] & -> & (d & _ & Hd)%list_elem_of_omap)%list_elem_of_fmap Hv.
  unfold session_entry in Hd. destruct (negb _); [done|]. destruct (de_stat d) as [i|]; [|done].
  destruct (negb _); [done|]. destruct (_scan _ Frame) as [fr cf]. injection Hd as <- <-. simpl in Hv |- *.
  case_bool_decide as Hin; [|done]. injection Hv as <-. split; [done|].
  rewrite merge_sort_Permutation, map_map. by rewrite (map_ext _ m_name) by (intros; apply attach_fields).
Qed.
