(* ===== verification/MediaBuild.v ===== *)
(** [app/media_build.py]: the manager that runs one timelapse build at a time.  Every
    critical section of [BuildManager] is one event of [exec]; the threads, timers and
    calls that are under way between two of them are part of the world, so that a list of
    events is one interleaving.  [queue] items are shared objects: [items] is their store. *)
From S2P Require Import Prelude PyValue PyText Sessions MediaLibrary.

(** ** Jobs *)

Inductive jstate := STATE_PENDING | STATE_RUNNING | STATE_DONE | STATE_ERROR.
#[export] Instance jstate_eq_dec : EqDecision jstate.
Proof. solve_decision. Defined.
Definition active_state (s : jstate) : bool := match s with STATE_PENDING | STATE_RUNNING => true | _ => false end.

Definition MAX_JOBS : nat := 8.
Definition LOCK_STALE_SECONDS := 3600.
Definition MAX_BUILD_FRAMES := 20000.
Definition MAX_BUILD_INPUT_BYTES := 2 * 1024 * 1024 * 1024.
Definition MIN_FREE_MARGIN_BYTES := 32 * 1024 * 1024.
Definition QUEUE_MAX_RETRIES := 120.

Definition hex_digit (c : Z) : bool := is_digit c || in_range 97 102 c.
Definition valid_job_id : pystr → bool := dollar (λ s, (length s =? 32)%nat && forallb hex_digit s).

Definition REASON_NO_FRAMES := u "no frames to build".
Definition REASON_SCAN_TRUNCATED := u "frame backlog too large to scan safely".
Definition REASON_TOO_MANY_FRAMES := u "too many frames for one build".
Definition REASON_INPUT_TOO_LARGE := u "input frames exceed the build size limit".
Definition REASON_LOW_SPACE := u "insufficient free space for the build".
Definition REASON_BUSY := u "a build is already running".
Definition REASON_FAILED := u "build failed".
Definition REASON_STOPPED := u "build stopped".
Definition REASON_BAD_SESSION := u "unknown session".

Record job := {
  j_id : pystr; j_state : jstate; j_total : Z; j_written : Z; j_reason : pystr;
  j_started : Z; j_finished : option Z;
}.

Inductive code := bad_session | busy | too_large | no_frames | too_many_frames | input_too_large | low_space | failed.
#[export] Instance code_eq_dec : EqDecision code.
Proof. solve_decision. Defined.
Definition rejection := (pystr * code * pystr)%type.
Definition _rejection (reason : pystr) (c : code) : rejection := (reason, c, []).

(** ** The manager and what runs beside it *)

Record build_args := { b_fps : Z; b_width : option Z; b_height : option Z }.
Inductive phase := Starting | Building | Ended (s : jstate) (reason : pystr).
Record thread := {
  t_job : pystr; t_phase : phase; t_args : build_args; t_names : list pystr;
  t_source : option pystr; t_target : option pystr;
}.
Record item := { q_session : pystr; q_args : build_args; q_attempts : Z }.
#[export] Instance item_eq_dec : EqDecision item.
Proof. intros x y. unfold Decision. repeat decide equality. Defined.

(** What a thread is about to do once it gets the lock again: [_drain_queue] before it
    reads the queue, before it calls [start], and after; [enqueue_session] after [start];
    [_schedule_retry]; the callback of a timer; [stop] after it set the event. *)
Inductive cont :=
  | KDrain
  | KDrainStart (q : nat) (attempts : Z)
  | KDrainStarted (q : nat)
  | KDrainRejected (q : nat)
  | KDrainBusy (q : nat) (attempts : Z)
  | KGiveUp (q : nat)
  | KAppend (session : pystr) (args : build_args)
  | KSchedule
  | KRetry
  | KStop.

Record world := {
  w_jobs : gmap pystr job; w_order : list pystr; w_stop : bool; w_lock_held : bool;
  w_queue : list nat; w_items : list item; w_retry_timer : option nat;
  w_threads : list thread; w_timers : list nat; w_pend : list cont;
  w_lockfile : option Z;
  w_used : list pystr; w_made : nat;
}.
Definition world0 : world :=
  {| w_jobs := ∅; w_order := []; w_stop := false; w_lock_held := false; w_queue := []; w_items := [];
     w_retry_timer := None; w_threads := []; w_timers := []; w_pend := []; w_lockfile := None; w_used := []; w_made := 0 |}.

(** What one call of [start] finds: the media directory and its folders, the free space,
    whether the lock file may be created and removed, the clock, the new id, and whether
    the thread starts. *)
Record start_io := {
  s_dir : list dirent; s_sub : pystr → option (list dirent); s_free : option Z;
  s_create : bool; s_unlink : bool; s_recreate : bool; s_now : Z; s_uuid : pystr; s_spawn : bool;
}.

(** ** The lock file *)

Definition _try_create_lock (allowed : bool) (now : Z) (f : option Z) : option (option Z) :=
  match f with None => if allowed then Some (Some now) else None | Some _ => None end.
Definition _lock_is_stale (now : Z) (f : option Z) : bool :=
  match f with None => true | Some m => LOCK_STALE_SECONDS <? now - m end.
Definition _acquire_lock (io : start_io) (w : world) : bool * world :=
  if w_lock_held w then (false, w)
  else
    match _try_create_lock (s_create io) (s_now io) (w_lockfile w) with
    | Some f => (true, w{{w_lockfile := f}}{{w_lock_held := true}})
    | None =>
        if negb (_lock_is_stale (s_now io) (w_lockfile w)) then (false, w)
        else if negb (s_unlink io) || bool_decide (w_lockfile w = None) then (false, w)
        else
          let w := w{{w_lockfile := None}} in
          match _try_create_lock (s_recreate io) (s_now io) (w_lockfile w) with
          | Some f => (true, w{{w_lockfile := f}}{{w_lock_held := true}})
          | None => (false, w)
          end
    end.
Definition _release_lock_locked (unlinks : bool) (w : world) : world :=
  if negb (w_lock_held w) then w
  else
    let w := w{{w_lock_held := false}} in
    if unlinks then w{{w_lockfile := None}} else w.

(** ** Starting a build *)

Definition job_active (jobs : gmap pystr job) (id : pystr) : bool :=
  match jobs !! id with Some j => active_state (j_state j) | None => false end.
Definition _active_job_locked (w : world) : option pystr := List.find (job_active (w_jobs w)) (w_order w).

Fixpoint _prune_locked (order : list pystr) (jobs : gmap pystr job) : list pystr * gmap pystr job :=
  match order with
  | [] => ([], jobs)
  | oldest :: rest =>
      if (length order <=? MAX_JOBS)%nat || job_active jobs oldest then (order, jobs)
      else _prune_locked rest (delete oldest jobs)
  end.

Definition preflight (io : start_io) (frames : list MediaEntry) (truncated : bool) : option rejection :=
  let count := Z.of_nat (length frames) in
  let total := foldr Z.add 0 (map m_size frames) in
  if truncated then Some (_rejection REASON_SCAN_TRUNCATED too_large)
  else if count =? 0 then Some (_rejection REASON_NO_FRAMES no_frames)
  else if MAX_BUILD_FRAMES <? count then Some (_rejection REASON_TOO_MANY_FRAMES too_many_frames)
  else if MAX_BUILD_INPUT_BYTES <? total then Some (_rejection REASON_INPUT_TOO_LARGE input_too_large)
  else match s_free io with
       | None => Some (_rejection REASON_LOW_SPACE low_space)
       | Some free =>
           if free <? total + count * 16 + 4096 + MIN_FREE_MARGIN_BYTES
           then Some (_rejection REASON_LOW_SPACE low_space) else None
       end.

Definition start_locked (io : start_io) (args : build_args) (source target : option pystr) (frames : list MediaEntry)
    (truncated : bool) (w : world) : (rejection + job) * world :=
  match _active_job_locked w with
  | Some id => (inl (REASON_BUSY, busy, id), w)
  | None =>
      match preflight io frames truncated with
      | Some r => (inl r, w)
      | None =>
          let '(got, w) := _acquire_lock io w in
          if negb got then (inl (_rejection REASON_BUSY busy), w)
          else
            let id := s_uuid io in
            let j := {| j_id := id; j_state := STATE_PENDING; j_total := Z.of_nat (length frames); j_written := 0;
                        j_reason := []; j_started := s_now io; j_finished := None |} in
            let '(order, jobs) := _prune_locked (w_order w ++ [id]) (<[id := j]> (w_jobs w)) in
            let w := w{{w_jobs := jobs}}{{w_order := order}}{{w_used := id :: w_used w}}{{w_stop := false}} in
            if negb (s_spawn io) then
              let w := w{{w_jobs := delete id (w_jobs w)}}{{w_order := List.filter (λ i, negb (bool_decide (i = id))) (w_order w)}} in
              (inl (_rejection REASON_FAILED failed), _release_lock_locked (s_unlink io) w)
            else
              (inr j, w{{w_threads := w_threads w ++ [{| t_job := id; t_phase := Starting; t_args := args;
                          t_names := map m_name frames; t_source := source; t_target := target |}] }})
      end
  end.

Definition start (io : start_io) (args : build_args) (session : option pystr) (w : world) : (rejection + job) * world :=
  match session with
  | None =>
      let '(frames, truncated) := catalog_frames (Some (s_dir io)) in
      start_locked io args None None frames truncated w
  | Some s =>
      match session_dir (s_dir io) s with
      | None => (inl (_rejection REASON_BAD_SESSION bad_session), w)
      | Some path =>
          let '(frames, truncated) := catalog_frames (s_sub io path) in
          start_locked io args (Some path) (Some (s ++ AVI_SUFFIX)) frames truncated w
      end
  end.

(** [_view]: what a client sees of a job; [stamp] renders a clock value. *)
Record job_view := {
  v_id : pystr; v_state : jstate; v_total : Z; v_written : Z; v_reason : pystr;
  v_started : option pystr; v_finished : option pystr;
}.
Definition _view (stamp : Z → option pystr) (j : job) : job_view :=
  {| v_id := j_id j; v_state := j_state j; v_total := j_total j; v_written := j_written j;
     v_reason := take 200 (j_reason j); v_started := stamp (j_started j); v_finished := j_finished j ≫= stamp |}.
Definition status (stamp : Z → option pystr) (w : world) (id : pystr) : option job_view :=
  if valid_job_id id then _view stamp <$> w_jobs w !! id else None.

(** ** The build thread *)

Definition _update (id : pystr) (f : job → job) (w : world) : world := w{{w_jobs := alter f id (w_jobs w)}}.
Definition _finish (id : pystr) (st : jstate) (reason : pystr) (now : Z) (unlinks : bool) (w : world) : world :=
  _release_lock_locked unlinks (_update id (λ j, j{{j_state := st}}{{j_reason := reason}}{{j_finished := Some now}}) w).

(** How the builder ends: with a path, without one, cancelled, or with an exception. *)
Inductive built := BuiltPath | BuiltNothing | BuiltCancelled | BuiltRaised.
Definition final_state (stopped : bool) (b : built) : jstate * pystr :=
  match b with
  | BuiltCancelled => (STATE_ERROR, REASON_STOPPED)
  | BuiltRaised => (STATE_ERROR, REASON_FAILED)
  | BuiltPath => if stopped then (STATE_ERROR, REASON_STOPPED) else (STATE_DONE, [])
  | BuiltNothing => if stopped then (STATE_ERROR, REASON_STOPPED) else (STATE_ERROR, REASON_NO_FRAMES)
  end.

(** ** The queue of session builds *)

(** [if item in self._queue: self._queue.remove(item)]: the first equal item. *)
Fixpoint remove_equal (items : list item) (q : nat) (queue : list nat) : list nat :=
  match queue with
  | [] => []
  | i :: queue' => if bool_decide (items !! i = items !! q) then queue' else i :: remove_equal items q queue'
  end.
Definition unqueue (q : nat) (w : world) : world := w{{w_queue := remove_equal (w_items w) q (w_queue w)}}.
Definition pending (k : cont) (w : world) : world := w{{w_pend := w_pend w ++ [k] }}.

Definition _drain_read (w : world) : world :=
  match w_queue w with
  | [] => w
  | q :: _ => match w_items w !! q with Some it => pending (KDrainStart q (q_attempts it)) w | None => w end
  end.
Definition _drain_start (io : start_io) (q : nat) (attempts : Z) (w : world) : world :=
  match w_items w !! q with
  | None => w
  | Some it =>
      match start io (q_args it) (Some (q_session it)) w with
      | (inr _, w) => pending (KDrainStarted q) w
      | (inl (_, c, _), w) =>
          if bool_decide (c = busy) then pending (KDrainBusy q attempts) w else pending (KDrainRejected q) w
      end
  end.
Definition _drain_busy (q : nat) (attempts : Z) (w : world) : world :=
  let w := w{{w_items := alter (λ it, it{{q_attempts := attempts + 1}}) q (w_items w)}} in
  if QUEUE_MAX_RETRIES <=? attempts + 1 then pending (KGiveUp q) w else pending KSchedule w.

Definition queued (session : pystr) (w : world) : bool :=
  existsb (λ q, match w_items w !! q with Some it => bool_decide (q_session it = session) | None => false end) (w_queue w).
Definition _enqueue (session : pystr) (args : build_args) (w : world) : world :=
  if queued session w then w
  else w{{w_queue := w_queue w ++ [length (w_items w)] }}
        {{w_items := w_items w ++ [{| q_session := session; q_args := args; q_attempts := 0 |}] }}.
Definition enqueue_session (io : start_io) (session : pystr) (args : build_args) (w : world) : world :=
  match session_dir (s_dir io) session with
  | None => w
  | Some _ =>
      match start io args (Some session) w with
      | (inr _, w) => w
      | (inl (_, c, _), w) => if bool_decide (c = busy) then pending (KAppend session args) w else w
      end
  end.
Definition _schedule_retry (w : world) : world :=
  match w_retry_timer w, w_queue w with
  | None, _ :: _ => w{{w_retry_timer := Some (w_made w)}}{{w_timers := w_timers w ++ [w_made w] }}{{w_made := S (w_made w)}}
  | _, _ => w
  end.
Definition _retry (w : world) : world := pending KDrain (w{{w_retry_timer := None}}).
Definition stop_clear (w : world) : world :=
  let timers := match w_retry_timer w with
                | Some t => List.filter (λ i, negb (bool_decide (i = t))) (w_timers w)
                | None => w_timers w
                end in
  w{{w_retry_timer := None}}{{w_queue := [] }}{{w_timers := timers}}.

Definition proceed (io : start_io) (k : cont) (w : world) : world :=
  match k with
  | KDrain => _drain_read w
  | KDrainStart q attempts => _drain_start io q attempts w
  | KDrainStarted q => unqueue q w
  | KDrainRejected q => pending KDrain (unqueue q w)
  | KDrainBusy q attempts => _drain_busy q attempts w
  | KGiveUp q => unqueue q w
  | KAppend session args => pending KSchedule (_enqueue session args w)
  | KSchedule => _schedule_retry w
  | KRetry => _retry w
  | KStop => stop_clear w
  end.

(** ** Events *)

Inductive event :=
  | EStart (io : start_io) (args : build_args) (session : option pystr)
  | EEnqueue (io : start_io) (session : pystr) (args : build_args)
  | EStop
  | EBegin (n : nat)
  | EProgress (n : nat) (written : Z)
  | EBuilt (n : nat) (b : built)
  | EFinish (n : nat) (now : Z) (unlinks : bool)
  | ETimer (n : nat)
  | ERun (n : nat) (io : start_io)
  | ELockFile (f : option Z).

Definition set_phase (n : nat) (p : phase) (w : world) : world :=
  w{{w_threads := alter (λ t, t{{t_phase := p}}) n (w_threads w)}}.

(** [None] for an event that cannot happen.  New ids have not been used before. *)
Definition exec (e : event) (w : world) : option world :=
  match e with
  | EStart io args session => if bool_decide (s_uuid io ∈ w_used w) then None else Some (start io args session w).2
  | EEnqueue io session args => if bool_decide (s_uuid io ∈ w_used w) then None else Some (enqueue_session io session args w)
  | EStop => Some (pending KStop (w{{w_stop := true}}))
  | EBegin n =>
      t ← w_threads w !! n;
      match t_phase t with
      | Starting => Some (set_phase n Building (_update (t_job t) (λ j, j{{j_state := STATE_RUNNING}}) w))
      | _ => None
      end
  | EProgress n written =>
      t ← w_threads w !! n;
      match t_phase t with
      | Building => Some (_update (t_job t) (λ j, j{{j_written := written}}) w)
      | _ => None
      end
  | EBuilt n b =>
      t ← w_threads w !! n;
      match t_phase t with
      | Building => let '(st, reason) := final_state (w_stop w) b in Some (set_phase n (Ended st reason) w)
      | _ => None
      end
  | EFinish n now unlinks =>
      t ← w_threads w !! n;
      match t_phase t with
      | Ended st reason =>
          Some (pending KDrain ((_finish (t_job t) st reason now unlinks w){{w_threads := delete n (w_threads w)}}))
      | _ => None
      end
  | ETimer n => t ← w_timers w !! n; Some (pending KRetry (w{{w_timers := delete n (w_timers w)}}))
  | ERun n io =>
      k ← w_pend w !! n;
      if bool_decide (s_uuid io ∈ w_used w) then None
      else Some (proceed io k (w{{w_pend := delete n (w_pend w)}}))
  | ELockFile f => Some (w{{w_lockfile := f}})
  end.
Fixpoint execs (es : list event) (w : world) : option world :=
  match es with [] => Some w | e :: es => exec e w ≫= execs es end.

(** ** One build at a time *)

(** The jobs, the lock and the threads agree: without a thread no job is active and the
    lock is free; otherwise there is one thread, its job is the only active one, and the
    lock is held. *)
Definition serial (jobs : gmap pystr job) (held : bool) (threads : list thread) : Prop :=
  match threads with
  | [] => held = false ∧ ∀ id, job_active jobs id = false
  | [t] => held = true ∧ (∀ id, job_active jobs id = true → id = t_job t) ∧
           ∃ j, jobs !! t_job t = Some j ∧
                j_state j = match t_phase t with Starting => STATE_PENDING | _ => STATE_RUNNING end ∧
                match t_phase t with Ended s _ => active_state s = false | _ => True end
  | _ => False
  end.
Record inv (jobs : gmap pystr job) (order : list pystr) (held : bool) (threads : list thread) (used : list pystr) : Prop := {
  inv_serial : serial jobs held threads;
  inv_nodup : NoDup order;
  inv_dom : ∀ id, id ∈ order ↔ is_Some (jobs !! id);
  inv_length : (length order ≤ MAX_JOBS)%nat;
  inv_used : ∀ id, id ∈ order → id ∈ used;
}.
Definition Inv (w : world) : Prop := inv (w_jobs w) (w_order w) (w_lock_held w) (w_threads w) (w_used w).

Ltac open_world w :=
  destruct w as [jb od sp hd qu its tm th ts pe lf us mk]; cbv [constant] in *.

Lemma prune_new o id jobs :
  (length o ≤ MAX_JOBS)%nat → (∀ i, i ∈ o → job_active jobs i = false) →
  (_prune_locked (o ++ [id]) jobs = (o ++ [id], jobs) ∧ (length (o ++ [id]) ≤ MAX_JOBS)%nat) ∨
  ∃ x o', o = x :: o' ∧ _prune_locked (o ++ [id]) jobs = (o' ++ [id], delete x jobs).
Proof.
  intros Hl Ha.
  assert (∀ o j, (length o ≤ MAX_JOBS)%nat → _prune_locked o j = (o, j)) as Hshort.
  { intros [|y l] j Hlen; [done|]. cbn [_prune_locked]. by rewrite (proj2 (Nat.leb_le _ _) Hlen). }
  destruct (decide (length (o ++ [id]) ≤ MAX_JOBS)%nat) as [Hle|Hgt]; [left; by rewrite Hshort|right].
  destruct o as [|x o']; [simpl in Hgt; unfold MAX_JOBS in Hgt; lia|]. exists x, o'. split; [done|].
  cbn [app _prune_locked]. rewrite (proj2 (Nat.leb_gt _ _)) by (simpl in *; lia).
  rewrite Ha by set_solver. cbn [orb]. apply Hshort. rewrite length_app in *. simpl in *. lia.
Qed.

Lemma job_active_insert jobs id j i :
  job_active (<[id := j]> jobs) i = if bool_decide (i = id) then active_state (j_state j) else job_active jobs i.
Proof. unfold job_active. case_bool_decide; subst; by simplify_map_eq. Qed.
Lemma job_active_delete jobs x i : job_active (delete x jobs) i = negb (bool_decide (i = x)) && job_active jobs i.
Proof. unfold job_active. case_bool_decide; subst; simpl; by simplify_map_eq. Qed.

(** The history after [start] recorded a new job. *)
Lemma history_new jobs order used id j order' jobs' :
  NoDup order → (∀ i, i ∈ order ↔ is_Some (jobs !! i)) → (length order ≤ MAX_JOBS)%nat → (∀ i, i ∈ order → i ∈ used) →
  (∀ i, job_active jobs i = false) → id ∉ used → j_id j = id →
  _prune_locked (order ++ [id]) (<[id := j]> jobs) = (order', jobs') →
  NoDup order' ∧ (∀ i, i ∈ order' ↔ is_Some (jobs' !! i)) ∧ (length order' ≤ MAX_JOBS)%nat ∧
  (∀ i, i ∈ order' → i ∈ id :: used) ∧ jobs' !! id = Some j ∧ (∀ i, job_active jobs' i = true → i = id).
Proof.
  intros Hnd Hdom Hlen Hused Hact Hfresh Hid Hp.
  assert (id ∉ order) as Hno by (intros ?; by apply Hfresh, Hused).
  assert (NoDup (order ++ [id])) as Hnd'.
  { apply NoDup_app. split_and!; [done| |apply NoDup_singleton]. intros i Hi ->%list_elem_of_singleton. done. }
  assert (∀ i, i ∈ order ++ [id] ↔ is_Some (<[id := j]> jobs !! i)) as Hdom'.
  { intros i. rewrite elem_of_app, list_elem_of_singleton, Hdom, lookup_insert_is_Some'. naive_solver. }
  destruct (prune_new order id (<[id := j]> jobs)) as [[He Hle]|(x & o' & Ho & He)]; [done| | |].
  - intros i Hi. rewrite job_active_insert, Hact. case_bool_decide; [by subst|done].
  - rewrite He in Hp. injection Hp as <- <-. split_and!; try done.
    + set_solver.
    + by simplify_map_eq.
    + intros i. rewrite job_active_insert, Hact. by case_bool_decide.
  - rewrite He in Hp. injection Hp as <- <-. subst order. cbn [app] in Hnd', Hdom'.
    apply NoDup_cons in Hnd' as [Hx Hnd']. assert (x ≠ id) as Hne by set_solver. split_and!; [done| | | | |].
    + intros i. rewrite lookup_delete_is_Some, <-Hdom'. set_solver.
    + rewrite length_app. simpl in *. lia.
    + set_solver.
    + by simplify_map_eq.
    + intros i. rewrite job_active_delete, job_active_insert, Hact. case_bool_decide; [done|]. by case_bool_decide.
Qed.

Lemma acquire_effect io w :
  let '(got, w') := _acquire_lock io w in
  ∃ f, w' = (if got then w{{w_lockfile := f}}{{w_lock_held := true}} else w{{w_lockfile := f}}) ∧
       (got = true → w_lock_held w = false).
Proof.
  unfold _acquire_lock. open_world w. destruct hd; cbn; [by exists lf|].
  repeat (case_match; cbn); simplify_eq; eauto; by exists lf.
Qed.

Lemma active_none w : Inv w → _active_job_locked w = None → w_threads w = [] ∧ ∀ id, job_active (w_jobs w) id = false.
Proof.
  intros [Hser _ Hdom _ _] Hnone. unfold _active_job_locked in Hnone.
  assert (∀ id, job_active (w_jobs w) id = false) as Hno.
  { intros id. destruct (w_jobs w !! id) as [j|] eqn:Hj; [|unfold job_active; by rewrite Hj].
    apply (find_none _ _ Hnone), list_elem_of_In, Hdom. by eexists. }
  split; [|done]. unfold serial in Hser. destruct (w_threads w) as [|t [|]]; [done| |done].
  destruct Hser as (_ & _ & j & Hj & Hst & _). specialize (Hno (t_job t)). unfold job_active in Hno.
  rewrite Hj, Hst in Hno. by destruct (t_phase t).
Qed.

(** What a call of [start] leaves: only the lock file may have changed; or one new thread
    with its job; or, when the thread did not start, a history without the new job. *)
Inductive started (io : start_io) (w : world) : (rejection + job) * world → Prop :=
  | started_rejected r f : started io w (inl r, w{{w_lockfile := f}})
  | started_thread f order jobs j t :
      _active_job_locked w = None → w_lock_held w = false →
      j_id j = s_uuid io → j_state j = STATE_PENDING → t_job t = s_uuid io → t_phase t = Starting →
      _prune_locked (w_order w ++ [s_uuid io]) (<[s_uuid io := j]> (w_jobs w)) = (order, jobs) →
      started io w (inr j, w{{w_jobs := jobs}}{{w_order := order}}{{w_lock_held := true}}{{w_lockfile := f}}
                            {{w_used := s_uuid io :: w_used w}}{{w_stop := false}}{{w_threads := w_threads w ++ [t] }})
  | started_failed f order jobs j :
      _active_job_locked w = None → w_lock_held w = false → j_id j = s_uuid io →
      _prune_locked (w_order w ++ [s_uuid io]) (<[s_uuid io := j]> (w_jobs w)) = (order, jobs) →
      started io w (inl (_rejection REASON_FAILED failed),
        w{{w_jobs := delete (s_uuid io) jobs}}{{w_order := List.filter (λ i, negb (bool_decide (i = s_uuid io))) order}}
         {{w_lockfile := f}}{{w_used := s_uuid io :: w_used w}}{{w_stop := false}}).

Lemma rejected_same io r w : started io w (inl r, w).
Proof. pose proof (started_rejected io w r (w_lockfile w)) as Hs. by destruct w. Qed.
Lemma start_locked_effect io args source target frames truncated w :
  started io w (start_locked io args source target frames truncated w).
Proof.
  unfold start_locked. destruct (_active_job_locked w) as [id|] eqn:Hact; [apply rejected_same|].
  destruct (preflight io frames truncated); [apply rejected_same|].
  pose proof (acquire_effect io w) as Ha. destruct (_acquire_lock io w) as [got w1]. destruct Ha as (f & -> & Hheld).
  destruct got; cbn [negb]; [|apply started_rejected]. specialize (Hheld eq_refl).
  set (j := {| j_id := _ |}).
  assert (∀ A (x : A), w_order (w{{w_lockfile := f}}{{w_lock_held := true}}) = w_order w ∧
          w_jobs (w{{w_lockfile := f}}{{w_lock_held := true}}) = w_jobs w) as Hproj by (by destruct w).
  destruct (Hproj unit tt) as [-> ->]. clear Hproj.
  destruct (_prune_locked (w_order w ++ [s_uuid io]) (<[s_uuid io := j]> (w_jobs w))) as [order jobs] eqn:Hp.
  destruct (s_spawn io); cbn [negb].
  - pose proof (started_thread io w f order jobs j
      {| t_job := s_uuid io; t_phase := Starting; t_args := args; t_names := map m_name frames; t_source := source; t_target := target |}
      Hact Hheld eq_refl eq_refl eq_refl eq_refl Hp) as Hs. by destruct w.
  - pose proof (started_failed io w (if s_unlink io then None else f) order jobs j Hact Hheld eq_refl Hp) as Hs.
    unfold _release_lock_locked. destruct w; cbv [constant] in *; cbn in *. subst. by destruct (s_unlink io).
Qed.
Lemma start_effect io args session w : started io w (start io args session w).
Proof.
  unfold start. destruct session as [s|]; [destruct (session_dir _ s); [|apply rejected_same]|];
    destruct (catalog_frames _); apply start_locked_effect.
Qed.

Lemma started_inv io w rw : started io w rw → Inv w → s_uuid io ∉ w_used w → Inv rw.2.
Proof.
  intros Hst HI Hfresh. destruct Hst as [r f|f order jobs j t Hact Hheld Hid Hpend Htj Htp Hp|f order jobs j Hact Hheld Hid Hp].
  - by destruct w.
  - destruct (active_none w HI Hact) as [Hth Hno]. destruct HI as [_ Hnd Hdom Hlen Hused].
    destruct (history_new _ _ _ _ _ _ _ Hnd Hdom Hlen Hused Hno Hfresh Hid Hp) as (? & ? & ? & ? & Hj & Honly).
    open_world w. cbn in *. subst th. split; try done. cbn. rewrite Htj, Htp.
    split; [done|]. split; [done|]. by exists j.
  - destruct (active_none w HI Hact) as [Hth Hno]. destruct HI as [_ Hnd Hdom Hlen Hused].
    destruct (history_new _ _ _ _ _ _ _ Hnd Hdom Hlen Hused Hno Hfresh Hid Hp) as (Hnd' & Hdom' & ? & ? & Hj & Honly).
    set (keep := λ i, negb (bool_decide (i = s_uuid io))) in *.
    assert (∀ i, i ∈ List.filter keep order ↔ i ∈ order ∧ i ≠ s_uuid io) as Hk.
    { intros i. rewrite !list_elem_of_In, filter_In. unfold keep. by rewrite negb_true_iff, bool_decide_eq_false. }
    open_world w. cbn in *. subst th. split; cbn.
    + split; [done|]. intros i. rewrite job_active_delete. case_bool_decide as Hi; [done|]. cbn.
      apply not_true_iff_false. intros Ht. by apply Hi, Honly.
    + apply NoDup_ListNoDup, List.NoDup_filter, NoDup_ListNoDup, Hnd'.
    + intros i. rewrite Hk, lookup_delete_is_Some, Hdom'. naive_solver.
    + etrans; [apply filter_length_le|done].
    + intros i [Hi _]%Hk. auto.
Qed.

(** The invariant only looks at five fields. *)
Definition core (w : world) := (w_jobs w, w_order w, w_lock_held w, w_threads w, w_used w).
Lemma inv_core w w' : core w' = core w → Inv w → Inv w'.
Proof. unfold core, Inv. by intros [= -> -> -> -> ->]. Qed.
Lemma pending_core k w : core (pending k w) = core w.
Proof. by destruct w. Qed.
Lemma unqueue_core q w : core (unqueue q w) = core w.
Proof. by destruct w. Qed.

Lemma drain_start_cases io q a w :
  core (_drain_start io q a w) = core w ∨
  ∃ it, w_items w !! q = Some it ∧ core (_drain_start io q a w) = core (start io (q_args it) (Some (q_session it)) w).2.
Proof.
  unfold _drain_start. destruct (w_items w !! q) as [it|]; [|by left]. right. exists it. split; [done|].
  destruct (start io _ _ w) as [[[[? c] ?]|j] w']; cbn; [case_bool_decide|]; apply pending_core.
Qed.
Lemma proceed_inv io k w : Inv w → s_uuid io ∉ w_used w → Inv (proceed io k w).
Proof.
  intros HI Hf. destruct k as [|q a|q|q|q a|q|s a| | |]; cbn [proceed].
  - eapply inv_core; [|exact HI]. unfold _drain_read. repeat case_match; done || apply pending_core.
  - destruct (drain_start_cases io q a w) as [Hc|(it & Hit & Hc)]; (eapply inv_core; [exact Hc|]); [done|].
    eapply started_inv; [apply start_effect|done|done].
  - eapply inv_core; [apply unqueue_core|done].
  - eapply inv_core; [by rewrite pending_core, unqueue_core|done].
  - eapply inv_core; [|exact HI]. unfold _drain_busy. case_match; rewrite pending_core; by destruct w.
  - eapply inv_core; [apply unqueue_core|done].
  - eapply inv_core; [|exact HI]. rewrite pending_core. unfold _enqueue. case_match; by destruct w.
  - eapply inv_core; [|exact HI]. unfold _schedule_retry. destruct w as [? ? ? ? [|? ?] ? [?|]]; done.
  - eapply inv_core; [|exact HI]. unfold _retry. rewrite pending_core. by destruct w.
  - eapply inv_core; [|exact HI]. by destruct w.
Qed.

(** A live thread is the only one. *)
Lemma thread_only w n t : Inv w → w_threads w !! n = Some t → n = 0%nat ∧ w_threads w = [t].
Proof.
  intros [Hser _ _ _ _] Hn. unfold serial in Hser. destruct (w_threads w) as [|t' [|]]; [done| |done].
  destruct n; [by injection Hn as ->|done].
Qed.
(** Changing the thread's own job, to a state that fits its phase. *)
Lemma inv_alter jb od hd us t t' f :
  inv jb od hd [t] us → t_job t' = t_job t →
  (∀ j, j_state j = match t_phase t with Starting => STATE_PENDING | _ => STATE_RUNNING end →
        j_state (f j) = match t_phase t' with Starting => STATE_PENDING | _ => STATE_RUNNING end) →
  match t_phase t' with Ended s _ => active_state s = false | _ => True end →
  inv (alter f (t_job t) jb) od hd [t'] us.
Proof.
  intros [(Hh & Honly & j & Hj & Hst & Hend) Hnd Hdom Hlen Hus] Hid Hf Hend'. split; try done.
  - split; [done|]. rewrite Hid. split.
    + intros id Hid'. destruct (decide (id = t_job t)) as [|Hne]; [done|]. apply Honly.
      unfold job_active in *. by rewrite lookup_alter_ne in Hid' by done.
    + exists (f j). rewrite lookup_alter_eq, Hj. split; [done|]. by split; [apply Hf|].
  - intros id. rewrite Hdom. destruct (decide (id = t_job t)) as [->|Hne];
      [rewrite lookup_alter_eq, fmap_is_Some|rewrite lookup_alter_ne by done]; done.
Qed.
Lemma inv_finish jb od hd us t st reason now :
  inv jb od hd [t] us → active_state st = false →
  inv (alter (λ j, j{{j_state := st}}{{j_reason := reason}}{{j_finished := now}}) (t_job t) jb) od false [] us.
Proof.
  intros [(Hh & Honly & j & Hj & Hst & Hend) Hnd Hdom Hlen Hus] Hs. split; try done.
  - split; [done|]. intros id. apply not_true_iff_false. unfold job_active.
    destruct (decide (id = t_job t)) as [->|Hne].
    + rewrite lookup_alter_eq, Hj. destruct j. cbn. unfold constant. by rewrite Hs.
    + rewrite lookup_alter_ne by done. intros Ha. by apply Hne, Honly.
  - intros id. rewrite Hdom. destruct (decide (id = t_job t)) as [->|Hne];
      [rewrite lookup_alter_eq, fmap_is_Some|rewrite lookup_alter_ne by done]; done.
Qed.
Lemma final_state_inactive s b : active_state (final_state s b).1 = false.
Proof. by destruct s, b. Qed.

Lemma exec_inv e w w' : exec e w = Some w' → Inv w → Inv w'.
Proof.
  intros He HI. destruct e as [io a s|io s a| |n|n wr|n b|n now ul|n|n io|f]; cbn [exec] in He.
  - case_bool_decide; [done|]. injection He as <-. eapply started_inv; [apply start_effect|done|done].
  - case_bool_decide; [done|]. injection He as <-. unfold enqueue_session. case_match; [|done].
    pose proof (started_inv io w _ (start_effect io a (Some s) w) HI) as Hs.
    destruct (start io a (Some s) w) as [[[[? c] ?]|j] w1]; [|by apply Hs].
    case_bool_decide; [eapply inv_core; [apply pending_core|]|]; by apply Hs.
  - injection He as <-. eapply inv_core; [|exact HI]. rewrite pending_core. by destruct w.
  - destruct (w_threads w !! n) as [t|] eqn:Ht; [|done]. cbn [mbind option_bind] in He. destruct (thread_only w n t HI Ht) as [-> Hts].
    destruct (t_phase t) eqn:Hp; [|done|done]. injection He as <-. unfold Inv in *. rewrite Hts in HI. open_world w. cbn in *. subst th.
    apply (inv_alter _ _ _ _ t); [done|by destruct t| |by destruct t]. intros [] _. by destruct t.
  - destruct (w_threads w !! n) as [t|] eqn:Ht; [|done]. cbn [mbind option_bind] in He. destruct (thread_only w n t HI Ht) as [-> Hts].
    destruct (t_phase t) eqn:Hp; [done| |done]. injection He as <-. unfold Inv in *. rewrite Hts in HI. open_world w. cbn in *. subst th.
    apply (inv_alter _ _ _ _ t); [done|done| |by rewrite Hp]. by intros [].
  - destruct (w_threads w !! n) as [t|] eqn:Ht; [|done]. cbn [mbind option_bind] in He. destruct (thread_only w n t HI Ht) as [-> Hts].
    destruct (t_phase t) eqn:Hp; [done| |done]. pose proof (final_state_inactive (w_stop w) b) as Ho.
    destruct (final_state (w_stop w) b) as [st rs]. injection He as <-. unfold Inv in *. rewrite Hts in HI. open_world w. cbn in *. subst th.
    rewrite <-(alter_id (λ j, j) jb (t_job t)) by done.
    apply (inv_alter _ _ _ _ t); [done|by destruct t| |by destruct t]. rewrite Hp. by destruct t.
  - destruct (w_threads w !! n) as [t|] eqn:Ht; [|done]. cbn [mbind option_bind] in He. destruct (thread_only w n t HI Ht) as [-> Hts].
    destruct (t_phase t) eqn:Hp; [done|done|]. injection He as <-. eapply inv_core; [apply pending_core|].
    unfold Inv in *. rewrite Hts in HI. pose proof HI as [(Hh & _ & j & _ & _ & Hend) _ _ _ _]. rewrite Hp in Hend.
    open_world w. cbn in *. subst th hd. unfold _finish, _release_lock_locked. destruct ul; cbn; by eapply inv_finish.
  - destruct (w_timers w !! n); [|done]. injection He as <-. eapply inv_core; [|exact HI]. rewrite pending_core. by destruct w.
  - destruct (w_pend w !! n) as [k|]; [|done]. cbn [mbind option_bind] in He. case_bool_decide; [done|]. injection He as <-.
    apply proceed_inv; by destruct w.
  - injection He as <-. by destruct w.
Qed.

Lemma execs_inv es w w' : execs es w = Some w' → Inv w → Inv w'.
Proof.
  revert w. induction es as [|e es IH]; intros w; cbn [execs]; [by intros [= ->]|].
  destruct (exec e w) as [w1|] eqn:He; [|done]. intros Hes HI. eapply IH; [exact Hes|]. by eapply exec_inv.
Qed.
Lemma world0_inv : Inv world0.
Proof.
  split; cbn.
  - done.
  - apply NoDup_nil_2.
  - intros id. split; [set_solver|by intros []].
  - unfold MAX_JOBS. lia.
  - set_solver.
Qed.

(** C13: whatever the interleaving of calls, build threads, timers and other processes,
    at most one build thread is alive, it holds the lock, its job is the only active one
    and is what [start] finds; without a thread no job is active and the lock is free, so
    that no job stays active and no lock is leaked; and at most eight jobs are kept. *)
Theorem build_serialized es w :
  execs es world0 = Some w →
  (length (w_threads w) ≤ 1)%nat ∧ (w_lock_held w = true ↔ w_threads w ≠ []) ∧
  _active_job_locked w = t_job <$> head (w_threads w) ∧
  (∀ id, job_active (w_jobs w) id = true ↔ ∃ t, t ∈ w_threads w ∧ t_job t = id) ∧
  (length (w_order w) ≤ MAX_JOBS)%nat ∧ NoDup (w_order w) ∧ (∀ id, id ∈ w_order w ↔ is_Some (w_jobs w !! id)).
Proof.
  intros Hes. apply execs_inv in Hes; [|apply world0_inv]. destruct Hes as [Hser Hnd Hdom Hlen _].
  assert (∀ id, job_active (w_jobs w) id = true ↔ ∃ t, t ∈ w_threads w ∧ t_job t = id) as Hact.
  { intros id. unfold serial in Hser. destruct (w_threads w) as [|t [|]]; [|destruct Hser as (_ & Honly & j & Hj & Hst & _)|done].
    - rewrite (proj2 Hser). split; [done|]. intros (t & Ht%not_elem_of_nil & _). done.
    - split; [intros ->%Honly; exists t; split; [left|done]|]. intros (t' & ->%list_elem_of_singleton & <-).
      unfold job_active. rewrite Hj, Hst. by destruct (t_phase t). }
  unfold serial in Hser. split_and!; try done.
  - destruct (w_threads w) as [|t [|]]; simpl; [lia|lia|done].
  - destruct (w_threads w) as [|t [|]]; [destruct Hser as [-> _]|destruct Hser as [-> _]|]; done.
  - unfold _active_job_locked. destruct (List.find _ _) as [id|] eqn:Hf.
    + apply find_some in Hf as [_ Hf]. apply Hact in Hf as (t & Ht & <-).
      destruct (w_threads w) as [|t' [|]]; [by apply not_elem_of_nil in Ht| |done]. by apply list_elem_of_singleton in Ht as ->.
    + destruct (w_threads w) as [|t [|]]; [done| |done]. exfalso. destruct Hser as (_ & _ & j & Hj & _).
      assert (job_active (w_jobs w) (t_job t) = true) as Ha by (apply Hact; exists t; split; [left|done]).
      rewrite (find_none _ _ Hf) in Ha; [done|]. apply list_elem_of_In, Hdom. by eexists.
Qed.

(** ** A queued session is looked at again *)

Definition waking (k : cont) : bool := match k with KDrainStarted _ | KStop => false | _ => true end.
Definition item_of (k : cont) : option nat :=
  match k with
  | KDrainStart q _ | KDrainStarted q | KDrainRejected q | KDrainBusy q _ | KGiveUp q => Some q
  | _ => None
  end.
(** A build thread, a call under way or an armed timer will look at the queue. *)
Definition will_wake (w : world) : Prop :=
  w_threads w ≠ [] ∨ (∃ k, k ∈ w_pend w ∧ waking k = true) ∨ ∃ t, w_retry_timer w = Some t ∧ t ∈ w_timers w.
Record live (w : world) : Prop := {
  live_queue : ∀ q, q ∈ w_queue w → (q < length (w_items w))%nat;
  live_pend : ∀ k q, k ∈ w_pend w → item_of k = Some q → (q < length (w_items w))%nat;
  live_timer : ∀ t, w_retry_timer w = Some t → t ∈ w_timers w ∨ KRetry ∈ w_pend w;
  live_wake : w_queue w ≠ [] → will_wake w;
}.

Lemma elem_of_delete {A} (l : list A) n x k : l !! n = Some k → x ∈ l → x = k ∨ x ∈ delete n l.
Proof.
  intros Hn Hx. apply delete_Permutation in Hn. rewrite Hn in Hx. by apply elem_of_cons in Hx.
Qed.
Lemma elem_of_delete_1 {A} (l : list A) n x : x ∈ delete n l → x ∈ l.
Proof.
  rewrite delete_take_drop, elem_of_app.
  intros [Hx|Hx]; [by apply (subseteq_take n l)|by apply (subseteq_drop (S n) l)].
Qed.

(** [start] does not touch the queue. *)
Lemma started_frame io w rw :
  started io w rw →
  w_queue rw.2 = w_queue w ∧ w_items rw.2 = w_items w ∧ w_retry_timer rw.2 = w_retry_timer w ∧
  w_timers rw.2 = w_timers w ∧ w_pend rw.2 = w_pend w ∧ (w_threads w ≠ [] → w_threads rw.2 ≠ []) ∧
  match rw.1 with inr _ => w_threads rw.2 ≠ [] | inl _ => True end.
Proof.
  destruct 1 as [r f|f order jobs j t|f order jobs j]; open_world w; cbn; split_and!; try done;
    intros; by destruct th.
Qed.
Lemma live_frame w w' :
  w_queue w' = w_queue w → w_items w' = w_items w → w_retry_timer w' = w_retry_timer w →
  w_timers w' = w_timers w → w_pend w' = w_pend w → (w_threads w ≠ [] → w_threads w' ≠ []) → live w → live w'.
Proof.
  intros Hq Hi Ht Hts Hp Hth [H1 H2 H3 H4]. split; rewrite ?Hq, ?Hi, ?Ht, ?Hts, ?Hp; try done.
  intros Hne. unfold will_wake in *. rewrite Ht, Hts, Hp. destruct (H4 Hne) as [|[|]]; auto.
Qed.
Lemma started_live io w rw : started io w rw → live w → live rw.2.
Proof. intros (? & ? & ? & ? & ? & ? & _)%started_frame. by apply live_frame. Qed.

(** A world in which [k] has been taken up and not yet done. *)
Record live_but (k : cont) (w : world) : Prop := {
  lb_queue : ∀ q, q ∈ w_queue w → (q < length (w_items w))%nat;
  lb_pend : ∀ k' q, k' ∈ w_pend w ∨ k' = k → item_of k' = Some q → (q < length (w_items w))%nat;
  lb_timer : ∀ t, w_retry_timer w = Some t → t ∈ w_timers w ∨ KRetry ∈ w_pend w ∨ k = KRetry;
  lb_wake : w_queue w ≠ [] → will_wake w ∨ waking k = true;
}.
Lemma live_take w n k : live w → w_pend w !! n = Some k → live_but k (w{{w_pend := delete n (w_pend w)}}).
Proof.
  intros [Hq Hp Ht Hw] Hn. open_world w. cbn in *. split; unfold will_wake in *; cbn in *.
  - done.
  - intros k' q [Hk%elem_of_delete_1| ->]; [by apply Hp|]. eapply Hp, list_elem_of_lookup_2, Hn.
  - intros t [?|Hr]%Ht; [by left|]. destruct (elem_of_delete _ _ _ _ Hn Hr) as [<-|]; auto.
  - intros [?|[(k' & Hk & Hwk)|?]]%Hw; [by left; left| |by left; right; right].
    destruct (elem_of_delete _ _ _ _ Hn Hk) as [<-|]; [by right|]. left. right. left. eauto.
Qed.
(** Handing over to another call that will look at the queue. *)
Lemma live_hand k k' w :
  live_but k w → waking k' = true → k ≠ KRetry ∨ w_retry_timer w = None →
  (∀ q, item_of k' = Some q → (q < length (w_items w))%nat) → live (pending k' w).
Proof.
  intros [Hq Hp Ht Hw] Hk' Hr Hi. open_world w. cbn in *. split; unfold will_wake; cbn.
  - done.
  - intros k2 q [Hk2|Hk2%list_elem_of_singleton]%elem_of_app; [apply Hp; by left|]. subst k2. apply Hi.
  - intros t Hs. destruct (Ht t Hs) as [?|[?|?]]; [by left|right; apply elem_of_app; by left|naive_solver].
  - intros _. right. left. exists k'. split; [|done]. apply elem_of_app. right. left.
Qed.
Lemma remove_equal_sub items q queue i : i ∈ remove_equal items q queue → i ∈ queue.
Proof.
  induction queue as [|j queue IH]; cbn; [done|]. case_bool_decide; [by right|].
  intros [->|?]%elem_of_cons; [left|right; auto].
Qed.
Lemma live_but_unqueue k q w : live_but k w → live_but k (unqueue q w).
Proof.
  intros [Hq Hp Ht Hw]. open_world w. split; unfold will_wake in *; cbn in *; try done.
  - intros i Hi%remove_equal_sub. auto.
  - intros Hne. apply Hw. intros ->. done.
Qed.
Lemma live_but_done k w : live_but k w → waking k = false → live w.
Proof.
  intros [Hq Hp Ht Hw] Hk. split; [done| | |].
  - intros k' q Hk'. apply Hp. by left.
  - intros t Hs. destruct (Ht t Hs) as [?|[?|?]]; auto. by subst.
  - intros Hne. destruct (Hw Hne) as [?|?]; [done|congruence].
Qed.

Lemma live_but_started k io w rw : started io w rw → live_but k w → live_but k rw.2.
Proof.
  intros (Hq & Hi & Ht & Hts & Hp & Hth & _)%started_frame [H1 H2 H3 H4].
  split; unfold will_wake in *; rewrite ?Hq, ?Hi, ?Ht, ?Hts, ?Hp; try done.
  intros Hne. destruct (H4 Hne) as [[|[|]]|]; auto.
Qed.
Lemma drain_start_live io q a w : live_but (KDrainStart q a) w → live (_drain_start io q a w).
Proof.
  intros Hl. assert (q < length (w_items w))%nat as Hql by (eapply (lb_pend _ _ Hl (KDrainStart q a)); [by right|done]).
  unfold _drain_start. destruct (lookup_lt_is_Some_2 _ _ Hql) as [it Hit]. rewrite Hit.
  pose proof (start_effect io (q_args it) (Some (q_session it)) w) as Hs.
  pose proof (live_but_started _ _ _ _ Hs Hl) as Hl'.
  destruct (started_frame _ _ _ Hs) as (_ & Hitems & _ & _ & _ & _ & Hnew).
  destruct (start _ _ _ _) as [[[[? c] ?]|j] w1]; cbn [fst snd] in *.
  - case_bool_decide; (eapply live_hand; [exact Hl'|done|by left|]); intros ? [= <-]; by rewrite Hitems.
  - destruct Hl' as [H1 H2 H3 _]. rewrite Hitems in H1, H2. clear Hit Hs. open_world w1.
    split; unfold will_wake; cbn in *.
    + by rewrite Hitems.
    + rewrite Hitems. intros k' q' [Hk|Hk%list_elem_of_singleton]%elem_of_app; [apply H2; by left|]. by subst k'; intros [= <-].
    + intros t Hs'. destruct (H3 t Hs') as [?|[?|?]]; [by left|right; apply elem_of_app; by left|done].
    + auto.
Qed.

Lemma schedule_live w : live_but KSchedule w → live (_schedule_retry w).
Proof.
  intros [Hq Hp Ht Hw]. unfold _schedule_retry. open_world w. cbn in *. destruct tm as [t|]; [|destruct qu as [|q qu]].
  - split; unfold will_wake in *; cbn in *; [done|intros; eapply Hp; [by left|done]| |].
    + intros t' Hs. destruct (Ht t' Hs) as [?|[?|?]]; [by left|by right|done].
    + intros _. destruct (Ht t eq_refl) as [?|[?|?]]; [right; right; eauto|right; left; eauto|done].
  - split; cbn in *; [done|intros; eapply Hp; [by left|done]|done|done].
  - split; unfold will_wake in *; cbn in *; [done|intros; eapply Hp; [by left|done]| |].
    + intros t [= <-]. left. apply elem_of_app. right. left.
    + intros _. right. right. eexists. split; [done|]. apply elem_of_app. right. left.
Qed.
Lemma enqueue_live s a w : live_but (KAppend s a) w → live (pending KSchedule (_enqueue s a w)).
Proof.
  intros Hl. eapply (live_hand (KAppend s a)); [|done|by left|done].
  unfold _enqueue. case_match; [done|]. destruct Hl as [Hq Hp Ht Hw]. open_world w. cbn in *.
  split; unfold will_wake in *; cbn in *; rewrite ?length_app; simpl; try done; try by right.
  - intros q [Hq'%Hq|Hq'%list_elem_of_singleton]%elem_of_app; lia.
  - intros k q Hk Hi. specialize (Hp k q Hk Hi). lia.
Qed.
Lemma proceed_live io k w : live_but k w → (∀ q, k ≠ KGiveUp q) → live (proceed io k w).
Proof.
  intros Hl Hg. destruct k as [|q a|q|q|q a|q|s a| | |]; cbn [proceed].
  - unfold _drain_read. destruct (w_queue w) as [|q queue] eqn:Hqu.
    + destruct Hl as [Hq Hp Ht _]. rewrite Hqu in Hq. split; rewrite ?Hqu; [done|intros; eapply Hp; [by left|done]| |done].
      intros t Hs. destruct (Ht t Hs) as [?|[?|?]]; auto; done.
    + assert (q < length (w_items w))%nat as Hql by (apply (lb_queue _ _ Hl); rewrite Hqu; left).
      destruct (lookup_lt_is_Some_2 _ _ Hql) as [it Hit]. rewrite Hit.
      eapply live_hand; [exact Hl|done|by left|]. by intros ? [= <-].
  - by apply drain_start_live.
  - eapply live_but_done; [by apply live_but_unqueue|done].
  - eapply live_hand; [by apply live_but_unqueue|done|by left|done].
  - assert (q < length (w_items w))%nat as Hql by (eapply (lb_pend _ _ Hl (KDrainBusy q a)); [by right|done]).
    assert (live_but (KDrainBusy q a) (w{{w_items := alter (λ it, it{{q_attempts := a + 1}}) q (w_items w)}})) as Hl'.
    { destruct Hl as [H1 H2 H3 H4]. open_world w. split; unfold will_wake in *; cbn in *; try done.
      - intros i Hi. rewrite length_alter. auto.
      - intros k i Hk Hi. rewrite length_alter. eauto. }
    unfold _drain_busy. case_match; (eapply live_hand; [exact Hl'|done|by left|]); [|done].
    intros ? [= <-]. destruct w. cbn. unfold constant. by rewrite length_alter.
  - by destruct (Hg q).
  - by apply enqueue_live.
  - by apply schedule_live.
  - unfold _retry. eapply (live_hand KRetry); [|done|by right; destruct w|done].
    destruct Hl as [H1 H2 H3 H4]. open_world w. split; cbn in *; [done|done|done|by right].
  - destruct Hl as [H1 H2 H3 H4]. open_world w. split; cbn in *; [set_solver|intros; eapply H2; [by left|done]|done|done].
Qed.

(** The event is a queued build given up after [QUEUE_MAX_RETRIES]. *)
Definition gives_up (e : event) (w : world) : bool :=
  match e with ERun n _ => match w_pend w !! n with Some (KGiveUp _) => true | _ => false end | _ => false end.
Fixpoint never_gives_up (es : list event) (w : world) : bool :=
  match es with
  | [] => true
  | e :: es => negb (gives_up e w) && match exec e w with Some w' => never_gives_up es w' | None => true end
  end.

Lemma live_pending k w : live w → item_of k = None → live (pending k w).
Proof.
  intros [H1 H2 H3 H4] Hk. open_world w. cbn in *. split; unfold will_wake in *; cbn in *.
  - done.
  - intros k' q [Hk'|Hk'%list_elem_of_singleton]%elem_of_app; [by apply H2|]. subst k'. congruence.
  - intros t [?|?]%H3; [by left|right; apply elem_of_app; by left].
  - intros [?|[(k' & ? & ?)|?]]%H4; [by left|right; left; exists k'; split; [apply elem_of_app; by left|done]|by right; right].
Qed.
Lemma exec_live e w w' : exec e w = Some w' → gives_up e w = false → Inv w → live w → live w'.
Proof.
  intros He Hg HI Hl. destruct e as [io a s|io s a| |n|n wr|n b|n now ul|n|n io|f]; cbn [exec] in He.
  - case_bool_decide; [done|]. injection He as <-. eapply started_live; [apply start_effect|done].
  - case_bool_decide; [done|]. injection He as <-. unfold enqueue_session. case_match; [|done].
    pose proof (started_live io w _ (start_effect io a (Some s) w) Hl) as Hs.
    destruct (start io a (Some s) w) as [[[[? c] ?]|j] w1]; [|done]. case_bool_decide; [by apply live_pending|done].
  - injection He as <-. apply live_pending; [|done]. eapply live_frame; [..|exact Hl]; by destruct w.
  - destruct (w_threads w !! n) as [t|] eqn:Ht; [|done]. destruct (thread_only w n t HI Ht) as [-> Hts]. cbn [mbind option_bind] in He.
    destruct (t_phase t); simplify_eq. eapply live_frame; [..|exact Hl]; open_world w; cbn in *; by subst th.
  - destruct (w_threads w !! n) as [t|] eqn:Ht; [|done]. cbn [mbind option_bind] in He.
    destruct (t_phase t); simplify_eq. eapply live_frame; [..|exact Hl]; by destruct w.
  - destruct (w_threads w !! n) as [t|] eqn:Ht; [|done]. destruct (thread_only w n t HI Ht) as [-> Hts]. cbn [mbind option_bind] in He.
    destruct (t_phase t); try done. destruct (final_state (w_stop w) b). injection He as <-.
    eapply live_frame; [..|exact Hl]; open_world w; cbn in *; by subst th.
  - destruct (w_threads w !! n) as [t|] eqn:Ht; [|done]. cbn [mbind option_bind] in He.
    destruct (t_phase t) as [| |st rs]; try done. injection He as <-. apply (live_hand KDrain); [|done|by left|done].
    destruct Hl as [H1 H2 H3 H4]. unfold _finish, _release_lock_locked. open_world w. destruct hd, ul; cbn in *;
      split; cbn in *; auto; (intros k q [Hk| ->]; [by apply H2|done]) || (intros t' [?|?]%H3; auto).
  - destruct (w_timers w !! n) as [t|] eqn:Ht; [|done]. injection He as <-.
    destruct Hl as [H1 H2 _ _]. open_world w. cbn in *.
    assert (KRetry ∈ pe ++ [KRetry]) as Hin by (apply elem_of_app; right; left).
    split; unfold will_wake; cbn in *; [done| |by right|intros _; right; left; eauto].
    intros k' q [Hk|Hk%list_elem_of_singleton]%elem_of_app; [by apply H2|by subst k'].
  - destruct (w_pend w !! n) as [k|] eqn:Hk; [|done]. cbn [mbind option_bind] in He. case_bool_decide; [done|]. injection He as <-.
    apply proceed_live; [by apply live_take|]. intros q ->. cbn in Hg. by rewrite Hk in Hg.
  - injection He as <-. eapply live_frame; [..|exact Hl]; by destruct w.
Qed.

Lemma execs_live es w w' : execs es w = Some w' → never_gives_up es w = true → Inv w → live w → live w'.
Proof.
  revert w. induction es as [|e es IH]; intros w; cbn [execs never_gives_up]; [by intros [= ->]|].
  destruct (exec e w) as [w1|] eqn:He; [|done]. intros Hes [Hg%negb_true_iff Hn]%andb_true_iff HI Hl.
  eapply IH; [exact Hes|done|by eapply exec_inv|by eapply exec_live].
Qed.
Lemma world0_live : live world0.
Proof. split; cbn; [set_solver|set_solver|done|done]. Qed.

(** What makes a session build start: its folder, frames that pass the gates, the lock. *)
Definition ready (io : start_io) (session : pystr) : Prop :=
  ∃ path frames, session_dir (s_dir io) session = Some path ∧ catalog_frames (s_sub io path) = (frames, false) ∧
    preflight io frames false = None ∧ s_create io = true ∧ s_spawn io = true.
Lemma no_thread_inactive w : Inv w → w_threads w = [] → _active_job_locked w = None ∧ w_lock_held w = false.
Proof.
  intros [Hser _ _ _ _] Hth. unfold serial in Hser. rewrite Hth in Hser. destruct Hser as [Hh Hno]. split; [|done].
  unfold _active_job_locked. destruct (List.find _ _) as [id|] eqn:Hf; [|done].
  apply find_some in Hf as [_ Hf]. by rewrite Hno in Hf.
Qed.
Lemma start_ready io args s w :
  Inv w → w_threads w = [] → w_lockfile w = None → ready io s →
  ∃ j t, (start io args (Some s) w).1 = inr j ∧ w_threads (start io args (Some s) w).2 = [t] ∧
         t_target t = Some (s ++ AVI_SUFFIX) ∧ t_job t = j_id j.
Proof.
  intros HI Hth Hlf (path & frames & Hd & Hc & Hp & Hcr & Hsp).
  destruct (no_thread_inactive w HI Hth) as [Hact Hheld]. unfold start. rewrite Hd, Hc.
  unfold start_locked. rewrite Hact, Hp. unfold _acquire_lock. rewrite Hheld, Hlf. cbn [_try_create_lock]. rewrite Hcr.
  cbn [negb]. destruct (_prune_locked _ _) as [o jm]. rewrite Hsp. cbn [negb fst snd].
  open_world w. cbn in *. subst th. eexists _, _. by split_and!.
Qed.

Lemma delete_last {A} (l : list A) x : delete (length l) (l ++ [x]) = l.
Proof. rewrite delete_middle. apply app_nil_r. Qed.
(** The end of a build starts the session at the head of the queue. *)
Lemma finish_starts_next w t q rest it now io0 io :
  Inv w → w_threads w = [t] → (∃ st rs, t_phase t = Ended st rs) →
  w_queue w = q :: rest → w_items w !! q = Some it → ready io (q_session it) →
  s_uuid io0 ∉ w_used w → s_uuid io ∉ w_used w →
  let n := length (w_pend w) in
  ∃ w' t', execs [EFinish 0 now true; ERun n io0; ERun n io] w = Some w' ∧ w_threads w' = [t'] ∧
           t_target t' = Some (q_session it ++ AVI_SUFFIX).
Proof.
  intros HI Hth (st & rs & Hph) Hq Hit Hready Hf0 Hf n; subst n. cbn [execs exec]. rewrite Hth. cbn [lookup list_lookup mbind option_bind].
  rewrite Hph. cbn [option_bind].
  set (w1 := pending KDrain _).
  assert (Inv w1 ∧ w_threads w1 = [] ∧ w_lockfile w1 = None ∧ w_pend w1 = w_pend w ++ [KDrain] ∧ w_used w1 = w_used w ∧
          w_queue w1 = w_queue w ∧ w_items w1 = w_items w) as (HI1 & Hth1 & Hlf1 & Hpe1 & Hus1 & Hq1 & Hit1).
  { split; [apply (exec_inv (EFinish 0 now true) w); [|done]; cbn [exec]; rewrite Hth; cbn [lookup list_lookup mbind option_bind]; by rewrite Hph|].
    pose proof HI as [Hser _ _ _ _]. rewrite Hth in Hser. destruct Hser as [Hheld _].
    unfold w1, _finish, _release_lock_locked. open_world w. cbn in *. by subst hd th. }
  clearbody w1. cbn [mbind option_bind]. rewrite Hpe1, list_lookup_middle by done. cbn [mbind option_bind].
  rewrite bool_decide_false by by rewrite Hus1. cbn [mbind option_bind proceed].
  rewrite delete_last. set (w2 := _drain_read _).
  assert (w2 = w1{{w_pend := w_pend w ++ [KDrainStart q (q_attempts it)] }}) as Hw2.
  { unfold w2, _drain_read. open_world w1. cbn in *. subst. rewrite Hq, Hit. done. }
  assert (Inv (w1{{w_pend := w_pend w}})) as HI2 by (eapply inv_core; [|exact HI1]; by destruct w1).
  destruct (start_ready io (q_args it) (q_session it) (w1{{w_pend := w_pend w}}) HI2) as (j & t' & Hr & Ht' & Htg & _);
    [by destruct w1|by destruct w1|done|].
  rewrite Hw2. replace (w_pend (w1{{w_pend := w_pend w ++ [KDrainStart q (q_attempts it)] }}))
    with (w_pend w ++ [KDrainStart q (q_attempts it)]) by (by destruct w1).
  rewrite list_lookup_middle by done. cbn [mbind option_bind].
  replace (w_used (w1{{w_pend := w_pend w ++ [KDrainStart q (q_attempts it)] }})) with (w_used w) by (by destruct w1).
  rewrite bool_decide_false by done. cbn [mbind option_bind proceed]. rewrite delete_last.
  replace (w1{{w_pend := w_pend w ++ [KDrainStart q (q_attempts it)] }}{{w_pend := w_pend w}}) with (w1{{w_pend := w_pend w}}) by (by destruct w1).
  eexists _, t'. split; [done|]. unfold _drain_start.
  replace (w_items (w1{{w_pend := w_pend w}})) with (w_items w) by (by destruct w1). rewrite Hit.
  destruct (start io _ _ _) as [r w3]. cbn [fst snd] in *. subst r. destruct w3. by split.
Qed.

(** As long as no queued build was given up, a queue that is not empty has a build
    thread, a call under way or an armed timer that will look at it; and when a build
    ends, the session at the head of the queue is the next to be built if it can be. *)
Theorem queued_session_wakes es w :
  execs es world0 = Some w → never_gives_up es world0 = true →
  (w_queue w ≠ [] → will_wake w) ∧
  (∀ t q rest it now io0 io,
    w_threads w = [t] → (∃ st rs, t_phase t = Ended st rs) → w_queue w = q :: rest → w_items w !! q = Some it →
    ready io (q_session it) → s_uuid io0 ∉ w_used w → s_uuid io ∉ w_used w →
    let n := length (w_pend w) in
    ∃ w' t', execs [EFinish 0 now true; ERun n io0; ERun n io] w = Some w' ∧ w_threads w' = [t'] ∧
             t_target t' = Some (q_session it ++ AVI_SUFFIX)).
Proof.
  intros Hes Hn. assert (Inv w) as HI by (by eapply execs_inv; [exact Hes|apply world0_inv]). split.
  - apply (live_wake w). eapply execs_live; [exact Hes|done|apply world0_inv|apply world0_live].
  - intros t q rest it now io0 io. by apply finish_starts_next.
Qed.

(** *** A run *)

Definition demo_session (n : string) : dirent :=
  {| de_name := u n; de_stat := Some {| fi_type := Directory; fi_nlink := 2; fi_size := 0; fi_mtime := 0 |} |}.
Definition session_a := "session_20240101-000000".
Definition session_b := "session_20240102-000000".
Definition demo_io (id : Z) : start_io :=
  {| s_dir := [demo_session session_a; demo_session session_b];
     s_sub := λ _, Some [demo_file "timelapse_10-00-00-000.jpg" 1]; s_free := Some (1024 * 1024 * 1024);
     s_create := true; s_unlink := true; s_recreate := true; s_now := 100; s_uuid := [id]; s_spawn := true |}.
Definition demo_args : build_args := {| b_fps := 30; b_width := None; b_height := None |}.
Definition enqueue_demo (s : string) (id : Z) : list event :=
  [EEnqueue (demo_io id) (u s) demo_args; ERun 0 (demo_io id); ERun 0 (demo_io id)].
(** A build of the first session under way, the second one queued. *)
Definition busy_run : list event :=
  EStart (demo_io 1) demo_args (Some (u session_a)) :: enqueue_demo session_b 2 ++ [EBegin 0; EBuilt 0 BuiltPath].

Lemma queued_session_wakes_witness :
  ∃ w w' t', execs busy_run world0 = Some w ∧ w_queue w = [0%nat] ∧
    execs [EFinish 0 200 true; ERun 0 (demo_io 3); ERun 0 (demo_io 4)] w = Some w' ∧ w_threads w' = [t'] ∧
    t_target t' = Some (u session_b ++ AVI_SUFFIX).
Proof.
  destruct (execs busy_run world0) as [w|] eqn:He; [|by vm_compute in He].
  pose proof (queued_session_wakes busy_run w He eq_refl) as [_ Hstart].
  pose proof He as Hw. vm_compute in Hw. injection Hw as Hw. exists w.
  destruct (Hstart _ 0%nat [] {| q_session := u session_b; q_args := demo_args; q_attempts := 0 |} 200 (demo_io 3) (demo_io 4)
     ltac:(by rewrite <-Hw) ltac:(by eexists _, _) ltac:(by rewrite <-Hw) ltac:(by rewrite <-Hw)) as (w' & t' & Hex & Hth & Htg).
  - exists (u session_b), [{| m_name := u "timelapse_10-00-00-000.jpg"; m_size := 101; m_modified := 1; m_status := None |}].
    by split_and!.
  - rewrite <-Hw. by apply (bool_decide_unpack _).
  - rewrite <-Hw. by apply (bool_decide_unpack _).
  - exists w', t'. rewrite <-Hw in *. by split_and!.
Defined.
Lemma build_serialized_witness :
  ∃ w, execs busy_run world0 = Some w ∧ w_lock_held w = true ∧ _active_job_locked w = Some [1].
Proof.
  destruct (execs busy_run world0) as [w|] eqn:He; [|by vm_compute in He].
  destruct (build_serialized busy_run w He) as (_ & Hh & Ha & _). exists w. split; [done|].
  vm_compute in He. injection He as <-. split; [by apply Hh|exact Ha].
Defined.

(** When the first of two queued sessions is given up, because another process kept the
    lock file, the second stays queued with nothing that will look at it. *)
Definition poll : list event := ETimer 0 :: replicate 5 (ERun 0 (demo_io 1)).
Definition stranded_run : list event :=
  ELockFile (Some 100) :: enqueue_demo session_a 1 ++ enqueue_demo session_b 1 ++ concat (replicate 120 poll).
Theorem give_up_strands :
  ∃ w it, execs stranded_run world0 = Some w ∧ w_queue w = [1%nat] ∧ w_items w !! 1%nat = Some it ∧
    q_session it = u session_b ∧ q_attempts it = 0 ∧ ¬ will_wake w.
Proof.
  destruct (execs stranded_run world0) as [w|] eqn:He; [|by vm_compute in He].
  exists w. vm_compute in He. injection He as <-. eexists. split_and!; try done.
  intros [Ht|[(k & Hk%not_elem_of_nil & _)|(t & Ht & _)]]; done.
Qed.

(** ** A stopped build does not end as done *)

Lemma prune_sub o jobs : (_prune_locked o jobs).2 ⊆ jobs.
Proof.
  revert jobs. induction o as [|x o IH]; intros jobs; cbn [_prune_locked]; [done|].
  case_match; [done|]. etrans; [apply IH|apply delete_subseteq].
Qed.
(** The job [id] was stopped before its builder ended. *)
Definition doomed (id : pystr) (w : world) : Prop :=
  id ∈ w_used w ∧
  ((∃ t, w_threads w = [t] ∧ t_job t = id ∧
         match t_phase t with Ended s _ => s = STATE_ERROR | _ => w_stop w = true end) ∨
   (∀ t, t ∈ w_threads w → t_job t ≠ id) ∧ ∀ j, w_jobs w !! id = Some j → j_state j = STATE_ERROR).
Definition doom_view (w : world) := (w_used w, w_threads w, w_stop w, w_jobs w).
Lemma doomed_view id w w' : doom_view w' = doom_view w → doomed id w → doomed id w'.
Proof. unfold doom_view, doomed. by intros [= -> -> -> ->]. Qed.
Lemma pending_view k w : doom_view (pending k w) = doom_view w.
Proof. by destruct w. Qed.

Lemma started_doomed id io w rw :
  started io w rw → Inv w → s_uuid io ∉ w_used w → doomed id w → doomed id rw.2.
Proof.
  intros Hst HI Hf [Hu Hd]. assert (s_uuid io ≠ id) as Hne by congruence.
  destruct Hst as [r f|f order jobs j t Hact Hh Hid Hpend Htj Htp Hp|f order jobs j Hact Hh Hid Hp].
  - eapply doomed_view; [|split; [exact Hu|exact Hd]]. by destruct w.
  - destruct (active_none w HI Hact) as [Hth _]. pose proof (prune_sub (w_order w ++ [s_uuid io]) (<[s_uuid io := j]> (w_jobs w))) as Hsub.
    rewrite Hp in Hsub. destruct Hd as [(t' & Ht' & _)|[_ Hj]]; [congruence|]. open_world w. cbn in *. subst th.
    split; cbn; [by right|right]. split; [intros ? ->%list_elem_of_singleton; congruence|].
    intros j' Hj'. apply (Hj j'). apply (lookup_weaken _ _ _ _ Hj') in Hsub. by rewrite lookup_insert_ne in Hsub.
  - destruct (active_none w HI Hact) as [Hth _]. pose proof (prune_sub (w_order w ++ [s_uuid io]) (<[s_uuid io := j]> (w_jobs w))) as Hsub.
    rewrite Hp in Hsub. destruct Hd as [(t' & Ht' & _)|[_ Hj]]; [congruence|]. open_world w. cbn in *. subst th.
    split; cbn; [by right|right]. split; [by intros ? ?%not_elem_of_nil|].
    intros j' Hj'. rewrite lookup_delete_ne in Hj' by done. apply (Hj j').
    apply (lookup_weaken _ _ _ _ Hj') in Hsub. by rewrite lookup_insert_ne in Hsub.
Qed.
Lemma proceed_doomed id io k w : Inv w → s_uuid io ∉ w_used w → doomed id w → doomed id (proceed io k w).
Proof.
  intros HI Hf Hd. destruct k as [|q a|q|q|q a|q|s a| | |]; cbn [proceed].
  2:{ unfold _drain_start. destruct (w_items w !! q) as [it|]; [|done].
      pose proof (started_doomed id io w _ (start_effect io (q_args it) (Some (q_session it)) w) HI Hf Hd) as Hs.
      destruct (start io _ _ w) as [[[[? c] ?]|j] w']; [case_bool_decide|]; by eapply doomed_view; [apply pending_view|]. }
  all: eapply doomed_view; [|exact Hd].
  - unfold _drain_read. repeat case_match; done || apply pending_view.
  - by destruct w.
  - rewrite pending_view. by destruct w.
  - unfold _drain_busy. case_match; rewrite pending_view; by destruct w.
  - by destruct w.
  - rewrite pending_view. unfold _enqueue. case_match; by destruct w.
  - unfold _schedule_retry. destruct w as [? ? ? ? [|? ?] ? [?|]]; done.
  - unfold _retry. rewrite pending_view. by destruct w.
  - by destruct w.
Qed.
(** An event of the build thread: of the doomed job's own, or of another one. *)
Lemma doomed_other id t w :
  doomed id w → w_threads w = [t] → t_job t ≠ id →
  ∀ f j, alter f (t_job t) (w_jobs w) !! id = Some j → j_state j = STATE_ERROR.
Proof.
  intros [_ [(t' & Ht' & Hid & _)|[_ Hj]]] Ht Hne f j; [congruence|]. rewrite lookup_alter_ne by done. apply Hj.
Qed.

Lemma begin_doomed id n w w' : exec (EBegin n) w = Some w' → Inv w → doomed id w → doomed id w'.
Proof.
  intros He HI Hd. cbn [exec] in He. destruct (w_threads w !! n) as [t|] eqn:Ht; [|done]. cbn [mbind option_bind] in He.
  destruct (thread_only w n t HI Ht) as [-> Hts].
  destruct (t_phase t) eqn:Hp; [|done|done]. injection He as <-. destruct (decide (t_job t = id)) as [Hid|Hid].
  - destruct Hd as [Hu [(t' & Ht' & _ & Hs)|[Hno _]]]; [|by destruct (Hno t); [rewrite Hts; left|]].
    assert (t' = t) as -> by congruence. rewrite Hp in Hs. split; [by destruct w|]. left.
    open_world w. cbn in *. subst th. eexists. split; [done|]. by destruct t.
  - pose proof (doomed_other id t w Hd Hts Hid) as Hj. destruct Hd as [Hu _]. split; [by destruct w|]. right.
    open_world w. cbn in *. subst th. split; [intros ? ->%list_elem_of_singleton; by destruct t|]. exact (Hj _).
Qed.
Lemma progress_doomed id n wr w w' : exec (EProgress n wr) w = Some w' → Inv w → doomed id w → doomed id w'.
Proof.
  intros He HI Hd. cbn [exec] in He. destruct (w_threads w !! n) as [t|] eqn:Ht; [|done]. cbn [mbind option_bind] in He.
  destruct (thread_only w n t HI Ht) as [-> Hts].
  destruct (t_phase t) eqn:Hp; [done| |done]. injection He as <-. destruct (decide (t_job t = id)) as [Hid|Hid].
  - destruct Hd as [Hu [(t' & Ht' & ?)|[Hno _]]]; [|by destruct (Hno t); [rewrite Hts; left|]].
    split; [by destruct w|]. left. exists t'. by destruct w.
  - pose proof (doomed_other id t w Hd Hts Hid) as Hj. destruct Hd as [Hu _]. split; [by destruct w|]. right.
    open_world w. cbn in *. subst th. split; [by intros ? ->%list_elem_of_singleton|]. exact (Hj _).
Qed.
Lemma built_doomed id n b w w' : exec (EBuilt n b) w = Some w' → Inv w → doomed id w → doomed id w'.
Proof.
  intros He HI Hd. cbn [exec] in He. destruct (w_threads w !! n) as [t|] eqn:Ht; [|done]. cbn [mbind option_bind] in He.
  destruct (thread_only w n t HI Ht) as [-> Hts].
  destruct (t_phase t) eqn:Hp; [done| |done]. destruct (final_state (w_stop w) b) as [st rs] eqn:Hr. injection He as <-.
  destruct (decide (t_job t = id)) as [Hid|Hid].
  - destruct Hd as [Hu [(t' & Ht' & _ & Hs)|[Hno _]]]; [|by destruct (Hno t); [rewrite Hts; left|]].
    assert (t' = t) as -> by congruence. rewrite Hp in Hs. rewrite Hs in Hr. split; [by destruct w|]. left.
    open_world w. cbn in *. subst th. eexists. split; [done|]. destruct t, b; cbn in *; by simplify_eq.
  - destruct Hd as [Hu [(t' & Ht' & ? & _)|[_ Hj]]]; [congruence|]. split; [by destruct w|]. right.
    open_world w. cbn in *. subst th. split; [intros ? ->%list_elem_of_singleton; by destruct t|]. apply Hj.
Qed.
Lemma finish_doomed id n now ul w w' : exec (EFinish n now ul) w = Some w' → Inv w → doomed id w → doomed id w'.
Proof.
  intros He HI Hd. cbn [exec] in He. destruct (w_threads w !! n) as [t|] eqn:Ht; [|done]. cbn [mbind option_bind] in He.
  destruct (thread_only w n t HI Ht) as [-> Hts].
  destruct (t_phase t) as [| |st rs] eqn:Hp; [done|done|]. injection He as <-. eapply doomed_view; [apply pending_view|].
  assert (id ∈ w_used w) as Hu by apply Hd. split; [unfold _finish, _release_lock_locked; open_world w; by destruct hd, ul|]. right.
  split; [unfold _finish, _release_lock_locked; open_world w; cbn in *; subst th; destruct hd, ul; by intros ? ?%not_elem_of_nil|].
  assert (∀ j, alter (λ j, j{{j_state := st}}{{j_reason := rs}}{{j_finished := Some now}}) (t_job t) (w_jobs w) !! id = Some j →
               j_state j = STATE_ERROR) as Hj.
  { destruct (decide (t_job t = id)) as [Hid|Hid]; [|by apply doomed_other].
    destruct Hd as [_ [(t' & Ht' & _ & Hs)|[Hno _]]]; [|by destruct (Hno t); [rewrite Hts; left|]].
    assert (t' = t) as -> by congruence. rewrite Hp in Hs. subst st id. intros j. rewrite lookup_alter_eq.
    destruct (w_jobs w !! t_job t) as [[]|]; [|done]. by intros [= <-]. }
  unfold _finish, _release_lock_locked. open_world w. destruct hd, ul; exact Hj.
Qed.
Lemma exec_doomed id e w w' : exec e w = Some w' → Inv w → doomed id w → doomed id w'.
Proof.
  intros He HI Hd. destruct e as [io a s|io s a| |n|n wr|n b|n now ul|n|n io|f].
  - cbn [exec] in He. case_bool_decide; [done|]. injection He as <-. by eapply started_doomed; [apply start_effect|..].
  - cbn [exec] in He. case_bool_decide; [done|]. injection He as <-. unfold enqueue_session. case_match; [|done].
    pose proof (started_doomed id io w _ (start_effect io a (Some s) w) HI) as Hs.
    destruct (start io a (Some s) w) as [[[[? c] ?]|j] w1]; [|by apply Hs].
    case_bool_decide; [eapply doomed_view; [apply pending_view|]|]; by apply Hs.
  - injection He as <-. destruct Hd as [Hu Hd]. split; [by destruct w|]. destruct Hd as [(t & Ht & Hid & Hp)|Hd]; [|right; by destruct w].
    left. exists t. split; [by destruct w|]. split; [done|]. destruct (t_phase t); by destruct w.
  - by eapply begin_doomed.
  - by eapply progress_doomed.
  - by eapply built_doomed.
  - by eapply finish_doomed.
  - cbn [exec] in He. destruct (w_timers w !! n); [|done]. injection He as <-. eapply doomed_view; [|exact Hd]. rewrite pending_view. by destruct w.
  - cbn [exec] in He. destruct (w_pend w !! n) as [k|]; [|done]. cbn [mbind option_bind] in He. case_bool_decide; [done|]. injection He as <-.
    apply proceed_doomed; [by destruct w|by destruct w|]. eapply doomed_view; [|exact Hd]. by destruct w.
  - injection He as <-. eapply doomed_view; [|exact Hd]. by destruct w.
Qed.

(** A build that is stopped before its builder ended never shows as done: whatever
    happens next, its job is still active, or has failed, or has left the history. *)
Theorem stop_is_honoured es w t es' w' :
  execs es world0 = Some w → w_threads w = [t] → (t_phase t = Starting ∨ t_phase t = Building) →
  w_stop w = true → execs es' w = Some w' →
  (∃ t', w_threads w' = [t'] ∧ t_job t' = t_job t) ∨
  (∀ j, w_jobs w' !! t_job t = Some j → j_state j = STATE_ERROR).
Proof.
  intros Hes Hth Hph Hstop Hes'. assert (Inv w) as HI by (eapply execs_inv; [exact Hes|apply world0_inv]).
  assert (doomed (t_job t) w) as Hd.
  { split.
    - pose proof HI as [Hser _ Hdom _ Hus]. rewrite Hth in Hser. destruct Hser as (_ & _ & j & Hj & _).
      apply Hus, Hdom. by eexists.
    - left. exists t. split_and!; [done|done|]. by destruct Hph as [-> | ->]. }
  clear -HI Hd Hes'. revert w HI Hd Hes'. induction es' as [|e es' IH]; intros w HI Hd; cbn [execs].
  - intros [= <-]. destruct Hd as [_ [(t' & Ht' & Hid & _)|[_ Hj]]]; eauto.
  - destruct (exec e w) as [w1|] eqn:He; [|done]. cbn. apply IH; [by eapply exec_inv|by eapply exec_doomed].
Qed.
Definition stop_run : list event := [EStart (demo_io 1) demo_args (Some (u session_a)); EBegin 0; EStop].
Lemma stop_is_honoured_witness :
  ∃ w', execs (stop_run ++ [EBuilt 0 BuiltPath; EFinish 0 200 true]) world0 = Some w' ∧
        is_Some (w_jobs w' !! [1]) ∧ ∀ j, w_jobs w' !! [1] = Some j → j_state j = STATE_ERROR.
Proof.
  destruct (execs stop_run world0) as [w|] eqn:He; [|by vm_compute in He].
  destruct (execs [EBuilt 0 BuiltPath; EFinish 0 200 true] w) as [w'|] eqn:He'; [|vm_compute in He; injection He as <-; by vm_compute in He'].
  exists w'. assert (execs (stop_run ++ [EBuilt 0 BuiltPath; EFinish 0 200 true]) world0 = Some w') as ->.
  { vm_compute in He. injection He as <-. rewrite <-He'. reflexivity. }
  split; [done|]. destruct (w_threads w) as [|t [|]] eqn:Hth; [by vm_compute in He; injection He as <-| |by vm_compute in He; injection He as <-].
  destruct (stop_is_honoured stop_run w t [EBuilt 0 BuiltPath; EFinish 0 200 true] w' He Hth) as [(t' & Ht' & _)|Hj];
    [vm_compute in He; injection He as <-; injection Hth as <-; by right|by vm_compute in He; injection He as <-|done| |].
  - exfalso. vm_compute in He. injection He as <-. vm_compute in He'. by injection He' as <-.
  - vm_compute in He. injection He as <-. injection Hth as <-. vm_compute in He'. injection He' as <-.
    split; [by eexists|exact Hj].
Defined.

(** ** What [start] accepts *)

Lemma omap_length_le {A B} (f : A → option B) l : (length (omap f l) ≤ length l)%nat.
Proof. induction l as [|x l IH]; [simpl; lia|]. cbn. destruct (f x); cbn in *; lia. Qed.
Lemma catalog_frames_length dir : (length (catalog_frames dir).1 ≤ MAX_SCAN_ENTRIES)%nat.
Proof.
  unfold catalog_frames, _scan. destruct dir as [es|]; cbn [fst]; [|simpl; lia].
  rewrite merge_sort_Permutation. etrans; [apply omap_length_le|]. rewrite length_take. lia.
Qed.
Lemma preflight_passes io frames truncated :
  preflight io frames truncated = None →
  truncated = false ∧ frames ≠ [] ∧ foldr Z.add 0 (map m_size frames) ≤ MAX_BUILD_INPUT_BYTES ∧
  ∃ free, s_free io = Some free ∧
    foldr Z.add 0 (map m_size frames) + 16 * Z.of_nat (length frames) + 4096 + MIN_FREE_MARGIN_BYTES ≤ free.
Proof.
  unfold preflight. destruct truncated; [done|]. destruct (Z.eqb_spec (Z.of_nat (length frames)) 0); [done|].
  case_match; [done|]. case_match eqn:Hin; [done|]. destruct (s_free io) as [free|]; [|done].
  case_match eqn:Hfree; [done|]. intros _. apply Z.ltb_ge in Hin, Hfree. split_and!; [done| |done|].
  - by intros ->.
  - exists free. split; [done|]. lia.
Qed.
Lemma preflight_code io frames truncated reason c id :
  (length frames ≤ MAX_SCAN_ENTRIES)%nat → preflight io frames truncated = Some (reason, c, id) →
  c ≠ too_many_frames ∧ c ≠ failed.
Proof.
  intros Hl. unfold preflight.
  assert ((MAX_BUILD_FRAMES <? Z.of_nat (length frames)) = false) as ->.
  { apply Z.ltb_ge. unfold MAX_BUILD_FRAMES, MAX_SCAN_ENTRIES in *. lia. }
  repeat case_match; intros; simplify_eq; done.
Qed.
Lemma acquire_lockfile io w :
  (_acquire_lock io w).1 = true →
  w_lockfile w = None ∨ ∃ m, w_lockfile w = Some m ∧ LOCK_STALE_SECONDS < s_now io - m.
Proof.
  unfold _acquire_lock. destruct (w_lock_held w); [done|]. destruct (w_lockfile w) as [m|] eqn:Hf; [|by left].
  cbn [_try_create_lock _lock_is_stale]. destruct (Z.ltb_spec LOCK_STALE_SECONDS (s_now io - m)); [|done]. right. eauto.
Qed.
Lemma start_locked_gates io args source target frames truncated w :
  Inv w → (length frames ≤ MAX_SCAN_ENTRIES)%nat →
  let '(r, w') := start_locked io args source target frames truncated w in
  match r with
  | inr j =>
      ∃ t, truncated = false ∧ frames ≠ [] ∧ (length frames ≤ MAX_SCAN_ENTRIES)%nat ∧
        foldr Z.add 0 (map m_size frames) ≤ MAX_BUILD_INPUT_BYTES ∧
        (∃ free, s_free io = Some free ∧
           foldr Z.add 0 (map m_size frames) + 16 * Z.of_nat (length frames) + 4096 + MIN_FREE_MARGIN_BYTES ≤ free) ∧
        (w_lockfile w = None ∨ ∃ m, w_lockfile w = Some m ∧ LOCK_STALE_SECONDS < s_now io - m) ∧
        w_threads w = [] ∧ w_threads w' = [t] ∧ t_names t = map m_name frames ∧ t_job t = j_id j
  | inl (_, c, _) => c ≠ too_many_frames ∧ w_threads w' = w_threads w ∧ w_lock_held w' = w_lock_held w ∧
        (c ≠ failed → w_jobs w' = w_jobs w ∧ w_order w' = w_order w) ∧ (w_threads w ≠ [] → c = busy)
  end.
Proof.
  intros HI Hl. unfold start_locked. destruct (_active_job_locked w) as [id|] eqn:Hact; [by split_and!|].
  destruct (active_none w HI Hact) as [Hth _].
  destruct (preflight io frames truncated) as [[[reason c] id]|] eqn:Hpre.
  { destruct (preflight_code io frames truncated reason c id Hl Hpre). by split_and!. }
  destruct (preflight_passes io frames truncated Hpre) as (Htr & Hne & Hin & Hfree).
  pose proof (acquire_effect io w) as Ha. pose proof (acquire_lockfile io w) as Hlf.
  destruct (_acquire_lock io w) as [got w1]. destruct Ha as (f & -> & Hheld). cbn [fst] in Hlf.
  destruct got; cbn [negb]; [|open_world w; by split_and!]. specialize (Hheld eq_refl).
  destruct (_prune_locked _ _) as [order jobs]. destruct (s_spawn io); cbn [negb].
  - open_world w. cbn in *. subst th. eexists. split_and!; try done. by apply Hlf.
  - unfold _release_lock_locked. open_world w. cbn in *. subst th. destruct (s_unlink io); by split_and!.
Qed.

(** A build starts only when no build is active, the frames of the directory or
    session pass every gate (at least one, all of them seen, within the input limit and
    the free space), and the lock file is free or stale; its thread gets all of these
    frames in order.  A refusal leaves the threads, the lock and (unless the thread failed
    to start) the history as they were.  The gate on the number of frames never decides: a directory
    with more entries than the scan limit is refused as truncated before. *)
Theorem start_gates io args session w :
  Inv w →
  let source := match session with
                | None => Some (s_dir io)
                | Some s => session_dir (s_dir io) s ≫= s_sub io
                end in
  let '(r, w') := start io args session w in
  match r with
  | inr j =>
      ∃ frames t, catalog_frames source = (frames, false) ∧ frames ≠ [] ∧ (length frames ≤ MAX_SCAN_ENTRIES)%nat ∧
        foldr Z.add 0 (map m_size frames) ≤ MAX_BUILD_INPUT_BYTES ∧
        (∃ free, s_free io = Some free ∧
           foldr Z.add 0 (map m_size frames) + 16 * Z.of_nat (length frames) + 4096 + MIN_FREE_MARGIN_BYTES ≤ free) ∧
        (w_lockfile w = None ∨ ∃ m, w_lockfile w = Some m ∧ LOCK_STALE_SECONDS < s_now io - m) ∧
        w_threads w = [] ∧ w_threads w' = [t] ∧ t_names t = map m_name frames ∧ t_job t = j_id j
  | inl (_, c, _) => c ≠ too_many_frames ∧ w_threads w' = w_threads w ∧ w_lock_held w' = w_lock_held w ∧
        (c ≠ failed → w_jobs w' = w_jobs w ∧ w_order w' = w_order w) ∧
        (w_threads w ≠ [] → c = busy ∨ c = bad_session)
  end.
Proof.
  intros HI source. subst source. unfold start. destruct session as [s|].
  - destruct (session_dir (s_dir io) s) as [path|]; [cbn [mbind option_bind]|split_and!; [done..|by right]].
    pose proof (catalog_frames_length (s_sub io path)) as Hl. destruct (catalog_frames _) as [frames truncated].
    pose proof (start_locked_gates io args (Some path) (Some (s ++ AVI_SUFFIX)) frames truncated w HI Hl) as Hg.
    destruct (start_locked _ _ _ _ _ _ _) as [[[[? c] ?]|j] w']; [naive_solver|].
    destruct Hg as (t & -> & Hg). by exists frames, t.
  - pose proof (catalog_frames_length (Some (s_dir io))) as Hl. destruct (catalog_frames _) as [frames truncated].
    pose proof (start_locked_gates io args None None frames truncated w HI Hl) as Hg.
    destruct (start_locked _ _ _ _ _ _ _) as [[[[? c] ?]|j] w']; [naive_solver|].
    destruct Hg as (t & -> & Hg). by exists frames, t.
Qed.
Lemma start_gates_witness :
  let '(r, w') := start (demo_io 1) demo_args (Some (u session_a)) world0 in
  match r with inr j => ∃ t, w_threads w' = [t] ∧ t_job t = j_id j | inl _ => False end.
Proof.
  pose proof (start_gates (demo_io 1) demo_args (Some (u session_a)) world0 world0_inv) as Hg.
  destruct (start (demo_io 1) demo_args (Some (u session_a)) world0) as [[r|j] w'] eqn:Hs; [by vm_compute in Hs|].
  destruct Hg as (frames & t & _ & _ & _ & _ & _ & _ & _ & Ht & _ & Hj). eauto.
Defined.
