(* ===== verification/AdminAuth.v ===== *)
(** [app/admin_auth.py], first part: password hashes, sessions with idle and absolute
    expiry, and cookies.  scrypt and the source of random tokens are arguments; times
    are integers of one unit of the monotonic clock. *)
From S2P Require Import Prelude PyValue.

(** ** Base64 ([base64] of the standard library, strict decoding) *)

Definition b64_char (v : Z) : Z :=
  if v <? 26 then 65 + v else if v <? 52 then 71 + v else if v <? 62 then v - 4 else if v =? 62 then 43 else 47.
Definition b64_value (c : Z) : option Z :=
  if in_range 65 90 c then Some (c - 65)
  else if in_range 97 122 c then Some (c - 71)
  else if in_range 48 57 c then Some (c + 4)
  else if c =? 43 then Some 62
  else if c =? 47 then Some 63
  else None.

Fixpoint b64encode (b : bytes) : pystr :=
  match b with
  | [] => []
  | [x] => [b64_char (x / 4); b64_char (x mod 4 * 16); 61; 61]
  | [x; y] => [b64_char (x / 4); b64_char (x mod 4 * 16 + y / 16); b64_char (y mod 16 * 4); 61]
  | x :: y :: z :: b =>
      b64_char (x / 4) :: b64_char (x mod 4 * 16 + y / 16) :: b64_char (y mod 16 * 4 + z / 64) ::
      b64_char (z mod 64) :: b64encode b
  end.
Fixpoint b64decode (s : pystr) : option bytes :=
  match s with
  | [] => Some []
  | c1 :: c2 :: c3 :: c4 :: s =>
      v1 ← b64_value c1;
      v2 ← b64_value c2;
      let b1 := v1 * 4 + v2 / 16 in
      if (c4 =? 61) && bool_decide (s = []) then
        if c3 =? 61 then Some [b1]
        else v3 ← b64_value c3; Some [b1; v2 mod 16 * 16 + v3 / 4]
      else
        v3 ← b64_value c3;
        v4 ← b64_value c4;
        rest ← b64decode s;
        Some (b1 :: (v2 mod 16 * 16 + v3 / 4) :: (v3 mod 4 * 64 + v4) :: rest)
  | _ => None
  end.

(** ** Passwords *)

Definition SCRYPT_N := 2 ^ 14.
Definition SCRYPT_R := 8.
Definition SCRYPT_P := 1.
Definition SCRYPT_DKLEN := 32.
Definition SCRYPT_SALT_BYTES := 16.
Definition _MAX_SCRYPT_N := 2 ^ 15.
Definition _MAX_SCRYPT_R := 16.
Definition _MAX_SCRYPT_P := 4.
Definition _MAX_SCRYPT_DIGEST := 64.
Definition _MAX_SCRYPT_SALT := 64.
Definition MIN_PASSWORD_LENGTH := 8.
Definition MAX_PASSWORD_LENGTH := 1024.

Definition len {A} (l : list A) : Z := Z.of_nat (length l).
#[global] Arguments len : simpl never.

Definition _maxmem (n r : Z) : Z := 128 * n * r * 2.

Definition _valid_password_input (password : pyval) : option pystr :=
  match password with
  | VStr s => if (0 <? len s) && (len s <=? MAX_PASSWORD_LENGTH) then Some s else None
  | _ => None
  end.

(** The arguments of one [hashlib.scrypt] call. *)
Record scrypt_call := {
  sc_password : bytes; sc_salt : bytes; sc_n : Z; sc_r : Z; sc_p : Z; sc_dklen : Z; sc_maxmem : Z;
}.

Section Passwords.
Context `{UnicodeDB} (scrypt : scrypt_call → option bytes).

(** [salt] is what [secrets.token_bytes] returned. *)
Definition hash_password (salt : bytes) (password : pyval) : res pystr :=
  match _valid_password_input password with
  | None => Raise ValueError
  | Some s =>
      match utf8_encode s with
      | None => Raise ValueError
      | Some raw =>
          match scrypt {| sc_password := raw; sc_salt := salt; sc_n := SCRYPT_N; sc_r := SCRYPT_R; sc_p := SCRYPT_P;
                          sc_dklen := SCRYPT_DKLEN; sc_maxmem := _maxmem SCRYPT_N SCRYPT_R |} with
          | None => Raise OtherError
          | Some digest =>
              Ret (u "scrypt$" ++ str_of_int SCRYPT_N ++ u "$" ++ str_of_int SCRYPT_R ++ u "$" ++ str_of_int SCRYPT_P ++
                   u "$" ++ b64encode salt ++ u "$" ++ b64encode digest)
          end
      end
  end.

(** The numbers, salt and digest of an encoded hash. *)
Definition parse_hash (encoded : pyval) : option (Z * Z * Z * bytes * bytes) :=
  match encoded with
  | VStr text =>
      match split_on 36 text with
      | [tag; n; r; p; salt; expected] =>
          if negb (bool_decide (tag = u "scrypt")) then None
          else
            n ← int_of_str n; r ← int_of_str r; p ← int_of_str p;
            salt ← b64decode salt; expected ← b64decode expected;
            Some (n, r, p, salt, expected)
      | _ => None
      end
  | _ => None
  end.
Definition within (lo hi v : Z) : bool := (lo <? v) && (v <=? hi).

Definition verify_password (password encoded : pyval) : bool :=
  match _valid_password_input password with
  | None => false
  | Some s =>
      match parse_hash encoded with
      | None => false
      | Some (n, r, p, salt, expected) =>
          if negb (within 0 _MAX_SCRYPT_N n && within 0 _MAX_SCRYPT_R r && within 0 _MAX_SCRYPT_P p) then false
          else if negb (within 0 _MAX_SCRYPT_SALT (len salt) && within 0 _MAX_SCRYPT_DIGEST (len expected)) then false
          else
            match utf8_encode s with
            | None => false
            | Some raw =>
                match scrypt {| sc_password := raw; sc_salt := salt; sc_n := n; sc_r := r; sc_p := p;
                                sc_dklen := len expected; sc_maxmem := _maxmem n r |} with
                | None => false
                | Some actual => bool_decide (actual = expected)
                end
            end
      end
  end.

Definition reauth_ok (session password encoded : pyval) : bool := truthy session && verify_password password encoded.
End Passwords.

Inductive strength := NotText | Blank | TooShort | TooLong | Ok.
Definition password_strength_ok (password : pyval) : bool * strength :=
  match password with
  | VStr s =>
      if bool_decide (strip s = []) then (false, Blank)
      else if len s <? MIN_PASSWORD_LENGTH then (false, TooShort)
      else if MAX_PASSWORD_LENGTH <? len s then (false, TooLong)
      else (true, Ok)
  | _ => (false, NotText)
  end.

(** ** Sessions *)

Record session := { s_csrf : pystr; s_created : Z; s_last_seen : Z; s_idle_ttl : Z; s_absolute_ttl : Z }.

(** The table, in the order of insertion, and how many random tokens were drawn. *)
Record SessionStore := {
  idle_ttl : Z;
  absolute_ttl : Z;
  max_sessions : Z;
  sessions : list (pystr * session);
  drawn : nat;
}.

Definition dict_del {V} (k : pystr) (d : list (pystr * V)) : list (pystr * V) := filter (λ e, e.1 ≠ k) d.

Definition expired (now : Z) (s : session) : bool :=
  (s_absolute_ttl s <=? now - s_created s) || (s_idle_ttl s <=? now - s_last_seen s).
Definition prune_sessions (now : Z) (l : list (pystr * session)) : list (pystr * session) :=
  List.filter (λ e, negb (expired now e.2)) l.

(** [min(d, key=last_seen)]: the first of the oldest. *)
Fixpoint oldest (l : list (pystr * session)) : option (pystr * session) :=
  match l with
  | [] => None
  | e :: l =>
      match oldest l with
      | Some o => if s_last_seen o.2 <? s_last_seen e.2 then Some o else Some e
      | None => Some e
      end
  end.
Definition _evict_oldest (l : list (pystr * session)) : list (pystr * session) :=
  match oldest l with Some o => dict_del o.1 l | None => l end.

Section Sessions.
(** [secrets.token_urlsafe(32)], call by call. *)
Context (draw : nat → pystr).

(** [while token in self._sessions]; [None] when the fuel runs out. *)
Fixpoint fresh_token (fuel : nat) (i : nat) (l : list (pystr * session)) : option (pystr * nat) :=
  match fuel with
  | O => None
  | S fuel => if dict_get (draw i) l is Some _ then fresh_token fuel (S i) l else Some (draw i, S i)
  end.

Definition create (fuel : nat) (now : Z) (idle absolute : option Z) (st : SessionStore) : option (pystr * SessionStore) :=
  let l := prune_sessions now (sessions st) in
  match fresh_token fuel (drawn st) l with
  | None => None
  | Some (token, i) =>
      let record := {| s_csrf := draw i; s_created := now; s_last_seen := now;
                       s_idle_ttl := default (idle_ttl st) idle; s_absolute_ttl := default (absolute_ttl st) absolute |} in
      let l := dict_set token record l in
      let l := if max_sessions st <? len l then _evict_oldest l else l in
      Some (token, st{{sessions := l; drawn := S i}})
  end.

Definition validate (token : pyval) (now : Z) (st : SessionStore) : bool * SessionStore :=
  match token with
  | VStr t =>
      match dict_get t (sessions st) with
      | None => (false, st)
      | Some r =>
          if s_absolute_ttl r <=? now - s_created r then (false, st{{sessions := dict_del t (sessions st)}})
          else if s_idle_ttl r <=? now - s_last_seen r then (false, st{{sessions := dict_del t (sessions st)}})
          else (true, st{{sessions := dict_set t (r{{s_last_seen := now}}) (sessions st)}})
      end
  | _ => (false, st)
  end.

Definition revoke (token : pystr) (st : SessionStore) : bool * SessionStore :=
  match dict_get token (sessions st) with
  | Some _ => (true, st{{sessions := dict_del token (sessions st)}})
  | None => (false, st)
  end.
Definition revoke_all (st : SessionStore) : SessionStore := st{{sessions := [] }}.
Definition count (st : SessionStore) : Z := len (sessions st).

Definition csrf_for (token : pyval) (st : SessionStore) : option pystr :=
  match token with VStr t => s_csrf <$> dict_get t (sessions st) | _ => None end.
(** [hmac.compare_digest] of two strings raises on text that is not ASCII. *)
Definition compare_digest (a b : pystr) : res bool :=
  if ascii_text a && ascii_text b then Ret (bool_decide (a = b)) else Raise TypeError.
Definition validate_csrf (token csrf : pyval) (st : SessionStore) : res bool :=
  match csrf with
  | VStr c => match csrf_for token st with None => Ret false | Some expected => compare_digest expected c end
  | _ => Ret false
  end.
End Sessions.

(** ** Hash and verify *)

Lemma b64_char_value v : 0 ≤ v < 64 → b64_value (b64_char v) = Some v ∧ b64_char v ≠ 61 ∧ b64_char v ≠ 36.
Proof.
  intros Hv. unfold b64_char, b64_value.
  destruct (Z.ltb_spec v 26); [|destruct (Z.ltb_spec v 52); [|destruct (Z.ltb_spec v 62); [|destruct (Z.eqb_spec v 62)]]];
    repeat match goal with |- context [in_range ?a ?b ?c] =>
      let E := fresh in destruct (in_range a b c) eqn:E; rewrite ?in_range_spec, ?in_range_false in E; try (exfalso; lia) end;
    (split; [|lia]); try (f_equal; lia); subst; try done.
Qed.

Definition octets (b : bytes) : Prop := Forall (λ x, 0 ≤ x < 256) b.

(** Induction by groups of three. *)
Lemma groups3_ind (P : bytes → Prop) :
  P [] → (∀ x, P [x]) → (∀ x y, P [x; y]) → (∀ x y z b, P b → P (x :: y :: z :: b)) → ∀ b, P b.
Proof.
  intros H0 H1 H2 H3 b. assert (P b ∧ (∀ x, P (x :: b)) ∧ ∀ x y, P (x :: y :: b)) as [? _]; [|done].
  induction b as [|c b (IH & IH1 & IH2)]; [auto|]. auto.
Qed.

#[local] Ltac Zify.zify_post_hook ::= Z.to_euclidean_division_equations.
Lemma b64_roundtrip b : octets b → b64decode (b64encode b) = Some b ∧ Forall (λ c, c ≠ 36) (b64encode b).
Proof.
  induction b as [|x|x y|x y z b IH] using groups3_ind; intros Hb; unfold octets in Hb;
    rewrite ?Forall_cons in Hb; cbn [b64encode b64decode]; [done| | |].
  - destruct Hb as [Hx _]. destruct (b64_char_value (x / 4)) as (-> & _ & ?); [lia|].
    destruct (b64_char_value (x mod 4 * 16)) as (-> & _ & ?); [lia|]. cbn.
    split; [do 2 f_equal; lia|]. by repeat constructor.
  - destruct Hb as (Hx & Hy & _). destruct (b64_char_value (x / 4)) as (-> & _ & ?); [lia|].
    destruct (b64_char_value (x mod 4 * 16 + y / 16)) as (-> & _ & ?); [lia|].
    destruct (b64_char_value (y mod 16 * 4)) as (Hv & ? & ?); [lia|]. cbn. rewrite (proj2 (Z.eqb_neq _ _)), Hv by done. cbn.
    split; [do 2 f_equal; [lia|f_equal; lia]|]. by repeat constructor.
  - destruct Hb as (Hx & Hy & Hz & Hb). destruct (IH Hb) as [-> Hall].
    destruct (b64_char_value (x / 4)) as (-> & _ & ?); [lia|].
    destruct (b64_char_value (x mod 4 * 16 + y / 16)) as (-> & _ & ?); [lia|].
    destruct (b64_char_value (y mod 16 * 4 + z / 64)) as (-> & _ & ?); [lia|].
    destruct (b64_char_value (z mod 64)) as (-> & Hne & ?); [lia|]. cbn.
    rewrite (proj2 (Z.eqb_neq (b64_char (z mod 64)) 61)) by done. cbn.
    split; [do 2 f_equal; [lia|f_equal; [lia|f_equal; lia]]|]. by repeat constructor.
Qed.
#[local] Ltac Zify.zify_post_hook ::= idtac.

(** What is relied on of [hashlib.scrypt]: it returns as many bytes as asked, and it
    accepts the module's own work factors. *)
Class ScryptOk (scrypt : scrypt_call → option bytes) : Prop := {
  scrypt_length c d : scrypt c = Some d → 0 < sc_dklen c → len d = sc_dklen c ∧ octets d;
  scrypt_accepts pw salt : is_Some (scrypt {| sc_password := pw; sc_salt := salt; sc_n := SCRYPT_N; sc_r := SCRYPT_R;
    sc_p := SCRYPT_P; sc_dklen := SCRYPT_DKLEN; sc_maxmem := _maxmem SCRYPT_N SCRYPT_R |});
}.

Section Hashing.
Context `{UnicodeDB} (scrypt : scrypt_call → option bytes) `{!ScryptOk scrypt}.

Lemma parse_hash_text salt digest :
  octets salt → octets digest →
  parse_hash (VStr (u "scrypt$" ++ str_of_int SCRYPT_N ++ u "$" ++ str_of_int SCRYPT_R ++ u "$" ++ str_of_int SCRYPT_P ++
                    u "$" ++ b64encode salt ++ u "$" ++ b64encode digest)) =
  Some (SCRYPT_N, SCRYPT_R, SCRYPT_P, salt, digest).
Proof.
  intros Hs Hd. destruct (b64_roundtrip salt Hs) as [Es Fs], (b64_roundtrip digest Hd) as [Ed Fd]. unfold parse_hash.
  change (u "scrypt$") with (u "scrypt" ++ [36]). change (u "$") with [36]. rewrite <-!app_assoc. cbn [app].
  rewrite !split_on_app by (done || (vm_compute; repeat (constructor; [discriminate|]); constructor)).
  rewrite split_on_none by done. rewrite bool_decide_true by done. cbn [negb].
  assert (∀ z, ascii_text (strip (str_of_int z)) = true → @int_of_str ascii_db (str_of_int z) = Some z →
            int_of_str (str_of_int z) = Some z) as Hint by (intros z Hz <-; by apply int_of_str_ascii).
  rewrite (Hint SCRYPT_N), (Hint SCRYPT_R), (Hint SCRYPT_P) by (vm_compute; reflexivity).
  cbn [mbind option_bind]. by rewrite Es, Ed.
Qed.

(** A password verifies against its own hash, and against nothing else that
    scrypt does not confirm.  Every password of 1 to 1024 encodable characters has a
    hash; [verify_password] accepts it, and rejects another password unless scrypt
    gives both the same digest for that salt. *)
Theorem hash_verifies salt s raw :
  octets salt → 0 < len salt ≤ _MAX_SCRYPT_SALT →
  _valid_password_input (VStr s) = Some s → utf8_encode s = Some raw →
  ∃ encoded digest, hash_password scrypt salt (VStr s) = Ret encoded ∧
    verify_password scrypt (VStr s) (VStr encoded) = true ∧
    ∀ other raw', utf8_encode other = Some raw' → verify_password scrypt (VStr other) (VStr encoded) = true →
      let call pw := {| sc_password := pw; sc_salt := salt; sc_n := SCRYPT_N; sc_r := SCRYPT_R; sc_p := SCRYPT_P;
                        sc_dklen := SCRYPT_DKLEN; sc_maxmem := _maxmem SCRYPT_N SCRYPT_R |} in
      scrypt (call raw') = Some digest ∧ scrypt (call raw) = Some digest.
Proof.
  intros Hsalt Hlen Hv Hraw. destruct (scrypt_accepts raw salt) as [digest Hd].
  destruct (scrypt_length _ _ Hd) as [Hdl Hdo]; [done|]. cbn in Hdl. unfold hash_password. rewrite Hv, Hraw, Hd.
  eexists _, digest. split; [reflexivity|].
  assert (∀ t, verify_password scrypt (VStr t) (VStr (u "scrypt$" ++ str_of_int SCRYPT_N ++ u "$" ++ str_of_int SCRYPT_R ++
      u "$" ++ str_of_int SCRYPT_P ++ u "$" ++ b64encode salt ++ u "$" ++ b64encode digest)) =
    match _valid_password_input (VStr t), utf8_encode t with
    | Some _, Some r => bool_decide (scrypt {| sc_password := r; sc_salt := salt; sc_n := SCRYPT_N; sc_r := SCRYPT_R;
        sc_p := SCRYPT_P; sc_dklen := SCRYPT_DKLEN; sc_maxmem := _maxmem SCRYPT_N SCRYPT_R |} = Some digest)
    | _, _ => false
    end) as Hver.
  { intros t. unfold verify_password. rewrite parse_hash_text by done.
    destruct (_valid_password_input (VStr t)) as [t'|] eqn:Ht; [|done].
    assert (t' = t) as -> by (unfold _valid_password_input in Ht; case_match; congruence).
    change (within 0 _MAX_SCRYPT_N SCRYPT_N && within 0 _MAX_SCRYPT_R SCRYPT_R && within 0 _MAX_SCRYPT_P SCRYPT_P) with true.
    unfold within. rewrite Hdl, (proj2 (Z.ltb_lt _ _)), (proj2 (Z.leb_le _ _)) by lia. cbn [negb andb].
    destruct (utf8_encode t) as [r|]; [|done].
    change (negb ((0 <? SCRYPT_DKLEN) && (SCRYPT_DKLEN <=? _MAX_SCRYPT_DIGEST))) with false. cbn [andb].
    clear Hd. destruct (scrypt _) as [d|]; [|by rewrite bool_decide_false]. apply bool_decide_ext. naive_solver. }
  rewrite !Hver, Hv, Hraw, Hd, bool_decide_true by done. split; [done|].
  intros other raw' Hr. rewrite Hver, Hr. destruct (_valid_password_input (VStr other)); [|done].
  intros Hb%bool_decide_eq_true. done.
Qed.
End Hashing.

(** A toy function with the stated behaviour. *)
Definition toy_scrypt (c : scrypt_call) : option bytes :=
  Some (map (λ i, Z.of_nat (i + length (sc_password c)) mod 256) (seq 0 (Z.to_nat (sc_dklen c)))).
#[export] Instance toy_scrypt_ok : ScryptOk toy_scrypt.
Proof.
  split; [|by eexists]. intros c d [= <-] Hp. unfold len. rewrite length_map, length_seq. split; [lia|].
  apply Forall_map, Forall_true. intros i. apply Z.mod_pos_bound. lia.
Qed.

Lemma hash_verifies_witness :
  ∃ encoded, hash_password toy_scrypt [1; 2; 3] (VStr (u "correct horse")) = Ret encoded ∧
    verify_password (H := ascii_db) toy_scrypt (VStr (u "correct horse")) (VStr encoded) = true.
Proof.
  destruct (hash_verifies (H := ascii_db) toy_scrypt [1; 2; 3] (u "correct horse") (u "correct horse"))
    as (e & d & He & Hv & _); [by repeat constructor|done|reflexivity|reflexivity|]. by exists e.
Defined.

(** ** What a live session means *)

(** The history of a store. *)
Inductive sevent :=
  | Created (token : pystr) (at_ : Z) (idle absolute : Z)
  | Used (token : pystr) (at_ : Z)
  | Refused
  | Revoked (token : pystr)
  | RevokedAll.
Inductive sop :=
  | OCreate (now : Z) (idle absolute : option Z)
  | OValidate (token : pyval) (now : Z)
  | ORevoke (token : pystr)
  | ORevokeAll.

Lemma dict_del_elem {V} k (d : list (pystr * V)) e : e ∈ dict_del k d ↔ e.1 ≠ k ∧ e ∈ d.
Proof. unfold dict_del. by rewrite list_elem_of_filter. Qed.
Lemma dict_del_keys {V} k (d : list (pystr * V)) : NoDup d.*1 → NoDup (dict_del k d).*1.
Proof.
  unfold dict_del. induction d as [|e d IH]; [done|]. rewrite fmap_cons, NoDup_cons, filter_cons. intros [He Hd].
  case_decide; [|by apply IH]. rewrite fmap_cons, NoDup_cons. split; [|by apply IH].
  intros (x & Hx & [_ Hin]%list_elem_of_filter)%list_elem_of_fmap. apply He. rewrite Hx. by apply list_elem_of_fmap_2.
Qed.
Lemma dict_set_entry {V} k (v : V) (d : list (pystr * V)) e :
  NoDup d.*1 → e ∈ dict_set k v d → e = (k, v) ∨ e.1 ≠ k ∧ e ∈ d.
Proof.
  induction d as [|[k' v'] d IH]; simpl; [intros _ ->%list_elem_of_singleton; by left|].
  rewrite NoDup_cons. intros [Hk Hd]. case_decide as Hc.
  - subst. intros [->|Hin]%elem_of_cons; [by left|]. right. split; [|by right].
    intros Heq. apply Hk. rewrite <-Heq. by apply list_elem_of_fmap_2.
  - intros [->|Hin]%elem_of_cons; [right; split; [done|by left]|].
    destruct (IH Hd Hin) as [->|[? ?]]; [by left|]. right. split; [done|by right].
Qed.
Lemma dict_set_nodup {V} k (v : V) (d : list (pystr * V)) : NoDup d.*1 → NoDup (dict_set k v d).*1.
Proof.
  induction d as [|[k' v'] d IH]; simpl; [by intros _; apply NoDup_singleton|].
  rewrite NoDup_cons. intros [Hk Hd]. case_decide as Hc; [subst; by apply NoDup_cons|]. apply NoDup_cons. split; [|by apply IH].
  intros (e & He & Hin)%list_elem_of_fmap. destruct (dict_set_entry k v d e Hd Hin) as [->|[_ Hin']]; [simpl in He; congruence|].
  apply Hk, list_elem_of_fmap. by exists e.
Qed.
Lemma prune_keys now l : NoDup l.*1 → NoDup (prune_sessions now l).*1.
Proof.
  unfold prune_sessions. induction l as [|e l IH]; [done|]. rewrite fmap_cons, NoDup_cons. simpl. intros [He Hl].
  destruct (negb (expired now e.2)); [|by apply IH]. rewrite fmap_cons, NoDup_cons. split; [|by apply IH].
  intros (x & Hx & [Hin%list_elem_of_In _]%list_elem_of_In%filter_In)%list_elem_of_fmap. apply He. rewrite Hx.
  by apply list_elem_of_fmap_2.
Qed.
Lemma oldest_elem l o : oldest l = Some o → o ∈ l ∧ ∀ e, e ∈ l → s_last_seen o.2 ≤ s_last_seen e.2.
Proof.
  revert o. induction l as [|e l IH]; intros o; [done|]. simpl. destruct (oldest l) as [o'|] eqn:Ho.
  - destruct (IH o' eq_refl) as [Hin Hmin]. destruct (Z.ltb_spec (s_last_seen o'.2) (s_last_seen e.2)); intros [= <-].
    + split; [by right|]. intros x [->|Hx]%elem_of_cons; [lia|auto].
    + split; [by left|]. intros x [->|Hx]%elem_of_cons; [lia|]. specialize (Hmin x Hx). lia.
  - intros [= <-]. destruct l as [|e' l]; [|simpl in Ho; by repeat case_match]. split; [by left|].
    intros x ->%list_elem_of_singleton. lia.
Qed.
(** Of equally old sessions the first goes. *)
Lemma oldest_last l e o :
  oldest (l ++ [e]) = Some o → o ∈ l ∨ o = e ∧ ∀ x, x ∈ l → s_last_seen e.2 < s_last_seen x.2.
Proof.
  revert o. induction l as [|a l IH]; intros o; simpl.
  { intros [= <-]. right. split; [done|]. by intros x Hx%elem_of_nil. }
  destruct (oldest (l ++ [e])) as [o'|]; [|intros [= <-]; left; by left].
  destruct (Z.ltb_spec (s_last_seen o'.2) (s_last_seen a.2)); intros [= <-]; [|left; by left].
  destruct (IH o' eq_refl) as [?|[-> Hmin]]; [left; by right|]. right. split; [done|].
  intros x [->|Hx]%elem_of_cons; [lia|auto].
Qed.
Lemma dict_set_length {V} k (v v' : V) (d : list (pystr * V)) :
  dict_get k d = Some v → length (dict_set k v' d) = length d.
Proof. induction d as [|[k' x] d IH]; simpl; [done|]. case_decide; simpl; [done|]. intros ?. by rewrite IH. Qed.
Lemma dict_del_le {V} k (d : list (pystr * V)) : (length (dict_del k d) ≤ length d)%nat.
Proof. apply length_filter. Qed.
Lemma dict_del_length {V} k (d : list (pystr * V)) : k ∈ d.*1 → (length (dict_del k d) < length d)%nat.
Proof.
  intros (e & -> & He)%list_elem_of_fmap. unfold dict_del. apply (length_filter_lt _ _ e He). by intros [].
Qed.

Section Lifetime.
Context (draw : nat → pystr) (Hdraw : ∀ i j, draw i = draw j → i = j).

Definition sstep (o : sop) (st : SessionStore) : option (sevent * SessionStore) :=
  match o with
  | OCreate now idle absolute =>
      match create draw (S (length (sessions st))) now idle absolute st with
      | Some (token, st') =>
          Some (Created token now (default (idle_ttl st) idle) (default (absolute_ttl st) absolute), st')
      | None => None
      end
  | OValidate token now =>
      let '(ok, st') := validate token now st in
      Some (match ok, token with true, VStr t => Used t now | _, _ => Refused end, st')
  | ORevoke token => Some (Revoked token, (revoke token st).2)
  | ORevokeAll => Some (RevokedAll, revoke_all st)
  end.

Inductive shistory (st0 : SessionStore) : list sevent → SessionStore → Prop :=
  | shistory_start : shistory st0 [] st0
  | shistory_step tr st o e st' : shistory st0 tr st → sstep o st = Some (e, st') → shistory st0 (tr ++ [e]) st'.

Definition ends (token : pystr) (e : sevent) : Prop :=
  match e with Revoked t => t = token | RevokedAll => True | _ => False end.
Definition use_of (token : pystr) (t : Z) (e : sevent) : Z :=
  match e with Used t' at_ => if bool_decide (t' = token) then at_ else t | _ => t end.
Definition last_use (token : pystr) : Z → list sevent → Z := foldl (use_of token).

(** A session is what it was created as, has not been ended since, and was last seen
    at its last use. *)
Definition live_since (tr : list sevent) (token : pystr) (r : session) : Prop :=
  ∃ before after, tr = before ++ Created token (s_created r) (s_idle_ttl r) (s_absolute_ttl r) :: after ∧
    Forall (λ e, ¬ ends token e) after ∧ s_last_seen r = last_use token (s_created r) after.

Lemma live_since_next tr token r e :
  live_since tr token r → ¬ ends token e →
  live_since (tr ++ [e]) token (r{{s_last_seen := use_of token (s_last_seen r) e}}).
Proof.
  intros (before & after & -> & Hf & Hl) He. exists before, (after ++ [e]). split; [by rewrite <-app_assoc|].
  split; [apply Forall_app_2; [done|by constructor]|]. cbn. unfold constant, last_use in *. rewrite foldl_app, Hl. done.
Qed.
Lemma live_since_other tr token r e :
  live_since tr token r → ¬ ends token e → use_of token (s_last_seen r) e = s_last_seen r → live_since (tr ++ [e]) token r.
Proof.
  intros Hl He Hu. assert (r = r{{s_last_seen := use_of token (s_last_seen r) e}}) as -> by (rewrite Hu; by destruct r).
  by apply live_since_next.
Qed.

Record store_ok (tr : list sevent) (st : SessionStore) : Prop := {
  keys_unique : NoDup (sessions st).*1;
  all_live : ∀ token r, (token, r) ∈ sessions st → live_since tr token r;
  bounded : len (sessions st) ≤ max_sessions st;
}.

Lemma fresh_token_total fuel i l :
  (length l < fuel)%nat → ∃ token j, fresh_token draw fuel i l = Some (token, j) ∧ token ∉ l.*1.
Proof.
  intros Hf. destruct (fresh_index l.*1 draw i Hdraw) as (k & Hk & Hn). rewrite length_fmap in Hk.
  assert (k < fuel)%nat as Hkf by lia. clear Hf Hk. revert i k Hn Hkf.
  induction fuel as [|fuel IH]; intros i k Hn Hkf; [lia|]. simpl. destruct (dict_get (draw i) l) eqn:Hg.
  - destruct k as [|k]; [rewrite Nat.add_0_r, <-dict_get_None in Hn; congruence|].
    apply (IH (S i) k); [|lia]. by replace (S i + k)%nat with (i + S k)%nat by lia.
  - eexists _, _. split; [done|]. by rewrite <-dict_get_None.
Qed.

(** The table after a creation: some old sessions and the new one, or without it only
    if a later session was there. *)
Lemma create_result now idle absolute st tr :
  store_ok tr st → 1 ≤ max_sessions st →
  ∃ token i l, create draw (S (length (sessions st))) now idle absolute st = Some (token, st{{sessions := l; drawn := S i}}) ∧
    let r := {| s_csrf := draw i; s_created := now; s_last_seen := now;
                s_idle_ttl := default (idle_ttl st) idle; s_absolute_ttl := default (absolute_ttl st) absolute |} in
    NoDup l.*1 ∧ (∀ e, e ∈ l → e = (token, r) ∨ e.1 ≠ token ∧ e ∈ sessions st) ∧ len l ≤ max_sessions st ∧
    ((∀ e, e ∈ sessions st → s_last_seen e.2 ≤ now) → (token, r) ∈ l).
Proof.
  intros [Hnd _ Hb] Hmax. unfold create. set (l0 := prune_sessions now (sessions st)).
  assert (length l0 ≤ length (sessions st))%nat as Hl0 by apply filter_length_le.
  destruct (fresh_token_total (S (length (sessions st))) (drawn st) l0) as (token & i & -> & Hfresh); [lia|].
  set (r := {| s_csrf := draw i; s_created := now; s_last_seen := now; s_idle_ttl := default (idle_ttl st) idle;
               s_absolute_ttl := default (absolute_ttl st) absolute |}).
  rewrite (dict_set_app_fresh token r l0) by (by apply dict_get_None). set (l1 := l0 ++ [(token, r)]).
  assert (NoDup l1.*1) as Hnd1.
  { unfold l1. rewrite fmap_app. apply NoDup_app. split; [by apply prune_keys|]. split; [|apply NoDup_singleton].
    intros k Hk ->%list_elem_of_singleton. done. }
  assert (∀ e, e ∈ l1 → e = (token, r) ∨ e.1 ≠ token ∧ e ∈ sessions st) as Hin1.
  { intros e [He|He%list_elem_of_singleton]%elem_of_app; [right|by left]. split.
    - intros Hk. apply Hfresh. rewrite <-Hk. by apply list_elem_of_fmap_2.
    - apply list_elem_of_In, filter_In in He as [He _]. by apply list_elem_of_In. }
  assert (len l1 = len l0 + 1) as Hl1 by (unfold l1, len; rewrite length_app; simpl; lia). unfold len in *.
  eexists token, i, _. split; [reflexivity|]. cbv zeta.
  destruct (Z.ltb_spec (max_sessions st) (Z.of_nat (length l1))) as [Hgt|Hle].
  2:{ split_and!; [done..|]. intros _. unfold l1. apply elem_of_app. right. by left. }
  unfold _evict_oldest. destruct (oldest l1) as [o|] eqn:Ho.
  2:{ exfalso. destruct l1 as [|? ?] eqn:E; [simpl in *; lia|simpl in Ho; by repeat case_match]. }
  apply oldest_elem in Ho as Hoe. destruct Hoe as [Hoin Homin]. split_and!.
  - by apply dict_del_keys.
  - intros e [_ He]%dict_del_elem. by apply Hin1.
  - pose proof (dict_del_length o.1 l1) as Hlt. specialize (Hlt ltac:(by apply list_elem_of_fmap_2)). lia.
  - intros Hseen. apply dict_del_elem. split; [|unfold l1; apply elem_of_app; right; by left]. simpl. intros Hk.
    destruct (oldest_last l0 (token, r) o Ho) as [Hl|[-> Hmin]].
    + apply Hfresh. rewrite Hk. by apply list_elem_of_fmap_2.
    + destruct l0 as [|x l0'] eqn:E; [simpl in *; lia|]. pose proof (Hmin x ltac:(by left)) as Hx. simpl in Hx.
      destruct (Hin1 x ltac:(unfold l1; by left)) as [->|[_ Hs]]; [simpl in Hx; lia|]. specialize (Hseen x Hs). lia.
Qed.

Lemma sstep_ok tr st o e st' :
  store_ok tr st → 1 ≤ max_sessions st → sstep o st = Some (e, st') →
  store_ok (tr ++ [e]) st' ∧ max_sessions st' = max_sessions st.
Proof.
  intros Hok Hmax. destruct o as [now idle absolute|token now|token|]; cbn [sstep].
  - destruct (create_result now idle absolute st tr Hok Hmax) as (token & i & l & -> & Hnd & Hin & Hb & _).
    destruct Hok as [_ Hlive _]. intros [= <- <-]. split; [split|]; cbn; unfold constant; try done. intros t r Hr.
    destruct (Hin _ Hr) as [[= -> ->]|[Hne Hs]].
    + exists tr, []. split; [done|]. by split.
    + apply live_since_other; [by apply Hlive|by intros []|done].
  - destruct Hok as [Hnd Hlive Hb]. destruct token as [| | | |t| | |];
      try (cbn [validate]; intros [= <- <-]; split; [split|]; try done; intros; apply live_since_other; [by apply Hlive|by intros []|done]).
    cbn [validate]. destruct (dict_get t (sessions st)) as [r|] eqn:Hg.
    2:{ intros [= <- <-]. split; [split|]; try done. intros; apply live_since_other; [by apply Hlive|by intros []|done]. }
    assert (store_ok (tr ++ [Refused]) (st{{sessions := dict_del t (sessions st)}})) as Hdel.
    { split; cbn; unfold constant; [by apply dict_del_keys| |].
      - intros t' r' [_ Hin]%dict_del_elem. apply live_since_other; [by apply Hlive|by intros []|done].
      - change (len (dict_del t (sessions st)) ≤ max_sessions st). pose proof (dict_del_le t (sessions st)). unfold len in *. lia. }
    repeat case_match; intros; simplify_eq; try done. split; [|done]. split; cbn; unfold constant; [by apply dict_set_nodup| |].
    + intros t' r' [Heq|[Hne Hin]]%dict_set_entry; [|simpl in Hne|done].
      * simplify_eq. apply dict_get_Some_elem, Hlive in Hg. apply (live_since_next _ _ _ (Used t now)) in Hg; [|by intros []].
        cbn in Hg. unfold constant in *. by rewrite bool_decide_true in Hg.
      * apply live_since_other; [by apply Hlive|by intros []|]. simpl. by rewrite bool_decide_false.
    + unfold len in *. by rewrite (dict_set_length _ r).
  - destruct Hok as [Hnd Hlive Hb]. intros [= <- <-]. unfold revoke.
    destruct (dict_get token (sessions st)) as [r|] eqn:Hg; cbn [snd].
    + split; [split|done]; cbn; unfold constant; [by apply dict_del_keys| |].
      * intros t' r' [Hne Hin]%dict_del_elem. apply live_since_other; [by apply Hlive| |done].
        simpl in Hne |- *. congruence.
      * change (len (dict_del token (sessions st)) ≤ max_sessions st). pose proof (dict_del_le token (sessions st)).
        unfold len in *. lia.
    + split; [split|]; try done. intros t' r' Hin. apply live_since_other; [by apply Hlive| |done]. simpl. intros ->.
      apply dict_get_None in Hg. apply Hg. by apply (list_elem_of_fmap_2 fst _ (t', r')).
  - intros [= <- <-]. split; [split|done]; cbn; unfold constant; [apply NoDup_nil_2|by intros ? ? ?%elem_of_nil|].
    change (0 ≤ max_sessions st). lia.
Qed.

Lemma shistory_ok st0 tr st :
  sessions st0 = [] → 1 ≤ max_sessions st0 → shistory st0 tr st → store_ok tr st ∧ max_sessions st = max_sessions st0.
Proof.
  intros H0 Hmax. induction 1 as [|tr st o e st' _ [IH Hm] Hs].
  - split; [split|done]; rewrite H0; [apply NoDup_nil_2|by intros ? ? ?%elem_of_nil|unfold len; simpl; lia].
  - destruct (sstep_ok _ _ _ _ _ IH ltac:(lia) Hs) as [? ->]. done.
Qed.

(** C18: a session is accepted only while it should be.  After any history of an
    initially empty store, a token that [validate] accepts was created earlier, less than
    its absolute lifetime ago, was not revoked since, and was last used less than its
    idle time ago; there are never more sessions than the bound; and a new session can
    be created and used at once, if no session was seen in the future. *)
Theorem sessions_sound st0 tr st :
  sessions st0 = [] → 1 ≤ max_sessions st0 → shistory st0 tr st →
  (∀ token now st', validate (VStr token) now st = (true, st') →
     ∃ before t0 idle absolute after, tr = before ++ Created token t0 idle absolute :: after ∧
       Forall (λ e, ¬ ends token e) after ∧ now - t0 < absolute ∧ now - last_use token t0 after < idle) ∧
  count st ≤ max_sessions st0 ∧
  ∀ now idle absolute,
    (∀ e, e ∈ sessions st → s_last_seen e.2 ≤ now) →
    0 < default (idle_ttl st) idle → 0 < default (absolute_ttl st) absolute →
    ∃ token st', create draw (S (length (sessions st))) now idle absolute st = Some (token, st') ∧
                 (validate (VStr token) now st').1 = true.
Proof.
  intros H0 Hmax Hh. destruct (shistory_ok _ _ _ H0 Hmax Hh) as [Hok Hm]. split; [|split].
  - intros token now st'. cbn [validate]. destruct (dict_get token (sessions st)) as [r|] eqn:Hg; [|done].
    destruct (Z.leb_spec (s_absolute_ttl r) (now - s_created r)); [done|].
    destruct (Z.leb_spec (s_idle_ttl r) (now - s_last_seen r)) as [|Hi]; [done|]. intros _.
    destruct (all_live _ _ Hok token r) as (before & after & -> & Hf & Hl); [by apply dict_get_Some_elem|].
    rewrite Hl in Hi. by exists before, (s_created r), (s_idle_ttl r), (s_absolute_ttl r), after.
  - rewrite <-Hm. apply (bounded _ _ Hok).
  - intros now idle absolute Hseen Hi Ha.
    destruct (create_result now idle absolute st tr Hok ltac:(lia)) as (token & i & l & -> & Hnd & _ & _ & Hin).
    eexists token, _. split; [reflexivity|]. specialize (Hin Hseen). apply dict_get_elem in Hin; [|done].
    cbn [validate]. change (sessions (st{{sessions := l; drawn := S i}})) with l. rewrite Hin. cbn [s_absolute_ttl s_created s_idle_ttl s_last_seen].
    rewrite !(proj2 (Z.leb_gt _ _)) by lia. done.
Qed.
End Lifetime.

Definition numbered (i : nat) : pystr := str_of_int (Z.of_nat i).
Definition empty_store : SessionStore :=
  {| idle_ttl := 1800; absolute_ttl := 43200; max_sessions := 256; sessions := []; drawn := 0 |}.

Lemma sessions_sound_witness :
  ∃ token st', create numbered 1 0 None None empty_store = Some (token, st') ∧ (validate (VStr token) 0 st').1 = true.
Proof.
  destruct (sessions_sound numbered) with (st0 := empty_store) (tr := @nil sevent) (st := empty_store) as (_ & _ & Hc).
  - intros i j Hij. apply (f_equal decimal) in Hij. unfold numbered in Hij. rewrite !decimal_str_of_int in Hij by lia. lia.
  - reflexivity.
  - vm_compute. discriminate.
  - constructor.
  - apply (Hc 0 None None); [by intros e He%elem_of_nil|reflexivity|reflexivity].
Defined.

(** ** Cookies *)

Definition SESSION_COOKIE_NAME : pystr := u "prusa_admin_session".
Definition SESSION_SAMESITE : pystr := u "Lax".
Definition cookie_parts (first : pystr) (max_age : Z) (secure : bool) : list pystr :=
  [first; u "Path=/"; u "Max-Age=" ++ str_of_int max_age; u "HttpOnly"; u "SameSite=" ++ SESSION_SAMESITE] ++
  (if secure then [u "Secure"] else []).
(** ['; '.join(parts)]. *)
Definition join_parts (parts : list pystr) : pystr :=
  match parts with [] => [] | p :: rest => p ++ concat (map (λ x, u "; " ++ x) rest) end.
Definition session_cookie (token : pyval) (max_age : Z) (secure : bool) : res pystr :=
  match token with
  | VStr ((_ :: _) as t) => Ret (join_parts (cookie_parts (SESSION_COOKIE_NAME ++ u "=" ++ t) max_age secure))
  | _ => Raise ValueError
  end.
Definition clear_session_cookie (secure : bool) : pystr :=
  join_parts (cookie_parts (SESSION_COOKIE_NAME ++ u "=") 0 secure).
