(* ===== verification/LoginLimiter.v ===== *)
(** [app/admin_auth.py], second part: the login rate limiter, with the protocol of
    [app/admin_http.py] that uses it, against a specification that forgets nothing. *)
From S2P Require Import Prelude PyValue AdminAuth.

(** ** The login rate limiter *)

Record attempts := { failures : list Z; locked_until : Z; streak : Z }.
Record LoginRateLimiter := {
  max_attempts : Z;
  window : Z;
  lockout : Z;
  max_lockout : Z;
  max_keys : Z;
  entries : list (pystr * attempts);
}.

Definition recent (w now : Z) (l : list Z) : list Z := List.filter (λ t, now - t <? w) l.

(** One entry of [_prune]: trimmed, or dropped. *)
Definition prune_entry (w now : Z) (a : attempts) : option attempts :=
  let fs := recent w now (failures a) in
  if bool_decide (fs = []) && (locked_until a <=? now) then None else Some (a{{failures := fs}}).
Definition _activity (a : attempts) : Z := Z.max (default 0 (last (failures a))) (locked_until a).
Definition activity_le (x y : pystr * attempts) : Prop := _activity x.2 ≤ _activity y.2.
#[export] Instance activity_le_dec x y : Decision (activity_le x y) := decide (_ ≤ _).

Definition _prune (now : Z) (l : LoginRateLimiter) : LoginRateLimiter :=
  let es := omap (λ e, (λ a, (e.1, a)) <$> prune_entry (window l) now e.2) (entries l) in
  let extra := len es - max_keys l in
  let es := if 0 <? extra
            then let gone := (take (Z.to_nat extra) (merge_sort activity_le es)).*1 in filter (λ e, e.1 ∉ gone) es
            else es in
  l{{entries := es}}.

Definition check (key : pystr) (now : Z) (l : LoginRateLimiter) : (bool * Z) * LoginRateLimiter :=
  let l := _prune now l in
  (match dict_get key (entries l) with
   | Some a => if now <? locked_until a then (false, locked_until a - now) else (true, 0)
   | None => (true, 0)
   end, l).

(** The threshold part of [record_failure]; a power of two that no float holds raises. *)
Definition lock_if_due (l : LoginRateLimiter) (now : Z) (a : attempts) : res attempts * attempts :=
  if max_attempts l <=? len (failures a) then
    let a := a{{streak := streak a + 1}} in
    if 1024 <=? streak a - 1 then (Raise OtherError, a)
    else (Ret (a{{locked_until := now + Z.min (lockout l * 2 ^ (streak a - 1)) (max_lockout l)}}), a)
  else (Ret a, a).

Definition record_failure (key : pystr) (now : Z) : PyM LoginRateLimiter unit := λ l,
  let a := default {| failures := []; locked_until := 0; streak := 0 |} (dict_get key (entries l)) in
  let a := a{{failures := recent (window l) now (failures a ++ [now])}} in
  match lock_if_due l now a with
  | (Raise e, a) => (Raise e, l{{entries := dict_set key a (entries l)}})
  | (Ret a, _) => (Ret tt, _prune now (l{{entries := dict_set key a (entries l)}}))
  end.

Definition record_success (key : pystr) (l : LoginRateLimiter) : LoginRateLimiter :=
  l{{entries := dict_del key (entries l)}}.

(** The protocol of [admin_http.py]: check, verify, record. *)
Inductive answer := RateLimited (retry_after : Z) | Denied | Granted.
Definition login_attempt (key : pystr) (now : Z) (password_ok : bool) : PyM LoginRateLimiter answer := λ l,
  let '((allowed, retry_after), l) := check key now l in
  if negb allowed then (Ret (RateLimited retry_after), l)
  else if password_ok then (Ret Granted, record_success key l)
  else (_ ← record_failure key now; mret Denied) l.

(** *** What the limiter decides

    The specification keeps, for each key, the times of all failures since its last
    success.  It locks a key when the last failure completes [max_attempts] of them
    within the window, always for the same time. *)
Section Limiter.
Context (n w d md mk : Z) (Hw : 0 < w ≤ Z.min d md).

Definition backoff : Z := Z.min d md.
Definition locked (fs : list Z) : option Z :=
  match last fs with
  | Some t => if n <=? len (recent w t fs) then Some (t + backoff) else None
  | None => None
  end.
Definition history := list (pystr * list Z).
Definition spec_attempt (key : pystr) (now : Z) (password_ok : bool) (h : history) : answer * history :=
  let fs := default [] (dict_get key h) in
  match locked fs with
  | Some until =>
      if now <? until then (RateLimited (until - now), h)
      else if password_ok then (Granted, dict_set key [] h) else (Denied, dict_set key (fs ++ [now]) h)
  | None => if password_ok then (Granted, dict_set key [] h) else (Denied, dict_set key (fs ++ [now]) h)
  end.

(** *** Pruning, seen from one key *)

Lemma omap_dict_get {V} (f : V → option V) k (l : list (pystr * V)) :
  NoDup l.*1 → dict_get k (omap (λ e, (λ a, (e.1, a)) <$> f e.2) l) = dict_get k l ≫= f.
Proof.
  induction l as [|[k' v] l IH]; [done|]. rewrite fmap_cons, NoDup_cons. cbn [fst snd]. intros [Hk Hl].
  set (g := λ e : pystr * V, (λ a, (e.1, a)) <$> f e.2) in *.
  change (omap g ((k', v) :: l)) with (match g (k', v) with Some y => y :: omap g l | None => omap g l end).
  assert (g (k', v) = (λ a, (k', a)) <$> f v) as -> by done.
  specialize (IH Hl).
  destruct (f v) as [v'|] eqn:Hf; simpl.
  - case_decide as Hd; [subst; simpl; by rewrite Hf|done].
  - case_decide as Hd; [|done]. subst k'. simpl. rewrite Hf, IH. apply dict_get_None in Hk. by rewrite Hk.
Qed.
Lemma omap_keys {V} (f : V → option V) (l : list (pystr * V)) :
  NoDup l.*1 →
  NoDup (omap (λ e, (λ a, (e.1, a)) <$> f e.2) l).*1 ∧
  ∀ k, k ∈ (omap (λ e, (λ a, (e.1, a)) <$> f e.2) l).*1 → k ∈ l.*1.
Proof.
  induction l as [|[k' v] l IH]; [done|]. rewrite fmap_cons, NoDup_cons. cbn [fst snd]. intros [Hk Hl].
  set (g := λ e : pystr * V, (λ a, (e.1, a)) <$> f e.2) in *.
  change (omap g ((k', v) :: l)) with (match g (k', v) with Some y => y :: omap g l | None => omap g l end).
  assert (g (k', v) = (λ a, (k', a)) <$> f v) as -> by done.
  destruct (IH Hl) as [IHn IHk].
  destruct (f v) as [v'|]; simpl.
  - split; [apply NoDup_cons; split; [intros Hin%IHk; done|done]|].
    intros k [->|Hin]%elem_of_cons; [by left|]. right. by apply IHk.
  - split; [done|]. intros k Hin. right. by apply IHk.
Qed.

(** A limiter with the parameters of the section, whose keys are among [ks]. *)
Definition limits (ks : list pystr) (l : LoginRateLimiter) : Prop :=
  max_attempts l = n ∧ window l = w ∧ lockout l = d ∧ max_lockout l = md ∧ max_keys l = mk ∧
  NoDup (entries l).*1 ∧ ∀ k, k ∈ (entries l).*1 → k ∈ ks.

Lemma keys_fit ks (es : list (pystr * attempts)) :
  len ks ≤ mk → NoDup es.*1 → (∀ k, k ∈ es.*1 → k ∈ ks) → len es ≤ mk.
Proof.
  intros Hks Hnd Hin. assert (length es.*1 ≤ length ks)%nat as Hl.
  { apply NoDup_incl_length; [by apply NoDup_ListNoDup|]. intros x Hx%list_elem_of_In. by apply list_elem_of_In, Hin. }
  rewrite length_fmap in Hl. unfold len in *. lia.
Qed.

Lemma prune_spec ks now l :
  len ks ≤ mk → limits ks l →
  limits ks (_prune now l) ∧ ∀ k, dict_get k (entries (_prune now l)) = dict_get k (entries l) ≫= prune_entry w now.
Proof.
  intros Hks (H1 & H2 & H3 & H4 & H5 & Hnd & Hin). unfold _prune. rewrite H2, H5.
  destruct (omap_keys (prune_entry w now) (entries l) Hnd) as [Hnd' Hin'].
  set (es := omap _ (entries l)) in *.
  assert (len es ≤ mk) as Hfit by (apply (keys_fit ks); [done|done|]; intros k Hk; by apply Hin, Hin').
  rewrite (proj2 (Z.ltb_ge 0 (len es - mk))) by lia. split.
  - unfold limits. cbn. unfold constant. split_and!; try done. intros k Hk. by apply Hin, Hin'.
  - intros k. by apply omap_dict_get.
Qed.

(** *** One key *)

Definition is_locked (o : option Z) : Z := match o with Some _ => 1 | None => 0 end.
Definition tracks (fs : list Z) (t : Z) (o : option attempts) : Prop :=
  Forall (λ f, f ≤ t) fs ∧ (∀ f, last fs = Some f → Forall (λ g, g ≤ f) fs) ∧
  match o with
  | None => Forall (λ f, w ≤ t - f) fs ∧ ∀ until, locked fs = Some until → until ≤ t
  | Some a => (∃ s, s ≤ t ∧ failures a = recent w s fs) ∧
              locked_until a = default 0 (locked fs) ∧ streak a = is_locked (locked fs)
  end.

Lemma recent_recent s t l : s ≤ t → recent w t (recent w s l) = recent w t l.
Proof.
  intros Hs. unfold recent. induction l as [|f l IH]; [done|]. simpl.
  destruct (Z.ltb_spec (s - f) w); simpl; [by rewrite IH|].
  rewrite IH. by rewrite (proj2 (Z.ltb_ge (t - f) w)) by lia.
Qed.
Lemma recent_nil t l : recent w t l = [] ↔ Forall (λ f, w ≤ t - f) l.
Proof.
  unfold recent. induction l as [|f l IH]; [by split; intros; constructor|]. simpl. rewrite Forall_cons.
  destruct (Z.ltb_spec (t - f) w); [split; [done|lia]|]. rewrite IH. split; [done|by intros [_ ?]].
Qed.
Lemma locked_last fs until : locked fs = Some until → ∃ t, last fs = Some t ∧ until = t + backoff.
Proof. unfold locked. destruct (last fs) as [t|]; [|done]. case_match; [|done]. intros [= <-]. eauto. Qed.

(** Pruning keeps track; what is left is up to date, and a lock that is over is gone. *)
Lemma tracks_prune fs t now o :
  tracks fs t o → 0 ≤ t ≤ now →
  tracks fs now (o ≫= prune_entry w now) ∧
  ∀ a, o ≫= prune_entry w now = Some a →
    failures a = recent w now fs ∧ ∀ until, locked fs = Some until → now < until.
Proof.
  intros (Hle & Hlast & Ho) Ht.
  assert (Forall (λ f, f ≤ now) fs) as Hle' by (eapply Forall_impl; [exact Hle|]; simpl; lia).
  destruct o as [a|]; cbn [mbind option_bind].
  2:{ destruct Ho as [Hold Hlk]. split; [|done]. split_and!; try done; [|intros u Hu; specialize (Hlk u Hu); lia].
      eapply Forall_impl; [exact Hold|]. simpl. lia. }
  destruct Ho as ((s & Hs & Hf) & Hlu & Hst). unfold prune_entry. rewrite Hf, recent_recent by lia.
  destruct (bool_decide_reflect (recent w now fs = [])) as [Hnil|Hnil]; cbn [andb].
  - destruct (Z.leb_spec (locked_until a) now) as [Hl|Hl].
    + split; [|done]. split_and!; try done; [by apply recent_nil|]. intros u Hu. rewrite Hu in Hlu. simpl in Hlu. lia.
    + split.
      * split_and!; try done. exists now. split; [lia|done].
      * intros a' [= <-]. cbn. unfold constant. split; [done|]. intros u Hu. rewrite Hu in Hlu. simpl in Hlu. lia.
  - split.
    + split_and!; try done. exists now. split; [lia|done].
    + intros a' [= <-]. cbn. unfold constant. split; [done|]. intros u Hu.
      apply locked_last in Hu as (f & Hf' & ->). destruct (Z.lt_ge_cases now (f + backoff)) as [|Hge]; [done|]. exfalso.
      apply Hnil, recent_nil. eapply Forall_impl; [exact (Hlast f Hf')|]. simpl. unfold backoff in Hge. lia.
Qed.

(** A failure recorded on an entry that is up to date and not locked. *)
Lemma tracks_failure l fs now o :
  max_attempts l = n → window l = w → lockout l = d → max_lockout l = md →
  tracks fs now o → 0 ≤ now →
  (∀ a, o = Some a → failures a = recent w now fs ∧ locked fs = None) →
  let a := default {| failures := []; locked_until := 0; streak := 0 |} o in
  ∃ a' x, lock_if_due l now (a{{failures := recent w now (failures a ++ [now])}}) = (Ret a', x) ∧
          tracks (fs ++ [now]) now (Some a').
Proof.
  intros H1 H2 H3 H4 (Hle & Hlast & Ho) H0 Hup. cbv zeta.
  assert (∀ k l', recent w k (l' ++ [k]) = recent w k l' ++ [k]) as Happ.
  { intros k l'. unfold recent. rewrite List.filter_app. f_equal. simpl. by rewrite (proj2 (Z.ltb_lt (k - k) w)) by lia. }
  set (a := default _ o).
  assert (recent w now (failures a ++ [now]) = recent w now (fs ++ [now]) ∧ locked_until a = 0 ∧ streak a = 0)
    as (Hfs & Hlu & Hst).
  { unfold a. destruct o as [a'|]; simpl.
    - destruct (Hup a' eq_refl) as [Hf Hnone]. destruct Ho as (_ & Hlu & Hst). rewrite Hnone in Hlu, Hst.
      split; [|done]. by rewrite Hf, !Happ, recent_recent by lia.
    - destruct Ho as [Hold _]. split; [|done]. apply recent_nil in Hold. rewrite (Happ now fs), Hold. apply (Happ now []). }
  rewrite Hfs. clearbody a. destruct a as [af al sk]. cbn in Hlu, Hst. subst al sk. unfold lock_if_due.
  assert (Forall (λ f, f ≤ now) (fs ++ [now])) as Hle' by (apply Forall_app_2; [done|by repeat constructor; lia]).
  assert (locked (fs ++ [now]) = if n <=? len (recent w now (fs ++ [now])) then Some (now + backoff) else None) as Hlk.
  { unfold locked. by rewrite last_snoc. }
  assert (∀ f, last (fs ++ [now]) = Some f → Forall (λ g, g ≤ f) (fs ++ [now])) as Hlast'.
  { intros f. rewrite last_snoc. by intros [= <-]. }
  cbn. unfold constant. rewrite H1, H3, H4.
  destruct (n <=? len (recent w now (fs ++ [now]))) eqn:Hc; eexists _, _; (split; [reflexivity|]);
    (split; [done|]); (split; [done|]); rewrite Hlk; cbn; unfold constant; (split; [exists now; split; [lia|done]|]).
  - split; [|done]. unfold backoff. change (2 ^ (0 + 1 - 1)) with 1. by rewrite Z.mul_1_r.
  - done.
Qed.

(** *** All keys *)

Definition related (ks : list pystr) (h : history) (t : Z) (l : LoginRateLimiter) : Prop :=
  0 ≤ t ∧ limits ks l ∧ ∀ k, tracks (default [] (dict_get k h)) t (dict_get k (entries l)).

Lemma dict_get_del_eq {V} k (m : list (pystr * V)) : dict_get k (dict_del k m) = None.
Proof. apply dict_get_None. intros (e & -> & [He _]%dict_del_elem)%list_elem_of_fmap. done. Qed.
Lemma dict_get_del_ne {V} k k' (m : list (pystr * V)) : k ≠ k' → dict_get k (dict_del k' m) = dict_get k m.
Proof.
  intros Hne. unfold dict_del. induction m as [|[k0 v] m IH]; [done|]. rewrite filter_cons. cbn [fst].
  destruct (decide (k0 ≠ k')) as [Hd|Hd]; simpl; case_decide; try done. subst. exfalso. by apply Hd.
Qed.
Lemma default_set {V} k k' (v d0 : V) (m : list (pystr * V)) :
  default d0 (dict_get k (dict_set k' v m)) = if decide (k = k') then v else default d0 (dict_get k m).
Proof. case_decide; [subst; by rewrite dict_get_set_eq|by rewrite dict_get_set_ne]. Qed.

Lemma related_prune ks h t now l :
  len ks ≤ mk → related ks h t l → t ≤ now → related ks h now (_prune now l).
Proof.
  intros Hks (H0 & Hl & Htr) Ht. destruct (prune_spec ks now l Hks Hl) as [Hl' Hg]. split; [lia|]. split; [done|].
  intros k. rewrite Hg. by apply (tracks_prune _ t).
Qed.

Lemma related_success ks h now l key :
  related ks h now l → related ks (dict_set key [] h) now (record_success key l).
Proof.
  intros (H0 & (H1 & H2 & H3 & H4 & H5 & Hnd & Hin) & Htr). split; [done|]. split.
  - unfold limits. cbn. unfold constant. split_and!; try done; [by apply dict_del_keys|].
    intros k (e & -> & [_ He]%dict_del_elem)%list_elem_of_fmap. apply Hin. by apply list_elem_of_fmap_2.
  - intros k. cbn. unfold constant. rewrite default_set. case_decide as Hd.
    + subst. rewrite dict_get_del_eq. split_and!; try done; constructor.
    + by rewrite dict_get_del_ne.
Qed.

Lemma related_failure ks h now l key :
  len ks ≤ mk → key ∈ ks → related ks h now l →
  (∀ a, dict_get key (entries l) = Some a →
        failures a = recent w now (default [] (dict_get key h)) ∧ locked (default [] (dict_get key h)) = None) →
  ∃ l', record_failure key now l = (Ret tt, l') ∧
        related ks (dict_set key (default [] (dict_get key h) ++ [now]) h) now l'.
Proof.
  intros Hks Hkey (H0 & Hlim & Htr) Hup. pose proof Hlim as (H1 & H2 & H3 & H4 & H5 & Hnd & Hin).
  destruct (tracks_failure l _ now _ H1 H2 H3 H4 (Htr key) H0 Hup) as (a & x & Ha & Hta).
  unfold record_failure. rewrite H2, Ha. eexists. split; [reflexivity|].
  apply (related_prune _ _ now); [done| |lia]. split; [done|]. split.
  - unfold limits. cbn. unfold constant. split_and!; try done; [by apply dict_set_nodup|].
    intros k (e & -> & [->|[_ He]]%dict_set_entry)%list_elem_of_fmap; [done| |done]. apply Hin. by apply list_elem_of_fmap_2.
  - intros k. cbn. unfold constant. rewrite default_set. case_decide as Hd; [subst; by rewrite dict_get_set_eq|].
    by rewrite dict_get_set_ne.
Qed.

Lemma login_step ks h t l key now ok :
  len ks ≤ mk → key ∈ ks → related ks h t l → t ≤ now →
  ∃ l', login_attempt key now ok l = (Ret (spec_attempt key now ok h).1, l') ∧
        related ks (spec_attempt key now ok h).2 now l'.
Proof.
  intros Hks Hkey Hrel Ht. pose proof Hrel as (H0 & Hlim & Htr). destruct (prune_spec ks now l Hks Hlim) as [_ Hg].
  pose proof (related_prune ks h t now l Hks Hrel Ht) as Hrel1. destruct (tracks_prune _ t now _ (Htr key) ltac:(lia)) as [Htr1 Hup].
  rewrite <-Hg in Htr1, Hup. unfold login_attempt, check, spec_attempt. set (l1 := _prune now l) in *. clearbody l1. clear Hg Htr Hlim Hrel.
  set (fs := default [] (dict_get key h)) in *.
  assert ((∀ a, dict_get key (entries l1) = Some a → failures a = recent w now fs ∧ locked fs = None) →
    let r := if ok then (Ret Granted, record_success key l1) else (_ ← record_failure key now; mret Denied) l1 in
    let s := if ok then (Granted, dict_set key [] h) else (Denied, dict_set key (fs ++ [now]) h) in
    ∃ l', r = (Ret s.1, l') ∧ related ks s.2 now l') as Hallowed.
  { intros Hf. destruct ok; cbv zeta; [eexists; split; [reflexivity|by apply related_success]|].
    destruct (related_failure ks h now l1 key Hks Hkey Hrel1 Hf) as (l2 & He & Hr2).
    unfold mbind, pym_bind. rewrite He. eexists. by split. }
  cbv zeta in Hallowed. destruct (dict_get key (entries l1)) as [a|] eqn:Ha.
  - destruct Htr1 as (_ & _ & _ & Hlu & _). destruct (Hup a eq_refl) as [Hfa Hnow].
    destruct (locked fs) as [u|] eqn:Hlk; simpl in Hlu; rewrite Hlu.
    + specialize (Hnow u eq_refl). rewrite (proj2 (Z.ltb_lt now u)) by done. eexists. by split.
    + rewrite (proj2 (Z.ltb_ge now 0)) by lia. apply Hallowed. by intros a' [= <-].
  - destruct Htr1 as (_ & _ & _ & Hold). cbn [negb]. destruct (locked fs) as [u|]; [|by apply Hallowed].
    specialize (Hold u eq_refl). rewrite (proj2 (Z.ltb_ge now u)) by lia. by apply Hallowed.
Qed.

(** Runs of login attempts. *)
Definition attempt : Type := pystr * Z * bool.
Fixpoint run_limiter (l : LoginRateLimiter) (as_ : list attempt) : list (res answer) :=
  match as_ with
  | [] => []
  | (key, now, ok) :: rest => let '(r, l) := login_attempt key now ok l in r :: run_limiter l rest
  end.
Fixpoint run_spec (h : history) (as_ : list attempt) : list answer :=
  match as_ with
  | [] => []
  | (key, now, ok) :: rest => let '(r, h) := spec_attempt key now ok h in r :: run_spec h rest
  end.

(** C15: as long as no entry has to be evicted, and with a window that is positive and not longer
    than the lockout and its bound (as with the default settings, for up to 1024 keys), the login limiter is
    the plain sliding window.  Over any attempts with times from 0 on that do not decrease, from at most
    [max_keys] different keys, a new limiter answers exactly as the specification that
    remembers every failure since a key's last success: never an exception; a key
    is refused from the failure that completes [max_attempts] within the window until
    one lockout later, and only then.  As no lockout outlives its entry with such a window,
    the documented doubling never happens there.  Nothing is said of more keys than the
    table holds, nor of a window longer than the lockout. *)
Theorem limiter_refines_window ks as_ l :
  len ks ≤ mk → limits ks l → entries l = [] →
  StronglySorted (λ a b, a.1.2 ≤ b.1.2) as_ → Forall (λ a, a.1.1 ∈ ks ∧ 0 ≤ a.1.2) as_ →
  run_limiter l as_ = Ret <$> run_spec [] as_.
Proof.
  intros Hks Hlim He Hs Hf.
  assert (∀ t h l, related ks h t l → Forall (λ a, t ≤ a.1.2) as_ → run_limiter l as_ = Ret <$> run_spec h as_) as Hrun.
  { clear l Hlim He. induction Hs as [|[[key now] ok] as_ Hs IH Hle]; intros t h l Hr Ht; [done|].
    apply Forall_cons in Hf as [[Hk _] Hf]. apply Forall_cons in Ht as [Htn _]. simpl in Hk, Htn. cbn [run_limiter run_spec].
    destruct (login_step ks h t l key now ok Hks Hk Hr Htn) as (l' & -> & Hr').
    destruct (spec_attempt key now ok h) as [r h']. simpl in *. f_equal. by apply (IH Hf now). }
  apply (Hrun 0).
  - split; [done|]. split; [done|]. intros k. rewrite He. split_and!; try done; constructor.
  - eapply Forall_impl; [exact Hf|]. by intros a [_ ?].
Qed.
End Limiter.

Definition default_limiter : LoginRateLimiter :=
  {| max_attempts := 5; window := 300; lockout := 900; max_lockout := 3600; max_keys := 1024; entries := [] |}.
Definition guesses : list attempt :=
  map (λ t, (u "10.0.0.7", t, false)) [0; 1; 2; 3; 4; 5; 903; 904; 905; 906; 907; 908; 1808; 1809].

Lemma limiter_refines_window_witness :
  run_limiter default_limiter guesses =
  Ret <$> [Denied; Denied; Denied; Denied; Denied; RateLimited 899; RateLimited 1; Denied; Denied; Denied; Denied; Denied;
           Denied; Denied].
Proof.
  rewrite (limiter_refines_window 5 300 900 3600 1024 ltac:(lia) [u "10.0.0.7"] guesses default_limiter).
  - vm_compute. reflexivity.
  - vm_compute. discriminate.
  - unfold limits. split_and!; try done; [apply NoDup_nil_2|by intros k ?%elem_of_nil].
  - reflexivity.
  - repeat constructor; vm_compute; discriminate.
  - repeat constructor; try (vm_compute; discriminate).
Defined.
