(* ===== verification/Redact.v ===== *)
(** [app/admin_auth.py], third part: redaction of documents, headers and strings. *)
From S2P Require Import Prelude PyValue PyText AdminAuth.

(** ** Redaction *)

Definition REAUTH_ACTIONS : list pystr :=
  [u "credential_change"; u "update_install"; u "factory_reset"; u "backup_export_secrets"; u "ssh_enable"].
Definition requires_reauth (action : pystr) : bool := bool_decide (action ∈ REAUTH_ACTIONS).

Definition REDACTED : pystr := u "<redacted>".
Definition REDACT_KEYS : list pystr :=
  [u "token"; u "access-token"; u "refresh-token"; u "registration-token"; u "camera-token"; u "prusa-token";
   u "fingerprint"; u "camera-fingerprint"; u "password"; u "password-hash"; u "admin-password"; u "admin-password-hash";
   u "mqtt-password"; u "mqtt-pass"; u "mqtt-username"; u "mqtt-user"; u "username"; u "user"; u "psk"; u "wifi-psk";
   u "wifi-password"; u "secret"; u "client-secret"; u "api-key"; u "cookie"; u "set-cookie"; u "authorization"].
Definition SENSITIVE_HEADERS : list pystr :=
  [u "cookie"; u "set-cookie"; u "authorization"; u "x-camera-token"; u "x-camera-fingerprint"; u "x-api-key";
   u "x-auth-token"].

Section Redact.
(** [str.lower]. *)
Context (lower : pystr → pystr).

Definition _normalize_key (s : pystr) : pystr := map (λ c, if c =? 95 then 45 else c) (lower (strip s)).
Definition _is_sensitive_key (key : pyval) : bool :=
  match key with
  | VStr s => bool_decide (_normalize_key s ∈ REDACT_KEYS) || bool_decide (_normalize_key s ∈ SENSITIVE_HEADERS)
  | _ => false
  end.

Definition _secret_values (secrets : list pyval) : list pystr :=
  omap (λ v, match v with VStr ((_ :: _) as s) => Some s | _ => None end) secrets.
Definition _scrub_string (value : pystr) (secrets : list pystr) : pystr :=
  foldl (λ v s, replace_all s REDACTED v) value secrets.

Fixpoint redact (secrets : list pystr) (value : pyval) : pyval :=
  match value with
  | VDict d =>
      VDict (map (λ kv, (kv.1, if _is_sensitive_key kv.1 then VStr REDACTED else redact secrets kv.2)) d)
  | VList l => VList (map (redact secrets) l)
  | VStr s => VStr (_scrub_string s secrets)
  | v => v
  end.
Definition redact_value (value : pyval) (secrets : list pyval) : pyval := redact (_secret_values secrets) value.

(** A header item is a pair of name and value; anything else is redacted as a value. *)
Definition redact_headers (headers : pyval) (secrets : list pyval) : pyval :=
  let sv := _secret_values secrets in
  match headers with
  | VList items =>
      VList (map (λ item, match item with
                          | VList [name; value] =>
                              VList [name; if _is_sensitive_key name then VStr REDACTED else redact sv value]
                          | _ => redact sv item
                          end) items)
  | _ => redact sv headers
  end.
End Redact.

(** *** Replacing *)

(** A secret that the replacement text cannot complete: not empty, without angle
    brackets, and not part of the word between them. *)
Definition plain_secret (s : pystr) : Prop := s ≠ [] ∧ (60 ∉ s) ∧ (62 ∉ s) ∧ ¬ infix_of s (u "redacted").

Lemma infix_redacted s p q : plain_secret s → infix_of s (p ++ REDACTED ++ q) → infix_of s p ∨ infix_of s q.
Proof.
  intros (Hne & Hl & Hr & Hin). change (REDACTED ++ q) with (60 :: u "redacted" ++ 62 :: q).
  intros [?|Hi]%infix_split; [by left| |done..]. apply infix_split in Hi as [?|?]; [done|by right|done..].
Qed.
Lemma replace_infix old s t :
  old ≠ [] → plain_secret s → infix_of s (replace_all old REDACTED t) → infix_of s t ∧ s ≠ old.
Proof.
  intros Hne Hs. induction t as [t IH] using (induction_ltof1 _ (@length Z)). unfold ltof in IH.
  destruct (replace_cases old REDACTED t Hne) as [[-> Hno]|(p & q & Ht & -> & Hno)].
  { intros Hi. split; [done|]. by intros ->. }
  assert (length q < length t)%nat as Hlt.
  { rewrite Ht, !length_app. destruct old; [done|]. simpl. lia. }
  intros [Hp|Hq]%infix_redacted; [| |done].
  - split; [rewrite Ht; by apply infix_app_l|]. by intros ->.
  - destruct (IH q Hlt Hq) as [Hi Hso]. split; [|done]. rewrite Ht. by apply infix_app_r, infix_app_r.
Qed.
Lemma scrub_infix s secrets t :
  Forall (λ x, x ≠ []) secrets → plain_secret s → infix_of s (_scrub_string t secrets) → infix_of s t ∧ (s ∉ secrets).
Proof.
  intros Hne Hs. revert t. induction Hne as [|x secrets Hx _ IH]; intros t; simpl.
  { intros Hi. split; [done|]. apply not_elem_of_nil. }
  intros [Hi Hno]%IH. apply replace_infix in Hi as [Hi Hso]; [|done..]. split; [done|]. by apply not_elem_of_cons.
Qed.

(** *** Documents *)

(** The string values of a document, and its entries at any depth. *)
Fixpoint texts (v : pyval) : list pystr :=
  match v with
  | VStr s => [s]
  | VList l => concat (map texts l)
  | VDict d => concat (map (λ kv, texts kv.2) d)
  | _ => []
  end.
Fixpoint items (v : pyval) : list (pyval * pyval) :=
  match v with
  | VList l => concat (map items l)
  | VDict d => d ++ concat (map (λ kv, items kv.2) d)
  | _ => []
  end.

Lemma concat_map_Forall {A B} (P : B → Prop) (f : A → list B) l :
  Forall (λ x, Forall P (f x)) l → Forall P (concat (map f l)).
Proof. induction 1; simpl; [constructor|by apply Forall_app_2]. Qed.

Section Hiding.
Context (lower : pystr → pystr).

Lemma redact_sensitive secrets v :
  Forall (λ kv, _is_sensitive_key lower kv.1 = true → kv.2 = VStr REDACTED) (items (redact_value lower v secrets)).
Proof.
  unfold redact_value. revert v. apply pyval_nested_ind; [intros v|intros l IH|intros d IH].
  - by destruct v; try constructor.
  - simpl. rewrite map_map. by apply concat_map_Forall.
  - simpl. rewrite map_map. apply Forall_app_2.
    + apply Forall_map, Forall_true. intros kv. simpl. by destruct (_is_sensitive_key lower kv.1).
    + apply concat_map_Forall. eapply Forall_impl; [exact IH|]. intros kv Hkv. simpl.
      by destruct (_is_sensitive_key lower kv.1); [constructor|].
Qed.
Lemma redact_texts secrets v s : plain_secret s → s ∈ _secret_values secrets →
  Forall (λ t, ¬ infix_of s t) (texts (redact_value lower v secrets)).
Proof.
  intros Hs Hin. unfold redact_value.
  assert (Forall (λ x, x ≠ []) (_secret_values secrets)) as Hne.
  { unfold _secret_values. apply Forall_forall. intros x (y & _ & Hy)%list_elem_of_omap.
    destruct y as [| | | |[|? ?]| | |]; try done. by injection Hy as <-. }
  assert (∀ t, ¬ infix_of s (_scrub_string t (_secret_values secrets))) as Hno.
  { intros t [_ ?]%scrub_infix; done. }
  assert (¬ infix_of s REDACTED) as Hred.
  { intros Hi. rewrite <-(app_nil_r REDACTED) in Hi. apply (infix_redacted s [] []) in Hi as [(a & b & Hab)|(a & b & Hab)]; [..|done];
      destruct Hs as [Hs _]; by destruct a, s. }
  revert v. apply pyval_nested_ind; [intros v|intros l IH|intros d IH].
  - destruct v; try done; repeat constructor. apply Hno.
  - simpl. rewrite map_map. by apply concat_map_Forall.
  - simpl. rewrite map_map. apply concat_map_Forall. eapply Forall_impl; [exact IH|]. intros kv Hkv. simpl.
    destruct (_is_sensitive_key lower kv.1); [by repeat constructor|done].
Qed.

(** Redaction hides.  At any depth of a redacted document the value of a sensitive
    key is the placeholder; no string value holds a listed secret (one that the
    placeholder itself could not complete); and without listed secrets redacting again
    changes nothing. *)
Theorem redact_hides secrets v :
  Forall (λ kv, _is_sensitive_key lower kv.1 = true → kv.2 = VStr REDACTED) (items (redact_value lower v secrets)) ∧
  (∀ s, plain_secret s → s ∈ _secret_values secrets → Forall (λ t, ¬ infix_of s t) (texts (redact_value lower v secrets))) ∧
  redact_value lower (redact_value lower v []) [] = redact_value lower v [].
Proof.
  split; [apply redact_sensitive|split; [intros s; apply redact_texts|]]. unfold redact_value.
  change (_secret_values []) with (@nil pystr). revert v. apply pyval_nested_ind; [intros v|intros l IH|intros d IH].
  - by destruct v.
  - simpl. rewrite map_map. f_equal. apply map_ext_Forall. exact IH.
  - simpl. rewrite map_map. f_equal. apply map_ext_Forall. eapply Forall_impl; [exact IH|]. intros kv Hkv. simpl.
    destruct (_is_sensitive_key lower kv.1); [done|]. by rewrite Hkv.
Qed.
End Hiding.

Definition leaky : pyval :=
  VDict [(VStr (u "Token"), VStr (u "abc")); (VStr (u "log"), VList [VStr (u "got hunter2 from user")])].

Lemma redact_hides_witness :
  redact_value (map (λ c, if in_range 65 90 c then c + 32 else c)) leaky [VStr (u "hunter2")] =
    VDict [(VStr (u "Token"), VStr REDACTED); (VStr (u "log"), VList [VStr (u "got <redacted> from user")])] ∧
  Forall (λ t, ¬ infix_of (u "hunter2") t)
    (texts (redact_value (map (λ c, if in_range 65 90 c then c + 32 else c)) leaky [VStr (u "hunter2")])).
Proof.
  split; [vm_compute; reflexivity|].
  destruct (redact_hides (map (λ c, if in_range 65 90 c then c + 32 else c)) [VStr (u "hunter2")] leaky) as (_ & Hs & _).
  apply Hs; [|by left]. repeat split; try (apply (bool_decide_unpack _); vm_compute; exact I).
  intros (a & b & Hab). assert (104 ∈ u "redacted") as Hin; [|revert Hin; apply (bool_decide_unpack _); vm_compute; exact I].
  rewrite Hab. apply elem_of_app. right. by left.
Defined.
