(* ===== verification/SetupWizard.v ===== *)
(** [app/setup_wizard.py]: the first-boot wizard.  Its ten steps, the documents it saves,
    the state of the appliance it advances, and the hand-over from the setup hotspot to
    the camera.  The camera probe, the scan, the hotspot, the station, the broker test and
    the start of the camera are callables of the session: functions of an environment
    [E]. *)
From S2P Require Import Prelude Crash PyValue PyText Toml ConfigSchema ConfigFiles Provisioning Identity AdminAuth Redact.

(** ** Steps *)

Inductive step_id :=
  | SStatus | SImager_prefill | SWifi | SPrusa_token | SFingerprint | SAdmin_password | SMqtt | SSummary | SPersist | SFinish.
#[export] Instance step_id_eq_dec : EqDecision step_id.
Proof. solve_decision. Defined.
Definition STEP_ORDER : list step_id :=
  [SStatus; SImager_prefill; SWifi; SPrusa_token; SFingerprint; SAdmin_password; SMqtt; SSummary; SPersist; SFinish].
Definition step_name (s : step_id) : pystr :=
  match s with
  | SStatus => u "status" | SImager_prefill => u "imager_prefill" | SWifi => u "wifi" | SPrusa_token => u "prusa_token"
  | SFingerprint => u "fingerprint" | SAdmin_password => u "admin_password" | SMqtt => u "mqtt" | SSummary => u "summary"
  | SPersist => u "persist" | SFinish => u "finish"
  end.
Definition step_of (name : pystr) : option step_id := find (λ s, bool_decide (step_name s = name)) STEP_ORDER.
Definition step_number (s : step_id) : nat := from_option fst 0%nat (list_find (eq s) STEP_ORDER).
#[export, refine] Instance step_id_countable : Countable step_id := inj_countable step_number (λ n, STEP_ORDER !! n) _.
Proof. by intros []. Defined.
Definition next_step (s : step_id) : option step_id := STEP_ORDER !! S (step_number s).
Definition PERSIST_PREREQUISITES : gset step_id := {[SWifi; SAdmin_password]}.
Definition SKIPPABLE_STEPS : gset step_id := {[SPrusa_token; SFingerprint; SMqtt]}.
Definition DEFAULT_MQTT_URI : pystr := u "mqtts://broker.example:8883".
Definition PRE_RUNTIME_STATES : list prov_state := [Factory; StorageReady; CameraValidated; Unclaimed; Claimed].

(** ** The session *)

Record imager_values := { im_ssid : pystr; im_psk : pystr; im_hostname : pystr; im_ssh : bool }.
Record mqtt_settings := { mq_enabled : bool; mq_uri : pystr; mq_username : pystr; mq_password : pystr }.
Record camera_status := { cs_storage : bool; cs_ok : bool; cs_reason : pyval; cs_sensors : pyval }.
(** What is staged and where the user is; [None] and [[]] are the absent values. *)
Record wizard := {
  z_step : step_id; z_completed : gset step_id; z_skipped : gset step_id;
  z_status : option camera_status; z_camera_validated : bool; z_imager : option imager_values;
  z_ssid : option pystr; z_psk : option pystr; z_scan : list pyval;
  z_fingerprint : pystr; z_hostname : pystr; z_mqtt : mqtt_settings; z_token : pystr; z_admin_hash : pystr;
  z_persisted : bool; z_finished : bool; z_state : option prov_state;
}.
Definition new_wizard : wizard :=
  {| z_step := SStatus; z_completed := ∅; z_skipped := ∅; z_status := None; z_camera_validated := false; z_imager := None;
     z_ssid := None; z_psk := None; z_scan := []; z_fingerprint := []; z_hostname := [];
     z_mqtt := {| mq_enabled := false; mq_uri := []; mq_username := []; mq_password := [] |};
     z_token := []; z_admin_hash := []; z_persisted := false; z_finished := false; z_state := None |}.

(** The calls of the hand-over, with what they answered. *)
Inductive setup_call :=
  | KStop (ok : bool) | KStation (ssid psk : pystr) (ok : bool) | KCamera (ok : bool) | KStart (ssid : pystr) (ok : bool).
#[export] Instance setup_call_eq_dec : EqDecision setup_call.
Proof. solve_decision. Defined.
Record StepResult := { sr_ok : bool; sr_reason : pystr; sr_step : pystr; sr_state : option prov_state }.

(** A probe answers with nothing, with a result object, or a client sent a JSON value in
    its place, which has none of the attributes. *)
Inductive probe_answer := PNone | PJson (v : pyval) | PObject (ok reason sensors : pyval).
(** A broker test answers with a pair, whose reason is given as text, or another object. *)
Inductive test_answer := TestPair (ok : pyval) (reason : pystr) | TestOther (v : pyval).

Section Wizard.
Context `{UnicodeDB} {E : Type}.
Context (lower : pystr → pystr) (md5_hex : bytes → pystr) (scrypt : scrypt_call → option bytes) (hash_error : pystr).
Context (netloc_ok : pystr → bool) (toml_other : pystr → res (pystr + table)) (io : nat → option nat) (umask : Z).

(** The arguments of the constructor. *)
Record wizard_config := {
  device_id : pystr; device_path : pystr; secrets_path : pystr; camera_name : pystr; prusa_server : pystr;
  storage_ready : bool; camera_running : bool; probe_result : probe_answer;
  probe : option (E → res probe_answer * E);
  wifi_scan : option (E → res (list pyval) * E);
  qr_decoder : option (pyval → E → res pyval * E);
  mqtt_tester : option (pyval → pyval → pyval → E → res test_answer * E);
  hotspot_stop : E → res (bool * pystr) * E;
  hotspot_start : pystr → E → res bool * E;
  activate_station : option (pystr → pystr → E → res (bool * pystr) * E);
  start_camera : option (E → res pyval * E);
}.
Context (c : wizard_config).

(** The session, the configuration directory, the provisioning file, the seed file, the
    environment, and the calls of the hand-over so far. *)
Record world := {
  ws : wizard; w_fs : fsys; w_prov : json_file; w_seed : seed_file; w_env : E; w_calls : list setup_call;
}.
(** What one submission does not control: whether the provisioning file can be written,
    the clock, the salt, the address of the interface, and the seed. *)
Record call_in := {
  i_store : store_io; i_now : nat → pyval; i_salt : bytes; i_mac : res pystr; i_seed : seed_io;
}.
Context (i : call_in).
Abbreviation wiz := (PyM world).
Abbreviation answer := (bool * pystr)%type.
Abbreviation fields := (list (pyval * pyval)).

Definition stage (f : wizard → wizard) : wiz unit := modify (λ w, w{{ws := f (ws w)}}).
Definition session : wiz wizard := λ w, (Ret (ws w), w).
(** A callable of the environment. *)
Definition callable {A} (f : E → res A * E) : wiz A := λ w, let '(r, e) := f (w_env w) in (r, w{{w_env := e}}).
Definition record_call (k : setup_call) : wiz unit := modify (λ w, w{{w_calls := w_calls w ++ [k] }}).
Definition refuse (reason : pystr) : wiz answer := mret (false, reason).
Definition accept : wiz answer := mret (true, []).
Definition lookup_field (key : string) (d : fields) : option pyval := snd <$> find (λ kv : pyval * pyval, eq_str kv.1 (u key)) d.
Definition field (key : string) (d : fields) : pyval := get_key (u key) d.
Definition field_or (dflt : pyval) (key : string) (d : fields) : pyval := default dflt (lookup_field key d).
(** [v or '']. *)
Definition or_empty (v : pyval) : pystr := match v with VStr s => s | _ => [] end.

(** ** The steps *)

Definition _step_status (data : fields) : wiz answer :=
  let ready := field_or (VBool (storage_ready c)) "storage_ready" data in
  let given := match lookup_field "probe_result" data with Some VNone => PNone | Some v => PJson v | None => probe_result c end in
  result ← match given, probe c with
           | PNone, Some f => try_except any_exception (callable f) (λ _, mret PNone)
           | _, _ => mret given
           end;
  let ok := match result with PObject ok _ _ => truthy ok | _ => false end in
  let status := {| cs_storage := truthy ready; cs_ok := ok;
                   cs_reason := match result with PObject _ reason _ => reason | _ => VStr [] end;
                   cs_sensors := match result with PObject _ _ sensors => sensors | _ => VInt 0 end |} in
  _ ← stage (λ z, z{{z_camera_validated := ok}}{{z_status := Some status}});
  accept.

(** The first field of a wrong type. *)
Definition imager_kinds : list (string * bool) := [("wifi_ssid", false); ("wifi_psk", false); ("hostname", false); ("ssh_enabled", true)].
Definition bad_kind (data : fields) (e : string * bool) : bool :=
  match field e.1 data with VNone => false | VStr _ => e.2 | VBool _ => negb e.2 | _ => true end.
Definition _step_imager_prefill (data : fields) : wiz answer :=
  match find (bad_kind data) imager_kinds with
  | Some (key, _) => refuse (u key ++ u " has an invalid type")
  | None =>
      let im := {| im_ssid := or_empty (field "wifi_ssid" data); im_psk := or_empty (field "wifi_psk" data);
                   im_hostname := or_empty (field "hostname" data); im_ssh := truthy (field "ssh_enabled" data) |} in
      let setdefault (old : option pystr) (v : pystr) := match old, v with None, _ :: _ => Some v | _, _ => old end in
      _ ← stage (λ z, z{{z_imager := Some im}}{{z_ssid := setdefault (z_ssid z) (im_ssid im)}}
                      {{z_psk := setdefault (z_psk z) (im_psk im)}}
                      {{z_hostname := match im_hostname im with [] => z_hostname z | h => h end}});
      accept
  end.

Definition scan_networks : wiz answer :=
  match wifi_scan c with
  | None => refuse (u "wifi scanning is not available")
  | Some scan =>
      try_except any_exception
        (results ← callable scan; _ ← stage (λ z, z{{z_scan := results}}); accept)
        (λ _, refuse (u "wifi scan failed"))
  end.
Definition join_wifi (data : fields) : wiz answer :=
  match field "ssid" data with
  | VStr ssid =>
      if bool_decide (strip ssid = []) then refuse (u "wifi SSID is required")
      else match field "psk" data with
           | VNone => _ ← stage (λ z, z{{z_ssid := Some (strip ssid)}}{{z_psk := Some [] }}); accept
           | VStr psk =>
               if negb (bool_decide (psk = [])) && negb ((8 <=? len psk) && (len psk <=? 63))
               then refuse (u "wifi PSK must be 8..63 characters")
               else _ ← stage (λ z, z{{z_ssid := Some (strip ssid)}}{{z_psk := Some psk}}); accept
           | _ => refuse (u "wifi PSK must be a string")
           end
  | _ => refuse (u "wifi SSID is required")
  end.
Definition _step_wifi (data : fields) : wiz answer :=
  if truthy (field "scan" data) then
    r ← scan_networks;
    let '(ok, reason) := (r : answer) in
    if ok then join_wifi data else refuse reason
  else join_wifi data.

Definition take_token (v : pyval) (otherwise : pystr) : wiz answer :=
  match v with
  | VStr token => if bool_decide (strip token = []) then refuse otherwise
                  else _ ← stage (λ z, z{{z_token := strip token}}); accept
  | _ => refuse otherwise
  end.
Definition _step_prusa_token (data : fields) : wiz answer :=
  let source := field_or (VStr (u "manual")) "source" data in
  if eq_str source (u "qr") then
    match qr_decoder c with
    | None => refuse (u "QR pairing is not implemented yet (WP-4 hook); enter the token manually")
    | Some decode =>
        r ← try_except any_exception (v ← callable (decode (field "qr" data)); mret (Some v)) (λ _, mret None);
        match r with
        | None => refuse (u "QR pairing failed")
        | Some v => take_token v (u "QR payload did not contain a registration token")
        end
    end
  else if eq_str source (u "manual") then take_token (field "token" data) (u "Prusa registration token is required")
  else refuse (u "unknown token source").

Definition _derived_fingerprint : wiz pystr := λ w,
  match i_mac i with
  | Raise e => if os_error e then (Ret [], w) else (Raise e, w)
  | Ret text =>
      match strip text with
      | [] => (Ret [], w)
      | raw_mac =>
          match resolve_fingerprint md5_hex (i_seed i) [] raw_mac (w_seed w) with
          | (Ret (_, derived), f) => (Ret derived, w{{w_seed := f}})
          | (Raise _, f) => (Ret [], w{{w_seed := f}})
          end
      end
  end.
Definition _step_fingerprint (data : fields) : wiz answer :=
  match field "fingerprint" data with
  | VNone | VStr _ =>
      let given := strip (or_empty (field "fingerprint" data)) in
      fingerprint ← match given with [] => _derived_fingerprint | _ => mret given end;
      _ ← stage (λ z, z{{z_fingerprint := fingerprint}});
      accept
  | _ => refuse (u "fingerprint must be a string")
  end.

Definition strength_text (s : strength) : pystr :=
  match s with
  | NotText => u "password must be a string"
  | AdminAuth.Blank => u "password must not be empty or only whitespace"
  | TooShort => u "password must be at least 8 characters"
  | TooLong => u "password must be at most 1024 characters"
  | Ok => u "ok"
  end.
Definition _step_admin_password (data : fields) : wiz answer :=
  match field "password" data with
  | VStr password =>
      let '(ok, why) := password_strength_ok (VStr password) in
      if negb ok then refuse (strength_text why)
      else if negb (eq_str (field "confirm" data) password) then refuse (u "password confirmation does not match")
      else match hash_password scrypt (i_salt i) (VStr password) with
           | Ret hash => _ ← stage (λ z, z{{z_admin_hash := hash}}); accept
           | Raise ValueError => refuse hash_error
           | Raise e => raise e
           end
  | _ => refuse (u "password must be a string")
  end.

(** The parser on what the writer made of a document. *)
Definition reparsed {A} (text : conf pystr) (parse : pystr → conf A) : wiz (option pystr) :=
  match text ≫= parse with
  | Good _ => mret None
  | Bad _ message => mret (Some message)
  | Crash e => raise e
  end.
Definition _test_mqtt (tester : pyval → pyval → pyval → E → res test_answer * E) (uri username password : pyval) : wiz answer :=
  r ← try_except any_exception (v ← callable (tester uri username password); mret (Some v)) (λ _, mret None);
  match r with
  | None => refuse (u "mqtt connection test failed")
  | Some v =>
      let '(ok, reason) := match v with TestPair ok reason => (truthy ok, reason) | TestOther v => (truthy v, []) end in
      if ok then accept
      else
        let safe := match redact_value lower (VStr reason) [password; username; uri] with VStr s => s | _ => [] end in
        refuse (match take 200 (strip (List.filter uc_isprintable safe)) with [] => u "mqtt connection test failed" | s => s end)
  end.
Definition not_text (v : pyval) : bool := match v with VNone | VStr _ => false | _ => true end.
Definition broker_tested (enabled : bool) (data : fields) (uri username password : pyval) : wiz answer :=
  match mqtt_tester c with
  | Some tester => if enabled && truthy (field "test" data) then _test_mqtt tester uri username password else accept
  | None => accept
  end.
Definition stage_mqtt (enabled : bool) (uri username password : pyval) : wiz answer :=
  let settings := {| mq_enabled := enabled; mq_uri := match or_empty uri with [] => DEFAULT_MQTT_URI | s => s end;
                     mq_username := or_empty username; mq_password := or_empty password |} in
  _ ← stage (λ z, z{{z_mqtt := settings}});
  accept.
Definition _step_mqtt (data : fields) : wiz answer :=
  match field_or (VBool false) "enabled" data with
  | VBool enabled =>
      let uri := field_or (VStr []) "uri" data in
      let username := field_or (VStr []) "username" data in
      let password := field_or (VStr []) "password" data in
      match find (λ e : string * pyval, not_text e.2) [("uri", uri); ("username", username); ("password", password)] with
      | Some (name, _) => refuse (u "mqtt " ++ u name ++ u " must be a string")
      | None =>
          if enabled && bool_decide (or_empty uri = []) then refuse (u "mqtt uri is required when MQTT is enabled")
          else
            let candidate := default_device{{mqtt_enabled := true}}{{mqtt_uri := or_empty uri}} in
            bad ← (if enabled then reparsed (dumps_device (device_doc candidate)) (parse_device netloc_ok toml_other) else mret None);
            match bad with
            | Some message => refuse message
            | None =>
                r ← broker_tested enabled data uri username password;
                let '(ok, reason) := (r : answer) in
                if ok then stage_mqtt enabled uri username password else refuse reason
            end
      end
  | _ => refuse (u "mqtt enabled must be a boolean")
  end.

(** ** The documents *)

Definition own_hostname (z : wizard) : pystr :=
  match z_hostname z with [] => admin_hostname lower (Some (device_id c)) | h => h end.
Definition wizard_device (z : wizard) : device :=
  let d := default_device{{ConfigSchema.camera_name := camera_name c}}{{fingerprint := z_fingerprint z}}{{hostname := own_hostname z}} in
  let d := match prusa_server c with [] => d | s => d{{ConfigSchema.prusa_server := s}} end in
  let d := d{{mqtt_enabled := mq_enabled (z_mqtt z)}} in
  match mq_uri (z_mqtt z) with [] => d | uri => if mq_enabled (z_mqtt z) then d{{mqtt_uri := uri}} else d end.
Definition unless_empty (s : pystr) : option pystr := match s with [] => None | _ => Some s end.
Definition wizard_secrets (z : wizard) : secrets :=
  let of_mqtt (s : pystr) := if mq_enabled (z_mqtt z) then unless_empty s else None in
  {| s_token := unless_empty (z_token z); s_username := of_mqtt (mq_username (z_mqtt z)); s_password := of_mqtt (mq_password (z_mqtt z));
     s_psk := unless_empty (default [] (z_psk z)); s_password_hash := unless_empty (z_admin_hash z) |}.
(** In the order of insertion. *)
Definition secrets_dict (s : secrets) : table :=
  prod_map id TTab <$> List.filter (λ e, match e.2 with [] => false | _ => true end)
    [(u "prusa", secret_pair "token" (s_token s)); (u "wifi", secret_pair "psk" (s_psk s));
     (u "mqtt", secret_pair "username" (s_username s) ++ secret_pair "password" (s_password s));
     (u "admin", secret_pair "password_hash" (s_password_hash s))].
Definition build_documents (z : wizard) : tval * table := (device_doc (wizard_device z), secrets_dict (wizard_secrets z)).

(** ** The state of the appliance *)

Definition wizard_facts (running : bool) (z : wizard) : Facts :=
  {| f_storage_ready := VBool true; f_camera_validated := VBool (z_camera_validated z); f_admin_password_set := VBool true;
     f_device_valid := VBool true; f_prusa_token_set := VBool (negb (bool_decide (z_token z = []))); f_camera_running := VBool running;
     f_recovery_reason := VStr [] |}.
Fixpoint advance_until (n : nat) (f : Facts) (goal : prov_state) : PyM pworld unit := λ w,
  match n with
  | O => (Ret tt, w)
  | S n =>
      if bool_decide (ps_state (pv w) = goal) then (Ret tt, w)
      else match advance (i_store i) (i_now i n) (Ret f) (IsFacts f) w with
           | (Raise e, w') => (Raise e, w')
           | (Ret r, w') =>
               if negb (tr_ok r) || bool_decide (ps_state (pv w') = ps_state (pv w)) then (Ret tt, w') else advance_until n f goal w'
           end
  end.
(** Loads the state, advances it towards [goal], and returns where it got. *)
Definition advance_file (running : bool) (goal : prov_state) : wiz prov_state := λ w,
  match advance_until (length STATES) (wizard_facts running (ws w)) goal (started (w_prov w)) with
  | (Ret _, p) => (Ret (ps_state (pv p)), w{{w_prov := disk p}})
  | (Raise e, p) => (Raise e, w{{w_prov := disk p}})
  end.
Definition _advance_provisioning : wiz prov_state := advance_file false Unclaimed.
Definition _finalize_provisioning : wiz unit :=
  try_except any_exception
    (s ← advance_file true Running; stage (λ z, z{{z_state := Some s}}))
    (λ _, mret tt).

(** ** Saving *)

Definition on_files (f : fsys → conf bool * fsys) : wiz bool := λ w,
  match f (w_fs w) with
  | (Good b, d) => (Ret b, w{{w_fs := d}})
  | (Bad _ _, d) => (Raise Prelude.ConfigError, w{{w_fs := d}})
  | (Crash e, d) => (Raise e, w{{w_fs := d}})
  end.
Definition _step_persist (data : fields) : wiz answer :=
  z ← session;
  let '(device, secrets) := build_documents z in
  bad ← reparsed (dumps_device device) (parse_device netloc_ok toml_other);
  match bad with
  | Some message => refuse message
  | None =>
      bad ← reparsed (dumps_secrets secrets) (parse_secrets toml_other);
      match bad with
      | Some message => refuse message
      | None =>
          ok ← on_files (save_device io umask netloc_ok toml_other device (device_path c) device_mode);
          if negb ok then refuse (u "could not write device configuration")
          else
            ok ← on_files (save_secrets io umask toml_other (TTab secrets) (secrets_path c) secrets_mode);
            if negb ok then refuse (u "could not write secrets configuration")
            else
              _ ← stage (λ z, z{{z_persisted := true}});
              s ← _advance_provisioning;
              _ ← stage (λ z, z{{z_state := Some s}});
              accept
      end
  end.

(** ** The hand-over *)

(** [sensor_handoff_allowed] of [camera_probe.py]; no state is the empty text. *)
Definition sensor_handoff_allowed (state : option prov_state) (running : bool) : bool * pystr :=
  match state with
  | Some s =>
      if bool_decide (s ∈ PRE_RUNTIME_STATES) then
        if running then (false, u "camera source is running; release libcamera before probing")
        else (true, u "sensor hand-off allowed")
      else (false, u "probing is not allowed in state " ++ state_name s)
  | None => (false, u "unknown provisioning state")
  end.
Definition _restart_hotspot : wiz pystr :=
  let ssid := setup_ssid lower (Some (device_id c)) in
  ok ← try_except any_exception (callable (hotspot_start c ssid)) (λ _, mret false);
  _ ← record_call (KStart ssid ok);
  mret (if (ok : bool) then [] else u "hotspot restart failed").
(** The outcome of the station, with the text of its reason. *)
Definition _activate_station (f : pystr → pystr → E → res (bool * pystr) * E) : wiz answer :=
  z ← session;
  let ssid := default [] (z_ssid z) in
  let psk := default [] (z_psk z) in
  outcome ← try_except any_exception (callable (f ssid psk)) (λ _, mret (false, []));
  _ ← record_call (KStation ssid psk (fst (outcome : answer)));
  mret outcome.
Definition in_brackets (s : pystr) : pystr := match s with [] => [] | _ => u " (" ++ s ++ u ")" end.
Definition finished_with (ok : bool) (reason : pystr) : wiz StepResult :=
  z ← session; mret {| sr_ok := ok; sr_reason := reason; sr_step := step_name SFinish; sr_state := z_state z |}.

Definition run_camera (start : E → res pyval * E) : wiz StepResult :=
  started ← try_except any_exception (callable start) (λ _, mret (VBool false));
  let ok := match started with VBool false => false | _ => true end in
  _ ← record_call (KCamera ok);
  if negb ok then
    note ← _restart_hotspot;
    finished_with false (u "camera target failed to start; device stayed in setup" ++ in_brackets note)
  else
    _ ← _finalize_provisioning;
    _ ← stage (λ z, z{{z_finished := true}});
    finished_with true [].
Definition run_station (start : E → res pyval * E) : wiz StepResult :=
  match activate_station c with
  | None => run_camera start
  | Some f =>
      outcome ← _activate_station f;
      let '(ok, detail) := (outcome : answer) in
      if ok then run_camera start
      else
        note ← _restart_hotspot;
        finished_with false (u "station activation failed" ++ in_brackets detail ++ u "; device stayed in setup" ++ in_brackets note)
  end.
(** What the caller says of a live owner of the camera, or the session. *)
Definition live_owner (v : pyval) : bool := match v with VNone => camera_running c | v => truthy v end.
Definition finish (camera_running_now : pyval) : wiz StepResult :=
  z ← session;
  if negb (z_persisted z) then
    mret {| sr_ok := false; sr_reason := u "configuration has not been persisted"; sr_step := step_name SFinish; sr_state := None |}
  else match start_camera c with
  | None => finished_with false (u "camera start callback is not configured")
  | Some start =>
      let '(allowed, reason) := sensor_handoff_allowed (z_state z) (live_owner camera_running_now) in
      if negb allowed then finished_with false reason
      else
        stopped ← try_except any_exception (r ← callable (hotspot_stop c); _ ← record_call (KStop (fst (r : answer))); mret r)
                    (λ e, _ ← record_call (KStop false); raise e);
        let '(ok, why) := (stopped : answer) in
        if negb ok then
          finished_with false (u "could not stop provisioning hotspot: " ++ match why with [] => u "unknown" | _ => why end)
        else run_station start
  end.
Definition _step_finish (data : fields) : wiz answer :=
  r ← finish (field "camera_running" data); mret (sr_ok r, sr_reason r).

(** ** Submitting a step *)

Definition handler (s : step_id) : fields → wiz answer :=
  match s with
  | SStatus => _step_status | SImager_prefill => _step_imager_prefill | SWifi => _step_wifi | SPrusa_token => _step_prusa_token
  | SFingerprint => _step_fingerprint | SAdmin_password => _step_admin_password | SMqtt => _step_mqtt | SSummary => λ _, accept
  | SPersist => _step_persist | SFinish => _step_finish
  end.
Definition _apply_skip (s : step_id) : wiz unit :=
  match s with
  | SPrusa_token => stage (λ z, z{{z_token := [] }})
  | SFingerprint => f ← _derived_fingerprint; stage (λ z, z{{z_fingerprint := f}})
  | SMqtt => stage (λ z, z{{z_mqtt := {| mq_enabled := false; mq_uri := DEFAULT_MQTT_URI; mq_username := []; mq_password := [] |} }})
  | _ => mret tt
  end.
(** The reason a submission is refused before its step is looked at. *)
Definition refused_early (s : step_id) (data : pyval) (z : wizard) : pystr + fields * bool :=
  match data with
  | VDict d =>
      match field "skip" d with
      | VNone | VBool _ =>
          let skip := truthy (field "skip" d) in
          if skip && bool_decide (s ∉ SKIPPABLE_STEPS) then inl (u "this step cannot be skipped")
          else if bool_decide (s = SPersist) && negb (bool_decide (PERSIST_PREREQUISITES ⊆ z_completed z)) then
            inl (u "complete the Wi-Fi and admin password steps first")
          else if bool_decide (s = SFinish) && negb (z_persisted z) then inl (u "configuration has not been persisted")
          else inr (d, skip)
      | _ => inl (u "skip must be a boolean")
      end
  | _ => inl (u "step data must be a mapping")
  end.
Definition completed_step (s : step_id) (z : wizard) : wizard :=
  let z := z{{z_completed := {[s]} ∪ z_completed z}} in
  match next_step s with Some t => z{{z_step := t}} | None => z end.
Definition submit (name : pystr) (data : pyval) : wiz StepResult :=
  z ← session;
  let refused reason := mret {| sr_ok := false; sr_reason := reason; sr_step := name; sr_state := None |} in
  match step_of name with
  | None => refused (u "unknown wizard step")
  | Some s =>
      match refused_early s data z with
      | inl reason => refused reason
      | inr (d, skip) =>
          r ← (if (skip : bool) then
                 _ ← _apply_skip s;
                 _ ← stage (λ z, z{{z_skipped := {[s]} ∪ z_skipped z}});
                 mret (true, [])
               else
                 r ← try_except any_exception (handler s d) (λ _, refuse (u "step failed"));
                 let '(ok, reason) := (r : answer) in
                 if ok then _ ← stage (λ z, z{{z_skipped := z_skipped z ∖ {[s]} }}); mret (true, [])
                 else mret (false, reason) : wiz answer);
          let '(ok, reason) := (r : answer) in
          if negb ok then refused reason
          else
            _ ← stage (completed_step s);
            z ← session;
            mret {| sr_ok := true; sr_reason := []; sr_step := name; sr_state := z_state z |}
      end
  end.
Definition set_step (name : pystr) : wiz bool :=
  match step_of name with Some s => _ ← stage (λ z, z{{z_step := s}}); mret true | None => mret false end.

(** ** The summary *)

Definition entry (key : string) (v : pyval) : pyval * pyval := (VStr (u key), v).
Definition summary_secrets (z : wizard) : list pyval :=
  [VStr (z_token z); VStr (default [] (z_psk z)); VStr (mq_username (z_mqtt z)); VStr (mq_password (z_mqtt z));
   VStr (z_fingerprint z); VStr (z_admin_hash z)].
Definition raw_summary (z : wizard) : pyval :=
  let text v := VStr (default [] v) in
  VDict
    [entry "step" (VStr (step_name (z_step z)));
     entry "completed" (VList (VStr <$> merge_sort str_le (step_name <$> elements (z_completed z))));
     entry "status" (VDict match z_status z with
                           | None => []
                           | Some s => [entry "storage_ready" (VBool (cs_storage s)); entry "camera_ok" (VBool (cs_ok s));
                                        entry "camera_reason" (cs_reason s); entry "sensors" (cs_sensors s)]
                           end);
     entry "imager" (VDict [entry "wifi_ssid" (text (im_ssid <$> z_imager z)); entry "hostname" (text (im_hostname <$> z_imager z));
                            entry "ssh_enabled" (VBool (default false (im_ssh <$> z_imager z)))]);
     entry "wifi" (VDict [entry "ssid" (text (z_ssid z)); entry "psk" (text (z_psk z))]);
     entry "prusa" (VDict [entry "server" (VStr (prusa_server c)); entry "token" (VStr (z_token z))]);
     entry "fingerprint" (VStr (z_fingerprint z));
     entry "admin" (VDict [entry "hostname" (VStr (own_hostname z)); entry "password_hash" (VStr (z_admin_hash z))]);
     entry "mqtt" (VDict [entry "enabled" (VBool (mq_enabled (z_mqtt z))); entry "uri" (VStr (mq_uri (z_mqtt z)));
                          entry "username" (VStr (mq_username (z_mqtt z))); entry "password" (VStr (mq_password (z_mqtt z)))]);
     entry "provisioning_state" (VStr (from_option state_name [] (z_state z)))].
Definition summary (z : wizard) : pyval := redact_value lower (raw_summary z) (summary_secrets z).
End Wizard.

Lemma skippable s : s ∈ SKIPPABLE_STEPS → s ≠ SPersist ∧ s ≠ SFinish ∧ s ≠ SAdmin_password.
Proof. intros Hs. unfold SKIPPABLE_STEPS in Hs. set_solver. Qed.

(** ** What a step does *)

Section WizardSpec.
Context `{UnicodeDB} {E : Type}.
Context (lower : pystr → pystr) (md5_hex : bytes → pystr) (scrypt : scrypt_call → option bytes) (hash_error : pystr).
Context (netloc_ok : pystr → bool) (toml_other : pystr → res (pystr + table)) (io : nat → option nat) (umask : Z).
Context (c : wizard_config (E := E)).

(** A hash that was made of a password strong enough. *)
Definition hashed (h : pystr) : Prop :=
  ∃ s salt, password_strength_ok (VStr s) = (true, Ok) ∧ hash_password scrypt salt (VStr s) = Ret h.
Definition staged_same (z z' : wizard) : Prop :=
  z_status z' = z_status z ∧ z_camera_validated z' = z_camera_validated z ∧ z_imager z' = z_imager z ∧ z_ssid z' = z_ssid z ∧
  z_psk z' = z_psk z ∧ z_fingerprint z' = z_fingerprint z ∧ z_hostname z' = z_hostname z ∧ z_mqtt z' = z_mqtt z ∧
  z_token z' = z_token z ∧ z_admin_hash z' = z_admin_hash z.
Definition progress_same (z z' : wizard) : Prop :=
  z_step z' = z_step z ∧ z_completed z' = z_completed z ∧ z_skipped z' = z_skipped z ∧
  z_persisted z' = z_persisted z ∧ z_finished z' = z_finished z ∧ z_state z' = z_state z.
(** Nothing beyond the staged values changes, and the hash only to a good one. *)
Definition only_staged (w w' : world (E := E)) : Prop :=
  w_fs w' = w_fs w ∧ w_prov w' = w_prov w ∧ w_calls w' = w_calls w ∧ progress_same (ws w) (ws w') ∧
  (z_admin_hash (ws w') = z_admin_hash (ws w) ∨ hashed (z_admin_hash (ws w'))).
Definition step_post (s : step_id) (w : world) (r : res (bool * pystr)) (w' : world) : Prop :=
  only_staged w w' ∧
  ((∃ why, r = Ret (true, why)) ∧ (s = SAdmin_password → hashed (z_admin_hash (ws w'))) ∨
   (∀ why, r ≠ Ret (true, why)) ∧ staged_same (ws w) (ws w')).

Lemma only_staged_refl w : only_staged w w.
Proof. unfold only_staged, progress_same. split_and!; auto. Qed.
Lemma refused_post s w w' r : only_staged w w' → staged_same (ws w) (ws w') → (∀ why, r ≠ Ret (true, why)) → step_post s w r w'.
Proof. intros. split; [done|]. by right. Qed.

Lemma leads_stage f (Q : res unit → world → Prop) (w : world (E := E)) : Q (Ret tt) (w{{ws := f (ws w)}}) → leads (stage f) Q w.
Proof. done. Qed.
Lemma leads_session (Q : res wizard → world → Prop) (w : world (E := E)) : Q (Ret (ws w)) w → leads session Q w.
Proof. done. Qed.
Lemma leads_call k (Q : res unit → world → Prop) (w : world (E := E)) : Q (Ret tt) (w{{w_calls := w_calls w ++ [k] }}) → leads (record_call k) Q w.
Proof. done. Qed.
Lemma leads_accept (Q : res (bool * pystr) → world → Prop) (w : world (E := E)) : Q (Ret (true, [])) w → leads accept Q w.
Proof. done. Qed.
Lemma leads_refuse why (Q : res (bool * pystr) → world → Prop) (w : world (E := E)) : Q (Ret (false, why)) w → leads (refuse why) Q w.
Proof. done. Qed.
Lemma leads_callable {A} (f : E → res A * E) (Q : res A → world → Prop) (w : world (E := E)) :
  (∀ r e, Q r (w{{w_env := e}})) → leads (callable f) Q w.
Proof. intros HQ. unfold leads, callable. destruct (f (w_env w)) as [r e]. apply HQ. Qed.
Ltac through := repeat first
  [ apply leads_bind | apply leads_try | apply leads_ret | apply leads_raise | apply leads_stage | apply leads_session | apply leads_call | apply leads_accept | apply leads_refuse
  | (apply leads_callable; intros [] ?; cbn [any_exception])
  | match goal with
    | |- leads (match ?x with _ => _ end) _ _ => destruct x eqn:?
    | |- leads (if ?x then _ else _) _ _ => destruct x eqn:?
    | |- leads (let '(_, _) := ?x in _) _ _ => destruct x eqn:?
    end ].

(** The goals about a record of a world that is written out. *)
Ltac written_out := unfold only_staged, progress_same, staged_same; cbn; split_and!; auto.
Ltac posted := split; [written_out|first [left; split; [by eauto|done] | right; split; [done|written_out]]].

Context (i : call_in).
Lemma leads_derived (Q : res pystr → world → Prop) (w : world (E := E)) :
  (∀ r f, Q r (w{{w_seed := f}})) → leads (_derived_fingerprint md5_hex i) Q w.
Proof.
  intros HQ. assert (∀ r, Q r w) as HQ0 by (intros r; destruct w as [z f p seed e l]; exact (HQ r seed)).
  unfold leads, _derived_fingerprint. destruct (i_mac i) as [text|e]; [|by destruct (os_error e)].
  destruct (strip text) as [|x mac]; [done|]. destruct (resolve_fingerprint _ _ _ _ _) as [[[]|] ?]; apply HQ.
Qed.
Lemma leads_reparsed {A} text (parse : pystr → conf A) (Q : res (option pystr) → world → Prop) (w : world (E := E)) :
  (∀ r, Q r w) → leads (reparsed text parse) Q w.
Proof. intros HQ. unfold leads, reparsed. by destruct (text ≫= parse). Qed.
Lemma leads_test_mqtt tester uri username password (Q : res (bool * pystr) → world → Prop) (w : world (E := E)) :
  (∀ r e, Q r (w{{w_env := e}})) → leads (_test_mqtt lower tester uri username password) Q w.
Proof.
  intros HQ. unfold _test_mqtt. apply leads_bind, leads_try, leads_bind, leads_callable. intros [v|x] e; cbn [any_exception]; [|apply HQ].
  apply leads_ret. cbv beta iota. destruct (match v with TestPair ok reason => _ | TestOther v => _ end) as [[] why]; apply HQ.
Qed.
Lemma leads_tested enabled d uri username password (Q : res (bool * pystr) → world → Prop) (w : world (E := E)) :
  (∀ r e, Q r (w{{w_env := e}})) → leads (broker_tested lower c enabled d uri username password) Q w.
Proof.
  intros HQ. assert (∀ r, Q r w) as HQ0 by (intros r; destruct w as [z f p seed e l]; exact (HQ r e)).
  unfold broker_tested. destruct (mqtt_tester c); [|by apply leads_accept]. destruct (_ && _); [by apply leads_test_mqtt|by apply leads_accept].
Qed.
Lemma mqtt_post d w : leads (_step_mqtt lower netloc_ok toml_other c d) (step_post SMqtt w) w.
Proof.
  unfold _step_mqtt. destruct (field_or _ _ d) as [|enabled| | | | | |]; try (apply leads_refuse; posted).
  destruct (find _ _) as [[name v]|]; [apply leads_refuse; posted|]. destruct (enabled && _); [apply leads_refuse; posted|].
  apply leads_bind.
  assert (leads (r ← broker_tested lower c enabled d (field_or (VStr []) "uri" d) (field_or (VStr []) "username" d) (field_or (VStr []) "password" d);
    let '(ok, reason) := (r : bool * pystr) in
    if ok then stage_mqtt enabled (field_or (VStr []) "uri" d) (field_or (VStr []) "username" d) (field_or (VStr []) "password" d)
    else refuse reason) (step_post SMqtt w) w) as Hend.
  { apply leads_bind, leads_tested. intros [[[] why]|x] e; [|apply leads_refuse; posted|posted].
    unfold stage_mqtt. through; posted. }
  destruct enabled; [apply leads_reparsed; intros [[m|]|e]|by apply leads_ret]; [apply leads_refuse; posted|done|posted].
Qed.
(** The steps that only stage: nothing else changes, and a refusal stages nothing. *)
Lemma handler_post s d w : s ≠ SPersist → s ≠ SFinish →
  leads (handler lower md5_hex scrypt hash_error netloc_ok toml_other io umask c i s d) (step_post s w) w.
Proof.
  intros Hp Hf. destruct s; try done; cbn [handler].
  - unfold _step_status. through; posted.
  - unfold _step_imager_prefill. through; posted.
  - unfold _step_wifi, scan_networks, join_wifi. through; posted.
  - unfold _step_prusa_token, take_token. through; posted.
  - unfold _step_fingerprint. through; try posted; apply leads_derived; intros [] ?; through; posted.
  - unfold _step_admin_password. through; try posted.
    all: assert (hashed a) as Hh by (match goal with
      | Hs : password_strength_ok (VStr ?s) = _, Hn : negb ?b = false |- _ => destruct b; [|done]; eexists _, _; split; [|done];
          rewrite Hs; f_equal; revert Hs; unfold password_strength_ok; repeat case_match; congruence end).
    all: split; [written_out|]; left; split; [by eauto|done].
  - by apply mqtt_post.
  - through. posted.
Qed.

(** ** Saving *)

Lemma secrets_dict_valid s : _validate_secrets (TTab (secrets_dict s)) = Good s.
Proof. destruct s as [[?|] [?|] [?|] [?|] [?|]]; by vm_compute. Qed.
Lemma secrets_dict_text s : dumps_secrets (secrets_dict s) = Good (secrets_text s).
Proof. rewrite <-dumps_secrets_doc. destruct s as [[?|] [?|] [?|] [?|] [?|]]; reflexivity. Qed.

Definition paths_apart : Prop :=
  NoDup [device_path c; device_path c ++ suffix_tmp; secrets_path c; secrets_path c ++ suffix_tmp].
Context `{!PlainHosts netloc_ok}.
Definition device_there (m : dirmap) : Prop := ∃ d, device_saved netloc_ok m (device_path c) device_mode d.
(** Both documents are on the disk, the secrets with a good hash. *)
Definition claim_saved (m : dirmap) : Prop :=
  device_there m ∧ ∃ s h, secrets_saved m (secrets_path c) secrets_mode s ∧ s_password_hash s = Some h ∧ hashed h.
(** Each document is as it was or was replaced by a complete one. *)
Definition documents_kept (z : wizard) (m m' : dirmap) : Prop :=
  (m' !! device_path c = m !! device_path c ∨ device_there m') ∧
  (m' !! secrets_path c = m !! secrets_path c ∨ secrets_saved m' (secrets_path c) secrets_mode (wizard_secrets z)).

Lemma hashed_not_empty h : hashed h → h ≠ [].
Proof.
  intros (s & salt & _ & Hh) ->. unfold hash_password in Hh. destruct (_valid_password_input _); [|done].
  destruct (utf8_encode _); [|done]. by destruct (scrypt _).
Qed.
Lemma wizard_hash z : hashed (z_admin_hash z) → s_password_hash (wizard_secrets z) = Some (z_admin_hash z).
Proof. intros Hh%hashed_not_empty. cbn. by destruct (z_admin_hash z). Qed.
Lemma claim_saved_kept z m m' : documents_kept z m m' → claim_saved m → hashed (z_admin_hash z) → claim_saved m'.
Proof.
  intros [Hd Hs] [(d & Hdm) (s & h & Hsm & Hh & Hhh)] Hz. split.
  - destruct Hd as [Hd|?]; [|done]. exists d. unfold device_saved in *. by rewrite Hd.
  - destruct Hs as [Hs|Hs]; [|exists (wizard_secrets z), (z_admin_hash z); split_and!; [done|by apply wizard_hash|done]].
    exists s, h. unfold secrets_saved in *. rewrite Hs. done.
Qed.


(** *** The state of the appliance *)

Lemma wizard_facts_steady running z : steady (wizard_facts running z).
Proof. done. Qed.
Lemma advance_until_spec n f goal g (w : pworld) k0 : steady f → synced w → index goal = Some g → index (ps_state (pv w)) = Some k0 →
  ∃ w' k, advance_until i n f goal w = (Ret tt, w') ∧ synced w' ∧ index (ps_state (pv w')) = Some k ∧ ((k0 ≤ g → k ≤ g)%nat) ∧
    (io_available (i_store i) = true → io_write_ok (i_store i) = true → ∀ j, index (_milestone f) = Some j →
       (k0 ≤ g `min` j → g `min` j - k0 ≤ n → k = g `min` j)%nat).
Proof.
  intros Hf. revert w k0. induction n as [|n IH]; intros w k0 Hs Hg Hk0; cbn [advance_until].
  { exists w, k0. split_and!; [done..|]. intros _ _ j _ ??. lia. }
  destruct (bool_decide_reflect (ps_state (pv w) = goal)) as [Heq|Hne].
  { rewrite Heq, Hg in Hk0. injection Hk0 as ->. exists w, k0. rewrite Heq. split_and!; [done..|]. intros _ _ j _ ??. lia. }
  assert (k0 ≠ g) as Hng by (intros ->; eauto using index_inj).
  destruct (advance_steady (i_store i) (i_now i n) f w k0 Hf Hk0) as (r & w' & k & Ha & Hk & Hle & Hup). rewrite Ha.
  assert (synced w') as Hs' by (pose proof (advance_synced (i_store i) (i_now i n) (Ret f) (IsFacts f) w Hs) as Hs'; by rewrite Ha in Hs').
  destruct (negb (tr_ok r) || bool_decide (ps_state (pv w') = ps_state (pv w))) eqn:Hstop.
  - exists w', k. split_and!; [done|done|done|lia|]. intros Hav Hwr j Hj Hmin _. destruct (Hup Hav Hwr j Hj) as [Hgo Hstay].
    destruct (decide (k0 < j)%nat) as [Hlt|]; [|rewrite (Hstay ltac:(lia)) in Hk; rewrite Hk0 in Hk; injection Hk; lia].
    destruct (Hgo Hlt) as [Hok ->]. rewrite Hok in Hstop. apply bool_decide_eq_true in Hstop. rewrite Hstop, Hk0 in Hk. injection Hk. lia.
  - destruct (IH w' k Hs' Hg Hk) as (w2 & k2 & -> & Hs2 & Hk2 & Hg2 & Hup2). exists w2, k2. split_and!; [done|done|done|lia|].
    intros Hav Hwr j Hj Hmin Hn. destruct (Hup Hav Hwr j Hj) as [Hgo Hstay].
    destruct (decide (k0 < j)%nat) as [Hlt|].
    + destruct (Hgo Hlt) as [_ ->]. apply (Hup2 Hav Hwr j Hj); lia.
    + rewrite (Hstay ltac:(lia)) in Hstop. rewrite bool_decide_true, orb_true_r in Hstop by done. done.
Qed.
Lemma advance_file_spec running goal g (w : world (E := E)) k0 : index goal = Some g → index (ps_state (ps_load (w_prov w))) = Some k0 →
  ∃ s f k, advance_file i running goal w = (Ret s, w{{w_prov := f}}) ∧ ps_state (ps_load f) = s ∧ index s = Some k ∧ (k0 ≤ g → k ≤ g)%nat ∧
    (io_available (i_store i) = true → io_write_ok (i_store i) = true → ∀ j, index (_milestone (wizard_facts running (ws w))) = Some j →
       (k0 ≤ g `min` j → k = g `min` j)%nat).
Proof.
  intros Hg Hk0. unfold advance_file.
  destruct (advance_until_spec (length STATES) (wizard_facts running (ws w)) goal g (started (w_prov w)) k0) as (p & k & -> & Hs & Hk & Hle & Hup);
    [apply wizard_facts_steady|apply started_synced|done|done|].
  exists (ps_state (pv p)), (disk p), k. split_and!; [done|apply Hs|done|done|]. intros Ha Hw j Hj Hm. apply (Hup Ha Hw j Hj Hm).
  apply index_bound in Hg. cbn. lia.
Qed.

(** *** The step *)

Lemma leads_on_files f (Q : res bool → world → Prop) (w : world (E := E)) :
  (∀ r d, f (w_fs w) = (r, d) → Q (match r with Good b => Ret b | Bad _ _ => Raise Prelude.ConfigError | Crash e => Raise e end) (w{{w_fs := d}})) →
  leads (on_files f) Q w.
Proof. intros HQ. unfold leads, on_files. destruct (f (w_fs w)) as [[b| |e] d] eqn:Hf; apply (HQ _ _ eq_refl). Qed.
Lemma leads_advance running goal g (Q : res prov_state → world → Prop) (w : world (E := E)) k0 :
  index goal = Some g → index (ps_state (ps_load (w_prov w))) = Some k0 →
  (∀ s f k, ps_state (ps_load f) = s → index s = Some k → (k0 ≤ g → k ≤ g)%nat →
    (io_available (i_store i) = true → io_write_ok (i_store i) = true → ∀ j, index (_milestone (wizard_facts running (ws w))) = Some j →
       (k0 ≤ g `min` j → k = g `min` j)%nat) → Q (Ret s) (w{{w_prov := f}})) →
  leads (advance_file i running goal) Q w.
Proof.
  intros Hg Hk0 HQ. destruct (advance_file_spec running goal g w k0 Hg Hk0) as (s & f & k & Ha & Hs & Hk & Hle & Hup).
  unfold leads. rewrite Ha. by eapply HQ.
Qed.

(** What saving did, from a state of index [k0]. *)
Definition persisted_post (k0 : nat) (w w' : world (E := E)) : Prop :=
  ∃ s k, ws w' = (ws w){{z_persisted := true}}{{z_state := Some s}} ∧ ps_state (ps_load (w_prov w')) = s ∧ index s = Some k ∧
    (k0 ≤ 3 → k ≤ 3)%nat ∧
    (io_available (i_store i) = true → io_write_ok (i_store i) = true → z_camera_validated (ws w) = true → (k0 ≤ 3)%nat → s = Unclaimed) ∧
    device_there (files (w_fs w')) ∧ secrets_saved (files (w_fs w')) (secrets_path c) secrets_mode (wizard_secrets (ws w)).
Definition persist_post (k0 : nat) (w : world) (r : res (bool * pystr)) (w' : world) : Prop :=
  w_calls w' = w_calls w ∧
  (r = Ret (true, []) ∧ persisted_post k0 w w' ∨
   (∀ why, r ≠ Ret (true, why)) ∧ ws w' = ws w ∧ w_prov w' = w_prov w ∧ documents_kept (ws w) (files (w_fs w)) (files (w_fs w'))).
Lemma not_persisted k0 w r w' : w_calls w' = w_calls w → (∀ why, r ≠ Ret (true, why)) → ws w' = ws w → w_prov w' = w_prov w →
  documents_kept (ws w) (files (w_fs w)) (files (w_fs w')) → persist_post k0 w r w'.
Proof. intros. split; [done|]. by right. Qed.
(** With a camera that was validated the facts of the wizard are those of a claim. *)
Lemma wizard_milestone running z : z_camera_validated z = true →
  ∃ j, index (_milestone (wizard_facts running z)) = Some j ∧ (3 < j)%nat.
Proof.
  intros Hc. unfold _milestone, wizard_facts. cbn -[index]. rewrite Hc. cbn -[index].
  destruct (bool_decide _), running; first [by exists 4%nat; split; [|lia]|by exists 5%nat; split; [|lia]|by exists 6%nat; split; [|lia]].
Qed.
Lemma documents_kept_refl z m : documents_kept z m m.
Proof. split; by left. Qed.

Lemma persist_leads d w k0 : paths_apart → index (ps_state (ps_load (w_prov w))) = Some k0 →
  leads (_step_persist lower netloc_ok toml_other io umask c i d) (persist_post k0 w) w.
Proof.
  intros Hpaths Hk0.
  assert (device_path c ≠ secrets_path c ∧ secrets_path c ≠ device_path c ∧ secrets_path c ≠ device_path c ++ suffix_tmp ∧
    device_path c ≠ secrets_path c ++ suffix_tmp) as (? & ? & ? & ?).
  { unfold paths_apart in Hpaths. rewrite !NoDup_cons, !not_elem_of_cons in Hpaths. naive_solver. }
  unfold _step_persist. apply leads_bind, leads_session. cbn [build_documents]. unfold build_documents.
  apply leads_bind, leads_reparsed. intros [[why|]|e]; [apply leads_refuse; by apply not_persisted; try apply documents_kept_refl| |by apply not_persisted; try apply documents_kept_refl].
  apply leads_bind, leads_reparsed. intros [[why|]|e]; [apply leads_refuse; by apply not_persisted; try apply documents_kept_refl| |by apply not_persisted; try apply documents_kept_refl].
  apply leads_bind, leads_on_files. intros rd fd Hd.
  pose proof (save_end _ _ _ _ _ _ _ _ _ Hd) as (Hframe & _ & Hbad). 
  assert (rd ≠ Good true → documents_kept (ws w) (files (w_fs w)) (files fd)) as Hkept1 by (intros Hn; split; left; [by apply Hbad|by apply Hframe]).
  destruct rd as [[]|e m|e]; [|apply leads_refuse; apply not_persisted; try done; by apply Hkept1|by apply not_persisted; try done; apply Hkept1..].
  assert (device_there (files fd)) as Hdev by (destruct (save_device_end _ _ _ _ _ _ _ _ _ _ Hd eq_refl) as (x & _ & ?); by exists x).
  cbn [negb]. apply leads_bind, leads_on_files. intros rs fs Hs. cbn [w_fs] in Hs. change (constant ?x _) with x in Hs.
  pose proof (save_end _ _ _ _ _ _ _ _ _ Hs) as (Hframe2 & _ & Hbad2).
  assert (device_there (files fs)) as Hdev2.
  { destruct Hdev as (x & Hx). exists x. unfold device_saved in *. by rewrite Hframe2. }
  assert (rs ≠ Good true → documents_kept (ws w) (files (w_fs w)) (files fs)) as Hkept2.
  { intros Hn. split; [by right|left]. rewrite (Hbad2 Hn). by apply Hframe. }
  destruct rs as [[]|e m|e]; [|apply leads_refuse; apply not_persisted; try done; by apply Hkept2|by apply not_persisted; try done; apply Hkept2..].
  cbn [negb]. apply leads_bind, leads_stage, leads_bind. unfold _advance_provisioning.
  apply (leads_advance false Unclaimed 3) with (k0 := k0); [reflexivity|exact Hk0|].
  intros s f k Hf Hk Hle Hup. apply leads_bind, leads_stage, leads_accept. split; [done|]. left. split; [done|].
  exists s, k. split_and!; [done|done|done|exact Hle| |exact Hdev2|].
  - intros Ha Hw Hcam Hk3. assert (z_camera_validated ((ws w){{z_persisted := true}}) = true) as Hc by (by destruct (ws w)).
    destruct (wizard_milestone false _ Hc) as (j & Hj & Hj3).
    assert (k = 3%nat) as -> by (pose proof (Hup Ha Hw j Hj); lia). by eapply index_inj.
  - destruct (save_secrets_end _ _ _ _ _ _ _ _ _ Hs eq_refl) as (x & Hx & Hsec). rewrite secrets_dict_valid in Hx. by injection Hx as <-.
Qed.

(** ** The hand-over *)

Definition station_done (z : wizard) : list setup_call :=
  match activate_station c with Some _ => [KStation (default [] (z_ssid z)) (default [] (z_psk z)) true] | None => [] end.
Definition portal_name : pystr := setup_ssid lower (Some (device_id c)).
(** The calls of a hand-over, and whether it succeeded. *)
Inductive handed_over (z : wizard) : list setup_call → bool → Prop :=
  | ho_denied : handed_over z [] false
  | ho_stop : handed_over z [KStop false] false
  | ho_station ok : activate_station c ≠ None →
      handed_over z [KStop true; KStation (default [] (z_ssid z)) (default [] (z_psk z)) false; KStart portal_name ok] false
  | ho_camera ok : handed_over z (KStop true :: station_done z ++ [KCamera false; KStart portal_name ok]) false
  | ho_done : handed_over z (KStop true :: station_done z ++ [KCamera true]) true.
(** What a hand-over needs before it calls anything. *)
Definition may_start (z : wizard) (running : bool) : Prop :=
  z_persisted z = true ∧ start_camera c ≠ None ∧ running = false ∧ ∃ s, z_state z = Some s ∧ s ∈ PRE_RUNTIME_STATES.

Definition finish_done (k0 : nat) (w w' : world (E := E)) : Prop :=
  ∃ s k, ws w' = (ws w){{z_state := Some s}}{{z_finished := true}} ∧ ps_state (ps_load (w_prov w')) = s ∧ index s = Some k ∧
    (io_available (i_store i) = true → io_write_ok (i_store i) = true → ∀ j, index (_milestone (wizard_facts true (ws w))) = Some j →
       (k0 ≤ j → k = j)%nat).
Definition finish_post (k0 : nat) (running : bool) (w : world) (r : res StepResult) (w' : world) : Prop :=
  ∃ new ok, w_calls w' = w_calls w ++ new ∧ handed_over (ws w) new ok ∧ w_fs w' = w_fs w ∧
    (new ≠ [] → may_start (ws w) running) ∧
    (if ok : bool then (∃ res, r = Ret res ∧ sr_ok res = true) ∧ finish_done k0 w w'
     else (∀ res, r = Ret res → sr_ok res = false) ∧ ws w' = ws w ∧ w_prov w' = w_prov w).

Lemma leads_restart (Q : res pystr → world → Prop) (w : world (E := E)) :
  (∀ note e ok, Q (Ret note) (w{{w_env := e}}{{w_calls := w_calls w ++ [KStart portal_name ok] }})) → leads (_restart_hotspot lower c) Q w.
Proof. intros HQ. unfold _restart_hotspot. through; apply HQ. Qed.
Lemma leads_finished_with ok why (Q : res StepResult → world → Prop) (w : world (E := E)) :
  (∀ res, sr_ok res = ok → Q (Ret res) w) → leads (finished_with ok why) Q w.
Proof. intros HQ. unfold finished_with. through. by apply HQ. Qed.
Lemma leads_finalize (Q : res unit → world → Prop) (w : world (E := E)) k0 :
  index (ps_state (ps_load (w_prov w))) = Some k0 →
  (∀ s f k, ps_state (ps_load f) = s → index s = Some k →
    (io_available (i_store i) = true → io_write_ok (i_store i) = true → ∀ j, index (_milestone (wizard_facts true (ws w))) = Some j →
       (k0 ≤ j → k = j)%nat) → Q (Ret tt) (w{{w_prov := f}}{{ws := (ws w){{z_state := Some s}} }})) →
  leads (_finalize_provisioning i) Q w.
Proof.
  intros Hk0 HQ. unfold _finalize_provisioning. apply leads_try, leads_bind. apply (leads_advance true Running 6) with (k0 := k0); [reflexivity|exact Hk0|].
  intros s f k Hf Hk _ Hup. apply leads_stage. eapply HQ; [exact Hf|exact Hk|]. intros Ha Hw j Hj Hle.
  pose proof (Hup Ha Hw j Hj). apply index_bound in Hj. lia.
Qed.

Section Finish.
Context (k0 : nat) (running : bool) (w0 : world (E := E)).
(** A world of the hand-over: only the calls and the environment differ. *)
Definition handing (new : list setup_call) (w : world (E := E)) : Prop :=
  ws w = ws w0 ∧ w_fs w = w_fs w0 ∧ w_prov w = w_prov w0 ∧ w_calls w = w_calls w0 ++ new.
Lemma handing_next new k w e : handing new w → handing (new ++ [k]) (w{{w_env := e}}{{w_calls := w_calls w ++ [k] }}).
Proof. intros (Hz & Hf & Hp & Hc). unfold handing. cbn. split_and!; [done..|]. change (constant ?x _) with x. by rewrite Hc, app_assoc. Qed.
Lemma finish_failed new w r : handing new w → handed_over (ws w0) new false → (new ≠ [] → may_start (ws w0) running) →
  (∀ res, r = Ret res → sr_ok res = false) → finish_post k0 running w0 r w.
Proof. intros (Hz & Hf & Hp & Hc) Hh Hm Hr. exists new, false. done. Qed.

Hypothesis Hk0 : index (ps_state (ps_load (w_prov w0))) = Some k0.
Hypothesis Hmay : may_start (ws w0) running.
Lemma camera_leads start w : handing (KStop true :: station_done (ws w0)) w →
  leads (run_camera lower c i start) (finish_post k0 running w0) w.
Proof.
  intros Hw. unfold run_camera. apply leads_bind, leads_try, leads_callable. intros r e.
  assert (∀ ok w, handing (KStop true :: station_done (ws w0)) w → leads
    (_ ← record_call (KCamera ok);
     if negb ok then note ← _restart_hotspot lower c;
       finished_with false (u "camera target failed to start; device stayed in setup" ++ in_brackets note)
     else _ ← _finalize_provisioning i; _ ← stage (λ z, z{{z_finished := true}}); finished_with true [])
    (finish_post k0 running w0) w) as Hend.
  { clear w r e Hw. intros ok w Hw. apply leads_bind, leads_call. pose proof (handing_next _ (KCamera ok) w (w_env w) Hw) as Hw1.
    destruct ok; cbn [negb].
    - destruct Hw1 as (Hz & Hf & Hp & Hc). apply leads_bind, (leads_finalize _ _ k0); [by rewrite <-Hk0, <-Hp|].
      intros s f k Hs Hk Hup. apply leads_bind, leads_stage, leads_finished_with. intros res Hres.
      exists (KStop true :: station_done (ws w0) ++ [KCamera true]), true. split_and!; [exact Hc|constructor|exact Hf|done|by exists res|].
      exists s, k. split_and!; [|exact Hs|exact Hk|].
      + by rewrite <-Hz.
      + intros Ha Hwr j Hj. apply (Hup Ha Hwr j). change (index (_milestone (wizard_facts true (ws w))) = Some j).
        change (ws w = ws w0) in Hz. by rewrite Hz.
    - apply leads_bind, leads_restart. intros note e ok. apply leads_finished_with. intros res Hres.
      pose proof (handing_next _ (KStart portal_name ok) _ e Hw1) as Hw2. rewrite <-app_assoc in Hw2.
      eapply finish_failed; [exact Hw2|apply ho_camera|done|by intros ? [= ->]]. }
  assert (handing (KStop true :: station_done (ws w0)) (w{{w_env := e}})) as Hw' by exact Hw.
  destruct r as [v|x]; cbn [any_exception]; [|by apply (Hend false)]. destruct v as [|[]| | | | | |]; first [by apply (Hend false)|by apply (Hend true)].
Qed.
Lemma station_leads start w : handing [KStop true] w → leads (run_station lower c i start) (finish_post k0 running w0) w.
Proof.
  intros Hw. pose proof (camera_leads start) as Hcam. unfold station_done in Hcam. unfold run_station.
  destruct (activate_station c) as [f|] eqn:Hst; [|by apply Hcam].
  apply leads_bind. unfold _activate_station. apply leads_bind, leads_session, leads_bind, leads_try, leads_callable. intros r e.
  assert (ws w = ws w0) as Hz by apply Hw.
  assert (∀ outcome, leads (_ ← record_call (KStation (default [] (z_ssid (ws w))) (default [] (z_psk (ws w))) (fst (outcome : bool * pystr))); mret outcome)
    (λ r w', match r with
             | Ret outcome => leads (let '(ok, detail) := outcome in if ok then run_camera lower c i start else
                 note ← _restart_hotspot lower c;
                 finished_with false (u "station activation failed" ++ in_brackets detail ++ u "; device stayed in setup" ++ in_brackets note))
                 (finish_post k0 running w0) w'
             | Raise e => finish_post k0 running w0 (Raise e) w'
             end) (w{{w_env := e}})) as Hend.
  { intros [ok why]. apply leads_bind, leads_call, leads_ret. rewrite Hz.
    pose proof (handing_next _ (KStation (default [] (z_ssid (ws w0))) (default [] (z_psk (ws w0))) ok) w e Hw) as Hw1.
    destruct ok; [by apply Hcam|]. apply leads_bind, leads_restart. intros note e2 ok. apply leads_finished_with. intros res Hres.
    pose proof (handing_next _ (KStart portal_name ok) _ e2 Hw1) as Hw2.
    eapply finish_failed; [exact Hw2|apply ho_station; congruence|done|by intros ? [= ->]]. }
  destruct r as [outcome|x]; cbn [any_exception]; [apply (Hend outcome)|apply (Hend (false, []))].
Qed.
End Finish.

Lemma finish_leads v w k0 : index (ps_state (ps_load (w_prov w))) = Some k0 →
  leads (finish lower c i v) (finish_post k0 (live_owner c v) w) w.
Proof.
  intros Hk0. set (running := live_owner c v).
  assert (handing w [] w) as Hw0 by (split_and!; [done..|by rewrite app_nil_r]).
  assert (∀ why, leads (finished_with false why) (finish_post k0 running w) w) as Hdenied.
  { intros why. apply leads_finished_with. intros res Hres. eapply finish_failed; [exact Hw0|constructor|done|by intros ? [= ->]]. }
  unfold finish. apply leads_bind, leads_session. destruct (z_persisted (ws w)) eqn:Hp; cbn [negb].
  2: { apply leads_ret. eapply finish_failed; [exact Hw0|constructor|done|by intros ? [= <-]]. }
  destruct (start_camera c) as [start|] eqn:Hst; [|apply Hdenied]. fold running.
  unfold sensor_handoff_allowed. destruct (z_state (ws w)) as [s|] eqn:Hs; [|apply Hdenied].
  destruct (bool_decide_reflect (s ∈ PRE_RUNTIME_STATES)) as [Hin|]; [|apply Hdenied].
  destruct running eqn:Hrun; [apply Hdenied|]. cbn [negb].
  assert (may_start (ws w) false) as Hmay by (split_and!; [done|congruence|done|by exists s]).
  apply leads_bind, leads_try, leads_bind, leads_callable. intros r e.
  pose proof (handing_next w [] (KStop true) w e Hw0) as Ht. pose proof (handing_next w [] (KStop false) w e Hw0) as Hf.
  destruct r as [[[] why]|x]; cbn [any_exception].
  - apply leads_bind, leads_call, leads_ret. cbn [negb]. by apply station_leads.
  - apply leads_bind, leads_call, leads_ret. cbn [negb]. apply leads_finished_with. intros res Hres.
    eapply finish_failed; [exact Hf|constructor|done|by intros ? [= ->]].
  - apply leads_bind, leads_call, leads_raise. eapply finish_failed; [exact Hf|constructor|done|done].
Qed.

(** ** Submitting a step *)

Definition handler_effect (s : step_id) (d : list (pyval * pyval)) (k0 : nat) (w : world (E := E)) (r : res (bool * pystr)) (w' : world) : Prop :=
  match s with
  | SPersist => PERSIST_PREREQUISITES ⊆ z_completed (ws w) ∧ persist_post k0 w r w'
  | SFinish => ∃ res, finish_post k0 (live_owner c (field "camera_running" d)) w res w' ∧
      r = match res with Ret x => Ret (sr_ok x, sr_reason x) | Raise e => Raise e end
  | _ => step_post s w r w'
  end.
(** How a submission ends after the work of its step. *)
Definition answered (s : step_id) (r0 : res (bool * pystr)) (w1 : world (E := E)) (r : res StepResult) (w' : world) : Prop :=
  (∃ res why sk, r = Ret res ∧ sr_ok res = true ∧ r0 = Ret (true, why) ∧ w' = w1{{ws := completed_step s ((ws w1){{z_skipped := sk}})}}) ∨
  (((∃ res, r = Ret res ∧ sr_ok res = false) ∨ s ∈ SKIPPABLE_STEPS ∧ ∃ e, r = Raise e) ∧ (∀ why, r0 ≠ Ret (true, why)) ∧ w' = w1).
Definition submit_post (name : pystr) (data : pyval) (k0 : nat) (w : world) (r : res StepResult) (w' : world) : Prop :=
  w' = w ∧ (∃ res, r = Ret res ∧ sr_ok res = false) ∨
  ∃ s d r0 w1, step_of name = Some s ∧ data = VDict d ∧ handler_effect s d k0 w r0 w1 ∧ answered s r0 w1 r w'.

Lemma skip_post s w : leads (_apply_skip md5_hex i s)
  (λ r w', s ≠ SPersist → s ≠ SFinish → s ≠ SAdmin_password →
     step_post s w (match r with Ret _ => Ret (true, []) | Raise e => Raise e end) w') w.
Proof.
  assert (∀ f w', w' = w{{ws := f (ws w)}} → z_admin_hash (f (ws w)) = z_admin_hash (ws w) → progress_same (ws w) (f (ws w)) →
    s ≠ SAdmin_password → step_post s w (Ret (true, [])) w') as Hst.
  { intros f w' -> Hh Hp Hs. split; [split_and!; [done|done|done|exact Hp|by left]|]. left. split; [by eauto|done]. }
  destruct s; cbn [_apply_skip]; try (apply leads_ret; intros; apply (Hst id); [by destruct w|done|by split_and!|done]).
  - apply leads_stage. intros _ _ Hs. eapply (Hst (λ z, z{{z_token := [] }})); [done|done|by split_and!|done].
  - apply leads_bind, leads_derived. intros [fp|e] f; [apply leads_stage|]; intros _ _ Hs.
    + split; [written_out|]. left. split; [by eauto|done].
    + posted.
  - apply leads_stage. intros _ _ Hs. split; [written_out|]. left. split; [by eauto|done].
Qed.
Lemma handler_leads s d w k0 : paths_apart → index (ps_state (ps_load (w_prov w))) = Some k0 →
  (s = SPersist → PERSIST_PREREQUISITES ⊆ z_completed (ws w)) →
  leads (handler lower md5_hex scrypt hash_error netloc_ok toml_other io umask c i s d) (handler_effect s d k0 w) w.
Proof.
  intros Hp Hk0 Hpre. destruct (decide (s = SPersist)) as [->|]; [|destruct (decide (s = SFinish)) as [->|]].
  - eapply leads_mono; [by apply persist_leads|]. intros r w' Hpost. split; [by apply Hpre|done].
  - cbn [handler]. unfold _step_finish. apply leads_bind. eapply leads_mono; [by apply finish_leads|].
    intros [res|e] w' Hpost; [apply leads_ret; exists (Ret res)|exists (Raise e)]; (split; [exact Hpost|done]).
  - eapply leads_mono; [by apply handler_post|]. by destruct s.
Qed.

Lemma submit_leads name data w k0 : paths_apart → index (ps_state (ps_load (w_prov w))) = Some k0 →
  leads (submit lower md5_hex scrypt hash_error netloc_ok toml_other io umask c i name data) (submit_post name data k0 w) w.
Proof.
  intros Hp Hk0. unfold submit. apply leads_bind, leads_session.
  assert (∀ why, leads (mret {| sr_ok := false; sr_reason := why; sr_step := name; sr_state := None |}) (submit_post name data k0 w) w) as Href.
  { intros why. apply leads_ret. left. split; [done|by eexists]. }
  destruct (step_of name) as [s|] eqn:Hs; [|apply Href].
  destruct (refused_early s data (ws w)) as [why|[d skip]] eqn:He; [apply Href|].
  assert (data = VDict d ∧ (skip = true → s ∈ SKIPPABLE_STEPS) ∧ (s = SPersist → PERSIST_PREREQUISITES ⊆ z_completed (ws w))) as (Hd & Hskip & Hpre).
  { unfold refused_early in He. destruct data as [| | | | | | |d']; try done. destruct (field "skip" d') eqn:Hf; try done.
    all: destruct (truthy _ && _) eqn:H1; [done|]; destruct (bool_decide (s = SPersist) && _) eqn:H2; [done|].
    all: destruct (bool_decide (s = SFinish) && _); [done|]; injection He as <- <-.
    all: split; [done|]; split; [intros Ht; apply andb_false_iff in H1 as [H1|H1]; [by rewrite H1 in Ht || (cbn in H1, Ht; congruence)|]; apply bool_decide_eq_false in H1; by apply dec_stable|].
    all: intros ->; cbn in H2; apply negb_false_iff, bool_decide_eq_true in H2; done. }
  apply leads_bind.
  assert (∀ r0 w1, handler_effect s d k0 w r0 w1 → ((∃ e, r0 = Raise e) → s ∈ SKIPPABLE_STEPS) → ∀ sk, leads (match r0 with Ret (true, why) =>
      _ ← stage (λ z, z{{z_skipped := sk z}}); mret (true, []) | Ret (false, why) => mret (false, why) | Raise e => raise e end)
    (λ r w', match r with
             | Ret a => leads (let '(ok, reason) := a : bool * pystr in
                 if negb ok then mret {| sr_ok := false; sr_reason := reason; sr_step := name; sr_state := None |}
                 else _ ← stage (completed_step s); z ← session;
                      mret {| sr_ok := true; sr_reason := []; sr_step := name; sr_state := z_state z |}) (submit_post name data k0 w) w'
             | Raise e => submit_post name data k0 w (Raise e) w'
             end) w1) as Hend.
  { intros r0 w1 Heff Hr0 sk. destruct r0 as [[[] why]|e].
    - apply leads_bind, leads_stage, leads_ret. cbn [negb]. apply leads_bind, leads_stage, leads_bind, leads_session, leads_ret.
      right. eexists s, d, _, w1. split_and!; [done|done|exact Heff|]. left. eexists _, why, (sk (ws w1)). split_and!; [done|done|done|].
      by destruct w1.
    - apply leads_ret. cbn [negb]. apply leads_ret. right. eexists s, d, _, w1. split_and!; [done|done|exact Heff|]. right.
      split_and!; [left; by eexists|done|done].
    - apply leads_raise. right. eexists s, d, _, w1. split_and!; [done|done|exact Heff|]. right. split_and!; [right; split; [apply Hr0|]; by eexists|done|done]. }
  destruct skip.
  - destruct (skippable s (Hskip eq_refl)) as (Hs1 & Hs2 & Hs3).
    apply leads_bind. eapply leads_mono; [apply (skip_post s w)|]. intros r w1 Hpost. specialize (Hpost Hs1 Hs2 Hs3).
    assert (handler_effect s d k0 w (match r with Ret _ => Ret (true, []) | Raise e => Raise e end) w1) as Heff by (by destruct s).
    destruct r as [[]|e]; [|by apply (Hend _ w1 Heff (λ _, Hskip eq_refl) z_skipped)]. by apply (Hend _ w1 Heff (λ _, Hskip eq_refl) (λ z, {[s]} ∪ z_skipped z)).
  - apply leads_bind, leads_try. eapply leads_mono; [by apply handler_leads|]. intros r w1 Heff.
    destruct r as [[ok why]|e]; cbn [any_exception].
    + pose proof (Hend _ w1 Heff ltac:(by intros [? [=]]) (λ z, z_skipped z ∖ {[s]})) as Hl. destruct ok; exact Hl.
    + apply leads_refuse, leads_ret. cbn [negb]. apply leads_ret. right. eexists s, d, _, w1. split_and!; [done|done|exact Heff|]. right.
      split_and!; [left; by eexists|done|done].
Qed.
End WizardSpec.

(** ** Runs of the wizard *)

Section WizardRuns.
Context `{UnicodeDB} {E : Type}.
Context (lower : pystr → pystr) (md5_hex : bytes → pystr) (scrypt : scrypt_call → option bytes) (hash_error : pystr).
Context (netloc_ok : pystr → bool) `{!PlainHosts netloc_ok} (toml_other : pystr → res (pystr + table)) (io : nat → option nat) (umask : Z).
Context (c : wizard_config (E := E)).
Abbreviation do_submit := (submit lower md5_hex scrypt hash_error netloc_ok toml_other io umask c).

(** Any sequence of submissions, with restarts of the service between them: the staged
    values are lost and the disk stays. *)
Inductive wizard_run (w0 : world (E := E)) : world (E := E) → Prop :=
  | run_start : wizard_run w0 w0
  | run_submit i name data w : wizard_run w0 w → wizard_run w0 (do_submit i name data w).2
  | run_show name w : wizard_run w0 w → wizard_run w0 (set_step name w).2
  | run_restart e w : wizard_run w0 w → wizard_run w0 (w{{ws := new_wizard}}{{w_env := e}}).

Record wizard_ok (w : world (E := E)) : Prop := {
  ok_index : ∃ k, index (ps_state (ps_load (w_prov w))) = Some k;
  ok_state : pre_claim (ps_state (ps_load (w_prov w))) ∨ KCamera true ∈ w_calls w ∧ claim_saved scrypt netloc_ok c (files (w_fs w));
  ok_password : SAdmin_password ∈ z_completed (ws w) → hashed scrypt (z_admin_hash (ws w));
  ok_saved : z_persisted (ws w) = true → claim_saved scrypt netloc_ok c (files (w_fs w));
}.
Lemma completed_staged s z sk : let z' := completed_step s (z{{z_skipped := sk}}) in
  z_completed z' = {[s]} ∪ z_completed z ∧ z_persisted z' = z_persisted z ∧ z_admin_hash z' = z_admin_hash z ∧
  z_finished z' = z_finished z ∧ z_state z' = z_state z ∧ z_token z' = z_token z ∧ z_camera_validated z' = z_camera_validated z.
Proof. unfold completed_step. by destruct (next_step s). Qed.
Lemma completed_ok s w sk : wizard_ok w → (s = SAdmin_password → hashed scrypt (z_admin_hash (ws w))) →
  wizard_ok (w{{ws := completed_step s ((ws w){{z_skipped := sk}}) }}).
Proof.
  intros [Hi Hs Hp Hsv] Hnew. destruct (completed_staged s (ws w) sk) as (Hc & Hper & Hh & _). cbv zeta in *.
  split; [exact Hi|exact Hs| |].
  - intros Hin. change (SAdmin_password ∈ z_completed (completed_step s ((ws w){{z_skipped := sk}}))) in Hin. rewrite Hc in Hin.
    change (hashed scrypt (z_admin_hash (completed_step s ((ws w){{z_skipped := sk}})))). rewrite Hh.
    apply elem_of_union in Hin as [<-%elem_of_singleton|Hin]; [by apply Hnew|by apply Hp].
  - intros Hin. change (z_persisted (completed_step s ((ws w){{z_skipped := sk}})) = true) in Hin. rewrite Hper in Hin. by apply Hsv.
Qed.

Lemma pre_claim_le k f : index (ps_state (ps_load f)) = Some k → (k ≤ 3)%nat → pre_claim (ps_state (ps_load f)).
Proof. intros Hk Hle. apply pre_claim_index. exists k. split; [done|lia]. Qed.
Lemma pre_claim_ge k f : index (ps_state (ps_load f)) = Some k → pre_claim (ps_state (ps_load f)) → (k ≤ 3)%nat.
Proof. intros Hk (j & Hj & Hlt)%pre_claim_index. rewrite Hk in Hj. injection Hj as ->. lia. Qed.

(** The work of a step keeps the invariant. *)
Lemma effect_ok i s d k0 w r w1 : index (ps_state (ps_load (w_prov w))) = Some k0 → wizard_ok w →
  handler_effect lower scrypt netloc_ok c i s d k0 w r w1 →
  wizard_ok w1 ∧ (∀ why, r = Ret (true, why) → s = SAdmin_password → hashed scrypt (z_admin_hash (ws w1))).
Proof.
  intros Hk0 Hok Heff. pose proof Hok as [Hi Hs Hp Hsv].
  destruct (decide (s = SPersist)) as [->|]; [|destruct (decide (s = SFinish)) as [->|]].
  - destruct Heff as [Hpre [Hcalls Hpost]]. split; [|done].
    assert (hashed scrypt (z_admin_hash (ws w))) as Hh by (apply Hp, Hpre; unfold PERSIST_PREREQUISITES; set_solver).
    destruct Hpost as [(_ & st & k & Hz & Hst & Hk & Hle & _ & Hdev & Hsec)|(_ & Hz & Hprov & Hkept)].
    + assert (claim_saved scrypt netloc_ok c (files (w_fs w1))) as Hclaim.
      { split; [done|]. eexists _, _. split_and!; [done|by eapply wizard_hash|done]. }
      split; [eexists; by rewrite Hst| |rewrite Hz; done|done]. destruct Hs as [Hs|[Hcam _]]; [left|right; by rewrite Hcalls].
      apply (pre_claim_le k); [by rewrite Hst|]. apply Hle. by eapply pre_claim_ge.
    + split; rewrite ?Hprov, ?Hz, ?Hcalls; [done| |done|].
      * destruct Hs as [?|[? ?]]; [by left|right; split; [done|by eapply claim_saved_kept]].
      * intros Hper. eapply claim_saved_kept; [done|by apply Hsv|done].
  - destruct Heff as (res & (new & ok & Hcalls & Hho & Hfs & Hmay & Hend) & ->). split; [|done].
    destruct ok.
    + destruct Hend as (_ & st & k & Hz & Hst & Hk & _).
      assert (new ≠ []) as Hne by (by inversion Hho). destruct (Hmay Hne) as [Hper _]. specialize (Hsv Hper).
      split; [eexists; by rewrite Hst| |by rewrite Hz|by rewrite Hfs]. right. rewrite Hfs, Hcalls. split; [|done].
      apply elem_of_app. right. inversion Hho. subst. rewrite app_comm_cons. apply elem_of_app. right. by left.
    + destruct Hend as (_ & Hz & Hprov). split; rewrite ?Hprov, ?Hz, ?Hfs; [done| |done|done].
      destruct Hs as [?|[? ?]]; [by left|right]. rewrite Hcalls. split; [|done]. apply elem_of_app. by left.
  - assert (step_post scrypt s w r w1) as [(Hfs & Hprov & Hcalls & (_ & Hc & _ & Hper & _ & _) & Hh) Hr] by (by destruct s).
    split; [|intros why -> ->; destruct Hr as [[_ Hr]|[Hr _]]; [by apply Hr|by destruct (Hr why)]].
    split; rewrite ?Hfs, ?Hprov, ?Hcalls, ?Hc, ?Hper; [done|done| |done].
    intros Hin. destruct Hh as [->|?]; [by apply Hp|done].
Qed.
Lemma submit_ok i name data w : paths_apart c → wizard_ok w → wizard_ok (do_submit i name data w).2.
Proof.
  intros Hpaths Hok. pose proof Hok as [[k0 Hk0] _ _ _].
  pose proof (submit_leads lower md5_hex scrypt hash_error netloc_ok toml_other io umask c i name data w k0 Hpaths Hk0) as Hl.
  unfold leads in Hl. destruct (do_submit i name data w) as [r w']. cbn [fst snd] in *.
  destruct Hl as [[-> _]|(s & d & r0 & w1 & _ & _ & Heff & Hans)]; [done|].
  destruct (effect_ok _ _ _ _ _ _ _ Hk0 Hok Heff) as [Hok1 Hpw].
  destruct Hans as [(res & why & sk & _ & _ & -> & ->)|(_ & _ & ->)]; [|done]. apply completed_ok; [done|]. by eapply Hpw.
Qed.
Lemma run_ok w0 w : paths_apart c → wizard_ok w0 → wizard_run w0 w → wizard_ok w.
Proof.
  intros Hpaths H0. induction 1 as [|i name data w _ IH|name w _ IH|e w _ IH]; [done|by apply submit_ok| |].
  - unfold set_step. destruct (step_of name); [|exact IH]. destruct IH as [? ? ? ?]. by split.
  - destruct IH as [? ? ? ?]. split; [done|done| |done]. cbn. intros Hin. by apply not_elem_of_empty in Hin.
Qed.

(** C19: the wizard never hands an unclaimed appliance over.  From a state before the claim,
    after any submissions and restarts, with any failures of the disk, the probe, the
    network and the camera: the boot selector chooses the camera only if the camera was
    started by a hand-over; and then, or once the session says it saved, both documents
    are on the disk, load, and hold a hash made of a password strong enough. *)
Theorem claimed_only_by_hand_over w0 w :
  paths_apart c → ws w0 = new_wizard → w_calls w0 = [] → pre_claim (ps_state (ps_load (w_prov w0))) → wizard_run w0 w →
  (resolve_mode (w_prov w) = MODE_CAMERA → KCamera true ∈ w_calls w) ∧
  (resolve_mode (w_prov w) = MODE_CAMERA ∨ z_persisted (ws w) = true →
     ∃ d s h, hashed scrypt h ∧ s_password_hash s = Some h ∧
       ∀ disk, files disk = files (w_fs w) → io (fs_ops disk) = None →
         (load_device io netloc_ok toml_other (device_path c) disk).1 = Good d ∧
         (load_secrets io toml_other (secrets_path c) disk).1 = Good s).
Proof.
  intros Hpaths Hnew Hcalls Hpre Hrun.
  assert (wizard_ok w0) as H0.
  { pose proof Hpre as (k & Hk & _)%pre_claim_index.
    split; [by eexists|by left|rewrite Hnew; by intros ?%not_elem_of_empty|by rewrite Hnew]. }
  destruct (run_ok w0 w Hpaths H0 Hrun) as [_ Hst _ Hsv].
  assert (resolve_mode (w_prov w) = MODE_CAMERA → KCamera true ∈ w_calls w ∧ claim_saved scrypt netloc_ok c (files (w_fs w))) as Hcam.
  { intros Hm. destruct Hst as [Hp|?]; [|done]. unfold resolve_mode in Hm. pose proof (bool_decide_eq_true_2 _ Hp) as Hb.
    by destruct (ps_state (ps_load (w_prov w))); vm_compute in Hb. }
  split; [intros Hm; by apply Hcam|]. intros Hor.
  assert (claim_saved scrypt netloc_ok c (files (w_fs w))) as [[d Hd] (s & h & Hs & Hh & Hok)] by (destruct Hor as [?|?]; [by apply Hcam|by apply Hsv]).
  exists d, s, h. split_and!; [done|done|]. intros disk Hf Hio. rewrite <-Hf in Hd, Hs. split; [by eapply device_saved_loads|by eapply secrets_saved_loads].
Qed.

Lemma not_recovery_index st : st ≠ Recovery → ∃ k, index st = Some k.
Proof. intros Hst. destruct st; try done; eexists; reflexivity. Qed.
(** C20: the hand-over is safe.  Submitting the last step calls nothing unless the
    configuration was saved, the start of the camera is configured, the state is before
    the runtime and no live owner holds the camera; the camera is started only after the
    hotspot was stopped and the station activated; when a call after the stop fails, the
    hotspot is asked for again under the name of the appliance and neither the session nor
    the state moved; and the step is done exactly when the camera was started. *)
Theorem hand_over_safe i d w : paths_apart c → ps_state (ps_load (w_prov w)) ≠ Recovery →
  let '(r, w') := do_submit i (u "finish") (VDict d) w in
  ∃ res new, r = Ret res ∧ w_calls w' = w_calls w ++ new ∧ handed_over lower c (ws w) new (sr_ok res) ∧
    (new ≠ [] → may_start c (ws w) (live_owner c (field "camera_running" d))) ∧ w_fs w' = w_fs w ∧
    (sr_ok res = false → ws w' = ws w ∧ w_prov w' = w_prov w) ∧ (sr_ok res = true → z_finished (ws w') = true).
Proof.
  intros Hpaths Hrec. destruct (not_recovery_index _ Hrec) as [k0 Hk0].
  pose proof (submit_leads lower md5_hex scrypt hash_error netloc_ok toml_other io umask c i (u "finish") (VDict d) w k0 Hpaths Hk0) as Hl.
  unfold leads in Hl. destruct (do_submit i _ _ w) as [r w']. cbn [fst snd] in Hl.
  destruct Hl as [[-> (res & -> & Hres)]|(s & d' & r0 & w1 & Hs & Hd & Heff & Hans)].
  { exists res, []. rewrite Hres, app_nil_r. split_and!; try done. constructor. }
  assert (s = SFinish) as -> by (vm_compute in Hs; by injection Hs). injection Hd as <-.
  destruct Heff as (x & (new & ok & Hcalls & Hho & Hfs & Hmay & Hend) & ->). destruct ok.
  - destruct Hend as [(y & -> & Hy) (st & k & Hz & _)].
    destruct Hans as [(res & why & sk & -> & Hres & _ & ->)|(_ & Hno & _)]; [|destruct (Hno (sr_reason y)); by rewrite Hy].
    exists res, new. rewrite Hres. split_and!; try done. intros _.
    destruct (completed_staged SFinish (ws w1) sk) as (_ & _ & _ & Hf & _). cbn zeta in Hf.
    change (z_finished (completed_step SFinish ((ws w1){{z_skipped := sk}})) = true). rewrite Hf, Hz. done.
  - destruct Hend as (Hno & Hz & Hp).
    destruct Hans as [(res & why & sk & -> & Hres & Hr0 & ->)|([(res & -> & Hres)|[Hsk _]] & _ & ->)].
    + destruct x as [y|e]; [|done]. injection Hr0 as Hy _. by rewrite (Hno y eq_refl) in Hy.
    + exists res, new. rewrite Hres. done.
    + by apply skippable in Hsk as (_ & [] & _).
Qed.

(** What is refused stages nothing: the values, the position and the marks stay, and so do
    the state of the appliance and, except while saving, the disk; only a scan shows its
    results. *)
Theorem refused_keeps i name data w : paths_apart c → ps_state (ps_load (w_prov w)) ≠ Recovery →
  let '(r, w') := do_submit i name data w in
  (∀ res, r = Ret res → sr_ok res = false) →
  staged_same (ws w) (ws w') ∧ progress_same (ws w) (ws w') ∧ w_prov w' = w_prov w ∧
  documents_kept netloc_ok c (ws w) (files (w_fs w)) (files (w_fs w')) ∧ (name ≠ u "persist" → w_fs w' = w_fs w).
Proof.
  intros Hpaths Hrec. destruct (not_recovery_index _ Hrec) as [k0 Hk0].
  pose proof (submit_leads lower md5_hex scrypt hash_error netloc_ok toml_other io umask c i name data w k0 Hpaths Hk0) as Hl.
  unfold leads in Hl. destruct (do_submit i name data w) as [r w']. cbn [fst snd] in Hl. intros Hno.
  destruct Hl as [[-> _]|(s & d & r0 & w1 & Hs & _ & Heff & [(res & why & sk & -> & Hres & _)|(_ & Hr0 & ->)])].
  - unfold staged_same, progress_same. split_and!; try done; split; by left.
  - by rewrite (Hno res eq_refl) in Hres.
  - assert (staged_same (ws w) (ws w)) as Hsr by (unfold staged_same; by split_and!).
    assert (progress_same (ws w) (ws w)) as Hpr by (unfold progress_same; by split_and!).
    destruct (decide (s = SPersist)) as [->|]; [|destruct (decide (s = SFinish)) as [->|]].
    + destruct Heff as [_ [_ [[-> _]|(_ & -> & -> & Hk)]]]; [by destruct (Hr0 [])|]. split_and!; [done..|]. intros Hn.
      destruct Hn. unfold step_of in Hs. apply find_some in Hs as [_ Hs%bool_decide_eq_true]. by rewrite <-Hs.
    + destruct Heff as (x & (new & ok & _ & _ & Hfs & _ & Hend) & ->). destruct ok.
      { destruct Hend as [(y & -> & Hy) _]. destruct (Hr0 (sr_reason y)). by rewrite Hy. }
      destruct Hend as (_ & -> & ->). rewrite Hfs. split_and!; [done|done|done|split; by left|done].
    + assert (step_post scrypt s w r0 w1) as [(Hfs & Hp & _ & Hprog & _) Hst] by (by destruct s).
      destruct Hst as [[[why Hw] _]|[_ Hst]]; [by destruct (Hr0 why)|]. rewrite Hfs, Hp. split_and!; [done|done|done|split; by left|done].
Qed.

(** ** Completing the setup *)

(** The hotspot stops, the station comes up and the camera starts. *)
Record setup_works : Prop := {
  stop_works e : ∃ why e', hotspot_stop c e = (Ret (true, why), e');
  station_works f ssid psk e : activate_station c = Some f → ∃ why e', f ssid psk e = (Ret (true, why), e');
  camera_works : ∃ start, start_camera c = Some start ∧ ∀ e, ∃ v e', start e = (Ret v, e') ∧ v ≠ VBool false;
}.
(** The steps are answered, the camera was seen, and the documents can be written. *)
Record ready_to_save (w : world (E := E)) : Prop := {
  ready_state : pre_claim (ps_state (ps_load (w_prov w)));
  ready_camera : z_camera_validated (ws w) = true;
  ready_steps : PERSIST_PREREQUISITES ⊆ z_completed (ws w);
  ready_device : device_ok netloc_ok (wizard_device lower c (ws w));
  ready_text : utf8_encode (doc_text (device_lines (wizard_device lower c (ws w)))) ≠ None ∧
               utf8_encode (secrets_text (wizard_secrets (ws w))) ≠ None;
  ready_disk : (∀ n, io n = None) ∧ files (w_fs w) !! (device_path c ++ suffix_tmp) = None ∧
               files (w_fs w) !! (secrets_path c ++ suffix_tmp) = None;
}.

Lemma submit_handler i name d s w w1 why : step_of name = Some s → refused_early s (VDict d) (ws w) = inr (d, false) →
  handler lower md5_hex scrypt hash_error netloc_ok toml_other io umask c i s d w = (Ret (true, why), w1) →
  ∃ res sk, do_submit i name (VDict d) w = (Ret res, w1{{ws := completed_step s ((ws w1){{z_skipped := sk}})}}) ∧ sr_ok res = true.
Proof.
  intros Hs Href Hh. unfold submit, mbind, pym_bind, session. rewrite Hs, Href. unfold try_except. rewrite Hh.
  eexists {| sr_ok := true; sr_reason := []; sr_step := name; sr_state := _ |}, _. split; [reflexivity|done].
Qed.
Lemma wizard_device_plain z : d_meta (wizard_device lower c z) = None ∧ d_version (wizard_device lower c z) = 1.
Proof. unfold wizard_device. destruct (prusa_server c), (mq_uri (z_mqtt z)), (mq_enabled (z_mqtt z)); done. Qed.
Lemma device_doc_written d : d_meta d = None → device_doc d = TTab (written d).
Proof. intros Hm. unfold device_doc, written. by rewrite Hm. Qed.
Lemma wizard_device_text z : device_ok netloc_ok (wizard_device lower c z) →
  device_text netloc_ok toml_other (device_doc (wizard_device lower c z)) = Good (doc_text (device_lines (wizard_device lower c z))) ∧
  (dumps_device (device_doc (wizard_device lower c z)) ≫= parse_device netloc_ok toml_other) = Good (wizard_device lower c z).
Proof.
  intros Hok. destruct (wizard_device_plain z) as [Hm Hv].
  assert (printable_int (d_version (wizard_device lower c z))) as Hp by (rewrite Hv; unfold printable_int; vm_compute; lia).
  assert (_validate_device netloc_ok (device_doc (wizard_device lower c z)) = Good (wizard_device lower c z)) as Hval.
  { rewrite device_doc_written by done. by apply validate_written. }
  unfold device_text. rewrite Hval. unfold mbind, conf_bind. rewrite (dumps_device_doc _ _ Hok Hp), device_text_read by done. done.
Qed.
Lemma leads_parsed {A} text (parse : pystr → conf A) a (Q : res (option pystr) → world → Prop) (w : world (E := E)) :
  (text ≫= parse) = Good a → Q (Ret None) w → leads (reparsed text parse) Q w.
Proof. intros Ht HQ. unfold leads, reparsed. by rewrite Ht. Qed.
Lemma persist_succeeds i d w : paths_apart c → ready_to_save w →
  (_step_persist lower netloc_ok toml_other io umask c i d w).1 = Ret (true, []).
Proof.
  intros Hpaths [(k0 & Hk0 & _)%pre_claim_index _ _ Hdev [Hdt Hst] (Hio & Htd & Hts)].
  assert (device_path c ≠ secrets_path c ++ suffix_tmp) as Hne.
  { unfold paths_apart in Hpaths. rewrite !NoDup_cons, !not_elem_of_cons in Hpaths. naive_solver. }
  destruct (wizard_device_text (ws w) Hdev) as [Htext Hparse].
  destruct (save_succeeds io umask (device_text netloc_ok toml_other) _ (device_path c) device_mode (w_fs w) _ Htext Hio Htd Hdt) as (f1 & x & Hs1 & Hf1).
  assert (secrets_document toml_other (TTab (secrets_dict (wizard_secrets (ws w)))) = Good (secrets_text (wizard_secrets (ws w)))) as Hsec.
  { unfold secrets_document. rewrite secrets_dict_valid. unfold mbind, conf_bind. by rewrite dumps_secrets_doc, secrets_text_read. }
  destruct (save_succeeds io umask (secrets_document toml_other) _ (secrets_path c) secrets_mode f1 _ Hsec Hio) as (f2 & y & Hs2 & _);
    [by rewrite Hf1, lookup_insert_ne|done|].
  change (leads (_step_persist lower netloc_ok toml_other io umask c i d) (λ r _, r = Ret (true, [])) w).
  unfold _step_persist. apply leads_bind, leads_session. unfold build_documents. apply leads_bind. eapply leads_parsed; [exact Hparse|].
  apply leads_bind. eapply leads_parsed; [rewrite secrets_dict_text; apply secrets_text_read|].
  apply leads_bind, leads_on_files. intros r1 d1 Hr1. unfold save_device in Hr1. rewrite Hs1 in Hr1. injection Hr1 as <- <-. cbn [negb].
  apply leads_bind, leads_on_files. intros r2 d2 Hr2.
  assert ((Good true, f2) = (r2, d2)) as [= <- <-] by (rewrite <-Hs2; exact Hr2). cbn [negb]. apply leads_bind, leads_stage, leads_bind. unfold _advance_provisioning.
  apply (leads_advance i false Unclaimed 3) with (k0 := k0); [reflexivity|exact Hk0|]. intros s f k _ _ _ _.
  by apply leads_bind, leads_stage, leads_accept.
Qed.

Lemma leads_answer {A} (f : E → res A * E) r e (Q : res A → world → Prop) (w : world (E := E)) :
  f (w_env w) = (r, e) → Q r (w{{w_env := e}}) → leads (callable f) Q w.
Proof. intros Hf HQ. unfold leads, callable. by rewrite Hf. Qed.
Lemma finish_succeeds i v w k0 : setup_works → may_start c (ws w) (live_owner c v) → index (ps_state (ps_load (w_prov w))) = Some k0 →
  leads (finish lower c i v) (λ r _, ∃ res, r = Ret res ∧ sr_ok res = true) w.
Proof.
  intros [Hstop Hstation (start & Hstart & Hcam)] (Hp & _ & Hrun & s & Hs & Hin) Hk0.
  unfold finish. apply leads_bind, leads_session. rewrite Hp, Hstart, Hs, Hrun. unfold sensor_handoff_allowed.
  rewrite bool_decide_true by done. cbn [negb].
  assert (∀ w', w_prov w' = w_prov w → leads (run_camera lower c i start) (λ r _, ∃ res, r = Ret res ∧ sr_ok res = true) w') as Hend.
  { intros w' Hw'. unfold run_camera. apply leads_bind, leads_try. destruct (Hcam (w_env w')) as (a & e & Ha & Hv).
    eapply leads_answer; [exact Ha|]. apply leads_bind, leads_call.
    assert (match a with VBool false => false | _ => true end = true) as -> by (destruct a as [|[]| | | | | |]; done).
    cbn [negb]. apply leads_bind, (leads_finalize _ _ _ k0); [by rewrite <-Hk0, <-Hw'|]. intros ? ? ? _ _ _.
    apply leads_bind, leads_stage, leads_finished_with. intros res Hres. by exists res. }
  destruct (Hstop (w_env w)) as (why & e & He). apply leads_bind, leads_try, leads_bind. eapply leads_answer; [exact He|].
  apply leads_bind, leads_call, leads_ret. cbn [negb]. unfold run_station. destruct (activate_station c) as [f|] eqn:Hf; [|by apply Hend].
  apply leads_bind. unfold _activate_station. apply leads_bind, leads_session, leads_bind, leads_try.
  match goal with |- leads (callable (f ?a ?b)) _ ?w1 => destruct (Hstation f a b (w_env w1) eq_refl) as (why2 & e2 & He2) end.
  eapply leads_answer; [exact He2|]. apply leads_bind, leads_call, leads_ret. by apply Hend.
Qed.

Lemma submit_saves i w : paths_apart c → ready_to_save w → io_available (i_store i) = true → io_write_ok (i_store i) = true →
  ∃ res w1, do_submit i (u "persist") (VDict []) w = (Ret res, w1) ∧ sr_ok res = true ∧ ps_state (ps_load (w_prov w1)) = Unclaimed ∧
    z_persisted (ws w1) = true ∧ z_state (ws w1) = Some Unclaimed ∧ z_token (ws w1) = z_token (ws w) ∧ z_camera_validated (ws w1) = true.
Proof.
  intros Hpaths Hready Ha Hw. pose proof Hready as [Hpre Hcam Hsteps _ _ _].
  pose proof Hpre as (k0 & Hk0 & _)%pre_claim_index. pose proof (pre_claim_ge _ _ Hk0 Hpre) as Hle.
  pose proof (persist_succeeds i [] w Hpaths Hready) as Hok.
  pose proof (persist_leads lower md5_hex hash_error netloc_ok toml_other io umask c i [] w k0 Hpaths Hk0) as Hpost. unfold leads in Hpost.
  destruct (_step_persist lower netloc_ok toml_other io umask c i [] w) as [r w1] eqn:Hstep. cbn [fst snd] in Hok, Hpost. subst r.
  destruct Hpost as [_ [[_ (s & k & Hz & Hst & Hk & _ & Hup & _)]|(Hno & _)]]; [|by destruct (Hno [])].
  specialize (Hup Ha Hw Hcam Hle). rewrite Hup in Hst, Hz.
  destruct (submit_handler i (u "persist") [] SPersist w w1 [] eq_refl) as (res & sk & Hsub & Hres); [| exact Hstep|].
  { unfold refused_early. cbn -[PERSIST_PREREQUISITES]. by rewrite (bool_decide_true (_ ⊆ _)). }
  exists res, (w1{{ws := completed_step SPersist ((ws w1){{z_skipped := sk}})}}). split; [done|]. split; [done|]. split; [exact Hst|].
  destruct (completed_staged SPersist (ws w1) sk) as (_ & Hp & _ & _ & Hs & Ht & Hc). cbv zeta in *.
  change (ws (w1{{ws := ?z}})) with z. rewrite Hp, Hs, Ht, Hc, Hz. done.
Qed.
Lemma submit_finishes i w : setup_works → camera_running c = false → io_available (i_store i) = true → io_write_ok (i_store i) = true →
  ps_state (ps_load (w_prov w)) = Unclaimed → z_persisted (ws w) = true → z_state (ws w) = Some Unclaimed → z_camera_validated (ws w) = true →
  ∃ res w2, do_submit i (u "finish") (VDict []) w = (Ret res, w2) ∧ sr_ok res = true ∧ z_finished (ws w2) = true ∧
    ps_state (ps_load (w_prov w2)) = if bool_decide (z_token (ws w) = []) then Claimed else Running.
Proof.
  intros Hworks Hown Ha Hw Hst Hp Hs Hc.
  assert (index (ps_state (ps_load (w_prov w))) = Some 3%nat) as Hk by (by rewrite Hst).
  assert (may_start c (ws w) (live_owner c VNone)) as Hmay.
  { destruct Hworks as [_ _ (start & Hst' & _)]. split_and!; [done|congruence|done|]. exists Unclaimed. split; [done|].
    apply (bool_decide_unpack _). vm_compute. exact I. }
  pose proof (finish_succeeds i VNone w 3 Hworks Hmay Hk) as (res & Hr & Hres).
  pose proof (finish_leads lower c i VNone w 3 Hk) as (new & ok & _ & _ & _ & _ & Hend).
  destruct (finish lower c i VNone w) as [r w2] eqn:Hfin. cbn [fst snd] in *. subst r.
  destruct ok; [|destruct Hend as [Hno _]; by rewrite (Hno res eq_refl) in Hres].
  destruct Hend as (_ & st & k2 & Hz2 & Hst2 & Hk2 & Hup2).
  destruct (submit_handler i (u "finish") [] SFinish w w2 (sr_reason res) eq_refl) as (res2 & sk & Hsub & Hres2).
  { unfold refused_early. cbn. by rewrite Hp. }
  { cbn [handler]. unfold _step_finish, mbind, pym_bind. change (field "camera_running" []) with VNone. rewrite Hfin, Hres. done. }
  destruct (completed_staged SFinish (ws w2) sk) as (_ & _ & _ & Hf2 & _). cbv zeta in Hf2.
  exists res2, (w2{{ws := completed_step SFinish ((ws w2){{z_skipped := sk}})}}). split; [done|]. split; [done|]. split.
  { change (ws (w2{{ws := ?z}})) with z. by rewrite Hf2, Hz2. }
  change (w_prov (w2{{ws := ?z}})) with (w_prov w2). rewrite Hst2. eapply index_inj; [exact Hk2|].
  unfold _milestone, wizard_facts in Hup2. cbn -[index] in Hup2. rewrite Hc in Hup2.
  destruct (bool_decide _); [rewrite (Hup2 Ha Hw 4%nat eq_refl)|rewrite (Hup2 Ha Hw 6%nat eq_refl)]; (done || lia).
Qed.

(** C34: the setup can be completed.  When the steps before it are answered, the camera was
    seen and the storage works, submitting the ninth step saves both documents and brings
    the state to [unclaimed]; when the hotspot stops, the station comes up and the camera
    starts, submitting the tenth then finishes, and the boot selector chooses the camera
    from there on: [running] with a token, [claimed] without one. *)
Theorem setup_completes i1 i2 w : paths_apart c → ready_to_save w → setup_works → camera_running c = false →
  (io_available (i_store i1) = true ∧ io_write_ok (i_store i1) = true) → (io_available (i_store i2) = true ∧ io_write_ok (i_store i2) = true) →
  let '(r1, w1) := do_submit i1 (u "persist") (VDict []) w in
  let '(r2, w2) := do_submit i2 (u "finish") (VDict []) w1 in
  (∃ res, r1 = Ret res ∧ sr_ok res = true) ∧ ps_state (ps_load (w_prov w1)) = Unclaimed ∧
  (∃ res, r2 = Ret res ∧ sr_ok res = true) ∧ z_finished (ws w2) = true ∧
  ps_state (ps_load (w_prov w2)) = (if bool_decide (z_token (ws w) = []) then Claimed else Running) ∧
  resolve_mode (w_prov w2) = MODE_CAMERA.
Proof.
  intros Hpaths Hready Hworks Hown [Ha1 Hw1] [Ha2 Hw2].
  destruct (submit_saves i1 w Hpaths Hready Ha1 Hw1) as (res1 & w1 & -> & Hres1 & Hst1 & Hp1 & Hs1 & Ht1 & Hc1).
  destruct (submit_finishes i2 w1 Hworks Hown Ha2 Hw2 Hst1 Hp1 Hs1 Hc1) as (res2 & w2 & -> & Hres2 & Hf2 & Hst2). rewrite Ht1 in Hst2.
  split_and!; [by exists res1|done|by exists res2|done|done|]. unfold resolve_mode. rewrite Hst2. by destruct (bool_decide _).
Qed.
End WizardRuns.

(** ** The summary *)

Lemma secret_value s l : s ≠ [] → VStr s ∈ l → s ∈ _secret_values l.
Proof. intros Hs Hin. apply list_elem_of_omap. exists (VStr s). split; [done|]. by destruct s. Qed.
(** The review page tells no secret: no text of the summary holds the token, the key of the
    network, the broker credentials, the fingerprint or the password hash, unless the
    placeholder itself could complete it. *)
Theorem summary_hides {E} lower (c : wizard_config (E := E)) z s :
  plain_secret s →
  s ∈ [z_token z; default [] (z_psk z); mq_username (z_mqtt z); mq_password (z_mqtt z); z_fingerprint z; z_admin_hash z] →
  Forall (λ t, ¬ infix_of s t) (texts (summary lower c z)).
Proof.
  intros Hs Hin. apply redact_texts; [done|]. apply secret_value; [apply Hs|].
  change (summary_secrets z) with
    (VStr <$> [z_token z; default [] (z_psk z); mq_username (z_mqtt z); mq_password (z_mqtt z); z_fingerprint z; z_admin_hash z]).
  by apply list_elem_of_fmap_2.
Qed.

(** ** Evaluation *)

Definition demo_config (probe_ok : bool) : wizard_config (E := unit) :=
  {| device_id := u "0123456789ab"; device_path := DEVICE_TOML_PATH; secrets_path := SECRETS_TOML_PATH; camera_name := u "Printer Camera";
     prusa_server := []; storage_ready := true; camera_running := false;
     probe_result := PObject (VBool probe_ok) (VStr []) (VInt 1); probe := None; wifi_scan := None; qr_decoder := None; mqtt_tester := None;
     hotspot_stop := λ e, (Ret (true, []), e); hotspot_start := λ _ e, (Ret true, e); activate_station := Some (λ _ _ e, (Ret (true, []), e));
     start_camera := Some (λ e, (Ret (VBool true), e)) |}.
Definition demo_call : call_in :=
  {| i_store := working; i_now := λ _, VNone; i_salt := [1; 2; 3]; i_mac := Raise OSError; i_seed := unlucky |}.
Definition demo_world (z : wizard) : world (E := unit) :=
  {| ws := z; w_fs := ConfigFiles.fresh ∅; w_prov := Missing; w_seed := SeedMissing; w_env := tt; w_calls := [] |}.
Definition demo_submit (probe_ok : bool) (step : string) (d : list (pyval * pyval)) (w : world (E := unit)) : world (E := unit) :=
  (submit id id toy_scrypt [] any_host no_other no_failure 18 (demo_config probe_ok) demo_call (u step) (VDict d) w).2.
Definition wifi_data : list (pyval * pyval) := [entry "ssid" (VStr (u "Home")); entry "psk" (VStr (u "hunter22"))].
Definition password_data : list (pyval * pyval) := [entry "password" (VStr (u "correct horse")); entry "confirm" (VStr (u "correct horse"))].
Definition token_data : list (pyval * pyval) := [entry "token" (VStr (u "token"))].
Definition demo_answered (probe_ok : bool) : world (E := unit) :=
  demo_submit probe_ok "admin_password" password_data (demo_submit probe_ok "wifi" wifi_data (demo_submit probe_ok "status" [] (demo_world new_wizard))).
Definition demo_finished (probe_ok : bool) : world (E := unit) :=
  demo_submit probe_ok "finish" [] (demo_submit probe_ok "persist" [] (demo_answered probe_ok)).
Lemma demo_paths b : paths_apart (demo_config b).
Proof. unfold paths_apart. apply (bool_decide_unpack _). vm_compute. exact I. Qed.

Lemma claimed_only_by_hand_over_witness :
  resolve_mode (w_prov (demo_finished true)) = MODE_CAMERA ∧ KCamera true ∈ w_calls (demo_finished true).
Proof.
  assert (resolve_mode (w_prov (demo_finished true)) = MODE_CAMERA) as Hm by (vm_compute; reflexivity). split; [exact Hm|].
  refine (proj1 (claimed_only_by_hand_over id id toy_scrypt [] any_host no_other no_failure 18 (demo_config true) (demo_world new_wizard)
    (demo_finished true) (demo_paths true) eq_refl eq_refl _ _) Hm).
  - apply (bool_decide_unpack _). vm_compute. exact I.
  - unfold demo_finished, demo_answered. do 5 apply run_submit. apply run_start.
Defined.
Lemma hand_over_safe_witness :
  ∃ res new, (submit id id toy_scrypt [] any_host no_other no_failure 18 (demo_config true) demo_call (u "finish") (VDict [])
     (demo_submit true "persist" [] (demo_answered true))).1 = Ret res ∧ sr_ok res = true ∧
    handed_over id (demo_config true) (ws (demo_submit true "persist" [] (demo_answered true))) new true.
Proof.
  pose proof (hand_over_safe id id toy_scrypt [] any_host no_other no_failure 18 (demo_config true) demo_call []
    (demo_submit true "persist" [] (demo_answered true)) (demo_paths true)) as Hh.
  assert (sr_ok <$> (match (submit id id toy_scrypt [] any_host no_other no_failure 18 (demo_config true) demo_call (u "finish") (VDict [])
     (demo_submit true "persist" [] (demo_answered true))).1 with Ret res => Some res | Raise _ => None end) = Some true) as Hok by (vm_compute; reflexivity).
  destruct (submit _ _ _ _ _ _ _ _ _ _ _ _ _) as [r w']. cbn [fst] in *.
  destruct Hh as (res & new & -> & _ & Hho & _); [by vm_compute|]. injection Hok as Hok. rewrite Hok in Hho. by exists res, new.
Defined.
Lemma demo_works b : setup_works (demo_config b).
Proof. split; [by eexists _, _|intros f ssid psk e [= <-]; by eexists _, _|]. eexists. split; [reflexivity|]. intros e. by eexists _, _. Qed.
Lemma demo_ready : ready_to_save id any_host no_failure (demo_config true) (demo_answered true).
Proof.
  split.
  - apply (bool_decide_unpack _). vm_compute. exact I.
  - vm_compute. reflexivity.
  - apply (bool_decide_unpack _). vm_compute. exact I.
  - apply (validate_ok any_host (device_doc (wizard_device id (demo_config true) (ws (demo_answered true))))). vm_compute. reflexivity.
  - split; by vm_compute.
  - split; [done|]. split; vm_compute; reflexivity.
Qed.
Lemma setup_completes_witness :
  resolve_mode (w_prov (demo_finished true)) = MODE_CAMERA ∧ ps_state (ps_load (w_prov (demo_finished true))) = Claimed.
Proof.
  pose proof (setup_completes id id toy_scrypt [] any_host no_other no_failure 18 (demo_config true) demo_call demo_call (demo_answered true)
    (demo_paths true) demo_ready (demo_works true) eq_refl (conj eq_refl eq_refl) (conj eq_refl eq_refl)) as Hs.
  unfold demo_finished, demo_submit at 1 3. unfold demo_submit at 1 2. 
  destruct (submit _ _ _ _ _ _ _ _ _ _ (u "persist") _ _) as [r1 w1]. cbn [snd].
  destruct (submit _ _ _ _ _ _ _ _ _ _ (u "finish") _ w1) as [r2 w2]. cbn [snd].
  destruct Hs as (_ & _ & _ & _ & Hst & Hm). split; [exact Hm|]. rewrite Hst.
  assert (z_token (ws (demo_answered true)) = []) as -> by (vm_compute; reflexivity). done.
Defined.
(** Without a validated camera the hand-over is reported as done, but the state stays
    before the claim, and the next boot is the wizard again. *)
Example finish_without_probe :
  z_finished (ws (demo_finished false)) = true ∧ KCamera true ∈ w_calls (demo_finished false) ∧
  ps_state (ps_load (w_prov (demo_finished false))) = StorageReady ∧ resolve_mode (w_prov (demo_finished false)) = MODE_PROVISIONING.
Proof. split; [|split; [apply (bool_decide_unpack _)|split]]; vm_compute; reflexivity || exact I. Qed.
(** A token that is answered after the configuration was saved is accepted and counts for
    the state, but is not on the disk. *)
Definition late_token : world (E := unit) :=
  demo_submit true "finish" [] (demo_submit true "prusa_token" token_data (demo_submit true "persist" [] (demo_answered true))).
Example late_token_lost :
  ps_state (ps_load (w_prov late_token)) = Running ∧
  s_token <$> (match (load_secrets no_failure no_other SECRETS_TOML_PATH (w_fs late_token)).1 with Good s => Some s | _ => None end) = Some None.
Proof. split; vm_compute; reflexivity. Qed.
(** An address that is not a MAC gives a fingerprint of an invented seed. *)
Example invented_fingerprint :
  let w := (submit id id toy_scrypt [] any_host no_other no_failure 18 (demo_config true) (demo_call{{i_mac := Ret (u "unknown")}})
    (u "fingerprint") (VDict []) (demo_world new_wizard)).2 in
  z_fingerprint (ws w) = generate_fallback_seed (seed_draw unlucky) ∧ w_seed w = SeedText (z_fingerprint (ws w)).
Proof. split; vm_compute; reflexivity. Qed.
