(* ===== verification/AdminHttp.v ===== *)
(** [app/admin_http.py]: the console's gate.  The route table, the captive portal, the
    decision whether setup is open, authorization with sessions, CSRF tokens and the
    re-authentication window, login and logout.  The other handlers do not touch the
    gate's state: the model ends where they start.  JSON, form and cookie parsing, [lower]
    and [upper] and the random tokens are parameters; the files a request finds are in
    [env]. *)
From S2P Require Import Prelude PyValue Provisioning AdminAuth LoginLimiter.

(** ** Routes *)

Inductive policy :=
  | _PUBLIC | _PUBLIC_SETUP | _AUTHENTICATED | _REAUTH_REQUIRED | _REAUTH_WINDOW_ONLY | _SETUP_OR_AUTHENTICATED.
#[export] Instance policy_eq_dec : EqDecision policy.
Proof. solve_decision. Defined.
Inductive handler :=
  | _handle_root | _handle_admin | _handle_asset | _handle_setup_page | _handle_setup_state | _handle_setup_scan
  | _handle_setup_step | _handle_setup_finish | _handle_status | _handle_session | _handle_dashboard
  | _handle_live_frame | _handle_live_status | _handle_local_webrtc_status | _handle_media_videos
  | _handle_media_video_download | _handle_media_frames | _handle_media_frame_download | _handle_media_sessions
  | _handle_media_session_delete | _handle_media_build | _handle_media_job | _handle_system | _handle_network_get
  | _handle_network_scan | _handle_network_put | _handle_network_hostname_put | _handle_network_ntp_put
  | _handle_timezones | _handle_gpio_pins | _handle_update | _handle_update_check | _handle_update_install
  | _handle_diagnostics | _handle_reboot | _handle_settings_patch | _handle_integrations_get
  | _handle_integrations_mqtt_put | _handle_integrations_prusa_put | _handle_login | _handle_mqtt_test
  | _handle_logout | _handle_reauth | _handle_config_get | _handle_config_put | _handle_ssh | _handle_recovery
  | _handle_reset_begin | _handle_reset_confirm | _handle_reset_execute.
#[export] Instance handler_eq_dec : EqDecision handler.
Proof. solve_decision. Defined.

(** [^text$] and [^text(?P<name>[^/]+)$]. *)
Inductive pattern := Exact (text : pystr) | Param (prefix : pystr).
Record Route := { r_method : pystr; r_pattern : pattern; r_policy : policy; r_handler : handler }.
Definition route (m : string) (p : pattern) (pol : policy) (h : handler) : Route :=
  {| r_method := u m; r_pattern := p; r_policy := pol; r_handler := h |}.

Definition _build_routes : list Route :=
  [route "GET" (Exact (u "/")) _PUBLIC _handle_root;
    route "GET" (Exact (u "/admin")) _PUBLIC _handle_admin;
    route "GET" (Param (u "/assets/")) _PUBLIC _handle_asset;
    route "GET" (Exact (u "/setup")) _PUBLIC_SETUP _handle_setup_page;
    route "GET" (Exact (u "/setup/state")) _PUBLIC_SETUP _handle_setup_state;
    route "POST" (Exact (u "/setup/wifi/scan")) _PUBLIC_SETUP _handle_setup_scan;
    route "POST" (Param (u "/setup/step/")) _PUBLIC_SETUP _handle_setup_step;
    route "POST" (Exact (u "/setup/finish")) _PUBLIC_SETUP _handle_setup_finish;
    route "GET" (Exact (u "/api/status")) _PUBLIC _handle_status;
    route "GET" (Exact (u "/api/session")) _AUTHENTICATED _handle_session;
    route "GET" (Exact (u "/api/dashboard")) _AUTHENTICATED _handle_dashboard;
    route "GET" (Exact (u "/api/live/frame")) _AUTHENTICATED _handle_live_frame;
    route "GET" (Exact (u "/api/live/status")) _AUTHENTICATED _handle_live_status;
    route "GET" (Exact (u "/api/live/webrtc/status")) _AUTHENTICATED _handle_local_webrtc_status;
    route "GET" (Exact (u "/api/media/timelapses")) _AUTHENTICATED _handle_media_videos;
    route "GET" (Param (u "/api/media/timelapses/")) _AUTHENTICATED _handle_media_video_download;
    route "GET" (Exact (u "/api/media/frames")) _AUTHENTICATED _handle_media_frames;
    route "GET" (Param (u "/api/media/frames/")) _AUTHENTICATED _handle_media_frame_download;
    route "GET" (Exact (u "/api/media/sessions")) _AUTHENTICATED _handle_media_sessions;
    route "DELETE" (Param (u "/api/media/sessions/")) _REAUTH_WINDOW_ONLY _handle_media_session_delete;
    route "POST" (Exact (u "/api/media/timelapses/build")) _AUTHENTICATED _handle_media_build;
    route "GET" (Param (u "/api/media/jobs/")) _AUTHENTICATED _handle_media_job;
    route "GET" (Exact (u "/api/system")) _AUTHENTICATED _handle_system;
    route "GET" (Exact (u "/api/network")) _AUTHENTICATED _handle_network_get;
    route "GET" (Exact (u "/api/network/scan")) _AUTHENTICATED _handle_network_scan;
    route "PUT" (Exact (u "/api/network")) _REAUTH_WINDOW_ONLY _handle_network_put;
    route "PUT" (Exact (u "/api/network/hostname")) _REAUTH_WINDOW_ONLY _handle_network_hostname_put;
    route "PUT" (Exact (u "/api/network/ntp")) _AUTHENTICATED _handle_network_ntp_put;
    route "GET" (Exact (u "/api/timezones")) _AUTHENTICATED _handle_timezones;
    route "GET" (Exact (u "/api/gpio/pins")) _AUTHENTICATED _handle_gpio_pins;
    route "GET" (Exact (u "/api/update")) _AUTHENTICATED _handle_update;
    route "POST" (Exact (u "/api/update/check")) _AUTHENTICATED _handle_update_check;
    route "POST" (Exact (u "/api/update/install")) _REAUTH_REQUIRED _handle_update_install;
    route "GET" (Exact (u "/api/diagnostics")) _AUTHENTICATED _handle_diagnostics;
    route "POST" (Exact (u "/api/reboot")) _REAUTH_WINDOW_ONLY _handle_reboot;
    route "PATCH" (Exact (u "/api/settings")) _AUTHENTICATED _handle_settings_patch;
    route "GET" (Exact (u "/api/integrations")) _AUTHENTICATED _handle_integrations_get;
    route "PUT" (Exact (u "/api/integrations/mqtt")) _REAUTH_WINDOW_ONLY _handle_integrations_mqtt_put;
    route "PUT" (Exact (u "/api/integrations/prusa")) _REAUTH_REQUIRED _handle_integrations_prusa_put;
    route "POST" (Exact (u "/api/login")) _PUBLIC _handle_login;
    route "POST" (Exact (u "/api/mqtt/test")) _SETUP_OR_AUTHENTICATED _handle_mqtt_test;
    route "POST" (Exact (u "/api/logout")) _AUTHENTICATED _handle_logout;
    route "POST" (Exact (u "/api/reauth")) _REAUTH_REQUIRED _handle_reauth;
    route "GET" (Exact (u "/api/config")) _AUTHENTICATED _handle_config_get;
    route "PUT" (Exact (u "/api/config")) _AUTHENTICATED _handle_config_put;
    route "POST" (Exact (u "/api/ssh")) _REAUTH_REQUIRED _handle_ssh;
    route "POST" (Exact (u "/api/recovery/enter-setup")) _REAUTH_REQUIRED _handle_recovery;
    route "POST" (Exact (u "/api/reset/begin")) _REAUTH_WINDOW_ONLY _handle_reset_begin;
    route "POST" (Exact (u "/api/reset/confirm")) _REAUTH_WINDOW_ONLY _handle_reset_confirm;
    route "POST" (Exact (u "/api/reset/execute")) _REAUTH_WINDOW_ONLY _handle_reset_execute].

(** The captured name; [$] also accepts a final newline after a fixed text. *)
Definition pattern_match (p : pattern) (path : pystr) : option pystr :=
  match p with
  | Exact t => if bool_decide (path = t) || bool_decide (path = t ++ [10]) then Some [] else None
  | Param t =>
      if starts_with t path then
        let name := drop (length t) path in
        if bool_decide (name = []) || contains_char 47 name then None else Some name
      else None
  end.
Fixpoint _match (routes : list Route) (method path : pystr) : option (Route * pystr) :=
  match routes with
  | [] => None
  | r :: routes =>
      if bool_decide (r_method r = method) then
        match pattern_match (r_pattern r) path with
        | Some name => Some (r, name)
        | None => _match routes method path
        end
      else _match routes method path
  end.

(** ** Requests and what the gate keeps *)

Record Request := {
  rq_method : pystr; rq_path : pystr; rq_headers : list (pyval * pyval); rq_body : pyval; rq_peer_ip : pystr; rq_now : Z;
}.
Inductive mode := Setup | Admin.
#[export] Instance mode_eq_dec : EqDecision mode.
Proof. solve_decision. Defined.
(** The state file: absent, not a JSON document, or a document. *)
Record env := {
  e_state_file : json_file; e_claimable : bool; e_verify : pyval → bool; e_mqtt_probe : bool;
  e_stored_mqtt : pystr * pystr;
}.
Record console := {
  c_mode : mode; c_allow_any_host : bool; c_injected : option pystr;
  c_sessions : SessionStore; c_limiter : LoginRateLimiter; c_reauth_at : list (pystr * Z);
}.
Inductive Response :=
  | Error (status : Z)
  | Redirect (location : pystr)
  | TooMany (retry_after : Z)
  | LoggedIn (token : pystr) (csrf : option pystr)
  | LoggedOut
  | Reauthed
  | MqttUnavailable
  | MqttProbed (uri username password ca_file : pystr)
  | Handled (h : handler) (name : pystr).

Definition CAPTIVE_PORTAL_HOSTS : list pystr := [u "192.168.4.1"; u "localhost"; u "127.0.0.1"; u "[::1]"].
Definition CAPTIVE_PORTAL_ROOT : pystr := u "http://192.168.4.1/".
Definition REAUTH_WINDOW_SECONDS := 300.
Definition MAX_MQTT_TEST_BODY_BYTES := 4096.

(** ** Is setup open? *)

Definition PRE_CLAIM_STATES : list prov_state := [Factory; StorageReady; CameraValidated; Unclaimed].
Definition SETUP_OPEN_STATES : list prov_state := PRE_CLAIM_STATES ++ [Claimed].
Definition FINISH_WINDOW_STATES : list prov_state := [StorageReady; Unclaimed; Claimed].

(** [None]: a file that exists and cannot be trusted. *)
Definition _load_persisted_state (f : json_file) : option (option prov_state) :=
  match f with
  | Missing => Some None
  | Corrupt => None
  | Json (VDict d) =>
      match get_key (u "state") d with
      | VStr s => match state_of (VStr s) with Some st => Some (Some st) | None => None end
      | _ => None
      end
  | Json _ => None
  end.
(** The state used for the decision: of the file, or of the injected snapshot.  A
    snapshot may hold any text; one that names no state is in none of the sets. *)
Definition raw_state (e : env) (injected : option pystr) : option (option (option prov_state)) :=
  match _load_persisted_state (e_state_file e) with
  | None => None
  | Some (Some st) => Some (Some (Some st))
  | Some None => Some (match injected with Some s => Some (state_of (VStr s)) | None => None end)
  end.
Definition in_states (s : option prov_state) (l : list prov_state) : bool :=
  match s with Some s => bool_decide (s ∈ l) | None => false end.
Definition _setup_available (c : console) (e : env) : bool :=
  match c_mode c with
  | Admin => false
  | Setup =>
      match raw_state e (c_injected c) with
      | None => false
      | Some None => negb (e_claimable e)
      | Some (Some s) => if e_claimable e then in_states s FINISH_WINDOW_STATES else in_states s SETUP_OPEN_STATES
      end
  end.

Section Console.
Context (lower upper : pystr → pystr) (json_loads : pystr → res pyval) (parse_qs : pystr → option (list (pystr * list pystr)))
        (cookie_load : pystr → option (option pystr)) (draw : nat → pystr).

(** ** Reading a request *)

Fixpoint _header (headers : list (pyval * pyval)) (name : pystr) : pyval :=
  match headers with
  | [] => VNone
  | (VStr k, v) :: headers => if bool_decide (lower k = lower name) then v else _header headers name
  | _ :: headers => _header headers name
  end.

(** [None] from [cookie_load] is [CookieError]. *)
Definition session_token_from_cookie (v : pyval) : pystr :=
  match v with
  | VStr ((_ :: _) as s) => match cookie_load s with Some (Some t) => t | _ => [] end
  | _ => []
  end.
Definition _session_token (r : Request) : pystr := session_token_from_cookie (_header (rq_headers r) (u "Cookie")).

Definition _csrf_token (r : Request) (body : list (pyval * pyval)) : pystr :=
  match _header (rq_headers r) (u "X-CSRF-Token") with
  | VStr ((_ :: _) as s) => s
  | _ => match get_key (u "csrf") body with VStr s => s | _ => [] end
  end.

Fixpoint has_infix (p s : pystr) : bool :=
  starts_with p s || match s with [] => false | _ :: s' => has_infix p s' end.
Definition _parse_body (r : Request) : res (list (pyval * pyval)) :=
  let text := match rq_body r with
              | VBytes b => Some (match utf8_decode b with Some t => t | None => utf8_replace b end)
              | VStr s => Some s
              | _ => None
              end in
  match text with
  | None => Ret []
  | Some text =>
      if bool_decide (strip text = []) then Ret []
      else
        let content_type := match _header (rq_headers r) (u "Content-Type") with VStr s => s | _ => [] end in
        let first := take 1 (lstrip text) in
        let form :=
          match parse_qs text with
          | None => []
          | Some l => map (λ kv, (VStr kv.1, match kv.2 with [v] => VStr v | vs => VList (map VStr vs) end)) l
          end in
        if has_infix (u "json") (lower content_type) || bool_decide (first = u "{") || bool_decide (first = u "[") then
          match json_loads text with
          | Ret (VDict d) => Ret d
          | Ret VNone => Ret form
          | Ret _ => Ret []
          | Raise ValueError => Ret form
          | Raise e => Raise e
          end
        else Ret form
  end.

(** [host.strip().lower()] without a port. *)
Fixpoint index_char (c : Z) (s : pystr) : option nat :=
  match s with [] => None | x :: s' => if x =? c then Some O else S <$> index_char c s' end.
Definition _host_name (host : pystr) : pystr :=
  let value := lower (strip host) in
  if starts_with (u "[") value then
    match index_char 93 value with Some i => take (S i) value | None => value end
  else
    match List.filter (Z.eqb 58) value, index_char 58 value with
    | [_], Some i => take i value
    | _, _ => value
    end.

Definition _captive_redirect (c : console) (r : Request) (method : pystr) : option Response :=
  if negb (bool_decide (c_mode c = Setup)) || c_allow_any_host c then None
  else match _header (rq_headers r) (u "Host") with
       | VStr host =>
           if bool_decide (strip host = []) || bool_decide (_host_name host ∈ CAPTIVE_PORTAL_HOSTS) then None
           else if bool_decide (method = u "GET") || bool_decide (method = u "HEAD") then Some (Redirect CAPTIVE_PORTAL_ROOT)
           else Some (Error 421)
       | _ => None
       end.

(** ** Authorization *)

Definition _prune_reauth (now : Z) (c : console) : console :=
  c{{c_reauth_at := List.filter (λ e, negb (REAUTH_WINDOW_SECONDS <=? now - e.2) &&
                                      match csrf_for (VStr e.1) (c_sessions c) with Some _ => true | None => false end)
                                (c_reauth_at c)}}.
Definition _reauth_fresh (token : pystr) (now : Z) (c : console) : bool * console :=
  match dict_get token (c_reauth_at c) with
  | None => (false, c)
  | Some moment =>
      if REAUTH_WINDOW_SECONDS <=? now - moment then (false, c{{c_reauth_at := dict_del token (c_reauth_at c)}})
      else (true, c)
  end.
Definition _reauth_ok (e : env) (token : pystr) (password : pyval) : bool :=
  negb (bool_decide (token = [])) && e_verify e password.

Definition check_session (token : pystr) (now : Z) : PyM console bool := λ c,
  let '(ok, s) := validate (VStr token) now (c_sessions c) in (Ret ok, c{{c_sessions := s}}).
Definition check_csrf (token csrf : pystr) : PyM console bool := λ c,
  (validate_csrf (VStr token) (VStr csrf) (c_sessions c), c).
Definition changes (method : pystr) : bool :=
  bool_decide (method ∈ [u "POST"; u "PUT"; u "PATCH"; u "DELETE"]).

(** The part of [_authorize] for a route that asks for the password again. *)
Definition reauthorize (e : env) (r : Request) (p : policy) (body : list (pyval * pyval)) (token : pystr) : PyM console (option Response) :=
  fresh ← (λ c, let '(f, c) := _reauth_fresh token (rq_now r) c in (Ret f, c));
  if (fresh : bool) then mret None
  else if bool_decide (p = _REAUTH_WINDOW_ONLY) then mret (Some (Error 403))
  else
    let password := get_key (u "password") body in
    let ok := match password with VStr _ => _reauth_ok e token password | _ => false end in
    λ c,
      let '(a, l) := login_attempt (rq_peer_ip r) (rq_now r) ok (c_limiter c) in
      let c := c{{c_limiter := l}} in
      match a with
      | Raise ex => (Raise ex, c)
      | Ret (RateLimited retry) => (Ret (Some (TooMany retry)), c)
      | Ret Granted => (Ret None, c{{c_reauth_at := dict_set token (rq_now r) (c_reauth_at c)}})
      | Ret Denied => (Ret (Some (Error 403)), c)
      end.
(** [None]: the request may go on. *)
Definition _authorize (e : env) (r : Request) (p : policy) (body : list (pyval * pyval)) : PyM console (option Response) :=
  let token := _session_token r in
  live ← check_session token (rq_now r);
  if negb live then mret (Some (Error 401))
  else
    _ ← modify (_prune_reauth (rq_now r));
    csrf_ok ← (if changes (upper (rq_method r))
               then check_csrf token (_csrf_token r body)
               else mret true);
    if negb csrf_ok then mret (Some (Error 403))
    else if bool_decide (p = _REAUTH_REQUIRED) || bool_decide (p = _REAUTH_WINDOW_ONLY) then reauthorize e r p body token
    else mret None.

(** ** The handlers of the gate *)

Definition _handle_login_ (e : env) (r : Request) (body : list (pyval * pyval)) : PyM console Response := λ c,
  let '(a, l) := login_attempt (rq_peer_ip r) (rq_now r) (e_verify e (get_key (u "password") body)) (c_limiter c) in
  let c := c{{c_limiter := l}} in
  match a with
  | Raise ex => (Raise ex, c)
  | Ret (RateLimited retry) => (Ret (TooMany retry), c)
  | Ret Denied => (Ret (Error 401), c)
  | Ret Granted =>
      match create draw (S (length (sessions (c_sessions c)))) (rq_now r) None None (c_sessions c) with
      | Some (token, s) => (Ret (LoggedIn token (csrf_for (VStr token) s)), c{{c_sessions := s}})
      | None => (Raise OtherError, c)
      end
  end.
Definition _handle_logout_ (r : Request) : PyM console Response := λ c,
  let token := _session_token r in
  (Ret LoggedOut, c{{c_sessions := (revoke token (c_sessions c)).2}}{{c_reauth_at := dict_del token (c_reauth_at c)}}).

(** True only for a live session that also presented its CSRF token. *)
Definition _authenticated_admin_session (r : Request) (body : list (pyval * pyval)) : PyM console bool :=
  let token := _session_token r in
  if bool_decide (token = []) then mret false
  else
    live ← check_session token (rq_now r);
    if negb live then mret false
    else check_csrf token (_csrf_token r body).

Definition has_field (key : pystr) (d : list (pyval * pyval)) : bool := existsb (λ e, eq_str e.1 key) d.
(** [body.get(key, '')], [None] for a value that is neither text nor null. *)
Definition text_field (key : pystr) (d : list (pyval * pyval)) : option pystr :=
  if has_field key d then match get_key key d with VStr s => Some s | VNone => Some [] | _ => None end else Some [].
Definition body_size (b : pyval) : Z := match b with VBytes b => len b | VStr s => len s | _ => 0 end.

(** A flag: absent or a boolean. *)
Definition flag_field (key : pystr) (d : list (pyval * pyval)) : option bool :=
  match get_key key d with VBool b => Some b | _ => if has_field key d then None else Some false end.
Definition mqtt_fields (d : list (pyval * pyval)) : option (pystr * pystr * pystr * pystr) :=
  match get_key (u "uri") d with
  | VStr ((_ :: _) as uri) =>
      username ← text_field (u "username") d;
      password ← text_field (u "password") d;
      ca ← text_field (u "ca_file") d;
      Some (uri, username, password, ca)
  | _ => None
  end.
(** The values sent to the broker; [None] when a stored one is missing. *)
Definition stored_or (use : bool) (stored given : pystr) : option pystr :=
  if use then match stored with [] => None | s => Some s end else Some given.

Definition _handle_mqtt_test_ (e : env) (r : Request) (body : list (pyval * pyval)) : PyM console Response :=
  if negb (e_mqtt_probe e) then mret MqttUnavailable
  else if MAX_MQTT_TEST_BODY_BYTES <? body_size (rq_body r) then mret (Error 413)
  else
    match flag_field (u "use_stored_username") body, flag_field (u "use_stored_password") body, mqtt_fields body with
    | Some su, Some sp, Some (uri, username, password, ca) =>
        if su || sp then
          live ← _authenticated_admin_session r body;
          if negb live then mret (Error 403)
          else
            mret match stored_or su (e_stored_mqtt e).1 username, stored_or sp (e_stored_mqtt e).2 password with
                 | Some username, Some password => MqttProbed uri username password ca
                 | _, _ => Error 400
                 end
        else mret (MqttProbed uri username password ca)
    | _, _, _ => mret (Error 400)
    end.

Definition run_handler (e : env) (r : Request) (h : handler) (name : pystr) (body : list (pyval * pyval)) : PyM console Response :=
  match h with
  | _handle_login => _handle_login_ e r body
  | _handle_logout => _handle_logout_ r
  | _handle_reauth => mret Reauthed
  | _handle_mqtt_test => _handle_mqtt_test_ e r body
  | h => mret (Handled h name)
  end.

(** ** Dispatch *)

Definition needs_session (c : console) (e : env) (p : policy) : option policy :=
  match p with
  | _AUTHENTICATED | _REAUTH_REQUIRED | _REAUTH_WINDOW_ONLY => Some p
  | _SETUP_OR_AUTHENTICATED => if _setup_available c e then None else Some _AUTHENTICATED
  | _PUBLIC | _PUBLIC_SETUP => None
  end.
Definition _dispatch (e : env) (r : Request) : PyM console Response :=
  let method := upper (match rq_method r with [] => u "GET" | m => m end) in
  let path := match rq_path r with [] => u "/" | p => p end in
  body ← of_res (_parse_body r);
  c ← get;
  match _captive_redirect c r method with
  | Some response => mret response
  | None =>
      match _match _build_routes method path with
      | None =>
          if bool_decide (c_mode c = Setup) && bool_decide (method = u "GET") && negb (starts_with (u "/api/") path)
          then mret (Redirect (u "/"))
          else mret (Error 404)
      | Some (rt, name) =>
          if bool_decide (r_policy rt = _PUBLIC_SETUP) && negb (_setup_available c e) then
            mret (if bool_decide (method = u "GET") then Redirect (u "/admin") else Error 409)
          else
            denied ← match needs_session c e (r_policy rt) with
                     | Some p => _authorize e r p body
                     | None => mret None
                     end;
            match denied with
            | Some response => mret response
            | None => run_handler e r (r_handler rt) name body
            end
      end
  end.
End Console.

(** ** One route per request *)

(** No path matches both patterns: the paths of a fixed text are two, and a parameter
    holds no slash. *)
Definition disjoint (p q : pattern) : bool :=
  match p, q with
  | p, Exact t | Exact t, p => bool_decide (pattern_match p t = None) && bool_decide (pattern_match p (t ++ [10]) = None)
  | Param a, Param b => ends_with [47] a && ends_with [47] b && negb (bool_decide (a = b))
  end.
Lemma exact_paths t path name : pattern_match (Exact t) path = Some name → path = t ∨ path = t ++ [10].
Proof. cbn. repeat case_bool_decide; cbn; auto. done. Qed.
Lemma starts_with_split p s : starts_with p s = true → s = p ++ drop (length p) s.
Proof.
  revert s. induction p as [|c p IH]; intros [|d s]; cbn; try done. intros [->%Z.eqb_eq Hs]%andb_true_iff.
  f_equal. by apply IH.
Qed.
Lemma ends_with_slash p : ends_with [47] p = true → ∃ q, p = q ++ [47].
Proof.
  unfold ends_with. cbn [rev app]. destruct (rev p) as [|c r] eqn:Hr; [done|]. cbn [starts_with]. rewrite andb_true_r.
  intros <-%Z.eqb_eq.
  exists (rev r). rewrite <-(rev_involutive p), Hr. done.
Qed.
(** A text is determined up to its last slash. *)
Lemma last_slash_unique a b n m :
  47 ∉ n → 47 ∉ m → (a ++ [47]) ++ n = (b ++ [47]) ++ m → a = b.
Proof.
  intros Hn Hm. revert b. induction a as [|c a IH]; intros [|d b]; cbn; intros Heq.
  - done.
  - injection Heq as _ Heq. exfalso. apply Hn. rewrite Heq. apply elem_of_app. left. apply elem_of_app. right. left.
  - injection Heq as _ Heq. exfalso. apply Hm. rewrite <-Heq. apply elem_of_app. left. apply elem_of_app. right. left.
  - injection Heq as -> Heq. f_equal. by apply IH.
Qed.
Lemma param_path a path name :
  pattern_match (Param a) path = Some name → path = a ++ name ∧ 47 ∉ name.
Proof.
  cbn. destruct (starts_with a path) eqn:Hs; [|done]. apply starts_with_split in Hs.
  destruct (bool_decide _ || contains_char 47 _) eqn:Hb; [done|]. intros [= <-]. split; [done|].
  apply orb_false_iff in Hb as [_ Hc]. intros Hin%list_elem_of_In. apply not_true_iff_false in Hc. apply Hc.
  apply existsb_exists. exists 47. split; [done|]. by apply Z.eqb_eq.
Qed.
Lemma disjoint_sound p q path n m :
  disjoint p q = true → pattern_match p path = Some n → pattern_match q path = Some m → False.
Proof.
  assert (∀ t p n m, bool_decide (pattern_match p t = None) && bool_decide (pattern_match p (t ++ [10]) = None) = true →
            pattern_match p path = Some n → pattern_match (Exact t) path = Some m → False) as Hex.
  { intros t p' n' m' [H1%bool_decide_eq_true H2%bool_decide_eq_true]%andb_true_iff Hp [->| ->]%exact_paths; congruence. }
  destruct p as [a|a], q as [b|b]; cbn [disjoint]; intros Hd Hp Hq.
  - by eapply Hex.
  - by eapply Hex.
  - by eapply Hex.
  - apply andb_true_iff in Hd as [[(a' & ->)%ends_with_slash (b' & ->)%ends_with_slash]%andb_true_iff Hne%negb_true_iff%bool_decide_eq_false].
    apply param_path in Hp as [-> Hn]. apply param_path in Hq as [Heq Hm]. by apply last_slash_unique in Heq as ->.
Qed.

Fixpoint pairwise {A} (f : A → A → bool) (l : list A) : bool :=
  match l with [] => true | x :: l => forallb (f x) l && pairwise f l end.
Definition apart (r1 r2 : Route) : bool := negb (bool_decide (r_method r1 = r_method r2)) || disjoint (r_pattern r1) (r_pattern r2).
Lemma routes_apart : pairwise apart _build_routes = true.
Proof. vm_compute. reflexivity. Qed.

Lemma match_unique routes method path r n r' n' :
  pairwise apart routes = true → _match routes method path = Some (r, n) →
  r' ∈ routes → r_method r' = method → pattern_match (r_pattern r') path = Some n' → r' = r ∧ n' = n.
Proof.
  induction routes as [|x routes IH]; cbn [_match pairwise]; [done|]. intros [Hf Hp]%andb_true_iff.
  rewrite forallb_forall in Hf. case_bool_decide as Hm.
  - destruct (pattern_match (r_pattern x) path) as [nx|] eqn:Hx.
    + intros [= -> ->] [->|Hin%list_elem_of_In]%elem_of_cons Hm' Hn'; [split; congruence|]. exfalso.
      specialize (Hf r' Hin). unfold apart in Hf. rewrite bool_decide_true in Hf by congruence. cbn in Hf. by eapply disjoint_sound.
    + intros Hr [->|Hin]%elem_of_cons Hm' Hn'; [congruence|]. by apply IH.
  - intros Hr [->|Hin]%elem_of_cons Hm' Hn'; [congruence|]. by apply IH.
Qed.
Lemma match_route routes method path r n :
  _match routes method path = Some (r, n) → r ∈ routes ∧ r_method r = method ∧ pattern_match (r_pattern r) path = Some n.
Proof.
  induction routes as [|x routes IH]; cbn [_match]; [done|]. case_bool_decide as Hm.
  - destruct (pattern_match (r_pattern x) path) eqn:Hx; [intros [= -> ->]; split_and!; [left|done|done]|].
    intros (? & ? & ?)%IH. split_and!; [by right|done|done].
  - intros (? & ? & ?)%IH. split_and!; [by right|done|done].
Qed.

(** ** What passes the gate *)

Section Gate.
Context (lower upper : pystr → pystr) (json_loads : pystr → res pyval) (parse_qs : pystr → option (list (pystr * list pystr)))
        (cookie_load : pystr → option (option pystr)) (draw : nat → pystr).
Abbreviation dispatch := (_dispatch lower upper json_loads parse_qs cookie_load draw).
Abbreviation token_of := (_session_token lower cookie_load).
Abbreviation parse_body := (_parse_body lower json_loads parse_qs).

(** An exchange of the console: the request, what it found, and the answer. *)
Record entry := { en_env : env; en_req : Request; en_res : res Response }.
Inductive history (c0 : console) : list entry → console → Prop :=
  | history_start : history c0 [] c0
  | history_step log c e r res c' :
      history c0 log c → dispatch e r c = (res, c') →
      history c0 (log ++ [{| en_env := e; en_req := r; en_res := res |}]) c'.

(** The request carried the administrator's password. *)
Definition verified (e : env) (r : Request) : Prop :=
  ∃ body, parse_body r = Ret body ∧ e_verify e (get_key (u "password") body) = true.
Definition logout_of (token : pystr) (x : entry) : Prop := en_res x = Ret LoggedOut ∧ token_of (en_req x) = token.
(** A login that handed out the session, not ended since. *)
Definition login_of (log : list entry) (token csrf : pystr) (created : Z) : Prop :=
  ∃ before x after, log = before ++ x :: after ∧ en_res x = Ret (LoggedIn token (Some csrf)) ∧
    rq_now (en_req x) = created ∧ verified (en_env x) (en_req x) ∧ Forall (λ y, ¬ logout_of token y) after.
Definition proof_of (log : list entry) (token : pystr) (at_ : Z) : Prop :=
  ∃ x, x ∈ log ∧ token_of (en_req x) = token ∧ rq_now (en_req x) = at_ ∧ verified (en_env x) (en_req x).

(** Every session comes from a login, every window from a proof; [cur] is the request
    under way. *)
Record justified (log : list entry) (cur : env * Request) (ttl : Z) (c : console) : Prop := {
  j_nodup : NoDup (sessions (c_sessions c)).*1;
  j_ttl : absolute_ttl (c_sessions c) = ttl;
  j_session token s : (token, s) ∈ sessions (c_sessions c) →
    login_of log token (s_csrf s) (s_created s) ∧ s_absolute_ttl s = ttl;
  j_window token t : (token, t) ∈ c_reauth_at c →
    proof_of log token t ∨ token_of cur.2 = token ∧ rq_now cur.2 = t ∧ verified cur.1 cur.2;
}.

Lemma login_of_next log token csrf created x :
  login_of log token csrf created → ¬ logout_of token x → login_of (log ++ [x]) token csrf created.
Proof.
  intros (before & y & after & -> & Hr & Ht & Hv & Hf) Hx. exists before, y, (after ++ [x]).
  split_and!; [by rewrite <-app_assoc|done|done|done|]. apply Forall_app_2; [done|by constructor].
Qed.
Lemma proof_of_next log token t x : proof_of log token t → proof_of (log ++ [x]) token t.
Proof. intros (y & Hy & ?). exists y. split; [apply elem_of_app; by left|done]. Qed.

(** *** The pieces keep the justification *)

(** [validate] only drops sessions or updates when one was last seen. *)
Lemma validate_sessions token now st ok st' :
  validate token now st = (ok, st') → NoDup (sessions st).*1 →
  NoDup (sessions st').*1 ∧ absolute_ttl st' = absolute_ttl st ∧
  ∀ t s', (t, s') ∈ sessions st' → ∃ s, (t, s) ∈ sessions st ∧ s_csrf s' = s_csrf s ∧ s_created s' = s_created s ∧
                                       s_absolute_ttl s' = s_absolute_ttl s.
Proof.
  intros Hv Hnd. unfold validate in Hv. destruct token as [| | | |tk| | |]; try (injection Hv as <- <-; split_and!; [done|done|eauto]).
  destruct (dict_get tk (sessions st)) as [r|] eqn:Hg; [|injection Hv as <- <-; split_and!; [done|done|eauto]].
  assert (∀ st', st' = st{{sessions := dict_del tk (sessions st)}} → NoDup (sessions st').*1 ∧ absolute_ttl st' = absolute_ttl st ∧
    ∀ t s', (t, s') ∈ sessions st' → ∃ s, (t, s) ∈ sessions st ∧ s_csrf s' = s_csrf s ∧ s_created s' = s_created s ∧
                                       s_absolute_ttl s' = s_absolute_ttl s) as Hdel.
  { intros st2 ->. destruct st. cbn in *. unfold constant. split_and!; [by apply dict_del_keys|done|].
    intros t s' [_ Hin]%dict_del_elem. eauto. }
  repeat case_match; injection Hv as <- <-; try by apply Hdel.
  destruct st. cbn in *. unfold constant. split_and!; [by apply dict_set_nodup|done|].
  intros t s' [[= -> ->]|[_ Hin]]%dict_set_entry; [|eauto|done]. exists r. apply dict_get_Some_elem in Hg. by destruct r.
Qed.
Lemma check_session_justified log cur ttl token now c :
  justified log cur ttl c → justified log cur ttl (check_session token now c).2.
Proof.
  intros [Hnd Htt Hs Hw]. unfold check_session. destruct (validate _ _ _) as [ok st] eqn:Hv.
  destruct (validate_sessions _ _ _ _ _ Hv Hnd) as (Hnd' & Htt' & Hsub). destruct c. cbn in *. unfold constant.
  split; cbn; [done|congruence| |done]. intros t s' (s & Hin & -> & -> & ->)%Hsub. auto.
Qed.
Lemma window_sub log cur ttl c l :
  justified log cur ttl c → (∀ e, e ∈ l → e ∈ c_reauth_at c) → justified log cur ttl (c{{c_reauth_at := l}}).
Proof. intros [Hnd Htt Hs Hw] Hl. destruct c. cbn in *. unfold constant. split; cbn; auto. Qed.
Lemma limiter_free log cur ttl c l : justified log cur ttl c → justified log cur ttl (c{{c_limiter := l}}).
Proof. intros [Hnd Htt Hs Hw]. destruct c. by split. Qed.
Lemma prune_justified log cur ttl now c : justified log cur ttl c → justified log cur ttl (_prune_reauth now c).
Proof. intros Hj. apply window_sub; [done|]. intros e [He _]%list_elem_of_In%filter_In. by apply list_elem_of_In. Qed.
Lemma fresh_justified log cur ttl token now c : justified log cur ttl c → justified log cur ttl (_reauth_fresh token now c).2.
Proof.
  intros Hj. unfold _reauth_fresh. repeat case_match; try done. apply window_sub; [done|]. by intros e [_ He]%dict_del_elem.
Qed.
(** Setting a key of a table adds at most that entry. *)
Lemma dict_set_sub {V} k (v : V) (d : list (pystr * V)) e : e ∈ dict_set k v d → e = (k, v) ∨ e ∈ d.
Proof.
  induction d as [|[k' v'] d IH]; cbn; [intros ->%list_elem_of_singleton; by left|]. case_decide.
  - subst. intros [->|?]%elem_of_cons; [by left|right; by right].
  - intros [->|[?|?]%IH]%elem_of_cons; [right; left|by left|right; by right].
Qed.
Lemma reauthorize_justified log e r ttl p body c :
  justified log (e, r) ttl c → parse_body r = Ret body →
  justified log (e, r) ttl (reauthorize e r p body (token_of r) c).2.
Proof.
  intros Hj Hb. unfold reauthorize. unfold mbind, pym_bind. pose proof (fresh_justified _ _ _ (token_of r) (rq_now r) _ Hj) as Hf.
  destruct (_reauth_fresh (token_of r) (rq_now r) c) as [fresh c1]. cbn [snd] in Hf. destruct fresh; [done|]. case_bool_decide; [done|].
  set (ok := match get_key (u "password") body with VStr _ => _ | _ => false end).
  destruct (login_attempt _ _ ok _) as [a l] eqn:Ha. apply (limiter_free _ _ _ _ l) in Hf.
  destruct a as [[retry| |]|ex]; try done. cbn [snd].
  assert (ok = true) as Hok.
  { unfold login_attempt in Ha. destruct (check _ _ _) as [[allowed ra] l0]. destruct allowed; cbn in Ha; [|done].
    destruct ok; [done|]. unfold mbind, pym_bind in Ha. destruct (record_failure _ _ l0) as [[]]; done. }
  assert (verified e r) as Hv.
  { exists body. split; [done|]. unfold ok in Hok. destruct (get_key (u "password") body); try done.
    unfold _reauth_ok in Hok. by apply andb_true_iff in Hok as [_ ?]. }
  destruct Hf as [Hnd Htt Hs Hw]. destruct c1. cbn in *. unfold constant in *. split; cbn; [done|done|done|].
  intros token t [[= -> ->]|Hin]%dict_set_sub; [by right|auto].
Qed.
Lemma authorize_justified log e r ttl p body c :
  justified log (e, r) ttl c → parse_body r = Ret body →
  justified log (e, r) ttl (_authorize lower upper cookie_load e r p body c).2.
Proof.
  intros Hj Hb. unfold _authorize. unfold mbind, pym_bind. pose proof (check_session_justified _ _ _ (token_of r) (rq_now r) _ Hj) as H1.
  destruct (check_session (token_of r) (rq_now r) c) as [[live|ex] c1]; [|done]. cbn [snd] in H1. destruct live; cbn [negb]; [|done].
  unfold modify. apply (prune_justified _ _ _ (rq_now r)) in H1.
  set (m := if changes _ then _ else _). assert (∀ c, (m c).2 = c) as Hm by (intros; unfold m; by destruct (changes _)).
  specialize (Hm (_prune_reauth (rq_now r) c1)). destruct (m (_prune_reauth (rq_now r) c1)) as [[csrf|ex] c2]; cbn [snd] in Hm; subst c2; [|done].
  destruct csrf; cbn [negb]; [|done]. destruct (_ || _); [|done]. by apply reauthorize_justified.
Qed.

(** The answered request joins the log. *)
Lemma settle log e r ttl c res cur :
  justified log (e, r) ttl c → res ≠ Ret LoggedOut →
  justified (log ++ [{| en_env := e; en_req := r; en_res := res |}]) cur ttl c.
Proof.
  intros [Hnd Htt Hs Hw] Hres. split; [done|done| |].
  - intros token s Hin. destruct (Hs token s Hin) as [Hl Ht]. split; [|done]. apply login_of_next; [done|]. by intros [? _].
  - intros token t Hin. left. destruct (Hw token t Hin) as [Hp|(H1 & H2 & H3)]; [by apply proof_of_next|].
    eexists. split; [apply elem_of_app; right; left|done].
Qed.

Lemma fresh_token_new fuel i l t j : fresh_token draw fuel i l = Some (t, j) → t ∉ l.*1.
Proof.
  revert i. induction fuel as [|fuel IH]; intros i; cbn; [done|]. destruct (dict_get (draw i) l) eqn:Hg; [apply IH|].
  intros [= <- <-]. by apply dict_get_None.
Qed.
Lemma create_sessions fuel now st token st' :
  create draw fuel now None None st = Some (token, st') → NoDup (sessions st).*1 →
  NoDup (sessions st').*1 ∧ absolute_ttl st' = absolute_ttl st ∧
  ∀ t s, (t, s) ∈ sessions st' → (t, s) ∈ sessions st ∨ t = token ∧ s_created s = now ∧ s_absolute_ttl s = absolute_ttl st.
Proof.
  unfold create. intros Hc Hnd. set (l0 := prune_sessions now (sessions st)) in *.
  destruct (fresh_token draw fuel (drawn st) l0) as [[tk i]|] eqn:Hf; [|done]. injection Hc as -> <-.
  apply fresh_token_new in Hf. assert (NoDup l0.*1) as Hnd0 by by apply prune_keys.
  set (r := {| s_csrf := draw i |}). set (l1 := dict_set token r l0).
  assert (NoDup l1.*1) as Hnd1 by by apply dict_set_nodup.
  set (l2 := if max_sessions st <? len l1 then _evict_oldest l1 else l1).
  assert (NoDup l2.*1 ∧ ∀ e, e ∈ l2 → e ∈ l1) as [Hnd2 Hsub].
  { unfold l2, _evict_oldest. repeat case_match; try done. split; [by apply dict_del_keys|]. by intros e [_ ?]%dict_del_elem. }
  change (sessions (st{{sessions := l2; drawn := S i}})) with l2. split_and!; [done|done|].
  intros t s Hin. apply Hsub, dict_set_sub in Hin as [[= -> ->]|Hin]; [by right|]. left.
  apply list_elem_of_In, filter_In in Hin as [Hin _]. by apply list_elem_of_In.
Qed.

Lemma login_justified log e r ttl body c cur :
  justified log (e, r) ttl c → parse_body r = Ret body →
  let '(res, c') := _handle_login_ draw e r body c in
  justified (log ++ [{| en_env := e; en_req := r; en_res := res |}]) cur ttl c'.
Proof.
  intros Hj Hb. unfold _handle_login_. destruct (login_attempt _ _ _ _) as [a l] eqn:Ha. apply (limiter_free _ _ _ _ l) in Hj.
  destruct a as [[retry| |]|ex]; try by apply settle. set (c1 := c{{c_limiter := l}}) in *.
  destruct (create _ _ _ _ _ _) as [[token st']|] eqn:Hc; [|by apply settle].
  assert (verified e r) as Hv.
  { exists body. split; [done|]. unfold login_attempt in Ha. destruct (check _ _ _) as [[allowed ra] l0].
    destruct allowed; cbn in Ha; [|done]. destruct (e_verify e _); [done|]. unfold mbind, pym_bind in Ha. by destruct (record_failure _ _ l0) as [[]]. }
  pose proof (j_nodup _ _ _ _ Hj) as Hnd. destruct (create_sessions _ _ _ _ _ Hc Hnd) as (Hnd' & Htt & Hsub).
  assert (∀ s, (token, s) ∈ sessions st' → csrf_for (VStr token) st' = Some (s_csrf s)) as Hcsrf.
  { intros s Hin. apply dict_get_elem in Hin; [|done]. cbn. by rewrite Hin. }
  assert (∀ x, c_sessions (c1{{c_sessions := x}}) = x ∧ c_reauth_at (c1{{c_sessions := x}}) = c_reauth_at c1) as Hproj by (intros; by destruct c1).
  destruct (Hproj st') as [Hp1 Hp2]. split; rewrite ?Hp1, ?Hp2; [done|rewrite Htt; apply Hj| |].
  - intros t s Hin. destruct (Hsub t s Hin) as [Hold|(-> & Hcr & Hab)].
    + destruct (j_session _ _ _ _ Hj t s Hold) as [Hl Ht]. split; [|done]. apply login_of_next; [done|]. by intros [? _].
    + split; [|rewrite Hab; apply Hj]. eexists log, _, []. split_and!; [done| |by symmetry|done|constructor].
      cbn [en_res]. by rewrite (Hcsrf s Hin).
  - intros t tm Hin. left. destruct (j_window _ _ _ _ Hj t tm Hin) as [Hp|(H1 & H2 & H3)]; [by apply proof_of_next|].
    eexists. split; [apply elem_of_app; right; left|done].
Qed.
Lemma logout_justified log e r ttl c cur :
  justified log (e, r) ttl c →
  let '(res, c') := _handle_logout_ lower cookie_load r c in
  justified (log ++ [{| en_env := e; en_req := r; en_res := res |}]) cur ttl c'.
Proof.
  intros [Hnd Htt Hs Hw]. unfold _handle_logout_.
  assert (NoDup (sessions (revoke (token_of r) (c_sessions c)).2).*1 ∧ absolute_ttl (revoke (token_of r) (c_sessions c)).2 = ttl ∧
          ∀ t s, (t, s) ∈ sessions (revoke (token_of r) (c_sessions c)).2 → t ≠ token_of r ∧ (t, s) ∈ sessions (c_sessions c)) as (Hnd' & Htt' & Hsub).
  { unfold revoke. destruct (dict_get (token_of r) (sessions (c_sessions c))) eqn:Hg; cbn [snd].
    - destruct (c_sessions c). cbn in *. unfold constant. split_and!; [by apply dict_del_keys|done|]. by intros t s' [? ?]%dict_del_elem.
    - split_and!; [done|done|]. intros t s Hin. split; [|done]. intros ->. apply dict_get_None in Hg. apply Hg.
      by apply (list_elem_of_fmap_2 fst _ (token_of r, s)). }
  destruct c. cbn in *. unfold constant in *. split; cbn; [done|done| |].
  - intros t s [Hne Hin]%Hsub. destruct (Hs t s Hin) as [Hl Ht]. split; [|done]. apply login_of_next; [done|].
    intros [_ Hlo]. cbn in Hlo. congruence.
  - intros t tm [_ Hin]%dict_del_elem. left. destruct (Hw t tm Hin) as [Hp|(H1 & H2 & H3)]; [by apply proof_of_next|].
    eexists. split; [apply elem_of_app; right; left|done].
Qed.

Lemma mqtt_justified log e r ttl body c cur :
  justified log (e, r) ttl c →
  let '(res, c') := _handle_mqtt_test_ lower cookie_load e r body c in
  justified (log ++ [{| en_env := e; en_req := r; en_res := res |}]) cur ttl c'.
Proof.
  intros Hj. unfold _handle_mqtt_test_. destruct (e_mqtt_probe e); cbn [negb]; [|by apply settle].
  destruct (_ <? _); [by apply settle|].
  destruct (flag_field (u "use_stored_username") body) as [su|]; [|by apply settle].
  destruct (flag_field (u "use_stored_password") body) as [sp|]; [|by apply settle].
  destruct (mqtt_fields body) as [[[[uri un] pw] ca]|]; [|by apply settle]. destruct (su || sp); [|by apply settle].
  unfold _authenticated_admin_session, mbind, pym_bind. case_bool_decide; [by apply settle|].
  pose proof (check_session_justified _ _ _ (token_of r) (rq_now r) _ Hj) as H1.
  destruct (check_session (token_of r) (rq_now r) c) as [[live|ex] c1]; cbn [snd] in H1; [|by apply settle].
  destruct live; cbn [negb]; [|by apply settle]. unfold check_csrf.
  destruct (validate_csrf _ _ _) as [ok|ex]; [|by apply settle]. destruct ok; cbn [negb]; [|by apply settle].
  apply settle; [done|]. by repeat case_match.
Qed.
Lemma handler_justified log e r ttl h name body c cur :
  justified log (e, r) ttl c → parse_body r = Ret body →
  let '(res, c') := run_handler lower cookie_load draw e r h name body c in
  justified (log ++ [{| en_env := e; en_req := r; en_res := res |}]) cur ttl c'.
Proof.
  intros Hj Hb. destruct h; cbn [run_handler]; try by apply settle.
  - by apply login_justified.
  - by apply mqtt_justified.
  - by apply logout_justified.
Qed.
(** One request, from a console whose windows are all in the log. *)
Lemma dispatch_justified log ttl c e r res c' cur :
  (∀ cur, justified log cur ttl c) → dispatch e r c = (res, c') →
  justified (log ++ [{| en_env := e; en_req := r; en_res := res |}]) cur ttl c'.
Proof.
  intros Hj Hd. specialize (Hj (e, r)). unfold _dispatch in Hd. unfold mbind, pym_bind, of_res, get in Hd.
  destruct (parse_body r) as [body|ex] eqn:Hb; [|injection Hd as <- <-; by apply settle].
  destruct (_captive_redirect _ _ _ _) as [resp|] eqn:Hcap.
  { injection Hd as <- <-. apply settle; [done|]. unfold _captive_redirect in Hcap. repeat case_match; by simplify_eq. }
  destruct (_match _ _ _) as [[rt name]|]; [|case_match; injection Hd as <- <-; by apply settle].
  destruct (_ && _); [injection Hd as <- <-; apply settle; [done|]; by destruct (bool_decide _)|].
  set (m := match needs_session c e (r_policy rt) with Some p => _ | None => _ end) in Hd.
  assert (justified log (e, r) ttl (m c).2 ∧ (m c).1 ≠ Ret (Some LoggedOut)) as [Hm Hne].
  { unfold m. destruct (needs_session _ _ _) as [p|]; [|done]. split; [by apply authorize_justified|].
    unfold _authorize, reauthorize, check_csrf, modify, mret, pym_ret, mbind, pym_bind. repeat (case_match; try done); cbn [fst]; congruence. }
  destruct (m c) as [[[resp|]|ex] c1]; cbn [fst snd] in *.
  - injection Hd as <- <-. apply settle; [done|]. congruence.
  - pose proof (handler_justified log e r ttl (r_handler rt) name body c1 cur Hm Hb) as Hh. by rewrite Hd in Hh.
  - injection Hd as <- <-. by apply settle.
Qed.
Lemma history_justified c0 log c cur :
  sessions (c_sessions c0) = [] → c_reauth_at c0 = [] → history c0 log c → justified log cur (absolute_ttl (c_sessions c0)) c.
Proof.
  intros Hs Hr Hh. revert cur. induction Hh as [|log c e r res c' _ IH Hd]; intros cur.
  - split; rewrite ?Hs, ?Hr; [apply NoDup_nil_2|done|by intros ?? ?%not_elem_of_nil|by intros ?? ?%not_elem_of_nil].
  - eapply dispatch_justified; [exact IH|done].
Qed.

(** *** What an authorized request shows *)

Definition again (p : policy) : Prop := p = _REAUTH_REQUIRED ∨ p = _REAUTH_WINDOW_ONLY.
Lemma validate_true token now st st' :
  validate (VStr token) now st = (true, st') →
  ∃ s, dict_get token (sessions st) = Some s ∧ now - s_created s < s_absolute_ttl s ∧ now - s_last_seen s < s_idle_ttl s ∧
       csrf_for (VStr token) st' = Some (s_csrf s).
Proof.
  cbn [validate]. destruct (dict_get token (sessions st)) as [s|] eqn:Hg; [|done].
  destruct (Z.leb_spec (s_absolute_ttl s) (now - s_created s)); [done|].
  destruct (Z.leb_spec (s_idle_ttl s) (now - s_last_seen s)); [done|]. intros [= <-]. exists s. split_and!; try done.
  destruct st, s. cbn. unfold constant. by rewrite dict_get_set_eq.
Qed.
Lemma reauthorize_none e r p body token c c' :
  reauthorize e r p body token c = (Ret None, c') →
  (∃ t, (token, t) ∈ c_reauth_at c ∧ rq_now r - t < REAUTH_WINDOW_SECONDS) ∨ e_verify e (get_key (u "password") body) = true.
Proof.
  unfold reauthorize, mbind, pym_bind, _reauth_fresh.
  destruct (dict_get token (c_reauth_at c)) as [t|] eqn:Hg;
    [destruct (Z.leb_spec REAUTH_WINDOW_SECONDS (rq_now r - t));
       [|intros _; left; exists t; split; [by apply dict_get_Some_elem|done]]|].
  all: case_bool_decide; [done|]; set (ok := match get_key (u "password") body with VStr _ => _ | _ => false end);
    destruct (login_attempt _ _ ok _) as [a l] eqn:Ha; destruct a as [[retry| |]|ex]; try done; intros _; right.
  all: assert (ok = true) as Hok by
    (unfold login_attempt in Ha; destruct (check _ _ _) as [[allowed ra] l0]; destruct allowed; cbn in Ha; [|done];
     destruct ok; [done|]; unfold mbind, pym_bind in Ha; by destruct (record_failure _ _ l0) as [[]]).
  all: unfold ok in Hok; destruct (get_key (u "password") body); try done;
    unfold _reauth_ok in Hok; by apply andb_true_iff in Hok as [_ ?].
Qed.
Lemma authorize_none e r p body c c' :
  _authorize lower upper cookie_load e r p body c = (Ret None, c') →
  ∃ s, (token_of r, s) ∈ sessions (c_sessions c) ∧ rq_now r - s_created s < s_absolute_ttl s ∧
    (changes (upper (rq_method r)) = true → _csrf_token lower r body = s_csrf s) ∧
    (again p → (∃ t, (token_of r, t) ∈ c_reauth_at c ∧ rq_now r - t < REAUTH_WINDOW_SECONDS) ∨
               e_verify e (get_key (u "password") body) = true).
Proof.
  unfold _authorize, mbind, pym_bind, check_session. destruct (validate (VStr (token_of r)) (rq_now r) (c_sessions c)) as [live st] eqn:Hv.
  destruct live; cbn [negb]; [|done]. destruct (validate_true _ _ _ _ Hv) as (s & Hg & Habs & _ & Hcsrf).
  unfold modify. set (c1 := _prune_reauth _ _).
  assert (c_sessions c1 = st ∧ ∀ x, x ∈ c_reauth_at c1 → x ∈ c_reauth_at c) as [Hs1 Hr1].
  { unfold c1, _prune_reauth. destruct c. cbn. unfold constant. split; [done|]. intros x [Hx _]%list_elem_of_In%filter_In. by apply list_elem_of_In. }
  clearbody c1. intros Ha. exists s. split; [by apply dict_get_Some_elem|]. split; [done|].
  assert (changes (upper (rq_method r)) = true → _csrf_token lower r body = s_csrf s) as Hc.
  { intros Hch. rewrite Hch in Ha. unfold check_csrf in Ha. rewrite Hs1 in Ha. cbn [validate_csrf] in Ha. rewrite Hcsrf in Ha.
    unfold compare_digest in Ha. destruct (_ && _); [|done]. case_bool_decide; [done|]. done. }
  split; [done|]. intros Hp.
  assert (∃ c2, reauthorize e r p body (token_of r) c1 = (Ret None, c2)) as [c2 Hre].
  { assert ((bool_decide (p = _REAUTH_REQUIRED) || bool_decide (p = _REAUTH_WINDOW_ONLY)) = true) as Hp'.
    { by destruct Hp as [-> | ->]. }
    rewrite Hp' in Ha. destruct (changes _); [|by eexists]. unfold check_csrf in Ha.
    destruct (validate_csrf _ _ _) as [[]|]; [by eexists|done|done]. }
  destruct (reauthorize_none _ _ _ _ _ _ _ Hre) as [(t & Ht & Hlt)|?]; [left; eauto|by right].
Qed.

(** The handler an answer comes from. *)
Definition served (resp : Response) : option handler :=
  match resp with
  | Handled h _ => Some h
  | LoggedIn _ _ => Some _handle_login
  | LoggedOut => Some _handle_logout
  | Reauthed => Some _handle_reauth
  | MqttProbed _ _ _ _ => Some _handle_mqtt_test
  | Error _ | Redirect _ | TooMany _ | MqttUnavailable => None
  end.
Lemma handler_served e r h name body c resp c' h' :
  run_handler lower cookie_load draw e r h name body c = (Ret resp, c') → served resp = Some h' → h' = h.
Proof.
  destruct h; cbn [run_handler]; try (intros [= <- <-] [= <-]; done).
  - unfold _handle_login_. repeat case_match; intros; simplify_eq/=; done.
  - unfold _handle_mqtt_test_. destruct (negb _); [by intros [= <- <-]|]. destruct (_ <? _); [by intros [= <- <-]|].
    destruct (flag_field _ body) as [su|]; [|by intros [= <- <-]]. destruct (flag_field _ body) as [sp|]; [|by intros [= <- <-]].
    destruct (mqtt_fields body) as [[[[uri un] pw] ca]|]; [|by intros [= <- <-]].
    destruct (su || sp); [|by intros [= <- <-] [= <-]]. unfold mbind, pym_bind.
    destruct (_authenticated_admin_session _ _ _ _ _) as [[live|] c1]; [|done]. destruct (negb live); [by intros [= <- <-]|].
    intros [= <- <-]. destruct (stored_or su _ _); [|done]. destruct (stored_or sp _ _); cbn; congruence.
Qed.

Lemma dispatch_served e r c resp c' h :
  dispatch e r c = (Ret resp, c') → served resp = Some h →
  ∃ body rt name, parse_body r = Ret body ∧
    _match _build_routes (upper (match rq_method r with [] => u "GET" | m => m end)) (match rq_path r with [] => u "/" | p => p end) = Some (rt, name) ∧
    r_handler rt = h ∧ (r_policy rt = _PUBLIC_SETUP → _setup_available c e = true) ∧
    (∀ p, needs_session c e (r_policy rt) = Some p → ∃ c1, _authorize lower upper cookie_load e r p body c = (Ret None, c1)).
Proof.
  intros Hd Hh. unfold _dispatch, mbind, pym_bind, of_res, get in Hd. destruct (parse_body r) as [body|ex]; [|done].
  destruct (_captive_redirect _ _ _ _) as [x|] eqn:Hcap.
  { injection Hd as <- <-. unfold _captive_redirect in Hcap. repeat case_match; by simplify_eq. }
  destruct (_match _ _ _) as [[rt name]|]; [|case_match; by injection Hd as <- <-].
  destruct (bool_decide (r_policy rt = _PUBLIC_SETUP) && negb (_setup_available c e)) eqn:Hps.
  { injection Hd as <- <-. exfalso. revert Hh. by destruct (bool_decide (upper _ = _)). }
  exists body, rt, name. split; [done|]. split; [done|]. destruct (needs_session c e (r_policy rt)) as [p|] eqn:Hns.
  - destruct (_authorize _ _ _ _ _ _ _ _) as [[[x|]|ex] c1] eqn:Ha; [|..|done].
    + injection Hd as -> <-. exfalso. clear -Ha Hh. unfold _authorize, reauthorize, check_csrf, modify, mret, pym_ret, mbind, pym_bind in Ha.
      repeat (case_match; simplify_eq/=; try done).
    + split; [exact (eq_sym (handler_served _ _ _ _ _ _ _ _ _ Hd Hh))|]. split; [|by intros q [= <-]; eexists].
      intros Hpol. rewrite Hpol in Hns. done.
  - split; [exact (eq_sym (handler_served _ _ _ _ _ _ _ _ _ Hd Hh))|]. split; [|done]. intros Hpol. rewrite Hpol, bool_decide_true in Hps by done.
    cbn in Hps. by apply negb_false_iff in Hps.
Qed.
End Gate.

(** C3: whatever requests a console has seen since it started without sessions, a
    handler of a protected route answers only if the request carries the token of a
    session that an earlier login with the administrator's password handed out, less than
    the absolute lifetime ago, and that no logout ended since; if it changes something, it
    carries the CSRF token handed out with that session; and a route that asks for the
    password again saw it from this session within the last five minutes or in this
    request.  Handlers of the setup pages answer only while setup is open. *)
Theorem console_gate lower upper json_loads parse_qs cookie_load draw c0 log c e r resp c' h :
  sessions (c_sessions c0) = [] → c_reauth_at c0 = [] →
  history lower upper json_loads parse_qs cookie_load draw c0 log c →
  _dispatch lower upper json_loads parse_qs cookie_load draw e r c = (Ret resp, c') → served resp = Some h →
  let token := _session_token lower cookie_load r in
  ∃ rt, rt ∈ _build_routes ∧ r_handler rt = h ∧
    match needs_session c e (r_policy rt) with
    | None => r_policy rt = _PUBLIC ∨ _setup_available c e = true
    | Some p =>
        ∃ body csrf created, _parse_body lower json_loads parse_qs r = Ret body ∧
          login_of lower json_loads parse_qs cookie_load log token csrf created ∧
          rq_now r - created < absolute_ttl (c_sessions c0) ∧
          (changes (upper (rq_method r)) = true → _csrf_token lower r body = csrf) ∧
          (again p → (∃ t, rq_now r - t < REAUTH_WINDOW_SECONDS ∧ proof_of lower json_loads parse_qs cookie_load log token t) ∨
                     e_verify e (get_key (u "password") body) = true)
    end.
Proof.
  intros Hs Hr Hh Hd Hsv token.
  pose proof (λ cur, history_justified lower upper json_loads parse_qs cookie_load draw c0 log c cur Hs Hr Hh) as Hj'.
  destruct (dispatch_served _ _ _ _ _ _ _ _ _ _ _ _ Hd Hsv) as (body & rt & name & Hb & Hm & Hrh & Hset & Hauth).
  destruct (match_route _ _ _ _ _ Hm) as (Hin & _ & _). exists rt. split; [done|]. split; [done|].
  destruct (needs_session c e (r_policy rt)) as [p|] eqn:Hns.
  - destruct (Hauth p eq_refl) as [c1 Ha]. destruct (authorize_none _ _ _ _ _ _ _ _ _ Ha) as (s & Hsin & Habs & Hcsrf & Hag).
    destruct (j_session _ _ _ _ _ _ _ _ (Hj' (e, r)) token s Hsin) as [Hl Httl].
    exists body, (s_csrf s), (s_created s). split_and!; [done|done|by rewrite <-Httl|done|].
    intros Hp. destruct (Hag Hp) as [(t & Ht & Hlt)|?]; [|by right]. left. exists t. split; [done|].
    assert (∀ cur, proof_of lower json_loads parse_qs cookie_load log token t ∨
              _session_token lower cookie_load (snd cur) = token ∧ rq_now (snd cur) = t ∧ verified lower json_loads parse_qs (fst cur) (snd cur)) as Hw
      by (intros cur; by apply (j_window _ _ _ _ _ _ _ _ (Hj' cur))).
    destruct (Hw (e, {| rq_method := []; rq_path := []; rq_headers := []; rq_body := VNone; rq_peer_ip := []; rq_now := t + 1 |})) as [?|(_ & Hbad & _)];
      [done|]. cbn in Hbad. lia.
  - unfold needs_session in Hns. destruct (r_policy rt) eqn:Hp; try done; [by left|right; by apply Hset|].
    right. by destruct (_setup_available c e).
Qed.
Definition demo_json (s : pystr) : res pyval := Ret (VDict [(VStr (u "password"), VStr (u "pw"))]).
Definition demo_dispatch := _dispatch (λ s, s) (λ s, s) demo_json (λ _, None) (λ s, Some (Some s)) numbered.
Definition demo_env : env :=
  {| e_state_file := Missing; e_claimable := true; e_verify := λ v, eq_str v (u "pw"); e_mqtt_probe := false; e_stored_mqtt := ([], []) |}.
Definition demo_console : console :=
  {| c_mode := Admin; c_allow_any_host := false; c_injected := None; c_sessions := empty_store; c_limiter := default_limiter; c_reauth_at := [] |}.
Definition demo_login : Request :=
  {| rq_method := u "POST"; rq_path := u "/api/login"; rq_headers := []; rq_body := VStr (u "{"); rq_peer_ip := u "10.0.0.7"; rq_now := 10 |}.
Definition demo_put : Request :=
  {| rq_method := u "PUT"; rq_path := u "/api/config";
     rq_headers := [(VStr (u "Cookie"), VStr (u "0")); (VStr (u "X-CSRF-Token"), VStr (u "1"))];
     rq_body := VNone; rq_peer_ip := u "10.0.0.7"; rq_now := 20 |}.
Lemma console_gate_witness :
  let log := [{| en_env := demo_env; en_req := demo_login; en_res := (demo_dispatch demo_env demo_login demo_console).1 |}] in
  (demo_dispatch demo_env demo_put (demo_dispatch demo_env demo_login demo_console).2).1 = Ret (Handled _handle_config_put []) ∧
  ∃ csrf created, login_of (λ s, s) demo_json (λ _, None) (λ s, Some (Some s)) log (u "0") csrf created.
Proof.
  set (c1 := (demo_dispatch demo_env demo_login demo_console).2).
  destruct (demo_dispatch demo_env demo_put c1) as [resp c2] eqn:Hd.
  assert (resp = Ret (Handled _handle_config_put [])) as -> by (vm_compute in Hd; by injection Hd).
  split; [done|].
  destruct (console_gate (λ s, s) (λ s, s) demo_json (λ _, None) (λ s, Some (Some s)) numbered demo_console
    [{| en_env := demo_env; en_req := demo_login; en_res := (demo_dispatch demo_env demo_login demo_console).1 |}] c1
    demo_env demo_put (Handled _handle_config_put []) c2 _handle_config_put eq_refl eq_refl) as (rt & Hin & Hh & Hrest).
  - apply (history_step _ _ _ _ _ _ demo_console [] demo_console); [constructor|]. apply surjective_pairing.
  - exact Hd.
  - done.
  - assert (needs_session c1 demo_env (r_policy rt) = Some _AUTHENTICATED) as Hns.
    { assert (forallb (λ rt, negb (bool_decide (r_handler rt = _handle_config_put)) || bool_decide (r_policy rt = _AUTHENTICATED)) _build_routes = true) as Hall
        by (vm_compute; reflexivity).
      rewrite forallb_forall in Hall. apply list_elem_of_In in Hin. specialize (Hall rt Hin). rewrite bool_decide_true in Hall by done.
      cbn in Hall. apply bool_decide_eq_true in Hall as ->. reflexivity. }
    rewrite Hns in Hrest. destruct Hrest as (body & csrf & created & _ & Hl & _). exists csrf, created. exact Hl.
Defined.

(** ** The table and the setup gate *)

Definition public_mutations : list handler :=
  [_handle_login; _handle_mqtt_test; _handle_setup_scan; _handle_setup_step; _handle_setup_finish].
Lemma guarded_routes rt :
  rt ∈ _build_routes → changes (r_method rt) = true →
  r_policy rt = _AUTHENTICATED ∨ again (r_policy rt) ∨ r_handler rt ∈ public_mutations.
Proof.
  assert (forallb (λ rt, negb (changes (r_method rt)) || bool_decide (r_policy rt = _AUTHENTICATED) ||
            (bool_decide (r_policy rt = _REAUTH_REQUIRED) || bool_decide (r_policy rt = _REAUTH_WINDOW_ONLY)) ||
            bool_decide (r_handler rt ∈ public_mutations)) _build_routes = true) as Hall by (vm_compute; reflexivity).
  rewrite forallb_forall in Hall. intros Hin%list_elem_of_In Hc. specialize (Hall rt Hin). rewrite Hc in Hall. cbn [negb orb] in Hall.
  rewrite !orb_true_iff, !bool_decide_eq_true in Hall. unfold again. tauto.
Qed.

Lemma finish_is_open s : in_states (Some s) FINISH_WINDOW_STATES = true → in_states (Some s) SETUP_OPEN_STATES = true.
Proof. by destruct s. Qed.
Lemma closed_states s : in_states (Some s) SETUP_OPEN_STATES = true → s ∉ [Configured; Running; Recovery].
Proof. intros Hs Hin. apply list_elem_of_In in Hin as [<-|[<-|[<-|[]]]]; done. Qed.

(** The order of the routes does not matter, as a request matches at most one;
    every route that changes something needs a session, except the login, the broker test
    and the setup pages; and setup is open only in setup mode, with a state file that can be trusted, never in a
    state past the claim, and on a device that is claimable by its facts only in the states in which
    finishing is still due. *)
Theorem routes_guarded :
  (∀ method path rt name rt' name', _match _build_routes method path = Some (rt, name) →
     rt' ∈ _build_routes → r_method rt' = method → pattern_match (r_pattern rt') path = Some name' → rt' = rt ∧ name' = name) ∧
  (∀ rt, rt ∈ _build_routes → changes (r_method rt) = true →
     r_policy rt = _AUTHENTICATED ∨ again (r_policy rt) ∨ r_handler rt ∈ public_mutations) ∧
  (∀ c e, _setup_available c e = true →
     c_mode c = Setup ∧ _load_persisted_state (e_state_file e) ≠ None ∧
     (∀ s, _load_persisted_state (e_state_file e) = Some (Some s) → s ∉ [Configured; Running; Recovery]) ∧
     (e_claimable e = true → ∃ s, raw_state e (c_injected c) = Some (Some (Some s)) ∧ s ∈ FINISH_WINDOW_STATES)).
Proof.
  split_and!.
  - intros method path rt name rt' name'. apply match_unique, routes_apart.
  - exact guarded_routes.
  - intros c e Ha. unfold _setup_available in Ha. destruct (c_mode c); [|done]. split; [done|].
    unfold raw_state in *. destruct (_load_persisted_state (e_state_file e)) as [[s|]|] eqn:Hl; [| |done].
    + split; [done|]. cbn [in_states] in Ha. split.
      * intros s' [= <-]. apply closed_states. destruct (e_claimable e); [by apply finish_is_open|done].
      * intros Hc. rewrite Hc in Ha. exists s. split; [done|]. by apply bool_decide_eq_true in Ha.
    + split; [done|]. split; [done|]. intros Hc. rewrite Hc in Ha. destruct (c_injected c) as [i|]; [|done].
      destruct (state_of (VStr i)) as [s|]; [|done]. exists s. split; [done|]. by apply bool_decide_eq_true in Ha.
Qed.
