(* ===== verification/Updater.v ===== *)
(** [app/updater.py]: the trust boundary of application updates.  Versions, the signed
    manifest and its classification, the signature check, the inspection of archive
    members, and the extraction as the list of what it does.  [json.loads], [realpath]
    on the device's files, the Unicode check of a host name, the hash of a file and the
    two commands are parameters. *)
From S2P Require Import Prelude PyValue PyText MediaLibrary.

Definition MAX_BUNDLE_SIZE := 256 * 1024 * 1024.
Definition MAX_MEMBER_SIZE := 64 * 1024 * 1024.
Definition MAX_TOTAL_EXTRACTED_SIZE := 512 * 1024 * 1024.
Definition MAX_DECOMPRESSED_SIZE := 640 * 1024 * 1024.
Definition MAX_ARCHIVE_MEMBERS := 100000.
Definition MAX_MANIFEST_BYTES := 64 * 1024.
Definition MAX_VERSION_LENGTH := 64.
Definition MAX_COMMIT_LENGTH := 128.
Definition MAX_SUMMARY_LENGTH := 2000.
Definition MAX_URL_LENGTH := 2048.
Definition MAX_REASON_LENGTH : nat := 200.

Definition size {A} (l : list A) : Z := Z.of_nat (length l).
Definition control_char (c : Z) : bool := in_range 0 31 c || (c =? 127).

(** [_CONTROL_RE.sub(' ', reason).strip()[:200]]: a run of controls is one space. *)
Fixpoint blank_controls (in_run : bool) (s : pystr) : pystr :=
  match s with
  | [] => []
  | c :: s' => if control_char c then (if in_run then blank_controls true s' else 32 :: blank_controls true s')
               else c :: blank_controls false s'
  end.
Definition sanitize (reason : pystr) : pystr := take MAX_REASON_LENGTH (strip (blank_controls false reason)).

(** A pattern that ends in [$] matches a text without its final newline too. *)
Definition match_dollar (shape : pystr → bool) (s : pystr) : option pystr :=
  if shape s then Some s
  else match rev s with 10 :: r => if shape (rev r) then Some (rev r) else None | _ => None end.

(** ** Versions *)

Definition semver_shape (s : pystr) : bool :=
  match split_on 46 s with [a; b; c] => numeric a && numeric b && numeric c | _ => false end.
Definition semver := (Z * Z * Z)%type.

Definition parse_semver `{UnicodeDB} (text : pyval) : res semver :=
  match text with
  | VStr s =>
      if bool_decide (s = []) || (MAX_VERSION_LENGTH <? size s) then Raise ValueError
      else match match_dollar semver_shape s with
           | None => Raise ValueError
           | Some m =>
               match split_on 46 m with
               | [a; b; c] => x ← py_int (VStr a); y ← py_int (VStr b); z ← py_int (VStr c); Ret (x, y, z)
               | _ => Raise ValueError
               end
           end
  | _ => Raise ValueError
  end.

(** The order of tuples. *)
Definition ver_ltb (a b : semver) : bool :=
  let '(a1, a2, a3) := a in
  let '(b1, b2, b3) := b in
  if a1 =? b1 then (if a2 =? b2 then a3 <? b3 else a2 <? b2) else a1 <? b1.

Definition is_newer `{UnicodeDB} (candidate current : pyval) : bool :=
  match parse_semver candidate with
  | Ret a => match parse_semver current with Ret b => ver_ltb b a | Raise _ => false end
  | Raise _ => false
  end.

(** ** The manifest *)

Record Manifest := {
  schema_version : Z; version : pystr; channel : pystr; source_commit : pystr; min_image_version : pystr;
  bundle_url : pystr; bundle_sha256 : pystr; bundle_size : Z; release_summary : pystr; release_url : pystr;
  reboot_required : bool;
}.

(** A validation returns, is refused with a reason ([ManifestError]), or lets another
    exception through. *)
Inductive checked (A : Type) := Valid (a : A) | Refused (reason : pystr) | Escaped (e : exn).
Arguments Valid {A} a.
Arguments Refused {A} reason.
Arguments Escaped {A} e.
#[export] Instance checked_ret : MRet checked := λ A a, Valid a.
#[export] Instance checked_bind : MBind checked := λ A B f m,
  match m with Valid a => f a | Refused r => Refused r | Escaped e => Escaped e end.

Definition has_key (key : pystr) (d : list (pyval * pyval)) : bool := existsb (λ e, eq_str e.1 key) d.
Definition field (key : pystr) (suffix : string) : pystr := u "manifest field " ++ key ++ u suffix.
Definition _require (doc : list (pyval * pyval)) (key : pystr) : checked pyval :=
  if has_key key doc then Valid (get_key key doc) else Refused (field key " is missing").
Definition _require_text (value : pyval) (key : pystr) (max_length : Z) : checked pystr :=
  match value with
  | VStr s =>
      if bool_decide (s = []) || (max_length <? size s) then Refused (field key " is invalid")
      else if existsb control_char s then Refused (field key " is invalid")
      else Valid s
  | _ => Refused (field key " is invalid")
  end.

Section Manifests.
Context `{UnicodeDB} (json_loads : pystr → res pyval) (netloc_ok : pystr → bool).

Definition _require_semver (value : pyval) (key : pystr) : checked pystr :=
  s ← _require_text value key MAX_VERSION_LENGTH;
  match parse_semver (VStr s) with
  | Ret _ => Valid s
  | Raise _ => Refused (field key " is not valid SemVer")
  end.
Definition _require_https_url (value : pyval) (key : pystr) : checked pystr :=
  s ← _require_text value key MAX_URL_LENGTH;
  match urlsplit netloc_ok s with
  | Raise _ => Refused (field key " is invalid")
  | Ret (sch, netloc) =>
      if negb (bool_decide (sch = u "https")) || bool_decide (netloc = []) then Refused (field key " must be https")
      else Valid s
  end.

Definition _decode_manifest (payload : pyval) : checked (list (pyval * pyval)) :=
  let load text :=
    match json_loads text with
    | Ret (VDict d) => Valid d
    | Ret _ => Refused (u "manifest must be a JSON object")
    | Raise (ValueError | TypeError) => Refused (u "manifest is not valid JSON")
    | Raise e => Escaped e
    end in
  match payload with
  | VDict d => Valid d
  | VBytes b =>
      if MAX_MANIFEST_BYTES <? size b then Refused (u "manifest is too large")
      else match utf8_decode b with
           | None => Refused (u "manifest is not valid UTF-8")
           | Some text => load text
           end
  | VStr s => if MAX_MANIFEST_BYTES <? size s then Refused (u "manifest is too large") else load s
  | _ => Refused (u "manifest must be a JSON object")
  end.

Definition SUPPORTED_SCHEMA_VERSIONS : list Z := [1].
Definition CHANNELS : list pystr := [u "stable"; u "alpha"].
Definition hex_char (c : Z) : bool := is_digit c || in_range 97 102 c || in_range 65 70 c.
Definition sha256_shape (s : pystr) : bool := (length s =? 64)%nat && forallb hex_char s.
Definition _is_sha256 (s : pystr) : bool := dollar sha256_shape s.

Definition require_sha256 (v : pyval) : checked pystr :=
  match v with
  | VStr s => if _is_sha256 s then Valid (lower_ascii s) else Refused (u "manifest bundle_sha256 is malformed")
  | _ => Refused (u "manifest bundle_sha256 is malformed")
  end.
Definition require_size (v : pyval) : checked Z :=
  match v with
  | VInt n =>
      if n <=? 0 then Refused (u "manifest bundle_size is invalid")
      else if MAX_BUNDLE_SIZE <? n then Refused (u "manifest bundle_size exceeds the limit")
      else Valid n
  | _ => Refused (u "manifest bundle_size is invalid")
  end.
Definition require_summary (v : pyval) : checked pystr :=
  match v with
  | VStr s =>
      if bool_decide (strip s = []) then Refused (u "manifest release_summary is missing")
      else if MAX_SUMMARY_LENGTH <? size s then Refused (u "manifest release_summary is too long")
      else Valid s
  | _ => Refused (u "manifest release_summary is missing")
  end.
Definition require_schema (v : pyval) : checked Z :=
  match v with
  | VInt n => if bool_decide (n ∈ SUPPORTED_SCHEMA_VERSIONS) then Valid n else Refused (u "manifest schema_version is not supported")
  | _ => Refused (u "manifest schema_version is missing or invalid")
  end.
Definition require_reboot (v : pyval) : checked bool :=
  match v with VBool b => Valid b | _ => Refused (u "manifest reboot_required is not a boolean") end.
Definition require_channel (v : pyval) : checked pystr :=
  match v with
  | VStr s => if bool_decide (s ∈ CHANNELS) then Valid s else Refused (u "manifest channel is not supported")
  | _ => Refused (u "manifest channel is not supported")
  end.

(** The two comparisons at the end of [parse_manifest]. *)
Definition check_current (v : pystr) (current : pystr) : checked unit :=
  if bool_decide (current = []) then Valid tt
  else match parse_semver (VStr current) with
       | Raise _ => Refused (u "installed version is invalid")
       | Ret cur =>
           match parse_semver (VStr v) with
           | Raise e => Escaped e
           | Ret cand =>
               if ver_ltb cand cur then Refused (u "manifest version is a downgrade")
               else if bool_decide (cand = cur) then Refused (u "manifest version is not newer than the installed version")
               else Valid tt
           end
       end.
Definition check_image (m : pystr) (current : pystr) : checked unit :=
  if bool_decide (current = []) then Valid tt
  else match parse_semver (VStr current) with
       | Raise _ => Refused (u "installed image version is invalid")
       | Ret image =>
           match parse_semver (VStr m) with
           | Raise e => Escaped e
           | Ret need => if ver_ltb image need then Refused (u "manifest requires a newer image version") else Valid tt
           end
       end.

Definition parse_manifest (payload : pyval) (current_version current_image_version : pystr) : checked Manifest :=
  doc ← _decode_manifest payload;
  schema ← require_schema (get_key (u "schema_version") doc);
  v ← _require doc (u "version"); v ← _require_semver v (u "version");
  i ← _require doc (u "min_image_version"); i ← _require_semver i (u "min_image_version");
  c ← _require doc (u "channel"); c ← require_channel c;
  sc ← _require doc (u "source_commit"); sc ← _require_text sc (u "source_commit") MAX_COMMIT_LENGTH;
  bu ← _require doc (u "bundle_url"); bu ← _require_https_url bu (u "bundle_url");
  ru ← _require doc (u "release_url"); ru ← _require_https_url ru (u "release_url");
  sha ← _require doc (u "bundle_sha256"); sha ← require_sha256 sha;
  n ← _require doc (u "bundle_size"); n ← require_size n;
  rs ← _require doc (u "release_summary"); rs ← require_summary rs;
  rb ← _require doc (u "reboot_required");
  rb ← require_reboot rb;
  _ ← check_current v current_version;
  _ ← check_image i current_image_version;
  Valid {| schema_version := schema; version := v; channel := c; source_commit := sc; min_image_version := i;
           bundle_url := bu; bundle_sha256 := sha; bundle_size := n; release_summary := rs; release_url := ru;
           reboot_required := rb |}.

Inductive verdict := OUTCOME_AVAILABLE | OUTCOME_UP_TO_DATE | OUTCOME_DOWNGRADE | OUTCOME_INCOMPATIBLE_IMAGE | OUTCOME_INVALID.
Definition classify_manifest (m : Manifest) (current_version current_image_version : pystr) : bool * verdict * pystr :=
  match parse_semver (VStr (version m)), parse_semver (VStr (min_image_version m)) with
  | Ret candidate, Ret min_image =>
      let rest :=
        if bool_decide (current_version = []) then (true, OUTCOME_AVAILABLE, [])
        else match parse_semver (VStr current_version) with
             | Raise _ => (false, OUTCOME_INVALID, u "installed version is invalid")
             | Ret current =>
                 if ver_ltb candidate current then (false, OUTCOME_DOWNGRADE, u "manifest version is a downgrade")
                 else if bool_decide (candidate = current)
                 then (false, OUTCOME_UP_TO_DATE, u "manifest version is not newer than the installed version")
                 else (true, OUTCOME_AVAILABLE, [])
             end in
      if bool_decide (current_image_version = []) then rest
      else match parse_semver (VStr current_image_version) with
           | Raise _ => (false, OUTCOME_INVALID, u "installed image version is invalid")
           | Ret image =>
               if ver_ltb image min_image
               then (false, OUTCOME_INCOMPATIBLE_IMAGE, u "manifest requires a newer image version") else rest
           end
  | _, _ => (false, OUTCOME_INVALID, u "manifest version is invalid")
  end.
End Manifests.

(** ** The signature *)

Section Verify.
(** [os.path.isfile] and the runner: an exit code, or an exception. *)
Context (isfile : pystr → bool) (runner : list pystr → res Z).

Definition _runner_failure (e : exn) (timed_out missing unavailable generic : pystr) : pystr :=
  match e with
  | TimeoutExpired => timed_out
  | FileNotFound => missing
  | OSError => unavailable
  | _ => generic
  end.
Definition minisign_args (path key sig : pystr) : list pystr :=
  [u "minisign"; u "-V"; u "-m"; path; u "-p"; key; u "-x"; sig].
Definition _verify_file (path signature_path public_key_path : pyval) : bool * pystr :=
  match path, public_key_path with
  | VStr ((_ :: _) as path), VStr ((_ :: _) as key) =>
      match (if truthy signature_path then signature_path else VStr (path ++ u ".minisig")) with
      | VStr ((_ :: _) as sig) =>
          if negb (isfile path) then (false, u "file is missing")
          else if negb (isfile sig) then (false, u "signature file is missing")
          else if negb (isfile key) then (false, u "public key is missing")
          else match runner (minisign_args path key sig) with
               | Raise e =>
                   (false, _runner_failure e (u "minisign verification timed out") (u "minisign is not installed")
                             (u "minisign is unavailable") (u "minisign verification failed"))
               | Ret code =>
                   if code =? 0 then (true, [])
                   else (false, sanitize (u "signature verification failed (exit " ++ str_of_int code ++ u ")"))
               end
      | _ => (false, u "signature path is required")
      end
  | VStr (_ :: _), _ => (false, u "public key path is required")
  | _, _ => (false, u "file path is required")
  end.

(** ** The archive *)

(** What [tarfile] says of a member. *)
Record member := {
  mb_name : pyval; mb_isdev : bool; mb_ischr : bool; mb_isblk : bool; mb_isfifo : bool;
  mb_issym : bool; mb_islnk : bool; mb_mode : pyval; mb_uid : pyval; mb_gid : pyval; mb_size : pyval;
  mb_linkname : pyval;
}.
Definition _member_is_device (m : member) : bool := mb_isdev m || mb_ischr m || mb_isblk m || mb_isfifo m.

Definition is_abs (p : pystr) : bool := starts_with [47] p.
Definition slashes (p : pystr) : pystr := map (λ c, if c =? 92 then 47 else c) p.
Definition has_dotdot (p : pystr) : bool := existsb (λ part, bool_decide (part = u "..")) (split_on 47 p).

(** [os.path.join] of a base and a path that is not absolute. *)
Definition path_join (base rel : pystr) : pystr :=
  if bool_decide (base = []) || ends_with [47] base then base ++ rel else base ++ 47 :: rel.
(** [os.path.dirname]. *)
Fixpoint drop_slashes (s : pystr) : pystr :=
  match s with c :: s' => if c =? 47 then drop_slashes s' else s | [] => [] end.
Fixpoint drop_tail (s : pystr) : pystr :=
  match s with c :: s' => if c =? 47 then s else drop_tail s' | [] => [] end.
Definition dirname (p : pystr) : pystr :=
  let head := rev (drop_tail (rev p)) in
  if forallb (Z.eqb 47) head then head else rev (drop_slashes (rev head)).

(** [os.path.commonpath] of two paths: [None] for [ValueError]. *)
Definition components (p : pystr) : list pystr :=
  List.filter (λ c, negb (bool_decide (c = [])) && negb (bool_decide (c = u "."))) (split_on 47 p).
Fixpoint common_prefix (a b : list pystr) : list pystr :=
  match a, b with
  | x :: a', y :: b' => if bool_decide (x = y) then x :: common_prefix a' b' else []
  | _, _ => []
  end.
Fixpoint join_slash (l : list pystr) : pystr :=
  match l with [] => [] | [x] => x | x :: l' => x ++ 47 :: join_slash l' end.
Definition commonpath (a b : pystr) : option pystr :=
  if bool_decide (is_abs a = is_abs b) then
    let common := join_slash (common_prefix (components a) (components b)) in
    Some (if is_abs a then 47 :: common else common)
  else None.

(** [realpath] on the device's file system; [None] when it raises. *)
Context (realpath : pystr → option pystr).

Definition _within (base target : pystr) : bool := bool_decide (commonpath base target = Some base).

(** [None]: an exception. *)
Definition _escapes (base_real : pystr) (name : pystr) : option bool :=
  let normalized := slashes name in
  if bool_decide (name = []) then Some true
  else if is_abs normalized || is_abs name then Some true
  else if has_dotdot normalized then Some true
  else target ← realpath (path_join base_real normalized); Some (negb (_within base_real target)).

Definition _validate_link (m : member) (name dest_real : pystr) : option (bool * pystr) :=
  match mb_linkname m with
  | VStr ((_ :: _) as linkname) =>
      let normalized := slashes linkname in
      if is_abs normalized || is_abs linkname then Some (false, u "archive link target is absolute")
      else if has_dotdot normalized then Some (false, u "archive link target escapes the destination")
      else
        target ← (if mb_islnk m then realpath (path_join dest_real normalized)
                  else mt ← realpath (path_join dest_real name); realpath (path_join (dirname mt) normalized));
        Some (if negb (_within dest_real target) then (false, u "archive link target escapes the destination") else (true, []))
  | _ => Some (false, u "archive link has no target")
  end.

Definition S_ISUID := 2048.
Definition S_ISGID := 1024.
Definition _validate_member (m : member) (dest_real : pystr) : option (bool * pystr * Z) :=
  match mb_name m with
  | VStr ((_ :: _) as name) =>
      esc ← _escapes dest_real name;
      if (esc : bool) then Some (false, u "archive member path escapes the destination", 0)
      else if _member_is_device m then Some (false, u "archive member is a device or fifo", 0)
      else match mb_mode m with
           | VInt mode =>
               if negb (Z.land mode (Z.lor S_ISUID S_ISGID) =? 0) then Some (false, u "archive member has setuid/setgid bits", 0)
               else match mb_uid m, mb_gid m with
                    | VInt uid, VInt gid =>
                        if negb (uid =? 0) || negb (gid =? 0) then Some (false, u "archive member has an unexpected owner", 0)
                        else match mb_size m with
                             | VInt sz =>
                                 if sz <? 0 then Some (false, u "archive member size is invalid", 0)
                                 else if MAX_MEMBER_SIZE <? sz then Some (false, u "archive member exceeds the size limit", 0)
                                 else if mb_issym m || mb_islnk m then
                                   r ← _validate_link m name dest_real;
                                   Some (if (fst r : bool) then (true, [], sz) else (false, snd r, 0))
                                 else Some (true, [], sz)
                             | _ => Some (false, u "archive member size is invalid", 0)
                             end
                    | _, _ => Some (false, u "archive member owner is invalid", 0)
                    end
           | _ => Some (false, u "archive member mode is invalid", 0)
           end
  | _ => Some (false, u "archive member has no name", 0)
  end.

Fixpoint validate_loop (ms : list member) (dest_real : pystr) (count total : Z) : option (bool * pystr) :=
  match ms with
  | [] => Some (true, [])
  | m :: ms =>
      if MAX_ARCHIVE_MEMBERS <? count + 1 then Some (false, u "archive has too many members")
      else
        r ← _validate_member m dest_real;
        let '(ok, reason, sz) := r in
        if negb ok then Some (false, reason)
        else if MAX_TOTAL_EXTRACTED_SIZE <? total + sz then Some (false, u "archive exceeds the total size limit")
        else validate_loop ms dest_real (count + 1) (total + sz)
  end.
Definition _validate_members (ms : list member) (dest : pyval) : option (bool * pystr) :=
  match dest with
  | VStr ((_ :: _) as dest) => dest_real ← realpath dest; validate_loop ms dest_real 0 0
  | _ => Some (false, u "destination is required")
  end.
Definition validate_archive_members (ms : list member) (dest : pyval) : bool * pystr :=
  match _validate_members ms dest with
  | Some r => r
  | None => (false, u "archive member validation failed")
  end.

(** ** Extraction *)

(** What the calls of [_extract_bundle] answer. *)
Record bundle_io := {
  x_sha256 : option pystr;             (* the hash of the archive; None: unreadable *)
  x_archive_size : option Z;           (* getsize of the archive *)
  x_mkdtemp : option pystr;            (* the temporary directory; None: raises *)
  x_tar_size : option Z;               (* getsize of the tar after decompression; None: no such file *)
  x_dest_link : bool; x_dest_exists : bool; x_dest_dir : bool;
  x_members : option (list member);    (* None: not a tar archive *)
  x_makedirs : bool; x_extracts : bool;
}.
Inductive action :=
  | Decompress (args : list pystr)
  | MakeDirs (dest : pystr)
  | ExtractAll (dest : pystr) (ms : list member)
  | RemoveTree (path : pystr).

Definition _decompress (archive tar : pystr) : bool * pystr :=
  match runner [u "zstd"; u "-d"; u "-q"; u "-f"; u "-o"; tar; archive] with
  | Raise e => (false, _runner_failure e (u "zstd decompression timed out") (u "zstd is not installed")
                         (u "zstd is unavailable") (u "zstd decompression failed"))
  | Ret code => if code =? 0 then (true, []) else (false, sanitize (u "zstd decompression failed (exit " ++ str_of_int code ++ u ")"))
  end.

(** The part inside [tarfile.open]. *)
Definition unpack (io : bundle_io) (dest : pystr) : (bool * pystr) * list action :=
  let created := negb (x_dest_exists io) in
  let crash acts := ((false, u "bundle archive could not be extracted"), acts ++ (if created then [RemoveTree dest] else [])) in
  match x_members io with
  | None => crash []
  | Some ms =>
      if MAX_ARCHIVE_MEMBERS <? size ms then ((false, u "bundle has too many members"), [])
      else
        let '(ok, reason) := validate_archive_members ms (VStr dest) in
        if negb ok then ((false, reason), [])
        else if negb (x_makedirs io) then crash []
        else if negb (x_extracts io) then crash [MakeDirs dest; ExtractAll dest ms]
        else ((true, []), [MakeDirs dest; ExtractAll dest ms])
  end.
(** With the temporary directory there; it is removed at the end in any case. *)
Definition extract_in (io : bundle_io) (tmp archive dest : pystr) : (bool * pystr) * list action :=
  let tar := path_join tmp (u "bundle.tar") in
  let '(ok, reason) := _decompress archive tar in
  let '(r, acts) :=
    if negb ok then ((false, reason), [])
    else match x_tar_size io with
         | None => ((false, u "bundle decompression produced no archive"), [])
         | Some n =>
             if MAX_DECOMPRESSED_SIZE <? n then ((false, u "bundle is too large to extract"), [])
             else if x_dest_link io then ((false, u "destination must not be a symlink"), [])
             else if x_dest_exists io && negb (x_dest_dir io) then ((false, u "destination is not a directory"), [])
             else unpack io dest
         end in
  (r, Decompress [u "zstd"; u "-d"; u "-q"; u "-f"; u "-o"; tar; archive] :: acts ++ [RemoveTree tmp]).
Definition extract_bundle (io : bundle_io) (archive dest : pyval) (expected : option pyval) : (bool * pystr) * list action :=
  match archive, dest with
  | VStr ((_ :: _) as archive), VStr ((_ :: _) as dest) =>
      if negb (isfile archive) then ((false, u "bundle file is missing"), [])
      else
        let hash_ok :=
          match expected with
          | None => None
          | Some (VStr s) =>
              if negb (_is_sha256 s) then Some (u "bundle sha256 is malformed")
              else match x_sha256 io with
                   | None => Some (u "bundle could not be read")
                   | Some actual => if bool_decide (actual = lower_ascii s) then None else Some (u "bundle sha256 mismatch")
                   end
          | Some _ => Some (u "bundle sha256 is malformed")
          end in
        match hash_ok, x_archive_size io with
        | Some reason, _ => ((false, reason), [])
        | None, None => ((false, u "bundle could not be read"), [])
        | None, Some n =>
            if MAX_BUNDLE_SIZE <? n then ((false, u "bundle exceeds the size limit"), [])
            else match x_mkdtemp io with
                 | None => ((false, u "bundle extraction failed"), [])
                 | Some tmp => extract_in io tmp archive dest
                 end
        end
  | VStr (_ :: _), _ => ((false, u "destination is required"), [])
  | _, _ => ((false, u "bundle path is required"), [])
  end.
End Verify.

(** ** Paths *)

(** A path component as [realpath] yields it. *)
Definition clean (c : pystr) : Prop := c ≠ [] ∧ c ≠ u "." ∧ Forall (λ x, x ≠ 47) c.
(** [realpath] returns absolute, normalised paths. *)
Class RealpathOk (realpath : pystr → option pystr) : Prop := {
  realpath_shape p t : realpath p = Some t → ∃ l, t = 47 :: join_slash l ∧ Forall clean l;
}.

Lemma split_join l : Forall clean l → l ≠ [] → split_on 47 (join_slash l) = l.
Proof.
  intros Hl. induction Hl as [|x l Hx Hl IH]; [done|]. intros _. cbn [join_slash].
  destruct l as [|y l]; [apply split_on_none, Hx|]. rewrite split_on_app by apply Hx. by rewrite IH.
Qed.
Lemma components_join l : Forall clean l → components (47 :: join_slash l) = l.
Proof.
  intros Hl. unfold components. cbn [split_on Z.eqb Pos.eqb]. cbn [List.filter]. rewrite bool_decide_true by done. cbn [negb andb].
  destruct l as [|x l]; [done|]. rewrite split_join by done.
  assert (∀ k, Forall clean k → List.filter (λ c, negb (bool_decide (c = [])) && negb (bool_decide (c = u "."))) k = k) as Hf.
  { induction 1 as [|c k (H1 & H2 & _) _ IH]; [done|]. cbn [List.filter].
    by rewrite !bool_decide_false, IH. }
  by apply Hf.
Qed.
Lemma common_prefix_all a b : common_prefix a b = a ↔ a `prefix_of` b.
Proof.
  revert b. induction a as [|x a IH]; intros b; cbn; [split; [intros _; apply prefix_nil|done]|].
  destruct b as [|y b]; [split; [done|by intros ?%prefix_nil_inv]|]. case_bool_decide as Hxy.
  - subst. split; [intros [= Hc]; by apply prefix_cons, IH|]. intros Hp%prefix_cons_inv_2. f_equal. by apply IH.
  - split; [done|]. by intros ?%prefix_cons_inv_1.
Qed.
Lemma common_prefix_prefix a b : common_prefix a b `prefix_of` a.
Proof.
  revert b. induction a as [|x a IH]; intros [|y b]; cbn; try apply prefix_nil. case_bool_decide; [by apply prefix_cons|apply prefix_nil].
Qed.
(** [_within] compares components: [/opt/app2] is not within [/opt/app]. *)
Lemma within_iff bs ts :
  Forall clean bs → Forall clean ts →
  _within (47 :: join_slash bs) (47 :: join_slash ts) = true ↔ bs `prefix_of` ts.
Proof.
  intros Hb Ht. unfold _within. rewrite bool_decide_eq_true. unfold commonpath. cbn [is_abs starts_with Z.eqb Pos.eqb andb].
  rewrite bool_decide_true by done. rewrite !components_join by done. rewrite <-common_prefix_all. split; [|by intros ->].
  intros [= Hj]. destruct (common_prefix_prefix bs ts) as [k Hk].
  assert (Forall clean (common_prefix bs ts)) as Hc by (rewrite Hk, Forall_app in Hb; apply Hb).
  rewrite <-(components_join _ Hc), Hj. by apply components_join.
Qed.

(** ** What an accepted archive holds *)

Section Archive.
Context (realpath : pystr → option pystr).

(** A relative path without [..] that the file system resolves below the destination. *)
Definition plain_path (p : pystr) : Prop := p ≠ [] ∧ is_abs (slashes p) = false ∧ is_abs p = false ∧ has_dotdot (slashes p) = false.
Definition lands_in (base at_ rel : pystr) : Prop := ∃ t, realpath (path_join at_ rel) = Some t ∧ _within base t = true.

Record member_safe (base : pystr) (m : member) (sz : Z) : Prop := {
  safe_name : ∃ name, mb_name m = VStr name ∧ plain_path name ∧ lands_in base base (slashes name) ∧
    (mb_issym m = true ∨ mb_islnk m = true →
      ∃ link, mb_linkname m = VStr link ∧ plain_path link ∧
        if mb_islnk m then lands_in base base (slashes link)
        else ∃ mt, realpath (path_join base name) = Some mt ∧ lands_in base (dirname mt) (slashes link));
  safe_kind : mb_isdev m = false ∧ mb_ischr m = false ∧ mb_isblk m = false ∧ mb_isfifo m = false;
  safe_mode : ∃ mode, mb_mode m = VInt mode ∧ Z.land mode (Z.lor S_ISUID S_ISGID) = 0;
  safe_owner : mb_uid m = VInt 0 ∧ mb_gid m = VInt 0;
  safe_size : mb_size m = VInt sz ∧ 0 ≤ sz ≤ MAX_MEMBER_SIZE;
}.

Lemma escapes_false base name :
  _escapes realpath base name = Some false ↔ plain_path name ∧ lands_in base base (slashes name).
Proof.
  unfold _escapes, plain_path, lands_in. case_bool_decide as Hn; [split; [by intros [= ]|by intros [(? & _) _]]|].
  destruct (is_abs (slashes name)), (is_abs name); cbn [orb]; try (split; [by intros [= ]|by intros [(_ & ? & ? & _) _]]).
  destruct (has_dotdot (slashes name)); [split; [by intros [= ]|by intros [(_ & _ & _ & ?) _]]|].
  destruct (realpath _) as [t|]; cbn; [|split; [by intros [= ]|by intros [_ (t & [= ] & _)]]].
  destruct (_within base t) eqn:Hw; cbn; split; [eauto 10|done|by intros [= ]|intros [_ (t' & [= <-] & ?)]; congruence].
Qed.
Lemma validate_link_true m name base :
  (∃ r, _validate_link realpath m name base = Some (true, r)) ↔
  ∃ link, mb_linkname m = VStr link ∧ plain_path link ∧
    if mb_islnk m then lands_in base base (slashes link)
    else ∃ mt, realpath (path_join base name) = Some mt ∧ lands_in base (dirname mt) (slashes link).
Proof.
  unfold _validate_link, plain_path, lands_in.
  destruct (mb_linkname m) as [| | | |link| | |];
    try (split; [by intros (r & [= ])|by intros (? & [= ] & _)]).
  destruct link as [|c link]; [split; [by intros (r & [= ])|by intros (l & [= <-] & (? & _) & _)]|].
  set (n := c :: link). assert (n ≠ []) as Hn by done. clearbody n. clear c link.
  assert (∀ P : pystr → Prop, (∃ l, VStr n = VStr l ∧ P l) ↔ P n) as He by (intros P; split; [by intros (l & [= <-] & ?)|eauto]).
  rewrite He. destruct (is_abs (slashes n)), (is_abs n); cbn [orb]; try (split; [by intros (r & [= ])|by intros ((_ & ? & ? & _) & _)]).
  destruct (has_dotdot (slashes n)); [split; [by intros (r & [= ])|by intros ((_ & _ & _ & ?) & _)]|].
  assert (∀ o : option pystr,
    (∃ r, (t ← o; Some (if negb (_within base t) then (false, u "archive link target escapes the destination") else (true, [])))
          = Some (true, r)) ↔ ∃ t, o = Some t ∧ _within base t = true) as Hend.
  { intros [t|]; cbn; [|split; [by intros (r & [= ])|by intros (t & [= ] & _)]].
    destruct (_within base t) eqn:Hw; cbn; split; [intros _; eauto|eauto|by intros (r & [= ])|by intros (t' & [= <-] & ?); congruence]. }
  rewrite Hend. destruct (mb_islnk m); [naive_solver|].
  destruct (realpath (path_join base name)) as [mt|]; cbn; naive_solver.
Qed.

Lemma validate_member_true base m sz :
  (∃ r, _validate_member realpath m base = Some (true, r, sz)) ↔ member_safe base m sz.
Proof.
  unfold _validate_member. split.
  - intros (r & Hv). destruct (mb_name m) as [| | | |[|c name]| | |] eqn:Hname; try done. set (n := c :: name) in *.
    destruct (_escapes realpath base n) as [[]|] eqn:He; [done| |done]. apply escapes_false in He as [Hp Hl]. cbn in Hv.
    destruct (_member_is_device m) eqn:Hdev; [done|]. unfold _member_is_device in Hdev. rewrite !orb_false_iff in Hdev.
    destruct (mb_mode m) as [| |mode| | | | |] eqn:Hmode; try done. destruct (Z.eqb_spec (Z.land mode (Z.lor S_ISUID S_ISGID)) 0); [|done].
    cbn [negb] in Hv. destruct (mb_uid m) as [| |uid| | | | |] eqn:Hu; try done. destruct (mb_gid m) as [| |gid| | | | |] eqn:Hg; try done.
    destruct (Z.eqb_spec uid 0) as [->|]; [|done]. destruct (Z.eqb_spec gid 0) as [->|]; [|done]. cbn [negb orb] in Hv.
    destruct (mb_size m) as [| |s| | | | |] eqn:Hs; try done. destruct (Z.ltb_spec s 0); [done|].
    destruct (Z.ltb_spec MAX_MEMBER_SIZE s); [done|].
    assert (s = sz ∧ (mb_issym m = true ∨ mb_islnk m = true → ∃ r, _validate_link realpath m n base = Some (true, r))) as [-> Hlink].
    { destruct (mb_issym m || mb_islnk m) eqn:Hk; [|injection Hv as <- <-; split; [done|]; apply orb_false_iff in Hk as [-> ->]; by intros [?|?]].
      destruct (_validate_link realpath m n base) as [[[] lr]|]; cbn in Hv; [|done|done]. injection Hv as <- <-. eauto. }
    split; [|by destruct Hdev as [[[? ?] ?] ?]|eauto|by split|by split; [|lia]].
    exists n. split_and!; [done|done|done|]. intros Hk. by apply validate_link_true, Hlink.
  - intros [(n & Hname & Hp & Hl & Hlink) (Hd1 & Hd2 & Hd3 & Hd4) (mode & Hmode & Hland) [Hu Hg] [Hs Hrange]].
    rewrite Hname. destruct n as [|c n0]; [by destruct Hp|]. set (n := c :: n0) in *.
    rewrite (proj2 (escapes_false base n)) by done. cbn [mbind option_bind]. unfold _member_is_device. rewrite Hd1, Hd2, Hd3, Hd4, Hmode, Hland.
    cbn [orb Z.eqb negb]. rewrite Hu, Hg, Hs. cbn [Z.eqb negb orb].
    rewrite (proj2 (Z.ltb_ge sz 0)), (proj2 (Z.ltb_ge MAX_MEMBER_SIZE sz)) by lia.
    destruct (mb_issym m || mb_islnk m) eqn:Hk; [|eauto]. apply orb_true_iff in Hk.
    destruct (proj2 (validate_link_true m n base) (Hlink Hk)) as [r Hr]. rewrite Hr. cbn. eauto.
Qed.

Lemma member_safe_size base m sz sz' : member_safe base m sz → member_safe base m sz' → sz = sz'.
Proof. intros [_ _ _ _ [H1 _]] [_ _ _ _ [H2 _]]. congruence. Qed.

Lemma safe_sizes base ms szs : Forall2 (member_safe base) ms szs → 0 ≤ foldr Z.add 0 szs.
Proof. induction 1 as [|m s l l' [_ _ _ _ [_ ?]] _ IH]; cbn [fold_right]; lia. Qed.
(** The loop accepts a list of safe members within the two limits. *)
Lemma validate_loop_true base ms count total :
  total ≤ MAX_TOTAL_EXTRACTED_SIZE →
  (∃ r, validate_loop realpath ms base count total = Some (true, r)) ↔
  ∃ szs, Forall2 (member_safe base) ms szs ∧ total + foldr Z.add 0 szs ≤ MAX_TOTAL_EXTRACTED_SIZE ∧
         (ms ≠ [] → count + size ms ≤ MAX_ARCHIVE_MEMBERS).
Proof.
  revert count total. induction ms as [|m ms IH]; intros count total Ht; cbn [validate_loop].
  { split; [intros _; exists []; split_and!; [constructor|cbn [fold_right]; lia|done]|eauto]. }
  assert (size (m :: ms) = 1 + size ms) as Hsz by (unfold size; cbn [length]; lia). assert (0 ≤ size ms) as Hsz0 by (unfold size; lia).
  destruct (Z.ltb_spec MAX_ARCHIVE_MEMBERS (count + 1)).
  { split; [by intros (r & [= ])|]. intros (szs & _ & _ & Hc). specialize (Hc ltac:(done)). lia. }
  pose proof (validate_member_true base m) as Hm. destruct (_validate_member realpath m base) as [[[ok reason] sz]|]; cbn [mbind option_bind].
  2:{ split; [by intros (r & [= ])|]. intros (szs & Hf & _). inversion Hf as [|? s ? ? Hs]; subst. by apply Hm in Hs as [r Hr]. }
  destruct ok; cbn [negb].
  2:{ split; [by intros (r & [= ])|]. intros (szs & Hf & _). inversion Hf as [|? s ? ? Hs]; subst. by apply Hm in Hs as [r Hr]. }
  assert (member_safe base m sz) as Hsafe by (apply Hm; eauto).
  destruct (Z.ltb_spec MAX_TOTAL_EXTRACTED_SIZE (total + sz)).
  { split; [by intros (r & [= ])|]. intros (szs & Hf & Hle & _). inversion Hf as [|? s ? l' Hs Hf']; subst.
    apply safe_sizes in Hf'. rewrite (member_safe_size _ _ _ _ Hs Hsafe) in Hle. cbn [fold_right] in Hle. lia. }
  rewrite IH by done. split.
  - intros (szs & Hf & Hle & Hc). exists (sz :: szs). split_and!; [by constructor|cbn [fold_right]; lia|]. intros _.
    destruct ms; [unfold size; simpl; lia|]. specialize (Hc ltac:(done)). lia.
  - intros (szs & Hf & Hle & Hc). inversion Hf as [|? s ? l' Hs Hf']; subst. rewrite (member_safe_size _ _ _ _ Hs Hsafe) in Hle.
    exists l'. split_and!; [done|cbn [fold_right] in Hle; lia|]. intros _. specialize (Hc ltac:(done)). lia.
Qed.

Lemma validate_archive_iff ms dest base :
  dest ≠ [] → realpath dest = Some base →
  (validate_archive_members realpath ms (VStr dest)).1 = true ↔
  ∃ szs, Forall2 (member_safe base) ms szs ∧ foldr Z.add 0 szs ≤ MAX_TOTAL_EXTRACTED_SIZE ∧ size ms ≤ MAX_ARCHIVE_MEMBERS.
Proof.
  intros Hd Hr. unfold validate_archive_members, _validate_members. destruct dest as [|c d]; [done|]. rewrite Hr. cbn [mbind option_bind].
  transitivity (∃ r, validate_loop realpath ms base 0 0 = Some (true, r)).
  - destruct (validate_loop realpath ms base 0 0) as [[[] r]|]; simpl; (split; [intros ?; try done; eauto|by intros (r' & [= ])]).
  - rewrite validate_loop_true by done. split; intros (szs & Hf & Hle & Hc); exists szs; split_and!; try done.
    destruct ms; [done|]. by apply Hc.
Qed.
End Archive.

(** C5: an archive is accepted exactly when it has at most [MAX_ARCHIVE_MEMBERS] members
    of at most [MAX_TOTAL_EXTRACTED_SIZE] bytes in all, and each of them is safe: a relative name without [..], no
    device, no setuid or setgid bit, owned by root, within the size limit, and a link only
    to a relative target without [..]; and names and link targets resolve to paths whose
    components extend those of the destination. *)
Theorem archive_accepted_iff_safe realpath `{!RealpathOk realpath} ms dest base :
  dest ≠ [] → realpath dest = Some base →
  ((validate_archive_members realpath ms (VStr dest)).1 = true ↔
   ∃ szs, Forall2 (member_safe realpath base) ms szs ∧ foldr Z.add 0 szs ≤ MAX_TOTAL_EXTRACTED_SIZE ∧
          size ms ≤ MAX_ARCHIVE_MEMBERS) ∧
  (∀ at_ rel, lands_in realpath base at_ rel →
     ∃ t, realpath (path_join at_ rel) = Some t ∧ components base `prefix_of` components t).
Proof.
  intros Hd Hr. split; [by apply validate_archive_iff|]. intros at_ rel (t & Ht & Hw). exists t. split; [done|].
  destruct (realpath_shape _ _ Hr) as (bs & -> & Hbs). destruct (realpath_shape _ _ Ht) as (ts & -> & Hts).
  rewrite !components_join by done. by apply within_iff.
Qed.
(** A file system without links: paths are normalised. *)
Fixpoint resolve (stack : list pystr) (parts : list pystr) : list pystr :=
  match parts with
  | [] => rev stack
  | p :: parts =>
      if bool_decide (p = []) || bool_decide (p = u ".") then resolve stack parts
      else if bool_decide (p = u "..") then resolve (tail stack) parts
      else resolve (p :: stack) parts
  end.
Definition plain_realpath (p : pystr) : option pystr := Some (47 :: join_slash (resolve [] (split_on 47 p))).
Lemma split_no_sep sep s : Forall (Forall (λ x, x ≠ sep)) (split_on sep s).
Proof.
  induction s as [|c s IH]; cbn [split_on]; [by repeat constructor|]. destruct (Z.eqb_spec c sep); [by constructor|].
  destruct (split_on sep s) as [|cur rest]; [by repeat constructor|]. apply Forall_cons in IH as [Hc Hr]. by repeat constructor.
Qed.
Lemma resolve_clean stack l :
  Forall clean stack → Forall (Forall (λ x, x ≠ 47)) l → Forall clean (resolve stack l).
Proof.
  revert stack. induction l as [|q l IH]; intros stack Hst Hs; cbn [resolve]; [by apply Forall_rev|].
  apply Forall_cons in Hs as [Hq Hl]. repeat case_bool_decide; cbn [orb]; try (apply IH; done).
  - apply IH; [|done]. destruct stack; [constructor|]. by apply Forall_cons in Hst as [_ ?].
  - apply IH; [|done]. by constructor.
Qed.
#[export] Instance plain_realpath_ok : RealpathOk plain_realpath.
Proof.
  split. intros p t [= <-]. eexists. split; [done|]. apply resolve_clean; [constructor|apply split_no_sep].
Qed.

Definition demo_member (name : string) : member :=
  {| mb_name := VStr (u name); mb_isdev := false; mb_ischr := false; mb_isblk := false; mb_isfifo := false;
     mb_issym := false; mb_islnk := false; mb_mode := VInt 420; mb_uid := VInt 0; mb_gid := VInt 0; mb_size := VInt 10;
     mb_linkname := VStr [] |}.
Lemma archive_accepted_iff_safe_witness :
  ∃ szs, Forall2 (member_safe plain_realpath (u "/opt/stage")) [demo_member "app/main.py"; demo_member "app/x.py"] szs.
Proof.
  destruct (archive_accepted_iff_safe plain_realpath [demo_member "app/main.py"; demo_member "app/x.py"]
              (u "/opt/stage") (u "/opt/stage") ltac:(done) ltac:(by vm_compute)) as [[Hok _] _].
  destruct Hok as (szs & Hf & _); [by vm_compute|]. by exists szs.
Defined.

(** ** Extraction follows the checks *)

Section Extract.
Context (isfile : pystr → bool) (runner : list pystr → res Z) (realpath : pystr → option pystr).

Lemma unpack_spec io dest :
  let '(r, acts) := unpack realpath io dest in
  (∀ d ms, ExtractAll d ms ∈ acts →
     d = dest ∧ x_members io = Some ms ∧ size ms ≤ MAX_ARCHIVE_MEMBERS ∧
     (validate_archive_members realpath ms (VStr dest)).1 = true ∧
     (r.1 = false → x_dest_exists io = false → last acts = Some (RemoveTree dest))) ∧
  (r.1 = true → ∃ ms, acts = [MakeDirs dest; ExtractAll dest ms]) ∧ (∀ args, Decompress args ∉ acts).
Proof.
  unfold unpack. set (extra := if negb (x_dest_exists io) then [RemoveTree dest] else []).
  assert (∀ a, a ∈ extra → a = RemoveTree dest) as Hx by (intros a; unfold extra; case_match; [by intros ?%list_elem_of_singleton|by intros ?%not_elem_of_nil]).
  destruct (x_members io) as [ms|]; [|split_and!; [by intros ?? ?%Hx|done|by intros ? ?%Hx]].
  destruct (Z.ltb_spec MAX_ARCHIVE_MEMBERS (size ms)); [split_and!; [by intros ?? ?%not_elem_of_nil|done|by intros ? ?%not_elem_of_nil]|].
  destruct (validate_archive_members realpath ms (VStr dest)) as [[] reason] eqn:Hv; cbn [negb];
    [|split_and!; [by intros ?? ?%not_elem_of_nil|done|by intros ? ?%not_elem_of_nil]].
  destruct (x_makedirs io); cbn [negb]; [|split_and!; [by intros ?? ?%Hx|done|by intros ? ?%Hx]].
  assert (∀ a more, a ∈ [MakeDirs dest; ExtractAll dest ms] ++ more → a ∈ more ∨ a = MakeDirs dest ∨ a = ExtractAll dest ms) as Hin.
  { intros a more [Ha|?]%elem_of_app; [|by left]. apply list_elem_of_In in Ha as [<-|[<-|[]]]; auto. }
  destruct (x_extracts io); cbn [negb fst].
  - rewrite <-(app_nil_r [MakeDirs dest; ExtractAll dest ms]). split_and!.
    + intros d ms' [?%not_elem_of_nil|[?|[= -> ->]]]%Hin; [done|done|]. by rewrite Hv.
    + by eexists.
    + by intros args [?%not_elem_of_nil|[?|?]]%Hin.
  - split_and!; [|done|].
    + intros d ms' [?%Hx|[?|[= -> ->]]]%Hin; [done|done|]. rewrite Hv. split_and!; try done.
      unfold extra. intros _ ->. done.
    + by intros args [?%Hx|[?|?]]%Hin.
Qed.

Lemma extract_in_spec io tmp archive dest :
  let '(r, acts) := extract_in runner realpath io tmp archive dest in
  (∀ d ms, ExtractAll d ms ∈ acts →
     d = dest ∧ x_members io = Some ms ∧ (validate_archive_members realpath ms (VStr dest)).1 = true ∧
     (∃ n, x_tar_size io = Some n ∧ n ≤ MAX_DECOMPRESSED_SIZE) ∧ x_dest_link io = false ∧
     (r.1 = false → x_dest_exists io = false → RemoveTree dest ∈ acts)) ∧
  (r.1 = true → ∃ ms, ExtractAll dest ms ∈ acts) ∧ last acts = Some (RemoveTree tmp).
Proof.
  unfold extract_in. set (dec := Decompress _).
  assert (∀ d ms, ExtractAll d ms ∈ dec :: [] ++ [RemoveTree tmp] → False) as Hno.
  { intros d ms Hin. apply list_elem_of_In in Hin as [?|[?|[]]]; done. }
  destruct (_decompress runner archive _) as [[] reason]; cbn [negb]; [|by split_and!; [intros ?? ?%Hno|..]].
  destruct (x_tar_size io) as [n|]; [|by split_and!; [intros ?? ?%Hno|..]].
  destruct (Z.ltb_spec MAX_DECOMPRESSED_SIZE n); [by split_and!; [intros ?? ?%Hno|..]|].
  destruct (x_dest_link io); [by split_and!; [intros ?? ?%Hno|..]|].
  destruct (x_dest_exists io && negb (x_dest_dir io)); [by split_and!; [intros ?? ?%Hno|..]|].
  pose proof (unpack_spec io dest) as Hu. destruct (unpack realpath io dest) as [r acts]. destruct Hu as (He & Hok & _). split_and!.
  - intros d ms [?|[Hin|?%list_elem_of_singleton]%elem_of_app]%elem_of_cons; [done| |done].
    destruct (He d ms Hin) as (-> & Hm & _ & Hv & Hrm). split_and!; try done; [eauto|].
    intros Hf Hx. apply elem_of_cons. right. apply elem_of_app. left. apply last_Some_elem_of, Hrm; done.
  - intros Hr. destruct (Hok Hr) as [ms ->]. exists ms. right. right. left.
  - rewrite app_comm_cons. apply last_snoc.
Qed.
End Extract.

Lemma extract_bundle_spec isfile runner realpath io archive dest expected :
  let '(r, acts) := extract_bundle isfile runner realpath io archive dest expected in
  (∀ d ms, ExtractAll d ms ∈ acts →
     dest = VStr d ∧ x_members io = Some ms ∧ (validate_archive_members realpath ms dest).1 = true ∧
     (∀ v, expected = Some v → ∃ h, v = VStr h ∧ _is_sha256 h = true ∧ x_sha256 io = Some (lower_ascii h)) ∧
     (∃ n, x_archive_size io = Some n ∧ n ≤ MAX_BUNDLE_SIZE) ∧
     (∃ n, x_tar_size io = Some n ∧ n ≤ MAX_DECOMPRESSED_SIZE) ∧ x_dest_link io = false ∧
     (r.1 = false → x_dest_exists io = false → RemoveTree d ∈ acts)) ∧
  (r.1 = true → ∃ d ms, ExtractAll d ms ∈ acts) ∧
  (acts ≠ [] → ∃ tmp, x_mkdtemp io = Some tmp ∧ last acts = Some (RemoveTree tmp)).
Proof.
  assert (∀ d ms, ExtractAll d ms ∈ [] → False) as Hno by (by intros d ms ?%not_elem_of_nil).
  unfold extract_bundle. destruct archive as [| | | |[|c ar]| | |]; try by split_and!; [intros ?? ?%Hno|..].
  destruct dest as [| | | |[|c' ds]| | |]; try by split_and!; [intros ?? ?%Hno|..].
  set (a := c :: ar). set (d := c' :: ds). destruct (negb (isfile a)); [by split_and!; [intros ?? ?%Hno|..]|].
  set (hash_ok := match expected with None => None | Some _ => _ end).
  destruct hash_ok as [reason|] eqn:Hh; [by split_and!; [intros ?? ?%Hno|..]|]. subst hash_ok.
  destruct (x_archive_size io) as [n|]; [|by split_and!; [intros ?? ?%Hno|..]].
  destruct (Z.ltb_spec MAX_BUNDLE_SIZE n); [by split_and!; [intros ?? ?%Hno|..]|].
  destruct (x_mkdtemp io) as [tmp|]; [|by split_and!; [intros ?? ?%Hno|..]].
  pose proof (extract_in_spec runner realpath io tmp a d) as He.
  destruct (extract_in runner realpath io tmp a d) as [r acts]. destruct He as (He & Hok & Hlast). split_and!.
  - intros d' ms Hin. destruct (He d' ms Hin) as (-> & Hm & Hv & Htar & Hl & Hrm). split_and!; try done; [|eauto].
    intros v ->. destruct v as [| | | |h| | |]; try done. destruct (_is_sha256 h) eqn:Hs; [|done]. cbn [negb] in Hh.
    destruct (x_sha256 io) as [actual|]; [|done]. case_bool_decide; [|done]. subst. eauto.
  - intros Hr. destruct (Hok Hr) as [ms ?]. eauto.
  - eauto.
Qed.

(** Nothing is extracted unless the archive had the expected hash, was within the
    limits before and after decompression, the destination was no symbolic link, and every
    member passed the inspection; a success means the members were extracted; what an
    extraction that failed had created is removed; and whenever the archive was
    decompressed, the last thing done is to remove the temporary directory. *)
Theorem extract_after_checks isfile runner realpath io archive dest expected :
  let '(r, acts) := extract_bundle isfile runner realpath io archive dest expected in
  (∀ d ms, ExtractAll d ms ∈ acts →
     dest = VStr d ∧ x_members io = Some ms ∧ (validate_archive_members realpath ms dest).1 = true ∧
     (∀ v, expected = Some v → ∃ h, v = VStr h ∧ _is_sha256 h = true ∧ x_sha256 io = Some (lower_ascii h)) ∧
     (∃ n, x_archive_size io = Some n ∧ n ≤ MAX_BUNDLE_SIZE) ∧
     (∃ n, x_tar_size io = Some n ∧ n ≤ MAX_DECOMPRESSED_SIZE) ∧ x_dest_link io = false ∧
     (r.1 = false → x_dest_exists io = false → RemoveTree d ∈ acts)) ∧
  (r.1 = true → ∃ d ms, ExtractAll d ms ∈ acts) ∧
  (acts ≠ [] → ∃ tmp, x_mkdtemp io = Some tmp ∧ last acts = Some (RemoveTree tmp)).
Proof. apply extract_bundle_spec. Qed.

(** ** Versions are read back *)

Definition print_semver (v : semver) : pystr :=
  let '(a, b, c) := v in str_of_int a ++ 46 :: str_of_int b ++ 46 :: str_of_int c.

Lemma split_concat sep s : ∃ x l, split_on sep s = x :: l ∧ s = x ++ concat (map (cons sep) l).
Proof.
  induction s as [|c s (x & l & He & IH)]; cbn [split_on]; [by exists [], []|].
  destruct (Z.eqb_spec c sep) as [->|].
  - exists [], (split_on sep s). split; [done|]. rewrite He. cbn. by rewrite <-IH.
  - rewrite He. exists (c :: x), l. split; [done|]. cbn. by rewrite <-IH.
Qed.
Lemma numeric_no_dot s : numeric s = true → Forall (λ c, c ≠ 46) s.
Proof. intros [_ Hf]%numeric_digits. eapply Forall_impl; [exact Hf|]. cbn. intros c Hc%in_range_spec. lia. Qed.
Lemma split_three a b c :
  Forall (λ x, x ≠ 46) a → Forall (λ x, x ≠ 46) b → Forall (λ x, x ≠ 46) c →
  split_on 46 (a ++ 46 :: b ++ 46 :: c) = [a; b; c].
Proof. intros Ha Hb Hc. by rewrite split_on_app, split_on_app, split_on_none. Qed.
Lemma semver_shape_iff s :
  semver_shape s = true ↔
  ∃ a b c, s = a ++ 46 :: b ++ 46 :: c ∧ numeric a = true ∧ numeric b = true ∧ numeric c = true.
Proof.
  unfold semver_shape. split.
  - destruct (split_concat 46 s) as (x & l & He & Hs). rewrite He. destruct l as [|y [|z [|]]]; try done.
    intros [[Ha Hb]%andb_true_iff Hc]%andb_true_iff. exists x, y, z. split_and!; try done.
    rewrite Hs. cbn. by rewrite app_nil_r.
  - intros (a & b & c & -> & Ha & Hb & Hc). rewrite split_three by by apply numeric_no_dot. by rewrite Ha, Hb, Hc.
Qed.
Lemma match_dollar_iff shape s m :
  match_dollar shape s = Some m ↔ shape m = true ∧ (s = m ∨ s = m ++ [10] ∧ shape s = false).
Proof.
  unfold match_dollar. split.
  - destruct (shape s) eqn:Hs; [intros [= <-]; by split; [|left]|].
    destruct (rev s) as [|c r] eqn:Hr; [done|]. destruct (decide (c = 10)) as [->|Hc].
    + case_match eqn:Hm; [|done]. intros [= <-]. split; [done|right]. split; [|done].
      rewrite <-(rev_involutive s), Hr. done.
    + intros Hm. repeat (case_match; try done).
  - intros [Hm [->|[-> Hs]]]; [by rewrite Hm|]. rewrite Hs, rev_app_distr. cbn. rewrite rev_involutive. by rewrite Hm.
Qed.

Section Semver.
Context `{UnicodeDB}.

Lemma py_int_numeric s : numeric s = true → size s ≤ 64 → py_int (VStr s) = Ret (decimal s).
Proof.
  intros [Hne Hf]%numeric_digits Hsz. cbn [py_int]. rewrite int_of_digits; [done|done|done|].
  unfold size in Hsz. lia.
Qed.
(** The text of three numbers, perhaps with a newline at its end. *)
Definition semver_text (s a b c : pystr) : Prop := s = a ++ 46 :: b ++ 46 :: c ∨ s = (a ++ 46 :: b ++ 46 :: c) ++ [10].
Lemma semver_text_size s a b c : semver_text s a b c → size a ≤ size s ∧ size b ≤ size s ∧ size c ≤ size s.
Proof. unfold size. intros [->| ->]; rewrite !length_app; cbn [length]; rewrite !length_app; cbn [length]; lia. Qed.
Lemma parse_semver_text s a b c :
  numeric a = true → numeric b = true → numeric c = true → size s ≤ MAX_VERSION_LENGTH → semver_text s a b c →
  parse_semver (VStr s) = Ret (decimal a, decimal b, decimal c).
Proof.
  intros Ha Hb Hc Hsz Hs. destruct (semver_text_size s a b c Hs) as (? & ? & ?). unfold parse_semver, MAX_VERSION_LENGTH in *.
  rewrite bool_decide_false by (destruct Hs as [->| ->]; by destruct a).
  rewrite (proj2 (Z.ltb_ge 64 (size s))) by lia. cbn [orb].
  set (m := a ++ 46 :: b ++ 46 :: c) in *.
  assert (semver_shape m = true) as Hm by (apply semver_shape_iff; by exists a, b, c).
  assert (match_dollar semver_shape s = Some m) as ->.
  { apply match_dollar_iff. split; [done|]. destruct Hs as [->| ->]; [by left|right]. split; [done|].
    apply not_true_iff_false. intros (a' & b' & c' & He & Ha' & Hb' & Hc')%semver_shape_iff.
    assert (10 ∈ a' ++ 46 :: b' ++ 46 :: c') as Hin by (rewrite <-He; apply elem_of_app; right; left).
    assert (∀ x, numeric x = true → 10 ∉ x) as Hno.
    { intros x [_ Hx]%numeric_digits Hin10. rewrite Forall_forall in Hx. by apply Hx in Hin10. }
    rewrite elem_of_app, elem_of_cons, elem_of_app, elem_of_cons in Hin.
    destruct Hin as [?|[?|[?|[?|?]]]]; [by destruct (Hno a')|done|by destruct (Hno b')|done|by destruct (Hno c')]. }
  subst m. rewrite split_three by by apply numeric_no_dot. rewrite !py_int_numeric by (done || lia). done.
Qed.
Lemma parse_semver_inv s v1 v2 v3 :
  parse_semver (VStr s) = Ret (v1, v2, v3) →
  ∃ a b c, numeric a = true ∧ numeric b = true ∧ numeric c = true ∧ v1 = decimal a ∧ v2 = decimal b ∧ v3 = decimal c ∧
           size s ≤ MAX_VERSION_LENGTH ∧ semver_text s a b c.
Proof.
  intros Hp. pose proof Hp as Hp'. unfold parse_semver in Hp.
  destruct (bool_decide (s = []) || (MAX_VERSION_LENGTH <? size s)) eqn:Hb; [done|].
  apply orb_false_iff in Hb as [_ Hsz%Z.ltb_ge]. destruct (match_dollar semver_shape s) as [m|] eqn:Hm; [|done].
  apply match_dollar_iff in Hm as [(a & b & c & Hmm & Ha & Hb & Hc)%semver_shape_iff Hs].
  assert (semver_text s a b c) as Ht by (subst m; destruct Hs as [|[? _]]; [by left|by right]).
  rewrite (parse_semver_text s a b c Ha Hb Hc Hsz Ht) in Hp'. injection Hp' as <- <- <-. by exists a, b, c.
Qed.
End Semver.

(** A version text is accepted exactly when it is the canonical text [X.Y.Z] of a
    triple of numbers, of at most 64 characters, or that text with a newline at its end;
    parsing and printing are inverse. *)
Theorem parse_semver_spec `{UnicodeDB} s a b c :
  parse_semver (VStr s) = Ret (a, b, c) ↔
  (0 ≤ a ∧ 0 ≤ b ∧ 0 ≤ c) ∧ size s ≤ MAX_VERSION_LENGTH ∧ (s = print_semver (a, b, c) ∨ s = print_semver (a, b, c) ++ [10]).
Proof.
  split.
  - intros Hp. apply parse_semver_inv in Hp as (x & y & z & Hx & Hy & Hz & -> & -> & -> & Hsz & Hs).
    destruct (numeric_digits x Hx) as [_ ?%decimal_nonneg]. destruct (numeric_digits y Hy) as [_ ?%decimal_nonneg].
    destruct (numeric_digits z Hz) as [_ ?%decimal_nonneg]. split_and!; try done.
    unfold print_semver. by rewrite !numeric_printed.
  - intros ((Ha & Hb & Hc) & Hsz & Hs). cbn [print_semver] in Hs.
    rewrite (parse_semver_text s (str_of_int a) (str_of_int b) (str_of_int c)); try by apply str_of_int_numeric.
    + by rewrite !decimal_str_of_int.
    + done.
    + done.
Qed.
Lemma parse_semver_spec_witness : @parse_semver ascii_db (VStr (u "1.20.3")) = Ret (1, 20, 3).
Proof. apply (proj2 (@parse_semver_spec ascii_db (u "1.20.3") 1 20 3)). split_and!; [lia|lia|lia|by vm_compute|by left]. Defined.

(** ** A manifest is valid or refused *)

Definition good_text (max : Z) (s : pystr) : Prop := s ≠ [] ∧ size s ≤ max ∧ Forall (λ c, control_char c = false) s.
Definition good_version (s : pystr) : Prop :=
  good_text MAX_VERSION_LENGTH s ∧ ∃ a b c, 0 ≤ a ∧ 0 ≤ b ∧ 0 ≤ c ∧ s = print_semver (a, b, c).
(** [https://host...], the scheme in any case. *)
Definition good_url (s : pystr) : Prop :=
  good_text MAX_URL_LENGTH s ∧
  ∃ blanks sch rest, s = blanks ++ sch ++ u "://" ++ rest ∧ Forall (λ c, in_range 0 32 c = true) blanks ∧
    lower_ascii sch = u "https" ∧ until_delim rest ≠ [].
(** 64 lower-case hexadecimal digits; the pattern lets a newline through at the end. *)
Definition good_sha (s : pystr) : Prop :=
  ∃ h, length h = 64%nat ∧ Forall (λ c, is_digit c || in_range 97 102 c = true) h ∧ (s = h ∨ s = h ++ [10]).
Record manifest_good (m : Manifest) : Prop := {
  good_schema : schema_version m = 1;
  good_versions : good_version (version m) ∧ good_version (min_image_version m);
  good_channel : channel m = u "stable" ∨ channel m = u "alpha";
  good_commit : good_text MAX_COMMIT_LENGTH (source_commit m);
  good_urls : good_url (bundle_url m) ∧ good_url (release_url m);
  good_hash : good_sha (bundle_sha256 m);
  good_size : 0 < bundle_size m ≤ MAX_BUNDLE_SIZE;
  good_summary : strip (release_summary m) ≠ [] ∧ size (release_summary m) ≤ MAX_SUMMARY_LENGTH;
}.

Section Typed.
Context `{UnicodeDB} (json_loads : pystr → res pyval) (netloc_ok : pystr → bool).

(** The value satisfies [P], or the refusal has a short reason, or the exception is one
    that [json.loads] raised. *)
Definition checks {A} (P : A → Prop) (c : checked A) : Prop :=
  match c with
  | Valid a => P a
  | Refused r => (length r ≤ MAX_REASON_LENGTH)%nat
  | Escaped e => e ≠ ValueError ∧ e ≠ TypeError ∧ ∃ text, json_loads text = Raise e
  end.
Lemma checks_bind {A B} (P : A → Prop) (Q : B → Prop) (c : checked A) f :
  checks P c → (∀ a, P a → checks Q (f a)) → checks Q (c ≫= f).
Proof. destruct c; cbn; auto. Qed.
Lemma checks_impl {A} (P Q : A → Prop) c : checks P c → (∀ a, P a → Q a) → checks Q c.
Proof. destruct c; cbn; auto. Qed.
Definition short_key (key : pystr) : Prop := (length key ≤ 100)%nat.
Lemma field_short key suffix : short_key key → (length (u suffix) ≤ 40)%nat → (length (field key suffix) ≤ MAX_REASON_LENGTH)%nat.
Proof.
  intros Hk Hs. unfold field, short_key, MAX_REASON_LENGTH in *. rewrite !length_app.
  change (length (u "manifest field ")) with 15%nat. lia.
Qed.

Lemma require_checks doc key : short_key key → checks (λ _, True) (_require doc key).
Proof. intros Hk. unfold _require. case_match; [done|]. apply field_short; [done|by vm_compute; lia]. Qed.
Lemma checks_require {A} (Q : A → Prop) doc key k :
  short_key key → (∀ v, checks Q (k v)) → checks Q (_require doc key ≫= k).
Proof. intros Hk Hc. eapply checks_bind; [by apply require_checks|]. intros v _. apply Hc. Qed.
Lemma require_text_checks v key max : short_key key → checks (good_text max) (_require_text v key max).
Proof.
  intros Hk. assert (length (field key " is invalid") ≤ MAX_REASON_LENGTH)%nat as Hf by (apply field_short; [done|by vm_compute; lia]).
  destruct v as [| | | |s| | |]; try done. cbn. destruct (bool_decide (s = []) || (max <? size s)) eqn:Hb; [done|].
  apply orb_false_iff in Hb as [Hne%bool_decide_eq_false Hsz%Z.ltb_ge]. destruct (existsb control_char s) eqn:Hc; [done|].
  split_and!; [done|done|]. apply Forall_forall. intros c Hin%list_elem_of_In. apply not_true_iff_false. intros Ht.
  rewrite (proj2 (existsb_exists control_char s)) in Hc by eauto. done.
Qed.
Lemma require_semver_checks v key : short_key key → checks good_version (_require_semver v key).
Proof.
  intros Hk. unfold _require_semver. eapply checks_bind; [by apply require_text_checks|]. intros s Hs.
  destruct (parse_semver (VStr s)) as [[[a b] c]|e] eqn:Hp; [|apply field_short; [done|by vm_compute; lia]].
  cbn. split; [done|]. apply parse_semver_inv in Hp as (x & y & z & Hx & Hy & Hz & -> & -> & -> & _ & Ht).
  destruct (numeric_digits x Hx) as [_ ?%decimal_nonneg]. destruct (numeric_digits y Hy) as [_ ?%decimal_nonneg].
  destruct (numeric_digits z Hz) as [_ ?%decimal_nonneg]. exists (decimal x), (decimal y), (decimal z). split_and!; try done.
  cbn [print_semver]. rewrite !numeric_printed by done. destruct Ht as [?|Ht]; [done|]. destruct Hs as (_ & _ & Hctl).
  rewrite Ht, Forall_app in Hctl. destruct Hctl as [_ Hctl]. by apply Forall_cons in Hctl as [? _].
Qed.
Lemma require_url_checks v key : short_key key → checks good_url (_require_https_url netloc_ok v key).
Proof.
  intros Hk. unfold _require_https_url. eapply checks_bind; [by apply require_text_checks|]. intros s Hs.
  rewrite urlsplit_clean by by destruct Hs as (_ & _ & Hs); eapply Forall_impl; [exact Hs|]; intros c Hc; apply orb_false_iff in Hc as [Hc _].
  destruct (split_scheme (drop_blank s)) as [sch rest] eqn:Hsp.
  destruct (netloc_ok (netloc_of rest)); [|apply field_short; [done|by vm_compute; lia]].
  destruct (negb (bool_decide (sch = u "https")) || bool_decide (netloc_of rest = [])) eqn:Hb; [apply field_short; [done|by vm_compute; lia]|].
  apply orb_false_iff in Hb as [Hsch%negb_false_iff%bool_decide_eq_true Hnl%bool_decide_eq_false]. subst sch.
  destruct (split_scheme_https _ _ Hsp) as (sch & Hd & Hl). destruct (drop_blank_split s) as (p & Hp & Hbl).
  assert (∃ r, rest = 47 :: 47 :: r ∧ until_delim r ≠ []) as (r & -> & Hr).
  { unfold netloc_of in Hnl. repeat (case_match; try done). eauto. }
  split; [done|]. exists p, sch, r. split_and!; try done. by rewrite Hp at 1; rewrite Hd.
Qed.
Ltac short := match goal with |- checks _ (Refused _) => unfold checks; apply Nat.leb_le; vm_compute; reflexivity end.
Lemma require_sha_checks v : checks good_sha (require_sha256 v).
Proof.
  destruct v as [| | | |s| | |]; cbn [require_sha256]; try short. destruct (_is_sha256 s) eqn:Hs; [|short].
  assert (∀ h, sha256_shape h = true → length (lower_ascii h) = 64%nat ∧ Forall (λ c, is_digit c || in_range 97 102 c = true) (lower_ascii h)) as Hlow.
  { intros h [Hl%Nat.eqb_eq Hh]%andb_true_iff. split; [by unfold lower_ascii; rewrite length_map|].
    apply Forall_forall. intros c (x & -> & Hx)%list_elem_of_fmap. rewrite forallb_forall in Hh.
    apply list_elem_of_In, Hh in Hx. unfold hex_char in Hx. rewrite !orb_true_iff in *. unfold is_digit in *.
    rewrite !in_range_spec in *. destruct (in_range 65 90 x) eqn:Hr; [apply in_range_spec in Hr|apply in_range_false in Hr]; lia. }
  cbn. unfold good_sha. unfold _is_sha256, dollar in Hs. apply orb_true_iff in Hs as [Hs|Hs].
  - destruct (Hlow s Hs) as [Hl Hf]. exists (lower_ascii s). split_and!; [done|done|by left].
  - destruct (rev s) as [|c r] eqn:Hr; [done|]. assert (c = 10) as -> by (repeat (case_match; try done)).
    destruct (Hlow (rev r) Hs) as [Hl Hf]. exists (lower_ascii (rev r)). split_and!; [done|done|right].
    rewrite <-(rev_involutive s), Hr. cbn. unfold lower_ascii. by rewrite map_app.
Qed.
Lemma require_size_checks v : checks (λ n, 0 < n ≤ MAX_BUNDLE_SIZE) (require_size v).
Proof.
  destruct v as [| |n| | | | |]; cbn [require_size]; try short. destruct (Z.leb_spec n 0); [short|].
  destruct (Z.ltb_spec MAX_BUNDLE_SIZE n); [short|]. cbn. lia.
Qed.
Lemma require_summary_checks v : checks (λ s, strip s ≠ [] ∧ size s ≤ MAX_SUMMARY_LENGTH) (require_summary v).
Proof.
  destruct v as [| | | |s| | |]; cbn [require_summary]; try short. case_bool_decide; [short|].
  destruct (Z.ltb_spec MAX_SUMMARY_LENGTH (size s)); [short|]. done.
Qed.
Lemma require_schema_checks v : checks (λ n, n = 1) (require_schema v).
Proof.
  destruct v as [| |n| | | | |]; cbn [require_schema]; try short. case_bool_decide as Hn; [|short].
  by apply list_elem_of_singleton in Hn.
Qed.
Lemma require_channel_checks v : checks (λ s, s = u "stable" ∨ s = u "alpha") (require_channel v).
Proof.
  destruct v as [| | | |s| | |]; cbn [require_channel]; try short. case_bool_decide as Hn; [|short].
  unfold CHANNELS in Hn. apply list_elem_of_In in Hn as [<-|[<-|[]]]; cbn; auto.
Qed.
Lemma good_version_parses s : good_version s → ∃ v, parse_semver (VStr s) = Ret v.
Proof.
  intros [(_ & Hsz & _) (a & b & c & Ha & Hb & Hc & Hs)]. eexists.
  apply (parse_semver_text s (str_of_int a) (str_of_int b) (str_of_int c)); by apply str_of_int_numeric || by left || done.
Qed.
Lemma ver_ltb_total a b : ver_ltb a b = false → a ≠ b → ver_ltb b a = true.
Proof.
  destruct a as [[a1 a2] a3], b as [[b1 b2] b3]. unfold ver_ltb. intros Hlt Hne.
  rewrite (Z.eqb_sym b1), (Z.eqb_sym b2). destruct (Z.eqb_spec a1 b1), (Z.eqb_spec a2 b2);
    rewrite ?Z.ltb_lt, ?Z.ltb_ge in *; subst; try lia. assert (a3 ≠ b3) by congruence. lia.
Qed.
Lemma check_current_checks v cv :
  good_version v → checks (λ _, cv ≠ [] → is_newer (VStr v) (VStr cv) = true) (check_current v cv).
Proof.
  intros Hv. unfold check_current. case_bool_decide; [cbn; congruence|]. destruct (good_version_parses v Hv) as [cand Hc].
  unfold is_newer. rewrite Hc. destruct (parse_semver (VStr cv)) as [cur|]; [|short].
  destruct (ver_ltb cand cur) eqn:Hlt; [short|]. case_bool_decide as Heq; [short|].
  cbn. intros _. by apply ver_ltb_total.
Qed.
Lemma check_image_checks i iv :
  good_version i →
  checks (λ _, iv ≠ [] → is_Some (match parse_semver (VStr iv) with Ret x => Some x | _ => None end) ∧
                         is_newer (VStr i) (VStr iv) = false) (check_image i iv).
Proof.
  intros Hv. unfold check_image. case_bool_decide; [cbn; congruence|]. destruct (good_version_parses i Hv) as [need Hc].
  unfold is_newer. rewrite Hc. destruct (parse_semver (VStr iv)) as [image|]; [|short].
  destruct (ver_ltb image need) eqn:Hlt; [short|]. cbn. intros _. by split; [eexists|].
Qed.
Lemma decode_checks payload : checks (λ _, True) (_decode_manifest json_loads payload).
Proof.
  assert (∀ text, checks (λ _, True)
    (match json_loads text with
     | Ret (VDict d) => Valid d
     | Ret _ => Refused (u "manifest must be a JSON object")
     | Raise (ValueError | TypeError) => Refused (u "manifest is not valid JSON")
     | Raise e => Escaped e
     end)) as Hload.
  { intros text. destruct (json_loads text) as [v|e] eqn:Hj; [destruct v; first [done|short]|].
    destruct e; first [short|(cbn; eauto)]. }
  unfold _decode_manifest. destruct payload as [| | | |s|b| |]; try short.
  - destruct (_ <? _); [short|apply Hload].
  - destruct (_ <? _); [short|]. destruct (utf8_decode b); [apply Hload|short].
  - done.
Qed.
Lemma require_reboot_checks v : checks (λ _, True) (require_reboot v).
Proof. destruct v; cbn [require_reboot]; first [done|short]. Qed.
End Typed.

(** The validation as a whole. *)
Lemma parse_manifest_checks `{UnicodeDB} json_loads netloc_ok payload cv iv :
  checks json_loads (λ m, manifest_good m ∧ (cv ≠ [] → is_newer (VStr (version m)) (VStr cv) = true) ∧
    (iv ≠ [] → is_newer (VStr (min_image_version m)) (VStr iv) = false)) (parse_manifest json_loads netloc_ok payload cv iv).
Proof.
  unfold parse_manifest. eapply checks_bind; [apply decode_checks|]. intros doc _.
  eapply checks_bind; [apply require_schema_checks|]. intros schema Hschema.
  apply checks_require; [vm_compute; lia|intros v0]. eapply checks_bind; [apply require_semver_checks; vm_compute; lia|]. intros v Hv.
  apply checks_require; [vm_compute; lia|intros i0]. eapply checks_bind; [apply require_semver_checks; vm_compute; lia|]. intros i Hi.
  apply checks_require; [vm_compute; lia|intros c0]. eapply checks_bind; [apply require_channel_checks|]. intros c Hc.
  apply checks_require; [vm_compute; lia|intros sc0]. eapply checks_bind; [apply require_text_checks; vm_compute; lia|]. intros sc Hsc.
  apply checks_require; [vm_compute; lia|intros bu0]. eapply checks_bind; [apply require_url_checks; vm_compute; lia|]. intros bu Hbu.
  apply checks_require; [vm_compute; lia|intros ru0]. eapply checks_bind; [apply require_url_checks; vm_compute; lia|]. intros ru Hru.
  apply checks_require; [vm_compute; lia|intros sha0]. eapply checks_bind; [apply require_sha_checks|]. intros sha Hsha.
  apply checks_require; [vm_compute; lia|intros n0]. eapply checks_bind; [apply require_size_checks|]. intros n Hn.
  apply checks_require; [vm_compute; lia|intros rs0]. eapply checks_bind; [apply require_summary_checks|]. intros rs Hrs.
  apply checks_require; [vm_compute; lia|intros rb0].
  eapply checks_bind; [apply require_reboot_checks|]. intros rb _.
  eapply checks_bind; [by apply check_current_checks|]. intros [] Hcv.
  eapply checks_bind; [by apply check_image_checks|]. intros [] Hiv.
  cbn. split; [by split|]. split; [done|]. intros Hne. by apply Hiv.
Qed.


(** The comparisons come last. *)
Lemma parse_manifest_stages `{UnicodeDB} json_loads netloc_ok payload cv iv :
  parse_manifest json_loads netloc_ok payload cv iv =
  (m ← parse_manifest json_loads netloc_ok payload [] [];
   _ ← check_current (version m) cv; _ ← check_image (min_image_version m) iv; Valid m).
Proof.
  unfold parse_manifest. unfold mbind, checked_bind.
  repeat (case_match; [|done|done]). done.
Qed.
Lemma classify_stages `{UnicodeDB} m cv iv :
  manifest_good m →
  classify_manifest m cv iv = (true, OUTCOME_AVAILABLE, []) ↔
  check_current (version m) cv = Valid tt ∧ check_image (min_image_version m) iv = Valid tt.
Proof.
  intros [_ [Hv Hi] _ _ _ _ _ _]. destruct (good_version_parses _ Hv) as [cand Hc]. destruct (good_version_parses _ Hi) as [need Hn].
  unfold classify_manifest, check_current, check_image. rewrite Hc, Hn.
  repeat case_bool_decide; repeat case_match; try naive_solver.
Qed.

(** C16: whatever the payload, a manifest that is returned is fully valid: supported
    schema and channel, canonical versions, printable bounded texts, https URLs with a
    host, a SHA-256 text, a size within the limit, a summary; it is strictly newer than
    the installed version and does not need a newer image.  Otherwise it is refused with a
    reason of at most 200 characters; only an exception of [json.loads] other than
    [ValueError] and [TypeError] gets through. *)
Theorem parse_manifest_typed `{UnicodeDB} json_loads netloc_ok payload cv iv :
  match parse_manifest json_loads netloc_ok payload cv iv with
  | Valid m => manifest_good m ∧ (cv ≠ [] → is_newer (VStr (version m)) (VStr cv) = true) ∧
               (iv ≠ [] → is_newer (VStr (min_image_version m)) (VStr iv) = false)
  | Refused r => (length r ≤ MAX_REASON_LENGTH)%nat
  | Escaped e => e ≠ ValueError ∧ e ≠ TypeError ∧ ∃ text, json_loads text = Raise e
  end.
Proof. exact (parse_manifest_checks json_loads netloc_ok payload cv iv). Qed.

(** Validating against the installed versions is validating the document and then
    classifying it: [parse_manifest] accepts with the installed versions exactly what it
    accepts without them and [classify_manifest] calls available. *)
Theorem parse_agrees_with_classify `{UnicodeDB} json_loads netloc_ok payload cv iv m :
  parse_manifest json_loads netloc_ok payload cv iv = Valid m ↔
  parse_manifest json_loads netloc_ok payload [] [] = Valid m ∧
  classify_manifest m cv iv = (true, OUTCOME_AVAILABLE, []).
Proof.
  rewrite parse_manifest_stages. pose proof (parse_manifest_checks json_loads netloc_ok payload [] []) as Hc.
  destruct (parse_manifest json_loads netloc_ok payload [] []) as [m'|r|e]; cbn in *; [|naive_solver|naive_solver].
  pose proof (classify_stages m' cv iv (proj1 Hc)) as Hcl.
  destruct (check_current (version m') cv) as [[]|r|e] eqn:H1; cbn; [|split; [done|intros [[= <-] Hx%Hcl]; naive_solver]..].
  destruct (check_image (min_image_version m') iv) as [[]|r|e] eqn:H2; cbn; [|split; [done|intros [[= <-] Hx%Hcl]; naive_solver]..].
  split; [intros [= <-]; split; [done|by apply Hcl]|by intros [[= <-] _]].
Qed.

(** A release that is accepted over an older one and refused over itself. *)
Definition demo_doc : pyval :=
  VDict [(VStr (u "schema_version"), VInt 1); (VStr (u "version"), VStr (u "1.4.0"));
         (VStr (u "channel"), VStr (u "stable")); (VStr (u "source_commit"), VStr (u "abc123"));
         (VStr (u "min_image_version"), VStr (u "1.0.0")); (VStr (u "bundle_url"), VStr (u "https://example.org/b.tar.zst"));
         (VStr (u "bundle_sha256"), VStr (replicate 64 65)); (VStr (u "bundle_size"), VInt 1000);
         (VStr (u "release_summary"), VStr (u "fixes")); (VStr (u "release_url"), VStr (u "https://example.org/r"));
         (VStr (u "reboot_required"), VBool false)].
Example demo_doc_parsed :
  let parse := @parse_manifest ascii_db (λ _, Raise ValueError) (λ _, true) demo_doc in
  (∃ m, parse (u "1.3.9") (u "1.0.0") = Valid m ∧ bundle_sha256 m = replicate 64 97) ∧
  parse (u "1.4.0") [] = Refused (u "manifest version is not newer than the installed version") ∧
  parse [] (u "0.9.0") = Refused (u "manifest requires a newer image version").
Proof. split; [eexists; split; [by vm_compute|done]|by vm_compute]. Qed.

(** A signature is good only when [minisign -V] ended with zero on the file, the key and
    the signature named. *)
Lemma verify_file_sound isfile runner path sig key r :
  _verify_file isfile runner path sig key = (true, r) →
  ∃ p k s, path = VStr p ∧ key = VStr k ∧ (sig = VStr s ∨ truthy sig = false ∧ s = p ++ u ".minisig") ∧
    isfile p = true ∧ isfile k = true ∧ isfile s = true ∧ runner (minisign_args p k s) = Ret 0.
Proof.
  unfold _verify_file. destruct path as [| | | |[|c p]| | |]; try done. destruct key as [| | | |[|d k]| | |]; try done.
  set (sg := if truthy sig then sig else VStr ((c :: p) ++ u ".minisig")). destruct sg as [| | | |[|e s]| | |] eqn:Hsg; try done.
  destruct (isfile (c :: p)) eqn:H1; [|done]. destruct (isfile (e :: s)) eqn:H2; [|done]. destruct (isfile (d :: k)) eqn:H3; [|done].
  cbn [negb]. destruct (runner _) as [code|] eqn:Hr; [|done]. destruct (Z.eqb_spec code 0) as [->|]; [|done]. intros _.
  exists (c :: p), (d :: k), (e :: s). split_and!; try done. subst sg. destruct (truthy sig); [by left|right]. split; [done|]. congruence.
Qed.
