(* ===== verification/Releases.v ===== *)
(** [app/updater_install.py], first part: the releases on the data partition, the links
    [current] and [previous], the atomic switch, the roll-back, the marks of bad releases,
    pruning, and the recovery after an interruption.  The directory is the map of its
    entries; every file operation may fail, and every state of the directory that an
    operation leaves is recorded, so that an interruption after any of them is covered. *)
From S2P Require Import Prelude Crash PyValue PyText Sessions MediaLibrary Updater.

(** ** The directory *)

(** A path is an entry of the releases directory or lies outside it; the code links to
    nothing inside a release. *)
Inductive loc := Rel (name : pystr) | Out (path : pystr).
Inductive node := NDir | NFile | NLink (to : loc).
#[export] Instance loc_eq_dec : EqDecision loc.
Proof. solve_decision. Defined.
#[export] Instance node_eq_dec : EqDecision node.
Proof. solve_decision. Defined.
Abbreviation dir := (gmap pystr node).

Definition CURRENT : pystr := u "current".
Definition PREVIOUS : pystr := u "previous".
Definition BAD_RELEASES_DIRNAME : pystr := u ".bad".

(** [rel_bad] holds the regular files of [.bad]; [rel_past] every state of the entries
    since the start; [rel_ops] counts the file operations. *)
Record releases := {
  rel_present : bool;
  rel_tree : dir;
  rel_bad : gset pystr;
  rel_ops : nat;
  rel_past : list dir;
}.

(** An operation returns or raises an [OSError], named by its class. *)
Definition FS (A : Type) : Type := releases → (pystr + A) * releases.
#[export] Instance fs_ret : MRet FS := λ A a w, (inr a, w).
#[export] Instance fs_bind : MBind FS := λ A B f m w,
  match m w with (inr a, w') => f a w' | (inl e, w') => (inl e, w') end.
Definition fs_raise {A} (name : string) : FS A := λ w, (inl (u name), w).
Definition read {A} (f : dir → A) : FS A := λ w, (inr (f (rel_tree w)), w).
(** [try: m except OSError as e: handler e]. *)
Definition catch {A} (m : FS A) (handler : pystr → FS A) : FS A := λ w,
  match m w with (inr a, w') => (inr a, w') | (inl e, w') => handler e w' end.

Section Releases.
(** The factory application; [realpath], [isdir] and [exists] outside the directory; what
    the [n]-th file operation does ([Some]: the class of the error it raises); the process id. *)
Context `{UnicodeDB} (factory_app : pystr) (out_real : pystr → pystr) (out_isdir out_exists : pystr → bool)
  (io : nat → option pystr) (pid : Z).

Definition op (f : dir → dir) : FS unit := λ w,
  let w := w{{rel_ops := S (rel_ops w)}} in
  match io (pred (rel_ops w)) with
  | Some e => (inl e, w)
  | None => (inr tt, w{{rel_tree := f (rel_tree w)}}{{rel_past := rel_past w ++ [f (rel_tree w)] }})
  end.

(** ** Reading paths *)

(** [os.path.realpath]: a link that is met twice is left unresolved. *)
Fixpoint realpath_from (fuel : nat) (seen : list pystr) (t : dir) (l : loc) : loc :=
  match l with
  | Out p => Out (out_real p)
  | Rel n =>
      match t !! n with
      | Some (NLink l') =>
          if bool_decide (n ∈ seen) then l
          else match fuel with O => l | S fuel => realpath_from fuel (n :: seen) t l' end
      | _ => l
      end
  end.
Definition realpath (t : dir) (l : loc) : loc := realpath_from (S (base.size t)) [] t l.
Definition isdir (t : dir) (l : loc) : bool :=
  match realpath t l with Out p => out_isdir p | Rel n => bool_decide (t !! n = Some NDir) end.
Definition exists_ (t : dir) (l : loc) : bool :=
  match realpath t l with
  | Out p => out_exists p
  | Rel n => match t !! n with Some NDir | Some NFile => true | _ => false end
  end.
Definition islink (t : dir) (n : pystr) : bool := match t !! n with Some (NLink _) => true | _ => false end.

(** [os.path.basename(path.rstrip('/'))]. *)
Definition basename (l : loc) : pystr :=
  match l with
  | Rel n => n
  | Out p => default [] (last (split_on 47 (rev (drop_slashes (rev p)))))
  end.
Definition is_semver (name : pystr) : bool := match parse_semver (VStr name) with Ret _ => true | Raise _ => false end.

Definition _current_target (t : dir) : loc :=
  let target := realpath t (Rel CURRENT) in
  if isdir t target then target else Out factory_app.
Definition _active_version (t : dir) : pystr :=
  let name := basename (realpath t (Rel CURRENT)) in
  if is_semver name then name else [].
Definition _symlink_version (t : dir) (link : pystr) : pystr :=
  let target := realpath t (Rel link) in
  if negb (isdir t target) then []
  else if is_semver (basename target) then basename target else [].

(** [os.listdir], in the order of the map. *)
Definition listdir (t : dir) : list pystr := (map_to_list t).*1.
Definition plain_name (name : pystr) : bool :=
  negb (bool_decide (name = CURRENT) || bool_decide (name = PREVIOUS) || starts_with [46] name).
Definition _version_dirs (t : dir) : list pystr :=
  List.filter (λ n, plain_name n && bool_decide (t !! n = Some NDir) && is_semver n) (listdir t).
Definition _newest_version (versions : list pystr) : pystr :=
  foldl (λ best v, if bool_decide (best = []) || is_newer (VStr v) (VStr best) then v else best) [] versions.
Definition bad_version (file : pystr) : option pystr :=
  if ends_with (u ".json") file then
    let version := take (length file - 5) file in
    if is_semver version then Some version else None
  else None.
Definition read_bad_versions (w : releases) : list pystr := omap bad_version (elements (rel_bad w)).

(** ** Changing the directory *)

Definition makedirs : FS unit := λ w,
  if rel_present w then (inr tt, w)
  else match op (λ t, t) w with
       | (inr _, w) => (inr tt, w{{rel_present := true}})
       | (inl e, w) => (inl e, w)
       end.
(** [_remove_file], and [shutil.rmtree(ignore_errors=True)] of an entry: failures are ignored.
    What a directory holds is not modelled, so its removal is one step that works or not;
    the source can also stop part way, which leaves the entry in place as a failure does here. *)
Definition _remove_file (n : pystr) : FS unit :=
  catch (t ← read id;
         match t !! n with
         | Some NDir => fs_raise "IsADirectoryError"
         | Some _ => op (delete n)
         | None => fs_raise "FileNotFoundError"
         end) (λ _, mret tt).
Definition rmtree (n : pystr) : FS unit :=
  t ← read id;
  if bool_decide (t !! n = Some NDir) then catch (op (delete n)) (λ _, mret tt) else mret tt.
Definition symlink (target : loc) (n : pystr) : FS unit :=
  t ← read id;
  match t !! n with
  | Some _ => fs_raise "FileExistsError"
  | None => op (insert n (NLink target))
  end.
(** [os.replace] of a link. *)
Definition replace_link (src : pystr) (target : loc) (dst : pystr) : FS unit :=
  t ← read id;
  if bool_decide (t !! dst = Some NDir) then fs_raise "IsADirectoryError"
  else op (λ t, <[dst := NLink target]> (delete src t)).
Definition tmp_name (link : pystr) : pystr := link ++ u ".tmp." ++ str_of_int pid.
Definition _atomic_symlink (target : loc) (link : pystr) : FS unit :=
  _ ← makedirs;
  catch (_ ← symlink target (tmp_name link); replace_link (tmp_name link) target link)
        (λ e, _ ← _remove_file (tmp_name link); (λ w, (inl e, w)) : FS unit).

Definition failure (prefix : string) (e : pystr) : pystr := u prefix ++ u " (" ++ e ++ u ")".
(** [os.chmod] and [os.rename] of the staging directory. *)
Definition chmod_dir (n : pystr) : FS unit :=
  t ← read id; if bool_decide (t !! n = None) then fs_raise "FileNotFoundError" else op (λ t, t).
Definition rename_dir (src dst : pystr) : FS unit :=
  t ← read id;
  match t !! src, t !! dst with
  | None, _ => fs_raise "FileNotFoundError"
  | Some _, Some _ => fs_raise "NotADirectoryError"
  | Some nd, None => op (λ t, <[dst := nd]> (delete src t))
  end.
Definition attempt {A} (m : FS unit) (refuse : pystr → FS A) (k : FS A) : FS A := λ w,
  match m w with (inr _, w) => k w | (inl e, w) => refuse e w end.
Definition switch_release (staging version : pystr) : FS (bool * pystr) :=
  let refuse prefix e : FS (bool * pystr) := mret (false, failure prefix e) in
  if negb (is_semver version) then mret (false, u "release version is invalid")
  else
    t ← read id;
    if exists_ t (Rel version) then mret (false, u "release directory already exists")
    else
      attempt (chmod_dir staging) (refuse "release activation failed") (
      previous ← read _current_target;
      attempt (rename_dir staging version) (refuse "release activation failed") (
      attempt (_atomic_symlink previous PREVIOUS)
        (λ e, _ ← rmtree version; refuse "could not update the previous symlink" e) (
      attempt (_atomic_symlink (Rel version) CURRENT)
        (λ e, _ ← rmtree version; refuse "could not update the current symlink" e) (
      mret (true, []))))).

Definition _rollback : FS bool :=
  t ← read id;
  let fall_back : FS bool := _ ← _remove_file CURRENT; mret false in
  match t !! PREVIOUS with
  | Some (NLink previous) =>
      if isdir t previous then attempt (_atomic_symlink previous CURRENT) (λ _, mret false) (mret true)
      else fall_back
  | _ => fall_back
  end.

Definition add_mark (file : pystr) : FS unit := λ w,
  match op (λ t, t) w with
  | (inr _, w) => (inr tt, w{{rel_bad := {[file]} ∪ rel_bad w}})
  | (inl e, w) => (inl e, w)
  end.
Definition make_bad_dir : FS unit :=
  t ← read id;
  match t !! BAD_RELEASES_DIRNAME with
  | None => op (insert BAD_RELEASES_DIRNAME NDir)
  | Some _ => if isdir t (Rel BAD_RELEASES_DIRNAME) then mret tt else fs_raise "FileExistsError"
  end.
Definition record_bad_release (version : pystr) : FS bool :=
  attempt (_ ← makedirs; _ ← make_bad_dir; add_mark (version ++ u ".json")) (λ _, mret false) (mret true).

(** One directory after the other; a failure does not stop the rest. *)
Definition remove_all (names : list pystr) : FS unit := foldr (λ n k, _ ← rmtree n; k) (mret tt) names.
Definition default_prune (protected : list pystr) : FS (list pystr) :=
  t ← read id;
  let active := _active_version t in
  let previous := realpath t (Rel PREVIOUS) in
  let protected :=
    protected ++ (if bool_decide (active = []) then [] else [active])
              ++ (if isdir t previous then [basename previous] else []) in
  let old := List.filter (λ n, negb (bool_decide (n ∈ protected)) && plain_name n
                               && bool_decide (t !! n = Some NDir) && is_semver n) (listdir t) in
  _ ← remove_all old;
  mret old.

(** ** Recovery *)

Record RecoveryReport := {
  staging_removed : list pystr; orphans_removed : list pystr; current_repaired : bool; current_target : option loc;
}.
Definition no_report : RecoveryReport :=
  {| staging_removed := []; orphans_removed := []; current_repaired := false; current_target := None |}.
Definition changed (r : RecoveryReport) : bool :=
  negb (bool_decide (staging_removed r = [])) || negb (bool_decide (orphans_removed r = [])) || current_repaired r.

Fixpoint infix (p s : pystr) : bool :=
  starts_with p s || match s with [] => false | _ :: s => infix p s end.
Definition is_staging (name : pystr) : bool := starts_with [46] name && infix (u ".staging.") name.

Definition repair (target : option loc) : FS (bool * option loc) :=
  match target with
  | Some l => attempt (_atomic_symlink l CURRENT) (λ _, mret (false, None)) (mret (true, Some l))
  | None => _ ← _remove_file CURRENT; mret (true, None)
  end.
Definition dangling (t : dir) : bool := islink t CURRENT && negb (isdir t (realpath t (Rel CURRENT))).
Definition repair_version (t : dir) : pystr := if dangling t then _newest_version (_version_dirs t) else [].
Definition referenced (t : dir) : list pystr :=
  List.filter (λ v, negb (bool_decide (v = [])))
    [_symlink_version t CURRENT; _symlink_version t PREVIOUS; repair_version t].
Definition stale_staging (t : dir) : list pystr :=
  List.filter (λ n, is_staging n && bool_decide (t !! n = Some NDir)) (listdir t).
Definition orphans (refs : list pystr) (t : dir) : list pystr :=
  List.filter (λ n, negb (bool_decide (n ∈ refs))) (_version_dirs t).
(** [t] is the directory as recovery finds it; the link is repaired last. *)
Definition recover_link (t : dir) (gone : list pystr) : FS RecoveryReport :=
  r ← (if dangling t
       then repair (if negb (bool_decide (repair_version t = [])) then Some (Rel (repair_version t))
                    else if isdir t (Out factory_app) then Some (Out factory_app) else None)
       else mret (false, None));
  mret {| staging_removed := merge_sort str_le (stale_staging t); orphans_removed := merge_sort str_le gone;
          current_repaired := r.1; current_target := r.2 |}.
Definition _recover_interrupted (t : dir) : FS RecoveryReport :=
  _ ← remove_all (stale_staging t);
  t1 ← read id;
  _ ← remove_all (orphans (referenced t) t1);
  recover_link t (orphans (referenced t) t1).
Definition recover_interrupted : FS RecoveryReport := λ w,
  if negb (rel_present w) then (inr no_report, w) else _recover_interrupted (rel_tree w) w.
End Releases.

(** ** Reasoning about an operation and its interruptions

    [wp m I Q w]: from [w], [m] ends in [Q], and every state of the directory that it
    leaves on its way satisfies [I]. *)

#[export] Instance releases_logged : Logged releases dir := rel_past.
Definition wp {A} (m : FS A) (I : dir → Prop) (Q : pystr + A → releases → Prop) (w : releases) : Prop :=
  passed I w (m w).2 ∧ Q (m w).1 (m w).2.

Lemma wp_ret {A} (a : A) I Q w : Q (inr a) w → wp (mret a) I Q w.
Proof. intros HQ. split; [apply passed_refl|done]. Qed.
Lemma wp_fail {A} e I (Q : pystr + A → _) w : Q (inl e) w → wp (λ w, (inl e, w)) I Q w.
Proof. intros HQ. split; [apply passed_refl|done]. Qed.
Lemma wp_read {A} (f : dir → A) I Q w : Q (inr (f (rel_tree w))) w → wp (read f) I Q w.
Proof. intros HQ. split; [apply passed_refl|done]. Qed.
Lemma wp_mono {A} (m : FS A) (I I' : dir → Prop) (Q Q' : pystr + A → releases → Prop) w :
  wp m I Q w → (∀ t, I t → I' t) → (∀ r w', Q r w' → Q' r w') → wp m I' Q' w.
Proof. intros [(new & Hn & Hf) HQ] HI HQ'. split; [|by apply HQ']. exists new. split; [done|]. by eapply Forall_impl. Qed.
Lemma wp_bind {A B} (m : FS A) (f : A → FS B) I Q w :
  wp m I (λ r w', match r with inr a => wp (f a) I Q w' | inl e => Q (inl e) w' end) w → wp (m ≫= f) I Q w.
Proof.
  unfold wp, mbind, fs_bind. destruct (m w) as [[e|a] w'] eqn:Hm; cbn; [done|].
  intros [H1 [H2 H3]]. split; [by eapply passed_trans|done].
Qed.
Lemma wp_catch {A} (m : FS A) h I Q w :
  wp m I (λ r w', match r with inr a => Q (inr a) w' | inl e => wp (h e) I Q w' end) w → wp (catch m h) I Q w.
Proof.
  unfold wp, catch. destruct (m w) as [[e|a] w'] eqn:Hm; cbn; [|done].
  intros [H1 [H2 H3]]. split; [by eapply passed_trans|done].
Qed.
Lemma wp_attempt {A} (m : FS unit) (refuse : pystr → FS A) k I Q w :
  wp m I (λ r w', match r with inr _ => wp k I Q w' | inl e => wp (refuse e) I Q w' end) w → wp (attempt m refuse k) I Q w.
Proof.
  unfold wp, attempt. destruct (m w) as [[e|a] w'] eqn:Hm; cbn; intros [H1 [H2 H3]]; (split; [by eapply passed_trans|done]).
Qed.

(** The rest of the state, which most operations leave. *)
Definition keeps (w w' : releases) : Prop := rel_present w' = rel_present w ∧ rel_bad w' = rel_bad w.
Lemma keeps_refl w : keeps w w.
Proof. done. Qed.
Lemma keeps_trans w1 w2 w3 : keeps w1 w2 → keeps w2 w3 → keeps w1 w3.
Proof. intros [] []. split; congruence. Qed.
#[export] Hint Resolve keeps_refl : buddy.

(** *** Names *)

Definition is_tmp (n : pystr) : bool := starts_with (u "current.tmp.") n || starts_with (u "previous.tmp.") n.
Lemma starts_with_prefix p s : starts_with p (p ++ s) = true.
Proof. induction p as [|c p IH]; simpl; [done|]. by rewrite Z.eqb_refl, IH. Qed.
Lemma tmp_current pid : is_tmp (tmp_name pid CURRENT) = true.
Proof.
  unfold is_tmp, tmp_name. change (CURRENT ++ u ".tmp." ++ str_of_int pid) with (u "current.tmp." ++ str_of_int pid).
  by rewrite starts_with_prefix.
Qed.
Lemma tmp_previous pid : is_tmp (tmp_name pid PREVIOUS) = true.
Proof.
  unfold is_tmp, tmp_name. change (PREVIOUS ++ u ".tmp." ++ str_of_int pid) with (u "previous.tmp." ++ str_of_int pid).
  rewrite starts_with_prefix. apply orb_true_r.
Qed.

Section Layout.
Context `{UnicodeDB}.

(** A version starts with a digit, which sets it apart from every other name in use. *)
Lemma semver_first n : is_semver n = true → ∃ c r, n = c :: r ∧ is_digit c = true.
Proof.
  unfold is_semver. destruct (parse_semver (VStr n)) as [[[v1 v2] v3]|] eqn:Hp; [intros _|done].
  apply parse_semver_inv in Hp as (a & b & c & [Hne Ha]%numeric_digits & _ & _ & _ & _ & _ & _ & Ht).
  destruct a as [|x a]; [done|]. apply Forall_cons in Ha as [Hx _].
  destruct Ht as [->| ->]; eauto.
Qed.
Lemma semver_not_nil n : is_semver n = true → n ≠ [].
Proof. intros (c & r & -> & _)%semver_first. done. Qed.
Lemma semver_plain n : is_semver n = true → plain_name n = true ∧ is_tmp n = false ∧ is_staging n = false.
Proof.
  intros (c & r & -> & Hc)%semver_first. unfold is_digit, in_range in Hc.
  apply andb_true_iff in Hc as [H1%Z.leb_le H2%Z.leb_le].
  assert (∀ d p, d ≠ c → starts_with (d :: p) (c :: r) = false) as Hd
    by (intros d p Hne; cbn [starts_with]; by rewrite (proj2 (Z.eqb_neq d c))).
  unfold plain_name, is_tmp, is_staging, CURRENT, PREVIOUS.
  rewrite !bool_decide_false by (intros [= ? _]; lia).
  change (u "current.tmp.") with (99 :: u "urrent.tmp."). change (u "previous.tmp.") with (112 :: u "revious.tmp.").
  rewrite !Hd by lia. done.
Qed.
Lemma semver_current : is_semver CURRENT = false.
Proof. apply not_true_iff_false. intros (c & r & [= <- _] & Hc)%semver_first. done. Qed.
Lemma semver_previous : is_semver PREVIOUS = false.
Proof. apply not_true_iff_false. intros (c & r & [= <- _] & Hc)%semver_first. done. Qed.
Lemma staging_name n : is_staging n = true → is_semver n = false ∧ is_tmp n = false ∧ n ≠ CURRENT ∧ n ≠ PREVIOUS.
Proof.
  intros Hs. split; [apply not_true_iff_false; intros Hv%semver_plain; by destruct Hv as (_ & _ & ?); congruence|].
  unfold is_staging in Hs. apply andb_true_iff in Hs as [Hd _].
  destruct n as [|c n]; [done|]. cbn [starts_with] in Hd. rewrite andb_true_r in Hd. apply Z.eqb_eq in Hd as <-. done.
Qed.
Lemma semver_ne v n : is_semver v = true → is_semver n = false → v ≠ n.
Proof. congruence. Qed.
End Layout.

(** What the code relies on outside the directory: [realpath] is idempotent, and the
    factory application is a directory of its own. *)
Class OutsideOk (factory_app : pystr) (out_real : pystr → pystr) (out_isdir : pystr → bool) : Prop := {
  real_idem : ∀ p, out_real (out_real p) = out_real p;
  factory_real : out_real factory_app = factory_app;
  factory_dir : out_isdir factory_app = true;
}.

(** Two states that differ in temporary links only. *)
Definition near (t t' : dir) : Prop := ∀ n, is_tmp n = false → t' !! n = t !! n.
#[export] Instance near_equiv : Equivalence near.
Proof.
  split; [by intros t n|intros t t' Hn n Ht; by rewrite Hn|intros t1 t2 t3 H1 H2 n Ht; by rewrite H2, H1].
Qed.
#[export] Instance near_insert n nd : Proper (near ==> near) (insert n nd).
Proof.
  intros t t' Hn m Hm. destruct (decide (m = n)) as [->|Hne]; [by rewrite !lookup_insert_eq|].
  rewrite !lookup_insert_ne by done. by apply Hn.
Qed.
#[export] Instance near_delete n : Proper (near ==> near) (delete n).
Proof.
  intros t t' Hn m Hm. destruct (decide (m = n)) as [->|Hne]; [by rewrite !lookup_delete_eq|].
  rewrite !lookup_delete_ne by done. by apply Hn.
Qed.
Lemma near_tmp_insert n nd t : is_tmp n = true → near t (<[n := nd]> t).
Proof. intros Ht m Hm. apply lookup_insert_ne. congruence. Qed.
Lemma near_tmp_delete n t : is_tmp n = true → near t (delete n t).
Proof. intros Ht m Hm. apply lookup_delete_ne. congruence. Qed.

Section Views.
Context `{UnicodeDB} (factory_app : pystr) (out_real : pystr → pystr) (out_isdir : pystr → bool)
  `{Hout : !OutsideOk factory_app out_real out_isdir}.
Abbreviation realpath := (realpath out_real).
Abbreviation isdir := (isdir out_real out_isdir).
Abbreviation running := (_current_target factory_app out_real out_isdir).

Definition target_ok (l : loc) : Prop := match l with Rel v => is_semver v = true | Out _ => True end.
Definition is_link_name (n : pystr) : Prop := n = CURRENT ∨ n = PREVIOUS.
(** The shape every operation keeps: versions are not links, and [current] and [previous],
    where they exist, are links to a version or to a path outside. *)
Definition layout (t : dir) : Prop :=
  (∀ n l, t !! n = Some (NLink l) → is_semver n = false) ∧
  (∀ n nd, is_link_name n → t !! n = Some nd → ∃ l, nd = NLink l ∧ target_ok l).

Definition resolve_loc (l : loc) : loc := match l with Rel v => Rel v | Out p => Out (out_real p) end.
Definition dir_at (t : dir) (l : loc) : bool :=
  match l with Rel v => bool_decide (t !! v = Some NDir) | Out p => out_isdir p end.

Lemma link_name_semver n : is_link_name n → is_semver n = false ∧ is_tmp n = false.
Proof. intros [->| ->]; [split; [apply semver_current|done]|split; [apply semver_previous|done]]. Qed.
Lemma realpath_target t l : layout t → target_ok l → realpath t l = resolve_loc l.
Proof.
  intros [Hl _] Hok. unfold Releases.realpath. cbn [realpath_from]. destruct l as [v|p]; [|done].
  destruct (t !! v) as [[| |l']|] eqn:Hv; try done. apply Hl in Hv. cbn in Hok. congruence.
Qed.
Lemma realpath_link t n l : layout t → is_link_name n → t !! n = Some (NLink l) → realpath t (Rel n) = resolve_loc l.
Proof.
  intros [Hl Hc] Hn Ht. destruct (Hc n _ Hn Ht) as (l' & [= <-] & Hok). unfold Releases.realpath. cbn [realpath_from].
  rewrite Ht, bool_decide_false by apply not_elem_of_nil. destruct l as [v|p]; cbn [resolve_loc]; [|by destruct (base.size t)].
  cbn in Hok. destruct (base.size t); cbn [realpath_from]; destruct (t !! v) as [[| |l']|] eqn:Hv; try done;
    apply Hl in Hv; congruence.
Qed.
Lemma missing_path t n : t !! n = None → realpath t (Rel n) = Rel n ∧ isdir t (Rel n) = false.
Proof.
  intros Hn. assert (realpath t (Rel n) = Rel n) as Hr by (unfold Releases.realpath; cbn [realpath_from]; by rewrite Hn).
  split; [done|]. unfold Releases.isdir. rewrite Hr, Hn. done.
Qed.
Lemma resolve_ok l : target_ok l → target_ok (resolve_loc l).
Proof. by destruct l. Qed.
Lemma resolve_idem l : resolve_loc (resolve_loc l) = resolve_loc l.
Proof. destruct l; cbn; [done|]. by rewrite real_idem. Qed.
Lemma isdir_target t l : layout t → target_ok l → isdir t l = dir_at t (resolve_loc l).
Proof. intros Hl Hok. unfold Releases.isdir. rewrite realpath_target by done. by destruct l. Qed.
Lemma isdir_resolved t l : layout t → target_ok l → isdir t (resolve_loc l) = dir_at t (resolve_loc l).
Proof. intros Hl Hok. rewrite isdir_target, resolve_idem by (done || by apply resolve_ok). done. Qed.

(** What runs, what a link names, and whether [current] dangles, read off the entries. *)
Lemma running_eq t : layout t →
  running t = match t !! CURRENT with
              | Some (NLink l) => if dir_at t (resolve_loc l) then resolve_loc l else Out factory_app
              | _ => Out factory_app
              end.
Proof.
  intros Hl. unfold _current_target. destruct (t !! CURRENT) as [nd|] eqn:Hc.
  - destruct (proj2 Hl CURRENT nd (or_introl eq_refl) Hc) as (l & -> & Hok).
    rewrite (realpath_link t CURRENT l) by (done || by left). by rewrite isdir_resolved by done.
  - destruct (missing_path t _ Hc) as [-> ->]. done.
Qed.
Lemma symlink_version_eq t n : layout t → is_link_name n →
  _symlink_version out_real out_isdir t n =
  match t !! n with
  | Some (NLink l) => if dir_at t (resolve_loc l) && is_semver (basename (resolve_loc l)) then basename (resolve_loc l) else []
  | _ => []
  end.
Proof.
  intros Hl Hn. unfold _symlink_version. destruct (t !! n) as [nd|] eqn:Hc.
  - destruct (proj2 Hl n nd Hn Hc) as (l & -> & Hok).
    rewrite (realpath_link t n l) by done. rewrite isdir_resolved by done. by destruct (dir_at t _), (is_semver _).
  - destruct (missing_path t _ Hc) as [-> ->]. done.
Qed.
Definition dangles (t : dir) : bool :=
  match t !! CURRENT with Some (NLink l) => negb (dir_at t (resolve_loc l)) | _ => false end.
Lemma dangles_eq t : layout t → islink t CURRENT && negb (isdir t (realpath t (Rel CURRENT))) = dangles t.
Proof.
  intros Hl. unfold islink, dangles. destruct (t !! CURRENT) as [nd|] eqn:Hc; [|done].
  destruct (proj2 Hl CURRENT nd (or_introl eq_refl) Hc) as (l & -> & Hok).
  rewrite (realpath_link t CURRENT l) by (done || by left). by rewrite isdir_resolved by done.
Qed.

(** These views do not see temporary links. *)
Lemma near_layout t t' : near t t' → layout t → layout t'.
Proof.
  intros Hn [Hl Hc]. split.
  - intros n l Ht. destruct (is_semver n) eqn:Hs; [|done].
    rewrite Hn in Ht by by apply semver_plain. apply Hl in Ht. congruence.
  - intros n nd Hln. rewrite Hn by by apply link_name_semver. by apply Hc.
Qed.
Lemma near_dir_at t t' l : near t t' → target_ok l → dir_at t' (resolve_loc l) = dir_at t (resolve_loc l).
Proof. intros Hn Hok. destruct l as [v|p]; [|done]. cbn. by rewrite Hn by by apply semver_plain. Qed.
Lemma near_running t t' : near t t' → layout t → running t' = running t.
Proof.
  intros Hn Hl. rewrite !running_eq by eauto using near_layout. rewrite Hn by done.
  destruct (t !! CURRENT) as [nd|] eqn:Hc; [|done]. destruct (proj2 Hl CURRENT nd (or_introl eq_refl) Hc) as (l & -> & Hok).
  by rewrite (near_dir_at t t').
Qed.
Lemma near_dangles t t' : near t t' → layout t → dangles t' = dangles t.
Proof.
  intros Hn Hl. unfold dangles. rewrite Hn by done. destruct (t !! CURRENT) as [nd|] eqn:Hc; [|done].
  destruct (proj2 Hl CURRENT nd (or_introl eq_refl) Hc) as (l & -> & Hok). by rewrite (near_dir_at t t').
Qed.
Lemma running_ok t : layout t → target_ok (running t).
Proof.
  intros Hl. rewrite running_eq by done. destruct (t !! CURRENT) as [nd|] eqn:Hc; [|done].
  destruct (proj2 Hl CURRENT nd (or_introl eq_refl) Hc) as (l & -> & Hok). case_match; [by apply resolve_ok|done].
Qed.
Lemma running_resolved t : layout t → resolve_loc (running t) = running t.
Proof.
  intros Hl. assert (resolve_loc (Out factory_app) = Out factory_app) as Hf by (cbn; by rewrite factory_real).
  rewrite running_eq by done. repeat (case_match; try done); apply resolve_idem.
Qed.
(** The running application is always there. *)
Lemma running_is_dir t : layout t → dir_at t (running t) = true.
Proof.
  intros Hl. assert (dir_at t (Out factory_app) = true) as Hf by (cbn; apply factory_dir).
  rewrite running_eq by done. by repeat (case_match; try done).
Qed.

(** *** How changes of one entry show *)

Lemma layout_delete t n : layout t → layout (delete n t).
Proof.
  intros [Hl Hc]. split; [intros m l [_ Hm]%lookup_delete_Some; by eapply Hl|].
  intros m nd Hm [_ Hx]%lookup_delete_Some. by eapply Hc.
Qed.
Lemma layout_insert_dir t n : ¬ is_link_name n → layout t → layout (<[n := NDir]> t).
Proof.
  intros Hn [Hl Hc]. split; [intros m l [[_ [=]]|[_ Hm]]%lookup_insert_Some; by eapply Hl|].
  intros m nd Hm [[<- _]|[_ Hx]]%lookup_insert_Some; [done|]. by eapply Hc.
Qed.
Lemma layout_insert_link t n l : is_link_name n → target_ok l → layout t → layout (<[n := NLink l]> t).
Proof.
  intros Hn Hok [Hl Hc]. split.
  - intros m l' [[<- _]|[_ Hm]]%lookup_insert_Some; [by apply link_name_semver|by eapply Hl].
  - intros m nd Hm [[_ <-]|[_ Hx]]%lookup_insert_Some; [eauto|by eapply Hc].
Qed.
Lemma semver_not_link v : is_semver v = true → ¬ is_link_name v.
Proof. intros Hv Hn%link_name_semver. by destruct Hn; congruence. Qed.

(** A change that leaves [current] and the directory it names. *)
Lemma running_frame t t' : layout t → layout t' → t' !! CURRENT = t !! CURRENT →
  (∀ v, t !! CURRENT = Some (NLink (Rel v)) → is_semver v = true → bool_decide (t' !! v = Some NDir) = bool_decide (t !! v = Some NDir)) →
  running t' = running t ∧ dangles t' = dangles t.
Proof.
  intros Hl Hl' Hc Hv. rewrite !running_eq by done. unfold dangles. rewrite Hc.
  destruct (t !! CURRENT) as [nd|] eqn:Hx; [|done].
  destruct (proj2 Hl CURRENT nd (or_introl eq_refl) Hx) as ([v|p] & -> & Hok); cbn; [|done]. by rewrite (Hv v).
Qed.
Lemma running_delete t n : layout t → n ≠ CURRENT → t !! CURRENT ≠ Some (NLink (Rel n)) →
  running (delete n t) = running t ∧ dangles (delete n t) = dangles t.
Proof.
  intros Hl Hn Hne. apply running_frame; [done|by apply layout_delete|by rewrite lookup_delete_ne|].
  intros v Hv _. by rewrite lookup_delete_ne by congruence.
Qed.
Lemma running_insert t n nd : layout t → layout (<[n := nd]> t) → n ≠ CURRENT → t !! CURRENT ≠ Some (NLink (Rel n)) →
  running (<[n := nd]> t) = running t ∧ dangles (<[n := nd]> t) = dangles t.
Proof.
  intros Hl Hl' Hn Hne. apply running_frame; [done|done|by rewrite lookup_insert_ne|].
  intros v Hv _. by rewrite lookup_insert_ne by congruence.
Qed.
Lemma running_set t l : layout t → target_ok l → dir_at t (resolve_loc l) = true →
  running (<[CURRENT := NLink l]> t) = resolve_loc l ∧ dangles (<[CURRENT := NLink l]> t) = false.
Proof.
  intros Hl Hok Hd. assert (layout (<[CURRENT := NLink l]> t)) as Hl' by (apply layout_insert_link; [by left|done|done]).
  rewrite running_eq by done. unfold dangles. rewrite lookup_insert_eq.
  assert (dir_at (<[CURRENT := NLink l]> t) (resolve_loc l) = true) as ->; [|done].
  destruct l as [v|p]; [|done]. cbn in *. rewrite lookup_insert_ne; [done|]. intros <-. rewrite semver_current in Hok. done.
Qed.
(** A directory that [current] names can not be missing unless it dangles. *)
Lemma not_dangling t n : dangles t = false → t !! n ≠ Some NDir → t !! CURRENT ≠ Some (NLink (Rel n)).
Proof. unfold dangles. intros Hd Hn Hc. rewrite Hc in Hd. cbn in Hd. rewrite bool_decide_false in Hd by done. done. Qed.
Lemma not_current_target t n : layout t → is_semver n = false → t !! CURRENT ≠ Some (NLink (Rel n)).
Proof. intros [_ Hc] Hn Hx. destruct (Hc CURRENT _ (or_introl eq_refl) Hx) as (l & [= <-] & Hok). cbn in Hok. congruence. Qed.
End Views.

(** ** The operations *)

Section Ops.
Context `{UnicodeDB} (factory_app : pystr) (out_real : pystr → pystr) (out_isdir : pystr → bool)
  (io : nat → option pystr) (pid : Z) `{Hout : !OutsideOk factory_app out_real out_isdir}.
Abbreviation running := (_current_target factory_app out_real out_isdir).
Abbreviation dir_at := (dir_at out_isdir).
Abbreviation resolve_loc := (resolve_loc out_real).

Lemma wp_op (f : dir → dir) (I : dir → Prop) (Q : pystr + unit → releases → Prop) w :
  (∀ e w', io (rel_ops w) = Some e → rel_tree w' = rel_tree w → keeps w w' → Q (inl e) w') →
  (∀ w', io (rel_ops w) = None → rel_tree w' = f (rel_tree w) → keeps w w' → Q (inr tt) w') →
  (io (rel_ops w) = None → I (f (rel_tree w))) →
  wp (op io f) I Q w.
Proof.
  intros He Hs HI. unfold wp, op. cbn [pred rel_ops]. unfold constant. cbn.
  destruct (io (rel_ops w)) as [e|] eqn:Hio; cbn.
  - split; [exists []; by rewrite app_nil_r|]. by apply He.
  - split; [|by apply Hs]. eexists. split; [reflexivity|]. apply Forall_singleton. by apply HI.
Qed.

(** Deleting an entry, a failure being ignored. *)
Lemma wp_remove_file (n : pystr) (I : dir → Prop) (Q : pystr + unit → releases → Prop) w :
  (∀ w', rel_tree w' = rel_tree w → keeps w w' → Q (inr tt) w') →
  (∀ w', rel_tree w' = delete n (rel_tree w) → keeps w w' → Q (inr tt) w') →
  I (delete n (rel_tree w)) →
  wp (_remove_file io n) I Q w.
Proof.
  intros H1 H2 HI. apply wp_catch, wp_bind, wp_read. cbn [id].
  destruct (rel_tree w !! n) as [[| |l]|].
  2,3: apply wp_op; [intros e w' _ Hw Hk; by apply wp_ret, H1|intros w' _ Hw Hk; by apply H2|done].
  1,2: by apply wp_fail, wp_ret, H1.
Qed.
Lemma wp_rmtree (n : pystr) (I : dir → Prop) (Q : pystr + unit → releases → Prop) w :
  (∀ w' e, (io (rel_ops w) = Some e ∨ rel_tree w !! n ≠ Some NDir) → rel_tree w' = rel_tree w → keeps w w' → Q (inr tt) w') →
  (∀ w', rel_tree w !! n = Some NDir → rel_tree w' = delete n (rel_tree w) → keeps w w' → Q (inr tt) w') →
  (rel_tree w !! n = Some NDir → I (delete n (rel_tree w))) →
  wp (rmtree io n) I Q w.
Proof.
  intros H1 H2 HI. apply wp_bind, wp_read. cbn [id]. case_bool_decide as Hd; [|apply wp_ret, (H1 w []); auto with buddy].
  apply wp_catch, wp_op; [intros e w' He Hw Hk; apply wp_ret, (H1 w' e); auto|intros w' _ Hw Hk; by apply H2|by intros; apply HI].
Qed.

Lemma wp_makedirs (I : dir → Prop) (Q : pystr + unit → releases → Prop) w :
  (∀ e w', io (rel_ops w) = Some e → rel_tree w' = rel_tree w → rel_bad w' = rel_bad w → Q (inl e) w') →
  (∀ w', rel_tree w' = rel_tree w → rel_bad w' = rel_bad w → rel_present w' = true → Q (inr tt) w') →
  I (rel_tree w) → wp (makedirs io) I Q w.
Proof.
  intros HQe HQ HI.
  assert (wp (op io (λ t, t)) I (λ r w', match r with inl e => Q (inl e) w'
    | inr _ => rel_tree w' = rel_tree w ∧ rel_bad w' = rel_bad w end) w) as [H1 H2].
  { apply wp_op; [|by intros w' _ Hw [_ Hb]|by intros _]. intros e w' He Hw [_ Hb]. by apply HQe. }
  unfold wp, makedirs. destruct (rel_present w) eqn:Hp; [split; [apply passed_refl|by apply HQ]|].
  destruct (op io (λ t, t) w) as [[e|[]] w'] eqn:Ho; cbn in *; [done|].
  split; [destruct H1 as (new & Hn & Hf); by exists new|]. destruct H2 as [Hw Hb]. by apply HQ.
Qed.

(** A file operation fails, or an entry is in the way. *)
Definition fails : Prop := ∃ n e, io n = Some e.
Definition blocked (link : pystr) (t : dir) : Prop :=
  fails ∨ is_Some (t !! tmp_name pid link) ∨ t !! link = Some NDir.
(** The link is replaced, or the directory is as it was, up to temporary links. *)
Lemma wp_atomic_symlink (target : loc) (link : pystr) (I : dir → Prop) (Q : pystr + unit → releases → Prop) w :
  is_link_name link →
  (∀ t t', near t t' → I t → I t') → I (rel_tree w) → I (<[link := NLink target]> (rel_tree w)) →
  (∀ e w', blocked link (rel_tree w) → near (rel_tree w) (rel_tree w') → rel_bad w' = rel_bad w → Q (inl e) w') →
  (∀ w', near (<[link := NLink target]> (rel_tree w)) (rel_tree w') → rel_bad w' = rel_bad w → rel_present w' = true →
     rel_tree w' !! tmp_name pid link = None → Q (inr tt) w') →
  wp (_atomic_symlink io pid target link) I Q w.
Proof.
  intros Hln Hcl HI0 HI1 HQe HQ.
  assert (is_tmp (tmp_name pid link) = true) as Htmp by (destruct Hln as [->| ->]; [apply tmp_current|apply tmp_previous]).
  set (tmp := tmp_name pid link) in *.
  assert (∀ t, near (rel_tree w) t → near (rel_tree w) (delete tmp t)) as Hdel
    by (intros t Ht; etrans; [done|by apply near_tmp_delete]).
  apply wp_bind.
  assert (∀ w1, rel_tree w1 = rel_tree w → rel_bad w1 = rel_bad w → rel_present w1 = true →
    wp (catch (_ ← symlink io target tmp; replace_link io tmp target link)
              (λ e, _ ← _remove_file io tmp; (λ w, (inl e, w)) : FS unit)) I Q w1) as Hbody.
  { intros w1 Ht1 Hb1 Hp1. apply wp_catch.
    assert (∀ e w', blocked link (rel_tree w) → near (rel_tree w) (rel_tree w') → rel_bad w' = rel_bad w →
      wp (_ ← _remove_file io tmp; (λ w, (inl e, w)) : FS unit) I Q w') as Hfail.
    { intros e w' Hbl Hn Hb. apply wp_bind, wp_remove_file.
      - intros w2 Hw2 [_ Hb2]. apply wp_fail, HQe; [done|by rewrite Hw2|congruence].
      - intros w2 Hw2 [_ Hb2]. apply wp_fail, HQe; [done|rewrite Hw2; by apply Hdel|congruence].
      - eapply Hcl; [|exact HI0]. by apply Hdel. }
    apply wp_bind, wp_bind, wp_read. cbn [id].
    rewrite Ht1. destruct (rel_tree w !! tmp) eqn:Hx; [apply wp_fail, Hfail; [right; left; eexists; exact Hx|by rewrite Ht1|done]|].
    apply wp_op; rewrite ?Ht1.
    - intros e w' He Hw' [_ Hb']. apply Hfail; [left; by exists (rel_ops w1), e|by rewrite Hw'|congruence].
    - intros w' _ Hw' [Hp' Hb']. apply wp_bind, wp_read. cbn [id].
      assert (near (rel_tree w) (rel_tree w')) as Hn by (rewrite Hw'; by apply near_tmp_insert).
      case_bool_decide as Hdl; [apply wp_fail, Hfail; [right; right|done|congruence]|].
      { rewrite Hn in Hdl by by apply link_name_semver. done. }
      assert (near (<[link := NLink target]> (rel_tree w)) (<[link := NLink target]> (delete tmp (rel_tree w')))) as Hn2
        by (apply near_insert; by apply Hdel).
      apply wp_op.
      + intros e w2 He Hw2 [_ Hb2]. apply Hfail; [left; by exists (rel_ops w'), e|by rewrite Hw2|congruence].
      + intros w2 _ Hw2 [Hp2 Hb2]. apply HQ; [by rewrite Hw2|congruence|congruence|].
        rewrite Hw2, lookup_insert_ne; [apply lookup_delete_eq|]. intros He. apply link_name_semver in Hln as []. rewrite He in *. congruence.
      + intros _. by eapply Hcl.
    - intros _. eapply Hcl; [by apply near_tmp_insert|done]. }
  apply wp_makedirs; [|intros; by apply Hbody|done].
  intros e w' He Hw Hb. apply HQe; [left; by exists (rel_ops w), e|by rewrite Hw|done].
Qed.

(** *** The switch *)

Definition serving (l : loc) (t : dir) : Prop := layout t ∧ running t = l ∧ dangles out_real out_isdir t = false.
Definition between (old new : loc) (t : dir) : Prop := serving old t ∨ serving new t.
Lemma near_serving l t t' : near t t' → serving l t → serving l t'.
Proof.
  intros Hn (Hl & Hr & Hd). split; [by eapply near_layout|].
  by rewrite (near_running factory_app out_real out_isdir t t'), (near_dangles out_real out_isdir t t').
Qed.
Lemma serving_between old new t : serving old t ∨ serving new t → between old new t.
Proof. done. Qed.
Lemma near_between old new t t' : near t t' → between old new t → between old new t'.
Proof. intros Hn [?|?]; [left|right]; by eapply near_serving. Qed.

Lemma serving_rename l t staging version :
  serving l t → is_semver version = true → t !! version = None → is_semver staging = false → ¬ is_link_name staging →
  serving l (<[version := NDir]> (delete staging t)).
Proof.
  intros (Hl & Hr & Hd) Hv Hnone Hs Hsl. assert (layout (delete staging t)) as Hl1 by by apply layout_delete.
  assert (layout (<[version := NDir]> (delete staging t))) as Hl2 by (apply layout_insert_dir; [by apply semver_not_link|done]).
  destruct (running_delete factory_app out_real out_isdir t staging Hl) as [Hr1 Hd1].
  { intros ->. apply Hsl. by left. }
  { by apply not_current_target. }
  destruct (running_insert factory_app out_real out_isdir (delete staging t) version NDir Hl1 Hl2) as [Hr2 Hd2].
  { intros ->. rewrite semver_current in Hv. done. }
  { eapply not_dangling; [by rewrite Hd1|]. rewrite lookup_delete_ne by congruence. by rewrite Hnone. }
  split_and!; [done|congruence|congruence].
Qed.
Lemma serving_previous l t prev : serving l t → target_ok prev → serving l (<[PREVIOUS := NLink prev]> t).
Proof.
  intros (Hl & Hr & Hd) Hok. assert (layout (<[PREVIOUS := NLink prev]> t)) as Hl2 by (apply layout_insert_link; [by right|done|done]).
  destruct (running_insert factory_app out_real out_isdir t PREVIOUS (NLink prev) Hl Hl2) as [Hr2 Hd2]; [done| |].
  { apply not_current_target; [done|]. apply semver_previous. }
  split_and!; [done|congruence|congruence].
Qed.
Lemma serving_current l t target :
  serving l t → target_ok target → dir_at t (resolve_loc target) = true →
  serving (resolve_loc target) (<[CURRENT := NLink target]> t).
Proof.
  intros (Hl & Hr & Hd) Hok Hdir. split; [apply layout_insert_link; [by left|done|done]|].
  by apply running_set.
Qed.
Lemma serving_delete l t n : serving l t → n ≠ CURRENT → l ≠ Rel n → serving l (delete n t).
Proof.
  intros (Hl & Hr & Hd) Hn Hne. assert (t !! CURRENT ≠ Some (NLink (Rel n))) as Hc.
  { intros Hc. unfold dangles in Hd. rewrite running_eq, Hc in Hr by done. rewrite Hc in Hd. apply negb_false_iff in Hd.
    rewrite Hd in Hr. cbn in Hr. congruence. }
  destruct (running_delete factory_app out_real out_isdir t n Hl Hn Hc) as [Hr2 Hd2].
  split_and!; [by apply layout_delete|congruence|congruence].
Qed.

Lemma wp_drop_version (old : loc) (version e : pystr) (t : dir) w (reason : string) (Q : pystr + (bool * pystr) → releases → Prop) :
  serving old t → near t (rel_tree w) → old ≠ Rel version → is_semver version = true →
  (∀ x w', serving old (rel_tree w') → rel_bad w' = rel_bad w → Q (inr (false, x)) w') →
  wp (_ ← rmtree io version; mret (false, failure reason e)) (between old (Rel version)) Q w.
Proof.
  intros Hs0 Hn Hne Hv HQ. pose proof (near_serving _ _ _ Hn Hs0) as Hs.
  assert (serving old (delete version (rel_tree w))) as Hd
    by (apply serving_delete; [done| |done]; intros ->; by rewrite semver_current in Hv).
  apply wp_bind, wp_rmtree; [| |intros _; by left].
  - intros w' _ _ Hw [_ Hb]. apply wp_ret, HQ; [by rewrite Hw|done].
  - intros w' _ Hw [_ Hb]. apply wp_ret, HQ; [by rewrite Hw|done].
Qed.

Lemma wp_switch (out_exists : pystr → bool) (old : loc) (staging version : pystr) w :
  serving old (rel_tree w) → rel_tree w !! staging = Some NDir → is_staging staging = true →
  wp (switch_release factory_app out_real out_isdir out_exists io pid staging version) (between old (Rel version))
     (λ r w', rel_bad w' = rel_bad w ∧
        ((∃ reason, r = inr (false, reason)) ∧ serving old (rel_tree w') ∨
         (∃ reason, r = inr (true, reason)) ∧ is_semver version = true ∧ serving (Rel version) (rel_tree w') ∧
         rel_tree w' !! PREVIOUS = Some (NLink old) ∧ rel_tree w' !! staging = None ∧
         rel_tree w' !! tmp_name pid CURRENT = None ∧ dir_at (rel_tree w') old = true)) w.
Proof.
  intros Hs Hst (Hss & Hts & Hc1 & Hc2)%staging_name.
  assert (¬ is_link_name staging) as Hsl by by intros [?|?].
  unfold switch_release. destruct (is_semver version) eqn:Hv; cbn [negb]; [|apply wp_ret; eauto].
  apply wp_bind, wp_read. cbn [id]. destruct (exists_ _ _ _ _) eqn:Hex; [apply wp_ret; eauto|].
  apply wp_attempt, wp_bind, wp_read. cbn [id]. rewrite bool_decide_false by by rewrite Hst.
  apply wp_op; [intros e w1 _ Hw1 [_ Hb1]; apply wp_ret; rewrite Hw1; eauto| |intros _; apply serving_between; auto].
  intros w1 _ Hw1 [_ Hb1]. apply wp_bind, wp_read.
  assert (running (rel_tree w1) = old) as -> by (rewrite Hw1; apply Hs).
  apply wp_attempt, wp_bind, wp_read. cbn [id]. rewrite Hw1, Hst.
  destruct (rel_tree w !! version) eqn:Hvn; [apply wp_fail, wp_ret; rewrite ?Hw1, Hb1; eauto|].
  assert (old ≠ Rel version) as Hne.
  { destruct Hs as (Hl & Hr & _). intros ->. pose proof (running_is_dir factory_app out_real out_isdir _ Hl) as Hd.
    rewrite Hr in Hd. cbn in Hd. rewrite Hvn in Hd. done. }
  assert (target_ok old) as Hok by (destruct Hs as (Hl & <- & _); by apply running_ok).
  pose proof (serving_rename _ _ _ _ Hs Hv Hvn Hss Hsl) as Hs2.
  set (t2 := <[version:=NDir]> (delete staging (rel_tree w))) in *.
  apply wp_op; rewrite ?Hw1; [intros e w2 _ Hw2 [_ Hb2]; apply wp_ret; rewrite Hw2, Hb2, Hb1, ?Hw1; eauto| |intros _; apply serving_between; auto].
  intros w2 _ Hw2 [_ Hb2]. fold t2 in Hw2. rewrite <-Hw2 in Hs2.
  apply wp_attempt, wp_atomic_symlink; [by right|apply near_between|apply serving_between; auto|apply serving_between; left; by apply serving_previous| |].
  { intros e w3 _ Hn3 Hb3. eapply wp_drop_version; [exact Hs2|done|done|done|]. intros x w' Hs' Hb'. split; [congruence|eauto]. }
  intros w3 Hn3 Hb3 _ _. pose proof (near_serving _ _ _ Hn3 (serving_previous _ _ _ Hs2 Hok)) as Hs3.
  assert (rel_tree w3 !! version = Some NDir) as Hv3.
  { rewrite Hn3 by by apply semver_plain. rewrite lookup_insert_ne by (intros <-; by rewrite semver_previous in Hv).
    rewrite Hw2. apply lookup_insert_eq. }
  assert (serving (Rel version) (<[CURRENT := NLink (Rel version)]> (rel_tree w3))) as Hs4.
  { apply (serving_current old); [done|done|]. cbn. by rewrite bool_decide_true. }
  apply wp_attempt, wp_atomic_symlink; [by left|apply near_between|apply serving_between; auto|apply serving_between; auto| |].
  { intros e w4 _ Hn4 Hb4. eapply wp_drop_version; [exact Hs3|done|done|done|]. intros x w' Hs' Hb'. split; [congruence|eauto]. }
  intros w4 Hn4 Hb4 _ Ht4. apply wp_ret. split; [congruence|right]. split; [eauto|]. split; [done|].
  split; [by eapply near_serving|].
  split_and!; [| |done|].
  - rewrite Hn4, lookup_insert_ne, Hn3, lookup_insert_eq by done. done.
  - rewrite Hn4, lookup_insert_ne, Hn3, lookup_insert_ne, Hw2 by done. unfold t2.
    rewrite lookup_insert_ne by congruence. apply lookup_delete_eq.
  - pose proof (running_is_dir factory_app out_real out_isdir _ (proj1 Hs3)) as Hd. rewrite (proj1 (proj2 Hs3)) in Hd.
    destruct old as [v|q]; [|done]. cbn in *. rewrite Hn4, lookup_insert_ne; [done| |by apply semver_plain].
    intros <-. by rewrite semver_current in Hok.
Qed.

(** *** The roll-back *)

Lemma wp_rollback (cur old : loc) w :
  serving cur (rel_tree w) → rel_tree w !! PREVIOUS = Some (NLink old) → resolve_loc old = old → dir_at (rel_tree w) old = true →
  rel_tree w !! tmp_name pid CURRENT = None →
  wp (_rollback out_real out_isdir io pid) (between cur old)
     (λ r w', rel_bad w' = rel_bad w ∧
        (r = inr true ∧ serving old (rel_tree w') ∨ r = inr false ∧ serving cur (rel_tree w') ∧ fails)) w.
Proof.
  intros Hs Hp Hr Hd Ht. assert (target_ok old) as Hok.
  { destruct (proj2 (proj1 Hs) PREVIOUS _ (or_intror eq_refl) Hp) as (l & [= <-] & Hok). done. }
  assert (serving old (<[CURRENT := NLink old]> (rel_tree w))) as Hs2
    by (rewrite <-Hr at 1; eapply serving_current; [done|done|by rewrite Hr]).
  apply wp_bind, wp_read. cbn [id]. rewrite Hp. rewrite isdir_target, Hr, Hd by (done || apply Hs).
  apply wp_attempt, wp_atomic_symlink; [by left|apply near_between|apply serving_between; auto|apply serving_between; auto| |].
  - intros e w1 Hb Hn Hb1. apply wp_ret. split; [done|right]. split; [done|]. split; [by eapply near_serving|].
    destruct Hb as [Hf|[[x Hx]|Hx]]; [done|congruence|].
    destruct (proj2 (proj1 Hs) CURRENT _ (or_introl eq_refl) Hx) as (l & [=] & _).
  - intros w1 Hn Hb _ _. apply wp_ret. split; [done|left]. split; [done|]. by eapply near_serving.
Qed.

(** *** Removing several directories *)

Definition pruned (names : list pystr) (t t' : dir) : Prop :=
  ∀ n, t' !! n = t !! n ∨ n ∈ names ∧ t !! n = Some NDir ∧ t' !! n = None.
Lemma pruned_delete names n t : n ∈ names → t !! n = Some NDir → pruned names t (delete n t).
Proof.
  intros Hn Ht m. destruct (decide (m = n)) as [->|Hne]; [right; by rewrite lookup_delete_eq|left; by apply lookup_delete_ne].
Qed.
Lemma pruned_trans names t1 t2 t3 : pruned names t1 t2 → pruned names t2 t3 → pruned names t1 t3.
Proof. intros H1 H2 n. destruct (H1 n), (H2 n); naive_solver congruence. Qed.
Lemma pruned_weaken names names' t t' : names ⊆ names' → pruned names t t' → pruned names' t t'.
Proof. intros Hs Hp n. destruct (Hp n) as [|(? & ? & ?)]; [by left|right]. eauto. Qed.

Lemma wp_remove_all (names : list pystr) (I : dir → Prop) (Q : pystr + unit → releases → Prop) w :
  (∀ t', pruned names (rel_tree w) t' → I t') →
  (∀ w', pruned names (rel_tree w) (rel_tree w') → keeps w w' →
     (¬ fails → ∀ n, n ∈ names → rel_tree w' !! n ≠ Some NDir) → Q (inr tt) w') →
  wp (remove_all io names) I Q w.
Proof.
  revert w Q. induction names as [|n names IH]; intros w Q HI HQ.
  { apply wp_ret, HQ; [by intros n; left|done|]. intros _ n Hn. by apply elem_of_nil in Hn. }
  assert (∀ w1, pruned (n :: names) (rel_tree w) (rel_tree w1) → keeps w w1 →
    (¬ fails → rel_tree w1 !! n ≠ Some NDir) → wp (remove_all io names) I Q w1) as Hrest.
  { intros w1 Hp1 Hk1 Hn1. apply IH.
    - intros t' Hp. apply HI. eapply pruned_trans; [done|]. eapply pruned_weaken; [|done]. set_solver.
    - intros w' Hp Hk Hno. apply HQ.
      + eapply pruned_trans; [done|]. eapply pruned_weaken; [|done]. set_solver.
      + by eapply keeps_trans.
      + intros Hf m [->|Hm]%elem_of_cons; [|by apply Hno]. destruct (Hp n) as [->|(_ & _ & ->)]; [by apply Hn1|done]. }
  cbn [remove_all foldr]. apply wp_bind, wp_rmtree.
  - intros w' e He Hw Hk. apply Hrest; [rewrite Hw; by intros m; left|done|]. intros Hf. rewrite Hw.
    destruct He as [He|He]; [|done]. exfalso. apply Hf. by exists (rel_ops w), e.
  - intros w' Hd Hw Hk. apply Hrest; [rewrite Hw; apply pruned_delete; [left|done]|done|].
    intros _. rewrite Hw, lookup_delete_eq. done.
  - intros Hd. apply HI, pruned_delete; [left|done].
Qed.

Lemma layout_pruned names t t' : layout t → pruned names t t' → layout t'.
Proof.
  intros [Hl Hc] Hp. split.
  - intros n l Hn. destruct (Hp n) as [He|(_ & _ & He)]; rewrite He in Hn; [by eapply Hl|done].
  - intros n nd Hln Hn. destruct (Hp n) as [He|(_ & _ & He)]; rewrite He in Hn; [by eapply Hc|done].
Qed.
Lemma pruned_link names t t' n : layout t → pruned names t t' → is_link_name n → t' !! n = t !! n.
Proof.
  intros Hl Hp Hn. destruct (Hp n) as [|(_ & Hd & _)]; [done|]. by destruct (proj2 Hl n _ Hn Hd) as (l & [=] & _).
Qed.
(** The names spare the directory that a link names. *)
Definition spares (names : list pystr) (t : dir) (link : pystr) : Prop :=
  ∀ v, t !! link = Some (NLink (Rel v)) → t !! v = Some NDir → v ∉ names.
Lemma pruned_target names t t' link v :
  pruned names t t' → spares names t link → t !! link = Some (NLink (Rel v)) →
  bool_decide (t' !! v = Some NDir) = bool_decide (t !! v = Some NDir).
Proof. intros Hp Hs Hl. destruct (Hp v) as [->|(Hv & Hd & _)]; [done|]. by apply Hs in Hd. Qed.
Lemma running_pruned names t t' : layout t → pruned names t t' → spares names t CURRENT →
  layout t' ∧ running t' = running t ∧ dangles out_real out_isdir t' = dangles out_real out_isdir t.
Proof.
  intros Hl Hp Hs. pose proof (layout_pruned names t t' Hl Hp) as Hl'. split; [done|].
  apply (running_frame factory_app out_real out_isdir); [done|done|eapply pruned_link; [done|done|by left]|].
  intros v Hv _. by eapply pruned_target.
Qed.
Abbreviation symlink_version := (_symlink_version out_real out_isdir).
Lemma symlink_version_pruned names t t' n : layout t → pruned names t t' → is_link_name n → spares names t n →
  symlink_version t' n = symlink_version t n.
Proof.
  intros Hl Hp Hn Hs. rewrite !(symlink_version_eq factory_app) by eauto using layout_pruned.
  rewrite (pruned_link names t t' n) by done. destruct (t !! n) as [nd|] eqn:Hx; [|done].
  destruct (proj2 Hl n nd Hn Hx) as ([v|q] & -> & Hok); [|done]. cbn. by rewrite (pruned_target names t t' n v).
Qed.
Lemma symlink_version_named t n v : layout t → is_link_name n → t !! n = Some (NLink (Rel v)) → t !! v = Some NDir →
  symlink_version t n = v ∧ is_semver v = true.
Proof.
  intros Hl Hn Hx Hd. destruct (proj2 Hl n _ Hn Hx) as (l & [= <-] & Hok). rewrite (symlink_version_eq factory_app), Hx by done.
  cbn in *. by rewrite bool_decide_true, Hok.
Qed.

(** *** Recovery *)

Lemma version_dirs_iff t v : v ∈ _version_dirs t ↔ is_semver v = true ∧ t !! v = Some NDir.
Proof.
  unfold _version_dirs. rewrite list_elem_of_In, filter_In, <-list_elem_of_In, !andb_true_iff, bool_decide_eq_true.
  split; [naive_solver|]. intros [Hv Hd]. split; [|split_and!; try done; by apply semver_plain].
  apply list_elem_of_fmap. exists (v, NDir). split; [done|]. by apply elem_of_map_to_list.
Qed.
Lemma newest_from best vs : Forall (λ v, v ≠ []) vs →
  let r := foldl (λ best v, if bool_decide (best = []) || is_newer (VStr v) (VStr best) then v else best) best vs in
  (r = best ∨ r ∈ vs) ∧ (best ≠ [] ∨ vs ≠ [] → r ≠ []).
Proof.
  revert best. induction vs as [|v vs IH]; intros best Hf; cbn [foldl]; [naive_solver|].
  apply Forall_cons in Hf as [Hv Hf]. destruct (IH (if bool_decide (best = []) || is_newer (VStr v) (VStr best) then v else best) Hf) as [H1 H2].
  split; [destruct H1 as [->|H1]; [case_match; [right; left|by left]|right; by right]|]. intros _. apply H2. left. case_bool_decide as Hb; cbn [orb]; [done|]. by destruct (is_newer _ _).
Qed.
Lemma newest_in t : let n := _newest_version (_version_dirs t) in
  n = [] ∧ _version_dirs t = [] ∨ n ≠ [] ∧ n ∈ _version_dirs t.
Proof.
  assert (Forall (λ v, v ≠ []) (_version_dirs t)) as Hf.
  { apply Forall_forall. intros v [Hv _]%version_dirs_iff. by apply semver_not_nil. }
  destruct (newest_from [] _ Hf) as [H1 H2]. unfold _newest_version.
  destruct (_version_dirs t) as [|v vs] eqn:Hd; [by left|right]. split; [by apply H2; right|].
  destruct H1 as [H1|]; [|done]. by destruct H2; [right|].
Qed.

(** No staging directory is left, and every release is named by a link. *)
Definition tidy (t : dir) : Prop :=
  (∀ n, is_staging n = true → t !! n ≠ Some NDir) ∧
  (∀ v, is_semver v = true → t !! v = Some NDir → v = symlink_version t CURRENT ∨ v = symlink_version t PREVIOUS).
Definition repaired (t : dir) : loc :=
  match _newest_version (_version_dirs t) with [] => Out factory_app | v => Rel v end.

Abbreviation referenced := (referenced out_real out_isdir).
Abbreviation dangles := (dangles out_real out_isdir).

Lemma listdir_iff t n : n ∈ listdir t ↔ is_Some (t !! n).
Proof.
  unfold listdir. rewrite list_elem_of_fmap. split; [intros ([m nd] & -> & Hm); apply elem_of_map_to_list in Hm; eauto|].
  intros [nd Hn]. exists (n, nd). split; [done|]. by apply elem_of_map_to_list.
Qed.
Lemma stale_staging_iff t n : n ∈ stale_staging t ↔ is_staging n = true ∧ t !! n = Some NDir.
Proof.
  unfold stale_staging. rewrite list_elem_of_In, filter_In, <-list_elem_of_In, listdir_iff, andb_true_iff, bool_decide_eq_true.
  split; [naive_solver|]. intros [? Hn]. rewrite Hn. eauto.
Qed.
Lemma orphans_iff refs t n : n ∈ orphans refs t ↔ (n ∉ refs) ∧ is_semver n = true ∧ t !! n = Some NDir.
Proof.
  unfold orphans. rewrite list_elem_of_In, filter_In, <-list_elem_of_In, version_dirs_iff, negb_true_iff, bool_decide_eq_false.
  naive_solver.
Qed.
Lemma referenced_iff t v : v ∈ referenced t ↔
  v ≠ [] ∧ (v = symlink_version t CURRENT ∨ v = symlink_version t PREVIOUS ∨ v = repair_version out_real out_isdir t).
Proof.
  unfold Releases.referenced. rewrite list_elem_of_In, filter_In, <-list_elem_of_In, !elem_of_cons, elem_of_nil, negb_true_iff, bool_decide_eq_false.
  naive_solver.
Qed.
Lemma repair_version_eq t : layout t →
  repair_version out_real out_isdir t = (if dangles t then _newest_version (_version_dirs t) else []).
Proof. intros Hl. unfold repair_version, dangling. by rewrite (dangles_eq factory_app) by done. Qed.

Lemma referenced_semver t v : v ∈ referenced t → is_semver v = true.
Proof.
  intros [Hne Hv]%referenced_iff. unfold _symlink_version, repair_version in Hv.
  destruct Hv as [Hv|[Hv|Hv]]; [repeat case_match; congruence..|].
  destruct (dangling _ _ t); [|done]. destruct (newest_in t) as [[? _]|[_ Hin]]; [congruence|].
  rewrite <-Hv in Hin. by apply version_dirs_iff in Hin as [? _].
Qed.

(** What recovery removes spares the directories that the links name. *)
Definition doomed (t : dir) (n : pystr) : Prop := is_staging n = true ∨ is_semver n = true ∧ n ∉ referenced t.
Lemma doomed_spares t names link : layout t → is_link_name link → Forall (doomed t) names → spares names t link.
Proof.
  intros Hl Hn Hf v Hv Hd Hin. rewrite Forall_forall in Hf.
  destruct (symlink_version_named t link v Hl Hn Hv Hd) as [Hs Hsem].
  destruct (Hf v Hin) as [Hst|[_ Hr]]; [by apply staging_name in Hst as [? _]; congruence|]. apply Hr, referenced_iff.
  split; [by apply semver_not_nil|]. destruct Hn as [->| ->]; auto.
Qed.
Lemma staging_doomed t : Forall (doomed t) (stale_staging t).
Proof. apply Forall_forall. intros n [Hn _]%stale_staging_iff. by left. Qed.
Lemma orphans_doomed t t1 : Forall (doomed t) (orphans (referenced t) t1).
Proof. apply Forall_forall. intros n (Hn & Hs & _)%orphans_iff. right. auto. Qed.

(** The directory after the removals. *)
Definition swept (t t2 : dir) : Prop := ∃ names, Forall (doomed t) names ∧ pruned names t t2.
Lemma swept_keeps t t2 : layout t → swept t t2 →
  layout t2 ∧ running t2 = running t ∧ dangles t2 = dangles t ∧ symlink_version t2 CURRENT = symlink_version t CURRENT ∧
  symlink_version t2 PREVIOUS = symlink_version t PREVIOUS ∧ (∀ v, v ∈ referenced t → t2 !! v = t !! v) ∧
  (∀ n, t2 !! n = t !! n ∨ t2 !! n = None).
Proof.
  intros Hl (names & Hd & Hp).
  assert (∀ n, is_link_name n → spares names t n) as Hs by (intros n Hn; by apply doomed_spares).
  destruct (running_pruned names t t2 Hl Hp (Hs CURRENT (or_introl eq_refl))) as (Hl2 & Hr & Hdg).
  split_and!; try done.
  - eapply symlink_version_pruned; [done|done|by left|]. apply Hs. by left.
  - eapply symlink_version_pruned; [done|done|by right|]. apply Hs. by right.
  - intros v Hv. destruct (Hp v) as [|(Hin & _ & _)]; [done|]. rewrite Forall_forall in Hd.
    destruct (Hd v Hin) as [Hst|[_ ?]]; [|done]. apply referenced_semver in Hv. apply staging_name in Hst as [? _]. congruence.
  - intros n. destruct (Hp n) as [|(_ & _ & ?)]; auto.
Qed.
Definition sound_step (t t' : dir) : Prop :=
  layout t' ∧ (running t' = running t ∨ dangles t = true ∧ running t' = repaired t).
Lemma swept_sound t t' : layout t → swept t t' → sound_step t t'.
Proof. intros Hl Hs. destruct (swept_keeps t t' Hl Hs) as (? & ? & _). split; auto. Qed.
Lemma swept_app t names1 names2 t1 t2 :
  Forall (doomed t) names1 → Forall (doomed t) names2 → pruned names1 t t1 → pruned names2 t1 t2 → swept t t2.
Proof.
  intros H1 H2 Hp1 Hp2. exists (names1 ++ names2). split; [by apply Forall_app|].
  eapply pruned_trans; (eapply pruned_weaken; [|done]); set_solver.
Qed.
(** No staging directory, and no release that was not referenced. *)
Definition swept_clean (t t2 : dir) : Prop :=
  (∀ n, is_staging n = true → t2 !! n ≠ Some NDir) ∧
  (∀ v, is_semver v = true → t2 !! v = Some NDir → v ∈ referenced t).
Lemma wp_sweep {A} (w : releases) (Q : pystr + A → releases → Prop) (K : list pystr → FS A) :
  let t := rel_tree w in
  layout t →
  (∀ w2 gone, swept t (rel_tree w2) → (¬ fails → swept_clean t (rel_tree w2)) → keeps w w2 → wp (K gone) (sound_step t) Q w2) →
  wp (_ ← remove_all io (stale_staging t);
      t1 ← read id; _ ← remove_all io (orphans (referenced t) t1); K (orphans (referenced t) t1)) (sound_step t) Q w.
Proof.
  intros t Hl HK. pose proof (staging_doomed t) as Hst. apply wp_bind, wp_remove_all.
  { intros t' Hp. apply swept_sound; [done|]. by exists (stale_staging t). }
  intros w1 Hp1 Hk1 Hc1. apply wp_bind, wp_read, wp_bind, wp_remove_all; cbn [id].
  { intros t' Hp. apply swept_sound; [done|]. eapply swept_app; [exact Hst|apply orphans_doomed|done|done]. }
  intros w2 Hp2 Hk2 Hc2. apply HK; [by eapply swept_app; [exact Hst|apply orphans_doomed|done|done]| |by eapply keeps_trans].
  intros Hf. split.
  - intros n Hn Hd. destruct (Hp2 n) as [He|(_ & _ & He)]; rewrite He in Hd; [|done].
    destruct (decide (n ∈ stale_staging t)) as [Hin|Hni]; [by apply (Hc1 Hf n)|]. apply Hni, stale_staging_iff.
    split; [done|]. destruct (Hp1 n) as [He1|(_ & ? & _)]; [by rewrite He1 in Hd|done].
  - intros v Hv Hd. destruct (decide (v ∈ referenced t)) as [|Hni]; [done|]. exfalso. apply (Hc2 Hf v); [|done].
    apply orphans_iff. split_and!; [done|done|]. destruct (Hp2 v) as [He|(_ & ? & _)]; [by rewrite He in Hd|done].
Qed.
Lemma symlink_version_cong t t' n : layout t → layout t' → is_link_name n → t' !! n = t !! n →
  (∀ v, is_semver v = true → t' !! v = t !! v) → symlink_version t' n = symlink_version t n.
Proof.
  intros Hl Hl' Hn He Hv. rewrite !(symlink_version_eq factory_app), He by done.
  destruct (t !! n) as [nd|] eqn:Hx; [|done]. destruct (proj2 Hl n nd Hn Hx) as ([v|q] & -> & Hok); [|done].
  cbn in *. by rewrite Hv.
Qed.
Lemma tidy_of_clean t t' : layout t → layout t' → dangles t = false → swept t t' → swept_clean t t' → tidy t'.
Proof.
  intros Hl Hl' Hd Hs [Hc1 Hc2]. split; [done|]. intros v Hv Hdir.
  destruct (swept_keeps t t' Hl Hs) as (_ & _ & _ & -> & -> & _).
  apply Hc2, referenced_iff in Hdir as [Hne Hr]; [|done]. rewrite repair_version_eq, Hd in Hr by done.
  destruct Hr as [|[|]]; auto. congruence.
Qed.

Lemma repaired_spec t t2 : layout t → dangles t = true → swept t t2 →
  target_ok (repaired t) ∧ resolve_loc (repaired t) = repaired t ∧ dir_at t2 (repaired t) = true.
Proof.
  intros Hl Hd Hs. unfold repaired. destruct (newest_in t) as [[-> _]|[Hne Hin]].
  - cbn. rewrite factory_real. split_and!; [done|done|apply factory_dir].
  - apply version_dirs_iff in Hin as [Hsem Hdir]. destruct (_newest_version (_version_dirs t)) as [|c r] eqn:Hn; [done|].
    split_and!; [done|done|]. destruct (swept_keeps t t2 Hl Hs) as (_ & _ & _ & _ & _ & Hk & _). cbn.
    rewrite Hk, Hdir; [done|]. apply referenced_iff. split; [done|]. right; right. by rewrite repair_version_eq, Hd.
Qed.
Lemma repaired_tidy t t2 t' : layout t → dangles t = true → swept t t2 → swept_clean t t2 →
  near (<[CURRENT := NLink (repaired t)]> t2) t' → tidy t' ∧ serving (repaired t) t'.
Proof.
  intros Hl Hd Hs [Hc1 Hc2] Hn. destruct (repaired_spec t t2 Hl Hd Hs) as (Hok & Hres & Hdir).
  destruct (swept_keeps t t2 Hl Hs) as (Hl2 & _ & _ & Hsc & Hsp & _).
  assert (layout (<[CURRENT := NLink (repaired t)]> t2)) as Hl3 by (apply layout_insert_link; [by left|done|done]).
  pose proof (near_layout _ _ Hn Hl3) as Hl'.
  assert (∀ v, is_semver v = true → t' !! v = t2 !! v) as Hv.
  { intros v Hv. rewrite Hn by by apply semver_plain. rewrite lookup_insert_ne; [done|]. intros <-. by rewrite semver_current in Hv. }
  assert (serving (repaired t) t') as Hserv.
  { eapply near_serving; [done|]. split; [done|]. 
    pose proof (running_set factory_app out_real out_isdir t2 (repaired t) Hl2 Hok) as Hrs. rewrite Hres in Hrs. by apply Hrs. }
  split; [|done]. split.
  - intros n Hst. destruct (staging_name n Hst) as (_ & Ht & Hnc & _). rewrite Hn, lookup_insert_ne by done. by apply Hc1.
  - intros v Hsem Hvd. rewrite Hv in Hvd by done. pose proof (Hc2 v Hsem Hvd) as [Hne Hr]%referenced_iff.
    destruct Hr as [Hr|[Hr|Hr]].
    + exfalso. rewrite (symlink_version_eq factory_app) in Hr by (done || by left). unfold Releases.dangles in Hd.
      destruct (t !! CURRENT) as [[| |l]|]; try done. apply negb_true_iff in Hd. rewrite Hd in Hr. done.
    + right. rewrite Hr, <-Hsp. symmetry. apply symlink_version_cong; try done; [by right|]. by rewrite Hn, lookup_insert_ne.
    + left. rewrite repair_version_eq, Hd in Hr by done. symmetry.
      apply symlink_version_named; [done|by left| |by rewrite Hv]. rewrite Hn, lookup_insert_eq by done.
      unfold repaired. rewrite <-Hr. by destruct v.
Qed.
Abbreviation recover := (recover_interrupted factory_app out_real out_isdir io pid).
(** What recovery promises: nothing is worse at any step; without failures and leftovers of
    this process, the directory is tidy and [current] is as good as it can be. *)
Definition recovered (w : releases) (w' : releases) (rep : RecoveryReport) : Prop :=
  let t := rel_tree w in let t' := rel_tree w' in
  layout t' ∧ rel_bad w' = rel_bad w ∧
  (dangles t = false → serving (running t) t' ∧ current_repaired rep = false) ∧
  (¬ fails → (dangles t = true → t !! tmp_name pid CURRENT = None) →
     tidy t' ∧ serving (if dangles t then repaired t else running t) t').
Lemma wp_repair w w2 :
  layout (rel_tree w) → dangles (rel_tree w) = true → swept (rel_tree w) (rel_tree w2) → (¬ fails → swept_clean (rel_tree w) (rel_tree w2)) → keeps w w2 →
  wp (repair io pid (Some (repaired (rel_tree w)))) (sound_step (rel_tree w))
     (λ r w', ∃ b l, r = inr (b, l) ∧ ∀ rep, current_repaired rep = b → recovered w w' rep) w2.
Proof.
  intros Hl Hd Hs Hc [Hk1 Hk2]. destruct (repaired_spec (rel_tree w) _ Hl Hd Hs) as (Hok & Hres & Hdir).
  destruct (swept_keeps (rel_tree w) _ Hl Hs) as (Hl2 & Hr2 & Hd2 & _ & _ & _ & Hsub).
  assert (running (rel_tree w) = Out factory_app) as Hrf.
  { rewrite running_eq by done. unfold Releases.dangles in Hd. destruct ((rel_tree w) !! CURRENT) as [[| |l]|]; try done.
    apply negb_true_iff in Hd. by rewrite Hd. }
  apply wp_attempt, wp_atomic_symlink.
  - by left.
  - intros t1 t1' Hn [Hl1 Hr1]. split; [by eapply near_layout|]. by rewrite (near_running factory_app out_real out_isdir t1 t1').
  - by apply swept_sound.
  - split; [apply layout_insert_link; [by left|done|done]|]. right. split; [done|].
    destruct (running_set factory_app out_real out_isdir (rel_tree w2) (repaired (rel_tree w))) as [-> _]; try done. by rewrite Hres.
  - intros e w3 Hb Hn Hbad. apply wp_ret. exists false, None. split; [done|]. intros rep Hrep.
    split; [by eapply near_layout|].
    split; [congruence|]. split; [by intros Hd'%(eq_trans (eq_sym Hd))|]. intros Hf Ht. exfalso. destruct Hb as [?|[[nd Hx]|Hx]]; [done| |].
    + specialize (Ht Hd). destruct (Hsub (tmp_name pid CURRENT)) as [He|He]; rewrite He in Hx; congruence.
    + by destruct (proj2 Hl2 CURRENT _ (or_introl eq_refl) Hx) as (l & [=] & _).
  - intros w3 Hn Hbad _ _. apply wp_ret. exists true, (Some (repaired (rel_tree w))). split; [done|]. intros rep Hrep.
    split; [eapply near_layout; [done|]; apply layout_insert_link; [by left|done|done]|].
    split; [congruence|]. split; [by intros Hd'%(eq_trans (eq_sym Hd))|]. intros Hf _. rewrite Hd. by eapply repaired_tidy; [..|apply Hc|].
Qed.
Lemma wp_recover w : layout (rel_tree w) → rel_present w = true →
  wp recover (sound_step (rel_tree w)) (λ r w', ∃ rep, r = inr rep ∧ recovered w w' rep) w.
Proof.
  intros Hl Hp. assert (recover w = _recover_interrupted factory_app out_real out_isdir io pid (rel_tree w) w) as He
    by (unfold recover_interrupted; by rewrite Hp).
  unfold wp. rewrite He. change (wp (_recover_interrupted factory_app out_real out_isdir io pid (rel_tree w))
    (sound_step (rel_tree w)) (λ r w', ∃ rep, r = inr rep ∧ recovered w w' rep) w).
  apply (wp_sweep w _ (recover_link factory_app out_real out_isdir io pid (rel_tree w))); [done|].
  intros w2 gone Hs Hc Hk. unfold recover_link. destruct (swept_keeps _ _ Hl Hs) as (Hl2 & Hr2 & Hd2 & _).
  unfold dangling. rewrite (dangles_eq factory_app) by done. destruct (dangles (rel_tree w)) eqn:Hd.
  - assert ((if negb (bool_decide (repair_version out_real out_isdir (rel_tree w) = []))
       then Some (Rel (repair_version out_real out_isdir (rel_tree w)))
       else if isdir out_real out_isdir (rel_tree w) (Out factory_app) then Some (Out factory_app) else None) =
       Some (repaired (rel_tree w))) as ->.
    { rewrite repair_version_eq, Hd, isdir_target by done. cbn. rewrite factory_real, factory_dir. unfold repaired.
      destruct (_newest_version _); [done|]. by rewrite bool_decide_false. }
    apply wp_bind. eapply wp_mono; [by apply wp_repair|done|]. intros r w' (b & l & -> & Hrec). apply wp_ret.
    eexists. split; [reflexivity|]. by apply Hrec.
  - apply wp_bind, wp_ret, wp_ret. eexists. split; [reflexivity|].
    split; [done|]. split; [apply Hk|]. split; [intros _; split; [by split; [|split; [|congruence]]|done]|].
    intros Hf Ht. rewrite Hd. split; [by apply (tidy_of_clean (rel_tree w)); [..|apply Hc]|]. split; [done|]. by split; [|congruence].
Qed.
(** A tidy directory is left as it is. *)
Lemma recover_tidy w : layout (rel_tree w) → tidy (rel_tree w) → dangles (rel_tree w) = false → recover w = (inr no_report, w).
Proof.
  intros Hl [Ht1 Ht2] Hd. unfold recover_interrupted. destruct (rel_present w); cbn [negb]; [|done].
  unfold _recover_interrupted.
  assert (stale_staging (rel_tree w) = []) as Hst.
  { apply elem_of_nil_inv. intros n [Hn Hx]%stale_staging_iff. by eapply Ht1. }
  assert (orphans (referenced (rel_tree w)) (rel_tree w) = []) as Ho.
  { apply elem_of_nil_inv. intros n (Hr & Hn & Hx)%orphans_iff. apply Hr, referenced_iff.
    split; [by apply semver_not_nil|]. destruct (Ht2 n Hn Hx); auto. }
  unfold recover_link, dangling. rewrite (dangles_eq factory_app), Hd by done.
  rewrite Hst. unfold mbind, fs_bind, read, mret, fs_ret, remove_all. cbn [foldr id]. unfold mret, fs_ret. rewrite Ho. done.
Qed.
(** *** Pruning and marking *)

Lemma serving_pruned l names t t' : serving l t → pruned names t t' → spares names t CURRENT → serving l t'.
Proof. intros (Hl & <- & Hd) Hp Hs. destruct (running_pruned names t t' Hl Hp Hs) as (? & ? & ?). split_and!; congruence. Qed.
Lemma wp_prune (protected : list pystr) (l : loc) w : serving l (rel_tree w) →
  wp (default_prune out_real out_isdir io protected)
     (serving l)
     (λ r w', (∃ old, r = inr old) ∧ serving l (rel_tree w') ∧ rel_bad w' = rel_bad w ∧
        ∀ v, rel_tree w !! PREVIOUS = Some (NLink (Rel v)) → rel_tree w !! v = Some NDir → rel_tree w' !! v = Some NDir) w.
Proof.
  intros Hs. pose proof (proj1 Hs) as Hl. apply wp_bind, wp_read. cbn [id].
  match goal with |- context [remove_all _ ?o] => set (old := o) end.
  assert (∀ n, is_link_name n → spares old (rel_tree w) n) as Hsp.
  { intros n Hn v Hv Hd Hin. destruct (proj2 Hl n _ Hn Hv) as (l' & [= <-] & Hok). cbn in Hok.
    unfold old in Hin. rewrite list_elem_of_In, filter_In, <-list_elem_of_In, !andb_true_iff, negb_true_iff, bool_decide_eq_false in Hin.
    destruct Hin as (_ & ((Hni & _) & _) & _). apply Hni. rewrite !elem_of_app.
    destruct Hn as [->| ->]; right; [left|right].
    - unfold _active_version. rewrite (realpath_link out_real _ _ _ Hl (or_introl eq_refl) Hv). cbn [Releases.resolve_loc basename].
      rewrite Hok, bool_decide_false by by apply semver_not_nil. left.
    - rewrite (realpath_link out_real _ _ _ Hl (or_intror eq_refl) Hv). cbn [Releases.resolve_loc basename].
      unfold isdir. rewrite realpath_target by done. cbn [Releases.resolve_loc]. rewrite bool_decide_true by done. left. }
  assert (∀ t', pruned old (rel_tree w) t' → serving l t') as Hp
    by (intros t' Hp; eapply serving_pruned; [done|done|]; apply Hsp; by left).
  apply wp_bind, wp_remove_all; [done|]. intros w' Hpr [_ Hb] _. apply wp_ret. split_and!; [eauto|by apply Hp|done|].
  intros v Hv Hd. pose proof (pruned_target old _ _ PREVIOUS v Hpr (Hsp _ (or_intror eq_refl)) Hv) as He.
  rewrite (bool_decide_true (rel_tree w !! v = Some NDir)) in He by done. by apply bool_decide_eq_true in He.
Qed.

Lemma serving_insert_dir l t n : serving l t → is_semver n = false → ¬ is_link_name n → serving l (<[n := NDir]> t).
Proof.
  intros (Hl & Hr & Hd) Hn Hln. assert (layout (<[n := NDir]> t)) as Hl' by by apply layout_insert_dir.
  destruct (running_insert factory_app out_real out_isdir t n NDir Hl Hl') as [H1 H2].
  - intros ->. apply Hln. by left.
  - by apply not_current_target.
  - split_and!; congruence.
Qed.
Lemma wp_add_mark (file : pystr) (I : dir → Prop) (Q : pystr + unit → releases → Prop) w :
  I (rel_tree w) → (∀ e w', fails → rel_tree w' = rel_tree w → Q (inl e) w') →
  (∀ w', rel_tree w' = rel_tree w → rel_bad w' = {[file]} ∪ rel_bad w → Q (inr tt) w') →
  wp (add_mark io file) I Q w.
Proof.
  intros HI HQe HQ. assert (wp (op io (λ t, t)) I (λ r w', match r with inl e => Q (inl e) w'
    | inr _ => rel_tree w' = rel_tree w ∧ rel_bad w' = rel_bad w end) w) as [H1 H2].
  { apply wp_op; [|by intros w' _ Hw [_ Hb]|by intros _]. intros e w' He Hw _. apply HQe; [by exists (rel_ops w), e|done]. }
  unfold wp, add_mark. destruct (op io (λ t, t) w) as [[e|[]] w'] eqn:Ho; cbn in *; [done|].
  destruct H2 as [Hw Hb]. split; [destruct H1 as (new & Hn & Hf); by exists new|]. apply HQ; [done|]. cbn. unfold constant. by rewrite Hb.
Qed.
Lemma wp_record_bad (version : pystr) (l : loc) w : serving l (rel_tree w) →
  wp (record_bad_release out_real out_isdir io version) (serving l)
     (λ r w', serving l (rel_tree w') ∧ (r = inr true ∧ (version ++ u ".json") ∈ rel_bad w' ∨
        r = inr false ∧ (fails ∨ ∃ nd, rel_tree w' !! BAD_RELEASES_DIRNAME = Some nd ∧ nd ≠ NDir))) w.
Proof.
  intros Hs. match goal with |- wp _ _ ?P _ => set (Q := P) end.
  assert (is_semver BAD_RELEASES_DIRNAME = false ∧ ¬ is_link_name BAD_RELEASES_DIRNAME) as [Hb1 Hb2].
  { split; [apply not_true_iff_false; by intros (c & r & [= <- _] & Hc)%semver_first|]. by intros [|]. }
  assert (∀ w', rel_tree w' = rel_tree w ∨ rel_tree w' = <[BAD_RELEASES_DIRNAME := NDir]> (rel_tree w) → serving l (rel_tree w')) as Hsv.
  { intros w' [->| ->]; [done|by apply serving_insert_dir]. }
  apply wp_attempt, wp_bind, wp_makedirs; [|intros w1 Hw1 _ _|done].
  { intros e w1 He Hw1 _. apply wp_ret. split; [by rewrite Hw1|right]. split; [done|]. left. by exists (rel_ops w), e. }
  assert (∀ w2, rel_tree w2 = rel_tree w ∨ rel_tree w2 = <[BAD_RELEASES_DIRNAME := NDir]> (rel_tree w) →
    wp (add_mark io (version ++ u ".json")) (serving l) (λ r w', match r with
      | inr _ => wp (mret true) (serving l) Q w' | inl e => wp (mret false) (serving l) Q w' end) w2) as Hmark.
  { intros w2 Hw2. apply wp_add_mark; [by apply Hsv| |].
    - intros e w3 Hf Hw3. apply wp_ret. split; [rewrite Hw3; by apply Hsv|right]. auto.
    - intros w3 Hw3 Hb3. apply wp_ret. split; [rewrite Hw3; by apply Hsv|left]. split; [done|]. rewrite Hb3. set_solver. }
  apply wp_bind. unfold make_bad_dir. apply wp_bind, wp_read. cbn [id]. rewrite Hw1.
  destruct (rel_tree w !! BAD_RELEASES_DIRNAME) as [nd|] eqn:Hx.
  - destruct (isdir _ _ _ _) eqn:Hd; [apply wp_ret, Hmark; by left|]. apply wp_fail, wp_ret. split; [by rewrite Hw1|right].
    split; [done|right]. exists nd. split; [by rewrite Hw1|]. intros ->. unfold isdir, realpath in Hd. cbn [realpath_from] in Hd.
    rewrite Hx in Hd. cbn in Hd. rewrite bool_decide_true in Hd by done. done.
  - apply wp_op.
    + intros e w2 He Hw2 _. apply wp_ret. split; [by rewrite Hw2, Hw1|right]. split; [done|]. left. by exists (rel_ops w1), e.
    + intros w2 _ Hw2 _. apply Hmark. right. by rewrite Hw2, Hw1.
    + intros _. rewrite Hw1. by apply serving_insert_dir.
Qed.
End Ops.

(** Whatever an interrupted update left, recovery without file errors leaves no staging
    directory and no release that no link names, repairs a dangling [current] to the newest
    release or the factory application, and does not change what runs otherwise; a second
    run finds nothing to do.  With file errors, what runs is at every step what ran before
    or that repair. *)
Theorem recover_heals `{UnicodeDB} factory_app out_real out_isdir io pid `{!OutsideOk factory_app out_real out_isdir} w :
  layout (rel_tree w) → rel_present w = true →
  let running := _current_target factory_app out_real out_isdir in
  let dangling := dangles out_real out_isdir (rel_tree w) in
  let '(r, w') := recover_interrupted factory_app out_real out_isdir io pid w in
  passed (λ t, layout t ∧ (running t = running (rel_tree w) ∨ dangling = true ∧ running t = repaired factory_app (rel_tree w))) w w' ∧
  (∃ rep, r = inr rep) ∧
  ((∀ n, io n = None) → (dangling = true → rel_tree w !! tmp_name pid CURRENT = None) →
     tidy out_real out_isdir (rel_tree w') ∧
     dangles out_real out_isdir (rel_tree w') = false ∧
     running (rel_tree w') = (if dangling then repaired factory_app (rel_tree w) else running (rel_tree w)) ∧
     recover_interrupted factory_app out_real out_isdir io pid w' = (inr no_report, w')).
Proof.
  intros Hl Hp running dangling. destruct (wp_recover factory_app out_real out_isdir io pid w Hl Hp) as [H1 (rep & H2 & Hrec)].
  destruct (recover_interrupted _ _ _ _ _ w) as [r w'] eqn:Hr. cbn [fst snd] in *. subst r.
  split; [done|]. split; [eauto|]. intros Hio Htmp. destruct Hrec as (Hl' & _ & _ & Hok).
  destruct Hok as (Ht & _ & Hrun & Hd); [intros (n & e & He); by rewrite Hio in He|done|].
  split_and!; [done|done|done|by apply recover_tidy].
Qed.
