(* ===== verification/UpdaterInstall.v ===== *)
(** [app/updater_install.py], second part: the availability check, the installation as a
    sequence of calls on the releases of [Releases], the health check, and the roll-back.
    The callables that the command line binds to the network, [pip], [systemctl] and the
    release's own code are answers of an oracle that sees all that happened before; they
    act inside the staging directory only, which is their contract.  Times are seconds. *)
From S2P Require Import Prelude Crash PyValue PyText Sessions MediaLibrary Redact Updater Releases.
From Stdlib Require Import SpecFloat.

Definition CHECK_INTERVAL_SECONDS := 24 * 60 * 60.
Definition HEALTH_TIMEOUT_SECONDS := 90.
Definition HEALTH_POLL_SECONDS := 5.
Definition MAX_HEALTH_ATTEMPTS : nat := 200.
Definition FREE_SPACE_HEADROOM_BYTES := 64 * 1024 * 1024.
Definition EXTRACTED_EXPANSION_FACTOR := 4.
Definition VENV_ALLOWANCE_BYTES := 256 * 1024 * 1024.
Definition BUNDLE_FILENAME : pystr := u "bundle.tar.zst".

(** ** Reasons and effects *)

Definition _sanitize (reason : pyval) : pystr := match reason with VStr s => sanitize s | _ => [] end.
Definition _redact (reason : pyval) (secrets : list pystr) : pystr :=
  take MAX_REASON_LENGTH (foldl (λ text secret, replace_all secret REDACTED text) (_sanitize reason) secrets).

(** What a callable does: raise, return a pair or another tuple (with the truth of its
    first element, if it has one), nothing, or a value. *)
Inductive outcome :=
  | Raised (name : pystr) | Pair (ok : bool) (v : pyval) | Tuple (first : option bool) | Nothing | Scalar (b : bool).
Definition _effect (o : outcome) : bool * pyval :=
  match o with
  | Raised name => (false, VStr name)
  | Pair ok v => (ok, v)
  | Tuple first => (bool_decide (is_Some first), VStr [])
  | Nothing => (true, VStr [])
  | Scalar b => (b, VStr [])
  end.
Definition _health_ok (o : outcome) : bool :=
  match o with
  | Raised _ | Nothing => false
  | Pair ok _ => ok
  | Tuple first => default false first
  | Scalar b => b
  end.
Definition or_text (v : pyval) (text : string) : pyval := if truthy v then v else VStr (u text).

Definition _valid_bundle_size (n : Z) : bool := (0 <? n) && (n <=? MAX_BUNDLE_SIZE).
Definition required_free_space (bundle_size : Z) : Z :=
  bundle_size * EXTRACTED_EXPANSION_FACTOR + VENV_ALLOWANCE_BYTES + FREE_SPACE_HEADROOM_BYTES.

(** ** The availability check *)

Inductive check_outcome := CHECK_AVAILABLE | CHECK_UP_TO_DATE | CHECK_INVALID | CHECK_ERROR | CHECK_SUPPRESSED.
#[export] Instance check_outcome_eq_dec : EqDecision check_outcome.
Proof. solve_decision. Defined.
Record CheckResult := {
  ck_checked : bool; ck_outcome : check_outcome; ck_manifest : option Manifest; ck_reason : pystr; ck_next : Z;
}.
(** The clock, the offset that the random source draws (none without one, an exception),
    the fetched payload, the verification if there is one, and whether the time of the
    check can be stored. *)
Record check_io := {
  k_now : Z; k_rng : option (res Z); k_fetch : outcome; k_verify : option outcome; k_stores : bool;
}.
Definition _jittered_interval (rng : option (res Z)) : Z :=
  match rng with
  | Some (Ret offset) =>
      Z.min (Z.max (CHECK_INTERVAL_SECONDS + offset) (CHECK_INTERVAL_SECONDS / 2)) (CHECK_INTERVAL_SECONDS + CHECK_INTERVAL_SECONDS / 2)
  | _ => CHECK_INTERVAL_SECONDS
  end.

Section Check.
Context `{UnicodeDB} (json_loads : pystr → res pyval) (netloc_ok : pystr → bool).

Definition _is_bad_version (m : Manifest) (bad : list pystr) : bool := bool_decide (version m ∈ bad).
Definition _write_last_check (k : check_io) (last : option Z) : option Z := if k_stores k then Some (k_now k) else last.
(** [last] is the stored time of the last check, [None] when there is none. *)
Definition check_for_update (k : check_io) (current_version current_image_version : pystr) (force : bool)
    (bad : list pystr) (force_reinstall : bool) (last : option Z) : CheckResult * option Z :=
  let now := k_now k in
  let interval := _jittered_interval (k_rng k) in
  let result out m reason next := {| ck_checked := true; ck_outcome := out; ck_manifest := m; ck_reason := reason; ck_next := next |} in
  let due := match last with Some l => force || negb (now - l <? interval) | None => true end in
  if negb due then
    ({| ck_checked := false; ck_outcome := CHECK_UP_TO_DATE; ck_manifest := None; ck_reason := u "update check is not due yet";
        ck_next := default 0 last + interval |}, last)
  else
    let '(fetched, payload) := _effect (k_fetch k) in
    if negb fetched then
      (result CHECK_ERROR None (_redact (or_text payload "could not fetch the update manifest") []) now, last)
    else
      let '(verified, reason) := match k_verify k with Some o => _effect o | None => (true, VStr []) end in
      let stored := _write_last_check k last in
      if negb verified then
        (result CHECK_INVALID None (_redact (or_text reason "manifest signature verification failed") []) (now + interval), stored)
      else match parse_manifest json_loads netloc_ok payload [] [] with
           | Refused why => (result CHECK_INVALID None (_redact (or_text (VStr why) "manifest is invalid") []) (now + interval), stored)
           | Escaped _ => (result CHECK_INVALID None (u "manifest is invalid") (now + interval), stored)
           | Valid m =>
               if negb force_reinstall && _is_bad_version m bad then
                 (result CHECK_SUPPRESSED (Some m) (u "release is marked bad; reinstall requires an explicit force") (now + interval), stored)
               else
                 let '(ok, verdict, reason) := classify_manifest m current_version current_image_version in
                 if (ok : bool) then (result CHECK_AVAILABLE (Some m) [] (now + interval), stored)
                 else (result (match verdict with OUTCOME_UP_TO_DATE => CHECK_UP_TO_DATE | _ => CHECK_INVALID end) (Some m)
                         (_redact (or_text (VStr reason) "manifest is not installable") []) (now + interval), stored)
           end.
End Check.

(** ** The installation *)

Inductive call :=
  | CDownload | CVerifyManifest | CVerifyBundle (path : pystr) | CExtract (path : pystr) | CStop | CVenv | CPreflight | CSwitch
  | CRestart (version : pystr) | CHealth | CSleep (delay : Z) | CRecordBad (version : pystr) | CPrune (protected : list pystr).
#[export] Instance call_eq_dec : EqDecision call.
Proof. solve_decision. Defined.

Inductive install_outcome := INSTALL_INSTALLED | INSTALL_ROLLED_BACK | INSTALL_FAILED.
#[export] Instance install_outcome_eq_dec : EqDecision install_outcome.
Proof. solve_decision. Defined.
Record InstallResult := {
  in_ok : bool; in_outcome : install_outcome; in_installed : pystr; in_attempted : pystr; in_reboot : bool; in_reason : pystr;
}.

(** The releases, every call so far with its success, and the two flags of the [finally] block. *)
Record run := { r_disk : releases; r_calls : list (call * bool); r_quiesced : bool; r_activated : bool }.

(** A step goes on or returns early. *)
Definition Step (A : Type) : Type := run → (InstallResult + A) * run.
#[export] Instance step_ret : MRet Step := λ A a w, (inr a, w).
#[export] Instance step_bind : MBind Step := λ A B f m w,
  match m w with (inr a, w') => f a w' | (inl r, w') => (inl r, w') end.

Section Install.
Context `{UnicodeDB} (factory_app : pystr) (out_real : pystr → pystr) (out_isdir out_exists : pystr → bool)
  (io : nat → option pystr) (pid : Z) (releases_dir : pystr).
(** The callables, the free space (none when it can not be told), the downloaded file's
    kind and size, the clock, and whether [sleep] returns. *)
Context (ext : call → run → outcome) (free_space : run → option Z)
  (isfile : run → pystr → bool) (getsize : run → pystr → option Z) (clock : run → Z) (sleeps : run → bool).

Definition log (c : call) (ok : bool) (w : run) : run := w{{r_calls := r_calls w ++ [(c, ok)] }}.
Definition effect (c : call) : Step (bool * pyval) := λ w,
  let '(ok, v) := _effect (ext c w) in (inr (ok, v), log c ok w).
Definition on_disk {A} (m : FS A) (w : run) : (pystr + A) * run :=
  let '(r, d) := m (r_disk w) in (r, w{{r_disk := d}}).
Definition active_version (w : run) : pystr := _active_version out_real (rel_tree (r_disk w)).

Section Run.
Context (secrets : list pystr) (m : Manifest).

Definition _failed (attempted : pystr) (reason : pyval) (w : run) : InstallResult :=
  {| in_ok := false; in_outcome := INSTALL_FAILED; in_installed := active_version w; in_attempted := attempted;
     in_reboot := false; in_reason := _redact reason secrets |}.
Definition fail {A} (reason : pyval) : Step A := λ w, (inl (_failed (version m) reason w), w).
Definition require (c : call) (text : string) : Step pyval :=
  r ← effect c; if (r.1 : bool) then mret r.2 else fail (or_text r.2 text).

Fixpoint poll_health (attempts : nat) (deadline : Z) (w : run) : bool * run :=
  match attempts with
  | O => (false, w)
  | S attempts =>
      let ok := _health_ok (ext CHealth w) in
      let w := log CHealth ok w in
      if ok then (true, w)
      else
        let now := clock w in
        if deadline <=? now then (false, w)
        else
          let delay := Z.min HEALTH_POLL_SECONDS (deadline - now) in
          if delay <=? 0 then (false, w)
          else
            let slept := sleeps w in
            let w := log (CSleep delay) slept w in
            if negb slept then (false, w) else poll_health attempts deadline w
  end.
Definition _wait_for_health (w : run) : bool * run := poll_health MAX_HEALTH_ATTEMPTS (clock w + HEALTH_TIMEOUT_SECONDS) w.

Definition run_switch (staging : pystr) : Step (bool * pyval) := λ w,
  match on_disk (switch_release factory_app out_real out_isdir out_exists io pid staging (version m)) w with
  | (inr (ok, reason), w) => (inr (ok, VStr reason), log CSwitch ok w)
  | (inl e, w) => (inr (false, VStr e), log CSwitch false w)
  end.
Definition _roll_back (reason : pyval) : Step InstallResult := λ w,
  let '(_, w) := on_disk (_rollback out_real out_isdir io pid) w in
  let restored := active_version w in
  let '(_, w) := effect (CRestart (match restored with [] => version m | v => v end)) w in
  let '(marked, w) := on_disk (record_bad_release out_real out_isdir io (version m)) w in
  let w := log (CRecordBad (version m)) (match marked with inr b => b | inl _ => false end) w in
  (inr {| in_ok := false; in_outcome := INSTALL_ROLLED_BACK; in_installed := restored; in_attempted := version m;
          in_reboot := false; in_reason := _redact reason secrets |}, w).
Definition run_prune (previous_version : pystr) : Step unit := λ w,
  let protected := List.filter (λ v, negb (bool_decide (v = []))) [version m; previous_version] in
  let '(r, w) := on_disk (default_prune out_real out_isdir io protected) w in
  (inr tt, log (CPrune protected) (match r with inr l => negb (bool_decide (l = [])) | inl _ => false end) w).

(** After the switch. *)
Definition restart_and_check (previous_version : pystr) : Step InstallResult :=
  r ← effect (CRestart (version m));
  if negb r.1 then _roll_back (or_text r.2 "service restart failed; restored the previous release")
  else λ w,
    let '(healthy, w) := _wait_for_health w in
    if negb healthy then _roll_back (VStr (u "health checks failed; restored the previous release")) w
    else (_ ← run_prune previous_version;
          mret {| in_ok := true; in_outcome := INSTALL_INSTALLED; in_installed := version m; in_attempted := version m;
                  in_reboot := reboot_required m; in_reason := [] |}) w.
Definition quiesce (has_stop : bool) : Step unit :=
  if negb has_stop then mret tt
  else
    _ ← (λ w, (inr tt, w{{r_quiesced := true}}));
    _ ← require CStop "could not quiesce the camera runtime"; mret tt.
Definition guard (b : bool) (text : string) : Step unit := if b then mret tt else fail (VStr (u text)).
Definition staged (has_stop : bool) (staging : pystr) : Step InstallResult := λ w,
  match free_space w with
  | None => fail (VStr (u "could not determine free space")) w
  | Some free =>
      (_ ← guard (required_free_space (bundle_size m) <=? free) "insufficient free space";
       value ← require CDownload "bundle download failed";
       let bundle := match value with VStr ((_ :: _) as s) => s | _ => path_join (path_join releases_dir staging) BUNDLE_FILENAME end in
       _ ← (λ w, guard (isfile w bundle) "downloaded bundle is missing" w);
       _ ← require CVerifyManifest "manifest signature verification failed";
       _ ← require (CVerifyBundle bundle) "bundle signature verification failed";
       _ ← (λ w, match getsize w bundle with
                 | None => fail (VStr (u "bundle could not be read")) w
                 | Some n => guard (n =? bundle_size m) "bundle size mismatch" w
                 end);
       _ ← require (CExtract bundle) "bundle extraction failed";
       _ ← quiesce has_stop;
       _ ← require CVenv "release venv build failed";
       _ ← require CPreflight "release preflight failed";
       previous_version ← (λ w, (inr (active_version w), w));
       r ← run_switch staging;
       if negb r.1 then fail (or_text r.2 "release activation failed")
       else
         _ ← (λ w, (inr tt, w{{r_activated := true}}));
         restart_and_check previous_version) w
  end.
(** The [finally] block. *)
Definition finally (staging : pystr) (w : run) : run :=
  let w := if r_quiesced w && negb (r_activated w)
           then (effect (CRestart (match active_version w with [] => version m | v => v end)) w).2 else w in
  if exists_ out_real out_exists (rel_tree (r_disk w)) (Rel staging) then (on_disk (rmtree io staging) w).2 else w.

Definition mkdtemp (name : pystr) : FS unit :=
  t ← read id;
  match t !! name with Some _ => fs_raise "FileExistsError" | None => op io (insert name NDir) end.
Definition with_staging (has_stop : bool) (suffix : pystr) (w : run) : InstallResult * run :=
  let staging := [46] ++ version m ++ u ".staging." ++ suffix in
  match on_disk (_ ← makedirs io; mkdtemp staging) w with
  | (inl e, w) => (_failed (version m) (VStr (failure "could not create the staging directory" e)) w, w)
  | (inr _, w) =>
      let '(r, w) := staged has_stop staging w in
      (match r with inl r => r | inr r => r end, finally staging w)
  end.
(** [suffix] is what [mkdtemp] draws. *)
Definition install_update (has_stop force_reinstall : bool) (current_version current_image_version suffix : pystr) (w : run)
    : InstallResult * run :=
  if negb (is_semver (version m)) then (_failed [] (VStr (u "manifest is invalid")) w, w)
  else if negb (_is_sha256 (bundle_sha256 m)) || negb (_valid_bundle_size (bundle_size m))
  then (_failed (version m) (VStr (u "manifest is invalid")) w, w)
  else if negb force_reinstall && bool_decide (version m ∈ read_bad_versions (r_disk w))
  then (_failed (version m) (VStr (u "release is marked bad; reinstall requires an explicit force")) w, w)
  else
    let installed := match current_version with [] => active_version w | v => v end in
    let '(ok, _, reason) := classify_manifest m installed current_image_version in
    if negb ok then (_failed (version m) (or_text (VStr reason) "manifest is not installable") w, w)
    else with_staging has_stop suffix w.
End Run.
End Install.

Definition fresh_run (d : releases) : run := {| r_disk := d; r_calls := []; r_quiesced := false; r_activated := false |}.

(** ** The command line *)

(** The update state that Home Assistant reads. *)
Definition _bounded_text (v : pyval) (limit : Z) : pystr :=
  match v with VStr s => take (Z.to_nat limit) (strip (blank_controls false s)) | _ => [] end.
(** [round2] is [round(x, 2)]. *)
Definition _percentage `{UnicodeDB} (round2 : spec_float → spec_float) (v : pyval) (in_progress : bool) : res pyval :=
  if negb in_progress then Ret VNone
  else match v with
       | VInt z =>
           if 2 ^ 1024 - 2 ^ 970 <=? Z.abs z then Raise OtherError
           else Ret (VInt (if z <? 0 then 0 else if 100 <? z then 100 else z))
       | VFloat S754_nan => Ret VNone
       | VFloat (S754_infinity s) => Ret (VInt (if s then 0 else 100))
       | VFloat ((S754_zero _ | S754_finite _ _ _) as f) =>
           let z := match py_int (VFloat f) with Ret z => z | Raise _ => 0 end in
           if float_eq_Z f z then Ret (VInt (if z <? 0 then 0 else if 100 <? z then 100 else z))
           else if (match f with S754_finite true _ _ => true | _ => false end) then Ret (VInt 0)
           else if 100 <=? z then Ret (VInt 100) else Ret (VFloat (round2 f))
       | _ => Ret VNone
       end.
Record update_state := {
  us_installed : pystr; us_latest : pystr; us_summary : pystr; us_url : pystr; us_in_progress : bool; us_percentage : pyval;
}.
Definition update_state_document `{UnicodeDB} (round2 : spec_float → spec_float) (installed latest summary url in_progress percentage : pyval)
    : res update_state :=
  p ← _percentage round2 percentage (truthy in_progress);
  Ret {| us_installed := _bounded_text installed MAX_VERSION_LENGTH; us_latest := _bounded_text latest MAX_VERSION_LENGTH;
         us_summary := _bounded_text summary MAX_SUMMARY_LENGTH; us_url := _bounded_text url MAX_URL_LENGTH;
         us_in_progress := truthy in_progress; us_percentage := p |}.
(** The bytes of the state file ([None]: it can not be read). *)
Definition MAX_UPDATE_STATE_BYTES := 8 * 1024.
Definition read_update_state `{UnicodeDB} (json_loads : pystr → res pyval) (round2 : spec_float → spec_float) (raw : option bytes)
    : res (option update_state) :=
  match raw with
  | None => Ret None
  | Some raw =>
      if MAX_UPDATE_STATE_BYTES <? size raw then Ret None
      else match utf8_decode raw with
           | None => Ret None
           | Some text =>
               match json_loads text with
               | Raise ValueError => Ret None
               | Raise e => Raise e
               | Ret (VDict d) =>
                   s ← update_state_document round2 (get_key (u "installed_version") d) (get_key (u "latest_version") d)
                         (get_key (u "release_summary") d) (get_key (u "release_url") d) (get_key (u "in_progress") d)
                         (get_key (u "update_percentage") d);
                   Ret (Some s)
               | Ret _ => Ret None
               end
           end
  end.

(** [display] is the version of the image. *)
Definition _resolve_versions `{UnicodeDB} (out_real : pystr → pystr) (override display : pystr) (t : dir) : pystr * pystr :=
  match override with
  | _ :: _ => (override, override)
  | [] =>
      match _active_version out_real t with
      | (_ :: _) as active => (active, active)
      | [] => let core := match cut_at 43 display with Some (core, _) => core | None => display end in
              (display, if is_semver core then core else [])
      end
  end.

(** Where [install] takes the manifest from, and whether it is there. *)
Inductive manifest_source := GivenPath (isfile : bool) | FromUrl (fetched : bool) | NoSource.
Record cli_io := {
  l_source : manifest_source; l_verified : bool * pystr; l_payload : option pyval; l_override : pystr; l_display : pystr;
  l_image : pystr; l_force : bool; l_suffix : pystr;
}.
Section Cli.
Context `{UnicodeDB} (factory_app : pystr) (out_real : pystr → pystr) (out_isdir out_exists : pystr → bool)
  (io : nat → option pystr) (pid : Z) (releases_dir : pystr)
  (ext : call → run → outcome) (free_space : run → option Z)
  (isfile : run → pystr → bool) (getsize : run → pystr → option Z) (clock : run → Z) (sleeps : run → bool)
  (json_loads : pystr → res pyval) (netloc_ok : pystr → bool).
(** The exit code ([None]: an exception ends the process), with the manifest and result of the run. *)
Definition _cli_install (c : cli_io) (d : releases) : option Z * option (Manifest * InstallResult) * run :=
  let '(_, d) := recover_interrupted factory_app out_real out_isdir io pid d in
  let '(_, compare) := _resolve_versions out_real (l_override c) (l_display c) (rel_tree d) in
  let stop code := (code, None, fresh_run d) in
  match l_source c with
  | GivenPath false | NoSource => stop (Some 2)
  | FromUrl false => stop (Some 1)
  | GivenPath true | FromUrl true =>
      if negb (fst (l_verified c)) then stop (Some 1)
      else match l_payload c with
           | None => stop (Some 1)
           | Some payload =>
               match parse_manifest json_loads netloc_ok payload [] [] with
               | Refused _ => stop (Some 1)
               | Escaped _ => stop None
               | Valid m =>
                   let '(res, w) := install_update factory_app out_real out_isdir out_exists io pid releases_dir ext free_space isfile
                     getsize clock sleeps [] m true (l_force c) compare (l_image c) (l_suffix c) (fresh_run d) in
                   (Some (if in_ok res then 0 else 1), Some (m, res), w)
               end
           end
  end.
Definition _cli_recover (d : releases) : bool * releases :=
  let '(r, d) := recover_interrupted factory_app out_real out_isdir io pid d in
  (match r with inr rep => changed rep | inl _ => false end, d).
End Cli.

(** ** The order of the calls *)

Section Order.
Context `{UnicodeDB} (factory_app : pystr) (out_real : pystr → pystr) (out_isdir out_exists : pystr → bool)
  (io : nat → option pystr) (pid : Z) (releases_dir : pystr)
  (ext : call → run → outcome) (free_space : run → option Z)
  (isfile : run → pystr → bool) (getsize : run → pystr → option Z) (clock : run → Z) (sleeps : run → bool)
  (secrets : list pystr) (m : Manifest)
  `{Hout : !OutsideOk factory_app out_real out_isdir}.
Abbreviation serving := (serving factory_app out_real out_isdir).
Abbreviation between := (between factory_app out_real out_isdir).

(** What is done before a release is activated, in this order. *)
Definition pipeline (has_stop : bool) (bundle : pystr) : list call :=
  [CDownload; CVerifyManifest; CVerifyBundle bundle; CExtract bundle] ++
  (if has_stop then [CStop] else []) ++ [CVenv; CPreflight; CSwitch].
(** What a callable answered, as the run takes it. *)
Definition answer (c : call) (w : run) : bool := match c with CHealth => _health_ok (ext c w) | _ => (_effect (ext c w)).1 end.
Definition passed_calls (P : list call) (k : nat) : list (call * bool) := map (λ c, (c, true)) (take k P).
(** The state in which a run that starts from [w0] makes the call number [k]. *)
Definition before (w0 : run) (P : list call) (k : nat) : run :=
  {| r_disk := r_disk w0; r_calls := r_calls w0 ++ passed_calls P k; r_quiesced := bool_decide (CStop ∈ take (S k) P);
     r_activated := r_activated w0 |}.
(** The file that the download names, or the one below the staging directory. *)
Definition bundle_of (staging : pystr) (w : run) : pystr :=
  match (_effect (ext CDownload w)).2 with VStr ((_ :: _) as s) => s | _ => path_join (path_join releases_dir staging) BUNDLE_FILENAME end.
Definition enough_space (w : run) : Prop := ∃ free, free_space w = Some free ∧ required_free_space (bundle_size m) ≤ free.
Definition right_size (bundle : pystr) (w : run) : Prop := getsize w bundle = Some (bundle_size m).
(** The calls of [new] got the answers that it records, each in the state in which the run made it;
    the download was made with enough free space, what was verified next is the bundle that
    it named, and the extraction was made with a bundle of the announced size. *)
Definition checked (staging bundle : pystr) (w0 : run) (P : list call) (new : list (call * bool)) : Prop :=
  (∀ i c b, new !! i = Some (c, b) → c = CSwitch ∨ answer c (before w0 P i) = b) ∧
  ((0 < length new)%nat → enough_space (before w0 P 0)) ∧
  ((1 < length new)%nat → bundle = bundle_of staging (before w0 P 0) ∧ isfile (before w0 P 1) bundle = true) ∧
  ((3 < length new)%nat → right_size bundle (before w0 P 3)).
(** The conditions of the call number [k]. *)
Definition ready (staging bundle : pystr) (w0 : run) (P : list call) (k : nat) : Prop :=
  (k = 0%nat → enough_space (before w0 P 0)) ∧
  (k = 1%nat → bundle = bundle_of staging (before w0 P 0) ∧ isfile (before w0 P 1) bundle = true) ∧
  (k = 3%nat → right_size bundle (before w0 P 3)).
(** The first [k] calls succeeded, and nothing else happened. *)
Definition at_stage (staging bundle : pystr) (w0 : run) (P : list call) (k : nat) (q : bool) (w : run) : Prop :=
  r_disk w = r_disk w0 ∧ r_calls w = r_calls w0 ++ passed_calls P k ∧ r_quiesced w = q ∧ r_activated w = r_activated w0 ∧
  checked staging bundle w0 P (passed_calls P k).
(** The run ended there, perhaps with the next call failing. *)
Definition stopped_at (P : list call) (k : nat) (new : list (call * bool)) : Prop :=
  new = passed_calls P k ∨ ∃ c, P !! k = Some c ∧ new = passed_calls P k ++ [(c, false)].

Lemma passed_calls_S P k c : P !! k = Some c → passed_calls P (S k) = passed_calls P k ++ [(c, true)].
Proof. intros Hk. unfold passed_calls. rewrite (take_S_r _ _ _ Hk), map_app. done. Qed.
Lemma at_stage_before staging bundle w0 P k q w : at_stage staging bundle w0 P k q w → q = bool_decide (CStop ∈ take (S k) P) → w = before w0 P k.
Proof. destruct w. unfold at_stage, before. cbn. by intros (-> & -> & -> & -> & _) ->. Qed.
Lemma checked_snoc staging bundle w0 P k c b :
  checked staging bundle w0 P (passed_calls P k) → ready staging bundle w0 P k → P !! k = Some c →
  (c = CSwitch ∨ answer c (before w0 P k) = b) → checked staging bundle w0 P (passed_calls P k ++ [(c, b)]).
Proof.
  intros (Ha & H0 & H1 & H3) (R0 & R1 & R3) Hk Hc. assert (length (passed_calls P k) = k) as Hlen.
  { unfold passed_calls. rewrite length_map, length_take. apply lookup_lt_Some in Hk. lia. }
  split_and!; rewrite ?length_app, Hlen in *; cbn.
  - intros i c' b' [Hi|[Hge Hi]]%lookup_app_Some; [by eapply Ha|]. rewrite Hlen in *.
    apply list_lookup_singleton_Some in Hi as [Hz [= <- <-]]. by replace i with k by lia.
  - intros _. destruct (decide (k = 0)%nat); [by apply R0|apply H0; lia].
  - intros ?. destruct (decide (k = 1)%nat); [by apply R1|apply H1; lia].
  - intros ?. destruct (decide (k = 3)%nat); [by apply R3|apply H3; lia].
Qed.
Lemma require_stage {A} c text (f : pyval → Step A) staging bundle w0 P k q w (Q : (InstallResult + A) * run → Prop) :
  at_stage staging bundle w0 P k q w → ready staging bundle w0 P k → P !! k = Some c → c ≠ CHealth → q = bool_decide (CStop ∈ take (S k) P) →
  (∀ v w', v = (_effect (ext c w)).2 → at_stage staging bundle w0 P (S k) q w' → Q (f v w')) →
  (∀ res w', in_outcome res = INSTALL_FAILED → r_disk w' = r_disk w0 → r_quiesced w' = q → r_activated w' = r_activated w0 →
     r_calls w' = r_calls w0 ++ passed_calls P k ++ [(c, false)] → checked staging bundle w0 P (passed_calls P k ++ [(c, false)]) → Q (inl res, w')) →
  Q ((require out_real ext secrets m c text ≫= f) w).
Proof.
  intros Hat Hready Hk Hch Hqk Hok Hfail. pose proof (at_stage_before _ _ _ _ _ _ _ Hat Hqk) as Hw.
  destruct Hat as (Hd & Hc & Hq & Ha & Hchk). unfold require, effect, mbind, step_bind.
  assert (∀ b v, _effect (ext c w) = (b, v) → checked staging bundle w0 P (passed_calls P k ++ [(c, b)])) as Hnext.
  { intros b v He. apply checked_snoc; [done..|right]. rewrite <-Hw. unfold answer. destruct c; try done; by rewrite He. }
  destruct (_effect (ext c w)) as [[] v]; cbn [fst snd].
  - apply Hok; [done|]. unfold at_stage, log. cbn. unfold constant. rewrite (passed_calls_S P k c Hk), Hc, app_assoc. split_and!; try done. by eapply Hnext.
  - unfold fail. apply Hfail; cbn; unfold constant; try done; [by rewrite Hc, <-app_assoc|by eapply Hnext].
Qed.
(** *** After the switch *)

Definition not_yet (x : call * bool) : Prop := x = (CHealth, false) ∨ ∃ d b, x = (CSleep d, b) ∧ 0 < d ≤ HEALTH_POLL_SECONDS.
Definition polls (healthy : bool) (l : list (call * bool)) : Prop :=
  if healthy then ∃ l', l = l' ++ [(CHealth, true)] ∧ Forall not_yet l' else Forall not_yet l.
Lemma poll_health_spec n deadline w :
  let '(b, w') := poll_health ext clock sleeps n deadline w in
  r_disk w' = r_disk w ∧ r_quiesced w' = r_quiesced w ∧ r_activated w' = r_activated w ∧
  ∃ l, r_calls w' = r_calls w ++ l ∧ polls b l ∧ (length l ≤ 2 * n)%nat.
Proof.
  revert w. induction n as [|n IH]; intros w; cbn [poll_health].
  { do 3 (split; [done|]). exists []. rewrite app_nil_r. split_and!; [done|apply Forall_nil_2|cbn; lia]. }
  destruct (_health_ok (ext CHealth w)) eqn:Hh.
  { do 3 (split; [done|]). exists [(CHealth, true)]. split_and!; [done|by exists []|cbn; lia]. }
  set (w1 := log CHealth false w). destruct (deadline <=? clock w1) eqn:Hdl.
  { do 3 (split; [done|]). exists [(CHealth, false)]. split_and!; [done|by apply Forall_singleton; left|cbn; lia]. }
  apply Z.leb_gt in Hdl.
  set (d := Z.min HEALTH_POLL_SECONDS (deadline - clock w1)).
  assert (0 < d ≤ HEALTH_POLL_SECONDS) as Hd by (unfold d, HEALTH_POLL_SECONDS; lia).
  rewrite (proj2 (Z.leb_gt d 0)) by lia. destruct (sleeps w1) eqn:Hs; cbn [negb].
  - specialize (IH (log (CSleep d) true w1)). destruct (poll_health _ _ _ n deadline _) as [b w'].
    destruct IH as (Hdk & Hq & Ha & l & Hc & Hp & Hlen). do 3 (split; [done|]). exists ((CHealth, false) :: (CSleep d, true) :: l).
    split_and!; [|destruct b; cbn in *|cbn; lia].
    + rewrite Hc. cbn. unfold constant. cbn. rewrite <-!app_assoc. done.
    + destruct Hp as (l' & -> & Hl). exists ((CHealth, false) :: (CSleep d, true) :: l'). split; [done|].
      repeat (apply Forall_cons; split; [by left + (right; eauto)|]). done.
    + repeat (apply Forall_cons; split; [by left + (right; eauto)|]). done.
  - do 3 (split; [done|]). exists [(CHealth, false); (CSleep d, false)]. split_and!; [|cbn|cbn; lia].
    + cbn. unfold constant. cbn. by rewrite <-app_assoc.
    + repeat (apply Forall_cons; split; [by left + (right; eauto)|]). done.
Qed.

Lemma on_disk_wp {A} (f : FS A) I Q w :
  wp f I Q (r_disk w) →
  let '(r, w') := on_disk f w in
  passed I (r_disk w) (r_disk w') ∧ Q r (r_disk w') ∧ r_calls w' = r_calls w ∧ r_quiesced w' = r_quiesced w ∧ r_activated w' = r_activated w.
Proof. intros [H1 H2]. unfold on_disk. destruct (f (r_disk w)) as [r d]. cbn in *. unfold constant. done. Qed.
(** The version the report names is the one that runs. *)
Lemma active_serving v t : serving (Rel v) t → _active_version out_real t = v ∧ is_semver v = true.
Proof.
  intros (Hl & Hr & _). pose proof (running_ok factory_app out_real out_isdir t Hl) as Hok. rewrite Hr in Hok. cbn in Hok.
  rewrite running_eq in Hr by done. destruct (t !! CURRENT) as [[| |l]|] eqn:Hc; try done.
  destruct (dir_at _ _ _); [|done]. unfold _active_version. rewrite (realpath_link out_real t CURRENT l), Hr by (done || by left).
  cbn. by rewrite Hok.
Qed.
(** The mark is on the disk; otherwise a file operation failed, or a file has the name of
    the directory of marks. *)
Definition mark_kept (d : releases) (marked : bool) : Prop :=
  if marked then (version m ++ u ".json") ∈ rel_bad d
  else fails io ∨ ∃ nd, rel_tree d !! BAD_RELEASES_DIRNAME = Some nd ∧ nd ≠ NDir.
Lemma roll_back_spec reason old w :
  serving (Rel (version m)) (rel_tree (r_disk w)) → rel_tree (r_disk w) !! PREVIOUS = Some (NLink old) →
  resolve_loc out_real old = old → dir_at out_isdir (rel_tree (r_disk w)) old = true →
  rel_tree (r_disk w) !! tmp_name pid CURRENT = None →
  let '(r, w') := _roll_back out_real out_isdir io pid ext secrets m reason w in
  passed (between old (Rel (version m))) (r_disk w) (r_disk w') ∧
  (∃ v b marked, r_calls w' = r_calls w ++ [(CRestart v, b); (CRecordBad (version m), marked)] ∧
     mark_kept (r_disk w') marked) ∧
  (∃ res l, r = inr res ∧ in_outcome res = INSTALL_ROLLED_BACK ∧ serving l (rel_tree (r_disk w')) ∧
     (l = old ∨ l = Rel (version m) ∧ fails io) ∧ (∀ v, l = Rel v → in_installed res = v)) ∧
  r_quiesced w' = r_quiesced w ∧ r_activated w' = r_activated w.
Proof.
  intros Hs Hp Hr Hd Ht. unfold _roll_back.
  pose proof (on_disk_wp _ _ _ w (wp_rollback factory_app out_real out_isdir io pid _ _ _ Hs Hp Hr Hd Ht)) as H1.
  destruct (on_disk _ w) as [r1 w1]. destruct H1 as (Hp1 & (_ & H1) & Hc1 & Hq1 & Ha1).
  assert (∃ l, serving l (rel_tree (r_disk w1)) ∧ (l = old ∨ l = Rel (version m) ∧ fails io)) as (l & Hl & Hlo)
    by (destruct H1 as [[_ ?]|(_ & ? & ?)]; eauto).
  unfold effect. destruct (_effect _) as [b v].
  set (w2 := log _ b w1). pose proof (on_disk_wp _ _ _ w2 (wp_record_bad factory_app out_real out_isdir io (version m) l (r_disk w2) Hl)) as H3.
  destruct (on_disk _ w2) as [r3 w3]. destruct H3 as (Hp3 & (Hs3 & H3) & Hc3 & Hq3 & Ha3).
  split; [|split; [|split]].
  - eapply passed_trans; [eapply passed_weaken; [exact Hp1|]|eapply passed_weaken; [exact Hp3|]].
    + intros t [?|?]; [by right|by left].
    + intros t Hst. apply serving_between. destruct Hlo as [->|[-> _]]; auto.
  - eexists _, _, _. split; [cbn; unfold constant; rewrite Hc3; cbn; unfold constant; rewrite Hc1, <-!app_assoc; reflexivity|].
    destruct H3 as [[-> ?]|[-> ?]]; done.
  - eexists _, l. split; [reflexivity|]. split; [done|]. split; [done|]. split; [done|]. intros v' ->. cbn.
    unfold active_version. by apply active_serving.
  - split; [exact (eq_trans Hq3 Hq1)|exact (eq_trans Ha3 Ha1)].
Qed.
(** How a run ends once the release is active: healthy and kept, or rolled back and marked. *)
Inductive ending (old : loc) (d : releases) : install_outcome → loc → list (call * bool) → Prop :=
  | ends_kept ps protected b :
      polls true ps → (∀ v, old = Rel v → rel_tree d !! v = Some NDir) →
      ending old d INSTALL_INSTALLED (Rel (version m)) ((CRestart (version m), true) :: ps ++ [(CPrune protected, b)])
  | ends_rolled_back first l v b marked :
      (first = [(CRestart (version m), false)] ∨ ∃ ps, first = (CRestart (version m), true) :: ps ∧ polls false ps) →
      (l = old ∨ l = Rel (version m) ∧ fails io) →
      mark_kept d marked →
      ending old d INSTALL_ROLLED_BACK l (first ++ [(CRestart v, b); (CRecordBad (version m), marked)]).

(** The state that a successful switch leaves. *)
Definition switched (old : loc) (t : dir) : Prop :=
  serving (Rel (version m)) t ∧ t !! PREVIOUS = Some (NLink old) ∧ resolve_loc out_real old = old ∧
  dir_at out_isdir t old = true ∧ t !! tmp_name pid CURRENT = None.
Lemma restart_and_check_spec old previous_version w : switched old (rel_tree (r_disk w)) →
  let '(r, w') := restart_and_check out_real out_isdir io pid ext clock sleeps secrets m previous_version w in
  passed (between old (Rel (version m))) (r_disk w) (r_disk w') ∧
  (∃ res l new, r = inr res ∧ r_calls w' = r_calls w ++ new ∧ serving l (rel_tree (r_disk w')) ∧
     ending old (r_disk w') (in_outcome res) l new ∧ (∀ v, l = Rel v → in_installed res = v)) ∧
  r_quiesced w' = r_quiesced w ∧ r_activated w' = r_activated w.
Proof.
  intros (Hs & Hp & Hr & Hd & Ht). unfold restart_and_check, mbind, step_bind, effect.
  destruct (_effect _) as [[] v]; cbn [fst snd negb].
  - set (w1 := log _ true w). unfold _wait_for_health.
    pose proof (poll_health_spec MAX_HEALTH_ATTEMPTS (clock w1 + HEALTH_TIMEOUT_SECONDS) w1) as Hpoll.
    destruct (poll_health _ _ _ _ _ w1) as [healthy w2] eqn:Hph. destruct Hpoll as (Hd2 & Hq2 & Ha2 & ps & Hc2 & Hps & _).
    change (r_disk w1) with (r_disk w) in Hd2. rewrite <-Hd2 in Hs, Hp, Hd, Ht. rewrite <-Hd2. destruct healthy; cbn [negb].
    + unfold run_prune. set (P := List.filter _ _).
      pose proof (on_disk_wp _ _ _ w2 (wp_prune factory_app out_real out_isdir io P _ (r_disk w2) Hs)) as Hpr.
      destruct (on_disk _ w2) as [r3 w3]. destruct Hpr as (Hp3 & (_ & Hs3 & _ & Hv3) & Hc3 & Hq3 & Ha3).
      split; [eapply (passed_weaken (serving _)); [done|]; intros; apply serving_between; auto|].
      split; [|split; [exact (eq_trans Hq3 Hq2)|exact (eq_trans Ha3 Ha2)]].
      eexists _, _, _. split; [reflexivity|]. split; [cbn; unfold constant; rewrite Hc3, Hc2; unfold w1; cbn; unfold constant; rewrite <-!app_assoc; reflexivity|].
      split; [done|]. split; [|by intros v' [= <-]]. apply ends_kept; [done|]. intros v' ->. apply Hv3; [done|]. cbn in Hd. by apply bool_decide_eq_true in Hd.
    + pose proof (roll_back_spec (VStr (u "health checks failed; restored the previous release")) old w2 Hs Hp Hr Hd Ht) as Hrb.
      destruct (_roll_back _ _ _ _ _ _ _ _ w2) as [r w']. destruct Hrb as (Hpass & (v' & b & mk & Hc & Hmk) & (res & l & -> & Ho & Hsl & Hlo & Hin) & Hq & Ha).
      split; [done|]. split; [|split; [exact (eq_trans Hq Hq2)|exact (eq_trans Ha Ha2)]]. eexists res, l, _. split; [done|].
      split; [rewrite Hc, Hc2; unfold w1; cbn; unfold constant; rewrite <-!app_assoc; reflexivity|].
      split; [done|]. split; [|done]. rewrite Ho. apply (ends_rolled_back _ _ (_ :: ps)); eauto.
  - set (w1 := log _ false w).
    pose proof (roll_back_spec (or_text v "service restart failed; restored the previous release") old w1 Hs Hp Hr Hd Ht) as Hrb.
    destruct (_roll_back _ _ _ _ _ _ _ _ w1) as [r w']. destruct Hrb as (Hpass & (v' & b & mk & Hc & Hmk) & (res & l & -> & Ho & Hsl & Hlo & Hin) & Hq & Ha).
    split; [done|]. split; [|done]. eexists res, l, _. split; [done|]. split; [rewrite Hc; unfold w1; cbn; unfold constant; rewrite <-app_assoc; reflexivity|].
    split; [done|]. split; [|done]. rewrite Ho. apply (ends_rolled_back _ _ [_]); auto.
Qed.
(** *** The whole run *)

Definition gave_up (has_stop : bool) (staging : pystr) (old : loc) (w : run) (r : InstallResult + InstallResult) (w' : run) : Prop :=
  ∃ res bundle k new,
    r = inl res ∧ in_outcome res = INSTALL_FAILED ∧ r_calls w' = r_calls w ++ new ∧
    stopped_at (pipeline has_stop bundle) k new ∧ checked staging bundle w (pipeline has_stop bundle) new ∧
    serving old (rel_tree (r_disk w')) ∧ r_activated w' = r_activated w ∧ r_quiesced w' = bool_decide (CStop ∈ new.*1).
Definition went_on (has_stop : bool) (staging : pystr) (old : loc) (w : run) (r : InstallResult + InstallResult) (w' : run) : Prop :=
  ∃ res bundle l new,
    r = inr res ∧ r_calls w' = r_calls w ++ map (λ c, (c, true)) (pipeline has_stop bundle) ++ new ∧
    checked staging bundle w (pipeline has_stop bundle) (map (λ c, (c, true)) (pipeline has_stop bundle)) ∧
    serving l (rel_tree (r_disk w')) ∧ ending old (r_disk w') (in_outcome res) l new ∧
    r_activated w' = true ∧ (∀ v, l = Rel v → in_installed res = v).
Definition run_post (has_stop : bool) (staging : pystr) (old : loc) (w : run) (x : (InstallResult + InstallResult) * run) : Prop :=
  passed (between old (Rel (version m))) (r_disk w) (r_disk x.2) ∧ (gave_up has_stop staging old w x.1 x.2 ∨ went_on has_stop staging old w x.1 x.2).

Lemma passed_calls_fst P k : (passed_calls P k).*1 = take k P.
Proof. unfold passed_calls. induction (take k P) as [|c l IH]; cbn; congruence. Qed.
Lemma gave_up_call has_stop staging old w bundle k c res w' :
  serving old (rel_tree (r_disk w')) → passed (between old (Rel (version m))) (r_disk w) (r_disk w') →
  in_outcome res = INSTALL_FAILED → r_activated w' = r_activated w → pipeline has_stop bundle !! k = Some c →
  r_calls w' = r_calls w ++ passed_calls (pipeline has_stop bundle) k ++ [(c, false)] →
  checked staging bundle w (pipeline has_stop bundle) (passed_calls (pipeline has_stop bundle) k ++ [(c, false)]) →
  r_quiesced w' = bool_decide (CStop ∈ take (S k) (pipeline has_stop bundle)) →
  run_post has_stop staging old w (inl res, w').
Proof.
  intros Hs Hp Ho Ha Hk Hc Hch Hq. split; [done|left].
  exists res, bundle, k, (passed_calls (pipeline has_stop bundle) k ++ [(c, false)]). split_and!; try done; [right; eauto|].
  cbn [fst snd]. by rewrite Hq, (take_S_r _ _ _ Hk), fmap_app, passed_calls_fst.
Qed.
Lemma gave_up_at has_stop staging old w bundle k res w' :
  serving old (rel_tree (r_disk w)) → at_stage staging bundle w (pipeline has_stop bundle) k (bool_decide (CStop ∈ take k (pipeline has_stop bundle))) w' →
  in_outcome res = INSTALL_FAILED → run_post has_stop staging old w (inl res, w').
Proof.
  intros Hs (Hd & Hc & Hq & Ha & Hch) Ho. split; cbn [fst snd]; [rewrite Hd; apply passed_refl|left].
  exists res, bundle, k, (passed_calls (pipeline has_stop bundle) k). rewrite Hd, Hq, passed_calls_fst. split_and!; try done. by left.
Qed.
Lemma guard_stage {A} b text (f : unit → Step A) w (Q : (InstallResult + A) * run → Prop) :
  (b = true → Q (f tt w)) → (∀ res, in_outcome res = INSTALL_FAILED → Q (inl res, w)) → Q ((guard out_real secrets m b text ≫= f) w).
Proof. intros H1 H2. unfold guard, mbind, step_bind. destruct b; [by apply H1|]. by apply H2. Qed.

Lemma switch_stage has_stop staging old w bundle q prev w' :
  serving old (rel_tree (r_disk w)) → rel_tree (r_disk w) !! staging = Some NDir → is_staging staging = true →
  at_stage staging bundle w (pipeline has_stop bundle) (pred (length (pipeline has_stop bundle))) q w' → q = has_stop →
  run_post has_stop staging old w
    ((r ← run_switch factory_app out_real out_isdir out_exists io pid m staging;
      if negb r.1 then fail out_real secrets m (or_text r.2 "release activation failed")
      else _ ← (λ w, (inr tt, w{{r_activated := true}}));
           restart_and_check out_real out_isdir io pid ext clock sleeps secrets m prev) w').
Proof.
  intros Hs Hst Hsg (Hd & Hc & Hq & Ha & Hch) ->. unfold mbind, step_bind, run_switch.
  assert (pipeline has_stop bundle !! pred (length (pipeline has_stop bundle)) = Some CSwitch) as Hlast by by destruct has_stop.
  assert (∀ b, checked staging bundle w (pipeline has_stop bundle)
    (passed_calls (pipeline has_stop bundle) (pred (length (pipeline has_stop bundle))) ++ [(CSwitch, b)])) as Hswitch.
  { intros b. apply checked_snoc; [done| |done|by left]. by destruct has_stop. }
  rewrite <-Hd in Hs, Hst.
  pose proof (on_disk_wp _ _ _ w' (wp_switch factory_app out_real out_isdir io pid out_exists old staging (version m) _ Hs Hst Hsg)) as Hsw.
  destruct (on_disk _ w') as [r w1]. destruct Hsw as (Hp1 & (_ & [((reason & ->) & Hs1)|((reason & ->) & Hv & Hs1 & Hpr & _ & Htmp & Hdir)]) & Hc1 & Hq1 & Ha1); cbn [fst snd negb].
  - eapply gave_up_call; try done.
    + rewrite <-Hd. exact Hp1.
    + exact (eq_trans Ha1 Ha).
    + unfold log. cbn. unfold constant. rewrite Hc1, Hc, <-app_assoc. done.
    + etrans; [exact (eq_trans Hq1 Hq)|]. by destruct has_stop.
  - set (w2 := (log CSwitch true w1){{r_activated := true}}).
    assert (switched old (rel_tree (r_disk w2))) as Hsw.
    { split_and!; try done. destruct Hs as (Hl & <- & _). by apply running_resolved. }
    pose proof (restart_and_check_spec old prev w2 Hsw) as Hrc.
    destruct (restart_and_check _ _ _ _ _ _ _ _ _ _ w2) as [r w3].
    destruct Hrc as (Hp3 & (res & l & new & -> & Hc3 & Hs3 & Hend & Hin) & Hq3 & Ha3).
    split; cbn [fst snd]; [rewrite <-Hd; eapply passed_trans; [exact Hp1|exact Hp3]|right].
    assert (passed_calls (pipeline has_stop bundle) (pred (length (pipeline has_stop bundle))) ++ [(CSwitch, true)] =
      map (λ c, (c, true)) (pipeline has_stop bundle)) as Hall by by destruct has_stop.
    exists res, bundle, l, new. split_and!; try done. 2: by destruct has_stop; exact (Hswitch true).
    rewrite <-Hall, Hc3. change (r_calls w2) with (r_calls w1 ++ [(CSwitch, true)]). by rewrite Hc1, Hc, <-!app_assoc.
Qed.
Lemma at_stage_quiesce staging bundle w P k q w' : at_stage staging bundle w P k q w' → at_stage staging bundle w P k true (w'{{r_quiesced := true}}).
Proof. intros (? & ? & ? & ? & ?). done. Qed.

(** A failing call of the pipeline ends the run, whatever comes after it. *)
Lemma call_stage has_stop staging old w bundle k c text (f : pyval → Step InstallResult) q w' :
  serving old (rel_tree (r_disk w)) → at_stage staging bundle w (pipeline has_stop bundle) k q w' → ready staging bundle w (pipeline has_stop bundle) k →
  pipeline has_stop bundle !! k = Some c → q = bool_decide (CStop ∈ take (S k) (pipeline has_stop bundle)) →
  (∀ v w2, v = (_effect (ext c w')).2 → at_stage staging bundle w (pipeline has_stop bundle) (S k) q w2 → run_post has_stop staging old w (f v w2)) →
  run_post has_stop staging old w ((require out_real ext secrets m c text ≫= f) w').
Proof.
  intros Hs Hat Hready Hk Hq Hf. eapply require_stage; [done|done|done| |done|done|].
  { intros ->. apply list_elem_of_lookup_2 in Hk. destruct has_stop; cbn in Hk; set_solver. }
  intros res w2 Ho Hd Hq2 Ha Hc Hch. eapply gave_up_call; try done; [by rewrite Hd|rewrite Hd; apply passed_refl|congruence].
Qed.

(** The same for a condition on the state. *)
Lemma cond_stage (fact : Prop) has_stop staging old w bundle k q (g : run → Step unit) (f : unit → Step InstallResult) w' :
  serving old (rel_tree (r_disk w)) → at_stage staging bundle w (pipeline has_stop bundle) k q w' →
  q = bool_decide (CStop ∈ take k (pipeline has_stop bundle)) →
  (g w' w' = (inr tt, w') ∧ fact ∨ ∃ res, g w' w' = (inl res, w') ∧ in_outcome res = INSTALL_FAILED) →
  (fact → run_post has_stop staging old w (f tt w')) → run_post has_stop staging old w (((λ w, g w w) ≫= f) w').
Proof.
  intros Hs Hat -> Hg Hf. unfold mbind, step_bind. destruct Hg as [[-> Hfact]|(res & -> & Ho)]; [by apply Hf|]. by eapply gave_up_at.
Qed.
Lemma guard_cases b text w : guard out_real secrets m b text w = (inr tt, w) ∧ b = true ∨
  ∃ res, guard out_real secrets m b text w = (inl res, w) ∧ in_outcome res = INSTALL_FAILED.
Proof. unfold guard. destruct b; [by left|right]. unfold fail. eauto. Qed.
Lemma quiesce_stage has_stop staging old w bundle (f : unit → Step InstallResult) w' :
  serving old (rel_tree (r_disk w)) → at_stage staging bundle w (pipeline has_stop bundle) 4 false w' →
  (∀ w2, at_stage staging bundle w (pipeline has_stop bundle) (if has_stop then 5 else 4) has_stop w2 → run_post has_stop staging old w (f tt w2)) →
  run_post has_stop staging old w ((quiesce out_real ext secrets m has_stop ≫= f) w').
Proof.
  intros Hs Hat Hf. unfold quiesce. destruct has_stop; cbn [negb]; [|by apply Hf].
  match goal with |- run_post _ _ _ _ ?e =>
    assert (e = (require out_real ext secrets m CStop "could not quiesce the camera runtime" ≫= λ _, f tt) (w'{{r_quiesced := true}})) as -> end.
  { unfold mbind, step_bind. by destruct (require _ _ _ _ _ _ _) as [[?|?] ?]. }
  apply (call_stage true staging old w bundle 4 CStop _ (λ _, f tt) true (w'{{r_quiesced := true}})); try done; [by eapply at_stage_quiesce|].
  intros _ w2 _. apply Hf.
Qed.

Lemma staged_spec has_stop staging old w :
  serving old (rel_tree (r_disk w)) → rel_tree (r_disk w) !! staging = Some NDir → is_staging staging = true → r_quiesced w = false →
  run_post has_stop staging old w
    (staged factory_app out_real out_isdir out_exists io pid releases_dir ext free_space isfile getsize clock sleeps secrets m has_stop staging w).
Proof.
  intros Hs Hst Hsg Hq0. unfold staged.
  assert (∀ bundle, at_stage staging bundle w (pipeline has_stop bundle) 0 false w) as H0.
  { intros b. split_and!; try done; [by rewrite app_nil_r|]. split_and!; cbn; intros; try lia. done. }
  destruct (free_space w) as [free|] eqn:Hfree; [|by apply (gave_up_at has_stop staging old w [] 0)].
  apply guard_stage; [intros Henough%Z.leb_le|intros res; by apply (gave_up_at has_stop staging old w [] 0)].
  pose proof (at_stage_before _ _ _ _ _ _ _ (H0 []) eq_refl) as Hw.
  apply (call_stage has_stop staging old w [] 0 _ _ _ false); [done|done| |done|done|].
  { split_and!; [|done..]. intros _. rewrite <-Hw. by exists free. } intros value w1 Hvalue H1.
  set (bundle := match value with VStr ((_ :: _) as s) => s | _ => _ end).
  assert (bundle = bundle_of staging w) as Hbundle by (unfold bundle; by rewrite Hvalue).
  assert (at_stage staging bundle w (pipeline has_stop bundle) 1 false w1) as H1'.
  { destruct H1 as (? & ? & ? & ? & Ha & Hsp & _). split_and!; try done. split_and!; [|exact Hsp|cbn; lia|cbn; lia].
    intros [|[|i]] c b Hi; [exact (Ha 0%nat c b Hi)|done|done]. } clear H1.
  apply (cond_stage (isfile w1 bundle = true) has_stop staging old w bundle 1 false (λ w, guard out_real secrets m (isfile w bundle) _)); [done|done|done|apply guard_cases|intros Hfile].
  apply (call_stage has_stop staging old w bundle 1 _ _ _ false); [done|done| |done|done|].
  { split_and!; [done| |done]. intros _. rewrite <-(at_stage_before _ _ _ _ _ _ _ (H0 bundle) eq_refl). by rewrite <-(at_stage_before _ _ _ _ _ _ _ H1' eq_refl). }
  intros _ w2 _ H2. apply (call_stage has_stop staging old w bundle 2 _ _ _ false); [done|done|done|done|done|]. intros _ w3 _ H3.
  apply (cond_stage (right_size bundle w3) has_stop staging old w bundle 3 false (λ w w', match getsize w bundle with
     | None => fail out_real secrets m (VStr (u "bundle could not be read")) w'
     | Some n => guard out_real secrets m (n =? bundle_size m) "bundle size mismatch" w' end)); [done|done|done| |intros Hsize].
  { unfold right_size. destruct (getsize w3 bundle) as [n|]; [|right; unfold fail; eauto].
    destruct (guard_cases (n =? bundle_size m) "bundle size mismatch" w3) as [[? Hn%Z.eqb_eq]|?]; [left; by subst n|by right]. }
  apply (call_stage has_stop staging old w bundle 3 _ _ _ false); [done|done| |done|done|].
  { split_and!; [done|done|]. intros _. by rewrite <-(at_stage_before _ _ _ _ _ _ _ H3 eq_refl). } intros _ w4 _ H4.
  apply (quiesce_stage has_stop staging old w bundle); [done|done|]. intros w5 H5.
  apply (call_stage has_stop staging old w bundle (if has_stop then 5 else 4) _ _ _ has_stop); [done|done|by destruct has_stop..|]. intros _ w6 _ H6.
  apply (call_stage has_stop staging old w bundle (S (if has_stop then 5 else 4)) _ _ _ has_stop); [done|done|by destruct has_stop..|]. intros _ w7 _ H7.
  apply (switch_stage has_stop staging old w bundle has_stop (active_version out_real w7)); try done. by destruct has_stop.
Qed.
Lemma ending_mono old d d' o l new :
  target_ok old → ending old d o l new → rel_bad d' = rel_bad d →
  (∀ v, is_staging v = false → rel_tree d' !! v = rel_tree d !! v) → ending old d' o l new.
Proof.
  intros Hok Hend Hb Hst. assert (∀ v, is_semver v = true → rel_tree d' !! v = rel_tree d !! v) as Hv.
  { intros v Hv. apply Hst. destruct (is_staging v) eqn:Hs; [|done]. apply staging_name in Hs as [? _]. congruence. } destruct Hend as [ps P b Hp Hk|first l v b mk Hf Hl Hm].
  - apply ends_kept; [done|]. intros v ->. rewrite Hv by done. by apply Hk.
  - apply ends_rolled_back; [done|done|]. unfold mark_kept in *. by rewrite Hb, Hst.
Qed.
(** The [finally] block restarts a runtime that it finds stopped, and removes the staging directory. *)
Lemma finally_spec staging l w :
  serving l (rel_tree (r_disk w)) → is_staging staging = true →
  let w' := finally out_real out_exists io ext m staging w in
  passed (serving l) (r_disk w) (r_disk w') ∧ serving l (rel_tree (r_disk w')) ∧ rel_bad (r_disk w') = rel_bad (r_disk w) ∧
  (∀ v, is_staging v = false → rel_tree (r_disk w') !! v = rel_tree (r_disk w) !! v) ∧
  (∃ v b, r_calls w' = r_calls w ++ (if r_quiesced w && negb (r_activated w) then [(CRestart v, b)] else [])).
Proof.
  intros Hs Hsg. destruct (staging_name _ Hsg) as (Hsem & _ & Hnc & _). unfold finally.
  match goal with |- context [exists_ _ _ (rel_tree (r_disk ?x)) _] => set (w1 := x) end.
  assert (r_disk w1 = r_disk w ∧ ∃ v b, r_calls w1 = r_calls w ++ (if r_quiesced w && negb (r_activated w) then [(CRestart v, b)] else [])) as [Hd1 (v & b & Hc1)].
  { unfold w1. destruct (r_quiesced w && negb (r_activated w)); [|by split; [|exists [], false; rewrite app_nil_r]].
    unfold effect. destruct (_effect _) as [b v']. split; [done|]. eexists _, b. reflexivity. }
  assert (l ≠ Rel staging) as Hne.
  { intros ->. destruct Hs as (Hl & Hr & _). pose proof (running_ok factory_app out_real out_isdir _ Hl) as Hok. rewrite Hr in Hok. cbn in Hok. congruence. }
  destruct (exists_ _ _ _ _); [|rewrite Hd1; split_and!; try done; [apply passed_refl|eauto]].
  rewrite <-Hd1 in Hs.
  assert (wp (rmtree io staging) (serving l) (λ _ d, serving l (rel_tree d) ∧ rel_bad d = rel_bad (r_disk w1) ∧
    ∀ v, is_staging v = false → rel_tree d !! v = rel_tree (r_disk w1) !! v) (r_disk w1)) as Hwp.
  { apply wp_rmtree.
    - intros w' _ _ -> [_ ?]. done.
    - intros w' _ -> [_ ?]. split_and!; [by apply serving_delete|done|]. intros v' Hv'. apply lookup_delete_ne. congruence.
    - intros _. by apply serving_delete. }
  pose proof (on_disk_wp _ _ _ _ Hwp) as Ho. destruct (on_disk _ w1) as [r w2]. rewrite Hd1 in Ho.
  destruct Ho as (Hp & (Hs2 & Hb2 & Hv2) & Hc2 & _). cbn. split_and!; try done. exists v, b. by rewrite Hc2.
Qed.

(** The outcomes of a run, with its calls, from the state [w0] in which its staging directory is
    there: nothing activated and a stopped runtime restarted; or an ending. *)
Definition staging_dir (suffix : pystr) : pystr := [46] ++ version m ++ u ".staging." ++ suffix.
Definition opened (suffix : pystr) (w : run) : run := (on_disk (_ ← makedirs io; mkdtemp io (staging_dir suffix)) w).2.
Definition run_outcome_ok (has_stop : bool) (suffix : pystr) (old : loc) (w0 : run) (res : InstallResult) (w' : run) : Prop :=
  ∃ l, serving l (rel_tree (r_disk w')) ∧
  ((in_outcome res = INSTALL_FAILED ∧ l = old ∧
    ∃ bundle k new v b, stopped_at (pipeline has_stop bundle) k new ∧ checked (staging_dir suffix) bundle w0 (pipeline has_stop bundle) new ∧
      r_calls w' = new ++ (if bool_decide (CStop ∈ new.*1) then [(CRestart v, b)] else [])) ∨
   (∃ bundle new, r_calls w' = map (λ c, (c, true)) (pipeline has_stop bundle) ++ new ∧
      checked (staging_dir suffix) bundle w0 (pipeline has_stop bundle) (map (λ c, (c, true)) (pipeline has_stop bundle)) ∧
      ending old (r_disk w') (in_outcome res) l new ∧ (∀ v, l = Rel v → in_installed res = v))).
Lemma staging_is_staging v suffix : is_staging ([46] ++ v ++ u ".staging." ++ suffix) = true.
Proof.
  unfold is_staging. cbn [app starts_with]. rewrite Z.eqb_refl. cbn [andb].
  assert (∀ a b, infix (u ".staging.") (a ++ u ".staging." ++ b) = true) as Hi.
  { intros a b. induction a as [|c a IH]; [|cbn [app infix]; by rewrite IH, orb_true_r].
    cbn [app]. destruct (u ".staging." ++ b) as [|c s] eqn:He; [done|]. cbn [infix]. rewrite <-He. by rewrite starts_with_prefix. }
  cbn [infix]. by rewrite (Hi v suffix), orb_true_r.
Qed.
Lemma no_calls_ok has_stop suffix old w0 res w : serving old (rel_tree (r_disk w)) → r_calls w = [] → in_outcome res = INSTALL_FAILED →
  run_outcome_ok has_stop suffix old w0 res w.
Proof.
  intros Hs Hc Ho. exists old. split; [done|left]. split; [done|]. split; [done|]. exists [], 0%nat, [], [], false.
  split; [by left|]. split; [|by rewrite Hc]. split_and!; cbn; intros; try lia. done.
Qed.
Lemma with_staging_spec has_stop suffix old w :
  serving old (rel_tree (r_disk w)) → r_calls w = [] → r_quiesced w = false → r_activated w = false →
  let '(res, w') := with_staging factory_app out_real out_isdir out_exists io pid releases_dir ext free_space isfile getsize
    clock sleeps secrets m has_stop suffix w in
  passed (between old (Rel (version m))) (r_disk w) (r_disk w') ∧ run_outcome_ok has_stop suffix old (opened suffix w) res w'.
Proof.
  intros Hs Hc0 Hq0 Ha0. unfold with_staging. pose proof (staging_is_staging (version m) suffix) as Hsg. unfold opened.
  change ([46] ++ version m ++ u ".staging." ++ suffix) with (staging_dir suffix) in *. set (staging := staging_dir suffix) in *.
  destruct (staging_name staging Hsg) as (Hsem & _ & Hnc & Hnp).
  assert (wp (_ ← makedirs io; mkdtemp io staging) (between old (Rel (version m)))
    (λ r d, serving old (rel_tree d) ∧ (r = inr tt → rel_tree d !! staging = Some NDir)) (r_disk w)) as Hwp.
  { assert (∀ t, rel_tree (r_disk w) = t → serving old (<[staging := NDir]> t)) as Hins.
    { intros t <-. apply (serving_insert_dir factory_app out_real out_isdir); [done|done|]. by intros [|]. }
    apply wp_bind, wp_makedirs; [by intros e d _ -> _|intros d Hd _ _|by left].
    apply wp_bind, wp_read. cbn [id]. rewrite Hd. destruct (rel_tree (r_disk w) !! staging); [apply wp_fail; by rewrite Hd|].
    apply wp_op; [by intros e d' _ -> _; rewrite Hd|intros d' _ -> _; rewrite Hd; split; [by apply Hins|by rewrite lookup_insert_eq]|].
    intros _. left. rewrite Hd. by apply Hins. }
  pose proof (on_disk_wp _ _ _ _ Hwp) as Ho. destruct (on_disk _ w) as [[e|[]] w1]; destruct Ho as (Hp1 & (Hs1 & Hst1) & Hc1 & Hq1 & Ha1).
  { split; [done|]. apply no_calls_ok; [done|congruence|done]. }
  pose proof (staged_spec has_stop staging old w1 Hs1 (Hst1 eq_refl) Hsg ltac:(congruence)) as [Hp2 Hrun].
  destruct (staged _ _ _ _ _ _ _ _ _ _ _ _ _ _ _ _ _ w1) as [r w2]. cbn [fst snd] in *.
  destruct Hrun as [(res & bundle & k & new & -> & Ho & Hc & Hstop & Hch & Hs2 & Ha2 & Hq2)|(res & bundle & l & new & -> & Hc & Hch & Hs2 & Hend & Ha2 & Hin)].
  - destruct (finally_spec staging old w2 Hs2 Hsg) as (Hp3 & Hs3 & _ & _ & v & b & Hc3). split.
    + do 2 (eapply passed_trans; [done|]). eapply passed_weaken; [done|]. by left.
    + exists old. split; [done|left]. split; [done|]. split; [done|]. exists bundle, k, new, v, b. split; [done|]. split; [done|].
      rewrite Hc3, Hc, Hc1, Hc0, Hq2, Ha2, Ha1, Ha0. by rewrite andb_true_r.
  - destruct (finally_spec staging l w2 Hs2 Hsg) as (Hp3 & Hs3 & Hb3 & Hv3 & v & b & Hc3). split.
    + do 2 (eapply passed_trans; [done|]). eapply passed_weaken; [done|].
      destruct Hend as [|? l ? ? ? _ [->|[-> _]] _]; [by right|by left|by right].
    + exists l. split; [done|right]. exists bundle, new. split; [rewrite Hc3, Hc, Hc1, Hc0, Ha2, andb_false_r, app_nil_r; done|].
      split; [done|]. split; [|done]. eapply ending_mono; [|done|done|done]. destruct Hs as (Hl & <- & _). by apply running_ok.
Qed.
End Order.

(** ** What an installation guarantees *)

Section Guarantees.
Context `{UnicodeDB} (factory_app : pystr) (out_real : pystr → pystr) (out_isdir out_exists : pystr → bool)
  (io : nat → option pystr) (pid : Z) (releases_dir : pystr)
  (ext : call → run → outcome) (free_space : run → option Z)
  (isfile : run → pystr → bool) (getsize : run → pystr → option Z) (clock : run → Z) (sleeps : run → bool).
Abbreviation install :=
  (install_update factory_app out_real out_isdir out_exists io pid releases_dir ext free_space isfile getsize clock sleeps).

Lemma install_update_spec `{!OutsideOk factory_app out_real out_isdir} secrets m has_stop force cv iv suffix d :
  layout (rel_tree d) → dangles out_real out_isdir (rel_tree d) = false →
  let old := _current_target factory_app out_real out_isdir (rel_tree d) in
  let '(res, w') := install secrets m has_stop force cv iv suffix (fresh_run d) in
  passed (between factory_app out_real out_isdir old (Rel (version m))) d (r_disk w') ∧
  run_outcome_ok factory_app out_real out_isdir io releases_dir ext free_space isfile getsize m has_stop suffix old (opened io m suffix (fresh_run d)) res w'.
Proof.
  intros Hl Hd old. assert (serving factory_app out_real out_isdir old (rel_tree (r_disk (fresh_run d)))) as Hs by done.
  unfold install_update.
  assert (∀ res, in_outcome res = INSTALL_FAILED →
    passed (between factory_app out_real out_isdir old (Rel (version m))) d (r_disk (fresh_run d)) ∧
    run_outcome_ok factory_app out_real out_isdir io releases_dir ext free_space isfile getsize m has_stop suffix old (opened io m suffix (fresh_run d)) res (fresh_run d)) as Hno.
  { intros res Ho. split; [apply passed_refl|by apply no_calls_ok]. }
  destruct (negb (is_semver _)); [by apply Hno|]. destruct (negb _ || _); [by apply Hno|]. destruct (negb force && _); [by apply Hno|].
  destruct (classify_manifest _ _ _) as [[[] ?] reason]; cbn [negb]; [|by apply Hno].
  apply (with_staging_spec factory_app out_real out_isdir out_exists io pid releases_dir ext free_space isfile getsize clock sleeps secrets m has_stop suffix old (fresh_run d)); done.
Qed.
(** [ok] says whether the release was installed. *)
Definition ok_result (r : InstallResult) : Prop := in_ok r = bool_decide (in_outcome r = INSTALL_INSTALLED).
Definition ok_step {A} (good : A → Prop) (s : Step A) : Prop := ∀ w, match (s w).1 with inl r => ok_result r | inr a => good a end.
Lemma ok_bind {A B} (s : Step A) (f : A → Step B) (good : B → Prop) :
  ok_step (λ _, True) s → (∀ a, ok_step good (f a)) → ok_step good (s ≫= f).
Proof.
  intros Hs Hf w. specialize (Hs w). unfold mbind, step_bind. destruct (s w) as [[r|a] w']; [done|]. apply Hf.
Qed.
Lemma ok_ret {A} (good : A → Prop) (a : A) : good a → ok_step good (mret a).
Proof. by intros Ha w. Qed.
Lemma ok_fail {A} secrets m reason (good : A → Prop) : ok_step good (fail out_real secrets m reason).
Proof. by intros w. Qed.
Lemma ok_effect c : ok_step (λ _, True) (effect ext c).
Proof. intros w. unfold effect. by destruct (_effect _). Qed.
Lemma ok_require secrets m c text : ok_step (λ _, True) (require out_real ext secrets m c text).
Proof. apply ok_bind; [apply ok_effect|]. intros [[] v]; [by apply ok_ret|apply ok_fail]. Qed.
Lemma ok_guard secrets m b text : ok_step (λ _, True) (guard out_real secrets m b text).
Proof. unfold guard. destruct b; [by apply ok_ret|apply ok_fail]. Qed.
Lemma ok_restart_and_check secrets m prev : ok_step ok_result (restart_and_check out_real out_isdir io pid ext clock sleeps secrets m prev).
Proof.
  assert (∀ reason, ok_step ok_result (_roll_back out_real out_isdir io pid ext secrets m reason)) as Hrb.
  { intros reason w. unfold _roll_back, effect. destruct (on_disk _ w). destruct (_effect _). destruct (on_disk _ _). done. }
  apply ok_bind; [apply ok_effect|]. intros [[] v]; cbn [fst snd negb]; [|apply Hrb]. intros w.
  destruct (_wait_for_health _ _ _ w) as [[] w1]; cbn [negb]; [|apply Hrb].
  unfold mbind, step_bind, run_prune. by destruct (on_disk _ w1).
Qed.
Lemma ok_staged secrets m has_stop staging : ok_step ok_result
  (staged factory_app out_real out_isdir out_exists io pid releases_dir ext free_space isfile getsize clock sleeps secrets m has_stop staging).
Proof.
  intros w. unfold staged. destruct (free_space w) as [free|]; [|by apply ok_fail]. revert w.
  apply ok_bind; [apply ok_guard|intros _]. apply ok_bind; [apply ok_require|intros value].
  apply ok_bind; [intros w; apply ok_guard|intros _]. do 2 (apply ok_bind; [apply ok_require|intros _]).
  apply ok_bind; [intros w; destruct (getsize w _); [apply ok_guard|done]|intros _].
  apply ok_bind; [apply ok_require|intros _].
  apply ok_bind; [unfold quiesce; destruct (negb has_stop); [by apply ok_ret|]|intros _].
  { apply ok_bind; [done|intros _]. apply ok_bind; [apply ok_require|intros _; by apply ok_ret]. }
  do 2 (apply ok_bind; [apply ok_require|intros _]). apply ok_bind; [done|intros prev].
  apply ok_bind; [intros w; unfold run_switch; by destruct (on_disk _ w) as [[|[]] ?]|intros [ok reason]].
  destruct ok; [|apply ok_fail]. apply ok_bind; [done|intros _; apply ok_restart_and_check].
Qed.
Lemma install_ok secrets m has_stop force cv iv suffix w : ok_result (install secrets m has_stop force cv iv suffix w).1.
Proof.
  unfold install_update. destruct (negb (is_semver _)); [done|]. destruct (negb _ || _); [done|].
  destruct (negb force && _); [done|]. destruct (classify_manifest _ _ _) as [[[] ?] reason]; [|done].
  unfold with_staging. destruct (on_disk _ w) as [[e|[]] w1]; [done|].
  match goal with |- context [staged _ _ _ _ _ _ _ _ _ _ _ _ _ _ _ _ ?st w1] => pose proof (ok_staged secrets m has_stop st w1) as Hok end.
  destruct (staged _ _ _ _ _ _ _ _ _ _ _ _ _ _ _ _ _ w1) as [[r|r] w2]; done.
Qed.
(** *** Every entry of the log is an answer that was given *)

Definition internal (c : call) : bool := match c with CSwitch | CSleep _ | CRecordBad _ | CPrune _ => true | _ => false end.
Definition honest (l : list (call * bool)) : Prop :=
  ∀ i c b, l !! i = Some (c, b) → internal c = true ∨ ∃ w, r_calls w = take i l ∧ answer ext c w = b.
Definition honest_step {A} (s : Step A) : Prop := ∀ w, honest (r_calls w) → honest (r_calls (s w).2).
Lemma honest_log c ok w : honest (r_calls w) → (internal c = true ∨ ∃ w', r_calls w' = r_calls w ∧ answer ext c w' = ok) → honest (r_calls (log c ok w)).
Proof.
  intros Hh Hc i c' b' Hi. cbn in *. unfold constant in *. apply lookup_app_Some in Hi as [Hi|[Hge Hi]].
  - rewrite take_app_le by (apply lookup_lt_Some in Hi; lia). by eapply Hh.
  - apply list_lookup_singleton_Some in Hi as [Hz [= <- <-]]. by rewrite take_app_length' by lia.
Qed.
Lemma honest_bind {A B} (s : Step A) (f : A → Step B) : honest_step s → (∀ a, honest_step (f a)) → honest_step (s ≫= f).
Proof.
  intros Hs Hf w Hw. specialize (Hs w Hw). unfold mbind, step_bind. destruct (s w) as [[r|a] w']; [done|]. by apply Hf.
Qed.
Lemma honest_quiet {A} (s : Step A) : (∀ w, r_calls (s w).2 = r_calls w) → honest_step s.
Proof. intros Hs w Hw. by rewrite Hs. Qed.
Lemma honest_effect c : c ≠ CHealth → honest_step (effect ext c).
Proof.
  intros Hc w Hw. unfold effect. destruct (_effect (ext c w)) as [ok v] eqn:He. apply honest_log; [done|]. right. exists w. split; [done|].
  unfold answer. destruct c; try done; by rewrite He.
Qed.
Lemma honest_require secrets m c text : c ≠ CHealth → honest_step (require out_real ext secrets m c text).
Proof. intros Hc. apply honest_bind; [by apply honest_effect|]. intros [[] v]; by apply honest_quiet. Qed.
Lemma honest_guard secrets m b text : honest_step (guard out_real secrets m b text).
Proof. apply honest_quiet. by destruct b. Qed.
Lemma honest_poll n deadline w : honest (r_calls w) → honest (r_calls (poll_health ext clock sleeps n deadline w).2).
Proof.
  revert w. induction n as [|n IH]; intros w Hw; cbn [poll_health]; [done|].
  assert (honest (r_calls (log CHealth (_health_ok (ext CHealth w)) w))) as H1 by (apply honest_log; [done|right; by exists w]).
  destruct (_health_ok _); [done|]. destruct (_ <=? _); [done|]. destruct (_ <=? 0); [done|].
  assert (∀ b d, honest (r_calls (log (CSleep d) b (log CHealth false w)))) as H2 by (intros b d; apply honest_log; [done|by left]).
  destruct (negb _); [apply H2|]. apply IH, H2.
Qed.
Lemma honest_on_disk {A} (f : FS A) w : r_calls (on_disk f w).2 = r_calls w.
Proof. unfold on_disk. by destruct (f (r_disk w)). Qed.
Lemma honest_roll_back secrets m reason : honest_step (_roll_back out_real out_isdir io pid ext secrets m reason).
Proof.
  intros w Hw. unfold _roll_back. pose proof (honest_on_disk (_rollback out_real out_isdir io pid) w) as H1.
  destruct (on_disk _ w) as [r1 w1]. cbn [snd] in H1. rewrite <-H1 in Hw. set (c := CRestart _).
  pose proof (honest_effect c ltac:(done) w1 Hw) as H2. destruct (effect ext c w1) as [r2 w2]. cbn [snd] in H2.
  pose proof (honest_on_disk (record_bad_release out_real out_isdir io (version m)) w2) as H3.
  destruct (on_disk _ w2) as [r3 w3]. cbn [snd] in *. apply honest_log; [by rewrite H3|by left].
Qed.
Lemma honest_restart secrets m prev : honest_step (restart_and_check out_real out_isdir io pid ext clock sleeps secrets m prev).
Proof.
  apply honest_bind; [by apply honest_effect|]. intros [[] v]; cbn [fst snd negb]; [|apply honest_roll_back]. intros w Hw.
  unfold _wait_for_health. pose proof (honest_poll MAX_HEALTH_ATTEMPTS (clock w + HEALTH_TIMEOUT_SECONDS) w Hw) as Hp.
  destruct (poll_health _ _ _ _ _ w) as [[] w1]; cbn [negb snd] in *; [|by apply honest_roll_back].
  unfold mbind, step_bind, run_prune. set (P := List.filter _ _). pose proof (honest_on_disk (default_prune out_real out_isdir io P) w1) as H1.
  destruct (on_disk _ w1) as [r2 w2]. cbn [snd] in *. apply honest_log; [by rewrite H1|by left].
Qed.
Lemma honest_staged secrets m has_stop staging : honest_step
  (staged factory_app out_real out_isdir out_exists io pid releases_dir ext free_space isfile getsize clock sleeps secrets m has_stop staging).
Proof.
  intros w. unfold staged. destruct (free_space w) as [free|]; [|done]. revert w.
  apply honest_bind; [apply honest_guard|intros _]. apply honest_bind; [by apply honest_require|intros value].
  apply honest_bind; [intros w; apply honest_guard|intros _]. do 2 (apply honest_bind; [by apply honest_require|intros _]).
  apply honest_bind; [intros w; destruct (getsize w _); [apply honest_guard|done]|intros _].
  apply honest_bind; [by apply honest_require|intros _].
  apply honest_bind; [unfold quiesce; destruct (negb has_stop); [by apply honest_quiet|]|intros _].
  { apply honest_bind; [by apply honest_quiet|intros _]. apply honest_bind; [by apply honest_require|intros _; by apply honest_quiet]. }
  do 2 (apply honest_bind; [by apply honest_require|intros _]). apply honest_bind; [by apply honest_quiet|intros prev].
  apply honest_bind; [intros w Hw; unfold run_switch|intros [ok reason]].
  { set (sw := switch_release _ _ _ _ _ _ _ _). pose proof (honest_on_disk sw w) as H1. destruct (on_disk sw w) as [[e|[b why]] w1]; cbn [snd] in *;
      (apply honest_log; [by rewrite H1|by left]). }
  destruct ok; [|by apply honest_quiet]. apply honest_bind; [by apply honest_quiet|intros _; apply honest_restart].
Qed.
Lemma install_honest secrets m has_stop force cv iv suffix d :
  honest (r_calls (install secrets m has_stop force cv iv suffix (fresh_run d)).2).
Proof.
  assert (honest []) as H0 by done. unfold install_update. destruct (negb (is_semver _)); [done|]. destruct (negb _ || _); [done|].
  destruct (negb force && _); [done|]. destruct (classify_manifest _ _ _) as [[[] ?] reason]; [|done].
  unfold with_staging. cbn [negb]. set (mk := _ ← makedirs io; _). pose proof (honest_on_disk mk (fresh_run d)) as H1.
  destruct (on_disk mk (fresh_run d)) as [[e|[]] w1]; cbn [snd] in *; [by rewrite H1|].
  match goal with |- context [staged _ _ _ _ _ _ _ _ _ _ _ _ _ _ _ _ ?st w1] => pose proof (honest_staged secrets m has_stop st w1) as Hst end.
  destruct (staged _ _ _ _ _ _ _ _ _ _ _ _ _ _ _ _ _ w1) as [r w2]. cbn [snd] in *.
  assert (honest (r_calls w2)) as H2 by (apply Hst; by rewrite H1). clear Hst. unfold finally.
  match goal with |- context [exists_ _ _ (rel_tree (r_disk ?x)) _] => set (w3 := x) end.
  assert (honest (r_calls w3)) as H3 by (unfold w3; destruct (_ && _); [by apply honest_effect|done]).
  destruct (exists_ _ _ _ _); [by rewrite honest_on_disk|done].
Qed.
(** A version with a mark is refused at once, unless it is forced. *)
Lemma bad_listed v w : is_semver v = true → (v ++ u ".json") ∈ rel_bad w → v ∈ read_bad_versions w.
Proof.
  intros Hv Hb. apply list_elem_of_omap. exists (v ++ u ".json"). split; [by apply elem_of_elements|].
  unfold bad_version. assert (ends_with (u ".json") (v ++ u ".json") = true) as ->.
  { unfold ends_with. rewrite rev_app_distr. apply starts_with_prefix. }
  rewrite length_app. change (length (u ".json")) with 5%nat. rewrite take_app_le, take_ge by lia. by rewrite Hv.
Qed.
Lemma bad_refused secrets m has_stop cv iv suffix w :
  (version m ++ u ".json") ∈ rel_bad (r_disk w) →
  let '(res, w') := install secrets m has_stop false cv iv suffix w in w' = w ∧ in_outcome res = INSTALL_FAILED.
Proof.
  intros Hb. unfold install_update. destruct (is_semver (version m)) eqn:Hv; cbn [negb]; [|done].
  destruct (_ || _); [done|]. cbn [andb]. rewrite bool_decide_true; [done|].
  by apply bad_listed.
Qed.
End Guarantees.

(** C6: a run of the installer activates a release only after the download, both signatures,
    the size, the extraction, the environment and the preflight succeeded, in this order,
    each with the answer it got in the state in which the run asked: the free space was enough before
    the download, the bundle that is verified is the one the download named, and its size was
    the manifest's before it was extracted.  A run ends in one of three ways.  Failed: the
    pipeline stopped early, the old release still runs and nothing was activated or marked; a
    runtime that it stopped is restarted.  Installed: the new release runs and was found
    healthy, and the old one is still there.  Rolled back: the restart or the health check
    failed; the old release runs, or a file operation failed and the new one still
    runs; the new one is marked, unless a file operation failed or a file has the name
    of the directory of marks.  At every moment in between, the old or the new release runs. *)
Theorem install_update_safe `{UnicodeDB} factory_app out_real out_isdir out_exists io pid releases_dir ext free_space isfile
    getsize clock sleeps `{!OutsideOk factory_app out_real out_isdir} secrets m has_stop force cv iv suffix d :
  layout (rel_tree d) → dangles out_real out_isdir (rel_tree d) = false →
  let old := _current_target factory_app out_real out_isdir (rel_tree d) in
  let '(res, w') := install_update factory_app out_real out_isdir out_exists io pid releases_dir ext free_space isfile getsize
    clock sleeps secrets m has_stop force cv iv suffix (fresh_run d) in
  passed (between factory_app out_real out_isdir old (Rel (version m))) d (r_disk w') ∧
  run_outcome_ok factory_app out_real out_isdir io releases_dir ext free_space isfile getsize m has_stop suffix old (opened io m suffix (fresh_run d)) res w'.
Proof. by apply install_update_spec. Qed.

(** C7: an installation that is interrupted after any of its file operations leaves a
    directory that recovery makes tidy, with the old or the new release running. *)
Theorem interrupted_install_recovers `{UnicodeDB} factory_app out_real out_isdir out_exists io pid releases_dir ext free_space isfile
    getsize clock sleeps `{!OutsideOk factory_app out_real out_isdir} secrets m has_stop force cv iv suffix d n t d2 pid2 :
  layout (rel_tree d) → dangles out_real out_isdir (rel_tree d) = false →
  let running := _current_target factory_app out_real out_isdir in
  let w' := (install_update factory_app out_real out_isdir out_exists io pid releases_dir ext free_space isfile getsize
    clock sleeps secrets m has_stop force cv iv suffix (fresh_run d)).2 in
  (length (rel_past d) ≤ n)%nat → rel_past (r_disk w') !! n = Some t →
  rel_tree d2 = t → rel_present d2 = true →
  let d3 := (recover_interrupted factory_app out_real out_isdir (λ _, None) pid2 d2).2 in
  tidy out_real out_isdir (rel_tree d3) ∧ dangles out_real out_isdir (rel_tree d3) = false ∧
  running (rel_tree d3) = running t ∧ (running t = running (rel_tree d) ∨ running t = Rel (version m)).
Proof.
  intros Hl Hd running w' Hn Ht <- Hp d3.
  pose proof (install_update_spec factory_app out_real out_isdir out_exists io pid releases_dir ext free_space isfile getsize clock
    sleeps secrets m has_stop force cv iv suffix d Hl Hd) as Hsp. cbv zeta in Hsp. unfold w' in Ht.
  destruct (install_update _ _ _ _ _ _ _ _ _ _ _ _ _ _ _ _ _ _ _ _ (fresh_run d)) as [res w]. cbn [snd] in Ht.
  destruct Hsp as [(new & Hnew & Hf) _]. change (rel_past (r_disk w)) with (past (r_disk w)) in Ht. rewrite Hnew, lookup_app_r in Ht by done.
  assert (between factory_app out_real out_isdir (running (rel_tree d)) (Rel (version m)) (rel_tree d2)) as Hb.
  { rewrite Forall_forall in Hf. apply Hf. by eapply list_elem_of_lookup_2. }
  assert (layout (rel_tree d2) ∧ dangles out_real out_isdir (rel_tree d2) = false ∧
    (running (rel_tree d2) = running (rel_tree d) ∨ running (rel_tree d2) = Rel (version m))) as (Hl2 & Hd2 & Hr2)
    by (destruct Hb as [(? & ? & ?)|(? & ? & ?)]; auto).
  destruct (wp_recover factory_app out_real out_isdir (λ _, None) pid2 d2 Hl2 Hp) as [_ (rep & _ & Hrec)].
  destruct Hrec as (_ & _ & _ & Hok). destruct Hok as (Htd & _ & Hr3 & Hd3); [by intros (? & ? & ?)|by rewrite Hd2|].
  rewrite Hd2 in Hr3. split_and!; done.
Qed.

(** On a disk without errors, the command [install] ends with code 0 exactly when the
    release of a verified manifest is installed, running and found healthy; otherwise what
    runs is what ran before, or the repair of a dangling link. *)
Theorem cli_install_outcome `{UnicodeDB} factory_app out_real out_isdir out_exists pid releases_dir ext free_space isfile
    getsize clock sleeps json_loads netloc_ok `{!OutsideOk factory_app out_real out_isdir} c d :
  layout (rel_tree d) → rel_present d = true → rel_tree d !! tmp_name pid CURRENT = None →
  let running := _current_target factory_app out_real out_isdir in
  let before := if dangles out_real out_isdir (rel_tree d) then repaired factory_app (rel_tree d) else running (rel_tree d) in
  let '(code, info, w') := _cli_install factory_app out_real out_isdir out_exists (λ _, None) pid releases_dir ext free_space isfile
    getsize clock sleeps json_loads netloc_ok c d in
  (code = Some 0 →
     ∃ m res payload, info = Some (m, res) ∧ (l_verified c).1 = true ∧ l_payload c = Some payload ∧
       parse_manifest json_loads netloc_ok payload [] [] = Valid m ∧
       running (rel_tree (r_disk w')) = Rel (version m) ∧ (CHealth, true) ∈ r_calls w') ∧
  (code ≠ Some 0 → running (rel_tree (r_disk w')) = before).
Proof.
  intros Hl Hp Htmp running before. unfold _cli_install.
  destruct (wp_recover factory_app out_real out_isdir (λ _, None) pid d Hl Hp) as [_ (rep & _ & _ & _ & _ & Hrec)].
  destruct Hrec as (_ & Hl1 & Hr1 & Hd1); [by intros (? & ? & ?)|done|].
  destruct (recover_interrupted _ _ _ _ _ d) as [r d1]. cbn [snd] in *. change (running (rel_tree d1) = before) in Hr1.
  destruct (_resolve_versions _ _ _ _) as [display compare].
  destruct (l_source c) as [[]|[]|]; try done. all: destruct (l_verified c) as [[] reason]; cbn [fst negb]; [|done].
  all: destruct (l_payload c) as [payload|]; [|done]; destruct (parse_manifest _ _ _ _ _) as [m| |] eqn:Hm; [|done|done].
  all: pose proof (install_ok factory_app out_real out_isdir out_exists (λ _, None) pid releases_dir ext free_space isfile getsize
    clock sleeps [] m true (l_force c) compare (l_image c) (l_suffix c) (fresh_run d1)) as Hok.
  all: pose proof (install_update_spec factory_app out_real out_isdir out_exists (λ _, None) pid releases_dir ext free_space isfile getsize
    clock sleeps [] m true (l_force c) compare (l_image c) (l_suffix c) d1 Hl1 Hd1) as Hsp; cbv zeta in Hsp.
  all: destruct (install_update _ _ _ _ _ _ _ _ _ _ _ _ _ _ _ _ _ _ _ _ (fresh_run d1)) as [res w']; cbn [fst] in Hok.
  all: destruct Hsp as (_ & l & Hs & Hout); rewrite Hok.
  all: assert (running (rel_tree (r_disk w')) = l) as Hrun by apply Hs; rewrite Hrun.
  all: destruct Hout as [(-> & -> & _)|(bundle & new & Hc & _ & Hend & _)]; [split; [done|]; intros _; exact Hr1|].
  all: destruct Hend as [ps P b Hps _|first l v b mk _ [->|[_ (? & ? & ?)]] _]; [|split; [done|intros _; exact Hr1]|done].
  all: split; [intros _|done]; exists m, res, payload; split_and!; try done; rewrite Hc.
  all: destruct Hps as (l' & -> & _); rewrite !elem_of_app, elem_of_cons, !elem_of_app, elem_of_cons; auto 10.
Qed.

(** *** The availability check *)

Lemma jitter_bounds rng : CHECK_INTERVAL_SECONDS / 2 ≤ _jittered_interval rng ≤ CHECK_INTERVAL_SECONDS + CHECK_INTERVAL_SECONDS / 2.
Proof.
  unfold _jittered_interval, CHECK_INTERVAL_SECONDS. change (24 * 60 * 60 / 2) with 43200. destruct rng as [[offset|]|]; lia.
Qed.
Definition check_passes `{UnicodeDB} json_loads netloc_ok (k : check_io) (cv iv : pystr) (bad : list pystr) (force_reinstall : bool) (m : Manifest) : Prop :=
  ∃ payload, _effect (k_fetch k) = (true, payload) ∧ (∀ o, k_verify k = Some o → (_effect o).1 = true) ∧
    parse_manifest json_loads netloc_ok payload [] [] = Valid m ∧ (force_reinstall = true ∨ version m ∉ bad) ∧
    (classify_manifest m cv iv).1.1 = true.
Lemma check_available `{UnicodeDB} json_loads netloc_ok k cv iv force bad force_reinstall last :
  let r := (check_for_update json_loads netloc_ok k cv iv force bad force_reinstall last).1 in
  (ck_outcome r = CHECK_AVAILABLE → ∃ m, ck_manifest r = Some m ∧ check_passes json_loads netloc_ok k cv iv bad force_reinstall m) ∧
  (∀ m, ck_checked r = true → check_passes json_loads netloc_ok k cv iv bad force_reinstall m →
     ck_outcome r = CHECK_AVAILABLE ∧ ck_manifest r = Some m).
Proof.
  unfold check_for_update, check_passes. destruct (negb _); [done|].
  destruct (_effect (k_fetch k)) as [[] payload] eqn:Hf; cbn [negb].
  2: { split; [done|]. intros m _ (p & [=] & _). }
  assert (∀ b : bool, (∀ o, k_verify k = Some o → (_effect o).1 = b) →
    (match k_verify k with Some o => _effect o | None => (true, VStr []) end).1 = match k_verify k with Some _ => b | None => true end) as Hb.
  { intros b Hb. destruct (k_verify k) as [o|]; [by apply Hb|done]. }
  destruct (match k_verify k with Some o => _effect o | None => (true, VStr []) end) as [verified reason] eqn:Hv; cbn [fst] in Hb.
  assert (verified = true ↔ ∀ o, k_verify k = Some o → (_effect o).1 = true) as Hvi.
  { split; [|intros Hall; specialize (Hb true Hall); by destruct (k_verify k)]. intros -> o Ho. rewrite Ho in Hv. by rewrite Hv. }
  destruct verified; cbn [negb].
  2: { split; [done|]. intros m _ (p & _ & Hall & _). by apply Hvi in Hall. }
  destruct (parse_manifest _ _ payload _ _) as [m| |] eqn:Hm.
  2,3: split; [done|]; intros m _ (p & [= <-] & _ & Hp & _); congruence.
  destruct (negb force_reinstall && _is_bad_version m bad) eqn:Hbad.
  { apply andb_true_iff in Hbad as [Hnf%negb_true_iff Hin%bool_decide_eq_true]. split; [done|].
    intros m' _ (p & [= <-] & _ & Hp & [?|Hni] & _); [congruence|]. rewrite Hm in Hp. injection Hp as <-. done. }
  assert (force_reinstall = true ∨ version m ∉ bad) as Hgood.
  { apply andb_false_iff in Hbad as [?%negb_false_iff|?%bool_decide_eq_false]; auto. }
  destruct (classify_manifest m cv iv) as [[[] verdict] why] eqn:Hcl; cbn.
  - split; [intros _|intros m' _ (p & [= <-] & _ & Hp & _)].
    + exists m. split; [done|]. exists payload. rewrite Hcl. split_and!; try done. by apply Hvi.
    + rewrite Hm in Hp. by injection Hp as <-.
  - split; [by destruct verdict|]. intros m' _ (p & [= <-] & _ & Hp & _ & Hc). rewrite Hm in Hp. injection Hp as <-. by rewrite Hcl in Hc.
Qed.
(** The availability check offers a release exactly when it is due and the manifest was
    fetched, verified and parsed, is not marked bad unless forced, and is newer and fits
    the image.  It is due after 36 hours at the latest, never before 12 hours unless
    forced, and a check that is not due leaves the stored time. *)
Theorem check_offers `{UnicodeDB} json_loads netloc_ok k cv iv force bad force_reinstall last :
  let '(r, last') := check_for_update json_loads netloc_ok k cv iv force bad force_reinstall last in
  (∀ m, ck_outcome r = CHECK_AVAILABLE ∧ ck_manifest r = Some m ↔
        ck_checked r = true ∧ check_passes json_loads netloc_ok k cv iv bad force_reinstall m) ∧
  (ck_checked r = false → last' = last ∧ ck_outcome r = CHECK_UP_TO_DATE) ∧
  (∀ l, last = Some l → k_now k - l < CHECK_INTERVAL_SECONDS / 2 → ck_checked r = force) ∧
  (∀ l, last = Some l → CHECK_INTERVAL_SECONDS + CHECK_INTERVAL_SECONDS / 2 ≤ k_now k - l → ck_checked r = true) ∧
  (last = None ∨ force = true → ck_checked r = true).
Proof.
  pose proof (check_available json_loads netloc_ok k cv iv force bad force_reinstall last) as [Ha1 Ha2].
  pose proof (jitter_bounds (k_rng k)) as Hj. set (due := match last with Some l => force || negb (k_now k - l <? _jittered_interval (k_rng k)) | None => true end).
  assert (ck_checked (check_for_update json_loads netloc_ok k cv iv force bad force_reinstall last).1 = due ∧
    (due = false → (check_for_update json_loads netloc_ok k cv iv force bad force_reinstall last).2 = last ∧
       ck_outcome (check_for_update json_loads netloc_ok k cv iv force bad force_reinstall last).1 = CHECK_UP_TO_DATE)) as [Hdue Hnot].
  { unfold check_for_update. fold due. destruct due; cbn [negb]; [|done].
    destruct (_effect (k_fetch k)) as [[] p]; [|done]. destruct (match k_verify k with Some o => _effect o | None => _ end) as [[] ?]; [|done].
    cbn [negb]. destruct (parse_manifest _ _ _ _ _) as [m| |]; [|done|done]. destruct (_ && _); [done|]. by destruct (classify_manifest _ _ _) as [[[] ?] ?]. }
  destruct (check_for_update _ _ _ _ _ _ _ _ _) as [r last']. cbn [fst snd] in *. rewrite Hdue in *.
  split_and!.
  - intros m. split.
    + intros [Ho Hm]. destruct (Ha1 Ho) as (m' & Hm' & Hp). rewrite Hm in Hm'. injection Hm' as <-. split; [|done].
      destruct due; [done|]. destruct Hnot; congruence.
    + intros [? ?]. by apply Ha2.
  - apply Hnot.
  - intros l -> Hl. unfold due. rewrite (proj2 (Z.ltb_lt _ _)) by lia. by rewrite orb_false_r.
  - intros l -> Hl. unfold due. rewrite (proj2 (Z.ltb_ge _ _)) by lia. apply orb_true_r.
  - unfold due. intros [->| ->]; [done|]. by destruct last.
Qed.

Lemma mark_call old d m io o l new bad_v : ending io m old d o l new → (CRecordBad bad_v, true) ∈ new →
  bad_v = version m ∧ (version m ++ u ".json") ∈ rel_bad d.
Proof.
  assert (∀ ps, Forall not_yet ps → (CRecordBad bad_v, true) ∉ ps) as Hno.
  { intros ps Hps Hin. rewrite Forall_forall in Hps. destruct (Hps _ Hin) as [[=]|(? & ? & [=] & _)]. }
  intros [ps P b (l' & -> & Hl') _|first l' v b mk Hfirst _ Hmk].
  - rewrite !elem_of_cons, !elem_of_app, !list_elem_of_singleton. intros [[=]|[[Hin|[=]]|[=]]]. by apply Hno in Hin.
  - rewrite elem_of_app, !elem_of_cons, elem_of_nil. intros [Hin|[[=]|[[= -> <-]|[]]]]; [exfalso|auto].
    destruct Hfirst as [->|(ps & -> & Hps)].
    + by apply list_elem_of_singleton in Hin.
    + apply elem_of_cons in Hin as [[=]|Hin]. by apply Hno in Hin.
Qed.
(** C37: once a run of the installer has marked its version as bad, the installer refuses
    that version without a call and without touching the disk, and the availability check
    does not offer it, unless a reinstallation is forced. *)
Theorem marked_release_refused `{UnicodeDB} factory_app out_real out_isdir out_exists io pid releases_dir ext free_space isfile
    getsize clock sleeps json_loads netloc_ok `{!OutsideOk factory_app out_real out_isdir} secrets m has_stop force cv iv suffix d :
  layout (rel_tree d) → dangles out_real out_isdir (rel_tree d) = false →
  let install := install_update factory_app out_real out_isdir out_exists io pid releases_dir ext free_space isfile getsize clock sleeps in
  let w' := (install secrets m has_stop force cv iv suffix (fresh_run d)).2 in
  (CRecordBad (version m), true) ∈ r_calls w' →
  (∀ m2 cv2 iv2 suffix2, version m2 = version m →
     let '(res, w2) := install secrets m2 has_stop false cv2 iv2 suffix2 (fresh_run (r_disk w')) in
     w2 = fresh_run (r_disk w') ∧ in_outcome res = INSTALL_FAILED) ∧
  (∀ k cv2 iv2 f last m2, let r := (check_for_update json_loads netloc_ok k cv2 iv2 f (read_bad_versions (r_disk w')) false last).1 in
     ck_manifest r = Some m2 → version m2 = version m → ck_outcome r ≠ CHECK_AVAILABLE).
Proof.
  intros Hl Hd install w' Hin.
  pose proof (install_update_spec factory_app out_real out_isdir out_exists io pid releases_dir ext free_space isfile getsize clock
    sleeps secrets m has_stop force cv iv suffix d Hl Hd) as Hsp. cbv zeta in Hsp.
  assert (is_semver (version m) = true) as Hsem.
  { unfold w', install, install_update in Hin. destruct (is_semver (version m)); [done|]. by apply elem_of_nil in Hin. }
  assert ((version m ++ u ".json") ∈ rel_bad (r_disk w')) as Hbad.
  { unfold w', install in *. destruct (install_update _ _ _ _ _ _ _ _ _ _ _ _ _ _ _ _ _ _ _ _ (fresh_run d)) as [res w]. cbn [snd] in *.
    destruct Hsp as (_ & l & _ & [(_ & _ & bundle & k & new & v & b & Hst & _ & Hc)|(bundle & new & Hc & _ & Hend & _)]); rewrite Hc in Hin.
    - exfalso. apply elem_of_app in Hin as [Hin|Hin]; [|by case_bool_decide; [apply list_elem_of_singleton in Hin|apply elem_of_nil in Hin]].
      assert ((CRecordBad (version m)) ∈ pipeline has_stop bundle) as Hp; [|by destruct has_stop; cbn in Hp; set_solver].
      assert (∀ x, (x, true) ∈ passed_calls (pipeline has_stop bundle) k → x ∈ pipeline has_stop bundle) as Hx.
      { intros x (y & [= ->] & Hy)%list_elem_of_fmap. by eapply elem_of_take in Hy as (? & ? & _); apply list_elem_of_lookup_2 in H0. }
      destruct Hst as [->|(c & _ & ->)]; [by apply Hx|]. apply elem_of_app in Hin as [Hin|Hin]; [by apply Hx|by apply list_elem_of_singleton in Hin].
    - apply elem_of_app in Hin as [Hin|Hin]; [exfalso; destruct has_stop; cbn in Hin; set_solver|]. by eapply mark_call. }
  split.
  - intros m2 cv2 iv2 suffix2 Hv. apply bad_refused. by rewrite Hv.
  - intros k cv2 iv2 f last m2 r Hm2 Hv Ho. destruct (check_available json_loads netloc_ok k cv2 iv2 f (read_bad_versions (r_disk w')) false last) as [Ha _].
    destruct (Ha Ho) as (m3 & Hm3 & _ & _ & _ & _ & [[=]|Hni] & _). fold r in Hm3. rewrite Hm2 in Hm3. injection Hm3 as <-. apply Hni. rewrite Hv. by apply bad_listed.
Qed.

(** ** Evaluation on a device *)

Definition demo_factory : pystr := u "/opt/pibuddycam".
Definition demo_isdir (p : pystr) : bool := bool_decide (p = demo_factory).
#[export] Instance demo_outside : OutsideOk demo_factory (λ p, p) demo_isdir.
Proof. split; [done|done|]. by vm_compute. Qed.
Definition demo_tree : dir := {[u "1.0.0" := NDir; CURRENT := NLink (Rel (u "1.0.0"))]}.
Definition demo_disk : releases :=
  {| rel_present := true; rel_tree := demo_tree; rel_bad := ∅; rel_ops := 0; rel_past := [] |}.
Definition demo_manifest : Manifest :=
  {| schema_version := 1; version := u "2.0.0"; channel := u "stable"; source_commit := u "abc"; min_image_version := u "1.0.0";
     bundle_url := u "https://x.example/b"; bundle_sha256 := replicate 64 97; bundle_size := 1000; release_summary := u "new";
     release_url := u "https://x.example/r"; reboot_required := false |}.
(** Every call succeeds, except that the release may not be healthy. *)
Definition demo_ext (healthy : bool) (c : call) (w : run) : outcome :=
  match c with CHealth => Scalar healthy | _ => Pair true (VStr []) end.
Definition demo_clock (w : run) : Z := 5 * Z.of_nat (length (r_calls w)).
Definition demo_install (healthy : bool) (io : nat → option pystr) : InstallResult * run :=
  install_update demo_factory (λ p, p) demo_isdir (λ _, false) io 7 (u "/data/releases") (demo_ext healthy) (λ _, Some (2 ^ 40))
    (λ _ _, true) (λ _ _, Some 1000) demo_clock (λ _, true) [] demo_manifest true false [] [] (u "x") (fresh_run demo_disk).

Lemma demo_layout : layout demo_tree.
Proof.
  split.
  - intros n l. unfold demo_tree. rewrite lookup_insert_Some, lookup_singleton_Some. by intros [[<- [=]]|[_ [<- _]]].
  - intros n nd Hn. unfold demo_tree. rewrite lookup_insert_Some, lookup_singleton_Some. intros [[<- _]|[_ [<- <-]]]; [by destruct Hn|].
    exists (Rel (u "1.0.0")). split; [reflexivity|]. vm_compute. reflexivity.
Qed.
Lemma demo_sound : dangles (λ p, p) demo_isdir demo_tree = false.
Proof. by vm_compute. Qed.

Lemma install_update_safe_witness :
  in_outcome (demo_install true (λ _, None)).1 = INSTALL_INSTALLED ∧
  run_outcome_ok demo_factory (λ p, p) demo_isdir (λ _, None) (u "/data/releases") (demo_ext true) (λ _, Some (2 ^ 40)) (λ _ _, true) (λ _ _, Some 1000)
    demo_manifest true (u "x") (Rel (u "1.0.0")) (opened (λ _, None) demo_manifest (u "x") (fresh_run demo_disk)) (demo_install true (λ _, None)).1 (demo_install true (λ _, None)).2.
Proof.
  split; [by vm_compute|].
  pose proof (install_update_safe demo_factory (λ p, p) demo_isdir (λ _, false) (λ _, None) 7 (u "/data/releases") (demo_ext true)
    (λ _, Some (2 ^ 40)) (λ _ _, true) (λ _ _, Some 1000) demo_clock (λ _, true) [] demo_manifest true false [] [] (u "x")
    demo_disk demo_layout demo_sound) as Hs. cbv zeta in Hs. fold (demo_install true (λ _, None)) in Hs.
  destruct (demo_install true (λ _, None)) as [res w']. destruct Hs as [_ Hs]. exact Hs.
Defined.
(** The directory between the renaming and the links, and after recovery. *)
Definition demo_stop : dir := default ∅ (rel_past (r_disk (demo_install true (λ _, None)).2) !! 3%nat).
Definition demo_stopped : releases := {| rel_present := true; rel_tree := demo_stop; rel_bad := ∅; rel_ops := 0; rel_past := [] |}.
Definition demo_recovered : releases := (recover_interrupted demo_factory (λ p, p) demo_isdir (λ _, None) 8 demo_stopped).2.
Lemma interrupted_install_recovers_witness :
  demo_stop !! u "2.0.0" = Some NDir ∧ rel_tree demo_recovered !! u "2.0.0" = None ∧ tidy (λ p, p) demo_isdir (rel_tree demo_recovered).
Proof.
  split; [vm_compute; reflexivity|]. split; [vm_compute; reflexivity|].
  apply (interrupted_install_recovers demo_factory (λ p, p) demo_isdir (λ _, false) (λ _, None) 7 (u "/data/releases") (demo_ext true)
    (λ _, Some (2 ^ 40)) (λ _ _, true) (λ _ _, Some 1000) demo_clock (λ _, true) [] demo_manifest true false [] [] (u "x")
    demo_disk 3 demo_stop demo_stopped 8 demo_layout demo_sound); [cbn; lia|vm_compute; reflexivity|reflexivity|reflexivity].
Defined.

Definition demo_payload : pyval :=
  VDict [(VStr (u "schema_version"), VInt 1); (VStr (u "version"), VStr (u "2.0.0")); (VStr (u "min_image_version"), VStr (u "1.0.0"));
         (VStr (u "channel"), VStr (u "stable")); (VStr (u "source_commit"), VStr (u "abc"));
         (VStr (u "bundle_url"), VStr (u "https://x.example/b")); (VStr (u "release_url"), VStr (u "https://x.example/r"));
         (VStr (u "bundle_sha256"), VStr (replicate 64 97)); (VStr (u "bundle_size"), VInt 1000);
         (VStr (u "release_summary"), VStr (u "new")); (VStr (u "reboot_required"), VBool false)].
Definition demo_cli_io : cli_io :=
  {| l_source := FromUrl true; l_verified := (true, []); l_payload := Some demo_payload; l_override := []; l_display := u "0.0.0+local";
     l_image := []; l_force := false; l_suffix := u "x" |}.
Definition demo_cli (healthy : bool) : option Z * option (Manifest * InstallResult) * run :=
  _cli_install demo_factory (λ p, p) demo_isdir (λ _, false) (λ _, None) 7 (u "/data/releases") (demo_ext healthy) (λ _, Some (2 ^ 40))
    (λ _ _, true) (λ _ _, Some 1000) demo_clock (λ _, true) (λ _, Raise ValueError) (λ _, true) demo_cli_io demo_disk.
Lemma cli_install_outcome_witness :
  (demo_cli true).1.1 = Some 0 ∧ (demo_cli false).1.1 = Some 1 ∧
  _current_target demo_factory (λ p, p) demo_isdir (rel_tree (r_disk (demo_cli false).2)) = Rel (u "1.0.0").
Proof.
  split; [vm_compute; reflexivity|]. assert ((demo_cli false).1.1 = Some 1) as Hc by (vm_compute; reflexivity). split; [done|].
  pose proof (cli_install_outcome demo_factory (λ p, p) demo_isdir (λ _, false) 7 (u "/data/releases") (demo_ext false) (λ _, Some (2 ^ 40))
    (λ _ _, true) (λ _ _, Some 1000) demo_clock (λ _, true) (λ _, Raise ValueError) (λ _, true) demo_cli_io demo_disk demo_layout
    eq_refl ltac:(vm_compute; reflexivity)) as Ho. cbv zeta in Ho. fold (demo_cli false) in Ho.
  destruct (demo_cli false) as [[code info] w]. cbn [fst snd] in Hc |- *. destruct Ho as [_ Ho].
  rewrite Ho by congruence. vm_compute. reflexivity.
Defined.
Lemma marked_release_refused_witness :
  let w := (demo_install false (λ _, None)).2 in
  (CRecordBad (u "2.0.0"), true) ∈ r_calls w ∧
  ∀ m2 cv2 iv2 suffix2, version m2 = u "2.0.0" →
    let '(res, w2) := install_update demo_factory (λ p, p) demo_isdir (λ _, false) (λ _, None) 7 (u "/data/releases") (demo_ext false)
      (λ _, Some (2 ^ 40)) (λ _ _, true) (λ _ _, Some 1000) demo_clock (λ _, true) [] m2 true false cv2 iv2 suffix2 (fresh_run (r_disk w)) in
    w2 = fresh_run (r_disk w) ∧ in_outcome res = INSTALL_FAILED.
Proof.
  intros w. assert ((CRecordBad (u "2.0.0"), true) ∈ r_calls w) as Hin.
  { apply (list_elem_of_lookup_2 _ (pred (length (r_calls w)))). vm_compute. reflexivity. }
  split; [exact Hin|].
  apply (marked_release_refused demo_factory (λ p, p) demo_isdir (λ _, false) (λ _, None) 7 (u "/data/releases") (demo_ext false)
    (λ _, Some (2 ^ 40)) (λ _ _, true) (λ _ _, Some 1000) demo_clock (λ _, true) (λ _, Raise ValueError) (λ _, true) [] demo_manifest
    true false [] [] (u "x") demo_disk demo_layout demo_sound Hin).
Defined.

(** The report can say that the release was rolled back although it still runs: when the
    link can not be replaced, the result of the roll-back is not looked at. *)
Example rolled_back_still_running :
  let '(res, w) := demo_install false (λ n, if (n =? 7)%nat then Some (u "OSError") else None) in
  in_outcome res = INSTALL_ROLLED_BACK ∧
  _current_target demo_factory (λ p, p) demo_isdir (rel_tree (r_disk w)) = Rel (u "2.0.0") ∧ u "2.0.0" ∈ read_bad_versions (r_disk w).
Proof. vm_compute. split_and!; [done|done|left]. Qed.
(** The state document can raise, for a percentage beyond the range of a float. *)
Example read_update_state_raises :
  @read_update_state ascii_db (λ _, Ret (VDict [(VStr (u "in_progress"), VBool true); (VStr (u "update_percentage"), VInt (10 ^ 400))]))
    (λ f, f) (Some []) = Raise OtherError.
Proof. vm_compute. reflexivity. Qed.
