(* ===== verification/UpdaterCalls.v ===== *)
(** [app/updater_install.py], third part: the callables that the command line binds: the
    download, the environment, the preflight, the health endpoints and the service actions.
    Sub-processes, sockets and files are answers of parameters. *)
From S2P Require Import Prelude Crash PyValue PyText MediaLibrary Updater Releases UpdaterInstall.

Definition PYTHON_BINARY : pystr := u "/usr/bin/python3".
Definition RUNTIME_LAUNCHER_UNITS : list pystr :=
  [u "pibuddycam.service"; u "pibuddycam-rtsp.service"; u "pibuddycam-ha-rtsp.service"; u "pibuddycam-admin.service"].
Definition PREFLIGHT_IMPORT_MODULES : list pystr := [u "config_schema"; u "mqtt_service"; u "updater"; u "settings_store"].
Definition DEFAULT_HEALTH_ENDPOINTS : pystr := u "127.0.0.1:80".
Definition MAX_SIGNATURE_DOWNLOAD_BYTES := 64 * 1024.

(** A finished command; a runner raises or returns one. *)
Record completed := { returncode : pyval; stderr : pyval }.
(** An exception is named by its class. *)
Definition call_result (A : Type) : Type := (pystr + A)%type.

(** [_IDENTIFIER_RE.match]. *)
Definition letter (c : Z) : bool := in_range 65 90 c || in_range 97 122 c || (c =? 95).
Definition _IDENTIFIER_RE : pystr → bool := dollar (λ s,
  match s with c :: r => letter c && forallb (λ c, letter c || is_digit c) r | [] => false end).

(** ** Preflight *)

Section Preflight.
Context (isfile : pystr → bool) (runner : list pystr → call_result completed) (repr : pystr → pystr).

Definition _preflight_python (staging : pystr) (python : pyval) : pystr :=
  match python with
  | VStr ((_ :: _) as p) => p
  | _ => let venv := path_join staging (u "venv/bin/python") in if isfile venv then venv else PYTHON_BINARY
  end.
Definition _preflight_returncode (r : completed) : Z := match returncode r with VInt z => z | _ => 1 end.
Definition _preflight_reason (prefix exception_name : pystr) : pystr :=
  if _IDENTIFIER_RE exception_name then sanitize (prefix ++ u " (" ++ exception_name ++ u ")") else prefix.
Definition _import_check_script (staging : pystr) (modules : list pystr) : pystr :=
  u "import sys; sys.path.insert(0, " ++ repr staging ++ u "); " ++ join_with (u "; ") (map (app (u "import ")) modules).
Definition _migration_dry_run_script (staging config_path : pystr) : pystr :=
  let lf := [10] in
  u "import sys" ++ lf ++ u "sys.path.insert(0, " ++ repr staging ++ u ")" ++ lf ++
  u "import config_schema as _c" ++ lf ++ u "try:" ++ lf ++
  u "    with open(" ++ repr config_path ++ u ", encoding=" ++ [34] ++ u "utf-8" ++ [34] ++ u ") as _h:" ++ lf ++
  u "        _text = _h.read()" ++ lf ++
  u "    _cfg = _c.parse_device(_text)" ++ lf ++
  u "    _c.migrate_device(_cfg, _cfg.get(" ++ [34] ++ u "schema_version" ++ [34] ++ u ", 1))" ++ lf ++
  u "except Exception as _e:" ++ lf ++
  u "    sys.stderr.write(type(_e).__name__)" ++ lf ++
  u "    sys.exit(1)" ++ lf.
Definition dry_run_text : pystr := u "release configuration migration dry-run failed".
Definition _migration_dry_run_reason (r : completed) : pystr :=
  let detail := _bounded_text (stderr r) (Z.of_nat MAX_REASON_LENGTH) in
  if _IDENTIFIER_RE detail then sanitize (dry_run_text ++ u " (" ++ detail ++ u ")") else dry_run_text.

(** One command: the reason of its failure, or none. *)
Definition stage (args : list pystr) (broken : pystr) (failed : completed → pystr) : option pystr :=
  match runner args with
  | inl name => Some (_preflight_reason broken name)
  | inr r => if _preflight_returncode r =? 0 then None else Some (failed r)
  end.
Definition default_preflight (staging : pystr) (python config_path : pyval) : bool * pystr :=
  if negb (isfile (path_join staging (u "main.py"))) then (false, u "release is missing main.py")
  else
    let interpreter := _preflight_python staging python in
    match stage [interpreter; u "-m"; u "compileall"; u "-q"; staging] (u "release preflight failed")
            (λ _, u "release preflight compilation failed") with
    | Some reason => (false, reason)
    | None =>
        match stage [interpreter; u "-c"; _import_check_script staging PREFLIGHT_IMPORT_MODULES] (u "release import check failed")
                (λ _, u "release core modules failed to import") with
        | Some reason => (false, reason)
        | None =>
            match config_path with
            | VStr ((_ :: _) as config) =>
                if isfile config then
                  match stage [interpreter; u "-c"; _migration_dry_run_script staging config] dry_run_text _migration_dry_run_reason with
                  | Some reason => (false, reason)
                  | None => (true, [])
                  end
                else (true, [])
            | _ => (true, [])
            end
        end
    end.

(** ** The environment and the services *)

Definition exit_text (prefix : string) (code : Z) : pystr := u prefix ++ u " (exit " ++ str_of_int code ++ u ")".
(** [subprocess.run] here returns the exit code. *)
Context (run_command : list pystr → call_result Z).
Definition command (args : list pystr) (text : string) : option pystr :=
  match run_command args with
  | inl name => Some (failure text name)
  | inr code => if code =? 0 then None else Some (exit_text text code)
  end.
Definition default_build_venv (staging : pystr) : bool * pystr :=
  let venv := path_join staging (u "venv") in
  let lock := path_join staging (u "requirements.lock") in
  match command [PYTHON_BINARY; u "-m"; u "venv"; u "--system-site-packages"; venv] "release venv creation failed" with
  | Some reason => (false, reason)
  | None =>
      if negb (isfile lock) then (true, [])
      else match command [path_join venv (u "bin/pip"); u "install"; u "--require-hashes"; u "--no-cache-dir"; u "--no-index";
                          u "--find-links"; path_join staging (u "wheels"); u "-r"; lock] "release dependency install failed" with
           | Some reason => (false, reason)
           | None => (true, [])
           end
  end.
(** [binary] is what [_resolve_binary] finds. *)
Definition _systemctl_units (binary : option pystr) (action : pystr) (text : string) : bool * pystr :=
  match binary with
  | None => (false, u "systemctl is unavailable")
  | Some b => match command (b :: action :: RUNTIME_LAUNCHER_UNITS) text with Some reason => (false, reason) | None => (true, []) end
  end.
Definition default_restart_services (binary : option pystr) : bool * pystr := _systemctl_units binary (u "restart") "service restart failed".
Definition default_stop_services (binary : option pystr) : bool * pystr := _systemctl_units binary (u "stop") "service stop failed".
End Preflight.

(** ** Health endpoints *)

(** [item.rpartition(':')] for an item with a colon. *)
Definition rpartition (item : pystr) : pystr * pystr :=
  match cut_at 58 (rev item) with Some (p, h) => (rev h, rev p) | None => ([], item) end.
Definition endpoint_of `{UnicodeDB} (item : pystr) : option (pystr * Z) :=
  let item := strip item in
  if bool_decide (item = []) || negb (contains_char 58 item) then None
  else
    let '(host, port) := rpartition item in
    let host := strip host in
    if bool_decide (host = []) then None
    else match int_of_str port with
         | None => None
         | Some n => if in_range 1 65535 n then Some (host, n) else None
         end.
Definition _parse_endpoints `{UnicodeDB} (raw : pystr) : list (pystr * Z) := omap endpoint_of (split_on 44 raw).
(** [raw] is the environment override, [connects] whether a connection is accepted. *)
Definition default_health_check `{UnicodeDB} (raw : option pystr) (connects : pystr → Z → bool) : bool :=
  let endpoints := _parse_endpoints (match raw with Some ((_ :: _) as s) => s | _ => DEFAULT_HEALTH_ENDPOINTS end) in
  match endpoints with [] => false | _ => forallb (λ e, connects e.1 e.2) endpoints end.

(** ** Download *)

(** What a response yields: the final URL and its blocks, or the class of an exception. *)
Record response := { final_url : pystr; blocks : list bytes }.
Fixpoint copy_blocks (limit written : Z) (bs : list bytes) (acc : bytes) : option bytes :=
  match bs with
  | [] => Some acc
  | b :: bs =>
      if bool_decide (b = []) then Some acc
      else if limit <? written + size b then None
      else copy_blocks limit (written + size b) bs (acc ++ b)
  end.
Definition _download_to (r : call_result response) (limit : Z) : call_result bytes :=
  match r with
  | inl name => inl name
  | inr r =>
      if negb (starts_with (u "https://") (final_url r)) then inl (u "ValueError")
      else match copy_blocks limit 0 (blocks r) [] with None => inl (u "ValueError") | Some b => inr b end
  end.
(** The bundle and its signature as they are left in the staging directory. *)
Definition default_download (urlopen : pystr → call_result response) (m : Manifest) (staging : pystr)
    : (bool * pystr) * option (bytes * bytes) :=
  if bool_decide (bundle_url m = []) then ((false, u "bundle url is missing"), None)
  else if negb (_valid_bundle_size (bundle_size m)) then ((false, u "bundle size is invalid"), None)
  else match _download_to (urlopen (bundle_url m)) (bundle_size m) with
       | inl name => ((false, failure "bundle download failed" name), None)
       | inr bundle =>
           match _download_to (urlopen (bundle_url m ++ u ".minisig")) MAX_SIGNATURE_DOWNLOAD_BYTES with
           | inl name => ((false, failure "bundle download failed" name), None)
           | inr signature => ((true, path_join staging BUNDLE_FILENAME), Some (bundle, signature))
           end
       end.

(** ** The command line's callables *)

Definition DEFAULT_PUBLIC_KEY_PATH : pystr := u "/usr/share/pibuddycam/pibuddycam-release.pub".
(** What the system answers at a moment of the run. *)
Record system := {
  y_urlopen : pystr → call_result response;
  y_isfile : pystr → bool;
  y_runner : list pystr → res Z;                          (* minisign and zstd *)
  y_realpath : pystr → option pystr;
  y_bundle : bundle_io;
  y_python : list pystr → call_result completed;          (* the commands of the preflight *)
  y_command : list pystr → call_result Z;                 (* venv, pip and systemctl *)
  y_systemctl : option pystr;
  y_endpoints : option pystr;
  y_connects : pystr → Z → bool;
}.
Section Bound.
Context `{UnicodeDB} (repr : pystr → pystr) (sys : run → system) (manifest_path config_path staging : pystr) (m : Manifest).

Definition pair_of (r : bool * pystr) : outcome := Pair r.1 (VStr r.2).
Definition verify (w : run) (path : pystr) : bool * pystr :=
  _verify_file (y_isfile (sys w)) (y_runner (sys w)) (VStr path) VNone (VStr DEFAULT_PUBLIC_KEY_PATH).
(** The callables that [_cli_install] passes; the last four calls are the program's own. *)
Definition cli_ext (c : call) (w : run) : outcome :=
  let y := sys w in
  match c with
  | CDownload => pair_of (default_download (y_urlopen y) m staging).1
  | CVerifyManifest => pair_of (verify w manifest_path)
  | CVerifyBundle path => pair_of (verify w path)
  | CExtract path =>
      pair_of (extract_bundle (y_isfile y) (y_runner y) (y_realpath y) (y_bundle y) (VStr path) (VStr staging) (Some (VStr (bundle_sha256 m)))).1
  | CStop => pair_of (default_stop_services (y_command y) (y_systemctl y))
  | CVenv => pair_of (default_build_venv (y_isfile y) (y_command y) staging)
  | CPreflight => pair_of (default_preflight (y_isfile y) (y_python y) repr staging VNone (VStr config_path))
  | CRestart _ => pair_of (default_restart_services (y_command y) (y_systemctl y))
  | CHealth => Scalar (default_health_check (y_endpoints y) (y_connects y))
  | CSwitch | CSleep _ | CRecordBad _ | CPrune _ => Nothing
  end.
End Bound.

(** ** What the callables promise *)

Lemma verify_signed sys w path : (verify sys w path).1 = true →
  y_runner (sys w) (minisign_args path DEFAULT_PUBLIC_KEY_PATH (path ++ u ".minisig")) = Ret 0.
Proof.
  unfold verify. destruct (_verify_file _ _ _ _ _) as [ok reason] eqn:Hv. cbn. intros ->.
  apply verify_file_sound in Hv as (p & k & s & [= <-] & [= <-] & [[=]|[_ ->]] & _ & _ & _ & Hr). done.
Qed.
Lemma health_endpoints `{UnicodeDB} raw connects : default_health_check raw connects = true →
  let es := _parse_endpoints (match raw with Some ((_ :: _) as s) => s | _ => DEFAULT_HEALTH_ENDPOINTS end) in
  es ≠ [] ∧ Forall (λ e, connects e.1 e.2 = true ∧ 1 ≤ e.2 ≤ 65535) es.
Proof.
  unfold default_health_check. set (es := _parse_endpoints _). cbv zeta. destruct es as [|e l] eqn:He; [done|]. rewrite <-He.
  intros Hf. split; [by rewrite He|]. rewrite forallb_forall in Hf. apply Forall_forall. intros x Hx.
  split; [by apply Hf, list_elem_of_In|]. unfold es, _parse_endpoints in Hx. apply list_elem_of_omap in Hx as (item & _ & Hi).
  unfold endpoint_of in Hi. repeat case_match; try done. injection Hi as <-. by apply in_range_spec.
Qed.

(** Where the command line's download leaves the bundle. *)
Lemma downloaded_bundle `{UnicodeDB} repr sys manifest_path config_path releases_dir dir m w :
  let staging := path_join releases_dir dir in
  let ext := cli_ext repr sys manifest_path config_path staging m in
  answer ext CDownload w = true → bundle_of releases_dir ext dir w = path_join staging BUNDLE_FILENAME.
Proof.
  intros staging ext. unfold answer, bundle_of, ext, cli_ext, pair_of, default_download. cbn [_effect fst snd].
  repeat case_match; cbn [fst snd]; try done; intros _; by simplify_eq.
Qed.
(** A call of the pipeline of a run that installed was answered, in the state the run was in. *)
Lemma installed_answered `{UnicodeDB} factory_app out_real out_isdir out_exists io pid releases_dir ext free_space isfile
    getsize clock sleeps `{!OutsideOk factory_app out_real out_isdir} secrets m has_stop force cv iv suffix d :
  layout (rel_tree d) → dangles out_real out_isdir (rel_tree d) = false →
  let '(res, w) := install_update factory_app out_real out_isdir out_exists io pid releases_dir ext free_space isfile getsize clock sleeps
    secrets m has_stop force cv iv suffix (fresh_run d) in
  in_outcome res = INSTALL_INSTALLED →
  let w0 := opened io m suffix (fresh_run d) in
  ∃ bundle, bundle = bundle_of releases_dir ext (staging_dir m suffix) (before w0 (pipeline has_stop bundle) 0) ∧
    right_size getsize m bundle (before w0 (pipeline has_stop bundle) 3) ∧
    (∀ k c, pipeline has_stop bundle !! k = Some c → c ≠ CSwitch → answer ext c (before w0 (pipeline has_stop bundle) k) = true) ∧
    ∃ w1, (r_calls w1 ++ [(CHealth, true)]) `prefix_of` r_calls w ∧ answer ext CHealth w1 = true.
Proof.
  intros Hl Hd. pose proof (install_update_spec factory_app out_real out_isdir out_exists io pid releases_dir ext free_space isfile getsize clock
    sleeps secrets m has_stop force cv iv suffix d Hl Hd) as Hsp. cbv zeta in Hsp.
  pose proof (install_honest factory_app out_real out_isdir out_exists io pid releases_dir ext free_space isfile getsize clock
    sleeps secrets m has_stop force cv iv suffix d) as Hh.
  destruct (install_update _ _ _ _ _ _ _ _ _ _ _ _ _ _ _ _ _ _ _ _ (fresh_run d)) as [res w]. cbn [fst snd] in *. intros Ho.
  destruct Hsp as (_ & l & _ & [(Hf & _)|(bundle & new & Hc & (Hans & _ & Hb & Hs) & Hend & _)]); [congruence|].
  assert (1 < length (pipeline has_stop bundle) ∧ 3 < length (pipeline has_stop bundle))%nat as [Hlen1 Hlen3] by by destruct has_stop; cbn; lia.
  exists bundle. split; [apply Hb; by rewrite length_map|]. split; [apply Hs; by rewrite length_map|]. split.
  { intros k c Hk Hne. destruct (Hans k c true) as [?|?]; [|done|done]. by rewrite list_lookup_fmap, Hk. }
  assert (∃ ps P b, polls true ps ∧ new = (CRestart (version m), true) :: ps ++ [(CPrune P, b)]) as (ps & P & b & (l' & -> & _) & ->)
    by (rewrite Ho in Hend; inversion Hend; eauto).
  set (before_health := map (λ c, (c, true)) (pipeline has_stop bundle) ++ (CRestart (version m), true) :: l').
  assert (r_calls w = before_health ++ (CHealth, true) :: [(CPrune P, b)]) as Hlog
    by (unfold before_health; rewrite Hc, <-!app_assoc; simplify_list_eq; done).
  destruct (Hh (length before_health) CHealth true) as [[=]|(w1 & Hw1 & Ha)].
  { by rewrite Hlog, lookup_app_r, Nat.sub_diag by done. }
  exists w1. split; [|done]. rewrite Hw1, Hlog, take_app_length. by exists [(CPrune P, b)]; rewrite <-app_assoc.
Qed.

(** C17: with the callables of the command line, a release is installed only if, each in the state in
    which the run asked, the download succeeded, [minisign] accepted the manifest and then the
    downloaded bundle with the key of the image, this bundle had the size and the hash of the
    manifest and every member of its archive passed the inspection for the staging directory, the
    code there compiled and imported, and every health endpoint accepted a connection when
    the last poll of the run was made. *)
Theorem installed_release_verified `{UnicodeDB} factory_app out_real out_isdir out_exists io pid releases_dir free_space isfile
    getsize clock sleeps repr sys manifest_path config_path secrets m has_stop force cv iv suffix d
    `{!OutsideOk factory_app out_real out_isdir} :
  layout (rel_tree d) → dangles out_real out_isdir (rel_tree d) = false →
  let staging := path_join releases_dir (staging_dir m suffix) in
  let bundle := path_join staging BUNDLE_FILENAME in
  let '(res, w) := install_update factory_app out_real out_isdir out_exists io pid releases_dir
    (cli_ext repr sys manifest_path config_path staging m) free_space isfile getsize clock sleeps secrets m has_stop force cv iv suffix
    (fresh_run d) in
  let moment := before (opened io m suffix (fresh_run d)) (pipeline has_stop bundle) in
  let system (k : nat) := sys (moment k) in
  in_outcome res = INSTALL_INSTALLED →
  (default_download (y_urlopen (system 0%nat)) m staging).1.1 = true ∧
  y_runner (system 1%nat) (minisign_args manifest_path DEFAULT_PUBLIC_KEY_PATH (manifest_path ++ u ".minisig")) = Ret 0 ∧
  y_runner (system 2%nat) (minisign_args bundle DEFAULT_PUBLIC_KEY_PATH (bundle ++ u ".minisig")) = Ret 0 ∧
  getsize (moment 3%nat) bundle = Some (bundle_size m) ∧
  x_sha256 (y_bundle (system 3%nat)) = Some (lower_ascii (bundle_sha256 m)) ∧
  (∃ ms, x_members (y_bundle (system 3%nat)) = Some ms ∧ (validate_archive_members (y_realpath (system 3%nat)) ms (VStr staging)).1 = true) ∧
  (let k := (if has_stop then 6 else 5)%nat in
   default_preflight (y_isfile (system k)) (y_python (system k)) repr staging VNone (VStr config_path)).1 = true ∧
  ∃ w1, (r_calls w1 ++ [(CHealth, true)]) `prefix_of` r_calls w ∧
    Forall (λ e, y_connects (sys w1) e.1 e.2 = true)
      (_parse_endpoints (match y_endpoints (sys w1) with Some ((_ :: _) as s) => s | _ => DEFAULT_HEALTH_ENDPOINTS end)).
Proof.
  intros Hl Hd staging bundle. set (ext := cli_ext repr sys manifest_path config_path staging m).
  pose proof (installed_answered factory_app out_real out_isdir out_exists io pid releases_dir ext free_space isfile getsize clock
    sleeps secrets m has_stop force cv iv suffix d Hl Hd) as Hi.
  destruct (install_update _ _ _ _ _ _ _ _ _ _ _ _ _ _ _ _ _ _ _ _ (fresh_run d)) as [res w]. intros moment system Ho.
  destruct (Hi Ho) as (b & Hb & Hsize & Hans & w1 & Hp & Hhealth).
  pose proof (Hans 0%nat CDownload eq_refl ltac:(done)) as H0.
  pose proof (downloaded_bundle repr sys manifest_path config_path releases_dir (staging_dir m suffix) m _ H0) as Hbundle.
  assert (b = bundle) as -> by exact (eq_trans Hb Hbundle). clear Hbundle.
  pose proof (Hans 1%nat CVerifyManifest eq_refl ltac:(done)) as H1.
  pose proof (Hans 2%nat (CVerifyBundle bundle) eq_refl ltac:(done)) as H2.
  pose proof (Hans 3%nat (CExtract bundle) eq_refl ltac:(done)) as H3.
  pose proof (Hans (if has_stop then 6 else 5)%nat CPreflight ltac:(by destruct has_stop) ltac:(done)) as H4.
  cbn [answer ext cli_ext pair_of _effect _health_ok fst snd] in H0, H1, H2, H3, H4, Hhealth. fold moment in H0, H1, H2, H3, H4.
  pose proof (extract_bundle_spec (y_isfile (system 3%nat)) (y_runner (system 3%nat)) (y_realpath (system 3%nat)) (y_bundle (system 3%nat)) (VStr bundle)
    (VStr staging) (Some (VStr (bundle_sha256 m)))) as Hx. unfold system in *.
  destruct (extract_bundle _ _ _ _ _ _ _) as [r acts]. cbn [fst] in H3. destruct Hx as (Hx & Hok & _).
  destruct (Hok H3) as (dd & ms & Hin). destruct (Hx _ _ Hin) as (_ & Hms & Hval & Hsha & _).
  destruct (Hsha _ eq_refl) as (h & [= <-] & _ & Hs). destruct (health_endpoints _ _ Hhealth) as [_ He5].
  split_and!; [done|by apply verify_signed|by apply verify_signed|done|done|by exists ms|done|]. exists w1. split; [done|].
  eapply Forall_impl; [exact He5|]. by intros e [? _].
Qed.

Definition demo_system : system :=
  {| y_urlopen := λ url, inr {| final_url := url; blocks := [[1]] |}; y_isfile := λ _, true; y_runner := λ _, Ret 0;
     y_realpath := plain_realpath;
     y_bundle := {| x_sha256 := Some (replicate 64 97); x_archive_size := Some 10; x_mkdtemp := Some (u "/tmp/x"); x_tar_size := Some 10;
                    x_dest_link := false; x_dest_exists := true; x_dest_dir := true; x_members := Some [demo_member "main.py"];
                    x_makedirs := true; x_extracts := true |};
     y_python := λ _, inr {| returncode := VInt 0; stderr := VStr [] |}; y_command := λ _, inr 0;
     y_systemctl := Some (u "/usr/bin/systemctl"); y_endpoints := None; y_connects := λ _ _, true |}.
Definition demo_cli_ext : call → run → outcome :=
  cli_ext (λ s, s) (λ _, demo_system) (u "/tmp/update-manifest.json") [] (u "/data/releases/.2.0.0.staging.x") demo_manifest.
Lemma installed_release_verified_witness :
  let bundle := u "/data/releases/.2.0.0.staging.x/bundle.tar.zst" in
  y_runner demo_system (minisign_args bundle DEFAULT_PUBLIC_KEY_PATH (bundle ++ u ".minisig")) = Ret 0 ∧
  x_sha256 (y_bundle demo_system) = Some (lower_ascii (bundle_sha256 demo_manifest)).
Proof.
  pose proof (installed_release_verified demo_factory (λ p, p) demo_isdir (λ _, false) (λ _, None) 7 (u "/data/releases") (λ _, Some (2 ^ 40))
    (λ _ _, true) (λ _ _, Some 1000) demo_clock (λ _, true) (λ s, s) (λ _, demo_system) (u "/tmp/update-manifest.json") []
    [] demo_manifest true false [] [] (u "x") demo_disk demo_layout demo_sound) as Hi. cbv zeta in Hi.
  match type of Hi with context [install_update _ _ _ _ _ _ _ _ _ _ _ _ _ _ _ _ _ _ _ _ ?w] =>
    match type of Hi with context [let '(_, _) := ?run in _] => assert (in_outcome run.1 = INSTALL_INSTALLED) as Ho by (vm_compute; reflexivity) end end.
  destruct (install_update _ _ _ _ _ _ _ _ _ _ _ _ _ _ _ _ _ _ _ _ _) as [res w]. destruct (Hi Ho) as (_ & _ & Hb & _ & Hsha & _).
  split; [exact Hb|exact Hsha].
Defined.

(** *** Preflight, endpoints and downloads *)

Definition exits_zero (runner : list pystr → call_result completed) (args : list pystr) : Prop :=
  ∃ r, runner args = inr r ∧ _preflight_returncode r = 0.
Definition own_texts : list pystr :=
  [u "release is missing main.py"; u "release preflight failed"; u "release preflight compilation failed"; u "release import check failed";
   u "release core modules failed to import"; dry_run_text].
Definition own_reason (reason : pystr) : Prop :=
  reason ∈ own_texts ∨ ∃ text name, text ∈ own_texts ∧ _IDENTIFIER_RE name = true ∧ reason = sanitize (text ++ u " (" ++ name ++ u ")").
Lemma own_text (i : nat) s : own_texts !! i = Some s → own_reason s.
Proof. intros Hi. left. by eapply list_elem_of_lookup_2. Qed.
Lemma own_named (i : nat) s name : own_texts !! i = Some s → own_reason (_preflight_reason s name).
Proof.
  intros Hi. unfold _preflight_reason. destruct (_IDENTIFIER_RE name) eqn:Hn; [right|by eapply own_text].
  exists s, name. split_and!; [by eapply list_elem_of_lookup_2|done|done].
Qed.
Lemma stage_spec runner args broken failed i :
  own_texts !! i = Some broken → (∀ r, own_reason (failed r)) →
  match stage runner args broken failed with Some reason => own_reason reason ∧ ¬ exits_zero runner args | None => exits_zero runner args end.
Proof.
  intros Hb Hf. unfold stage, exits_zero. destruct (runner args) as [name|r] eqn:Hr.
  - split; [by eapply own_named|]. by intros (r & [=] & _).
  - destruct (Z.eqb_spec (_preflight_returncode r) 0) as [Hz|Hz]; [eauto|]. split; [apply Hf|]. by intros (r' & [= <-] & ?).
Qed.
(** The preflight passes exactly when the release has its entry point, compiles, imports
    its core modules, and migrates the configuration if there is one; the text of a failure
    is one of the program's own, with at most the name of an exception in it. *)
Theorem preflight_spec isfile runner repr staging python config :
  let interpreter := _preflight_python isfile staging python in
  let '(ok, reason) := default_preflight isfile runner repr staging python (VStr config) in
  (ok = true ↔ isfile (path_join staging (u "main.py")) = true ∧
     exits_zero runner [interpreter; u "-m"; u "compileall"; u "-q"; staging] ∧
     exits_zero runner [interpreter; u "-c"; _import_check_script repr staging PREFLIGHT_IMPORT_MODULES] ∧
     (config ≠ [] → isfile config = true → exits_zero runner [interpreter; u "-c"; _migration_dry_run_script repr staging config])) ∧
  (ok = false → own_reason reason).
Proof.
  intros interpreter. unfold default_preflight. destruct (isfile (path_join staging (u "main.py"))); cbn [negb].
  2: { split; [by split; [|intros [? _]]|]. intros _. by apply (own_text 0). }
  fold interpreter.
  pose proof (stage_spec runner [interpreter; u "-m"; u "compileall"; u "-q"; staging] (u "release preflight failed")
    (λ _, u "release preflight compilation failed") 1 eq_refl ltac:(intros; by apply (own_text 2))) as H1.
  destruct (stage runner _ (u "release preflight failed") _) as [reason|]; [destruct H1 as [Ho Hn]; split; [split; [done|naive_solver]|done]|].
  pose proof (stage_spec runner [interpreter; u "-c"; _import_check_script repr staging PREFLIGHT_IMPORT_MODULES] (u "release import check failed")
    (λ _, u "release core modules failed to import") 3 eq_refl ltac:(intros; by apply (own_text 4))) as H2.
  destruct (stage runner _ (u "release import check failed") _) as [reason|]; [destruct H2 as [Ho Hn]; split; [split; [done|naive_solver]|done]|].
  destruct config as [|c config]; [split; [split; [intros _; by split_and!|done]|done]|].
  destruct (isfile (c :: config)); [|split; [split; [intros _; by split_and!|done]|done]].
  assert (∀ r, own_reason (_migration_dry_run_reason r)) as Hr.
  { intros r. unfold _migration_dry_run_reason. destruct (_IDENTIFIER_RE _) eqn:Hi; [right|by apply (own_text 5)].
    exists dry_run_text. eexists. split_and!; [by apply (list_elem_of_lookup_2 _ 5)|exact Hi|done]. }
  pose proof (stage_spec runner [interpreter; u "-c"; _migration_dry_run_script repr staging (c :: config)] dry_run_text
    _migration_dry_run_reason 5 eq_refl Hr) as H3.
  destruct (stage runner _ dry_run_text _) as [reason|]; [|split; [split; [intros _; by split_and!|done]|done]].
  destruct H3 as [Ho Hn]. split; [split; [done|naive_solver]|done].
Qed.

Lemma copy_blocks_bound limit written bs acc b :
  size acc = written → written ≤ limit → copy_blocks limit written bs acc = Some b → size b ≤ limit ∧ ∃ k, b = acc ++ concat (take k bs).
Proof.
  revert written acc. induction bs as [|x bs IH]; intros written acc Ha Hw; cbn [copy_blocks].
  { intros [= <-]. split; [lia|]. exists 0%nat. by rewrite app_nil_r. }
  case_bool_decide; [intros [= <-]; split; [lia|]; exists 0%nat; by rewrite app_nil_r|].
  destruct (Z.ltb_spec limit (written + size x)); [done|]. intros Hc.
  apply IH in Hc as [Hs (k & ->)]; [|unfold size in *; rewrite length_app; lia|lia].
  split; [done|]. exists (S k). cbn. by rewrite app_assoc.
Qed.
(** What is kept of a download was served over https and is within the limits, the
    bundle's being the size that the manifest announces. *)
Theorem download_bounded urlopen m staging bundle signature :
  (default_download urlopen m staging).2 = Some (bundle, signature) →
  size bundle ≤ bundle_size m ≤ MAX_BUNDLE_SIZE ∧ size signature ≤ MAX_SIGNATURE_DOWNLOAD_BYTES ∧
  ∃ r k, urlopen (bundle_url m) = inr r ∧ starts_with (u "https://") (final_url r) = true ∧ bundle = concat (take k (blocks r)).
Proof.
  unfold default_download. case_bool_decide; [done|]. destruct (_valid_bundle_size _) eqn:Hv; cbn [negb]; [|done].
  apply andb_true_iff in Hv as [Hv1%Z.ltb_lt Hv2%Z.leb_le].
  assert (∀ r limit b, 0 ≤ limit → _download_to r limit = inr b → size b ≤ limit ∧ ∃ r' k, r = inr r' ∧
    starts_with (u "https://") (final_url r') = true ∧ b = concat (take k (blocks r'))) as Hd.
  { intros [name|r] limit b Hl; cbn; [done|]. destruct (starts_with _ _) eqn:Hu; cbn; [|done].
    destruct (copy_blocks limit 0 (blocks r) []) eqn:Hc; [|done]. intros [= ->].
    apply copy_blocks_bound in Hc as [? (k & ->)]; [|done|done]. split; [done|]. exists r, k. done. }
  destruct (_download_to (urlopen (bundle_url m)) _) as [|b] eqn:Hb; [done|].
  destruct (_download_to (urlopen (bundle_url m ++ _)) _) as [|s] eqn:Hs; [done|]. cbn. intros [= -> ->].
  apply Hd in Hb as [Hb1 Hb2]; [|lia]. apply Hd in Hs as [Hs1 _]; [|done]. done.
Qed.
