(* ===== verification/MqttTopics.v ===== *)
(** [app/mqtt_topics.py]: the topic tree of the appliance.  Topics are built from a prefix and
    a device id that are checked whenever one is built, and a received topic is read back. *)
From S2P Require Import Prelude PyValue Identity PyText.

Definition DEFAULT_BASE_PREFIX : pystr := u "pibuddycam".
Definition DEFAULT_DISCOVERY_PREFIX : pystr := u "homeassistant".
Definition HA_STATUS_TOPIC : pystr := u "homeassistant/status".
Definition DISCOVERY_OBJECT_PREFIX : pystr := u "pibuddycam_".
Definition COMMAND_NAMES : list pystr :=
  [u "quality"; u "snapshot_upload"; u "snapshot_interval"; u "timelapse_enabled"; u "timelapse_interval";
   u "timelapse_fps"; u "timelapse_build"; u "prusa_rtsp"; u "webrtc"; u "restart"].
Definition _DEVICE_ID_MAX : nat := 128.
Definition _PREFIX_MAX : nat := 128.

(** ** Tokens *)

(** Both patterns end in [$] and are used with [match]: one trailing newline passes. *)
Definition with_newline (shape : pystr → bool) (s : pystr) : bool :=
  shape s || (bool_decide (last s = Some 10) && shape (removelast s)).
Definition segment_char (c : Z) : bool := alnum c || (c =? 95) || (c =? 45).
Definition segment_ok (s : pystr) : bool := negb (bool_decide (s = [])) && forallb segment_char s.
Definition prefix_shape (s : pystr) : bool := forallb segment_ok (split_on 47 s).
Definition _PREFIX_RE : pystr → bool := with_newline prefix_shape.
Definition id_char (c : Z) : bool := Identity.alnum c || (c =? 45).
Definition id_shape (s : pystr) : bool := negb (bool_decide (s = [])) && forallb id_char s.
Definition _DEVICE_ID_RE : pystr → bool := with_newline id_shape.

Definition checked_token (limit : nat) (re : pystr → bool) (value : pyval) : res pystr :=
  match value with
  | VStr [] => Raise ValueError
  | VStr s => if (limit <? length s)%nat then Raise ValueError else if negb (re s) then Raise ValueError else Ret s
  | _ => Raise ValueError
  end.
Definition validate_prefix : pyval → res pystr := checked_token _PREFIX_MAX _PREFIX_RE.
Definition validate_device_id : pyval → res pystr := checked_token _DEVICE_ID_MAX _DEVICE_ID_RE.

(** ** The device id *)

(** Runs of other characters become one hyphen. *)
Fixpoint hyphen_runs (inside : bool) (s : pystr) : pystr :=
  match s with
  | [] => []
  | c :: s => if Identity.alnum c then c :: hyphen_runs false s
              else if inside then hyphen_runs true s else 45 :: hyphen_runs true s
  end.
(** [re.sub('-{2,}', '-')], then [strip('-')]. *)
Fixpoint single_hyphens (s : pystr) : pystr :=
  match s with
  | [] => []
  | c :: s => if (c =? 45) && match s with d :: _ => d =? 45 | [] => false end then single_hyphens s else c :: single_hyphens s
  end.
Fixpoint lstrip_hyphens (s : pystr) : pystr :=
  match s with [] => [] | c :: s' => if c =? 45 then lstrip_hyphens s' else s end.
Definition strip_hyphens (s : pystr) : pystr := rev (lstrip_hyphens (rev (lstrip_hyphens s))).
(** [None] or the text of the value (the hexadecimal digits of a [UUID]). *)
Definition sanitize_device_id (lower : pystr → pystr) (value : option pystr) : pystr :=
  strip_hyphens (single_hyphens (hyphen_runs false (lower (strip (default [] value))))).
Definition device_id (lower uuid5_hex : pystr → pystr) (seed : pyval) : res pystr :=
  match seed with
  | VStr s =>
      match strip s with
      | [] => Raise ValueError
      | _ => id ← derive_device_id uuid5_hex s; Ret (sanitize_device_id lower (Some id))
      end
  | _ => Raise ValueError
  end.

(** ** Topics *)

Definition _device_path (device : pyval) (base : pyval) : res pystr :=
  b ← validate_prefix base; d ← validate_device_id device; Ret (b ++ u "/" ++ d).
Definition below_device (leaf : pystr) (device base : pyval) : res pystr :=
  p ← _device_path device base; Ret (p ++ u "/" ++ leaf).
Definition availability : pyval → pyval → res pystr := below_device (u "availability").
Definition state : pyval → pyval → res pystr := below_device (u "state").
Definition command (device : pyval) (name : pystr) (base : pyval) : res pystr :=
  if bool_decide (name ∈ COMMAND_NAMES) then below_device (u "command/" ++ name) device base else Raise ValueError.
Definition update_state : pyval → pyval → res pystr := below_device (u "update/state").
Definition update_install : pyval → pyval → res pystr := below_device (u "update/install").
Definition discovery_device_topic (discovery device : pyval) : res pystr :=
  p ← validate_prefix discovery; d ← validate_device_id device;
  Ret (p ++ u "/device/" ++ DISCOVERY_OBJECT_PREFIX ++ d ++ u "/config").
Definition command_from_topic (topic : pyval) (device base : pyval) : res pystr :=
  p ← _device_path device base;
  let prefix := p ++ u "/command/" in
  match topic with
  | VStr t =>
      if negb (starts_with prefix t) then Raise ValueError
      else let name := drop (length prefix) t in
           if bool_decide (name ∈ COMMAND_NAMES) then Ret name else Raise ValueError
  | _ => Raise ValueError
  end.

(** ** Properties *)

Lemma res_bind_ret {A B : Type} (m : res A) (k : A → res B) b : m ≫= k = Ret b → ∃ a, m = Ret a ∧ k a = Ret b.
Proof. destruct m as [a|e]; [|done]. intros Hk. by exists a. Qed.
Lemma checked_token_spec limit re value s : checked_token limit re value = Ret s → value = VStr s ∧ s ≠ [] ∧ (length s ≤ limit)%nat ∧ re s = true.
Proof.
  unfold checked_token. destruct value as [| | | |[|c t]| | |]; try done. destruct (Nat.ltb_spec limit (length (c :: t))); [done|].
  destruct (re (c :: t)) eqn:Hre; [|done]. intros [= <-]. done.
Qed.
Lemma checked_token_ret limit re s : s ≠ [] → (length s ≤ limit)%nat → re s = true → checked_token limit re (VStr s) = Ret s.
Proof. destruct s as [|c t]; [done|]. intros _ Hl Hre. unfold checked_token. rewrite (proj2 (Nat.ltb_ge _ _)) by done. by rewrite Hre. Qed.

Lemma with_newline_Forall (P : Z → Prop) shape s : (∀ t, shape t = true → Forall P t) → P 10 → with_newline shape s = true → Forall P s.
Proof.
  intros Hs H10. unfold with_newline. rewrite orb_true_iff, andb_true_iff, bool_decide_eq_true. intros [H|[Hl H]]; [auto|].
  destruct s as [|c s _] using rev_ind; [constructor|]. rewrite last_snoc in Hl. injection Hl as ->. rewrite removelast_last in H.
  apply Forall_app_2; [auto|by constructor].
Qed.
Lemma split_on_join sep s : join_with [sep] (split_on sep s) = s.
Proof.
  induction s as [|c s IH]; [done|]. cbn [split_on]. destruct (Z.eqb_spec c sep) as [->|Hc].
  - destruct (split_on sep s) as [|x l] eqn:Hs; [destruct s; cbn in Hs; repeat case_match; done|].
    change (join_with [sep] ([] :: x :: l)) with ([] ++ [sep] ++ join_with [sep] (x :: l)). by rewrite IH.
  - destruct (split_on sep s) as [|x l] eqn:Hs; [destruct s; cbn in Hs; repeat case_match; done|]. destruct l as [|y l]; cbn in *; by rewrite IH.
Qed.

(** No character of a token is a wildcard or a blank other than the newline. *)
Definition topic_char (c : Z) : bool := segment_char c || (c =? 47) || (c =? 10).
Lemma prefix_chars s : _PREFIX_RE s = true → Forall (λ c, topic_char c = true) s.
Proof.
  apply with_newline_Forall; [|done]. intros t Ht. rewrite <-(split_on_join 47 t). unfold prefix_shape in Ht.
  apply join_with_Forall; [by repeat constructor|]. rewrite forallb_forall in Ht. apply Forall_forall. intros x Hx%list_elem_of_In%Ht.
  unfold segment_ok in Hx. apply andb_true_iff in Hx as [_ Hx]. rewrite forallb_forall in Hx. apply Forall_forall.
  intros c Hc%list_elem_of_In%Hx. unfold topic_char. by rewrite Hc.
Qed.
Lemma id_chars s : _DEVICE_ID_RE s = true → Forall (λ c, c ≠ 47 ∧ topic_char c = true) s.
Proof.
  apply with_newline_Forall; [|done]. intros t Ht. unfold id_shape in Ht. apply andb_true_iff in Ht as [_ Ht]. rewrite forallb_forall in Ht.
  apply Forall_forall. intros c Hc%list_elem_of_In%Ht. unfold id_char, Identity.alnum in Hc. unfold topic_char, segment_char, alnum.
  rewrite !orb_true_iff, !in_range_spec, !Z.eqb_eq in *. lia.
Qed.

(** A topic of the device ends in the device id and a leaf. *)
Lemma below_device_spec leaf device base t : below_device leaf device base = Ret t →
  ∃ b d, base = VStr b ∧ device = VStr d ∧ validate_prefix base = Ret b ∧ validate_device_id device = Ret d ∧
    t = b ++ u "/" ++ d ++ u "/" ++ leaf.
Proof.
  unfold below_device, _device_path. destruct (validate_prefix base) as [b|] eqn:Hb; [|done]. cbn.
  destruct (validate_device_id device) as [d|] eqn:Hd; [|done]. cbn. intros [= <-]. exists b, d.
  pose proof (checked_token_spec _ _ _ _ Hb) as [-> _]. pose proof (checked_token_spec _ _ _ _ Hd) as [-> _].
  split_and!; try done. cbn. by rewrite <-app_assoc.
Qed.

(** The part of a text after the last slash. *)
Lemma slash_suffix_inj (a b x y : pystr) : Forall (λ c, c ≠ 47) x → Forall (λ c, c ≠ 47) y →
  a ++ u "/" ++ x = b ++ u "/" ++ y → a = b ∧ x = y.
Proof.
  intros Hx Hy Heq. change (u "/") with [47%Z] in Heq. cbn in Heq. revert b Heq. induction a as [|c a IH]; intros [|d b] Heq; cbn in Heq.
  - by injection Heq as ->.
  - exfalso. injection Heq as _ ->. rewrite Forall_app in Hx. destruct Hx as [_ Hx]. by inversion Hx.
  - exfalso. injection Heq as _ <-. rewrite Forall_app in Hy. destruct Hy as [_ Hy]. by inversion Hy.
  - injection Heq as -> Heq. by destruct (IH b Heq) as [-> ->].
Qed.

Lemma command_name_chars name : name ∈ COMMAND_NAMES → Forall (λ c, c ≠ 47) name.
Proof.
  assert (Forall (Forall (λ c, c ≠ 47)) COMMAND_NAMES) as H by (vm_compute; repeat constructor; done).
  rewrite Forall_forall in H. apply H.
Qed.
Lemma device_id_chars device d : validate_device_id device = Ret d → Forall (λ c, c ≠ 47) d.
Proof. intros (_ & _ & _ & H%id_chars)%checked_token_spec. eapply Forall_impl; [exact H|]. by intros c [Hc _]. Qed.
Lemma command_spec device name base t : command device name base = Ret t →
  name ∈ COMMAND_NAMES ∧ ∃ b d, base = VStr b ∧ device = VStr d ∧ validate_prefix base = Ret b ∧ validate_device_id device = Ret d ∧
    t = (b ++ u "/" ++ d ++ u "/command") ++ u "/" ++ name.
Proof.
  unfold command. case_bool_decide as Hn; [|done]. intros (b & d & H1 & H2 & H3 & H4 & ->)%below_device_spec. split; [done|].
  exists b, d. split_and!; try done. rewrite <-!app_assoc. done.
Qed.
Lemma command_from_topic_spec topic device base name : command_from_topic topic device base = Ret name ↔
  ∃ t, topic = VStr t ∧ command device name base = Ret t.
Proof.
  unfold command_from_topic, command, below_device. destruct (_device_path device base) as [p|e]; cbn.
  2: { split; [done|]. intros (t & _ & H). by case_bool_decide. }
  assert (u "/" ++ u "command/" = u "/command/") as Hc by done. split.
  - destruct topic as [| | | |t| | |]; try done. destruct (starts_with (p ++ u "/command/") t) eqn:Hs; [|done]. cbn [negb].
    apply starts_with_iff in Hs as [n ->]. rewrite drop_app_length. case_bool_decide as Hn; [|done]. intros [= <-].
    eexists. split; [reflexivity|]. rewrite bool_decide_eq_true_2 by done. by rewrite <-app_assoc.
  - intros (t & -> & H). case_bool_decide as Hn; [|done].
    assert (t = (p ++ u "/command/") ++ name) as ->.
    { rewrite <-app_assoc. change (u "/command/" ++ name) with (u "/" ++ u "command/" ++ name). congruence. }
    rewrite (proj2 (starts_with_iff _ _)) by (by eexists). cbn [negb]. rewrite drop_app_length. by rewrite bool_decide_eq_true_2.
Qed.

Lemma checked_token_raise limit re value e : checked_token limit re value = Raise e → e = ValueError.
Proof.
  unfold checked_token. destruct value as [| | | |[|c s]| | |]; try by intros [= <-]. destruct (_ <? _)%nat; [by intros [= <-]|].
  destruct (re _); [done|by intros [= <-]].
Qed.
Lemma command_from_topic_raise topic device base e : command_from_topic topic device base = Raise e → e = ValueError.
Proof.
  unfold command_from_topic, _device_path. destruct (validate_prefix base) as [b|e1] eqn:Hb; cbn.
  2: { intros [= <-]. by eapply checked_token_raise. }
  destruct (validate_device_id device) as [d|e1] eqn:Hd; cbn.
  2: { intros [= <-]. by eapply checked_token_raise. }
  destruct topic; try by intros [= <-]. destruct (negb _); [by intros [= <-]|]. case_bool_decide; [done|by intros [= <-]].
Qed.

(** A topic is taken for a command exactly when it is the command topic of this device and
    prefix for one of the ten names: command topics are read back as the name they were built
    from, those of another device or prefix are refused, and so is every other topic the
    appliance uses; and no topic it builds holds a wildcard or a blank. *)
Theorem only_own_commands device base :
  (∀ topic name, command_from_topic topic device base = Ret name ↔ ∃ t, topic = VStr t ∧ command device name base = Ret t) ∧
  (∀ device' base' name name' t, command device' name' base' = Ret t → command_from_topic (VStr t) device base = Ret name →
     device' = device ∧ base' = base ∧ name' = name) ∧
  (∀ leaf device' base' t, leaf ∈ [u "availability"; u "state"; u "update/state"; u "update/install"] →
     t = HA_STATUS_TOPIC ∨ below_device leaf device' base' = Ret t → command_from_topic (VStr t) device base = Raise ValueError) ∧
  (∀ leaf t, leaf ∈ [u "availability"; u "state"; u "update/state"; u "update/install"] ++ map (app (u "command/")) COMMAND_NAMES →
     below_device leaf device base = Ret t → Forall (λ c, topic_char c = true) t).
Proof.
  assert (∀ t name, command_from_topic (VStr t) device base = Ret name → ∃ q, t = q ++ u "/" ++ name ∧ name ∈ COMMAND_NAMES) as Hend.
  { intros t name (t' & [= <-] & (Hn & b & d & _ & _ & _ & _ & ->)%command_spec)%command_from_topic_spec. by eexists. }
  split; [intros; apply command_from_topic_spec|]. split; [|split].
  - intros device' base' name name' t (Hn' & b' & d' & -> & -> & _ & Hd' & Ht')%command_spec (t' & [= <-] & H)%command_from_topic_spec.
    apply command_spec in H as (Hn & b & d & -> & -> & _ & Hd & Ht). rewrite Ht' in Ht. apply slash_suffix_inj in Ht as [Ht ->];
      [|by apply command_name_chars..]. change (u "/command") with (u "/" ++ u "command") in Ht.
    rewrite !app_assoc in Ht. rewrite <-!(app_assoc _ (u "/") (u "command")) in Ht.
    apply slash_suffix_inj in Ht as [Ht _]; [|vm_compute; by repeat constructor..]. rewrite <-!app_assoc in Ht.
    apply slash_suffix_inj in Ht as [-> ->]; [done|by eapply device_id_chars..].
  - intros leaf device' base' t Hleaf Ht. destruct (command_from_topic (VStr t) device base) as [name|e] eqn:Hc.
    2: { by rewrite (command_from_topic_raise _ _ _ _ Hc). }
    exfalso. destruct (Hend _ _ Hc) as (q & -> & Hn). pose proof (command_name_chars _ Hn) as Hchars.
    assert (∃ q' x, q ++ u "/" ++ name = q' ++ u "/" ++ x ∧ x ∈ [u "status"; u "availability"; u "state"; u "install"]) as (q' & x & Heq & Hx).
    { destruct Ht as [-> | (b & d & _ & _ & _ & _ & ->)%below_device_spec]; [exists (u "homeassistant"), (u "status"); split; [done|by left]|].
      rewrite !elem_of_cons in Hleaf. destruct Hleaf as [->|[->|[->|[->|[]%not_elem_of_nil]]]].
      - exists (b ++ u "/" ++ d), (u "availability"). split; [by rewrite <-!app_assoc|]. by right; left.
      - exists (b ++ u "/" ++ d), (u "state"). split; [by rewrite <-!app_assoc|]. by right; right; left.
      - exists (b ++ u "/" ++ d ++ u "/update"), (u "state"). split; [by rewrite <-!app_assoc|]. by right; right; left.
      - exists (b ++ u "/" ++ d ++ u "/update"), (u "install"). split; [by rewrite <-!app_assoc|]. by right; right; right; left. }
    apply slash_suffix_inj in Heq as [_ ->]; [|done|rewrite !elem_of_cons in Hx; destruct Hx as [->|[->|[->|[->|[]%not_elem_of_nil]]]]; vm_compute; by repeat constructor].
    assert (Forall (λ x, bool_decide (x ∈ COMMAND_NAMES) = false) [u "status"; u "availability"; u "state"; u "install"]) as Hnot by by repeat constructor.
    rewrite Forall_forall in Hnot. apply Hnot, bool_decide_eq_false in Hx. by apply Hx.
  - intros leaf t Hleaf (b & d & _ & _ & (_ & _ & _ & Hb%prefix_chars)%checked_token_spec & (_ & _ & _ & Hd%id_chars)%checked_token_spec & ->)%below_device_spec.
    rewrite !Forall_app. split_and!; [done|by repeat constructor|by eapply Forall_impl; [exact Hd|intros c [_ Hc]]|by repeat constructor|].
    assert (Forall (Forall (λ c, topic_char c = true)) ([u "availability"; u "state"; u "update/state"; u "update/install"] ++ map (app (u "command/")) COMMAND_NAMES)) as H
      by (vm_compute; repeat constructor).
    rewrite Forall_forall in H. by apply H.
Qed.
Lemma only_own_commands_witness :
  command_from_topic (VStr (u "pibuddycam/abc/command/restart")) (VStr (u "abc")) (VStr DEFAULT_BASE_PREFIX) = Ret (u "restart") ∧
  (∀ name, command_from_topic (VStr (u "pibuddycam/abd/command/restart")) (VStr (u "abc")) (VStr DEFAULT_BASE_PREFIX) ≠ Ret name).
Proof.
  split.
  - apply (only_own_commands (VStr (u "abc")) (VStr DEFAULT_BASE_PREFIX)). eexists. by split; [|vm_compute].
  - intros name Hc. destruct (only_own_commands (VStr (u "abc")) (VStr DEFAULT_BASE_PREFIX)) as (_ & H & _).
    destruct (H (VStr (u "abd")) (VStr DEFAULT_BASE_PREFIX) name (u "restart") (u "pibuddycam/abd/command/restart")) as [Habs _]; [by vm_compute|exact Hc|done].
Defined.

(** A prefix with a newline at its end passes the check. *)
Lemma prefix_with_newline : validate_prefix (VStr (u "cam" ++ [10])) = Ret (u "cam" ++ [10]).
Proof. by vm_compute. Qed.

(** The derived id is a token that the topics accept, or empty. *)
Lemma hyphen_runs_chars inside s : Forall (λ c, id_char c = true) (hyphen_runs inside s).
Proof.
  revert inside. induction s as [|c s IH]; intros inside; cbn; [constructor|]. destruct (Identity.alnum c) eqn:Hc.
  - constructor; [unfold id_char; by rewrite Hc|apply IH].
  - destruct inside; [apply IH|]. constructor; [done|apply IH].
Qed.
Lemma strip_hyphens_Forall (P : Z → Prop) s : Forall P s → Forall P (strip_hyphens s).
Proof.
  assert (∀ s, Forall P s → Forall P (lstrip_hyphens s)) as Hl.
  { intros s'. induction 1 as [|c s' Hc Hs IH]; [constructor|]. cbn. case_match; [done|by constructor]. }
  intros Hs. unfold strip_hyphens. apply Forall_rev, Hl, Forall_rev, Hl, Hs.
Qed.
Lemma sanitized_chars lower value : Forall (λ c, id_char c = true) (sanitize_device_id lower value).
Proof.
  apply strip_hyphens_Forall. pose proof (hyphen_runs_chars false (lower (strip (default [] value)))) as H. revert H.
  generalize (hyphen_runs false (lower (strip (default [] value)))). intros s. induction 1 as [|c s Hc Hs IH]; [constructor|]. cbn [single_hyphens].
  destruct (_ && _); [done|by constructor].
Qed.
Lemma device_id_accepted lower uuid5_hex seed id : device_id lower uuid5_hex seed = Ret id → id ≠ [] → (length id ≤ _DEVICE_ID_MAX)%nat →
  validate_device_id (VStr id) = Ret id.
Proof.
  unfold device_id. destruct seed; try done. destruct (strip s); [done|]. destruct (derive_device_id _ _) as [h|]; cbn -[sanitize_device_id validate_device_id]; [|done].
  intros [= <-] Hne Hl. unfold validate_device_id. apply checked_token_ret; [done..|]. unfold _DEVICE_ID_RE, with_newline, id_shape. rewrite bool_decide_eq_false_2 by done. cbn.
  pose proof (sanitized_chars lower (Some h)) as Hc. apply orb_true_iff. left. apply forallb_forall. intros c Hin%list_elem_of_In.
  rewrite Forall_forall in Hc. auto.
Qed.
