(* ===== verification/MqttState.v ===== *)
(** [app/mqtt_state.py]: the state document and the discovery document that the appliance
    publishes for Home Assistant. *)
From Stdlib Require Import SpecFloat QArith.
From S2P Require Import Prelude PyValue Identity PyText AdminAuth Redact MqttTopics.
From S2P Require CameraState.
#[local] Open Scope Z_scope.

Definition STATE_SCHEMA_VERSION : Z := 1.
Definition QUALITY_NAMES : list (Z * pystr) := [(1, u "SD"); (2, u "HD"); (3, u "FHD")].
Definition DEFAULT_QUALITY_TIER : Z := 3.
Definition STATE_KEYS : list pystr :=
  [u "schema_version"; u "quality"; u "snapshot_upload"; u "snapshot_interval"; u "timelapse_enabled"; u "timelapse_interval";
   u "timelapse_fps"; u "timelapse_recording"; u "timelapse_trigger_latency_s"; u "prusa_rtsp"; u "webrtc"; u "prusa_connected";
   u "camera_source"; u "storage_free_bytes"; u "wifi_rssi_dbm"; u "cpu_temperature_c"; u "uptime_seconds";
   u "application_version"; u "last_command_error"].
Definition CAMERA_SOURCES : list pystr := [u "running"; u "stopped"; u "error"; u "unknown"].
Definition _UNKNOWN_SOURCE : pystr := u "unknown".
Definition _APP_VERSION_MAX : nat := 64.
Definition _ERROR_MAX : nat := 200.
Definition _NAME_MAX : nat := 128.
Definition ORIGIN_NAME : pystr := u "pibuddycam".
Definition MANUFACTURER : pystr := u "PiBuddyCam community".
Definition MODEL : pystr := u "PiBuddyCam".
Definition DEVICE_NAME_SUFFIX : pystr := u " Controls".
Definition DEFAULT_CAMERA_NAME : pystr := u "PiBuddyCam".
Definition COMPONENT_KEYS : list pystr :=
  [u "quality"; u "snapshot_upload"; u "snapshot_interval"; u "timelapse_enabled"; u "timelapse_interval"; u "timelapse_fps";
   u "timelapse_build"; u "timelapse_recording"; u "timelapse_latency"; u "prusa_rtsp"; u "webrtc"; u "restart"; u "update";
   u "prusa_connected"; u "camera_source"; u "storage_free"; u "wifi_rssi"; u "cpu_temperature"; u "uptime"; u "app_version"].

(** ** Text *)

Definition control_char (c : Z) : bool := in_range 0 31 c || (c =? 127).
(** [text.split()]. *)
Fixpoint words (cur : pystr) (s : pystr) : list pystr :=
  let flush := match cur with [] => [] | _ => [rev cur] end in
  match s with
  | [] => flush
  | c :: s => if is_space c then flush ++ words [] s else words (c :: cur) s
  end.
Definition squeeze (s : pystr) : pystr := join_with [32] (words [] s).
Definition _text (value : pyval) (limit : nat) : pystr :=
  match value with
  | VStr s => take limit (squeeze (map (λ c, if control_char c then 32 else c) s))
  | _ => []
  end.

Section Documents.
(** [str.lower], [str.upper], equality of characters up to case and word characters as [re]
    has them, and [float(n)]. *)
Context `{UnicodeDB} (lower upper : pystr → pystr) (same_letter : Z → Z → bool) (word_char : Z → bool)
  (float_of_int : Z → res spec_float).

(** ** Small coercions *)

Definition _as_int (value : pyval) : pyval := match value with VInt z => VInt z | _ => VNone end.
Definition _as_float (value : pyval) : res pyval :=
  match value with
  | VInt z => f ← float_of_int z; Ret (VFloat f)
  | VFloat f => Ret (VFloat f)
  | _ => Ret VNone
  end.
(** The attributes of the object, or the entries of the mapping. *)
Abbreviation source := (option (list (pystr * pyval))).
Definition _attr (src : source) (name : string) (default : pyval) : pyval :=
  match src with
  | None => default
  | Some attrs => match dict_get (u name) attrs with Some v => v | None => default end
  end.
Definition _pick (src : source) (name : string) (override default : pyval) : pyval :=
  match override with
  | VNone => match _attr src name VNone with VNone => default | v => v end
  | v => v
  end.
Definition _int_or (value : pyval) (default : Z) : pyval := match value with VInt z => VInt z | _ => VInt default end.
Definition _resolve_bool (src : source) (override : pyval) (bool_attr : string) (mode : option (string * Z)) (default : bool) : bool :=
  match override with
  | VNone =>
      match _attr src bool_attr VNone with
      | VBool b => b
      | _ => match mode with
             | Some (attr, yes) => match _attr src attr VNone with VInt z => z =? yes | _ => default end
             | None => default
             end
      end
  | v => truthy v
  end.

(** ** The state document *)

Definition quality_name (tier : pyval) : res pystr :=
  match tier with
  | VInt z => match dict_get z QUALITY_NAMES with Some name => Ret name | None => Raise ValueError end
  | VStr s => let name := upper (strip s) in if bool_decide (name ∈ QUALITY_NAMES.*2) then Ret name else Raise ValueError
  | _ => Raise ValueError
  end.
Definition _safe_quality (tier : pyval) : pystr :=
  match quality_name tier with Ret name => name | Raise _ => default [] (dict_get DEFAULT_QUALITY_TIER QUALITY_NAMES) end.

(** [_TRACEBACK_RE.search]: a word, a file with a quoted name, a line number, or two phrases. *)
Fixpoint ci_prefix (p s : pystr) : bool :=
  match p, s with
  | [], _ => true
  | a :: p, c :: s => same_letter a c && ci_prefix p s
  | _, [] => false
  end.
Definition is_word (c : option Z) : bool := match c with Some c => word_char c | None => false end.
Definition blank_then (p : pystr) (next : Z → bool) (s : pystr) : bool :=
  ci_prefix p s &&
  match drop (length p) s with
  | c :: r => is_space c && match lstrip r with d :: _ => next d | [] => false end
  | [] => false
  end.
Definition traceback_here (before : option Z) (s : pystr) : bool :=
  (negb (is_word before) && ci_prefix (u "traceback") s && negb (is_word (head (drop 9 s))))
  || blank_then (u "file") (Z.eqb 34) s
  || blank_then (u "line") (λ c, bool_decide (is_Some (uc_decimal c))) s
  || ci_prefix (u "exception") s || ci_prefix (u "stack trace") s.
Fixpoint _TRACEBACK_RE (before : option Z) (s : pystr) : bool :=
  match s with [] => false | c :: s' => traceback_here before s || _TRACEBACK_RE (Some c) s' end.

(** [_PATH_RE.sub('<path>')]: an optional drive, a slash, and one or more characters other than
    blanks, commas and semicolons.  The length of the match at the start of the text. *)
Definition path_char (c : Z) : bool := negb (is_space c || (c =? 44) || (c =? 59)).
Fixpoint path_run (s : pystr) : nat := match s with c :: s => if path_char c then S (path_run s) else 0 | [] => 0 end.
Definition rooted (s : pystr) : nat :=
  match s with
  | c :: r => if (c =? 47) || (c =? 92) then match path_run r with O => 0 | n => S n end else 0
  | [] => 0
  end.
Definition path_match (s : pystr) : nat :=
  match s with
  | c :: 58 :: r => if (in_range 65 90 c || in_range 97 122 c) && negb (rooted r =? 0)%nat then 2 + rooted r else rooted s
  | _ => rooted s
  end.
Fixpoint path_sub (skip : nat) (s : pystr) : pystr :=
  match s with
  | [] => []
  | c :: s' =>
      match skip with
      | S k => path_sub k s'
      | O => match path_match s with O => c :: path_sub 0 s' | S k => u "<path>" ++ path_sub k s' end
      end
  end.

Definition redact_text (text : pystr) (secrets : list pyval) : pystr := _scrub_string text (_secret_values secrets).
Definition sanitize_command_error (value : pyval) (secrets : list pyval) : option pystr :=
  match value with
  | VStr _ =>
      match _text value _ERROR_MAX with
      | [] => None
      | text =>
          let text := if _TRACEBACK_RE None text then u "command failed" else path_sub 0 text in
          let text := match secrets with [] => text | _ => redact_text text secrets end in
          match _text (VStr text) _ERROR_MAX with [] => None | text => Some text end
      end
  | _ => None
  end.
Definition sanitize_camera_source (value : pyval) (secrets : list pyval) : pystr :=
  match value with
  | VStr _ =>
      let text := lower (_text value 32) in
      if bool_decide (text ∈ CAMERA_SOURCES) then match secrets with [] => text | _ => redact_text text secrets end
      else _UNKNOWN_SOURCE
  | _ => _UNKNOWN_SOURCE
  end.

(** The keyword arguments that a caller may give besides the version and the error. *)
Definition OVERRIDES : list pystr :=
  [u "quality"; u "snapshot_upload"; u "snapshot_interval"; u "timelapse_enabled"; u "timelapse_interval"; u "timelapse_fps";
   u "prusa_rtsp"; u "webrtc"; u "prusa_connected"; u "camera_source"; u "storage_free_bytes"; u "wifi_rssi_dbm";
   u "cpu_temperature_c"; u "uptime_seconds"].
Definition opt_text (o : option pystr) : pyval := match o with Some s => VStr s | None => VNone end.
Definition build_state (src : source) (given : list (pystr * pyval)) (application_version last_command_error : pyval)
    (secrets : list pyval) : res pyval :=
  if negb (forallb (λ kv, bool_decide (kv.1 ∈ OVERRIDES)) given) then Raise TypeError
  else
    let arg name := match dict_get (u name) given with Some v => v | None => VNone end in
    let version := _text (_pick src "application_version" application_version (VStr [])) _APP_VERSION_MAX in
    latency ← _as_float (_attr src "timelapse_trigger_latency" VNone);
    temperature ← _as_float (_pick src "cpu_temperature_c" (arg "cpu_temperature_c") VNone);
    Ret (VDict (zip (map VStr STATE_KEYS)
      [VInt STATE_SCHEMA_VERSION;
       VStr (_safe_quality (_pick src "quality" (arg "quality") (VInt DEFAULT_QUALITY_TIER)));
       VBool (_resolve_bool src (arg "snapshot_upload") "snapshot_upload_enabled" None true);
       _int_or (_pick src "snapshot_interval" (arg "snapshot_interval") (VInt 10)) 10;
       VBool (_resolve_bool src (arg "timelapse_enabled") "timelapse_enabled" None false);
       _int_or (_pick src "timelapse_interval" (arg "timelapse_interval") (VInt 10)) 10;
       _int_or (_pick src "timelapse_fps" (arg "timelapse_fps") (VInt 10)) 10;
       VBool (truthy (_attr src "timelapse_recording" (VBool false)));
       latency;
       VBool (_resolve_bool src (arg "prusa_rtsp") "prusa_rtsp" (Some ("rtsp_mode", 2)%string) false);
       VBool (_resolve_bool src (arg "webrtc") "webrtc" (Some ("webrtc_mode", 1)%string) true);
       VBool (truthy match arg "prusa_connected" with VNone => _attr src "prusa_connected" (VBool false) | v => v end);
       VStr (sanitize_camera_source (_pick src "camera_source" (arg "camera_source") (VStr _UNKNOWN_SOURCE)) secrets);
       _as_int (_pick src "storage_free_bytes" (arg "storage_free_bytes") VNone);
       _as_int (_pick src "wifi_rssi_dbm" (arg "wifi_rssi_dbm") VNone);
       temperature;
       _as_int (_pick src "uptime_seconds" (arg "uptime_seconds") VNone);
       VStr match secrets with [] => version | _ => redact_text version secrets end;
       opt_text (sanitize_command_error (_pick src "last_command_error" last_command_error VNone) secrets)])).

(** The attributes of the shared state that the builder asks for; the others it asks for the
    state does not have. *)
Definition camera_attrs (of_q : Q → spec_float) (s : CameraState.CameraState) : list (pystr * pyval) :=
  [(u "quality", VInt (CameraState.quality s)); (u "snapshot_upload_enabled", VBool (CameraState.snapshot_upload_enabled s));
   (u "snapshot_interval", VInt (CameraState.snapshot_interval s)); (u "timelapse_enabled", VBool (CameraState.timelapse_enabled s));
   (u "timelapse_interval", VInt (CameraState.timelapse_interval s)); (u "timelapse_fps", VInt (CameraState.timelapse_fps s));
   (u "timelapse_recording", VBool (CameraState.timelapse_recording s));
   (u "timelapse_trigger_latency", match CameraState.timelapse_trigger_latency s with Some q => VFloat (of_q q) | None => VNone end);
   (u "rtsp_mode", VInt (CameraState.rtsp_mode s)); (u "webrtc_mode", VInt (CameraState.webrtc_mode s))].
End Documents.

(** ** Discovery *)

Definition component_unique_id (device : pyval) (key : pystr) : res pystr :=
  d ← validate_device_id device;
  if bool_decide (key ∈ COMPONENT_KEYS) then Ret (d ++ u "_" ++ key) else Raise ValueError.

Section Discovery.
Context (device base : pyval) (state_topic : pystr).
Abbreviation fields := (list (pyval * pyval)).
Definition field (key : string) (value : pyval) : pyval * pyval := (VStr (u key), value).
Definition lit (s : string) : pyval := VStr (u s).
Definition when (b : bool) (l : fields) : fields := if b then l else [].
Definition template (before key after : string) : pyval := VStr (u before ++ u "value_json." ++ u key ++ u after).

Definition switch (key label : string) : res fields :=
  topic ← command device (u key) base; id ← component_unique_id device (u key);
  Ret [field "p" (lit "switch"); field "name" (lit label); field "unique_id" (VStr id); field "command_topic" (VStr topic);
       field "state_topic" (VStr state_topic); field "value_template" (template "{{ " key " | lower }}");
       field "state_on" (lit "true"); field "state_off" (lit "false"); field "payload_on" (lit "true"); field "payload_off" (lit "false")].
Definition number (key label : string) (minimum maximum step : Z) (unit : string) : res fields :=
  topic ← command device (u key) base; id ← component_unique_id device (u key);
  Ret ([field "p" (lit "number"); field "name" (lit label); field "unique_id" (VStr id); field "command_topic" (VStr topic);
        field "state_topic" (VStr state_topic); field "value_template" (template "{{ " key " }}");
        field "min" (VInt minimum); field "max" (VInt maximum); field "step" (VInt step); field "mode" (lit "box")] ++
       when (negb (bool_decide (u unit = []))) [field "unit_of_measurement" (lit unit)]).
Definition button (key label : string) : res fields :=
  topic ← command device (u key) base; id ← component_unique_id device (u key);
  Ret [field "p" (lit "button"); field "name" (lit label); field "unique_id" (VStr id); field "command_topic" (VStr topic);
       field "payload_press" (lit "press")].
Definition binary_sensor (key label device_class : string) (value_template : pyval) (enabled_by_default : bool) : res fields :=
  id ← component_unique_id device (u key);
  Ret ([field "p" (lit "binary_sensor"); field "name" (lit label); field "unique_id" (VStr id);
        field "state_topic" (VStr state_topic); field "value_template" value_template] ++
       when (negb (bool_decide (u device_class = []))) [field "device_class" (lit device_class)] ++
       when (negb enabled_by_default) [field "enabled_by_default" (VBool false)]).
Definition sensor (key label : string) (value_template : pyval) (device_class : option string) (unit : option pystr)
    (state_class : option string) (enabled_by_default : bool) : res fields :=
  id ← component_unique_id device (u key);
  Ret ([field "p" (lit "sensor"); field "name" (lit label); field "unique_id" (VStr id);
        field "state_topic" (VStr state_topic); field "value_template" value_template] ++
       match device_class with Some c => [field "device_class" (lit c)] | None => [] end ++
       match unit with Some x => [field "unit_of_measurement" (VStr x)] | None => [] end ++
       match state_class with Some c => [field "state_class" (lit c)] | None => [] end ++
       [field "entity_category" (lit "diagnostic")] ++
       when (negb enabled_by_default) [field "enabled_by_default" (VBool false)]).

Definition quality_select : res fields :=
  id ← component_unique_id device (u "quality"); topic ← command device (u "quality") base;
  Ret [field "p" (lit "select"); field "name" (lit "Quality"); field "unique_id" (VStr id); field "command_topic" (VStr topic);
       field "state_topic" (VStr state_topic); field "value_template" (template "{{ " "quality" " }}");
       field "options" (VList [lit "SD"; lit "HD"; lit "FHD"])].
Definition update_entity : res fields :=
  id ← component_unique_id device (u "update"); state ← update_state device base; install ← update_install device base;
  Ret [field "p" (lit "update"); field "name" (lit "Application update"); field "unique_id" (VStr id);
       field "state_topic" (VStr state); field "command_topic" (VStr install); field "payload_install" (lit "install");
       field "device_class" (lit "firmware"); field "value_template" (template "{{ " "installed_version" " }}");
       field "latest_version_topic" (VStr state); field "latest_version_template" (template "{{ " "latest_version" " }}")].

Definition keyed_components : list (string * res fields) :=
  [("quality", quality_select);
   ("snapshot_upload", switch "snapshot_upload" "Snapshot uploads");
   ("snapshot_interval", number "snapshot_interval" "Snapshot interval" 10 600 1 "s");
   ("timelapse_enabled", switch "timelapse_enabled" "Timelapse");
   ("timelapse_interval", number "timelapse_interval" "Timelapse interval" 1 3600 1 "s");
   ("timelapse_fps", number "timelapse_fps" "Timelapse FPS" 1 30 1 "fps");
   ("timelapse_build", button "timelapse_build" "Build timelapse");
   ("timelapse_recording", binary_sensor "timelapse_recording" "Timelapse recording" "running"
      (template "{{ 'ON' if " "timelapse_recording" " else 'OFF' }}") false);
   ("timelapse_latency", sensor "timelapse_latency" "Timelapse pulse-to-frame time"
      (template "{{ " "timelapse_trigger_latency_s" " }}") (Some "duration") (Some (u "s")) (Some "measurement") false);
   ("prusa_rtsp", switch "prusa_rtsp" "Prusa RTSP mode");
   ("webrtc", switch "webrtc" "Prusa WebRTC mode");
   ("restart", button "restart" "Restart");
   ("update", update_entity);
   ("prusa_connected", binary_sensor "prusa_connected" "Prusa connection" "connectivity"
      (template "{{ 'ON' if " "prusa_connected" " else 'OFF' }}") true);
   ("camera_source", binary_sensor "camera_source" "Camera source" "running"
      (template "{{ 'ON' if " "camera_source" " == 'running' else 'OFF' }}") true);
   ("storage_free", sensor "storage_free" "Storage free" (template "{{ " "storage_free_bytes" " }}")
      (Some "data_size") (Some (u "B")) (Some "measurement") true);
   ("wifi_rssi", sensor "wifi_rssi" "Wi-Fi RSSI" (template "{{ " "wifi_rssi_dbm" " }}")
      (Some "signal_strength") (Some (u "dBm")) (Some "measurement") false);
   ("cpu_temperature", sensor "cpu_temperature" "CPU temperature" (template "{{ " "cpu_temperature_c" " }}")
      (Some "temperature") (Some [176%Z; 67%Z]) (Some "measurement") false);
   ("uptime", sensor "uptime" "Uptime" (template "{{ " "uptime_seconds" " }}")
      (Some "duration") (Some (u "s")) (Some "total_increasing") false);
   ("app_version", sensor "app_version" "App version" (template "{{ " "application_version" " }}") None None None false)]%string.

(** The first exception, or all the components under their unique ids. *)
Fixpoint keyed_by_uid (components : list (string * res fields)) : res fields :=
  match components with
  | [] => Ret []
  | (key, component) :: rest =>
      c ← component; id ← component_unique_id device (u key); cs ← keyed_by_uid rest;
      Ret ((VStr id, VDict c) :: cs)
  end.
End Discovery.

Definition network_identity (mac : pyval) : res (list (pyval * pyval)) :=
  if negb (truthy mac) then Ret []
  else match mac with
       | VStr s => m ← normalize_wifi_mac s; Ret [field "cns" (VList [VList [lit "mac"; VStr m]])]
       | _ => Raise OtherError
       end.
Definition nonempty (s default : pystr) : pystr := match s with [] => default | _ => s end.
Definition build_discovery (device camera_name application_version base serial mac : pyval) (origin_name origin_url : pystr) : res pyval :=
  id ← validate_device_id device;
  let name := nonempty (_text camera_name _NAME_MAX) DEFAULT_CAMERA_NAME in
  let version := _text application_version _APP_VERSION_MAX in
  availability_topic ← availability device base;
  state_topic ← state device base;
  cns ← network_identity mac;
  components ← keyed_by_uid device (keyed_components device base state_topic);
  Ret (VDict [
    field "dev" (VDict ([field "ids" (VStr id); field "name" (VStr (name ++ DEVICE_NAME_SUFFIX)); field "mf" (VStr MANUFACTURER);
                         field "mdl" (VStr MODEL); field "sw" (VStr version); field "sn" (VStr (nonempty (_text serial _NAME_MAX) id))] ++ cns));
    field "o" (VDict ([field "name" (VStr origin_name); field "sw" (VStr version)] ++
                      when (negb (bool_decide (origin_url = []))) [field "url" (VStr origin_url)]));
    field "avty_t" (VStr availability_topic);
    field "cmps" (VDict components)]).

(** ** Tidy text *)

(** Single spaces and no other blank; [gap]: the text follows a blank. *)
Fixpoint spaced (gap : bool) (s : pystr) : bool :=
  match s with
  | [] => true
  | c :: s => if is_space c then (c =? 32) && negb gap && spaced true s else spaced false s
  end.
Definition word (w : pystr) : Prop := w ≠ [] ∧ Forall (λ c, is_space c = false) w.

Lemma spaced_weaken s : spaced true s = true → spaced false s = true.
Proof. destruct s as [|c s]; [done|]. cbn. destruct (is_space c); [|done]. rewrite andb_false_r. done. Qed.
Lemma spaced_word gap w r : word w → spaced gap (w ++ r) = spaced false r.
Proof.
  intros [Hne Hw]. revert gap. induction Hw as [|c w Hc Hw IH]; intros gap; [done|]. cbn. rewrite Hc.
  destruct w as [|d w]; [done|]. by apply IH.
Qed.
Lemma spaced_suffix gap a b : spaced gap (a ++ b) = true → spaced false b = true.
Proof.
  revert gap. induction a as [|c a IH]; intros gap; cbn; [destruct gap; [apply spaced_weaken|done]|].
  destruct (is_space c); [|apply IH]. intros [_ H]%andb_true_iff. by eapply IH.
Qed.
Lemma spaced_take n gap s : spaced gap s = true → spaced gap (take n s) = true.
Proof.
  revert gap s. induction n as [|n IH]; intros gap [|c s]; cbn; try done. destruct (is_space c); [|apply IH].
  intros [-> H]%andb_true_iff. cbn. by apply IH.
Qed.
(** Putting a word in the place of a part keeps the spacing. *)
Lemma spaced_put gap p x w q r : word w → spaced gap (p ++ x ++ q) = true → spaced false r = true → spaced gap (p ++ w ++ r) = true.
Proof.
  intros Hw. revert gap. induction p as [|c p IH]; intros gap H Hr; cbn in *; [by rewrite spaced_word|].
  destruct (is_space c); [|by apply IH]. apply andb_true_iff in H as [-> H]. cbn. by apply IH.
Qed.

Lemma words_word cur s : Forall (λ c, is_space c = false) cur → Forall word (words cur s).
Proof.
  assert (∀ cur, Forall (λ c, is_space c = false) cur → Forall word (match cur with [] => [] | _ => [rev cur] end)) as Hf.
  { intros [|c cur'] H; [constructor|]. repeat constructor; [|by apply Forall_rev].
    intros Hr%(f_equal length). rewrite length_rev in Hr. done. }
  revert cur. induction s as [|c s IH]; intros cur Hc; cbn [words]; [by apply Hf|]. destruct (is_space c) eqn:Hs.
  - apply Forall_app_2; [by apply Hf|]. by apply IH.
  - apply IH. by constructor.
Qed.
Lemma spaced_join l : Forall word l → spaced true (join_with [32] l) = true.
Proof.
  intros Hl. assert (∀ gap, l = [] ∨ spaced gap (join_with [32] l) = true) as H; [|by destruct (H true) as [->|]].
  induction Hl as [|w l Hw Hl IH]; [by left|]. intros gap. right. destruct l as [|v l].
  - cbn. rewrite <-(app_nil_r w). by rewrite spaced_word.
  - change (join_with [32] (w :: v :: l)) with (w ++ [32%Z] ++ join_with [32] (v :: l)). rewrite spaced_word by done.
    change (spaced false ([32%Z] ++ join_with [32] (v :: l))) with (spaced true (join_with [32] (v :: l))). by destruct (IH true).
Qed.
Lemma spaced_squeeze s : spaced true (squeeze s) = true.
Proof. apply spaced_join, words_word. constructor. Qed.

Lemma words_nonempty cur s : cur ≠ [] → words cur s ≠ [].
Proof. revert cur. induction s as [|c s IH]; intros [|d cur] H; try done. cbn [words]. destruct (is_space c); [done|]. by apply IH. Qed.
(** Squeezing a tidy text can only drop a blank at its end. *)
Lemma squeeze_prefix s : spaced true s = true → ∃ r, s = squeeze s ++ r.
Proof.
  intros Hs. unfold squeeze.
  assert (∀ cur, Forall (λ c, is_space c = false) cur → spaced (match cur with [] => true | _ => false end) s = true →
    ∃ r, rev cur ++ s = join_with [32] (words cur s) ++ r) as H; [|by apply (H [])].
  clear Hs. induction s as [|c s IH]; intros cur Hc Hs; cbn [words].
  - exists []. destruct cur; [done|]. cbn [join_with]. by rewrite !app_nil_r.
  - cbn in Hs. destruct (is_space c) eqn:Hsp.
    + rewrite !andb_true_iff, Z.eqb_eq in Hs. destruct Hs as [[-> Hgap] Hs]. destruct cur as [|d cur]; [done|].
      destruct (IH []) as [r Hr]; [constructor|done|]. cbn [rev app] in Hr. destruct (words [] s) as [|w l] eqn:Hw.
      * exists (32 :: s). done.
      * exists r. change (join_with [32] (([rev (d :: cur)] ++ w :: l)%list)) with (rev (d :: cur) ++ [32%Z] ++ join_with [32] (w :: l)).
        rewrite <-!app_assoc, <-Hr. done.
    + destruct (IH (c :: cur)) as [r Hr]; [by constructor|done|]. exists r. rewrite <-Hr. cbn [rev]. by rewrite <-app_assoc.
Qed.

Definition printable (s : pystr) : Prop := Forall (λ c, control_char c = false) s.
Definition tidy (s : pystr) : Prop := printable s ∧ spaced true s = true.

Lemma words_Forall (P : Z → Prop) cur s : Forall P cur → Forall P s → Forall (Forall P) (words cur s).
Proof.
  intros Hc Hs. revert cur Hc. induction Hs as [|c s Hcs Hs IH]; intros cur Hc; cbn [words].
  - destruct cur; repeat constructor. by apply Forall_rev.
  - destruct (is_space c); [|apply IH; by constructor]. apply Forall_app_2; [|by apply IH]. destruct cur; repeat constructor. by apply Forall_rev.
Qed.
Lemma text_tidy value limit : tidy (_text value limit).
Proof.
  destruct value; try by split; [constructor|]. cbn [_text]. split; [|apply spaced_take, spaced_squeeze].
  apply Forall_take. unfold squeeze. apply join_with_Forall; [by repeat constructor|]. apply words_Forall; [constructor|].
  apply Forall_map, Forall_true. intros c. destruct (control_char c) eqn:Hc; [done|done].
Qed.
Lemma text_short value limit : (length (_text value limit) ≤ limit)%nat.
Proof. destruct value; cbn; try lia. rewrite length_take. lia. Qed.
(** Tidy text is only cut. *)
Lemma text_prefix s limit : tidy s → ∃ r, s = _text (VStr s) limit ++ r.
Proof.
  intros [Hp Hs]. cbn [_text]. replace (map (λ c, if control_char c then 32 else c) s) with s.
  2: { clear Hs. induction Hp as [|c s Hc _ IH]; [done|]. cbn. rewrite Hc. by f_equal. }
  destruct (squeeze_prefix s Hs) as [r Hr]. exists (drop limit (squeeze s) ++ r). by rewrite app_assoc, take_drop.
Qed.
Lemma text_infix x s limit : tidy s → infix_of x (_text (VStr s) limit) → infix_of x s.
Proof. intros Ht Hi. destruct (text_prefix s limit Ht) as [r Hr]. rewrite Hr. by apply infix_app_l. Qed.

Lemma tidy_replace old s : old ≠ [] → tidy s → tidy (replace_all old REDACTED s).
Proof.
  intros Hne [Hp Hs]. assert (word REDACTED) as Hw by (split; [done|by repeat constructor]). split.
  - revert Hp. clear Hs. induction s as [s IH] using (induction_ltof1 _ (@length Z)). unfold ltof in IH. intros Hp.
    destruct (replace_cases old REDACTED s Hne) as [[-> _]|(p & q & Hpq & -> & _)]; [done|]. subst s.
    unfold printable in *. rewrite !Forall_app in *. destruct Hp as (Hp & _ & Hq). split_and!; [done|by repeat constructor|].
    apply IH; [|done]. rewrite !length_app. destruct old; [done|]. cbn. lia.
  - clear Hp. revert Hs. assert (∀ gap, spaced gap s = true → spaced gap (replace_all old REDACTED s) = true) as H; [|apply H].
    induction s as [s IH] using (induction_ltof1 _ (@length Z)). unfold ltof in IH. intros gap Hs.
    destruct (replace_cases old REDACTED s Hne) as [[-> _]|(p & q & Hpq & -> & _)]; [done|]. subst s.
    eapply spaced_put; [done|exact Hs|]. apply IH; [rewrite !length_app; destruct old; [done|]; cbn; lia|].
    apply spaced_suffix in Hs. by eapply (spaced_suffix false old).
Qed.
Lemma secret_values_nonempty secrets : Forall (λ x : pystr, x ≠ []) (_secret_values secrets).
Proof.
  unfold _secret_values. apply Forall_forall. intros x (y & _ & Hy)%list_elem_of_omap.
  destruct y as [| | | |[|? ?]| | |]; try done. by injection Hy as <-.
Qed.
Lemma tidy_redact s secrets : tidy s → tidy (redact_text s secrets).
Proof.
  unfold redact_text, _scrub_string. intros Hs. pose proof (secret_values_nonempty secrets) as Hne.
  revert s Hs. induction Hne as [|x l Hx _ IH]; intros s Hs; [done|]. cbn. by apply IH, tidy_replace.
Qed.

Lemma path_run_spec s : (path_run s ≤ length s)%nat ∧ Forall (λ c, is_space c = false) (take (path_run s) s).
Proof.
  induction s as [|c s [Hl Hf]]; cbn; [by split; [|constructor]|]. destruct (path_char c) eqn:Hc; cbn; [|split; [lia|constructor]].
  split; [lia|]. constructor; [|done]. unfold path_char in Hc. apply negb_true_iff in Hc. rewrite !orb_false_iff in Hc. tauto.
Qed.
Lemma rooted_spec s : (rooted s ≤ length s)%nat ∧ Forall (λ c, is_space c = false) (take (rooted s) s).
Proof.
  destruct s as [|c s]; [by split; [|constructor]|]. unfold rooted. destruct (_ || _) eqn:Hc; [|by split; [lia|constructor]].
  destruct (path_run_spec s) as [Hl Hf]. destruct (path_run s) as [|n]; [by split; [cbn; lia|constructor]|].
  cbn in *. split; [lia|]. constructor; [|done]. apply orb_true_iff in Hc as [->%Z.eqb_eq| ->%Z.eqb_eq]; done.
Qed.
Lemma path_match_spec s : (path_match s ≤ length s)%nat ∧ Forall (λ c, is_space c = false) (take (path_match s) s).
Proof.
  destruct s as [|c [|d s]]; [apply rooted_spec|apply rooted_spec|]. unfold path_match.
  destruct (decide (d = 58)) as [->|Hd].
  2: { assert (match d with 58 => if (in_range 65 90 c || in_range 97 122 c) && negb (rooted s =? 0)%nat then (2 + rooted s)%nat else rooted (c :: d :: s)
               | _ => rooted (c :: d :: s) end = rooted (c :: d :: s)) as ->; [|apply rooted_spec].
       destruct d as [|p|p]; try done. repeat (destruct p as [p|p|]; try done). }
  destruct (_ && _) eqn:Hc; [|apply rooted_spec]. destruct (rooted_spec s) as [Hl Hf]. split; [cbn; lia|]. cbn [take plus].
  apply andb_true_iff in Hc as [Hc _]. constructor; [|by constructor]. unfold is_space. rewrite orb_true_iff, !in_range_spec in Hc.
  rewrite !orb_false_iff, !in_range_false, !Z.eqb_neq. lia.
Qed.
Lemma path_sub_skip k s : path_sub k s = path_sub 0 (drop k s).
Proof. revert s. induction k as [|k IH]; intros [|c s]; try done. cbn [drop]. rewrite <-IH. done. Qed.
(** One step: a character, or a match. *)
Lemma path_sub_cases s : s = [] ∨ (∃ c r, s = c :: r ∧ path_sub 0 s = c :: path_sub 0 r) ∨
  ∃ w r, word w ∧ s = w ++ r ∧ path_sub 0 s = u "<path>" ++ path_sub 0 r.
Proof.
  destruct s as [|c s]; [by left|]. right. destruct (path_match (c :: s)) as [|k] eqn:Hm.
  - left. exists c, s. split; [done|]. change (path_sub 0 (c :: s)) with (match path_match (c :: s) with O => c :: path_sub 0 s | S k => u "<path>" ++ path_sub k s end).
    by rewrite Hm.
  - right. destruct (path_match_spec (c :: s)) as [Hl Hf]. rewrite Hm in Hl, Hf. exists (take (S k) (c :: s)), (drop (S k) (c :: s)).
    split; [by split|]. split; [by rewrite take_drop|].
    change (path_sub 0 (c :: s)) with (match path_match (c :: s) with O => c :: path_sub 0 s | S k => u "<path>" ++ path_sub k s end).
    rewrite Hm. by rewrite path_sub_skip.
Qed.
Lemma tidy_path s : tidy s → tidy (path_sub 0 s).
Proof.
  assert (word (u "<path>")) as Hw by (split; [done|by repeat constructor]). intros [Hp Hs]. split.
  - clear Hs. induction s as [s IH] using (induction_ltof1 _ (@length Z)). unfold ltof in IH.
    destruct (path_sub_cases s) as [->|[(c & r & -> & ->)|(w & r & Hww & -> & ->)]]; [constructor|..].
    + inversion Hp; subst. constructor; [done|]. apply IH; [cbn; lia|done].
    + unfold printable in Hp. apply Forall_app in Hp as [_ Hp]. apply Forall_app_2; [by repeat constructor|]. apply IH; [|done].
      rewrite length_app. destruct Hww as [Hne _], w; [done|]. cbn. lia.
  - clear Hp. revert Hs. assert (∀ gap, spaced gap s = true → spaced gap (path_sub 0 s) = true) as H; [|apply H].
    induction s as [s IH] using (induction_ltof1 _ (@length Z)). unfold ltof in IH. intros gap.
    destruct (path_sub_cases s) as [->|[(c & r & -> & ->)|(w & r & Hww & -> & ->)]]; [done|..].
    + cbn [spaced]. destruct (is_space c); [|apply IH; cbn; lia]. rewrite !andb_true_iff. intros [? ?]. split; [done|]. apply IH; [cbn; lia|done].
    + intros Hs. rewrite spaced_word in Hs |- * by done. apply IH; [|done]. rewrite length_app. destruct Hww as [Hne _]. destruct w; [done|]. cbn. lia.
Qed.

(** ** The state document *)

Section StateFacts.
Context `{UnicodeDB} (lower upper : pystr → pystr) (same_letter : Z → Z → bool) (word_char : Z → bool)
  (float_of_int : Z → res spec_float).
Abbreviation clean_error := (sanitize_command_error same_letter word_char).
Abbreviation document := (build_state lower upper same_letter word_char float_of_int).

Lemma sanitize_spec value secrets e : clean_error value secrets = Some e →
  e ≠ [] ∧ tidy e ∧ (length e ≤ _ERROR_MAX)%nat ∧ ∀ s, plain_secret s → s ∈ _secret_values secrets → ¬ infix_of s e.
Proof.
  unfold sanitize_command_error. destruct value as [| | | |v| | |]; try done. pose proof (text_tidy (VStr v) _ERROR_MAX) as Ht.
  destruct (_text (VStr v) _ERROR_MAX) as [|c text]; [done|]. cbv zeta.
  set (t1 := if _TRACEBACK_RE _ _ None (c :: text) then _ else _).
  assert (tidy t1) as Ht1.
  { unfold t1. destruct (_TRACEBACK_RE _ _ _ _); [|by apply tidy_path]. split; [by repeat constructor|done]. }
  set (t2 := match secrets with [] => t1 | _ => redact_text t1 secrets end).
  assert (tidy t2 ∧ t2 = redact_text t1 secrets) as [Ht2 Heq] by (unfold t2; destruct secrets; split; try done; by apply tidy_redact).
  pose proof (text_tidy (VStr t2) _ERROR_MAX) as Ht3. pose proof (text_infix) as Hinf.
  destruct (_text (VStr t2) _ERROR_MAX) as [|d e'] eqn:Hout; [done|]. intros [= <-]. split; [done|]. split; [done|]. split.
  - rewrite <-Hout. cbn [_text]. rewrite length_take. lia.
  - intros s Hs Hin Hi. rewrite <-Hout in Hi. apply text_infix in Hi; [|done]. rewrite Heq in Hi. unfold redact_text in Hi.
    apply scrub_infix in Hi as [_ Hi]; [done|apply secret_values_nonempty|done].
Qed.

(** What each field may hold. *)
Definition is_bool (v : pyval) : Prop := ∃ b, v = VBool b.
Definition is_int (v : pyval) : Prop := ∃ z, v = VInt z.
Definition is_float (v : pyval) : Prop := ∃ f, v = VFloat f.
Definition or_null (P : pyval → Prop) (v : pyval) : Prop := v = VNone ∨ P v.
Definition is_text (P : pystr → Prop) (v : pyval) : Prop := ∃ s, v = VStr s ∧ P s.
Definition field_types (secrets : list pyval) : list (pyval → Prop) :=
  [eq (VInt STATE_SCHEMA_VERSION); is_text (λ s, s ∈ QUALITY_NAMES.*2); is_bool; is_int; is_bool; is_int; is_int; is_bool;
   or_null is_float; is_bool; is_bool; is_bool;
   is_text (λ s, ∃ t, t ∈ CAMERA_SOURCES ∧ (s = t ∨ s = redact_text t secrets));
   or_null is_int; or_null is_int; or_null is_float; or_null is_int;
   is_text (λ s, tidy s ∧ ∃ t, tidy t ∧ (length t ≤ 64)%nat ∧ s = redact_text t secrets);
   or_null (is_text (λ s, s ≠ [] ∧ tidy s ∧ (length s ≤ 200)%nat))].
(** The settings among the fields, as the shared state has them. *)
Definition settings_fields (st : CameraState.CameraState) : list (pystr * pyval) :=
  [(u "snapshot_upload", VBool (CameraState.snapshot_upload_enabled st)); (u "snapshot_interval", VInt (CameraState.snapshot_interval st));
   (u "timelapse_enabled", VBool (CameraState.timelapse_enabled st)); (u "timelapse_interval", VInt (CameraState.timelapse_interval st));
   (u "timelapse_fps", VInt (CameraState.timelapse_fps st)); (u "timelapse_recording", VBool (CameraState.timelapse_recording st));
   (u "prusa_rtsp", VBool (CameraState.rtsp_mode st =? 2)); (u "webrtc", VBool (CameraState.webrtc_mode st =? 1))].
Definition METRICS : list pystr :=
  [u "prusa_connected"; u "camera_source"; u "storage_free_bytes"; u "wifi_rssi_dbm"; u "cpu_temperature_c"; u "uptime_seconds"].

Lemma as_float_type v f : _as_float float_of_int v = Ret f → or_null is_float f.
Proof.
  destruct v; cbn; try (intros [= <-]; by left); [|intros [= <-]; right; by eexists].
  destruct (float_of_int z); cbn; [|done]. intros [= <-]. right. by eexists.
Qed.
Lemma int_or_type v z : is_int (_int_or v z).
Proof. destruct v; by eexists. Qed.
Lemma as_int_type v : or_null is_int (_as_int v).
Proof. destruct v; try (by left). right. by eexists. Qed.
Lemma safe_quality_name v : _safe_quality upper v ∈ QUALITY_NAMES.*2.
Proof.
  unfold _safe_quality, quality_name. destruct v; try (by right; right; left).
  - destruct (dict_get z QUALITY_NAMES) as [name|] eqn:Hn; [|by right; right; left]. apply dict_get_Some_elem in Hn.
    by apply list_elem_of_fmap; eexists (z, name).
  - case_bool_decide; [done|by right; right; left].
Qed.
Lemma camera_source_type v secrets : ∃ t, t ∈ CAMERA_SOURCES ∧
  (sanitize_camera_source lower v secrets = t ∨ sanitize_camera_source lower v secrets = redact_text t secrets).
Proof.
  assert (_UNKNOWN_SOURCE ∈ CAMERA_SOURCES) as Hu by by right; right; right; left. unfold sanitize_camera_source.
  destruct v; try (exists _UNKNOWN_SOURCE; split; [exact Hu|by left]). case_bool_decide as Ht; [|exists _UNKNOWN_SOURCE; split; [exact Hu|by left]].
  eexists. split; [exact Ht|]. destruct secrets; [by left|by right].
Qed.
Lemma not_given (given : list (pystr * pyval)) name : Forall (λ kv, kv.1 ∈ METRICS) given → bool_decide (u name ∈ METRICS) = false → dict_get (u name) given = None.
Proof. intros Hg Hn%bool_decide_eq_false. apply dict_get_None. intros (kv & Hkv & Hk)%list_elem_of_fmap. rewrite Forall_forall in Hg. apply Hn. rewrite Hkv. by apply Hg. Qed.

(** C24: A state document has exactly the documented fields, in order and in their types, whatever
    the state object and the metrics hold: its version and its error are single lines of printable
    text, the version with at most 64 characters before secrets are replaced in it, the error with at
    most 200.  None of the named secrets is in the version or the error, if it is one that the
    replacement text cannot complete: without [<] and [>], and no part of the word [redacted].  With
    the shared state and no metric that overrides a setting, every setting in the document is the
    one of the shared state. *)
Theorem state_document src given version error secrets doc : document src given version error secrets = Ret doc →
  ∃ d, doc = VDict d ∧ d.*1 = map VStr STATE_KEYS ∧ Forall2 (λ P kv, P kv.2) (field_types secrets) d ∧
    (∀ key s t, key = "application_version"%string ∨ key = "last_command_error"%string → plain_secret s → s ∈ _secret_values secrets →
       get_key (u key) d = VStr t → ¬ infix_of s t) ∧
    (∀ of_q zones st, CameraState.settings_ok zones st → src = Some (camera_attrs of_q st) → Forall (λ kv, kv.1 ∈ METRICS) given →
       (∃ name, dict_get (CameraState.quality st) QUALITY_NAMES = Some name ∧ get_key (u "quality") d = VStr name) ∧
       Forall (λ kv, get_key kv.1 d = kv.2) (settings_fields st)).
Proof.
  unfold build_state. destruct (negb _); [done|]. cbv zeta.
  intros (latency & Hlat & (temp & Htemp & Hdoc)%res_bind_ret)%res_bind_ret.
  injection Hdoc as <-. eexists. split; [reflexivity|]. set (clean := match secrets with [] => _ | _ => _ end).
  set (err := sanitize_command_error _ _ _ _).
  assert (tidy clean ∧ clean = redact_text (_text (_pick src "application_version" version (VStr [])) _APP_VERSION_MAX) secrets) as [Hclean Hred]
    by (unfold clean; destruct secrets; split; try done; [apply text_tidy|apply tidy_redact, text_tidy]).
  assert (∃ t, tidy t ∧ (length t ≤ 64)%nat ∧ clean = redact_text t secrets) as Hversion.
  { eexists. split; [|split; [|exact Hred]]; [apply text_tidy|]. apply text_short. }
  split; [done|]. split; [|split].
  - unfold STATE_KEYS, field_types. cbn [map zip zip_with]. repeat (apply Forall2_cons; split); try apply Forall2_nil; cbn [snd];
      try done; try apply int_or_type; try apply as_int_type; try (by eapply as_float_type); try (by eexists).
    + eexists. split; [done|apply safe_quality_name].
    + eexists. split; [done|apply camera_source_type].
    + destruct err as [e|] eqn:He; [right|by left]. apply sanitize_spec in He as (Hne & Ht & Hl & _). by eexists.
  - intros key s t [->| ->] Hs Hin; cbn [STATE_KEYS map zip zip_with].
    + assert (∀ v l, get_key (u "application_version") (v :: l) = get_key (u "application_version") (v :: l)) by done.
      intros [= <-]. rewrite Hred. intros Hi. apply scrub_infix in Hi as [_ Hi]; [done|apply secret_values_nonempty|done].
    + destruct err as [e|] eqn:He; intros [= <-]. apply sanitize_spec in He as (_ & _ & _ & Hno). by apply Hno.
  - intros of_q zones st Hst -> Hg. split.
    + pose proof (CameraState.ok_quality _ _ Hst) as Hq. unfold _pick. rewrite (not_given given "quality") by done. cbn. 
      assert (CameraState.quality st = 1 ∨ CameraState.quality st = 2 ∨ CameraState.quality st = 3) as [->|[->| ->]] by lia; by eexists.
    + unfold settings_fields. rewrite !(not_given given) by done. repeat constructor.
Qed.
End StateFacts.

(** *** With the ASCII tables *)

Definition same_ascii (a c : Z) : bool := bool_decide (lower_ascii [a] = lower_ascii [c]).
Definition ascii_word (c : Z) : bool := alnum c || (c =? 95).
Definition upper_ascii (s : pystr) : pystr := map (λ c, if in_range 97 122 c then c - 32 else c) s.
Definition no_float (z : Z) : res spec_float := Raise OtherError.
Definition demo_document := build_state lower_ascii upper_ascii same_ascii ascii_word no_float.

Lemma state_document_witness :
  let secrets := [VStr (u "hunter2222")] in
  ∃ d, demo_document (Some (camera_attrs (λ _, S754_zero false) CameraState.initial_state))
         [(u "camera_source", VStr (u "Running")); (u "uptime_seconds", VInt 60)] (VStr (u "1.2.3"))
         (VStr (u "login hunter2222 at /home/pi/x.py")) secrets = Ret (VDict d) ∧
    d.*1 = map VStr STATE_KEYS ∧ get_key (u "last_command_error") d = VStr (u "login <redacted> at <path>") ∧
    ¬ infix_of (u "hunter2222") (u "login <redacted> at <path>") ∧ get_key (u "camera_source") d = VStr (u "running") ∧
    get_key (u "snapshot_interval") d = VInt 10.
Proof.
  intros secrets. destruct (demo_document _ _ _ _ _) as [doc|] eqn:Hd; [|by vm_compute in Hd].
  destruct (state_document lower_ascii upper_ascii same_ascii ascii_word no_float _ _ _ _ _ _ Hd) as (d & -> & Hk & _ & Hno & Hset).
  exists d. split; [done|]. split; [exact Hk|]. assert (get_key (u "last_command_error") d = VStr (u "login <redacted> at <path>")) as He
    by (vm_compute in Hd; injection Hd as <-; by vm_compute).
  split; [exact He|]. split; [|split].
  - apply (Hno "last_command_error"%string); [by right| |by left|exact He]. unfold plain_secret. split_and!; [done|by apply (bool_decide_eq_false (60 ∈ u "hunter2222")); vm_compute|by apply (bool_decide_eq_false (62 ∈ u "hunter2222")); vm_compute|].
    intros (a & b & Hab). apply (f_equal length) in Hab. rewrite !length_app in Hab. change (8 = length a + (10 + length b))%nat in Hab. lia.
  - vm_compute in Hd. by injection Hd as <-.
  - destruct (Hset (λ _, S754_zero false) [] CameraState.initial_state) as [_ Hf]; [apply CameraState.initial_state_ok|done|by repeat constructor|].
    rewrite Forall_forall in Hf. apply (Hf (u "snapshot_interval", VInt 10)). by right; left.
Defined.

(** The text is cut, its blanks are squeezed and its paths are replaced before the secrets are
    looked for: what these steps cut in two is no longer found, and its other part is published. *)
Definition demo_error (text secret : pystr) : option pystr := sanitize_command_error same_ascii ascii_word (VStr text) [VStr secret].
Lemma part_of_secret_published :
  demo_error (u "login failed for pass/word1234") (u "pass/word1234") = Some (u "login failed for pass<path>") ∧
  demo_error (u "wrong password: two  blanks") (u "two  blanks") = Some (u "wrong password: two blanks") ∧
  demo_error (replicate 190 120 ++ u "SECRETKEY1234") (u "SECRETKEY1234") = Some (replicate 190 120 ++ u "SECRETKEY1").
Proof. by vm_compute. Qed.

(** ** The discovery document *)

Section DiscoveryFacts.
Context (device base : pyval).

(** A component of the key: its id, what it is, and the topics in it. *)
Definition component_ok (state_topic : pystr) (key : pystr) (f : list (pyval * pyval)) : Prop :=
  component_unique_id device key = Ret match get_key (u "unique_id") f with VStr id => id | _ => [] end ∧
  is_text (λ p, p ≠ u "camera") (get_key (u "p") f) ∧
  match get_key (u "command_topic") f with
  | VStr t => command_from_topic (VStr t) device base = Ret key ∨ key = u "update" ∧ update_install device base = Ret t
  | v => v = VNone
  end ∧
  match get_key (u "state_topic") f with
  | VStr t => t = state_topic ∨ key = u "update" ∧ update_state device base = Ret t
  | v => v = VNone
  end.

Lemma components_ok state_topic : Forall (λ kc : string * res (list (pyval * pyval)),
  ∀ f, kc.2 = Ret f → component_ok state_topic (u kc.1) f) (keyed_components device base state_topic).
Proof.
  assert (∀ key t, command device key base = Ret t → command_from_topic (VStr t) device base = Ret key) as Hcmd.
  { intros key t Ht. apply command_from_topic_spec. by eexists. }
  unfold keyed_components, quality_select, switch, number, button, binary_sensor, sensor, update_entity.
  repeat (apply Forall_cons_2; [intros f; cbn [snd fst]|]); [..|apply Forall_nil_2].
  all: repeat (intros (? & ? & Hrest)%res_bind_ret; revert Hrest); intros Hf; injection Hf as <-; split_and!.
  all: first [ reflexivity | done | eexists; split; [reflexivity|done] | left; reflexivity | left; eapply Hcmd; eassumption
             | right; split; [done|eassumption] ].
Qed.
Lemma keyed_by_uid_spec components cs (P : string → list (pyval * pyval) → Prop) :
  Forall (λ kc : string * res (list (pyval * pyval)), ∀ f, kc.2 = Ret f → P kc.1 f) components → keyed_by_uid device components = Ret cs →
  Forall2 (λ (kc : string * res (list (pyval * pyval))) c, ∃ id f,
    component_unique_id device (u kc.1) = Ret id ∧ c = (VStr id, VDict f) ∧ P kc.1 f) components cs.
Proof.
  intros Hp. revert cs. induction Hp as [|[key c] rest Hc _ IH]; intros cs; cbn [keyed_by_uid]; [intros [= <-]; constructor|].
  intros (f & Hf & (id & Hid & (l & Hl & Hcs)%res_bind_ret)%res_bind_ret)%res_bind_ret. injection Hcs as <-.
  constructor; [|by apply IH]. exists id, f. split; [done|]. split; [done|]. by apply Hc.
Qed.
End DiscoveryFacts.

Lemma build_discovery_spec device name version base serial mac origin url doc :
  build_discovery device name version base serial mac origin url = Ret doc →
  ∃ d state_topic dev o cs, device = VStr d ∧ validate_device_id device = Ret d ∧ state device base = Ret state_topic ∧
    keyed_by_uid device (keyed_components device base state_topic) = Ret cs ∧
    doc = VDict [field "dev" dev; field "o" o;
                 field "avty_t" (VStr match availability device base with Ret t => t | Raise _ => [] end); field "cmps" (VDict cs)].
Proof.
  unfold build_discovery.
  intros (d & Hd & (avail & Ha & (st & Hst & (cns & _ & (cs & Hcs & Hdoc)%res_bind_ret)%res_bind_ret)%res_bind_ret)%res_bind_ret)%res_bind_ret.
  injection Hdoc as <-. exists d, st. do 2 eexists. exists cs. pose proof (checked_token_spec _ _ _ _ Hd) as [-> _].
  split_and!; try done. by rewrite Ha.
Qed.

(** C25: The discovery document is keyed by ids that are made of the device id and the component,
    pairwise different and the same whatever the name, version, serial number and address; no
    component is a camera; every command topic in it is read back as the command of its own
    component, or is the topic of the update button, and every state topic is one that the
    appliance publishes. *)
Theorem discovery_consistent device name version base serial mac origin url doc :
  build_discovery device name version base serial mac origin url = Ret doc →
  ∃ d state_topic fields cs, device = VStr d ∧ state device base = Ret state_topic ∧ doc = VDict fields ∧
    get_key (u "cmps") fields = VDict cs ∧ availability device base = Ret match get_key (u "avty_t") fields with VStr t => t | _ => [] end ∧
    cs.*1 = map (λ key, VStr (d ++ u "_" ++ key)) COMPONENT_KEYS ∧ NoDup cs.*1 ∧
    Forall2 (λ key (c : pyval * pyval), ∃ f, c.2 = VDict f ∧ component_ok device base state_topic key f) COMPONENT_KEYS cs ∧
    (∀ name' version' serial' mac' origin' url' fields', build_discovery device name' version' base serial' mac' origin' url' = Ret (VDict fields') →
       get_key (u "cmps") fields' = VDict cs).
Proof.
  intros (d & st & dev & o & cs & -> & Hd & Hst & Hcs & ->)%build_discovery_spec. exists d, st. eexists. exists cs.
  pose proof (keyed_by_uid_spec _ _ _ (λ k f, component_ok (VStr d) base st (u k) f) (components_ok (VStr d) base st) Hcs) as Hall.
  assert (map u (keyed_components (VStr d) base st).*1 = COMPONENT_KEYS) as Hkeys by done.
  assert (cs.*1 = map (λ key, VStr (d ++ u "_" ++ key)) COMPONENT_KEYS ∧
    Forall2 (λ key (c : pyval * pyval), ∃ f, c.2 = VDict f ∧ component_ok (VStr d) base st key f) COMPONENT_KEYS cs) as [Hfst Hok].
  { rewrite <-Hkeys. clear -Hall Hd. induction Hall as [|[k c] x l cs (id & f & Hid & -> & Hok) _ [IH1 IH2]]; [by split|]. cbn [map fmap list_fmap fst] in *. split.
    - f_equal; [|done]. unfold component_unique_id in Hid. rewrite Hd in Hid. cbn in Hid. case_bool_decide; [|done]. by injection Hid as <-.
    - constructor; [|done]. by exists f. }
  split; [done|]. split; [done|]. split; [done|]. split; [done|]. split.
  { destruct (availability (VStr d) base) as [t|e] eqn:Ha; [done|]. exfalso. unfold availability, below_device in Ha. unfold state, below_device in Hst.
    by destruct (_device_path (VStr d) base). }
  split; [done|]. split; [|split; [done|]].
  - rewrite Hfst. assert (NoDup COMPONENT_KEYS) as Hnd by (apply (bool_decide_unpack _); by vm_compute).
    clear -Hnd. induction Hnd as [|k l Hk _ IH]; cbn; [constructor|]. constructor; [|done]. intros (k' & [= Hkk] & Hin)%list_elem_of_fmap.
    apply app_inv_head in Hkk. injection Hkk as ->. done.
  - intros name' version' serial' mac' origin' url' fields' (d' & st' & dev' & o' & cs' & [= <-] & _ & Hst' & Hcs' & [= ->])%build_discovery_spec.
    rewrite Hst in Hst'. injection Hst' as <-. rewrite Hcs in Hcs'. by injection Hcs' as <-.
Qed.
Definition demo_discovery (name : string) : res pyval :=
  build_discovery (VStr (u "ab12")) (VStr (u name)) (VStr (u "1.2.3")) (VStr DEFAULT_BASE_PREFIX) VNone VNone ORIGIN_NAME [].
Lemma discovery_consistent_witness : ∃ fields cs, demo_discovery "Prusa" = Ret (VDict fields) ∧ get_key (u "cmps") fields = VDict cs ∧ NoDup cs.*1 ∧
  ∀ fields', demo_discovery "Other name" = Ret (VDict fields') → get_key (u "cmps") fields' = VDict cs.
Proof.
  unfold demo_discovery. destruct (build_discovery (VStr (u "ab12")) (VStr (u "Prusa")) _ _ _ _ _ _) as [doc|] eqn:Hd; [|by vm_compute in Hd].
  destruct (discovery_consistent _ _ _ _ _ _ _ _ _ Hd) as (d & st & fields & cs & _ & _ & -> & Hcs & _ & _ & Hnd & _ & Hsame).
  exists fields, cs. split; [done|]. split; [exact Hcs|]. split; [exact Hnd|]. intros fields'. apply Hsame.
Defined.
