(* ===== verification/MqttService.v ===== *)
(** [app/mqtt_service.py]: the service that connects the documents and topics of MQTT to a broker
    and to the settings coordinator.  The broker, the threads and the clock are what the world
    and the events say: a broker call may raise, a thread may not start, a thread that sleeps is
    a task that waits. *)
From Stdlib Require Import SpecFloat QArith.
From S2P Require Import Prelude PyValue Identity PyText AdminAuth Redact Coordinator QualityControl Dispatch MqttTopics MqttState.
From S2P Require CameraState.
#[local] Open Scope Z_scope.

Definition MAX_PAYLOAD_BYTES : Z := 256.
Definition COMMAND_ERROR_TTL : Z := 60.
Definition DEFAULT_KEEPALIVE : Z := 60.
Definition COMMAND_QOS : Z := 1.
Definition ONLINE : pystr := u "online".
Definition OFFLINE : pystr := u "offline".
Definition PRESS : pystr := u "press".
Definition INSTALL_PAYLOAD : pystr := u "install".
Definition _STATE_METRIC_KEYS : list pystr := OVERRIDES.
Definition _QUALITY_RAW : list (pystr * Z) := [(u "sd", 5); (u "hd", 6); (u "fhd", 7)].
Definition _TRUE_WORDS : list pystr := [u "true"; u "1"; u "on"; u "yes"].
Definition _FALSE_WORDS : list pystr := [u "false"; u "0"; u "off"; u "no"].

(** ** Configuration *)

(** The last occurrence of a separator. *)
Definition cut_last (sep : Z) (s : pystr) : option (pystr * pystr) :=
  match cut_at sep (rev s) with Some (after, before) => Some (rev before, rev after) | None => None end.
(** [_hostinfo] of a split URL: the host, and the port when there is one. *)
Definition hostinfo (netloc : pystr) : pystr * pystr :=
  let hi := match cut_last 64 netloc with Some (_, h) => h | None => netloc end in
  let '(host, rest) :=
    match cut_at 91 hi with
    | Some (_, bracketed) =>
        match cut_at 93 bracketed with Some (h, r) => (h, match cut_at 58 r with Some (_, p) => p | None => [] end) | None => (bracketed, []) end
    | None => match cut_at 58 hi with Some (h, p) => (h, p) | None => (hi, []) end
    end in (host, rest).
Definition port_ok (port : pystr) : bool :=
  match port with [] => true | _ => forallb is_digit port && (length port <=? 4300)%nat && in_range 1 65535 (decimal port) end.
(** What follows the host part: path, query and fragment. *)
Definition url_tail (url : pystr) : pystr * pystr * pystr :=
  let rest := (split_scheme (clean_url url)).2 in
  let tail := match rest with 47 :: 47 :: r => drop (length (until_delim r)) r | _ => rest end in
  let '(tail, fragment) := match cut_at 35 tail with Some (a, b) => (a, b) | None => (tail, []) end in
  let '(path, query) := match cut_at 63 tail with Some (a, b) => (a, b) | None => (tail, []) end in
  (path, query, fragment).

Record MqttConfig := {
  enabled : bool;
  uri : pystr;
  client_id : pystr;
  discovery_prefix : pystr;
  topic_prefix : pystr;
  ca_file : pystr;
  username : pystr;
  password : pystr;
  cfg_device_id : pystr;
  keepalive : Z;
}.

Section Config.
(** [str.lower], [uuid5], the bracket and normalisation checks of [urlsplit], and whether a path
    exists without being a file. *)
Context (lower uuid5_hex : pystr → pystr) (netloc_ok : pystr → bool) (other_kind : pystr → bool).

Definition _valid_uri (value : pystr) : bool :=
  match urlsplit netloc_ok value with
  | Raise _ => false
  | Ret (scheme, netloc) =>
      let '(host, port) := hostinfo netloc in
      let '(path, query, fragment) := url_tail value in
      bool_decide (scheme ∈ [u "mqtt"; u "mqtts"]) && negb (bool_decide (host = [])) && negb (contains_char 64 netloc)
      && bool_decide (path = []) && bool_decide (query = []) && bool_decide (fragment = []) && port_ok port
  end.
Definition _valid_ca_file (path : pystr) : bool :=
  match path with
  | [] => true
  | _ => negb (existsb (λ c, (c =? 0) || (c =? 10) || (c =? 13)) path) && starts_with (u "/") path && negb (other_kind path)
  end.
Definition _valid_prefix (prefix : pystr) : bool :=
  match validate_prefix (VStr prefix) with Ret _ => true | Raise _ => false end.

Definition subdict (key : string) (document : pyval) : list (pyval * pyval) :=
  match document with VDict d => match get_key (u key) d with VDict m => m | _ => [] end | _ => [] end.
Definition text_or (v : pyval) (default : pystr) : pystr := match v with VStr s => s | _ => default end.
Definition prefix_or (v : pyval) (default : pystr) : pystr := match v with VStr ((_ :: _) as s) => s | _ => default end.
Definition from_documents (device secrets device_seed : pyval) : MqttConfig :=
  let mqtt := subdict "mqtt" device in
  let secret_mqtt := subdict "mqtt" secrets in
  let uri := text_or (get_key (u "uri") mqtt) [] in
  let ca := text_or (get_key (u "ca_file") mqtt) [] in
  let discovery := prefix_or (get_key (u "discovery_prefix") mqtt) DEFAULT_DISCOVERY_PREFIX in
  let topics := prefix_or (get_key (u "topic_prefix") mqtt) DEFAULT_BASE_PREFIX in
  let blank v := match v with VStr s => bool_decide (strip s = []) | _ => true end in
  let seed := if negb (blank device_seed) then device_seed
              else match device with VDict d => get_key (u "fingerprint") d | _ => VNone end in
  let id := match device_id lower uuid5_hex seed with Ret id => id | Raise _ => [] end in
  let valid := _valid_uri uri && _valid_ca_file ca && negb (bool_decide (id = [])) && _valid_prefix discovery && _valid_prefix topics in
  {| enabled := match get_key (u "enabled") mqtt with VBool true => valid | _ => false end;
     uri := uri; client_id := text_or (get_key (u "client_id") mqtt) []; discovery_prefix := discovery; topic_prefix := topics;
     ca_file := ca; username := text_or (get_key (u "username") secret_mqtt) [];
     password := text_or (get_key (u "password") secret_mqtt) []; cfg_device_id := id; keepalive := DEFAULT_KEEPALIVE |}.
Definition effective_client_id (cfg : MqttConfig) : pystr :=
  match strip (client_id cfg) with
  | [] => match cfg_device_id cfg with [] => u "pibuddycam" | id => u "pibuddycam-" ++ id end
  | s => s
  end.
Definition _uri_host_port (value : pystr) : pystr * Z :=
  match urlsplit netloc_ok value with
  | Ret (scheme, netloc) =>
      let '(host, port) := hostinfo netloc in
      (match cut_at 37 host with Some (h, zone) => lower h ++ [37] ++ zone | None => lower host end, match port with [] => if bool_decide (scheme = u "mqtts") then 8883 else 1883 | _ => decimal port end)
  | Raise _ => ([], 0)
  end.
End Config.

(** ** Payloads *)

(** [inl]: the reason of a [CommandError]. *)
Definition _decode_payload (payload : pyval) : res (pystr + pystr) :=
  let bounded raw :=
    if MAX_PAYLOAD_BYTES <? Z.of_nat (length raw) then Ret (inl (u "payload too large"))
    else match utf8_decode raw with Some text => Ret (inr text) | None => Ret (inl (u "payload is not valid UTF-8")) end in
  match payload with
  | VStr s => match utf8_encode s with Some raw => bounded raw | None => Raise OtherError end
  | VBytes raw => bounded raw
  | _ => Ret (inl (u "payload must be text"))
  end.
Definition _payload_text (payload : pyval) : res (option pystr) :=
  r ← _decode_payload payload; Ret match r with inr text => Some text | inl _ => None end.

Section Parsers.
Context `{UnicodeDB} (lower : pystr → pystr).
Definition _parse_bool (text : pystr) : option bool :=
  let value := lower (strip text) in
  if bool_decide (value ∈ _TRUE_WORDS) then Some true
  else if bool_decide (value ∈ _FALSE_WORDS) then Some false else None.
Fixpoint lstrip_minus (s : pystr) : pystr := match s with c :: s' => if c =? 45 then lstrip_minus s' else s | [] => [] end.
Definition _parse_int (text : pystr) : option Z :=
  let value := strip text in
  if bool_decide (value = []) || negb (str_isdigit (lstrip_minus value)) then None else int_of_str value.
Definition _parse_quality (text : pystr) : option Z :=
  let value := lower (strip text) in
  match dict_get value _QUALITY_RAW with
  | Some raw => Some raw
  | None => if bool_decide (value ∈ [u "5"; u "6"; u "7"]) then int_of_str value else None
  end.
End Parsers.

(** What a button or the install trigger returned: a pair, an object with [ok] and [reason], or
    anything else. *)
Inductive action_result := ATuple (ok reason : pyval) | AObject (ok reason : pyval) | AValue (v : pyval).
Definition reason_text (v : pyval) : pystr := match v with VStr s => s | _ => [] end.
Definition _normalize_action_result (r : action_result) : bool * pystr :=
  match r with
  | ATuple ok reason | AObject ok reason => (truthy ok, reason_text reason)
  | AValue v => (truthy v, [])
  end.

(** ** The service *)

Record CommandResult := { cr_ok : bool; cr_reason : option pystr; cr_changed : list pystr }.
Definition failed (reason : pystr) : CommandResult := {| cr_ok := false; cr_reason := Some reason; cr_changed := [] |}.
Definition done_ : CommandResult := {| cr_ok := true; cr_reason := None; cr_changed := [] |}.

(** The calls of a broker connection. *)
Inductive backend_call :=
  | SetCallback | Connect | Disconnect
  | SetWill (topic payload : bytes) (qos : Z) (retain : bool)
  | Publish (topic payload : bytes) (qos : Z) (retain : bool)
  | Subscribe (topic : bytes) (qos : Z).
(** A thread that was started: the republication of a birth, or the worker that clears an error
    (what it does next). *)
Inductive task := TBirth | TRead | TClear | TExit.
Record mqtt (E : Type) := {
  co : cworld E;
  sent : list (backend_call * bool);
  has_backend : bool;
  last_command_error : option pystr;
  command_error_at : option Z;
  error_worker_running : bool;
  error_pending : bool;
  started : bool;
  prefix : pystr;
  tasks : list task;
  threads : nat;
  late : list (pystr * pystr);
  now : Z;
}.
Arguments co {E}. Arguments sent {E}. Arguments has_backend {E}. Arguments last_command_error {E}. Arguments command_error_at {E}.
Arguments error_worker_running {E}. Arguments error_pending {E}. Arguments started {E}. Arguments prefix {E}. Arguments tasks {E}.
Arguments threads {E}. Arguments late {E}. Arguments now {E}.

(** What the service is built with, besides the coordinator. *)
Record wiring (E : Type) := {
  application_version : pystr;
  serial : option pystr;
  mac : pyval;
  build_timelapse : option (@Hook E unit);
  restart : option (@Hook E unit);
  metrics_provider : option (Z → res pyval);
  update_state_provider : option (Z → res pyval);
  install_trigger : option (PyM (CameraState.CameraState * E) action_result);
  extra_secrets : list pystr;
  on_loop : bool;
}.
Arguments application_version {E}. Arguments serial {E}. Arguments mac {E}. Arguments build_timelapse {E}. Arguments restart {E}.
Arguments metrics_provider {E}. Arguments update_state_provider {E}. Arguments install_trigger {E}. Arguments extra_secrets {E}. Arguments on_loop {E}.

Section Service.
Context `{UnicodeDB} (lower upper : pystr → pystr) (same_letter : Z → Z → bool) (word_char : Z → bool)
  (float_of_int : Z → res spec_float) (of_q : Q → spec_float) {E : Type} (zones : list pystr) (h : hooks E)
  (cfg : MqttConfig) (wire : wiring E).
(** [json.dumps(..).encode()]; which broker calls raise; which threads do not start; whether a
    backend can be built. *)
Context (dumps : pyval → res bytes) (fails : nat → option exn) (no_thread : nat → bool) (backend_available : bool).
Abbreviation W := (mqtt E).
Abbreviation M := (PyM W).

Definition secrets : list pyval := VStr <$> foldl (λ l s, if bool_decide (s ∈ l) then l else l ++ [s]) [] (List.filter (λ s, negb (bool_decide (s = []))) (extra_secrets wire ++ [username cfg; password cfg])).
Definition device : pyval := VStr (cfg_device_id cfg).
Definition base : pyval := VStr (topic_prefix cfg).
Definition availability_topic : M bytes := of_res (availability device base).
Definition state_topic : M bytes := of_res (state device base).
Definition update_state_topic : M bytes := of_res (update_state device base).
Definition update_install_topic : M bytes := of_res (update_install device base).
Definition discovery_topic : M bytes := w ← get; of_res (discovery_device_topic (VStr (prefix w)) device).
Definition command_topics : list (res bytes) := map (λ name, command device name base) COMMAND_NAMES.

(** ** Guarded calls *)

Definition backend (c : backend_call) : M unit := λ w,
  let e := fails (length (sent w)) in
  (match e with Some e => Raise e | None => Ret tt end, w{{sent := sent w ++ [(c, bool_decide (e = None))] }}).
Definition _guard (m : M unit) : M bool := try_except any_exception (_ ← m; mret true) (λ _, mret false).
Definition _publish (topic payload : bytes) : M bool :=
  w ← get;
  if negb (has_backend w) then mret false else _guard (backend (Publish topic payload COMMAND_QOS true)).
Definition _encode (document : pyval) : M (option bytes) :=
  try_except (λ e, bool_decide (e = TypeError) || bool_decide (e = ValueError)) (b ← of_res (dumps document); mret (Some b)) (λ _, mret None).
Definition _dispatch (t : task) : M unit := λ w,
  if no_thread (threads w) then (Raise RuntimeError, w{{threads := S (threads w)}})
  else (Ret tt, w{{threads := S (threads w)}}{{tasks := tasks w ++ [t] }}).

(** ** Publishing *)

Definition _clear_command_error : M unit := modify (λ w, w{{last_command_error := None}}{{command_error_at := None}}).
Definition _expire_command_error : M unit :=
  w ← get;
  match last_command_error w, command_error_at w with
  | Some _, Some at_ => if COMMAND_ERROR_TTL <=? now w - at_ then _clear_command_error else mret tt
  | _, _ => mret tt
  end.
Definition string_keys (d : list (pyval * pyval)) : list (pystr * pyval) :=
  omap (λ kv, match kv.1 with VStr k => if bool_decide (k ∈ _STATE_METRIC_KEYS) then Some (k, kv.2) else None | _ => None end) d.
Definition _build_state_document : M pyval :=
  w ← get;
  let metrics := match metrics_provider wire with
                 | Some provider => match provider (now w) with Ret (VDict d) => string_keys d | _ => [] end
                 | None => []
                 end in
  of_res (build_state lower upper same_letter word_char float_of_int (Some (camera_attrs of_q (cstate (co w)))) metrics
    (VStr (application_version wire)) (opt_text (last_command_error w)) secrets).
Definition publish_document (build : M (option pyval)) (topic : M bytes) : M (option pyval) :=
  document ← build;
  match document with
  | None => mret None
  | Some d =>
      payload ← _encode d;
      match payload with
      | None => mret None
      | Some p => t ← topic; _ ← _publish t p; mret (Some d)
      end
  end.
Definition or_none (m : M pyval) : M (option pyval) := try_except any_exception (d ← m; mret (Some d)) (λ _, mret None).
Definition publish_state : M (option pyval) :=
  _ ← _expire_command_error;
  publish_document (or_none _build_state_document) state_topic.
Definition publish_update_state : M (option pyval) :=
  match update_state_provider wire with
  | None => mret None
  | Some provider =>
      publish_document (w ← get; mret match provider (now w) with Ret (VDict ((_ :: _) as d)) => Some (VDict d) | _ => None end)
        update_state_topic
  end.
Definition _build_discovery_document : M pyval :=
  w ← get;
  of_res (build_discovery device (VStr (redact_text (CameraState.camera_name (cstate (co w))) secrets))
    (VStr (redact_text (application_version wire) secrets)) base
    match serial wire with Some s => VStr (redact_text s secrets) | None => VNone end (mac wire) ORIGIN_NAME []).
Definition publish_discovery : M (option pyval) := publish_document (or_none _build_discovery_document) discovery_topic.
Definition clear_discovery : M unit := t ← discovery_topic; _ ← _publish t []; mret tt.
Definition clear_topic (topic : bytes) : M unit := _ ← _publish topic []; mret tt.
Definition set_discovery_prefix (new_prefix : pyval) : M bool :=
  match validate_prefix new_prefix with
  | Raise _ => mret false
  | Ret p =>
      w ← get;
      old ← discovery_topic;
      _ ← (if bool_decide (p = prefix w) then mret true else _publish old []);
      _ ← modify (λ w, w{{prefix := p}});
      _ ← publish_discovery;
      mret true
  end.
Definition _publish_availability (value : bytes) : M unit := t ← availability_topic; _ ← _publish t value; mret tt.

(** ** Lifecycle *)

Fixpoint subscribe_all (topics : list (res bytes)) : M unit :=
  match topics with
  | [] => mret tt
  | t :: rest => topic ← of_res t; _ ← _guard (backend (Subscribe topic COMMAND_QOS)); subscribe_all rest
  end.
Definition _subscribe_topics : M unit :=
  _ ← subscribe_all command_topics;
  subscribe_all [Ret HA_STATUS_TOPIC; update_install device base].
Definition announce : M unit :=
  _ ← _publish_availability ONLINE;
  _ ← _subscribe_topics;
  _ ← publish_state;
  _ ← publish_discovery;
  _ ← publish_update_state;
  mret tt.
Definition connect_backend : M bool :=
  _guard (_ ← backend SetCallback;
          t ← availability_topic;
          _ ← backend (SetWill t OFFLINE COMMAND_QOS true);
          backend Connect).
Definition start : M bool :=
  if negb (enabled cfg) then mret false
  else
    w ← get;
    if negb (has_backend w || backend_available) then mret false
    else
      _ ← modify (λ w, w{{has_backend := true}});
      connected ← connect_backend;
      _ ← modify (λ w, w{{started := connected}});
      if negb connected then mret false else _ ← announce; mret true.
Definition stop : M bool :=
  w ← get;
  if negb (enabled cfg) || negb (has_backend w) then mret false
  else
    _ ← (if started w then _publish_availability OFFLINE else mret tt);
    _ ← _guard (backend Disconnect);
    _ ← modify (λ w, w{{started := false}});
    mret true.
(** On a birth of Home Assistant, and by the backend whenever it is connected again; the delay
    before it is the time the task waits. *)
Definition _reconnect_in_thread : M unit := _dispatch TBirth.
Definition _schedule_birth : M unit :=
  _ ← publish_discovery; _ ← publish_state; _ ← publish_update_state; mret tt.

(** ** Commands *)

(** What runs on the coordinator: [inl] is the reason of a [CommandError]. *)
Abbreviation CM := (PyM (cworld E)).
Definition parsed {A : Type} (v : option A) (why : string) (k : A → CM SettingsResult) : CM (pystr + SettingsResult) :=
  match v with None => mret (inl (u why)) | Some a => r ← k a; mret (inr r) end.
Definition handlers (name text : pystr) : option (CM (pystr + SettingsResult)) :=
  dict_get name
    [(u "quality", parsed (_parse_quality lower text) "unknown quality value" (λ raw, co_set_quality h (VInt raw) true));
     (u "snapshot_upload", parsed (_parse_bool lower text) "snapshot upload must be a boolean" (λ b, co_set_snapshot_upload h (VBool b)));
     (u "snapshot_interval", parsed (_parse_int text) "snapshot interval must be an integer" (λ z, co_set_snapshot_interval h (VInt z)));
     (u "timelapse_enabled", parsed (_parse_bool lower text) "timelapse flag must be a boolean"
        (λ b : bool, co_set_timelapse_enabled h (if b then u "timelapse_enable" else u "timelapse_disable")));
     (u "timelapse_interval", parsed (_parse_int text) "timelapse interval must be an integer" (λ z, co_set_timelapse_interval h (VInt z)));
     (u "timelapse_fps", parsed (_parse_int text) "timelapse fps must be an integer" (λ z, co_set_timelapse_fps h (VInt z)));
     (u "prusa_rtsp", parsed (_parse_bool lower text) "prusa rtsp must be a boolean" (λ b : bool, co_set_rtsp_mode h (VInt (if b then 2 else 1))));
     (u "webrtc", parsed (_parse_bool lower text) "webrtc must be a boolean" (λ b : bool, co_set_webrtc_mode h (VInt (if b then 1 else 0))))].
Definition _from_result (r : SettingsResult) : CommandResult := {| cr_ok := ok r; cr_reason := reason r; cr_changed := changed r |}.

Definition on_coordinator {A : Type} (m : CM A) : M A := λ w, let '(r, c) := m (co w) in (r, w{{co := c}}).
(** A callable of the wiring: it sees the shared state and its environment. *)
Definition outside {A : Type} (m : PyM (CameraState.CameraState * E) A) : M A := λ w,
  let '(r, (s, e)) := m (cstate (co w), cenv (co w)) in
  (r, w{{co := {| cstate := s; cenv := e; clog := clog (co w) |} }}).
Definition run_setting (name text : pystr) : M CommandResult :=
  match handlers name text with
  | None => mret (failed (u "unsupported command"))
  | Some m => r ← on_coordinator m; mret match r with inl why => failed why | inr r => _from_result r end
  end.
(** The loop runs the callable in time, after the deadline, or never; without a loop, or when it
    does not take the call, it runs here. *)
Definition _run_on_loop (t : loop_timing) (name text : pystr) : M CommandResult :=
  if negb (on_loop wire) then run_setting name text
  else match t with
       | Closed | InTime => run_setting name text
       | Late => _ ← modify (λ w, w{{late := late w ++ [(name, text)] }}); mret (failed (u "command timed out"))
       | Dropped => mret (failed (u "command timed out"))
       end.
Definition _apply_button (name : pystr) (payload : pyval) : M CommandResult :=
  r ← of_res (_decode_payload payload);
  match r with
  | inl why => mret (failed why)
  | inr text =>
      if negb (bool_decide (lower (strip text) = PRESS)) then mret (failed (u "expected press payload"))
      else match if bool_decide (name = u "timelapse_build") then build_timelapse wire else restart wire with
           | None => mret (failed (name ++ u " unavailable"))
           | Some action =>
               done ← try_except any_exception (v ← outside (action tt); mret (truthy v)) (λ _, mret false);
               mret (if (done : bool) then done_ else failed (u "action failed"))
           end
  end.
Definition _apply_command (t : loop_timing) (name : pystr) (payload : pyval) : M CommandResult :=
  try_except any_exception
    (if bool_decide (name ∈ [u "timelapse_build"; u "restart"]) then _apply_button name payload
     else
       r ← of_res (_decode_payload payload);
       match r with
       | inl why => mret (failed why)
       | inr text =>
           match handlers name text with
           | None => mret (failed (u "unsupported command"))
           | Some _ => _run_on_loop t name text
           end
       end)
    (λ _, mret (failed (u "command failed"))).

Definition _schedule_error_clear : M unit :=
  w ← get;
  if error_worker_running w then modify (λ w, w{{error_pending := true}})
  else _ ← modify (λ w, w{{error_worker_running := true}}{{error_pending := false}}); _dispatch TRead.
Definition _set_command_error (why : option pystr) : M unit :=
  _ ← modify (λ w, w{{last_command_error := Some (default (u "command rejected")
                         (sanitize_command_error same_letter word_char (opt_text why) secrets))}}{{command_error_at := Some (now w)}});
  _schedule_error_clear.
Definition settle (result : CommandResult) : M unit :=
  if cr_ok result then _clear_command_error else _set_command_error (cr_reason result).
Definition handle_command (t : loop_timing) (topic payload : pyval) : M (option CommandResult) :=
  match command_from_topic topic device base with
  | Raise ValueError => mret None
  | Raise e => raise e
  | Ret name =>
      result ← _apply_command t name payload;
      _ ← settle result;
      _ ← publish_state;
      mret (Some result)
  end.
Definition _apply_update_install (payload : pyval) : M CommandResult :=
  r ← of_res (_decode_payload payload);
  match r with
  | inl why => mret (failed why)
  | inr text =>
      if negb (bool_decide (strip text = INSTALL_PAYLOAD)) then mret (failed (u "expected install payload"))
      else match install_trigger wire with
           | None => mret (failed (u "update install unavailable"))
           | Some trigger =>
               raw ← try_except any_exception (r ← outside trigger; mret (Some r)) (λ _, mret None);
               match raw with
               | None => mret (failed (u "update install failed"))
               | Some raw =>
                   let '(ok, why) := _normalize_action_result raw in
                   mret (if ok then done_ else failed (nonempty why (u "update install failed")))
               end
           end
  end.
Definition handle_update_install (payload : pyval) : M CommandResult :=
  result ← _apply_update_install payload;
  _ ← settle result;
  _ ← publish_state;
  _ ← publish_update_state;
  mret result.
Definition _on_message (t : loop_timing) (topic payload : pyval) (retain : bool) : M unit :=
  try_except any_exception
    (if eq_str topic HA_STATUS_TOPIC then
       text ← of_res (_payload_text payload);
       if bool_decide (text = Some ONLINE) then _reconnect_in_thread else mret tt
     else if retain then mret tt
     else
       install ← update_install_topic;
       if eq_str topic install then (_ ← handle_update_install payload; mret tt)
       else (_ ← handle_command t topic payload; mret tt))
    (λ _, mret tt).

(** ** The tasks *)

(** [finally]: the worker gives up its place, and starts again for an error that came meanwhile. *)
Definition leave_worker : M unit :=
  w ← get;
  _ ← modify (λ w, w{{error_worker_running := false}}{{error_pending := false}});
  if error_pending w && bool_decide (last_command_error w ≠ None) then _schedule_error_clear else mret tt.
(** One step of a task and the task it goes on as.  [slept]: the sleeper did not raise. *)
Definition task_step (slept : bool) (t : task) : M (option task) :=
  match t with
  | TBirth => _ ← _schedule_birth; mret None
  | TRead =>
      w ← get;
      match last_command_error w, command_error_at w with
      | Some _, Some at_ =>
          if at_ + COMMAND_ERROR_TTL - now w <=? 0 then mret (Some TClear)
          else mret (Some (if slept then TRead else TExit))
      | _, _ => mret (Some TExit)
      end
  | TClear =>
      w ← get;
      _ ← (if bool_decide (last_command_error w ≠ None)
           then try_except any_exception (_ ← _clear_command_error; _ ← publish_state; mret tt) (λ _, mret tt) else mret tt);
      mret (Some TExit)
  | TExit => _ ← leave_worker; mret None
  end.

(** A message arrives; a thread goes on; a callable that was late runs on the loop; the backend
    is connected again; the settings are changed by another party; time passes. *)
Inductive event :=
  | EMessage (t : loop_timing) (topic payload : pyval) (retain : bool)
  | ETask (i : nat) (slept : bool)
  | ELate (i : nat)
  | EConnected
  | EElsewhere (f : cworld E → cworld E)
  | ETime (d : nat)
  | EStart | EStop.
Definition event_step (x : event) : M unit :=
  match x with
  | EMessage t topic payload retain => _on_message t topic payload retain
  | ETask i slept =>
      w ← get;
      match tasks w !! i with
      | None => mret tt
      | Some t =>
          _ ← modify (λ w, w{{tasks := delete i (tasks w)}});
          next ← task_step slept t;
          match next with Some t => modify (λ w, w{{tasks := tasks w ++ [t] }}) | None => mret tt end
      end
  | ELate i =>
      w ← get;
      match late w !! i with
      | None => mret tt
      | Some (name, text) =>
          _ ← modify (λ w, w{{late := delete i (late w)}});
          _ ← try_except any_exception (run_setting name text) (λ _, mret done_); mret tt
      end
  | EConnected => _reconnect_in_thread
  | EElsewhere f => modify (λ w, w{{co := f (co w)}})
  | ETime d => modify (λ w, w{{now := now w + Z.of_nat d}})
  | EStart => _ ← start; mret tt
  | EStop => _ ← stop; mret tt
  end.
Definition run_events (events : list event) (w : W) : W := foldl (λ w x, (event_step x w).2) w events.
Definition new_service (c : cworld E) : W :=
  {| co := c; sent := []; has_backend := false; last_command_error := None; command_error_at := None; error_worker_running := false;
     error_pending := false; started := false; prefix := discovery_prefix cfg; tasks := []; threads := 0; late := []; now := 0 |}.
End Service.

(** ** What a command means

    The operation of the coordinator that each name and text stand for. *)
Section Meaning.
Context `{UnicodeDB} (lower : pystr → pystr) {E : Type} (h : hooks E).
Inductive requested : pystr → pystr → PyM (cworld E) SettingsResult → Prop :=
  | for_quality text raw : _parse_quality lower text = Some raw → requested (u "quality") text (co_set_quality h (VInt raw) true)
  | for_snapshot_upload text b : _parse_bool lower text = Some b → requested (u "snapshot_upload") text (co_set_snapshot_upload h (VBool b))
  | for_snapshot_interval text z : _parse_int text = Some z → requested (u "snapshot_interval") text (co_set_snapshot_interval h (VInt z))
  | for_timelapse_on text : _parse_bool lower text = Some true → requested (u "timelapse_enabled") text (co_set_timelapse_enabled h (u "timelapse_enable"))
  | for_timelapse_off text : _parse_bool lower text = Some false → requested (u "timelapse_enabled") text (co_set_timelapse_enabled h (u "timelapse_disable"))
  | for_timelapse_interval text z : _parse_int text = Some z → requested (u "timelapse_interval") text (co_set_timelapse_interval h (VInt z))
  | for_timelapse_fps text z : _parse_int text = Some z → requested (u "timelapse_fps") text (co_set_timelapse_fps h (VInt z))
  | for_rtsp_on text : _parse_bool lower text = Some true → requested (u "prusa_rtsp") text (co_set_rtsp_mode h (VInt 2))
  | for_rtsp_off text : _parse_bool lower text = Some false → requested (u "prusa_rtsp") text (co_set_rtsp_mode h (VInt 1))
  | for_webrtc_on text : _parse_bool lower text = Some true → requested (u "webrtc") text (co_set_webrtc_mode h (VInt 1))
  | for_webrtc_off text : _parse_bool lower text = Some false → requested (u "webrtc") text (co_set_webrtc_mode h (VInt 0)).
(** Runs the operation, or leaves everything when the text stands for none. *)
Definition set_to (name text : pystr) (c c' : cworld E) : Prop :=
  (∀ m, ¬ requested name text m) ∧ c' = c ∨ ∃ m, requested name text m ∧ c' = (m c).2.
Lemma handlers_requested name text m c : handlers lower h name text = Some m →
  match m c with
  | (Ret (inl _), c') => (∀ k, ¬ requested name text k) ∧ c' = c
  | (Ret (inr r), c') => ∃ k, requested name text k ∧ k c = (Ret r, c')
  | (Raise e, c') => ∃ k, requested name text k ∧ k c = (Raise e, c')
  end.
Proof.
  assert (∀ (A : Type) (v : option A) why (k : A → PyM (cworld E) SettingsResult),
    (∀ a, v = Some a → requested name text (k a)) → (v = None → ∀ m, ¬ requested name text m) →
    match parsed v why k c with
    | (Ret (inl _), c') => (∀ k, ¬ requested name text k) ∧ c' = c
    | (Ret (inr r), c') => ∃ k, requested name text k ∧ k c = (Ret r, c')
    | (Raise e, c') => ∃ k, requested name text k ∧ k c = (Raise e, c')
    end) as Hparsed.
  { intros A [a|] why k H1 H2; cbn; [|split; [by apply H2|done]]. unfold mbind, pym_bind. specialize (H1 a eq_refl).
    destruct (k a c) as [[r|e] c'] eqn:Hk; cbn; by exists (k a). }
  intros Hm. unfold handlers in Hm.
  repeat (cbn [dict_get] in Hm; destruct (decide _) as [Hname|_] in Hm; [injection Hm as <-; subst name; apply Hparsed|]); [..|done].
  all: try (intros a Ha; first [by constructor|destruct a; by constructor]).
  all: intros Hn m Hr; inversion Hr; try congruence; by vm_compute in *.
Qed.
Lemma handlers_set name text m c : handlers lower h name text = Some m → set_to name text c (m c).2.
Proof.
  intros Hm%(λ H, handlers_requested _ _ _ c H). destruct (m c) as [[[why|r]|e] c']; cbn [snd].
  - by left.
  - destruct Hm as (k & Hk & He). right. exists k. by rewrite He.
  - destruct Hm as (k & Hk & He). right. exists k. by rewrite He.
Qed.
End Meaning.

(** ** What the service's own bookkeeping may do *)

Section Frames.
Context `{UnicodeDB} (lower upper : pystr → pystr) (same_letter : Z → Z → bool) (word_char : Z → bool)
  (float_of_int : Z → res spec_float) (of_q : Q → spec_float) {E : Type} (h : hooks E) (cfg : MqttConfig) (wire : wiring E)
  (dumps : pyval → res bytes) (fails : nat → option exn) (no_thread : nat → bool).
Abbreviation W := (mqtt E).
Abbreviation M := (PyM W).
Abbreviation publish_state' := (publish_state lower upper same_letter word_char float_of_int of_q cfg wire dumps fails).
Abbreviation publish_update' := (publish_update_state cfg wire dumps fails).
Abbreviation publish_discovery' := (publish_discovery cfg wire dumps fails).

(** Settings, effects and late calls stay, and the broker only gets documents under topics of [P]. *)
Definition published (P : bytes → Prop) (calls : list (backend_call * bool)) : Prop :=
  Forall (λ c : backend_call * bool, ∃ t p, c.1 = Publish t p COMMAND_QOS true ∧ P t) calls.
Definition keeps (P : bytes → Prop) (w w' : W) : Prop :=
  co w' = co w ∧ late w' = late w ∧ ∃ calls, sent w' = sent w ++ calls ∧ published P calls.
Definition frame {A : Type} (P : bytes → Prop) (m : M A) : Prop := ∀ w, keeps P w (m w).2.

Lemma kept_refl P w : keeps P w w.
Proof. split_and!; try done. exists []. split; [by rewrite app_nil_r|constructor]. Qed.
Lemma kept_trans P w1 w2 w3 : keeps P w1 w2 → keeps P w2 w3 → keeps P w1 w3.
Proof.
  intros (H1 & H2 & c1 & Hs1 & Hp1) (H1' & H2' & c2 & Hs2 & Hp2). split_and!; try congruence.
  exists (c1 ++ c2). split; [by rewrite Hs2, Hs1, app_assoc|by apply Forall_app_2].
Qed.
Lemma frame_ret {A : Type} P (a : A) : frame P (mret a).
Proof. intros w. apply kept_refl. Qed.
Lemma frame_of_res {A : Type} P (r : res A) : frame P (of_res r).
Proof. intros w. apply kept_refl. Qed.
Lemma frame_raise {A : Type} P (e : exn) : frame P (raise e : M A).
Proof. intros w. apply kept_refl. Qed.
Lemma frame_bind {A B : Type} P (m : M A) (k : A → M B) : frame P m → (∀ a, frame P (k a)) → frame P (m ≫= k).
Proof.
  intros Hm Hk w. unfold mbind, pym_bind. specialize (Hm w). destruct (m w) as [[a|e] w1]; cbn [snd] in *; [|done].
  eapply kept_trans; [exact Hm|apply Hk].
Qed.
Lemma frame_get {B : Type} P (k : W → M B) : (∀ w, frame P (k w)) → frame P (get ≫= k).
Proof. intros Hk w. apply (Hk w w). Qed.
Lemma frame_try {A : Type} P caught (m : M A) (k : exn → M A) : frame P m → (∀ e, frame P (k e)) → frame P (try_except caught m k).
Proof.
  intros Hm Hk w. unfold try_except. specialize (Hm w). destruct (m w) as [[a|e] w1]; cbn [snd] in *; [done|].
  destruct (caught e); [|done]. eapply kept_trans; [exact Hm|apply Hk].
Qed.
Lemma frame_modify P (f : W → W) : (∀ w, co (f w) = co w ∧ late (f w) = late w ∧ sent (f w) = sent w) → frame P (modify f).
Proof. intros Hf w. destruct (Hf w) as (H1 & H2 & H3). split_and!; try done. exists []. split; [by rewrite app_nil_r|constructor]. Qed.
Lemma frame_publish (P : bytes → Prop) t p : P t → frame P (_publish fails t p).
Proof.
  intros Ht. unfold _publish. apply frame_get. intros w. destruct (negb _); [apply frame_ret|]. unfold _guard. apply frame_try; [|intros; apply frame_ret].
  apply frame_bind; [|intros; apply frame_ret]. intros w1. split_and!; try done. eexists [_]. split; [done|]. constructor; [|constructor]. by exists t, p.
Qed.
Lemma frame_document (P : bytes → Prop) build topic : frame P build → (∀ w t w', topic w = (Ret t, w') → P t ∧ w' = w) → (∀ w, (topic w).2 = w) →
  frame P (publish_document dumps fails build topic).
Proof.
  intros Hb Ht Ht2. unfold publish_document. apply frame_bind; [done|]. intros [d|]; [|apply frame_ret].
  apply frame_bind; [unfold _encode; apply frame_try; [apply frame_bind; [apply frame_of_res|intros; apply frame_ret]|intros; apply frame_ret]|].
  intros [p|]; [|apply frame_ret]. intros w. unfold mbind, pym_bind at 1. pose proof (Ht2 w) as H2. destruct (topic w) as [[t|e] w'] eqn:Hw; cbn [snd] in *.
  - destruct (Ht w t w' Hw) as [HP ->]. apply frame_bind; [by apply frame_publish|intros; apply frame_ret].
  - subst. apply kept_refl.
Qed.
Lemma frame_clear P : frame P (_clear_command_error (E := E)).
Proof. by apply frame_modify. Qed.
Lemma frame_expire P : frame P (_expire_command_error (E := E)).
Proof. unfold _expire_command_error. apply frame_get. intros w. repeat case_match; try apply frame_ret. apply frame_clear. Qed.

(** The topics of the retained state documents. *)
Definition state_like (t : bytes) : Prop :=
  state (device cfg) (base cfg) = Ret t ∨ update_state (device cfg) (base cfg) = Ret t.
Lemma frame_publish_state P : (∀ t, state (device cfg) (base cfg) = Ret t → P t) → frame P publish_state'.
Proof.
  intros HP. unfold publish_state. apply frame_bind; [apply frame_expire|]. intros _. apply frame_document.
  - unfold or_none. apply frame_try; [|intros; apply frame_ret]. apply frame_bind; [|intros; apply frame_ret].
    unfold _build_state_document. apply frame_get. intros w. apply frame_of_res.
  - intros w t w'. unfold state_topic, of_res. intros [= Ht ->]. split; [by apply HP|done].
  - done.
Qed.
Lemma frame_publish_update P : (∀ t, update_state (device cfg) (base cfg) = Ret t → P t) → frame P publish_update'.
Proof.
  intros HP. unfold publish_update_state. destruct (update_state_provider wire) as [provider|]; [|apply frame_ret]. apply frame_document.
  - apply frame_get. intros w. apply frame_ret.
  - intros w t w'. unfold update_state_topic, of_res. intros [= Ht ->]. split; [by apply HP|done].
  - done.
Qed.
Lemma frame_publish_discovery P : (∀ p t, discovery_device_topic (VStr p) (device cfg) = Ret t → P t) → frame P publish_discovery'.
Proof.
  intros HP. unfold publish_discovery. apply frame_document.
  - unfold or_none. apply frame_try; [|intros; apply frame_ret]. apply frame_bind; [|intros; apply frame_ret].
    unfold _build_discovery_document. apply frame_get. intros w. apply frame_of_res.
  - intros w t w'. unfold discovery_topic, mbind, pym_bind, get, of_res. intros [= Ht <-]. split; [by eapply HP|done].
  - done.
Qed.
Lemma frame_dispatch P t : frame P (_dispatch (E := E) no_thread t).
Proof. intros w. unfold _dispatch. destruct (no_thread _); (split_and!; try done; exists []; split; [by rewrite app_nil_r|constructor]). Qed.
Lemma frame_schedule P : frame P (_schedule_error_clear (E := E) no_thread).
Proof.
  unfold _schedule_error_clear. apply frame_get. intros w. case_match; [by apply frame_modify|].
  apply frame_bind; [by apply frame_modify|]. intros _. apply frame_dispatch.
Qed.
Lemma frame_settle P result : frame P (settle same_letter word_char cfg wire no_thread result).
Proof.
  unfold settle. case_match; [apply frame_clear|]. unfold _set_command_error. apply frame_bind; [by apply frame_modify|]. intros _. apply frame_schedule.
Qed.

(** ** Messages *)

(** A text of at most 256 bytes of UTF-8. *)
Definition bounded_payload (payload : pyval) (text : pystr) : Prop :=
  ∃ raw, utf8_decode raw = Some text ∧ Z.of_nat (length raw) ≤ MAX_PAYLOAD_BYTES ∧
    (payload = VBytes raw ∨ ∃ s, payload = VStr s ∧ utf8_encode s = Some raw).
Lemma decode_bounded payload text : _decode_payload payload = Ret (inr text) → bounded_payload payload text.
Proof.
  unfold _decode_payload. assert (∀ raw, (if MAX_PAYLOAD_BYTES <? Z.of_nat (length raw) then Ret (inl (u "payload too large"))
      else match utf8_decode raw with Some text => Ret (inr text) | None => Ret (inl (u "payload is not valid UTF-8")) end) = Ret (inr text : pystr + pystr) →
    utf8_decode raw = Some text ∧ Z.of_nat (length raw) ≤ MAX_PAYLOAD_BYTES) as Hb.
  { intros raw. destruct (Z.ltb_spec MAX_PAYLOAD_BYTES (Z.of_nat (length raw))); [done|]. destruct (utf8_decode raw); [|done]. by intros [= ->]. }
  destruct payload; try done.
  - destruct (utf8_encode s) as [raw|] eqn:Hs; [|done]. intros [H1 H2]%Hb. exists raw. split_and!; try done. right. by exists s.
  - intros [H1 H2]%Hb. exists b. split_and!; try done. by left.
Qed.

(** What a message may ask for, what it must be to ask for it, and what is done then: the
    coordinator's operation, or the callable of the button or of the installation on the
    shared state. *)
Inductive effect := ESetting (name text : pystr) | EButton (name : pystr) | EInstall.
Definition asked (topic payload : pyval) (retain : bool) (x : effect) : Prop :=
  retain = false ∧ ∃ text, bounded_payload payload text ∧
  match x with
  | ESetting name text' => text' = text ∧ command_from_topic topic (device cfg) (base cfg) = Ret name ∧ is_Some (handlers lower h name text)
  | EButton name => command_from_topic topic (device cfg) (base cfg) = Ret name ∧ lower (strip text) = PRESS
  | EInstall => ∃ i, update_install (device cfg) (base cfg) = Ret i ∧ topic = VStr i ∧ strip text = INSTALL_PAYLOAD
  end.
Definition called {A : Type} (m : PyM (CameraState.CameraState * E) A) (c c' : cworld E) : Prop :=
  clog c' = clog c ∧ (cstate c', cenv c') = (m (cstate c, cenv c)).2.
Definition performs (x : effect) (c c' : cworld E) : Prop :=
  match x with
  | ESetting name text => set_to lower h name text c c'
  | EButton name => ∃ action, called (action tt) c c' ∧
      (name = u "timelapse_build" ∧ build_timelapse wire = Some action ∨ name = u "restart" ∧ restart wire = Some action)
  | EInstall => ∃ trigger, install_trigger wire = Some trigger ∧ called trigger c c'
  end.
Definition acts (R : effect → Prop) (P : bytes → Prop) (w w' : W) : Prop :=
  (co w' = co w ∨ ∃ x, R x ∧ performs x (co w) (co w')) ∧
  (late w' = late w ∨ ∃ name text, late w' = late w ++ [(name, text)] ∧ R (ESetting name text)) ∧
  ∃ calls, sent w' = sent w ++ calls ∧ published P calls.
Lemma keeps_acts R P w w' : keeps P w w' → acts R P w w'.
Proof. intros (H1 & H2 & H3). split; [by left|]. split; [by left|done]. Qed.
Lemma acts_keeps R P w1 w2 w3 : acts R P w1 w2 → keeps P w2 w3 → acts R P w1 w3.
Proof.
  intros (Hr & Hl & c1 & Hs1 & Hp1) (H1 & H2 & c2 & Hs2 & Hp2). split; [|split].
  - by rewrite H1.
  - by rewrite H2.
  - exists (c1 ++ c2). split; [by rewrite Hs2, Hs1, app_assoc|by apply Forall_app_2].
Qed.
Lemma acts_effect (R : effect → Prop) P w w' x : R x → performs x (co w) (co w') → late w' = late w → sent w' = sent w → acts R P w w'.
Proof.
  intros Hx Hp Hl Hs. split; [right; by exists x|]. split; [by left|]. exists []. split; [by rewrite app_nil_r|constructor].
Qed.

Lemma run_setting_acts (R : effect → Prop) P name text w :
  (is_Some (handlers lower h name text) → R (ESetting name text)) → acts R P w (run_setting lower h name text w).2.
Proof.
  intros HR. unfold run_setting. destruct (handlers lower h name text) as [m|] eqn:Hm; [|apply keeps_acts, kept_refl].
  apply (acts_effect R P _ _ (ESetting name text)); [apply HR; by eexists|..].
  all: pose proof (handlers_set lower h name text m (co w) Hm) as Hset.
  all: unfold mbind, pym_bind, on_coordinator; destruct (m (co w)) as [[[why|r]|e] c]; by cbn in *.
Qed.
Lemma outside_fields {A : Type} (m : PyM (CameraState.CameraState * E) A) (w : W) :
  called m (co w) (co (outside m w).2) ∧ late (outside m w).2 = late w ∧ sent (outside m w).2 = sent w.
Proof. unfold outside, called. by destruct (m _) as [r [s e]]. Qed.
Lemma apply_button_acts (R : effect → Prop) P name payload w :
  name ∈ [u "timelapse_build"; u "restart"] →
  (∀ text, bounded_payload payload text → lower (strip text) = PRESS → R (EButton name)) → acts R P w (_apply_button lower wire name payload w).2.
Proof.
  intros Hname HR. unfold _apply_button, mbind, pym_bind at 1, of_res. destruct (_decode_payload payload) as [[why|text]|e] eqn:Hd; try apply keeps_acts, kept_refl.
  apply decode_bounded in Hd. case_bool_decide as Hp; cbn [negb]; [|apply keeps_acts, kept_refl].
  destruct (if bool_decide (name = u "timelapse_build") then _ else _) as [action|] eqn:Ha; [|apply keeps_acts, kept_refl].
  unfold mbind, pym_bind, try_except, mret, pym_ret. pose proof (outside_fields (action tt) w) as (H1 & H2 & H3).
  assert (performs (EButton name) (co w) (co (outside (action tt) w).2)) as Hperf.
  { exists action. split; [exact H1|]. case_bool_decide; [by left|right]. rewrite !elem_of_cons in Hname. by destruct Hname as [?|[?|?%not_elem_of_nil]]. }
  destruct (outside (action tt) w) as [[v|e] w1]; cbn [snd] in *.
  all: apply (acts_effect R P _ _ (EButton name)); [by eapply HR|exact Hperf|exact H2|exact H3].
Qed.
Lemma apply_command_acts (R : effect → Prop) P t name payload w :
  (∀ text, bounded_payload payload text → is_Some (handlers lower h name text) → R (ESetting name text)) →
  (∀ text, bounded_payload payload text → lower (strip text) = PRESS → R (EButton name)) →
  acts R P w (_apply_command lower h wire t name payload w).2 ∧ ∃ r, (_apply_command lower h wire t name payload w).1 = Ret r.
Proof.
  intros HS HB. unfold _apply_command. set (m := if bool_decide _ then _ else _).
  assert (acts R P w (m w).2) as Hm.
  { unfold m. case_bool_decide as Hn; [apply apply_button_acts; eauto|]. unfold mbind, pym_bind, of_res.
    destruct (_decode_payload payload) as [[why|text]|e] eqn:Hd; try apply keeps_acts, kept_refl. apply decode_bounded in Hd.
    destruct (handlers lower h name text) as [k|] eqn:Hk; [|apply keeps_acts, kept_refl]. unfold _run_on_loop.
    assert (acts R P w (run_setting lower h name text w).2) as Hrun by (apply run_setting_acts; intros _; eapply HS; [exact Hd|rewrite Hk; by eexists]).
    destruct (negb _); [done|]. destruct t; try done; [|apply keeps_acts, kept_refl].
    split; [by left|]. split; [right; exists name, text; split; [done|]; eapply HS; [exact Hd|rewrite Hk; by eexists]|]. exists []. split; [cbn; by rewrite app_nil_r|constructor]. }
  unfold try_except. destruct (m w) as [[r|e] w1]; cbn [snd fst] in *; (split; [exact Hm|by eexists]).
Qed.

Lemma apply_install_acts (R : effect → Prop) P payload w :
  (∀ text, bounded_payload payload text → strip text = INSTALL_PAYLOAD → R EInstall) → acts R P w (_apply_update_install wire payload w).2.
Proof.
  intros HR. unfold _apply_update_install, mbind, pym_bind, of_res. destruct (_decode_payload payload) as [[why|text]|e] eqn:Hd; try apply keeps_acts, kept_refl.
  apply decode_bounded in Hd. case_bool_decide as Hp; cbn [negb]; [|apply keeps_acts, kept_refl].
  destruct (install_trigger wire) as [trigger|] eqn:Ht; [|apply keeps_acts, kept_refl].
  unfold mbind, pym_bind, try_except, mret, pym_ret. pose proof (outside_fields trigger w) as (H1 & H2 & H3).
  assert (performs EInstall (co w) (co (outside trigger w).2)) as Hperf by by exists trigger.
  destruct (outside trigger w) as [[v|e] w1]; cbn [snd any_exception] in *; [destruct (_normalize_action_result v) as [[] why]|].
  all: apply (acts_effect R P _ _ EInstall); [by eapply HR|exact Hperf|exact H2|exact H3].
Qed.
Lemma acts_bind {A B : Type} R P (m : M A) (k : A → M B) w : acts R P w (m w).2 → (∀ a, frame P (k a)) → acts R P w ((m ≫= k) w).2.
Proof.
  intros Hm Hk. unfold mbind, pym_bind. destruct (m w) as [[a|e] w1]; cbn [snd] in *; [|done]. eapply acts_keeps; [exact Hm|apply Hk].
Qed.
Abbreviation on_message := (_on_message lower upper same_letter word_char float_of_int of_q h cfg wire dumps fails no_thread).

(** C12: Whatever message arrives, with whatever payload and however the calls fail, the handler
    returns; the shared settings stay as they are unless the message is not retained, has a text
    of at most 256 bytes of UTF-8, and is on the topic of a command of this device or on the install
    topic.  They are then what the one operation leaves that it names: for a setting, the
    coordinator's operation for that name with the value of the text (nothing if the text has
    none); for a button with the press payload, that button's callable; for the install
    payload, the trigger.  A call that is late is kept with its name and text, and nothing is
    sent to the broker but the state documents. *)
Theorem message_safe t topic payload retain w :
  let '(r, w') := on_message t topic payload retain w in
  r = Ret tt ∧ acts (asked topic payload retain) state_like w w' ∧
  (topic ≠ VStr HA_STATUS_TOPIC → retain = true → w' = w) ∧
  (topic ≠ VStr HA_STATUS_TOPIC → (∀ i, update_install (device cfg) (base cfg) = Ret i → topic ≠ VStr i) →
   (∀ name, command_from_topic topic (device cfg) (base cfg) ≠ Ret name) → w' = w).
Proof.
  assert (∀ s (v : pyval), eq_str v s = true ↔ v = VStr s) as Heq.
  { intros s v. destruct v; cbn; rewrite ?bool_decide_eq_true; naive_solver. }
  unfold on_message, _on_message. set (body := if eq_str topic HA_STATUS_TOPIC then _ else _).
  enough (acts (asked topic payload retain) state_like w (body w).2 ∧
    (topic ≠ VStr HA_STATUS_TOPIC → retain = true → (body w).2 = w) ∧
    (topic ≠ VStr HA_STATUS_TOPIC → (∀ i, update_install (device cfg) (base cfg) = Ret i → topic ≠ VStr i) →
     (∀ name, command_from_topic topic (device cfg) (base cfg) ≠ Ret name) → (body w).2 = w)) as Hbody.
  { unfold try_except. destruct (body w) as [[[]|e] w1]; cbn [snd any_exception mret pym_ret] in *; by split. }
  unfold body. destruct (eq_str topic HA_STATUS_TOPIC) eqn:Hha.
  { apply Heq in Hha as ->. split; [|by split]. apply keeps_acts. revert w. change (frame state_like (text ← of_res (_payload_text payload);
      if bool_decide (text = Some ONLINE) then _reconnect_in_thread no_thread else mret tt)). apply frame_bind; [apply frame_of_res|].
    intros text. case_bool_decide; [apply frame_dispatch|apply frame_ret]. }
  assert (topic ≠ VStr HA_STATUS_TOPIC) as Hne by (intros Ht%Heq; congruence).
  destruct retain; [split; [apply keeps_acts, kept_refl|by split]|].
  unfold update_install_topic. unfold mbind at 1, pym_bind at 1, of_res at 1.
  destruct (update_install (device cfg) (base cfg)) as [i|e] eqn:Hi; [|split; [apply keeps_acts, kept_refl|by split]].
  destruct (eq_str topic i) eqn:Hti.
  - apply Heq in Hti. split; [|split; [done|]]; [|intros _ Hno _; by destruct (Hno i)].
    apply acts_bind; [|intros; apply frame_ret]. unfold handle_update_install. apply acts_bind.
    + apply apply_install_acts. intros text Hb Hs. split; [done|]. exists text. split; [done|]. by exists i.
    + intros result. apply frame_bind; [apply frame_settle|]. intros _. apply frame_bind; [apply frame_publish_state; by left|].
      intros _. apply frame_bind; [apply frame_publish_update; by right|]. intros _. apply frame_ret.
  - split; [|split; [done|]].
    + apply acts_bind; [|intros; apply frame_ret]. unfold handle_command.
      destruct (command_from_topic topic (device cfg) (base cfg)) as [name|e] eqn:Hname; [|destruct e; apply keeps_acts, kept_refl].
      apply acts_bind.
      * refine (proj1 (apply_command_acts _ _ _ _ _ _ _ _)); intros text Hb; intros; (split; [done|]); exists text; by split_and!.
      * intros result. apply frame_bind; [apply frame_settle|]. intros _. apply frame_bind; [apply frame_publish_state; by left|]. intros _. apply frame_ret.
    + intros _ _ Hno. unfold mbind, pym_bind, of_res. rewrite Hti. unfold handle_command.
      destruct (command_from_topic topic (device cfg) (base cfg)) as [name|e]; [by destruct (Hno name)|]. by destruct e.
Qed.
End Frames.

(** ** From a command to the published state *)

Section Published.
Context `{UnicodeDB} (lower upper : pystr → pystr) (same_letter : Z → Z → bool) (word_char : Z → bool)
  (float_of_int : Z → res spec_float) (of_q : Q → spec_float) (zones : list pystr)
  (quality_fails available write_ok : bool) (base_hooks : hooks env) `{Hbase : !BaseHooksOk zones base_hooks} (cfg : MqttConfig) (wire : wiring env)
  (dumps : pyval → res bytes) (fails : nat → option exn) (no_thread : nat → bool).
(** The hooks of [main.py]. *)
Abbreviation h := (main_hooks quality_fails available write_ok base_hooks).
Abbreviation W := (mqtt env).
Abbreviation M := (PyM W).

(** The broker takes what is sent, threads start and documents can be encoded. *)
Record healthy : Prop := {
  can_dump d : ∃ b, dumps d = Ret b;
  can_send n : fails n = None;
  can_start n : no_thread n = false;
  can_float z : ∃ f, float_of_int z = Ret f;
}.
Definition metrics_at (time : Z) : list (pystr * pyval) :=
  match metrics_provider wire with
  | Some provider => match provider time with Ret (VDict d) => string_keys d | _ => [] end
  | None => []
  end.
(** The document for a world, with the settings it has. *)
Definition document_of (w : W) : res pyval :=
  build_state lower upper same_letter word_char float_of_int (Some (camera_attrs of_q (cstate (co w)))) (metrics_at (now w))
    (VStr (application_version wire)) (opt_text (last_command_error w)) (secrets cfg wire).

Lemma metrics_known time : forallb (λ kv : pystr * pyval, bool_decide (kv.1 ∈ OVERRIDES)) (metrics_at time) = true.
Proof.
  unfold metrics_at. destruct (metrics_provider wire) as [provider|]; [|done]. destruct (provider time) as [[]|]; try done.
  apply forallb_forall. intros [k v] ([k0 v0] & _ & Hkv)%list_elem_of_In%list_elem_of_omap. destruct k0; try done. cbn [fst snd] in *.
  case_bool_decide; [|done]. injection Hkv as -> ->. by apply bool_decide_eq_true.
Qed.
Lemma as_float_total (Hok : healthy) v : ∃ f, _as_float float_of_int v = Ret f.
Proof. destruct v; try by eexists. cbn. destruct (can_float Hok z) as [f ->]. by eexists. Qed.
Lemma document_total (Hok : healthy) w : ∃ d, document_of w = Ret d.
Proof.
  unfold document_of, build_state. rewrite metrics_known. cbn [negb]. cbv zeta.
  match goal with |- ∃ d, _as_float _ ?v ≫= _ = _ => destruct (as_float_total Hok v) as [l ->] end. unfold mbind at 1, res_bind at 1.
  match goal with |- ∃ d, _as_float _ ?v ≫= _ = _ => destruct (as_float_total Hok v) as [f ->] end. by eexists.
Qed.

Lemma publish_state_sends (Hok : healthy) w tp : state (device cfg) (base cfg) = Ret tp → has_backend w = true →
  (last_command_error w ≠ None → command_error_at w = Some (now w)) →
  ∃ doc payload, document_of w = Ret doc ∧ dumps doc = Ret payload ∧
    publish_state lower upper same_letter word_char float_of_int of_q cfg wire dumps fails w =
    (Ret (Some doc), w{{sent := sent w ++ [(Publish tp payload COMMAND_QOS true, true)] }}).
Proof.
  intros Htp Hb He. destruct (document_total Hok w) as [doc Hdoc]. destruct (can_dump Hok doc) as [payload Hp]. exists doc, payload. split; [done|]. split; [done|].
  assert (_expire_command_error w = (Ret tt, w)) as Hexp.
  { unfold _expire_command_error, mbind, pym_bind, get. destruct (last_command_error w) as [e|]; [|done]. rewrite He by done. by rewrite Z.sub_diag. }
  unfold publish_state. unfold mbind at 1, pym_bind at 1. rewrite Hexp. unfold publish_document, or_none, _build_state_document.
  unfold mbind, pym_bind, try_except, get, of_res. unfold document_of, metrics_at in Hdoc. rewrite Hdoc. cbn [mret pym_ret].
  unfold _encode, mbind, pym_bind, try_except, of_res. rewrite Hp. cbn [mret pym_ret]. unfold state_topic, of_res. rewrite Htp.
  unfold _publish, mbind, pym_bind, get. rewrite Hb. cbn [negb]. unfold _guard, try_except, mbind, pym_bind, backend. rewrite (can_send Hok). done.
Qed.

(** The operations of the coordinator, with these hooks. *)
Lemma requested_mutates name text k : requested lower h name text k → main_mutates (name = u "quality") zones quality_fails available write_ok k.
Proof.
  assert (∀ P k, mutates zones (stored_if available write_ok) k → main_mutates P zones quality_fails available write_ok k) as Hplain
    by (intros; by apply plain_mutates).
  pose proof (main_hooks_ok zones available write_ok base_hooks) as Hh. set (h' := main_hooks false available write_ok base_hooks) in Hh.
  intros [t raw _|t b _|t z _|t _|t _|t z _|t z _|t _|t _|t _|t _].
  - intros w Hok. destruct (quality_mutates zones quality_fails available write_ok base_hooks raw Hbase w Hok) as (r & w' & Hr & Hok' & l & Hl & Hcase).
    exists r, w'. split; [done|]. split; [done|]. exists l. split; [done|]. destruct (ok r); [done|]. destruct Hcase as (H1 & H2 & [H3|(H3 & _ & H4)]); auto 10.
  - apply Hplain, (set_snapshot_upload_mutates zones _ h').
  - apply Hplain, (mutate_mutates zones _ h' MSnapshotInterval).
  - apply Hplain, (set_timelapse_enabled_mutates zones _ h').
  - apply Hplain, (set_timelapse_enabled_mutates zones _ h').
  - apply Hplain, (mutate_mutates zones _ h' MTimelapseInterval).
  - apply Hplain, (set_timelapse_fps_mutates zones _ h').
  - apply Hplain, (set_rtsp_mode_mutates zones _ h').
  - apply Hplain, (set_rtsp_mode_mutates zones _ h').
  - apply Hplain, (set_webrtc_mode_mutates zones _ h').
  - apply Hplain, (set_webrtc_mode_mutates zones _ h').
Qed.
(** What a command leaves: an accepted one is the operation it stands for, carried out. *)
Definition command_outcome (name text : pystr) (ok_ : bool) (c c' : cworld env) : Prop :=
  (∀ k, ¬ requested lower h name text k) ∧ ok_ = false ∧ c' = c ∨
  ∃ k r, requested lower h name text k ∧ k c = (Ret r, c') ∧ ok r = ok_ ∧ main_outcome (name = u "quality") zones quality_fails available write_ok c r c'.
Lemma apply_setting t name payload text w : _decode_payload payload = Ret (inr text) → is_Some (handlers lower h name text) →
  (on_loop wire = true → t = Closed ∨ t = InTime) → CameraState.settings_ok zones (cstate (co w)) →
  ∃ result c', _apply_command lower h wire t name payload w = (Ret result, w{{co := c'}}) ∧ command_outcome name text (cr_ok result) (co w) c'.
Proof.
  intros Hd [m Hm] Ht Hok. pose proof (handlers_requested lower h name text m (co w) Hm) as Hmean.
  assert (∃ r c', m (co w) = (Ret r, c') ∧ command_outcome name text match r with inl _ => false | inr r => ok r end (co w) c') as (r & c' & Hr & Hout).
  { destruct (m (co w)) as [[[why|r]|e] c'].
    - destruct Hmean as [Hno ->]. eexists _, _. split; [done|]. by left.
    - destruct Hmean as (k & Hk & Hrun). destruct (requested_mutates name text k Hk (co w) Hok) as (r' & c'' & Hr & Ho).
      rewrite Hrun in Hr. injection Hr as <- <-. eexists _, _. split; [done|]. right. by exists k, r.
    - destruct Hmean as (k & Hk & Hrun). destruct (requested_mutates name text k Hk (co w) Hok) as (r' & c'' & Hr & _). congruence. }
  set (result := match r with inl why => failed why | inr r => _from_result r end).
  assert (run_setting lower h name text w = (Ret result, w{{co := c'}})) as Hrun
    by (unfold run_setting; rewrite Hm; unfold mbind, pym_bind, on_coordinator; by rewrite Hr).
  exists result, c'. split; [|by destruct r].
  unfold _apply_command, try_except. rewrite bool_decide_eq_false_2.
  2: { intros Hn. rewrite !elem_of_cons in Hn. by destruct Hn as [->|[->|Hn%not_elem_of_nil]]. }
  unfold mbind, pym_bind, of_res. rewrite Hd, Hm. unfold _run_on_loop. destruct (on_loop wire); cbn [negb]; [|by rewrite Hrun].
  destruct (Ht eq_refl) as [->| ->]; by rewrite Hrun.
Qed.
Lemma settle_spec (Hok : healthy) result w : ∃ w', settle same_letter word_char cfg wire no_thread result w = (Ret tt, w') ∧
  co w' = co w ∧ sent w' = sent w ∧ has_backend w' = has_backend w ∧ now w' = now w ∧
  if cr_ok result then last_command_error w' = None
  else is_Some (last_command_error w') ∧ command_error_at w' = Some (now w).
Proof.
  unfold settle. destruct (cr_ok result); [by eexists|]. unfold _set_command_error, _schedule_error_clear, mbind, pym_bind, modify, get.
  match goal with |- context [error_worker_running ?w1] => change (error_worker_running w1) with (error_worker_running w) end.
  destruct (error_worker_running w); [by eexists|]. unfold _dispatch. rewrite (can_start Hok). by eexists.
Qed.

(** C10: With the hooks of [main.py], while the broker takes what is sent, threads start and
    documents can be encoded, a command on a setting whose text is readable and that the loop
    runs in time returns, whatever the services behind the hooks do.  It reports success only if the
    operation of the coordinator for its name and text did: the change was persisted and then published
    to the rest of the program, the saved document is the state it left if the store is mounted and
    its write works (a failed write is only logged), and no error is shown.  Otherwise nothing was persisted or published, an
    error is shown, and the settings are as before, except for the tier of a quality command
    whose durable file could not be written.  In both cases one retained document is sent
    under the state topic, the one of the settings as they then are. *)
Theorem command_published (Hok : healthy) t topic name payload text w tp :
  command_from_topic topic (device cfg) (base cfg) = Ret name → state (device cfg) (base cfg) = Ret tp →
  _decode_payload payload = Ret (inr text) → is_Some (handlers lower h name text) → (on_loop wire = true → t = Closed ∨ t = InTime) →
  CameraState.settings_ok zones (cstate (co w)) → has_backend w = true →
  ∃ result w' doc bytes,
    handle_command lower upper same_letter word_char float_of_int of_q h cfg wire dumps fails no_thread t topic payload w = (Ret (Some result), w') ∧
    CameraState.settings_ok zones (cstate (co w')) ∧
    document_of w' = Ret doc ∧ dumps doc = Ret bytes ∧ sent w' = sent w ++ [(Publish tp bytes COMMAND_QOS true, true)] ∧
    ((∀ k, ¬ requested lower h name text k) ∧ cr_ok result = false ∧ co w' = co w ∨
     ∃ k, requested lower h name text k ∧ co w' = (k (co w)).2) ∧
    ∃ l, clog (co w') = clog (co w) ++ l ∧
      if cr_ok result then last_command_error w' = None ∧ visible l = [CPersist; CPublish] ∧
        (available && write_ok = true → stored (cenv (co w')) (CameraState.persistable_state (cstate (co w'))))
      else is_Some (last_command_error w') ∧ visible l = [] ∧
        (CameraState.persistable_state (cstate (co w')) = CameraState.persistable_state (cstate (co w)) ∨
         quality_fails = true ∧ name = u "quality" ∧ tier_ahead (co w) (co w') l).
Proof.
  intros Hname Htp Hd Hh' Ht Hset Hback. destruct (apply_setting t name payload text w Hd Hh' Ht Hset) as (result & c' & Happly & Hout).
  set (w1 := w{{co := c'}}) in *. destruct (settle_spec Hok result w1) as (w2 & Hsettle & Hco & Hsent & Hb2 & Hnow & Herr).
  destruct (publish_state_sends Hok w2 tp Htp) as (doc & bytes & Hdoc & Hdump & Hpub).
  { by rewrite Hb2. }
  { rewrite Hnow. destruct (cr_ok result); [by rewrite Herr|by destruct Herr as [_ ->]]. }
  set (w3 := w2{{sent := sent w2 ++ [(Publish tp bytes COMMAND_QOS true, true)] }}) in *. exists result, w3, doc, bytes.
  unfold handle_command. rewrite Hname. unfold mbind, pym_bind. rewrite Happly, Hsettle, Hpub. split; [done|].
  assert (co w3 = c') as -> by exact Hco. change (last_command_error w3) with (last_command_error w2).
  assert (CameraState.settings_ok zones (cstate c')) as Hset'.
  { destruct Hout as [(_ & _ & ->)|(k & r & _ & _ & _ & ? & _)]; done. }
  split; [done|]. split; [exact Hdoc|]. split; [done|]. split; [unfold w3; cbn; by rewrite Hsent|].
  destruct Hout as [(Hno & Hf & ->)|(k & r & Hk & Hrun & Hr & _ & l & Hl & Hcase)].
  - split; [by left|]. exists []. rewrite app_nil_r. split; [done|]. rewrite Hf in *. destruct Herr as [He _]. auto.
  - split; [right; exists k; by rewrite Hrun|]. exists l. split; [done|]. rewrite Hr in Hcase. destruct (cr_ok result); [destruct Hcase; by split_and!|].
    destruct Herr as [He _]. tauto.
Qed.
End Published.

(** ** A service to evaluate *)

Definition demo_config : MqttConfig :=
  {| enabled := true; uri := u "mqtt://broker"; client_id := []; discovery_prefix := u "homeassistant"; topic_prefix := u "pibuddycam";
     ca_file := []; username := u "cam"; password := u "hunter2222"; cfg_device_id := u "ab12"; keepalive := 60 |}.
Definition demo_wiring : wiring env :=
  {| application_version := u "1.2.3"; serial := None; mac := VNone; build_timelapse := None; restart := None; metrics_provider := None;
     update_state_provider := None; install_trigger := None; extra_secrets := []; on_loop := true |}.
Definition zero_float (z : Z) : res spec_float := Ret (S754_zero false).
Definition demo_hooks : hooks env := main_hooks false true true no_services.
Definition demo_dumps (d : pyval) : res bytes := Ret (u "{}").
Definition never_fails (n : nat) : option exn := None.
Definition threads_start (n : nat) : bool := false.
Definition demo_service : mqtt env := (new_service demo_config start_world){{has_backend := true}}.
Definition demo_events := run_events lower_ascii upper_ascii same_ascii ascii_word zero_float (λ _, S754_zero false) demo_hooks demo_config
  demo_wiring demo_dumps never_fails threads_start true.
Definition set_fps (text : string) : event (E := env) :=
  EMessage InTime (VStr (u "pibuddycam/ab12/command/timelapse_fps")) (VBytes (u text)) false.

Lemma command_published_witness : ∃ result w',
  handle_command lower_ascii upper_ascii same_ascii ascii_word zero_float (λ _, S754_zero false) demo_hooks demo_config demo_wiring demo_dumps
    never_fails threads_start InTime (VStr (u "pibuddycam/ab12/command/timelapse_fps")) (VBytes (u "5")) demo_service = (Ret (Some result), w') ∧
  cr_ok result = true ∧ last_command_error w' = None ∧ CameraState.timelapse_fps (cstate (co w')) = 5 ∧
  sent w' = [(Publish (u "pibuddycam/ab12/state") (u "{}") 1 true, true)].
Proof.
  destruct (command_published lower_ascii upper_ascii same_ascii ascii_word zero_float (λ _, S754_zero false) [] false true true no_services
    demo_config demo_wiring demo_dumps never_fails threads_start ltac:(split; intros; by try eexists)
    InTime (VStr (u "pibuddycam/ab12/command/timelapse_fps")) (u "timelapse_fps") (VBytes (u "5")) (u "5") demo_service (u "pibuddycam/ab12/state"))
    as (result & w' & doc & bytes & Hrun & _ & _ & Hbytes & Hsent & _ & l & _ & Hcase).
  - by vm_compute.
  - by vm_compute.
  - by vm_compute.
  - eexists. by vm_compute.
  - by right.
  - apply CameraState.initial_state_ok.
  - done.
  - exists result, w'. split; [exact Hrun|].
    assert (cr_ok result = true ∧ CameraState.timelapse_fps (cstate (co w')) = 5) as [Hok Hfps].
    { pose proof (f_equal (λ r, (match r.1 with Ret (Some c) => cr_ok c | _ => false end, CameraState.timelapse_fps (cstate (co r.2)))) Hrun) as He.
      vm_compute in He. injection He as H1 H2. split; [exact (eq_sym H1)|exact (eq_sym H2)]. }
    rewrite Hok in Hcase. destruct Hcase as [Hnone _]. injection Hbytes as <-. by split_and!.
Defined.

(** ** What the model shows *)

(** A reconnection republishes the documents and nothing else: no availability, no subscription.
    The retained "offline" of the last will stays after a lost connection, and a session that the
    broker started anew has none of the command topics. *)
Lemma reconnect_unannounced :
  let w := demo_events [EStart; EConnected] demo_service in
  let w' := demo_events [ETask 0 true] w in
  let topics w := omap (λ c : backend_call * bool, match c.1 with Publish t p _ _ => Some (t, p) | _ => None end) (sent w) in
  let subscribed w := length (List.filter (λ c : backend_call * bool, match c.1 with Subscribe _ _ => true | _ => false end) (sent w)) in
  topics w !! 0%nat = Some (u "pibuddycam/ab12/availability", u "online") ∧
  drop (length (topics w)) (topics w') = [(u "homeassistant/device/pibuddycam_ab12/config", u "{}"); (u "pibuddycam/ab12/state", u "{}")] ∧
  subscribed w = 12%nat ∧ subscribed w' = subscribed w.
Proof. cbv zeta. by vm_compute. Qed.

(** The worker reads that the error is old; a command fails before it goes on; the worker then
    clears the new error, as old as it is. *)
Lemma newer_error_cleared :
  let w := demo_events [set_fps "x"; ETime 60; ETask 0 true; set_fps "y"] demo_service in
  let w' := demo_events [ETask 0 true] w in
  command_error_at w = Some 60 ∧ now w' = 60 ∧ is_Some (last_command_error w) ∧ last_command_error w' = None.
Proof. cbv zeta. split_and!; try by vm_compute. by eexists; vm_compute. Qed.

(** A command that the loop runs after its deadline changes the setting, but the state document
    that was sent is the one before, and no other is sent. *)
Lemma late_change_unpublished :
  let w := demo_events [EMessage Late (VStr (u "pibuddycam/ab12/command/timelapse_fps")) (VBytes (u "5")) false] demo_service in
  let w' := demo_events [ELate 0] w in
  CameraState.timelapse_fps (cstate (co w)) ≠ 5 ∧ CameraState.timelapse_fps (cstate (co w')) = 5 ∧
  sent w' = sent w ∧ length (sent w) = 1%nat ∧ tasks w' = tasks w.
Proof. cbv zeta. split_and!; by vm_compute. Qed.
