(* ===== verification/FileTree.v ===== *)
(** A file tree with directories, files and symbolic links, as the modules that work on
    whole directories see it: path resolution, the operations of [os] and [shutil] they
    call, any of which may fail, and [os.walk].  A tree is a map from the real path of an
    entry to the entry; every state it went through is kept ([Crash]).  An operation takes
    effect at once; what a file system still has after a power cut is not modelled. *)
From S2P Require Import Prelude Crash PyValue PyText.

(** ** Paths and trees

    A path is absolute and normalised: its components from the root, without [.] and [..].
    A link holds the path it denotes. *)
Abbreviation path := (list pystr).
Inductive node :=
  | NDir
  | NFile (data : bytes)
  | NLink (target : path).
#[export] Instance node_eq_dec : EqDecision node.
Proof. solve_decision. Defined.
Abbreviation tree := (gmap path node).

(** [os.path.dirname]. *)
Definition dirname (p : path) : path := take (pred (length p)) p.

(** What the path [rest] denotes from the directory [cur]: every link on the way is replaced
    by its target.  The kernel gives up after forty links; [realpath] then leaves the rest
    as it is, which names nothing. *)
Fixpoint resolve (links : nat) (t : tree) : path → path → path :=
  fix go (cur rest : path) {struct rest} : path :=
    match rest with
    | [] => cur
    | name :: rest' =>
        match t !! (cur ++ [name]) with
        | Some (NLink target) =>
            match links with
            | O => cur ++ name :: rest'
            | S links => resolve links t [] (target ++ rest')
            end
        | _ => go (cur ++ [name]) rest'
        end
    end.
Definition MAXSYMLINKS : nat := 40.
(** [os.path.realpath]. *)
Definition realpath (t : tree) (p : path) : path := resolve MAXSYMLINKS t [] p.
#[global] Arguments realpath : simpl never.
(** The entry a path names, its last component not followed. *)
Definition entry (t : tree) (p : path) : path :=
  match last p with
  | Some name => realpath t (dirname p) ++ [name]
  | None => []
  end.
Definition lexists (t : tree) (p : path) : bool := bool_decide (is_Some (t !! entry t p)).
Definition islink (t : tree) (p : path) : bool := match t !! entry t p with Some (NLink _) => true | _ => false end.
Definition isdir (t : tree) (p : path) : bool := match t !! realpath t p with Some NDir => true | _ => false end.
Definition isfile (t : tree) (p : path) : bool := match t !! realpath t p with Some (NFile _) => true | _ => false end.
Definition exists_ (t : tree) (p : path) : bool := isdir t p || isfile t p.
(** The names in the directory with the real path [d]. *)
Definition children (t : tree) (d : path) : list pystr :=
  omap (λ q, match last q with Some name => if bool_decide (dirname q = d) then Some name else None | None => None end)
       (map_to_list t).*1.

(** The text of a path, its order, and the text of a path parsed against a working
    directory: [..] is the parent of the directory that the part before it denotes, links
    resolved, as the kernel and [realpath] take it.  A slash at the end is dropped. *)
Definition path_str (p : path) : pystr :=
  match p with [] => [47] | _ => concat (map (λ name, 47 :: name) p) end.
Definition path_le (p q : path) : Prop := str_le (path_str p) (path_str q).
#[export] Instance path_le_dec p q : Decision (path_le p q) := str_le_dec (path_str p) (path_str q).
Fixpoint normalise (t : tree) (acc : path) (names : list pystr) : path :=
  match names with
  | [] => acc
  | name :: names =>
      if bool_decide (name = []) || bool_decide (name = u ".") then normalise t acc names
      else if bool_decide (name = u "..") then normalise t (dirname (realpath t acc)) names
      else normalise t (acc ++ [name]) names
  end.
Definition parse_path (t : tree) (cwd : path) (s : pystr) : path :=
  normalise t (if starts_with [47] s then [] else cwd) (split_on 47 s).

(** The order of the bottom-up listings: deeper paths first. *)
Definition deeper (p q : path) : Prop := (length q ≤ length p)%nat.
#[export] Instance deeper_dec p q : Decision (deeper p q) := decide (length q ≤ length p)%nat.

(** ** Operations on a disk

    [dk_ops] counts the operations, [dk_past] has every state of the tree, [dk_errno] is
    the text of the last error. *)
Record disk := {
  dk_tree : tree;
  dk_ops : nat;
  dk_past : list tree;
  dk_errno : pystr;
}.
#[export] Instance disk_logged : Logged disk tree := dk_past.

Definition set_errno (e : pystr) (w : disk) : disk := w{{dk_errno := e}}.
Definition fail {A} (e : string) : PyM disk A := λ w, (Raise OSError, set_errno (u e) w).
Definition reads {A} (f : tree → A) : PyM disk A := λ w, (Ret (f (dk_tree w)), w).

Section Operations.
(** What the [n]-th operation does: [Some] is the text of the error it raises. *)
Context (io : nat → option pystr).

Definition op (f : tree → tree) : PyM disk unit := λ w,
  let w := w{{dk_ops := S (dk_ops w)}} in
  match io (pred (dk_ops w)) with
  | Some e => (Raise OSError, set_errno e w)
  | None => (Ret tt, w{{dk_tree := f (dk_tree w)}}{{dk_past := dk_past w ++ [f (dk_tree w)] }})
  end.

Definition mkdir (p : path) : PyM disk unit :=
  t ← reads id;
  if negb (isdir t (dirname p)) then fail "No such file or directory"
  else if lexists t p then fail "File exists"
  else op (insert (entry t p) NDir).
(** [os.makedirs(p, exist_ok=True)]. *)
Fixpoint makedirs_from (n : nat) (p : path) : PyM disk unit :=
  t ← reads id;
  _ ← match n with
      | O => mret tt
      | S n =>
          if exists_ t (dirname p) then mret tt
          else try_except os_error (makedirs_from n (dirname p))
                 (λ e, w ← get; if bool_decide (dk_errno w = u "File exists") then mret tt else raise e)
      end;
  try_except os_error (mkdir p) (λ e, t ← reads id; if isdir t p then mret tt else raise e).
Definition makedirs (p : path) : PyM disk unit := makedirs_from (length p) p.

(** [open(p, 'w')] and writing: the file is empty before it has its content. *)
Definition write_file (p : path) (data : bytes) : PyM disk unit :=
  t ← reads id;
  match t !! realpath t p with
  | Some NDir => fail "Is a directory"
  | Some (NLink _) => fail "Too many levels of symbolic links"
  | _ =>
      if bool_decide (t !! dirname (realpath t p) = Some NDir)
      then _ ← op (insert (realpath t p) (NFile [])); op (insert (realpath t p) (NFile data))
      else fail "No such file or directory"
  end.
(** [shutil.copyfile(src, dst)]. *)
Definition copyfile (src dst : path) : PyM disk unit :=
  t ← reads id;
  match t !! realpath t src with
  | Some (NFile data) =>
      if bool_decide (realpath t src = realpath t dst) then fail "error" else write_file dst data
  | _ => fail "No such file or directory"
  end.
(** Removing the entry [e]: [os.remove] of what is no directory, [os.rmdir] of an empty one. *)
Definition remove_entry (e : path) : PyM disk unit :=
  t ← reads id;
  if bool_decide (e = []) then fail "Device or resource busy" else
  match t !! e with
  | None => fail "No such file or directory"
  | Some NDir => if bool_decide (children t e = []) then op (delete e) else fail "Directory not empty"
  | Some _ => op (delete e)
  end.
Definition remove (p : path) : PyM disk unit :=
  t ← reads id;
  match t !! entry t p with Some NDir => fail "Is a directory" | _ => remove_entry (entry t p) end.
Definition rmdir (p : path) : PyM disk unit :=
  t ← reads id;
  match t !! entry t p with
  | Some (NFile _) | Some (NLink _) => fail "Not a directory"
  | _ => remove_entry (entry t p)
  end.
(** [os.replace] of what is no directory. *)
Definition replace (src dst : path) : PyM disk unit :=
  t ← reads id;
  match t !! entry t src, t !! entry t dst with
  | None, _ => fail "No such file or directory"
  | Some NDir, _ => fail "Not a directory"
  | _, Some NDir => fail "Is a directory"
  | Some nd, _ =>
      if bool_decide (t !! dirname (entry t dst) = Some NDir) then op (λ t', <[entry t dst := nd]> (delete (entry t src) t'))
      else fail "No such file or directory"
  end.

Fixpoint for_each {A} (f : A → PyM disk unit) (l : list A) : PyM disk unit :=
  match l with [] => mret tt | x :: l => _ ← f x; for_each f l end.
(** The entries at and below [d], what a directory holds before the directory. *)
Definition below (t : tree) (d : path) : list path :=
  merge_sort deeper (filter (λ p, d `prefix_of` p) (map_to_list t).*1).
(** [shutil.rmtree]; with [ignore_errors] it goes on after a failure. *)
Definition rmtree (ignore_errors : bool) (p : path) : PyM disk unit :=
  t ← reads id;
  let quiet (m : PyM disk unit) := if ignore_errors then try_except os_error m (λ _, mret tt) else m in
  match t !! entry t p with
  | Some NDir => for_each (λ e, quiet (remove_entry e)) (below t (entry t p))
  | None => quiet (fail "No such file or directory")
  | Some (NLink _) => quiet (fail "Cannot call rmtree on a symbolic link")
  | Some _ => quiet (fail "Not a directory")
  end.
End Operations.

(** ** Containment *)

(** [_within] of the modules: the text of [path] is that of [root] or begins with it and a
    slash, so that nothing but itself is within ["/"]. *)
Definition _within (path root : path) : bool :=
  bool_decide (path = root) || (negb (bool_decide (root = [])) && bool_decide (root `prefix_of` path)).

(** ** [os.walk]

    The directories a walk without following links visits, from the top, with the names
    in each that are no real directory; a directory whose real path is outside [root] is
    neither listed nor entered. *)
Definition subdirs (t : tree) (d : path) : list pystr :=
  List.filter (λ name, bool_decide (t !! (d ++ [name]) = Some NDir)) (children t d).
Definition others (t : tree) (d : path) : list pystr :=
  List.filter (λ name, negb (bool_decide (t !! (d ++ [name]) = Some NDir))) (children t d).
Fixpoint walk (depth : nat) (t : tree) (root p : path) : list (path * list pystr) :=
  if negb (_within (realpath t p) root) then []
  else (p, others t (realpath t p)) ::
       match depth with
       | O => []
       | S depth => concat (map (λ name, walk depth t root (p ++ [name])) (subdirs t (realpath t p)))
       end.
(** No entry is deeper than the number of entries. *)
Definition walk_depth (t : tree) : nat := base.size t.

(** ** Resolution *)

Definition no_link (t : tree) (p : path) : Prop := ∀ to, t !! p ≠ Some (NLink to).
(** The two trees have the same links. *)
Definition same_links (t t' : tree) : Prop := ∀ p to, t !! p = Some (NLink to) ↔ t' !! p = Some (NLink to).

Lemma dirname_snoc (p : path) name : dirname (p ++ [name]) = p.
Proof. unfold dirname. rewrite length_app. cbn [length]. rewrite Nat.add_1_r. cbn [pred]. apply take_app_length. Qed.
Lemma entry_snoc t (p : path) name : entry t (p ++ [name]) = realpath t p ++ [name].
Proof. unfold entry. by rewrite last_snoc, dirname_snoc. Qed.
Lemma entry_nil t : entry t [] = [].
Proof. done. Qed.
Lemma realpath_nil t : realpath t [] = [].
Proof. done. Qed.

Lemma resolve_nil n t cur : resolve n t cur [] = cur.
Proof. by destruct n. Qed.
Lemma resolve_cons n t cur name rest :
  resolve n t cur (name :: rest) =
  match t !! (cur ++ [name]) with
  | Some (NLink target) => match n with O => cur ++ name :: rest | S n => resolve n t [] (target ++ rest) end
  | _ => resolve n t (cur ++ [name]) rest
  end.
Proof. by destruct n. Qed.

(** Induction on a resolution: by the links that are left, then along the path. *)
Lemma resolve_ind (P : nat → path → path → Prop) :
  (∀ n cur, P n cur []) →
  (∀ n cur name rest, P n (cur ++ [name]) rest → (∀ m target, n = S m → P m [] (target ++ rest)) → P n cur (name :: rest)) →
  ∀ n cur rest, P n cur rest.
Proof.
  intros Hnil Hcons. induction n as [n IHn] using (well_founded_induction Wf_nat.lt_wf).
  intros cur rest. revert cur. induction rest as [|name rest IHr]; intros cur; [apply Hnil|].
  apply Hcons; [apply IHr|]. intros m target ->. apply IHn. lia.
Qed.

Lemma resolve_same_links t t' n cur rest : same_links t t' → resolve n t cur rest = resolve n t' cur rest.
Proof.
  intros Hs. revert n cur rest. apply resolve_ind; [intros; by rewrite !resolve_nil|].
  intros n cur name rest IH1 IH2. rewrite !resolve_cons.
  destruct (t !! (cur ++ [name])) as [[| |to]|] eqn:Ht.
  3: { apply Hs in Ht. rewrite Ht. destruct n as [|m]; [done|]. by apply IH2. }
  all: destruct (t' !! (cur ++ [name])) as [[| |to]|] eqn:Ht'; [exact IH1|exact IH1| |exact IH1].
  all: by apply Hs in Ht'; rewrite Ht in Ht'.
Qed.
Lemma realpath_same_links t t' p : same_links t t' → realpath t p = realpath t' p.
Proof. apply resolve_same_links. Qed.
Lemma entry_same_links t t' p : same_links t t' → entry t p = entry t' p.
Proof. intros Hs. unfold entry. destruct (last p); [|done]. by rewrite (realpath_same_links t t'). Qed.

(** Below the place a path leads to, without links, the path is followed by its text. *)
Lemma resolve_app t l n cur rest :
  (∀ q, q ≠ [] → q `prefix_of` l → no_link t (resolve n t cur rest ++ q)) →
  resolve n t cur (rest ++ l) = resolve n t cur rest ++ l.
Proof.
  revert n cur rest. refine (resolve_ind _ _ _).
  - intros n cur. rewrite resolve_nil. cbn [app]. revert cur. induction l as [|name l IH]; intros cur Hl; [by rewrite resolve_nil, app_nil_r|].
    rewrite resolve_cons. pose proof (Hl [name] ltac:(done) ltac:(by exists l)) as Hn. unfold no_link in Hn.
    assert (resolve n t (cur ++ [name]) l = cur ++ name :: l) as Hres.
    { rewrite IH; [by rewrite <-app_assoc|]. intros q Hq (k & ->). rewrite <-app_assoc. apply Hl; [done|]. by exists k. }
    destruct (t !! (cur ++ [name])) as [[| |to]|]; [done|done|by destruct (Hn to)|done].
  - intros n cur name rest IH1 IH2. cbn [app]. rewrite !resolve_cons.
    destruct (t !! (cur ++ [name])) as [[| |to]|]; [exact IH1|exact IH1| |exact IH1].
    destruct n as [|m]; [intros _; by rewrite <-app_assoc|]. intros Hl. rewrite app_assoc. by apply IH2.
Qed.
Lemma realpath_app t p l :
  (∀ q, q ≠ [] → q `prefix_of` l → no_link t (realpath t p ++ q)) → realpath t (p ++ l) = realpath t p ++ l.
Proof. apply resolve_app. Qed.
(** A path whose last component is no link is resolved to its entry. *)
Lemma realpath_entry t p : no_link t (entry t p) → realpath t p = entry t p.
Proof.
  destruct p as [|name p _] using rev_ind; [done|]. rewrite entry_snoc. intros Hn. apply realpath_app.
  intros q Hq (k & Hk). destruct q as [|x [|y q]]; [done| |done]. injection Hk as ->. exact Hn.
Qed.

(** Every part of the path is what it says. *)
Definition plain (t : tree) (p : path) : Prop := ∀ q, q `prefix_of` p → no_link t q.
Lemma realpath_plain t p : plain t p → realpath t p = p.
Proof. intros Hp. change p with ([] ++ p) at 1. rewrite realpath_app; [done|]. rewrite realpath_nil. intros q _ Hq. by apply Hp. Qed.
Lemma plain_prefix t p q : plain t (p ++ q) → plain t p.
Proof. intros Hp k Hk. apply Hp. etrans; [exact Hk|]. by exists q. Qed.
Lemma plain_entry t p : plain t (dirname p) → entry t p = p.
Proof.
  destruct p as [|name p _] using rev_ind; [done|]. rewrite dirname_snoc, entry_snoc. intros Hp. by rewrite realpath_plain.
Qed.
Lemma plain_snoc t p name : plain t p → no_link t (p ++ [name]) → plain t (p ++ [name]).
Proof. intros Hp Hn q (k & Hk). destruct k as [|x k _] using rev_ind; [rewrite app_nil_r in Hk; by subst|].
  rewrite app_assoc in Hk. apply app_inj_tail in Hk as [-> _]. apply Hp. by exists k. Qed.

(** ** Well-formed trees: every entry is in a directory. *)
Definition wf (t : tree) : Prop := t !! [] = Some NDir ∧ ∀ p name, is_Some (t !! (p ++ [name])) → t !! p = Some NDir.

Lemma wf_above t p q : wf t → is_Some (t !! (p ++ q)) → q ≠ [] → t !! p = Some NDir.
Proof.
  intros [_ Ht]. induction q as [|name q IH] using rev_ind; [done|]. rewrite app_assoc. intros H%Ht _.
  destruct q as [|x q]; [by rewrite app_nil_r in H|]. apply IH; [by rewrite H|done].
Qed.
Lemma wf_below t p q : wf t → t !! p ≠ Some NDir → q ≠ [] → t !! (p ++ q) = None.
Proof. intros Ht Hp Hq. apply eq_None_not_Some. intros Hs. by apply Hp, (wf_above t p q). Qed.
Lemma elem_children t d name : name ∈ children t d ↔ is_Some (t !! (d ++ [name])).
Proof.
  unfold children. rewrite list_elem_of_omap. split.
  - intros (q & Hq & Hn). apply list_elem_of_fmap in Hq as ([q' nd] & -> & Hq). apply elem_of_map_to_list in Hq. cbn [fst] in Hn.
    destruct q' as [|x q' _] using rev_ind; [done|]. rewrite last_snoc, dirname_snoc in Hn. case_bool_decide; [|done].
    injection Hn as ->. subst. by rewrite Hq.
  - intros [nd Hn]. exists (d ++ [name]). split; [apply list_elem_of_fmap; exists (d ++ [name], nd); split; [done|by apply elem_of_map_to_list]|].
    rewrite last_snoc, dirname_snoc. by rewrite bool_decide_eq_true_2.
Qed.
Lemma wf_insert t d name nd : wf t → t !! d = Some NDir → t !! (d ++ [name]) ≠ Some NDir ∨ nd = NDir → wf (<[d ++ [name] := nd]> t).
Proof.
  intros [Hr Ht] Hd Hor. split; [rewrite lookup_insert_ne; [done|by destruct d]|]. intros p x.
  destruct (decide (p = d ++ [name])) as [->|Hp].
  - rewrite lookup_insert_eq. destruct Hor as [Hn| ->]; [|done]. rewrite lookup_insert_ne; [intros H%(Ht (d ++ [name]) x); by destruct Hn|].
    intros H%(f_equal length). rewrite !length_app in H. cbn in H. lia.
  - rewrite lookup_insert_ne with (j := p) by done. destruct (decide (p ++ [x] = d ++ [name])) as [Hpx|Hpx]; [by apply app_inj_tail in Hpx as [-> _]|].
    rewrite lookup_insert_ne by done. exact (Ht p x).
Qed.
Lemma wf_insert_entry t e nd : wf t → e ≠ [] → t !! dirname e = Some NDir → t !! e ≠ Some NDir → wf (<[e := nd]> t).
Proof.
  intros Hwf He Hd Hn. destruct e as [|name e _] using rev_ind; [done|]. rewrite dirname_snoc in Hd. apply wf_insert; auto.
Qed.
Lemma wf_delete t e : wf t → e ≠ [] → t !! e ≠ Some NDir ∨ children t e = [] → wf (delete e t).
Proof.
  intros [Hr Ht] He Hor. split; [by rewrite lookup_delete_ne|]. intros p x [nd [Hne Hs]%lookup_delete_Some].
  destruct (decide (p = e)) as [->|Hp]; [|rewrite lookup_delete_ne by done; apply (Ht p x); by rewrite Hs].
  exfalso. destruct Hor as [Hn|Hc]; [apply Hn, (Ht e x); by rewrite Hs|].
  assert (x ∈ children t e) as Hx by (apply elem_children; by rewrite Hs). rewrite Hc in Hx. by apply not_elem_of_nil in Hx.
Qed.

(** A check of it. *)
Definition well_formed (t : tree) : bool :=
  forallb (λ e : path * node, match e.1 with [] => bool_decide (e.2 = NDir) | p => bool_decide (t !! dirname p = Some NDir) end) (map_to_list t)
  && bool_decide (is_Some (t !! [])).
Lemma well_formed_wf t : well_formed t = true → wf t.
Proof.
  unfold well_formed. rewrite andb_true_iff, bool_decide_eq_true, forallb_forall. intros [Hall [nd Hnd]].
  assert (∀ p nd, t !! p = Some nd → (p, nd) ∈ map_to_list t) as Hin by (intros p nd' H; by apply elem_of_map_to_list).
  split.
  - pose proof (Hall ([], nd) ltac:(by apply list_elem_of_In, Hin)) as H. cbn in H. apply bool_decide_eq_true in H. by subst.
  - intros p name [nd' Hs]. pose proof (Hall (p ++ [name], nd') ltac:(by apply list_elem_of_In, Hin)) as H. cbn [fst snd] in H.
    destruct (p ++ [name]) eqn:He; [by destruct p|]. rewrite <-He, dirname_snoc in H. by apply bool_decide_eq_true in H.
Qed.

(** Deleting a link cuts the resolutions through it and leaves the others. *)
Lemma resolve_delete t e n cur rest : wf t → no_link t e ∨ (∃ to, t !! e = Some (NLink to)) →
  resolve n (delete e t) cur rest = resolve n t cur rest ∨ e `prefix_of` resolve n (delete e t) cur rest.
Proof.
  intros Hwf [Hn|[to Hto]].
  { left. apply resolve_same_links. intros p to. rewrite lookup_delete_Some. split; [by intros [_ ?]|].
    intros Hp. split; [|done]. intros ->. by apply Hn in Hp. }
  assert (∀ n rest, resolve n (delete e t) e rest = e ++ rest) as Hstop.
  { intros m l. change l with ([] ++ l) at 1. rewrite resolve_app; rewrite resolve_nil; [done|]. intros q Hq _ to'.
    rewrite lookup_delete_ne; [rewrite (wf_below t e q) by (congruence || done); done|].
    intros He. apply Hq. rewrite <-(app_nil_r e) in He at 1. by apply app_inv_head in He. }
  revert n cur rest. apply resolve_ind; [intros; left; by rewrite !resolve_nil|].
  intros n cur name rest IH1 IH2. rewrite !resolve_cons.
  destruct (decide (cur ++ [name] = e)) as [He|He].
  - rewrite He, lookup_delete_eq, Hstop. right. by exists rest.
  - rewrite lookup_delete_ne by congruence. destruct (t !! (cur ++ [name])) as [[| |l]|]; [done|done| |done].
    destruct n as [|m]; [by left|by apply IH2].
Qed.
Lemma realpath_delete t e p : wf t →
  realpath (delete e t) p = realpath t p ∨ e `prefix_of` realpath (delete e t) p.
Proof.
  intros Hwf. apply resolve_delete; [done|]. destruct (t !! e) as [[| |to]|] eqn:He; [left..|right|left].
  3: by exists to.
  all: intros to; by rewrite He.
Qed.

Lemma along_reads {A : Type} (f : tree → A) (I : tree → Prop) (Q : res A → disk → Prop) w :
  Q (Ret (f (dk_tree w))) w → along (reads f) I Q w.
Proof. intros HQ. split; [apply passed_refl|done]. Qed.
Lemma along_get (I : tree → Prop) (Q : res disk → disk → Prop) w : Q (Ret w) w → along get I Q w.
Proof. intros HQ. split; [apply passed_refl|done]. Qed.
Lemma along_fail {A : Type} (e : string) (I : tree → Prop) (Q : res A → disk → Prop) w :
  (∀ w', dk_tree w' = dk_tree w → Q (Raise OSError) w') → along (fail e) I Q w.
Proof. intros HQ. split; [by apply passed_same|by apply HQ]. Qed.

(** ** Invariants of the operations

    From a state in [I], [m] goes through states of [I] only, ends in one, and raises
    nothing outside [P]. *)
Definition stays_at {A : Type} (P : exn → Prop) (I : tree → Prop) (m : PyM disk A) (w : disk) : Prop :=
  along m I (λ r w', I (dk_tree w') ∧ match r with Raise e => P e | Ret _ => True end) w.
Definition stays {A : Type} (P : exn → Prop) (I : tree → Prop) (m : PyM disk A) : Prop :=
  ∀ w, I (dk_tree w) → stays_at P I m w.
Definition os_only (e : exn) : Prop := os_error e = true.

Section Stays.
Context (P : exn → Prop) (I : tree → Prop).

Lemma stays_at_ret {A : Type} (a : A) w : I (dk_tree w) → stays_at P I (mret a) w.
Proof. intros HI. by apply along_ret. Qed.
Lemma stays_ret {A : Type} (a : A) : stays P I (mret a).
Proof. intros w. apply stays_at_ret. Qed.
Lemma stays_raise {A} e : P e → stays P I (raise e : PyM disk A).
Proof. intros He w HI. by apply along_raise. Qed.
Lemma stays_fail {A} e : P OSError → stays P I (fail e : PyM disk A).
Proof. intros He w HI. split; [by apply passed_same|done]. Qed.
Lemma stays_at_bind {A B : Type} (m : PyM disk A) (f : A → PyM disk B) w :
  stays_at P I m w → (∀ a, stays P I (f a)) → stays_at P I (m ≫= f) w.
Proof.
  intros Hm Hf. apply along_bind. eapply along_mono; [exact Hm|done|]. intros [a|e] w' _ [HI HP]; [by apply Hf|done].
Qed.
Lemma stays_bind {A B : Type} (m : PyM disk A) (f : A → PyM disk B) :
  stays P I m → (∀ a, stays P I (f a)) → stays P I (m ≫= f).
Proof. intros Hm Hf w HI. apply stays_at_bind; [by apply Hm|done]. Qed.
Lemma stays_reads {A B : Type} (f : tree → A) (k : A → PyM disk B) :
  (∀ w, I (dk_tree w) → stays_at P I (k (f (dk_tree w))) w) → stays P I (reads f ≫= k).
Proof. intros Hk w HI. exact (Hk w HI). Qed.
Lemma stays_at_reads {A B : Type} (f : tree → A) (k : A → PyM disk B) w :
  stays_at P I (k (f (dk_tree w))) w → stays_at P I (reads f ≫= k) w.
Proof. done. Qed.
Lemma stays_get {B : Type} (k : disk → PyM disk B) : (∀ w, I (dk_tree w) → stays_at P I (k w) w) → stays P I (get ≫= k).
Proof. intros Hk w HI. exact (Hk w HI). Qed.
Lemma stays_at_try {A : Type} (P' : exn → Prop) caught (m : PyM disk A) h w :
  stays_at P' I m w → (∀ e, P' e → caught e = true → stays P I (h e)) → (∀ e, P' e → caught e = false → P e) →
  stays_at P I (try_except caught m h) w.
Proof.
  intros Hm Hh Hp. apply along_try. eapply along_mono; [exact Hm|done|]. intros [a|e] w' _ [HI HP]; [done|].
  destruct (caught e) eqn:Hc; [by apply Hh|]. split; [done|by apply Hp].
Qed.
Lemma stays_try {A : Type} (P' : exn → Prop) caught (m : PyM disk A) h :
  stays P' I m → (∀ e, P' e → caught e = true → stays P I (h e)) → (∀ e, P' e → caught e = false → P e) →
  stays P I (try_except caught m h).
Proof. intros Hm Hh Hp w HI. by eapply stays_at_try; [apply Hm|..]. Qed.
Lemma stays_for_each {A : Type} (f : A → PyM disk unit) l : (∀ x, x ∈ l → stays P I (f x)) → stays P I (for_each f l).
Proof.
  induction l as [|x l IH]; intros Hf; [apply stays_ret|]. cbn. apply stays_bind; [apply Hf; constructor|].
  intros _. apply IH. intros y Hy. apply Hf. by constructor.
Qed.
End Stays.
Lemma stays_at_mono {A : Type} (P P' : exn → Prop) (I I' : tree → Prop) (m : PyM disk A) w :
  stays_at P I m w → (∀ t, I t → I' t) → (∀ e, P e → P' e) → stays_at P' I' m w.
Proof. intros Hm HI HP. eapply along_mono; [exact Hm|exact HI|]. intros [a|e] w' _ [H1 H2]; auto. Qed.
Lemma stays_at_weaken {A : Type} (P P' : exn → Prop) I (m : PyM disk A) w : stays_at P I m w → (∀ e, P e → P' e) → stays_at P' I m w.
Proof. intros Hm HP. by eapply stays_at_mono. Qed.

Section Operations.
Context (io : nat → option pystr) (I : tree → Prop).

Lemma along_tree_op f (Q : res unit → disk → Prop) w :
  (∀ w', dk_tree w' = dk_tree w → Q (Raise OSError) w') → (∀ w', dk_tree w' = f (dk_tree w) → Q (Ret tt) w') →
  I (f (dk_tree w)) → along (op io f) I Q w.
Proof.
  intros H1 H2 Hf. unfold along, op. cbn. destruct (io (dk_ops w)); cbn.
  - split; [by apply passed_same|by apply H1].
  - split; [by eapply passed_one|by apply H2].
Qed.
Lemma stays_at_op f w : I (dk_tree w) → I (f (dk_tree w)) → stays_at os_only I (op io f) w.
Proof. intros HI Hf. apply along_tree_op; [by intros w' ->|by intros w' ->|done]. Qed.

(** What [I] has to allow. *)
Definition allows_mkdir : Prop := ∀ t d name, I t → t !! d = Some NDir → t !! (d ++ [name]) = None → I (<[d ++ [name] := NDir]> t).
Definition allows_write (p : path) : Prop := ∀ t data, I t → t !! dirname (realpath t p) = Some NDir →
  (t !! realpath t p = None ∨ ∃ old, t !! realpath t p = Some (NFile old)) → I (<[realpath t p := NFile data]> t).
Definition allows_delete (e : path) : Prop := ∀ t nd, I t → e ≠ [] → t !! e = Some nd → nd ≠ NDir ∨ children t e = [] → I (delete e t).

Lemma stays_mkdir p : allows_mkdir → stays os_only I (mkdir io p).
Proof.
  intros Hm. unfold mkdir. apply stays_reads. intros w HI. cbn [id]. destruct (isdir _ _) eqn:Hd; [|by apply stays_fail]. cbn [negb].
  destruct (lexists _ _) eqn:Hl; [by apply stays_fail|]. apply stays_at_op; [done|]. unfold isdir, lexists in *.
  destruct p as [|name p _] using rev_ind.
  - change (dirname []) with ([] : path) in Hd. rewrite entry_nil in Hl. rewrite realpath_nil in Hd.
    by destruct (dk_tree w !! []) as [nd|]; [rewrite bool_decide_eq_true_2 in Hl by eauto|].
  - rewrite dirname_snoc in Hd. rewrite entry_snoc in Hl |- *. apply Hm; [done| |].
    + by destruct (dk_tree w !! realpath (dk_tree w) p) as [[]|].
    + apply bool_decide_eq_false in Hl. by apply eq_None_not_Some.
Qed.
Lemma stays_makedirs p : allows_mkdir → stays os_only I (makedirs io p).
Proof.
  intros Hm. assert (∀ p, stays os_only I (try_except os_error (mkdir io p)
      (λ e, t ← reads id; if isdir t p then mret tt else raise e))) as Hlast.
  { intros q. eapply stays_try; [by apply stays_mkdir| |by intros e ->]. intros e He _.
    apply stays_reads. intros w' HI'. destruct (isdir _ _); [by apply stays_ret|by apply stays_raise]. }
  unfold makedirs. generalize (length p). intros n. revert p. induction n as [|n IH]; intros p; cbn [makedirs_from].
  all: apply stays_reads; intros w HI; cbn [id]; apply stays_at_bind; [|intros _; apply Hlast].
  - by apply stays_at_ret.
  - destruct (exists_ _ _); [by apply stays_ret|]. eapply stays_at_try with (P' := os_only); [by apply IH| |by intros e ->].
    intros e He _. apply stays_get. intros w' HI'. case_bool_decide; [by apply stays_ret|by apply stays_raise].
Qed.
(** A write that returns has put the content there and changed nothing else. *)
Lemma along_write_file p data (Q : res unit → disk → Prop) w : allows_write p → I (dk_tree w) →
  (∀ w', dk_tree w' = <[realpath (dk_tree w) p := NFile data]> (dk_tree w) → I (dk_tree w') → Q (Ret tt) w') →
  (∀ w', I (dk_tree w') → Q (Raise OSError) w') → along (write_file io p data) I Q w.
Proof.
  intros Hw HI H1 H2. unfold write_file. apply along_bind, along_reads. cbn [id].
  assert (∀ e, along (fail e) I Q w) as Hfail by (intros e; apply along_fail; intros w' Hw'; apply H2; by rewrite Hw').
  destruct (dk_tree w !! realpath (dk_tree w) p) as [[| |to]|] eqn:Hp; [apply Hfail| |apply Hfail|].
  all: case_bool_decide as Hd; [|apply Hfail].
  all: assert (∀ data, I (<[realpath (dk_tree w) p := NFile data]> (dk_tree w))) as Hall by (intros d; apply Hw; eauto).
  all: apply along_bind, along_tree_op; [by intros w' Hw'; apply H2; rewrite Hw'| |apply Hall].
  all: intros w' Hw'; apply along_tree_op; rewrite ?Hw', ?insert_insert_eq;
    [intros w2 Hw2; apply H2; rewrite Hw2; apply Hall|intros w2 Hw2; apply H1; [done|rewrite Hw2; apply Hall]|apply Hall].
Qed.
Lemma stays_write_file p data : allows_write p → stays os_only I (write_file io p data).
Proof.
  intros Hw. unfold write_file. apply stays_reads. intros w HI. cbn [id].
  destruct (dk_tree w !! realpath (dk_tree w) p) as [[| |to]|] eqn:Hp; [by apply stays_fail| |by apply stays_fail|].
  all: case_bool_decide as Hd; [|by apply stays_fail].
  all: assert (∀ data, I (<[realpath (dk_tree w) p := NFile data]> (dk_tree w))) as Hall by (intros d; apply Hw; eauto).
  all: apply along_bind, along_tree_op; [by intros w' ->| |apply Hall].
  all: intros w' Hw'; apply stays_at_op; rewrite Hw', ?insert_insert_eq; apply Hall.
Qed.
Lemma stays_copyfile src dst : allows_write dst → stays os_only I (copyfile io src dst).
Proof.
  intros Hw. unfold copyfile. apply stays_reads. intros w HI. cbn [id].
  destruct (_ !! _) as [[]|]; [by apply stays_fail| |by apply stays_fail..].
  case_bool_decide; [by apply stays_fail|by apply stays_write_file].
Qed.
Lemma stays_remove_entry e : allows_delete e → stays os_only I (remove_entry io e).
Proof.
  intros Hd. unfold remove_entry. apply stays_reads. intros w HI. cbn [id]. case_bool_decide; [by apply stays_fail|].
  destruct (dk_tree w !! e) as [nd|] eqn:He; [|by apply stays_fail].
  assert (nd ≠ NDir ∨ children (dk_tree w) e = [] → stays_at os_only I (op io (delete e)) w) as Hop.
  { intros Hor. apply stays_at_op; [done|]. by eapply Hd. }
  destruct nd; [case_bool_decide; [by apply Hop; right|by apply stays_fail]|by apply Hop; left..].
Qed.
Lemma stays_at_rmtree ignore p w : I (dk_tree w) →
  (∀ e, dk_tree w !! entry (dk_tree w) p = Some NDir → entry (dk_tree w) p `prefix_of` e → allows_delete e) →
  stays_at (λ e, ignore = false ∧ os_only e) I (rmtree io ignore p) w.
Proof.
  intros HI Hd. unfold rmtree. apply stays_at_reads. cbn [id].
  assert (∀ m : PyM disk unit, stays os_only I m →
    stays (λ e, ignore = false ∧ os_only e) I (if ignore then try_except os_error m (λ _, mret tt) else m)) as Hq.
  { intros m Hm. destruct ignore; [eapply stays_try; [exact Hm|intros; apply stays_ret|by intros e ->]|].
    intros w' HI'. by eapply stays_at_weaken; [by apply Hm|]. }
  destruct (dk_tree w !! entry (dk_tree w) p) as [[]|] eqn:He; [|by apply Hq; [by apply stays_fail|]..].
  apply stays_for_each; [|done]. intros e Hin. apply Hq, stays_remove_entry, Hd; [done..|].
  unfold below in Hin. rewrite merge_sort_Permutation in Hin. by apply list_elem_of_filter in Hin as [? _].
Qed.
End Operations.

(** A path is shorter than the tree is large. *)
Lemma depth_bound t p : wf t → is_Some (t !! p) → (length p < base.size t)%nat.
Proof.
  intros Hwf Hp. set (l := (λ n, take n p) <$> seq 0 (S (length p))).
  assert (NoDup l) as Hnd.
  { apply NoDup_fmap_2_strong; [|apply NoDup_seq]. intros i j Hi%elem_of_seq Hj%elem_of_seq Heq%(f_equal length).
    rewrite !length_take in Heq. lia. }
  assert (list_to_set (C := gset path) l ⊆ dom t) as Hsub.
  { intros q (n & -> & Hn)%elem_of_list_to_set%list_elem_of_fmap. apply elem_of_dom. rewrite <-(take_drop n p) in Hp.
    destruct (decide (drop n p = [])) as [Hd|Hd]; [by rewrite Hd, app_nil_r in Hp|]. by rewrite (wf_above t _ _ Hwf Hp Hd). }
  apply subseteq_size in Hsub. rewrite size_list_to_set, size_dom in Hsub by done.
  unfold l in Hsub. rewrite length_fmap, length_seq in Hsub. lia.
Qed.
Lemma within_prefix p root : _within p root = true → root `prefix_of` p.
Proof. unfold _within. rewrite orb_true_iff, andb_true_iff, !bool_decide_eq_true. by intros [->|[_ ?]]. Qed.
Lemma prefix_within p root : root ≠ [] → root `prefix_of` p → _within p root = true.
Proof. intros Hr Hp. unfold _within. rewrite (bool_decide_eq_false_2 (root = [])), (bool_decide_eq_true_2 (_ `prefix_of` _)) by done. apply orb_true_r. Qed.
Lemma exists_entry t p : exists_ t p = true → is_Some (t !! entry t p).
Proof.
  intros He. apply not_eq_None_Some. intros Hn. unfold exists_, isdir, isfile in He.
  assert (realpath t p = entry t p) as Hr by (apply realpath_entry; intros to; by rewrite Hn). by rewrite Hr, Hn in He.
Qed.
Lemma isdir_spec t p : isdir t p = true ↔ t !! realpath t p = Some NDir.
Proof. unfold isdir. destruct (t !! realpath t p) as [[]|]; done. Qed.
Lemma islink_false t p : islink t p = false ↔ no_link t (entry t p).
Proof. unfold islink, no_link. destruct (t !! entry t p) as [[]|]; split; naive_solver. Qed.
Lemma insert_same_links t e nd : no_link t e → (∀ to, nd ≠ NLink to) → same_links (<[e := nd]> t) t.
Proof.
  intros Hn Hnd p to. destruct (decide (p = e)) as [->|Hp].
  - rewrite lookup_insert_eq. split; [intros [= Hx]; by apply Hnd in Hx|intros Hx; by apply Hn in Hx].
  - by rewrite lookup_insert_ne.
Qed.
#[global] Opaque realpath.
