(* ===== verification/FactoryReset.v ===== *)
(** [app/factory_reset.py]: the two confirmations, the dated backup, the deletion, the
    marker, and the removal of the backup after a claimed boot, on the file tree of
    [FileTree].  Operations take effect at once and in the order of the code: what is said of every
    moment holds of a process that is stopped at any moment.  The copies are not synced before the
    originals are unlinked, so nothing is said of what a file system keeps that loses power before it has
    written them. *)
From S2P Require Import Prelude Crash PyValue PyText FileTree.

(** ** Layout *)

Definition PIBUDDYCAM_DIRNAME : pystr := u "pibuddycam".
Definition CONFIG_DIRNAME : pystr := u "config".
Definition BACKUPS_DIRNAME : pystr := u "backups".
Definition SDCARD_DIRNAME : pystr := u "sdcard".
Definition TIMELAPSE_DIRNAME : pystr := u "timelapse".
Definition DEVICE_TOML_NAME : pystr := u "device.toml".
Definition SECRETS_TOML_NAME : pystr := u "secrets.toml".
Definition STATE_JSON_NAME : pystr := u "state.json".
Definition PROVISIONING_JSON_NAME : pystr := u "provisioning.json".
Definition PENDING_DELETION_NAME : pystr := u "pending-deletion.json".
Definition BACKUP_PREFIX : pystr := u "factory-reset-".

(** A configured root: no string or an empty one, a relative path, an absolute one. *)
Inductive root_value := NotConfigured | Relative | Absolute (p : path).
Record settings := {
  data_root : root_value;
  durable_root : root_value;
  prusa_cam_dir : path;
  config_dir : path;
  backups_dir : path;
  timelapse_dir : path;
}.
(** The constructor with its defaults; [None] is an argument that was not given. *)
Definition layout (data durable : root_value) (prusa config backups timelapse : option path) : settings :=
  let base := match data with Absolute p => p | _ => [] end in
  let cam := default (base ++ [PIBUDDYCAM_DIRNAME]) prusa in
  {| data_root := data; durable_root := durable; prusa_cam_dir := cam;
     config_dir := default (cam ++ [CONFIG_DIRNAME]) config;
     backups_dir := default (cam ++ [BACKUPS_DIRNAME]) backups;
     timelapse_dir := default (base ++ [SDCARD_DIRNAME; TIMELAPSE_DIRNAME]) timelapse |}.
Definition device_toml (s : settings) : path := config_dir s ++ [DEVICE_TOML_NAME].
Definition secrets_toml (s : settings) : path := config_dir s ++ [SECRETS_TOML_NAME].
Definition state_json (s : settings) : path := prusa_cam_dir s ++ [STATE_JSON_NAME].
Definition provisioning_json (s : settings) : path := prusa_cam_dir s ++ [PROVISIONING_JSON_NAME].
Definition pending_deletion_path (s : settings) : path := prusa_cam_dir s ++ [PENDING_DELETION_NAME].
Definition temporary (s : settings) : path := prusa_cam_dir s ++ [PENDING_DELETION_NAME ++ u ".tmp"].

(** ** Reports and the object *)

Record FactoryResetReport := {
  ok : bool;
  reason : pystr;
  backup_path : path;
  deleted : list path;
  deleted_dirs : list path;
  file_count : Z;
  byte_count : Z;
  timestamp : pystr;
  marker_path : path;
}.
Record FinalizeReport := {
  fin_ok : bool;
  fin_deleted : bool;
  fin_reason : pystr;
  fin_backup : pyval;
  fin_timestamp : pyval;
}.
(** The fields of the object that the calls change; [minted] counts the tokens drawn. *)
Record FactoryReset := {
  _token : pystr;
  _begun : bool;
  _confirmed : bool;
  _reason : pystr;
  _last_report : option FactoryResetReport;
  minted : nat;
}.
Definition fresh_reset : FactoryReset :=
  {| _token := []; _begun := false; _confirmed := false; _reason := []; _last_report := None; minted := 0 |}.

Definition empty_report (ok : bool) (reason timestamp : pystr) : FactoryResetReport :=
  {| ok := ok; reason := reason; backup_path := []; deleted := []; deleted_dirs := []; file_count := 0;
     byte_count := 0; timestamp := timestamp; marker_path := [] |}.
Definition _refuse (reason timestamp : pystr) : FactoryResetReport := empty_report false reason timestamp.
Definition _store (o : FactoryReset) (r : FactoryResetReport) : FactoryReset * FactoryResetReport :=
  (o{{_last_report := Some r}}, r).

(** [_ResetError(message)]: the message is kept where an [OSError] keeps its text. *)
Definition reset_error {A} (message : pystr) : PyM disk A := λ w, (Raise OtherError, set_errno message w).
(** [try: m except OSError as exc: raise _ResetError(prefix + strerror)]. *)
Definition or_reset_error {A} (prefix : string) (m : PyM disk A) : PyM disk A :=
  try_except os_error m (λ _, w ← get; reset_error (u prefix ++ dk_errno w)).
(** [try: m except _ResetError as exc: h (str(exc)) else: k]. *)
Definition attempt {A B} (m : PyM disk A) (h : pystr → PyM disk B) (k : A → PyM disk B) : PyM disk B := λ w,
  match m w with
  | (Ret a, w') => k a w'
  | (Raise OtherError, w') => h (dk_errno w') w'
  | (Raise e, w') => (Raise e, w')
  end.

Section FactoryReset.
(** The configuration; what the operations do; the clock by the number of operations so
    far ([strftime] and [isoformat]); the token factory; [json]; the working directory. *)
Context (s : settings) (io : nat → option pystr) (stamp iso : nat → pystr) (mint : nat → pystr)
  (dumps : list (pyval * pyval) → bytes) (loads : bytes → option pyval) (cwd : path).

(** ** Confirmation *)

Definition begin_ (reason : pyval) (o : FactoryReset) : FactoryReset * pystr :=
  (o{{_token := mint (minted o)}}{{minted := S (minted o)}}{{_begun := true}}{{_confirmed := false}}
     {{_reason := default [] (as_str reason)}}, mint (minted o)).
Definition confirm (token : pyval) (o : FactoryReset) : FactoryReset * bool :=
  match as_str token with
  | Some ((_ :: _) as t) =>
      if _begun o && bool_decide (t = _token o) then (o{{_confirmed := true}}, true) else (o, false)
  | _ => (o, false)
  end.

(** ** Safety *)

Definition real_root (t : tree) : path :=
  match data_root s with Absolute p => realpath t p | _ => [] end.
Definition _safety_reason (t : tree) : option pystr :=
  match data_root s with
  | NotConfigured => Some (u "data root is not configured")
  | Relative => Some (u "data root must be an absolute path")
  | Absolute data =>
      match durable_root s with
      | NotConfigured => Some (u "durable root is not configured")
      | Relative => Some (u "durable root must be an absolute path")
      | Absolute durable =>
          if negb (_within (realpath t data) (realpath t durable)) then Some (u "data root is outside the durable PERSIST root")
          else if negb (isdir t data) then Some (u "data root is not a directory")
          else if negb (isdir t (prusa_cam_dir s)) then Some (u "durable structure is missing")
          else if negb (_within (realpath t (prusa_cam_dir s)) (realpath t data)) then Some (u "durable structure escapes the data root")
          else None
      end
  end.

(** ** Backup *)

Definition candidate_name (base : pystr) (n : nat) : pystr :=
  match n with O => base | _ => base ++ u "-" ++ str_of_int (Z.of_nat (S n)) end.
Definition candidate (base : pystr) (n : nat) : path := backups_dir s ++ [candidate_name base n].
Fixpoint unique_from (fuel n : nat) (t : tree) (base : pystr) : path :=
  match fuel with
  | O => candidate base n
  | S fuel => if exists_ t (candidate base n) then unique_from fuel (S n) t base else candidate base n
  end.
Definition _unique_backup_path (t : tree) (timestamp : pystr) : path :=
  unique_from (S (base.size t)) 0 t (BACKUP_PREFIX ++ timestamp).

Definition _cleanup_backup (backup : path) : PyM disk unit := rmtree io true backup.

Definition _copy_file_safely (source destination : path) : PyM disk unit :=
  t ← reads id;
  match t !! entry t source with
  | Some (NFile _) =>
      if negb (_within (realpath t source) (real_root t)) then mret tt
      else or_reset_error "could not back up durable data: "
             (_ ← makedirs io (dirname destination); copyfile io source destination)
  | _ => mret tt
  end.
(** One directory of the walk, then the directories in it. *)
Definition copy_one (root source target : path) (name : pystr) : PyM disk unit :=
  t ← reads id;
  if islink t (source ++ [name]) then mret tt
  else if negb (_within (realpath t (source ++ [name])) root) then mret tt
  else copyfile io (source ++ [name]) (target ++ [name]).
Fixpoint copy_walk (depth : nat) (root source target : path) : PyM disk unit :=
  t ← reads id;
  if negb (_within (realpath t source) root) then mret tt
  else
    _ ← makedirs io target;
    _ ← for_each (copy_one root source target) (others t (realpath t source));
    match depth with
    | O => mret tt
    | S depth => for_each (λ name, copy_walk depth root (source ++ [name]) (target ++ [name])) (subdirs t (realpath t source))
    end.
Definition _copy_tree_safely (source_dir destination_dir : path) : PyM disk unit :=
  t ← reads id;
  if negb (isdir t source_dir) || islink t source_dir then mret tt
  else or_reset_error "could not back up the timelapse store: "
         (copy_walk (walk_depth t) (real_root t) source_dir destination_dir).
Definition backup_files (backup : path) : list (path * path) :=
  [(device_toml s, backup ++ [CONFIG_DIRNAME; DEVICE_TOML_NAME]);
   (secrets_toml s, backup ++ [CONFIG_DIRNAME; SECRETS_TOML_NAME]);
   (state_json s, backup ++ [STATE_JSON_NAME]);
   (provisioning_json s, backup ++ [PROVISIONING_JSON_NAME])].
Definition _create_backup (timestamp : pystr) (include_timelapse : bool) : PyM disk path :=
  t ← reads id;
  let backup := _unique_backup_path t timestamp in
  _ ← try_except os_error (makedirs io (backup ++ [CONFIG_DIRNAME]))
        (λ _, w ← get; _ ← _cleanup_backup backup; reset_error (u "could not create the backup directory: " ++ dk_errno w));
  attempt
    (_ ← for_each (λ '(source, destination), _copy_file_safely source destination) (backup_files backup);
     if include_timelapse : bool then _copy_tree_safely (timelapse_dir s) (backup ++ [TIMELAPSE_DIRNAME]) else mret tt)
    (λ message, _ ← _cleanup_backup backup; reset_error message)
    (λ _, mret backup).

(** ** Deletion *)

Definition walk_root (t : tree) (root : path) : list (path * list pystr) :=
  if isdir t root && negb (islink t root) then walk (walk_depth t) t (real_root t) root else [].
Definition _iter_files (t : tree) (root : path) : list path :=
  concat (map (λ '(dir, names), map (λ name, dir ++ [name]) names) (walk_root t root)).
Definition _iter_dirs_bottom_up (t : tree) (root : path) : list path :=
  merge_sort deeper (filter (λ d, d ≠ root) (map fst (walk_root t root))).

(** [st_size]. *)
Definition node_size (nd : node) : Z :=
  match nd with NDir => 0 | NFile data => Z.of_nat (length data) | NLink to => Z.of_nat (length (path_str to)) end.
Definition _delete_file (p : path) : PyM disk (option Z) :=
  t ← reads id;
  match t !! entry t p with
  | None => mret None
  | Some nd =>
      let checked := if islink t p then realpath t (dirname p) else realpath t p in
      if negb (_within checked (real_root t)) then reset_error (u "refusing to delete outside the data root")
      else _ ← or_reset_error "could not delete durable data: " (remove io p); mret (Some (node_size nd))
  end.
Definition _remove_empty_dir (p : path) : PyM disk bool :=
  t ← reads id;
  if negb (_within (realpath t p) (real_root t)) then mret false
  else try_except os_error (_ ← rmdir io p; mret true) (λ _, mret false).

Fixpoint delete_files (files : list path) : PyM disk (list path * Z * Z) :=
  match files with
  | [] => mret ([], 0, 0)
  | p :: files =>
      size ← _delete_file p;
      '(gone, count, total) ← delete_files files;
      mret (match size : option Z with Some z => (p :: gone, 1 + count, z + total) | None => (gone, count, total) end)
  end.
Fixpoint remove_dirs (dirs : list path) : PyM disk (list path) :=
  match dirs with
  | [] => mret []
  | d :: dirs =>
      done ← _remove_empty_dir d;
      gone ← remove_dirs dirs;
      mret (if (done : bool) then d :: gone else gone)
  end.
Definition delete_list (t : tree) (include_timelapse : bool) : list path :=
  merge_sort path_le (remove_dups (
    _iter_files t (config_dir s)
    ++ List.filter (lexists t) [state_json s; provisioning_json s]
    ++ if include_timelapse then _iter_files t (timelapse_dir s) else [])).
Definition _delete_targets (include_timelapse : bool) : PyM disk (list path * list path * Z * Z) :=
  t ← reads id;
  '(gone, count, total) ← delete_files (delete_list t include_timelapse);
  t ← reads id;
  dirs ← remove_dirs (_iter_dirs_bottom_up t (config_dir s));
  t ← reads id;
  more ← (if include_timelapse : bool then remove_dirs (_iter_dirs_bottom_up t (timelapse_dir s)) else mret []);
  mret (merge_sort path_le gone, merge_sort path_le (dirs ++ more), count, total).

(** ** The marker *)

Definition marker_payload (backup : path) (created timestamp : pystr) : list (pyval * pyval) :=
  [(VStr (u "backup_path"), VStr (path_str backup)); (VStr (u "created_at"), VStr created);
   (VStr (u "timestamp"), VStr timestamp)].
(** [None] is success. *)
Definition _write_pending_deletion (backup : path) (timestamp : pystr) : PyM disk (option pystr) :=
  w ← get;
  try_except os_error
    (_ ← write_file io (temporary s) (dumps (marker_payload backup (iso (dk_ops w)) timestamp) ++ [10]);
     _ ← replace io (temporary s) (pending_deletion_path s);
     mret None)
    (λ _, w ← get;
          let message := u "pending deletion marker could not be written: " ++ dk_errno w in
          _ ← try_except os_error (remove io (temporary s)) (λ _, mret tt);
          mret (Some message)).
Definition _remove_marker : PyM disk unit := try_except os_error (remove io (pending_deletion_path s)) (λ _, mret tt).
Definition pending_deletion (t : tree) : option (list (pyval * pyval)) :=
  match t !! realpath t (pending_deletion_path s) with
  | Some (NFile data) => match loads data with Some (VDict d) => Some d | _ => None end
  | _ => None
  end.

(** ** The reset *)

Definition perform (include_timelapse : bool) : PyM disk FactoryResetReport :=
  t ← reads id;
  match _safety_reason t with
  | Some why => mret (_refuse why [])
  | None =>
      w ← get;
      let timestamp := stamp (dk_ops w) in
      attempt (_create_backup timestamp include_timelapse) (λ why, mret (_refuse why timestamp)) (λ backup,
      attempt (_delete_targets include_timelapse)
        (λ why, mret ((empty_report false why timestamp){{backup_path := backup}})) (λ '(gone, dirs, count, total),
      marker ← _write_pending_deletion backup timestamp;
      let report := {| ok := true; reason := u "factory reset complete; backup retained until a claimed boot";
                       backup_path := backup; deleted := gone; deleted_dirs := dirs; file_count := count;
                       byte_count := total; timestamp := timestamp; marker_path := pending_deletion_path s |} in
      mret match marker with
           | None => report
           | Some why => report{{ok := false}}{{reason := why}}{{marker_path := [] }}
           end))
  end.
(** The confirmation is consumed before anything is done. *)
Definition consumed (o : FactoryReset) : FactoryReset := o{{_begun := false}}{{_confirmed := false}}{{_token := [] }}.
Definition execute (token : pyval) (include_timelapse : bool) (o : FactoryReset) : PyM disk (FactoryReset * FactoryResetReport) :=
  if negb (_begun o) then mret (_store o (_refuse (u "factory reset requires two-step confirmation: begin() first") []))
  else if negb (_confirmed o) then
    mret (_store o (_refuse (u "factory reset requires the second confirmation: confirm(token) first") []))
  else if negb (bool_decide (as_str token = Some (_token o))) then
    mret (_store o (_refuse (u "reset token does not match the confirmed token") []))
  else
    report ← perform include_timelapse;
    mret (_store (consumed o) report).

(** ** After a claimed boot *)

Definition finalized (ok deleted : bool) (why : string) (backup timestamp : pyval) : FinalizeReport :=
  {| fin_ok := ok; fin_deleted := deleted; fin_reason := u why; fin_backup := backup; fin_timestamp := timestamp |}.
Definition finalize_after_claimed_boot (claimed : bool) : PyM disk FinalizeReport :=
  t ← reads id;
  match _safety_reason t with
  | Some why => mret ((finalized false false "" (VStr []) (VStr [])){{fin_reason := why}})
  | None =>
      match pending_deletion t with
      | None => mret (finalized true false "no pending deletion" (VStr []) (VStr []))
      | Some marker =>
          let timestamp := if existsb (λ kv, eq_str kv.1 (u "timestamp")) marker then get_key (u "timestamp") marker else VStr [] in
          match get_key (u "backup_path") marker with
          | VStr ((_ :: _) as text) =>
              let backup := parse_path t cwd text in
              if islink t backup then
                mret (finalized false false "refusing to delete a backup that is a symbolic link" (VStr text) timestamp)
              else if negb (_within (realpath t backup) (real_root t)) || negb (_within (realpath t backup) (realpath t (backups_dir s))) then
                mret (finalized false false "refusing to delete a backup outside the data root" (VStr text) timestamp)
              else if negb claimed then
                mret (finalized true false "backup retained until a successful claimed boot" (VStr text) timestamp)
              else
                let done : PyM disk FinalizeReport :=
                  _ ← _remove_marker; mret (finalized true true "backup deleted after a successful claimed boot" (VStr text) timestamp) in
                if exists_ t backup then
                  try_except os_error (_ ← rmtree io false backup; mret None) (λ _, w ← get; mret (Some (dk_errno w))) ≫= λ failed,
                  match failed with
                  | Some e => mret ((finalized false false "" (VStr text) timestamp){{fin_reason := u "backup could not be deleted: " ++ e}})
                  | None => done
                  end
                else done
          | _ => mret (finalized false false "pending deletion marker is malformed" (VStr []) timestamp)
          end
      end
  end.
End FactoryReset.

(** ** What no call does *)

Section Outside.
Context (s : settings) (io : nat → option pystr) (stamp iso : nat → pystr)
  (dumps : list (pyval * pyval) → bytes).

(** While the backup is written the disk only grows, by directories and files. *)
Definition grown (t0 t : tree) : Prop := wf t ∧ t0 ⊆ t ∧ same_links t0 t.

Lemma grown_refl t : wf t → grown t t.
Proof. intros Hwf. split; [done|split; [done|by intros]]. Qed.
Lemma grown_keep t0 t x nd : grown t0 t → t0 !! x = Some nd → t !! x = Some nd.
Proof. intros (_ & Hs & _) Hx. exact (lookup_weaken _ _ _ _ Hx Hs). Qed.
Lemma grown_mkdir t0 : allows_mkdir (grown t0).
Proof.
  intros t d name (Hwf & Hsub & Hl) Hd Hn. split; [|split].
  - by apply wf_insert; auto.
  - etrans; [exact Hsub|]. by apply insert_subseteq.
  - intros p to. rewrite (Hl p to). symmetry. apply insert_same_links; [by intros l; rewrite Hn|done].
Qed.
Lemma grown_write t0 p : t0 !! realpath t0 p = None → p ≠ [] → allows_write (grown t0) p.
Proof.
  intros Hn Hp t data (Hwf & Hsub & Hl) Hd Hor. rewrite <-(realpath_same_links t0 t p) in * by done.
  set (real := realpath t0 p) in *. assert (no_link t real) as Hnl by (intros to; destruct Hor as [->|[old ->]]; done).
  destruct real as [|name real _] using rev_ind; [destruct Hwf as [Hr _]; rewrite Hr in Hor; naive_solver|].
  rewrite dirname_snoc in Hd. split; [|split].
  - apply wf_insert; [done..|]. left. destruct Hor as [->|[old ->]]; done.
  - apply insert_subseteq_r; [done|exact Hsub].
  - intros q to. rewrite (Hl q to). symmetry. by apply insert_same_links.
Qed.
Lemma grown_delete t0 e : t0 !! e = None → allows_delete (grown t0) e.
Proof.
  intros Hn t nd (Hwf & Hsub & Hl) He Hnd Hor. split; [|split].
  - apply wf_delete; [done..|]. rewrite Hnd. destruct Hor as [Hnd'|Hc]; [left; congruence|by right].
  - rewrite <-(delete_id t0 e) by done. by apply delete_mono.
  - intros q to. rewrite (Hl q to), lookup_delete_Some. split; [|by intros [_ ?]]. intros Hq. split; [|done].
    intros ->. apply Hl in Hq. by rewrite Hn in Hq.
Qed.

(** *** The backup path is new *)

Lemma candidate_inj base i j : candidate_name base i = candidate_name base j → i = j.
Proof.
  unfold candidate_name. intros H.
  destruct i as [|i], j as [|j]; [done|exfalso|exfalso|].
  - rewrite <-(app_nil_r base) in H at 1. by apply app_inv_head in H.
  - symmetry in H. rewrite <-(app_nil_r base) in H at 1. by apply app_inv_head in H.
  - apply app_inv_head, app_inv_head, (f_equal decimal) in H. rewrite !decimal_str_of_int in H by lia. lia.
Qed.
Lemma unique_from_spec fuel n t base :
  (∃ i, unique_from s fuel n t base = candidate s base i) ∧
  (exists_ t (unique_from s fuel n t base) = false ∨ ∀ i, (n ≤ i < n + fuel)%nat → exists_ t (candidate s base i) = true).
Proof.
  revert n. induction fuel as [|fuel IH]; intros n; cbn [unique_from].
  - split; [by exists n|]. right. intros i Hi. lia.
  - destruct (exists_ t (candidate s base n)) eqn:He; [|split; [by exists n|by left]].
    destruct (IH (S n)) as [Hi [Hf|Hall]]; (split; [exact Hi|]); [by left|]. right. intros i Hle.
    destruct (decide (i = n)) as [->|]; [done|]. apply Hall. lia.
Qed.
Lemma unique_backup_new t ts : let b := _unique_backup_path s t ts in
  (∃ i, b = candidate s (BACKUP_PREFIX ++ ts) i) ∧ exists_ t b = false.
Proof.
  cbv zeta. unfold _unique_backup_path. set (base := BACKUP_PREFIX ++ ts).
  destruct (unique_from_spec (S (base.size t)) 0 t base) as [Hi [Hf|Hall]]; (split; [exact Hi|]); [done|exfalso].
  destruct (free_name t (λ i, realpath t (backups_dir s) ++ [candidate_name base i])) as (i & Hle & Hn);
    [by intros i j [_ Hij%candidate_inj]%app_inj_tail|].
  pose proof (Hall i ltac:(lia)) as He%exists_entry. unfold candidate in He. rewrite entry_snoc, Hn in He. by destruct He.
Qed.
(** Nothing is below a path that does not exist. *)
Lemma below_new t b l : wf t → exists_ t b = false → l ≠ [] → realpath t (b ++ l) = realpath t b ++ l ∧ t !! (realpath t b ++ l) = None.
Proof.
  intros Hwf Hb Hl. assert (t !! realpath t b ≠ Some NDir) as Hd.
  { intros Hd. unfold exists_, isdir in Hb. by rewrite Hd in Hb. }
  assert (∀ q, q ≠ [] → t !! (realpath t b ++ q) = None) as Hq by (intros q Hq; by apply wf_below).
  split; [|by apply Hq]. apply realpath_app. intros q Hq1 _ to. by rewrite Hq.
Qed.
Lemma new_write t0 b l : wf t0 → exists_ t0 b = false → l ≠ [] → allows_write (grown t0) (b ++ l).
Proof.
  intros Hwf Hb Hl. destruct (below_new t0 b l Hwf Hb Hl) as [Hr Hn]. apply grown_write; [by rewrite Hr|]. by destruct b.
Qed.
Definition reset_only (e : exn) : Prop := e = OtherError.
(** Cleaning up an unfinished backup removes new entries only. *)
Lemma new_cleanup t0 b : wf t0 → exists_ t0 b = false → b ≠ [] → stays reset_only (grown t0) (_cleanup_backup io b).
Proof.
  intros Hwf Hb Hne. unfold _cleanup_backup. intros w Hg. eapply stays_at_weaken; [apply stays_at_rmtree; [done|]|by intros e [? _]].
  revert Hg. generalize (dk_tree w). intros t Hg e Hd [k ->]. apply grown_delete.
  pose proof Hg as (_ & _ & Hl). rewrite (entry_same_links t t0) in * by (intros p to; symmetry; apply Hl).
  assert (no_link t0 (entry t0 b)) as Hnl by (intros to Hto; pose proof (grown_keep _ _ _ _ Hg Hto); congruence).
  pose proof (realpath_entry t0 b Hnl) as Hr. destruct (decide (k = [])) as [->|Hk].
  - rewrite app_nil_r. destruct (t0 !! entry t0 b) as [nd|] eqn:H0; [|done]. pose proof (grown_keep _ _ _ _ Hg H0).
    assert (nd = NDir) as -> by congruence. unfold exists_, isdir in Hb. by rewrite Hr, H0 in Hb.
  - rewrite <-Hr. by apply below_new.
Qed.

Lemma stays_reset_error {A : Type} I message : stays reset_only I (reset_error message : PyM disk A).
Proof. intros w HI. split; [by apply passed_same|done]. Qed.
Lemma stays_or_reset {A : Type} I prefix (m : PyM disk A) : stays os_only I m → stays reset_only I (or_reset_error prefix m).
Proof.
  intros Hm. eapply stays_try; [exact Hm| |by intros e ->]. intros e _ _. apply stays_get. intros w HI. by apply stays_reset_error.
Qed.
Lemma stays_at_attempt {A B : Type} P I (m : PyM disk A) (h : pystr → PyM disk B) k w :
  stays_at reset_only I m w → (∀ message, stays P I (h message)) → (∀ a, stays P I (k a)) → stays_at P I (attempt m h k) w.
Proof.
  unfold stays_at, along, attempt. intros [Hp [HI He]] Hh Hk. destruct (m w) as [[a|e] w1]; cbn in *.
  - destruct (Hk a w1 HI) as [Hp2 HQ]. split; [by eapply passed_trans|done].
  - rewrite He. destruct (Hh (dk_errno w1) w1 HI) as [Hp2 HQ]. split; [by eapply passed_trans|done].
Qed.

Lemma grown_copy_file t0 b l source : wf t0 → exists_ t0 b = false → l ≠ [] → stays reset_only (grown t0) (_copy_file_safely s io source (b ++ l)).
Proof.
  intros Hwf Hb Hl. unfold _copy_file_safely. apply stays_reads. intros w HI. cbn [id].
  destruct (dk_tree w !! _) as [[]|]; try by apply stays_ret.
  destruct (negb _); [by apply stays_ret|]. apply stays_or_reset; [|done]. apply stays_bind.
  - apply stays_makedirs, grown_mkdir.
  - intros _. by apply stays_copyfile, new_write.
Qed.
Lemma grown_copy_walk t0 b l depth root source : wf t0 → exists_ t0 b = false → l ≠ [] →
  stays os_only (grown t0) (copy_walk io depth root source (b ++ l)).
Proof.
  intros Hwf Hb. revert l source. induction depth as [|depth IH]; intros l source Hl; cbn [copy_walk].
  all: apply stays_reads; intros w HI; cbn [id]; destruct (negb _); [by apply stays_ret|]; apply stays_at_bind; [by apply stays_makedirs; [apply grown_mkdir|]|].
  all: intros _; apply stays_bind; [apply stays_for_each; intros name _|intros _].
  1,3: unfold copy_one; apply stays_reads; intros w2 HI2; cbn [id]; destruct (islink _ _); [by apply stays_ret|];
    destruct (negb _); [by apply stays_ret|]; rewrite <-app_assoc; apply stays_copyfile; [|done]; apply new_write; [done..|by destruct l].
  - apply stays_ret.
  - apply stays_for_each. intros name _. rewrite <-app_assoc. apply IH. by destruct l.
Qed.
Lemma grown_create_backup timestamp include w : wf (dk_tree w) →
  stays_at reset_only (grown (dk_tree w)) (_create_backup s io timestamp include) w.
Proof.
  intros Hwf. pose proof (unique_backup_new (dk_tree w) timestamp) as [[i Hi] Hnew].
  unfold _create_backup. apply stays_at_reads. cbn [id]. set (b := _unique_backup_path s (dk_tree w) timestamp) in *. cbv zeta.
  assert (b ≠ []) as Hb by (rewrite Hi; unfold candidate; by destruct (backups_dir s)).
  pose proof (new_cleanup _ b Hwf Hnew Hb) as Hclean.
  assert (∀ message, stays reset_only (grown (dk_tree w)) (_ ← _cleanup_backup io b; reset_error message : PyM disk unit)) as Habort
    by (intros message; apply stays_bind; [done|intros _; apply stays_reset_error]).
  apply stays_at_bind.
  - eapply stays_at_try; [by apply stays_makedirs; [apply grown_mkdir|apply grown_refl]| |by intros e ->].
    intros e _ _. apply stays_get. intros w1 H1. by apply Habort.
  - intros _ w1 H1. apply stays_at_attempt; [|intros message; apply stays_bind; [done|intros _; apply stays_reset_error]|intros; apply stays_ret].
    apply stays_bind; [apply stays_for_each|intros _; destruct include|done].
    + intros [source destination] Hin. unfold backup_files in Hin. rewrite !elem_of_cons, elem_of_nil in Hin.
      destruct Hin as [[= -> ->]|[[= -> ->]|[[= -> ->]|[[= -> ->]|[]]]]]; by apply grown_copy_file.
    + unfold _copy_tree_safely. apply stays_reads. intros w2 H2. cbn [id]. destruct (_ || _); [by apply stays_ret|].
      apply stays_or_reset; [|done]. by apply grown_copy_walk.
    + apply stays_ret.
Qed.

(** *** Deletions stay inside

    [r] is the real data root when the history begins.  Whatever links are deleted later, the
    root resolves to a place in [r], and what is outside [r] is as it was. *)
Definition contained (cam : bool) (r : path) (t0 t : tree) : Prop :=
  wf t ∧ (∀ x nd, ¬ r `prefix_of` x → t0 !! x = Some nd → t !! x = Some nd) ∧
  r `prefix_of` real_root s t ∧ no_link t (entry t (temporary s)) ∧
  (cam = true → r `prefix_of` realpath t (prusa_cam_dir s)).

Lemma prefix_delete r t e p : wf t → r `prefix_of` e → r `prefix_of` realpath t p → r `prefix_of` realpath (delete e t) p.
Proof. intros Hwf He Hp. destruct (realpath_delete t e p Hwf) as [->|H]; [exact Hp|]. etrans; [exact He|exact H]. Qed.
Lemma no_link_delete t e p : wf (delete e t) → wf t → no_link t (entry t p) → no_link (delete e t) (entry (delete e t) p).
Proof.
  intros Hwf' Hwf Hn. destruct p as [|name p _] using rev_ind.
  { intros to Hto. destruct Hwf' as [Hr _]. rewrite entry_nil in Hto. congruence. }
  rewrite entry_snoc in Hn |- *. destruct (realpath_delete t e p Hwf) as [->|[k Hk]].
  - intros to [_ Hto]%lookup_delete_Some. by apply Hn in Hto.
  - intros to. rewrite Hk, <-app_assoc. rewrite (wf_below _ e); [done|done|by rewrite lookup_delete_eq|by destruct k].
Qed.
Lemma contained_delete cam r t0 e : r `prefix_of` e → allows_delete (contained cam r t0) e.
Proof.
  intros Hre t nd (Hwf & Hk & Hr & Hn & Hc) He Hnd Hor.
  assert (wf (delete e t)) as Hwf'.
  { apply wf_delete; [done..|]. rewrite Hnd. destruct Hor as [Hnd'|?]; [left; congruence|by right]. }
  split; [done|split; [|split; [|split]]].
  - intros x nd' Hx H0. rewrite lookup_delete_ne by by intros ->. by apply Hk.
  - unfold real_root in *. destruct (data_root s); [done..|]. by apply prefix_delete.
  - by apply no_link_delete.
  - intros Hcam. apply prefix_delete; [done|done|by apply Hc].
Qed.
Lemma contained_grown cam r t0 t1 t : contained cam r t0 t1 → grown t1 t → contained cam r t0 t.
Proof.
  intros (Hwf & Hk & Hr & Hn & Hc) Hg. pose proof Hg as (Hwf' & _ & Hl).
  assert (∀ p, realpath t p = realpath t1 p) as Hp by (intros p; symmetry; by apply realpath_same_links).
  split; [done|split; [|split; [|split]]].
  - intros x nd Hx H0. eapply grown_keep; [exact Hg|]. by apply Hk.
  - unfold real_root in *. destruct (data_root s); [done..|]. by rewrite Hp.
  - rewrite <-(entry_same_links t1 t) by done. intros to Hto%Hl. by apply Hn in Hto.
  - intros Hcam. rewrite Hp. by apply Hc.
Qed.
(** Writing a file at a place inside that is no link. *)
Lemma contained_insert cam r t0 t e data : r `prefix_of` e → contained cam r t0 t → no_link t e →
  wf (<[e := NFile data]> t) → contained cam r t0 (<[e := NFile data]> t).
Proof.
  intros Hre (Hwf & Hk & Hr & Hn & Hc) Hne Hwf'.
  assert (same_links t (<[e := NFile data]> t)) as Hl by (intros p to; symmetry; by apply insert_same_links).
  assert (∀ p, realpath (<[e := NFile data]> t) p = realpath t p) as Hp by (intros p; symmetry; by apply realpath_same_links).
  split; [done|split; [|split; [|split]]].
  - intros x nd' Hx H0. rewrite lookup_insert_ne by by intros ->. by apply Hk.
  - unfold real_root in *. destruct (data_root s); [done..|]. by rewrite Hp.
  - rewrite <-(entry_same_links t) by done. intros to Hto%Hl. by apply Hn in Hto.
  - intros Hcam. rewrite Hp. by apply Hc.
Qed.

Lemma contained_delete_file cam r t0 p : stays reset_only (contained cam r t0) (_delete_file s io p).
Proof.
  unfold _delete_file. apply stays_reads. intros w HI. cbn [id]. destruct (dk_tree w !! _) as [nd|] eqn:Hnd; [|by apply stays_ret].
  destruct (negb _) eqn:Hin; [by apply stays_reset_error|]. apply negb_false_iff, within_prefix in Hin.
  pose proof HI as (_ & _ & Hr & _). apply stays_at_bind; [|intros; apply stays_ret].
  eapply stays_at_try with (P' := os_only); [| |by intros e ->].
  - unfold remove. apply stays_at_reads. cbn [id]. rewrite Hnd.
    assert (nd ≠ NDir → r `prefix_of` entry (dk_tree w) p) as Hp.
    { intros Hne. destruct p as [|name p _] using rev_ind; [destruct HI as [[H0 _] _]; rewrite entry_nil, H0 in Hnd; congruence|].
      destruct (islink _ _) eqn:Hl.
      - rewrite entry_snoc, dirname_snoc in *. etrans; [exact Hr|]. etrans; [exact Hin|]. by exists [name].
      - apply islink_false in Hl. rewrite <-(realpath_entry _ _ Hl). etrans; [exact Hr|exact Hin]. }
    destruct nd; [by apply stays_fail|..]; (apply stays_remove_entry; [|done]; apply contained_delete; by apply Hp).
  - intros e _ _. apply stays_get. intros w' HI'. by apply stays_reset_error.
Qed.
Lemma contained_remove_empty_dir cam r t0 p : stays (λ _, False) (contained cam r t0) (_remove_empty_dir s io p).
Proof.
  unfold _remove_empty_dir. apply stays_reads. intros w HI. cbn [id]. destruct (negb _) eqn:Hin; [by apply stays_ret|].
  apply negb_false_iff, within_prefix in Hin. pose proof HI as (_ & _ & Hr & _).
  eapply stays_at_try with (P' := os_only); [|intros; apply stays_ret|by intros e ->].
  apply stays_at_bind; [|intros; apply stays_ret]. unfold rmdir. apply stays_at_reads. cbn [id].
  destruct (dk_tree w !! entry (dk_tree w) p) as [[]|] eqn:Hnd; [|by apply stays_fail..|].
  all: apply stays_remove_entry; [|done]; apply contained_delete; etrans; [exact Hr|].
  all: assert (no_link (dk_tree w) (entry (dk_tree w) p)) as Hn by (intros to; by rewrite Hnd).
  all: by rewrite <-(realpath_entry _ _ Hn).
Qed.
Lemma contained_delete_targets cam r t0 include : stays reset_only (contained cam r t0) (_delete_targets s io include).
Proof.
  assert (∀ files, stays reset_only (contained cam r t0) (delete_files s io files)) as Hfiles.
  { induction files as [|p files IH]; cbn [delete_files]; [apply stays_ret|]. apply stays_bind; [apply contained_delete_file|].
    intros size. apply stays_bind; [exact IH|]. intros [[gone count] total]. apply stays_ret. }
  assert (∀ dirs, stays reset_only (contained cam r t0) (remove_dirs s io dirs)) as Hdirs.
  { induction dirs as [|d dirs IH]; cbn [remove_dirs]; [apply stays_ret|]. apply stays_bind.
    - intros w HI. eapply stays_at_weaken; [by apply contained_remove_empty_dir|by intros e []].
    - intros done. apply stays_bind; [exact IH|]. intros gone. apply stays_ret. }
  unfold _delete_targets. apply stays_reads. intros w HI. apply stays_at_bind; [by apply Hfiles|]. intros [[gone count] total].
  apply stays_reads. intros w1 H1. apply stays_at_bind; [by apply Hdirs|]. intros dirs. apply stays_reads. intros w2 H2.
  apply stays_at_bind; [destruct include; [by apply Hdirs|by apply stays_ret]|]. intros more. apply stays_ret.
Qed.

(** *** The marker *)

Lemma contained_remove cam r t0 p w : contained cam r t0 (dk_tree w) → r `prefix_of` entry (dk_tree w) p →
  stays_at os_only (contained cam r t0) (remove io p) w.
Proof.
  intros HI Hp. unfold remove. apply stays_at_reads. cbn [id].
  destruct (dk_tree w !! entry (dk_tree w) p) as [[]|]; [by apply stays_fail|..].
  all: apply stays_remove_entry; [by apply contained_delete|done].
Qed.
Lemma entry_in_cam r t0 t name : contained true r t0 t → r `prefix_of` entry t (prusa_cam_dir s ++ [name]).
Proof. intros (_ & _ & _ & _ & Hc). rewrite entry_snoc. apply prefix_app_r. by apply Hc. Qed.
Lemma contained_write_temporary r t0 : allows_write (contained true r t0) (temporary s).
Proof.
  intros t data HI Hd Hor. pose proof (entry_in_cam r t0 t _ HI : r `prefix_of` entry t (temporary s)) as Hin.
  pose proof HI as (Hwf & _ & _ & Hn & _). rewrite (realpath_entry t _ Hn) in *.
  apply contained_insert; [exact Hin|exact HI|exact Hn|]. revert Hd Hor. unfold temporary. rewrite entry_snoc, dirname_snoc.
  intros Hd Hor. apply wf_insert; [exact Hwf|exact Hd|left]. by destruct Hor as [->|[old ->]].
Qed.
Lemma contained_replace r t0 : stays os_only (contained true r t0) (replace io (temporary s) (pending_deletion_path s)).
Proof.
  unfold replace. apply stays_reads. intros w HI. cbn [id]. set (t := dk_tree w) in *.
  set (src := entry t (temporary s)). set (dst := entry t (pending_deletion_path s)).
  pose proof (entry_in_cam r t0 t (PENDING_DELETION_NAME ++ u ".tmp") HI) as Hsrc. change (r `prefix_of` src) in Hsrc.
  pose proof (entry_in_cam r t0 t PENDING_DELETION_NAME HI) as Hdst'. change (r `prefix_of` dst) in Hdst'.
  destruct (t !! src) as [nd|] eqn:Hs; [|by apply stays_fail]. pose proof HI as (Hwf & _ & _ & Hn & _).
  destruct nd as [|data|to]; [by apply stays_fail| |by apply Hn in Hs].
  assert (t !! dst ≠ Some NDir → stays_at os_only (contained true r t0) (if bool_decide (t !! dirname dst = Some NDir)
    then op io (λ t', <[dst := NFile data]> (delete src t')) else fail "No such file or directory") w) as Hmove.
  { intros Hnd. case_bool_decide as Hd; [|by apply stays_fail]. apply stays_at_op; [done|]. fold t.
    assert (src ≠ [] ∧ dst ≠ []) as [Hs0 Hd0] by (unfold src, dst, temporary, pending_deletion_path; rewrite !entry_snoc; by destruct (realpath t _)).
    assert (contained true r t0 (delete src t)) as H1.
    { eapply (contained_delete true r t0 src Hsrc); [exact HI|exact Hs0|exact Hs|by left]. }
    assert (contained true r t0 (delete dst (delete src t))) as H2.
    { destruct (delete src t !! dst) as [nd|] eqn:Hdst; [|by rewrite delete_id].
      eapply (contained_delete true r t0 dst Hdst'); [exact H1|exact Hd0|exact Hdst|left].
      apply lookup_delete_Some in Hdst as [_ Hdst]. congruence. }
    rewrite <-insert_delete_eq. apply contained_insert; [exact Hdst'|exact H2|intros l; by rewrite lookup_delete_eq|].
    assert (delete dst (delete src t) !! dirname dst = Some NDir) as Hd2.
    { rewrite !lookup_delete_ne; [exact Hd|congruence|congruence]. }
    destruct H2 as [Hwf2 _]. apply wf_insert_entry; [exact Hwf2|exact Hd0|exact Hd2|by rewrite lookup_delete_eq]. }
  destruct (t !! dst) as [[]|] eqn:Hdst; [by apply stays_fail|..]; by apply Hmove.
Qed.
Lemma contained_marker r t0 backup ts : stays (λ _, False) (contained true r t0) (_write_pending_deletion s io iso dumps backup ts).
Proof.
  unfold _write_pending_deletion. apply stays_get. intros w HI. eapply stays_at_try with (P' := os_only); [| |by intros e ->].
  - apply stays_at_bind; [exact (stays_write_file io _ _ _ (contained_write_temporary r t0) w HI)|]. intros _.
    apply stays_bind; [apply contained_replace|intros _; apply stays_ret].
  - intros e _ _. apply stays_get. intros w1 H1. cbv zeta. apply stays_at_bind; [|intros _; apply stays_ret].
    eapply stays_at_try with (P' := os_only); [|intros; apply stays_ret|by intros e' ->].
    apply contained_remove; [exact H1|]. exact (entry_in_cam r t0 (dk_tree w1) _ H1).
Qed.
Lemma contained_cam_forget r t0 t : contained true r t0 t → contained false r t0 t.
Proof. intros (? & ? & ? & ? & ?). split; [done|]. by split; [|split; [|split]]. Qed.
Lemma safe_cam r t0 t : contained false r t0 t → _safety_reason s t = None → contained true r t0 t.
Proof.
  intros (Hwf & Hk & Hr & Hn & _) Hs. split; [done|split; [done|split; [done|split; [done|]]]]. intros _.
  unfold _safety_reason, real_root in *. destruct (data_root s) as [| |data]; [done..|]. destruct (durable_root s); [done..|].
  destruct (negb (_within (realpath t data) _)); [done|]. destruct (negb (isdir t data)); [done|]. destruct (negb (isdir t _)); [done|].
  destruct (negb _) eqn:Hw in Hs; [done|]. apply negb_false_iff, within_prefix in Hw. etrans; [exact Hr|exact Hw].
Qed.

(** *** A whole history *)

Context (mint : nat → pystr) (loads : bytes → option pyval) (cwd : path).

Lemma contained_perform r t0 include : stays (λ _, False) (contained false r t0) (perform s io stamp iso dumps include).
Proof.
  unfold perform. apply stays_reads. intros w HI. cbn [id]. destruct (_safety_reason s (dk_tree w)) as [why|] eqn:Hs; [by apply stays_ret|].
  pose proof (safe_cam r t0 _ HI Hs) as HI'. eapply stays_at_mono with (P := λ _, False) (I := contained true r t0); [|apply contained_cam_forget|done].
  refine (stays_get (λ _, False) (contained true r t0) _ _ w HI'). clear w HI Hs HI'. intros w HI. cbv zeta.
  apply stays_at_attempt; [|intros; apply stays_ret|].
  - eapply stays_at_mono; [apply grown_create_backup; exact (proj1 HI)| |done]. intros t. by apply contained_grown.
  - intros backup w1 H1. apply stays_at_attempt; [by apply contained_delete_targets|intros; apply stays_ret|].
    intros [[[gone dirs] count] total]. apply stays_bind; [apply contained_marker|]. intros marker. apply stays_ret.
Qed.
Lemma contained_finalize r t0 claimed : stays (λ _, False) (contained false r t0) (finalize_after_claimed_boot s io loads cwd claimed).
Proof.
  unfold finalize_after_claimed_boot. apply stays_reads. intros w HI. cbn [id].
  destruct (_safety_reason s (dk_tree w)) as [why|] eqn:Hs; [by apply stays_ret|].
  pose proof (safe_cam r t0 _ HI Hs) as HI'. eapply stays_at_mono with (P := λ _, False) (I := contained true r t0); [|apply contained_cam_forget|done].
  destruct (pending_deletion _ _ _) as [marker|]; [|by apply stays_ret]. cbv zeta.
  destruct (get_key (u "backup_path") marker) as [| | | |[|c text]| | |]; try by apply stays_ret.
  set (backup := parse_path _ cwd (c :: text)). destruct (islink _ _) eqn:Hl; [by apply stays_ret|].
  destruct (_ || _) eqn:Hin; [by apply stays_ret|]. destruct (negb claimed); [by apply stays_ret|].
  match goal with |- context [finalized true true _ _ ?ts] => set (timestamp := ts) end.
  assert (stays (λ _, False) (contained true r t0) (_ ← _remove_marker s io;
    mret (finalized true true "backup deleted after a successful claimed boot" (VStr (c :: text)) timestamp))) as Hdone.
  { apply stays_bind; [|intros; apply stays_ret]. intros w1 H1. unfold _remove_marker.
    eapply stays_at_try with (P' := os_only); [|intros; apply stays_ret|by intros e ->].
    apply contained_remove; [exact H1|]. exact (entry_in_cam r t0 (dk_tree w1) _ H1). }
  destruct (exists_ _ _); [|by apply Hdone]. apply stays_at_bind; [|intros [e|]; [apply stays_ret|exact Hdone]].
  eapply stays_at_try with (P' := λ e, false = false ∧ os_only e).
  - apply stays_at_bind; [apply stays_at_rmtree; [exact HI'|]|intros; apply stays_ret].
    intros e _ He. apply contained_delete. etrans; [|exact He]. apply islink_false in Hl. rewrite <-(realpath_entry _ _ Hl).
    apply orb_false_iff in Hin as [Hin _]. apply negb_false_iff, within_prefix in Hin.
    destruct HI' as (_ & _ & Hr & _). etrans; [exact Hr|exact Hin].
  - intros e _ _. apply stays_get. intros w1 H1. by apply stays_ret.
  - by intros e [_ ->].
Qed.

Inductive call :=
  | Begin (reason : pyval)
  | Confirm (token : pyval)
  | Execute (token : pyval) (include_timelapse : bool)
  | Finalize (claimed : bool).
Definition step (c : call) (st : FactoryReset * disk) : FactoryReset * disk :=
  let '(o, w) := st in
  match c with
  | Begin reason => ((begin_ mint reason o).1, w)
  | Confirm token => ((confirm token o).1, w)
  | Execute token include =>
      match execute s io stamp iso dumps token include o w with
      | (Ret (o', _), w') => (o', w')
      | (Raise _, w') => (consumed o, w')
      end
  | Finalize claimed => (o, (finalize_after_claimed_boot s io loads cwd claimed w).2)
  end.
Definition run (calls : list call) (st : FactoryReset * disk) : FactoryReset * disk := foldl (λ st c, step c st) st calls.

Lemma contained_step r t0 c st : contained false r t0 (dk_tree st.2) →
  passed (contained false r t0) st.2 (step c st).2 ∧ contained false r t0 (dk_tree (step c st).2).
Proof.
  destruct st as [o w]. intros HI. cbn [snd] in HI. destruct c as [why|token|token include|claimed]; cbn [step snd].
  1,2: by split; [apply passed_refl|].
  - assert (stays (λ _, False) (contained false r t0) (execute s io stamp iso dumps token include o)) as Hex.
    { unfold execute. destruct (negb _); [apply stays_ret|]. destruct (negb _); [apply stays_ret|]. destruct (negb _); [apply stays_ret|].
      apply stays_bind; [apply contained_perform|]. intros report. apply stays_ret. }
    pose proof (Hex w HI) as Hx. unfold stays_at, along in Hx.
    destruct (execute _ _ _ _ _ _ _ _ w) as [[[o' report]|e] w']; cbn [fst snd] in *; tauto.
  - pose proof (contained_finalize r t0 claimed w HI) as [Hp [HI' _]]. done.
Qed.

(** C8: Whatever links there are on the disk, whichever operations fail and whatever is called
    in whatever order, no state of the disk has an entry outside the real data root changed
    or deleted that was there before (for a marker whose temporary name is no link). *)
Theorem deletes_only_inside calls o w :
  let r := real_root s (dk_tree w) in
  wf (dk_tree w) → no_link (dk_tree w) (entry (dk_tree w) (temporary s)) →
  let w' := (run calls (o, w)).2 in
  ∃ states, dk_past w' = dk_past w ++ states ∧
    Forall (λ t : tree, ∀ x nd, ¬ r `prefix_of` x → dk_tree w !! x = Some nd → t !! x = Some nd) (dk_tree w' :: states).
Proof.
  intros r Hwf Hn. set (t0 := dk_tree w) in *.
  assert (contained false r t0 (dk_tree (o, w).2)) as HI by by split; [|split; [|split; [|split]]].
  change (dk_past w) with (past (o, w).2). generalize dependent (o, w). intros st HI. cbv zeta.
  assert (passed (contained false r t0) st.2 (run calls st).2 ∧ contained false r t0 (dk_tree (run calls st).2)) as [(states & Hp & Hall) Hend].
  { revert st HI. induction calls as [|c calls IH]; intros st HI; [by split; [apply passed_refl|]|].
    destruct (contained_step r t0 c st HI) as [Hp HI']. destruct (IH _ HI') as [Hp' HI2].
    split; [by eapply passed_trans|done]. }
  exists states. split; [exact Hp|]. constructor; [by destruct Hend as (_ & Hk & _)|].
  eapply Forall_impl; [exact Hall|]. by intros t (_ & Hk & _).
Qed.
End Outside.

(** ** Two confirmations *)

Section Confirmation.
Context (s : settings) (io : nat → option pystr) (stamp iso : nat → pystr)
  (dumps : list (pyval * pyval) → bytes) (mint : nat → pystr) (loads : bytes → option pyval) (cwd : path).
Definition is_begin (c : call) : bool := match c with Begin _ => true | _ => false end.
Definition begins (calls : list call) : nat := length (List.filter is_begin calls).
Definition no_begin (calls : list call) : Prop := Forall (λ c, is_begin c = false) calls.
Definition no_execute (token : pyval) (calls : list call) : Prop := Forall (λ c, ∀ include, c ≠ Execute token include) calls.

(** The second confirmation of [token], after the call that minted it. *)
Definition confirmed_in (token : pyval) (calls : list call) : Prop :=
  ∃ before why mid after, calls = before ++ Begin why :: mid ++ Confirm token :: after ∧
    token = VStr (mint (begins before)) ∧ no_begin (mid ++ after) ∧ no_execute token after.
(** What the fields of the object say of the calls so far. *)
Definition tracks (calls : list call) (o : FactoryReset) : Prop :=
  minted o = begins calls ∧
  (_begun o = true → ∃ before why rest, calls = before ++ Begin why :: rest ∧ _token o = mint (begins before) ∧ no_begin rest ∧
     (_confirmed o = true → ∃ mid after, rest = mid ++ Confirm (VStr (_token o)) :: after ∧ no_execute (VStr (_token o)) after)).

Lemma begins_app a b : begins (a ++ b) = (begins a + begins b)%nat.
Proof. unfold begins. by rewrite List.filter_app, length_app. Qed.
Lemma execute_refused token include o w :
  _begun o && _confirmed o && bool_decide (as_str token = Some (_token o)) = false →
  ∃ report, execute s io stamp iso dumps token include o w = (Ret (o{{_last_report := Some report}}, report), w).
Proof.
  unfold execute. destruct (_begun o); cbn [negb andb]; [|by eexists]. destruct (_confirmed o); cbn [negb andb]; [|by eexists].
  intros ->. by eexists.
Qed.
Lemma step_refused token include o w :
  _begun o && _confirmed o && bool_decide (as_str token = Some (_token o)) = false →
  ∃ report, step s io stamp iso dumps mint loads cwd (Execute token include) (o, w) = (o{{_last_report := Some report}}, w).
Proof. intros Hno. destruct (execute_refused token include o w Hno) as [report Hx]. exists report. cbn [step]. by rewrite Hx. Qed.
Lemma step_accepted token include o w :
  _begun o && _confirmed o && bool_decide (as_str token = Some (_token o)) = true →
  _begun (step s io stamp iso dumps mint loads cwd (Execute token include) (o, w)).1 = false ∧
  minted (step s io stamp iso dumps mint loads cwd (Execute token include) (o, w)).1 = minted o.
Proof.
  intros Hyes. rewrite !andb_true_iff in Hyes. destruct Hyes as [[Hb Hc] Ht]. cbn [step]. unfold execute.
  rewrite Hb, Hc, Ht. cbn [negb]. unfold mbind, pym_bind. by destruct (perform _ _ _ _ _ _ w) as [[report|e] w1].
Qed.
(** A call that leaves the confirmation as it is. *)
Lemma tracks_same calls c o o' : is_begin c = false → (∀ include, c ≠ Execute (VStr (_token o)) include ∨ _begun o && _confirmed o = false) →
  minted o' = minted o → _begun o' = _begun o → _token o' = _token o → _confirmed o' = _confirmed o →
  tracks calls o → tracks (calls ++ [c]) o'.
Proof.
  intros Hc Hx Hm Hb Ht Hcf [H1 H2]. unfold tracks. rewrite Hm, Hb, Ht, Hcf, begins_app. split; [unfold begins in *; cbn; rewrite Hc; cbn; lia|].
  intros Hbegun. destruct (H2 Hbegun) as (before & why & rest & -> & Htok & Hno & Hconf). exists before, why, (rest ++ [c]).
  split; [by rewrite <-!app_assoc|]. split; [done|]. split; [by apply Forall_app; split; [|by constructor]|].
  intros Hcd. destruct (Hconf Hcd) as (mid & after & -> & Hafter). exists mid, (after ++ [c]). split; [by rewrite <-!app_assoc|].
  apply Forall_app. split; [done|]. constructor; [|done]. intros include. destruct (Hx include) as [?|Hf]; [done|]. by rewrite Hbegun, Hcd in Hf.
Qed.
Lemma tracks_step calls c o w : tracks calls o →
  tracks (calls ++ [c]) (step s io stamp iso dumps mint loads cwd c (o, w)).1.
Proof.
  intros Htr. pose proof Htr as [Hm Hb]. destruct c as [why|token|token include|claimed].
  - unfold tracks. split; [rewrite begins_app; change (S (minted o) = (begins calls + 1)%nat); lia|]. intros _. exists calls, why, []. rewrite <-Hm. split_and!; [done|done|constructor|done].
  - cbn [step]. unfold confirm. destruct (as_str token) as [[|ch t]|] eqn:Hs; cbn [fst].
    1,3: by eapply tracks_same; try exact Htr; try done; left.
    destruct (_begun o && bool_decide (ch :: t = _token o)) eqn:Hok; cbn [fst]; [|by eapply tracks_same; try exact Htr; try done; left].
    apply andb_true_iff in Hok as [Hbegun Htok%bool_decide_eq_true]. destruct (Hb Hbegun) as (before & w0 & rest & -> & Ht & Hno & _).
    assert (token = VStr (_token o)) as -> by (destruct token; try done; injection Hs as ->; by rewrite Htok).
    unfold tracks. split; [change (minted o = begins ((before ++ Begin w0 :: rest) ++ [Confirm (VStr (_token o))])); rewrite Hm, (begins_app (before ++ _) [_]); symmetry; apply Nat.add_0_r|].
    intros _. exists before, w0, (rest ++ [Confirm (VStr (_token o))]). split; [by rewrite <-!app_assoc|]. split; [done|].
    split; [apply Forall_app; split; [done|by constructor]|]. intros _. exists rest, []. split; [done|constructor].
  - destruct (_begun o && _confirmed o && bool_decide (as_str token = Some (_token o))) eqn:Hacc.
    + destruct (step_accepted token include o w Hacc) as [Hb' Hm']. split; [rewrite Hm', Hm, (begins_app calls [_]); symmetry; apply Nat.add_0_r|].
      intros Hx. by rewrite Hb' in Hx.
    + destruct (step_refused token include o w Hacc) as [report ->]. cbn [fst]. eapply tracks_same; try exact Htr; try done.
      intros i. destruct (_begun o && _confirmed o); [left|by right]. cbn in Hacc. apply bool_decide_eq_false in Hacc. intros [= -> ->]. by apply Hacc.
  - by eapply tracks_same; try exact Htr; try done; left.
Qed.

(** C21: The disk changes in a reset only when it was begun and then confirmed with the token that
    was minted for it, with no other beginning since, and that token has not been used yet. *)
Theorem reset_needs_two_confirmations calls w token include :
  let '(o, w') := run s io stamp iso dumps mint loads cwd calls (fresh_reset, w) in
  (step s io stamp iso dumps mint loads cwd (Execute token include) (o, w')).2 ≠ w' → confirmed_in token calls.
Proof.
  assert (∀ st, tracks calls (run s io stamp iso dumps mint loads cwd calls (fresh_reset, st)).1) as Htr.
  { intros st. induction calls as [|c calls IH] using rev_ind; [by split|].
    unfold run in *. rewrite foldl_app. cbn [foldl]. destruct (foldl _ _ calls) as [o w']. apply tracks_step, IH. }
  specialize (Htr w). destruct (run _ _ _ _ _ _ _ _ calls _) as [o w']. cbn [fst] in Htr.
  intros Hne. destruct (_begun o && _confirmed o && bool_decide (as_str token = Some (_token o))) eqn:Hacc.
  2: { destruct (step_refused token include o w' Hacc) as [report Hs]. by rewrite Hs in Hne. }
  rewrite !andb_true_iff, bool_decide_eq_true in Hacc. destruct Hacc as [[Hb Hc] Ht].
  assert (token = VStr (_token o)) as -> by (destruct token; try done; by injection Ht as ->).
  destruct Htr as [_ Htr]. destruct (Htr Hb) as (before & why & rest & -> & Htok & Hno & Hconf).
  destruct (Hconf Hc) as (mid & after & -> & Hafter). exists before, why, mid, after. split_and!; [done|by rewrite Htok| |done].
  unfold no_begin in *. rewrite Forall_app in *. destruct Hno as [? Hno]. split; [done|]. by inversion Hno.
Qed.
End Confirmation.

(** ** The backup *)

(** The layout the appliance is installed with: its directories are no links, and the
    backups are apart from what is deleted. *)
Record regular (s : settings) (t : tree) : Prop := {
  reg_wf : wf t;
  reg_root : real_root s t ≠ [];
  reg_inside : Forall (λ p, real_root s t `prefix_of` p) [config_dir s; prusa_cam_dir s; timelapse_dir s];
  reg_plain : Forall (plain t) [config_dir s; prusa_cam_dir s; timelapse_dir s; backups_dir s];
  reg_names : ∀ name, no_link t (backups_dir s ++ [name]);
  reg_temporary : no_link t (temporary s);
  reg_apart : Forall (λ p, ¬ backups_dir s `prefix_of` p) [config_dir s; timelapse_dir s; state_json s; provisioning_json s; temporary s; pending_deletion_path s];
  reg_outside : Forall (λ p, ¬ p `prefix_of` backups_dir s) [config_dir s; timelapse_dir s];
}.
(** What is copied, and where in the backup. *)
Inductive copied (s : settings) (include : bool) : path → path → Prop :=
  | copied_device : copied s include (device_toml s) [CONFIG_DIRNAME; DEVICE_TOML_NAME]
  | copied_secrets : copied s include (secrets_toml s) [CONFIG_DIRNAME; SECRETS_TOML_NAME]
  | copied_state : copied s include (state_json s) [STATE_JSON_NAME]
  | copied_provisioning : copied s include (provisioning_json s) [PROVISIONING_JSON_NAME]
  | copied_timelapse l : include = true → l ≠ [] → copied s include (timelapse_dir s ++ l) (TIMELAPSE_DIRNAME :: l).

Lemma copied_inj s include p p' rel : copied s include p rel → copied s include p' rel → p = p'.
Proof. destruct 1; inversion 1; try done; congruence. Qed.

(** *** Writing it *)

Section Copy.
Context (s : settings) (io : nat → option pystr) (include : bool) (t0 : tree) (b : path).
Context (Hreg : regular s t0) (Hnew : exists_ t0 b = false) (Hb : realpath t0 b = b).

(** The copies at [done] are there. *)
Definition has_copies (done : path → Prop) (t : tree) : Prop :=
  grown t0 t ∧ ∀ p rel data, done rel → copied s include p rel → t0 !! p = Some (NFile data) → t !! (b ++ rel) = Some (NFile data).
Definition copied_post {A : Type} (P : exn → Prop) (done : path → Prop) (r : res A) (w : disk) : Prop :=
  grown t0 (dk_tree w) ∧ match r with Ret _ => has_copies done (dk_tree w) | Raise e => P e end.
(** From copies at [done], [m] returns with those at [done'] too, or raises what [P] allows. *)
Definition copies {A : Type} (P : exn → Prop) (m : PyM disk A) (done done' : path → Prop) : Prop :=
  ∀ w, has_copies done (dk_tree w) → along m (grown t0) (copied_post P done') w.

Lemma copies_bind {A B : Type} (P : exn → Prop) (m : PyM disk A) (f : A → PyM disk B) d1 d2 d3 :
  copies P m d1 d2 → (∀ a, copies P (f a) d2 d3) → copies P (m ≫= f) d1 d3.
Proof.
  intros Hm Hf w Hw. apply along_bind. eapply along_mono; [by apply Hm|done|]. intros [a|e] w' _ [Hg H]; [by apply Hf|done].
Qed.
Lemma copies_reads {A B : Type} (P : exn → Prop) (f : tree → A) (k : A → PyM disk B) d1 d2 :
  (∀ w, has_copies d1 (dk_tree w) → along (k (f (dk_tree w))) (grown t0) (copied_post P d2) w) → copies P (reads f ≫= k) d1 d2.
Proof. intros Hk w Hw. exact (Hk w Hw). Qed.
Lemma copies_ret {A : Type} (P : exn → Prop) (a : A) d : copies P (mret a) d d.
Proof. intros w Hw. apply along_ret. split; [apply Hw|done]. Qed.
Lemma copies_weaken {A : Type} (P : exn → Prop) (m : PyM disk A) d1 d2 d2' : copies P m d1 d2 →
  (∀ p rel data, d2' rel → copied s include p rel → t0 !! p = Some (NFile data) → d2 rel) → copies P m d1 d2'.
Proof.
  intros Hm Hd w Hw. eapply along_mono; [by apply Hm|done|]. intros [a|e] w' _ [Hg H]; [|done]. split; [done|].
  split; [done|]. intros p rel data Hrel Hc H0. destruct H as [_ H]. eapply H; eauto.
Qed.
Lemma copies_for_each {A : Type} (P : exn → Prop) (f : A → PyM disk unit) (D : A → path → Prop) l d :
  (∀ x d, x ∈ l → copies P (f x) d (λ y, D x y ∨ d y)) → copies P (for_each f l) d (λ y, (∃ x, x ∈ l ∧ D x y) ∨ d y).
Proof.
  revert d. induction l as [|x l IH]; intros d Hf; cbn [for_each].
  - eapply copies_weaken; [apply copies_ret|]. by intros p rel data [(x & Hx%not_elem_of_nil & _)|Hd].
  - eapply copies_bind; [apply Hf; constructor|]. intros _. eapply copies_weaken; [apply IH; intros y d' Hy; apply Hf; by constructor|].
    intros p rel data [(y & Hy & HD)|Hd] _ _; [|by right; right]. apply elem_of_cons in Hy as [->|Hy]; [by right; left|left; eauto].
Qed.
Lemma copies_or_reset {A : Type} prefix (m : PyM disk A) d1 d2 : copies os_only m d1 d2 → copies reset_only (or_reset_error prefix m) d1 d2.
Proof.
  intros Hm w Hw. apply along_try. eapply along_mono; [by apply Hm|done|]. intros [a|e] w' _ [Hg H]; [done|].
  unfold os_only in H. rewrite H. split; [by apply passed_same|done].
Qed.

(** Operations that leave what is there as it is. *)
Lemma copies_makedirs p d : copies os_only (makedirs io p) d d.
Proof.
  intros w Hw. pose proof (stays_makedirs io (grown (dk_tree w)) p (grown_mkdir (dk_tree w)) w) as H.
  assert (wf (dk_tree w)) as Hwf by apply Hw. pose proof (proj1 Hw) as Hg0.
  assert (∀ t, grown (dk_tree w) t → grown t0 t) as Htrans.
  { intros t (Hwt & Hsub & Hl). split; [done|]. destruct Hg0 as (_ & Hsub0 & Hl0). split; [by etrans|].
    intros q to. by rewrite (Hl0 q to). }
  eapply along_mono; [apply H; by apply grown_refl|exact Htrans|]. intros [a|e] w' _ [Hg HP]; (split; [by apply Htrans|]); [|done].
  split; [by apply Htrans|]. intros q rel data Hrel Hc Hd. eapply grown_keep; [exact Hg|]. by eapply Hw.
Qed.
Lemma real_below t rel : grown t0 t → rel ≠ [] → realpath t (b ++ rel) = b ++ rel ∧ t0 !! (b ++ rel) = None.
Proof.
  intros (_ & _ & Hl) Hrel. destruct (below_new t0 b rel (reg_wf _ _ Hreg) Hnew Hrel) as [Hr Hn]. rewrite Hb in *.
  by rewrite <-(realpath_same_links t0 t).
Qed.
Lemma copies_copyfile p rel d : copied s include p rel → realpath t0 p = p →
  copies os_only (copyfile io p (b ++ rel)) d (λ x, x = rel ∨ d x).
Proof.
  intros Hc Hp w Hw. assert (rel ≠ []) as Hrel by by destruct Hc. pose proof (proj1 Hw) as Hg.
  destruct (real_below _ rel Hg Hrel) as [Hr Hn0]. pose proof (new_write t0 b rel (reg_wf _ _ Hreg) Hnew Hrel) as Hallow.
  assert (realpath (dk_tree w) p = p) as Hp' by (rewrite <-(realpath_same_links t0) by apply Hg; done).
  assert (∀ w', dk_tree w' = dk_tree w → copied_post os_only (λ x, x = rel ∨ d x) (Raise OSError : res unit) w') as Hfail
    by (intros w' Hw'; split; [by rewrite Hw'|done]).
  unfold copyfile. apply along_bind, along_reads. cbn [id]. rewrite Hp', Hr.
  destruct (dk_tree w !! p) as [[|data|]|] eqn:Hsrc; [by apply along_fail| |by apply along_fail..].
  case_bool_decide as Hsame; [by apply along_fail|].
  apply along_write_file; [exact Hallow|exact Hg| |by intros w' Hg'].
  intros w' Hw' Hg'. rewrite Hr in Hw'.
  assert (∀ x nd, x ≠ b ++ rel → dk_tree w !! x = Some nd → dk_tree w' !! x = Some nd) as Hkeep
    by (intros x nd Hx Hl; rewrite Hw'; by rewrite lookup_insert_ne).
  split; [exact Hg'|]. split; [exact Hg'|]. intros q rel' data' [->|Hd] Hc' H0.
  - rewrite (copied_inj _ _ _ _ _ Hc' Hc) in H0. rewrite Hw', lookup_insert_eq.
    pose proof (grown_keep _ _ _ _ Hg H0). congruence.
  - destruct (decide (rel' = rel)) as [->|Hne].
    + rewrite (copied_inj _ _ _ _ _ Hc' Hc) in H0. rewrite Hw', lookup_insert_eq.
      pose proof (grown_keep _ _ _ _ Hg H0). congruence.
    + apply Hkeep; [intros Heq; by apply app_inv_head in Heq|]. by eapply Hw.
Qed.

Lemma same_plain t p : grown t0 t → plain t0 p → plain t p.
Proof. intros (_ & _ & Hl) Hp q Hq to Hto%Hl. by apply (Hp q Hq) in Hto. Qed.
Lemma inside_root t p : grown t0 t → real_root s t0 `prefix_of` p → _within p (real_root s t) = true.
Proof.
  intros (_ & _ & Hl) Hp. assert (real_root s t = real_root s t0) as ->.
  { unfold real_root. destruct (data_root s); [done..|]. symmetry. by apply realpath_same_links. }
  apply prefix_within; [apply Hreg|done].
Qed.
Lemma file_paths t d name data : grown t0 t → plain t0 d → t !! (d ++ [name]) = Some (NFile data) →
  entry t (d ++ [name]) = d ++ [name] ∧ realpath t (d ++ [name]) = d ++ [name] ∧ realpath t0 (d ++ [name]) = d ++ [name].
Proof.
  intros Hg Hd Hf. pose proof (same_plain t d Hg Hd) as Hd'. assert (entry t (d ++ [name]) = d ++ [name]) as He.
  { apply plain_entry. by rewrite dirname_snoc. }
  assert (realpath t (d ++ [name]) = d ++ [name]) as Hr by (rewrite realpath_entry; [done|intros to; rewrite He, Hf; done]).
  split; [done|split; [done|]]. rewrite <-Hr at 2. destruct Hg as (_ & _ & Hl). by apply realpath_same_links.
Qed.
(** What is no file at first needs no copy. *)
Lemma copies_skip {A : Type} (P : exn → Prop) (a : A) p rel d w : copied s include p rel → has_copies d (dk_tree w) →
  (∀ data, t0 !! p ≠ Some (NFile data)) → along (mret a) (grown t0) (copied_post P (λ x, x = rel ∨ d x)) w.
Proof.
  intros Hc Hw Hn. eapply copies_weaken; [apply copies_ret| |exact Hw]. intros q rel' data [->|Hd] Hc' H0; [|done].
  rewrite (copied_inj _ _ _ _ _ Hc' Hc) in H0. by apply Hn in H0.
Qed.

Lemma copies_copy_file d name rel done : copied s include (d ++ [name]) rel → plain t0 d → real_root s t0 `prefix_of` d →
  copies reset_only (_copy_file_safely s io (d ++ [name]) (b ++ rel)) done (λ x, x = rel ∨ done x).
Proof.
  intros Hc Hd Hin. unfold _copy_file_safely. apply copies_reads. intros w Hw. cbn [id]. pose proof (proj1 Hw) as Hg.
  assert (entry (dk_tree w) (d ++ [name]) = d ++ [name]) as He.
  { apply plain_entry. rewrite dirname_snoc. by apply same_plain. }
  assert (∀ nd, dk_tree w !! (d ++ [name]) = nd → (∀ data, nd ≠ Some (NFile data)) → ∀ data, t0 !! (d ++ [name]) ≠ Some (NFile data)) as Hno.
  { intros nd Hnd Hne data H0. pose proof (grown_keep _ _ _ _ Hg H0). eapply Hne. by rewrite <-Hnd. }
  rewrite He. destruct (dk_tree w !! (d ++ [name])) as [[|data|to]|] eqn:Hf.
  2: { destruct (file_paths _ _ _ _ Hg Hd Hf) as (_ & Hr & Hr0). rewrite Hr, inside_root by (done || by apply prefix_app_r). cbn [negb].
       refine (copies_or_reset _ _ _ _ _ w Hw). eapply copies_bind; [apply copies_makedirs|]. intros _. by apply copies_copyfile. }
  all: eapply copies_skip; [exact Hc|exact Hw|by apply (Hno _ eq_refl)].
Qed.
Lemma copies_copy_one l name done : include = true → plain t0 (timelapse_dir s ++ l) →
  copies os_only (copy_one io (real_root s t0) (timelapse_dir s ++ l) (b ++ TIMELAPSE_DIRNAME :: l) name) done
    (λ x, x = TIMELAPSE_DIRNAME :: l ++ [name] ∨ done x).
Proof.
  intros Hinc Hd. unfold copy_one. apply copies_reads. intros w Hw. cbn [id]. pose proof (proj1 Hw) as Hg.
  assert (copied s include ((timelapse_dir s ++ l) ++ [name]) (TIMELAPSE_DIRNAME :: l ++ [name])) as Hc.
  { rewrite <-app_assoc. apply copied_timelapse; [done|]. by destruct l. }
  assert (entry (dk_tree w) ((timelapse_dir s ++ l) ++ [name]) = (timelapse_dir s ++ l) ++ [name]) as He.
  { apply plain_entry. rewrite dirname_snoc. by apply same_plain. }
  destruct (islink _ _) eqn:Hl.
  { eapply copies_skip; [exact Hc|exact Hw|]. intros data H0. pose proof (grown_keep _ _ _ _ Hg H0) as H1.
    unfold islink in Hl. by rewrite He, H1 in Hl. }
  apply islink_false in Hl. rewrite (realpath_entry _ _ Hl), He in *.
  assert (_within ((timelapse_dir s ++ l) ++ [name]) (real_root s t0) = true) as ->.
  { apply inside_root; [by apply grown_refl, Hreg|]. rewrite <-app_assoc. apply prefix_app_r.
    pose proof (reg_inside _ _ Hreg) as Hin. rewrite !Forall_cons in Hin. tauto. }
  cbn [negb]. rewrite <-(app_assoc b). cbn [app]. refine (copies_copyfile _ _ _ Hc _ w Hw).
  destruct Hg as (_ & _ & Hls). rewrite (realpath_same_links t0 (dk_tree w)), realpath_entry by (done || by rewrite He). done.
Qed.
(** A file below a directory is listed in it, or is below a directory listed in it. *)
Lemma listed t d name rel data : grown t0 t → t0 !! (d ++ name :: rel) = Some (NFile data) →
  rel = [] ∧ name ∈ others t d ∨ rel ≠ [] ∧ name ∈ subdirs t d.
Proof.
  intros Hg H0. unfold others, subdirs. rewrite !list_elem_of_In, !filter_In, <-!list_elem_of_In, elem_children.
  destruct rel as [|name' rel]; [left|right]; (split; [done|]).
  - rewrite (grown_keep _ _ _ _ Hg H0). split; [done|]. by rewrite bool_decide_eq_false_2.
  - assert (t !! (d ++ [name]) = Some NDir) as ->; [|by split; [|rewrite bool_decide_eq_true_2]].
    eapply grown_keep; [exact Hg|]. apply (wf_above t0 _ (name' :: rel)); [apply Hreg| |done]. rewrite <-app_assoc. cbn [app]. by rewrite H0.
Qed.
Lemma subdir_plain t d name : grown t0 t → plain t0 d → name ∈ subdirs t d → plain t0 (d ++ [name]).
Proof.
  intros Hg Hd Hn. apply plain_snoc; [done|]. unfold subdirs in Hn. rewrite list_elem_of_In, filter_In, bool_decide_eq_true in Hn.
  destruct Hn as [_ Hn], Hg as (_ & _ & Hl). intros to Hto%Hl. congruence.
Qed.
Lemma copies_copy_walk depth l d : include = true → plain t0 (timelapse_dir s ++ l) →
  copies os_only (copy_walk io depth (real_root s t0) (timelapse_dir s ++ l) (b ++ TIMELAPSE_DIRNAME :: l)) d
    (λ x, (∃ l', x = TIMELAPSE_DIRNAME :: l ++ l' ∧ l' ≠ [] ∧ (length l' ≤ S depth)%nat) ∨ d x).
Proof.
  intros Hinc. revert l d. induction depth as [|depth IH]; intros l d Hd; cbn [copy_walk].
  all: apply copies_reads; intros w Hw; cbn [id]; pose proof (proj1 Hw) as Hg; pose proof (same_plain _ _ Hg Hd) as Hd';
    rewrite (realpath_plain _ _ Hd').
  all: assert (_within (timelapse_dir s ++ l) (real_root s t0) = true) as ->
    by (apply inside_root; [by apply grown_refl, Hreg|]; apply prefix_app_r;
        pose proof (reg_inside _ _ Hreg) as Hin; rewrite !Forall_cons in Hin; tauto); cbn [negb].
  all: refine (copies_bind _ _ _ d d _ (copies_makedirs _ _) _ w Hw); intros _.
  all: eapply copies_bind; [apply copies_for_each with (D := λ name x, x = TIMELAPSE_DIRNAME :: l ++ [name]);
    intros name d' _; by apply copies_copy_one|]; intros _.
  - eapply copies_weaken; [apply copies_ret|]. intros p rel data [(l' & -> & Hl' & Hlen)|Hr] Hc H0; [left|by right].
    inversion Hc; subst; try done. rewrite app_assoc in H0. destruct l' as [|name rel]; [done|].
    destruct (listed _ _ _ _ _ Hg H0) as [[-> Hn]|[Hrel _]]; [by exists name|]. destruct rel; [done|]. cbn in Hlen. lia.
  - eapply copies_weaken.
    { apply copies_for_each with (D := λ name x, ∃ l', x = TIMELAPSE_DIRNAME :: (l ++ [name]) ++ l' ∧ l' ≠ [] ∧ (length l' ≤ S depth)%nat).
      intros name d' Hn. rewrite <-(app_assoc (timelapse_dir s)), <-(app_assoc b). cbn [app]. apply (IH (l ++ [name])). rewrite app_assoc. by eapply subdir_plain. }
    intros p rel data [(l' & -> & Hl' & Hlen)|Hr] Hc H0; [|by right; right].
    inversion Hc; subst; try done. rewrite app_assoc in H0. destruct l' as [|name rel]; [done|].
    destruct (listed _ _ _ _ _ Hg H0) as [[-> Hn]|[Hrel Hn]]; [right; left; by exists name|left]. exists name. split; [done|].
    exists rel. rewrite <-!app_assoc. cbn in Hlen |- *. split_and!; [done|done|lia].
Qed.
Lemma copies_timelapse d : include = true →
  copies reset_only (_copy_tree_safely s io (timelapse_dir s) (b ++ [TIMELAPSE_DIRNAME])) d
    (λ x, (∃ l, x = TIMELAPSE_DIRNAME :: l ∧ l ≠ []) ∨ d x).
Proof.
  intros Hinc. pose proof (reg_plain _ _ Hreg) as Hplain. rewrite !Forall_cons in Hplain. destruct Hplain as (_ & _ & Hp & _).
  unfold _copy_tree_safely. apply copies_reads. intros w Hw. cbn [id]. pose proof (proj1 Hw) as Hg. pose proof (same_plain _ _ Hg Hp) as Hp'.
  assert (real_root s (dk_tree w) = real_root s t0) as ->.
  { unfold real_root. destruct (data_root s); [done..|]. destruct Hg as (_ & _ & Hl). symmetry. by apply realpath_same_links. }
  destruct (isdir _ _) eqn:Hdir; cbn [negb orb].
  - assert (islink (dk_tree w) (timelapse_dir s) = false) as ->.
    { apply islink_false. rewrite plain_entry; [by apply Hp'|]. destruct (timelapse_dir s) as [|x l _] using rev_ind; [done|].
      rewrite dirname_snoc. by eapply plain_prefix. }
    refine (copies_weaken _ _ _ _ _ (copies_or_reset _ _ _ _ _) _ w Hw).
    + rewrite <-(app_nil_r (timelapse_dir s)) at 1. apply copies_copy_walk; [done|]. by rewrite app_nil_r.
    + intros p rel data [(l & -> & Hl)|Hr] Hc H0; [left|by right]. exists l. split; [done|split; [done|]].
      inversion Hc; subst; try done. pose proof (depth_bound (dk_tree w) _ (proj1 Hg) (mk_is_Some _ _ (grown_keep _ _ _ _ Hg H0))) as Hlt.
      rewrite length_app in Hlt. unfold walk_depth. lia.
  - refine (copies_weaken _ _ _ _ _ (copies_ret _ _ _) _ w Hw). intros p rel data [(l & -> & Hl)|Hr] Hc H0; [exfalso|done].
    inversion Hc; subst; try done. pose proof (grown_keep _ _ _ _ Hg H0) as Hf.
    assert (dk_tree w !! timelapse_dir s = Some NDir) as Hd by (apply (wf_above _ _ l); [apply Hg|by rewrite Hf|done]).
    unfold isdir in Hdir. by rewrite (realpath_plain _ _ Hp'), Hd in Hdir.
Qed.

Lemma abort_raises {A : Type} message w : b ≠ [] → grown t0 (dk_tree w) →
  along (_ ← _cleanup_backup io b; reset_error message : PyM disk A) (grown t0) (λ r w', grown t0 (dk_tree w') ∧ r = Raise OtherError) w.
Proof.
  intros Hne Hg. apply along_bind. eapply along_mono; [exact (new_cleanup io t0 b (reg_wf _ _ Hreg) Hnew Hne w Hg)|done|].
  intros [a|e] w' _ [Hg' He]; [by split; [apply passed_same|]|by rewrite He].
Qed.
Lemma copies_files : copies reset_only (for_each (λ '(source, destination), _copy_file_safely s io source destination) (backup_files s b))
  (λ _, False) (λ x, x ∈ [[PROVISIONING_JSON_NAME]; [STATE_JSON_NAME]; [CONFIG_DIRNAME; SECRETS_TOML_NAME]; [CONFIG_DIRNAME; DEVICE_TOML_NAME]]).
Proof.
  pose proof (reg_plain _ _ Hreg) as Hp. pose proof (reg_inside _ _ Hreg) as Hin. rewrite !Forall_cons in Hp, Hin.
  destruct Hp as (Hp1 & Hp2 & _), Hin as (Hin1 & Hin2 & _). unfold backup_files, for_each.
  eapply copies_bind; [apply copies_copy_file; [constructor|done..]|intros _].
  eapply copies_bind; [apply copies_copy_file; [constructor|done..]|intros _].
  eapply copies_bind; [apply copies_copy_file; [constructor|done..]|intros _].
  eapply copies_bind; [apply copies_copy_file; [constructor|done..]|intros _].
  eapply copies_weaken; [apply copies_ret|]. intros p rel data Hr _ _. cbn beta. rewrite !elem_of_cons, elem_of_nil in Hr. tauto.
Qed.
End Copy.

Lemma along_attempt {A B : Type} (m : PyM disk A) (h : pystr → PyM disk B) (k : A → PyM disk B) (I : tree → Prop) (Q : res B → disk → Prop) w :
  along m I (λ r w', match r with
    | Ret a => along (k a) I Q w'
    | Raise e => e = OtherError ∧ along (h (dk_errno w')) I Q w' end) w → along (attempt m h k) I Q w.
Proof.
  unfold along, attempt. destruct (m w) as [[a|e] w1]; cbn; [intros [Hp [Hp2 HQ]]|intros [Hp [-> [Hp2 HQ]]]].
  all: split; [by eapply passed_trans|done].
Qed.
(** A backup that is reported as created has every copy, and nothing was taken from the disk. *)
Lemma backup_complete s io include timestamp w : regular s (dk_tree w) → let b := _unique_backup_path s (dk_tree w) timestamp in
  along (_create_backup s io timestamp include) (grown (dk_tree w)) (λ r w', grown (dk_tree w) (dk_tree w') ∧
    match r with Ret b' => b' = b ∧ has_copies s include (dk_tree w) b (λ _, True) (dk_tree w') | Raise e => e = OtherError end) w.
Proof.
  intros Hreg b. set (t0 := dk_tree w) in *. pose proof (unique_backup_new s t0 timestamp) as [[i Hi] Hnew]. fold b in Hi, Hnew.
  assert (b ≠ []) as Hne by (rewrite Hi; unfold candidate; by destruct (backups_dir s)).
  assert (realpath t0 b = b) as Hb.
  { rewrite Hi. apply realpath_plain, plain_snoc; [|apply Hreg]. pose proof (reg_plain _ _ Hreg) as Hp. rewrite !Forall_cons in Hp. tauto. }
  unfold _create_backup. apply along_bind, along_reads. cbn [id]. fold t0 b. cbv zeta.
  assert (has_copies s include t0 b (λ _, False) t0) as H0 by by split; [apply grown_refl, Hreg|].
  apply along_bind, along_try. eapply along_mono; [refine (copies_makedirs _ _ _ _ _ _ (λ _, False) w H0)|done|].
  intros [[]|e] w1 _ [Hg1 H1].
  - apply along_attempt. eapply along_mono.
    + refine (copies_bind _ _ _ _ reset_only _ _ (λ _, False) _ (λ _, True) _ _ w1 H1); [by apply copies_files|].
      intros _. destruct include.
      * eapply copies_weaken; [by apply copies_timelapse|]. intros p rel data _ Hc _. destruct Hc; [..|left; eauto].
        all: right; rewrite !elem_of_cons; tauto.
      * eapply copies_weaken; [by apply copies_ret|]. intros p rel data _ Hc _. destruct Hc; [..|done].
        all: rewrite !elem_of_cons; tauto.
    + done.
    + intros [a|e] w2 _ [Hg2 H2]; [by apply along_ret|]. split; [exact H2|].
      eapply along_mono; [by eapply abort_raises|done|]. by intros r w3 _ [Hg3 ->].
  - unfold os_only in H1. rewrite H1. apply along_bind, along_get.
    eapply along_mono; [by eapply abort_raises|done|]. by intros r w3 _ [Hg3 ->].
Qed.

(** *** Deleting what was copied *)

Section Aside.
Context (s : settings) (io : nat → option pystr) (iso : nat → pystr) (dumps : list (pyval * pyval) → bytes).

(** From [t1] to [t] no link was made, and the backups directory is as it was. *)
Definition aside (t1 t : tree) : Prop :=
  wf t ∧ (∀ x to, t !! x = Some (NLink to) → t1 !! x = Some (NLink to)) ∧ (∀ x, backups_dir s `prefix_of` x → t !! x = t1 !! x).
Lemma aside_refl t : wf t → aside t t.
Proof. intros Hwf. split; [done|]. by split. Qed.
Lemma aside_trans t1 t2 t3 : aside t1 t2 → aside t2 t3 → aside t1 t3.
Proof.
  intros (_ & Hl1 & Hk1) (Hwf & Hl2 & Hk2). split; [done|]. split; [intros x to Hx; by apply Hl1, Hl2|].
  intros x Hx. by rewrite Hk2, Hk1.
Qed.
Lemma aside_plain t1 t p : aside t1 t → plain t1 p → plain t p.
Proof. intros (_ & Hl & _) Hp q Hq to Hto%Hl. by apply (Hp q Hq) in Hto. Qed.
Lemma aside_no_link t1 t p : aside t1 t → no_link t1 p → no_link t p.
Proof. intros (_ & Hl & _) Hp to Hto%Hl. by apply Hp in Hto. Qed.
Lemma aside_delete t1 e : ¬ backups_dir s `prefix_of` e → allows_delete (aside t1) e.
Proof.
  intros Hne t nd (Hwf & Hl & Hk) He Hnd Hor. split; [|split].
  - apply wf_delete; [done..|]. rewrite Hnd. destruct Hor as [Hnd'|?]; [left; congruence|by right].
  - intros x to [_ Hx]%lookup_delete_Some. by apply Hl.
  - intros x Hx. rewrite lookup_delete_ne by by intros ->. by apply Hk.
Qed.
Lemma aside_insert t1 t e data : ¬ backups_dir s `prefix_of` e → aside t1 t → wf (<[e := NFile data]> t) → aside t1 (<[e := NFile data]> t).
Proof.
  intros Hne (Hwf & Hl & Hk) Hwf'. split; [done|split].
  - intros x to. destruct (decide (x = e)) as [->|Hx]; [by rewrite lookup_insert_eq|rewrite lookup_insert_ne by done; apply Hl].
  - intros x Hx. rewrite lookup_insert_ne by by intros ->. by apply Hk.
Qed.

(** What may be deleted: its directory is no link, and it is not in the backups directory. *)
Definition deletable (t : tree) (p : path) : Prop := plain t (dirname p) ∧ ¬ backups_dir s `prefix_of` p.
Lemma aside_delete_file t1 p : deletable t1 p → stays reset_only (aside t1) (_delete_file s io p).
Proof.
  intros [Hp Hne]. unfold _delete_file. apply stays_reads. intros w HI. cbn [id].
  pose proof (plain_entry _ _ (aside_plain _ _ _ HI Hp)) as He. rewrite He.
  destruct (dk_tree w !! p) as [nd|] eqn:Hnd; [|by apply stays_ret]. destruct (negb _); [by apply stays_reset_error|].
  apply stays_at_bind; [|intros; apply stays_ret]. apply stays_or_reset; [|done].
  clear w HI He Hnd. unfold remove. apply stays_reads. intros w HI. cbn [id]. rewrite (plain_entry _ _ (aside_plain _ _ _ HI Hp)).
  destruct (dk_tree w !! p) as [[]|]; [by apply stays_fail|..]; (apply stays_remove_entry; [by apply aside_delete|done]).
Qed.
Lemma aside_remove_empty_dir t1 p : deletable t1 p → stays (λ _, False) (aside t1) (_remove_empty_dir s io p).
Proof.
  intros [Hp Hne]. unfold _remove_empty_dir. apply stays_reads. intros w HI. cbn [id]. destruct (negb _); [by apply stays_ret|].
  eapply stays_at_try with (P' := os_only); [|intros; apply stays_ret|by intros e ->].
  apply stays_at_bind; [|intros; apply stays_ret]. unfold rmdir. apply stays_at_reads. cbn [id].
  rewrite (plain_entry _ _ (aside_plain _ _ _ HI Hp)).
  destruct (dk_tree w !! p) as [[]|]; [|by apply stays_fail..|]; (apply stays_remove_entry; [by apply aside_delete|done]).
Qed.
Lemma aside_delete_files t1 files : Forall (deletable t1) files → stays reset_only (aside t1) (delete_files s io files).
Proof.
  induction 1 as [|p files Hp _ IH]; cbn [delete_files]; [apply stays_ret|]. apply stays_bind; [by apply aside_delete_file|].
  intros size. apply stays_bind; [exact IH|]. intros [[gone count] total]. apply stays_ret.
Qed.
Lemma aside_remove_dirs t1 dirs : Forall (deletable t1) dirs → stays reset_only (aside t1) (remove_dirs s io dirs).
Proof.
  induction 1 as [|p dirs Hp _ IH]; cbn [remove_dirs]; [apply stays_ret|]. apply stays_bind.
  - intros w HI. eapply stays_at_weaken; [by apply aside_remove_empty_dir|by intros e []].
  - intros done. apply stays_bind; [exact IH|]. intros gone. apply stays_ret.
Qed.

(** A walk stays below the directory it starts from, and goes through no link. *)
Lemma walk_below depth t root base p names : plain t base → (p, names) ∈ walk depth t root base → base `prefix_of` p ∧ plain t p.
Proof.
  revert base. induction depth as [|depth IH]; intros base Hb; cbn [walk]; (destruct (negb _); [by intros ?%not_elem_of_nil|]).
  all: rewrite elem_of_cons; intros [[= -> _]|Hin]; [done|].
  - by apply not_elem_of_nil in Hin.
  - apply list_elem_of_In, in_concat in Hin as (l & Hl & Hin). apply in_map_iff in Hl as (name & <- & Hname).
    rewrite realpath_plain in Hname by done. apply list_elem_of_In in Hin. apply filter_In in Hname as [_ Hname%bool_decide_eq_true].
    apply IH in Hin as [Hpre Hp]; [|apply plain_snoc; [done|intros to; by rewrite Hname]].
    split; [|done]. etrans; [|exact Hpre]. by exists [name].
Qed.
Lemma apart_below base p : ¬ backups_dir s `prefix_of` base → ¬ base `prefix_of` backups_dir s → base `prefix_of` p → ¬ backups_dir s `prefix_of` p.
Proof. intros H1 H2 Hp Hb. by destruct (prefix_weak_total _ _ _ Hb Hp). Qed.
Lemma walked_deletable t base : plain t base → ¬ backups_dir s `prefix_of` base → ¬ base `prefix_of` backups_dir s →
  Forall (deletable t) (_iter_files s t base) ∧ Forall (deletable t) (_iter_dirs_bottom_up s t base).
Proof.
  intros Hb H1 H2.
  assert (∀ p names, (p, names) ∈ walk_root s t base → base `prefix_of` p ∧ plain t p) as Hw.
  { intros p names. unfold walk_root. destruct (_ && _); [by apply walk_below|by intros ?%not_elem_of_nil]. }
  split; apply Forall_forall.
  - intros p. unfold _iter_files. rewrite list_elem_of_In, in_concat. intros (l & Hl & Hp). apply in_map_iff in Hl as ([d names] & <- & Hd).
    apply in_map_iff in Hp as (name & <- & _). apply list_elem_of_In, Hw in Hd as [Hpre Hd]. split; [by rewrite dirname_snoc|].
    eapply apart_below; [done..|]. by apply prefix_app_r.
  - intros p. unfold _iter_dirs_bottom_up. rewrite merge_sort_Permutation, list_elem_of_filter, list_elem_of_In, in_map_iff.
    intros [Hne ([d names] & <- & Hd)]. apply list_elem_of_In, Hw in Hd as [Hpre Hd]. cbn [fst] in *. split; [|by eapply apart_below].
    destruct d as [|name d _] using rev_ind; [done|]. rewrite dirname_snoc. by eapply plain_prefix.
Qed.

Lemma regular_grown t0 t : regular s t0 → grown t0 t → regular s t.
Proof.
  intros [Hwf Hr Hi Hp Hn Ht Ha Ho] (Hwf' & _ & Hl).
  assert (real_root s t = real_root s t0) as Hroot.
  { unfold real_root. destruct (data_root s); [done..|]. symmetry. by apply realpath_same_links. }
  assert (∀ p, no_link t0 p → no_link t p) as Hno by (intros p Hnp to Hto%Hl; by apply Hnp in Hto).
  split; rewrite ?Hroot; auto. eapply Forall_impl; [exact Hp|]. intros p Hpl q Hq. by apply Hno, Hpl.
Qed.

Section Marked.
Context (t1 : tree) (Hreg : regular s t1).
Lemma aside_trans_stays {A : Type} (P : exn → Prop) (m : PyM disk A) w :
  aside t1 (dk_tree w) → stays_at P (aside (dk_tree w)) m w → stays_at P (aside t1) m w.
Proof. intros Hw Hm. eapply stays_at_mono; [exact Hm|intros t; by apply aside_trans|done]. Qed.
Lemma aside_delete_targets include : stays reset_only (aside t1) (_delete_targets s io include).
Proof.
  pose proof (reg_plain _ _ Hreg) as Hp. pose proof (reg_apart _ _ Hreg) as Ha. pose proof (reg_outside _ _ Hreg) as Ho.
  rewrite !Forall_cons in Hp. rewrite !Forall_cons in Ha. rewrite !Forall_cons in Ho. destruct Hp as (Hp1 & Hp2 & Hp3 & _), Ha as (Ha1 & Ha2 & Ha3 & Ha4 & _), Ho as (Ho1 & Ho2 & _).
  assert (∀ t, aside t1 t → aside t t) as Hrefl by (intros t (Hwf & _); by apply aside_refl).
  unfold _delete_targets. apply stays_reads. intros w HI. cbn [id]. apply stays_at_bind.
  - apply aside_trans_stays; [done|]. apply aside_delete_files; [|by eapply Hrefl]. unfold delete_list. rewrite merge_sort_Permutation.
    apply Forall_forall. intros p. rewrite elem_of_remove_dups, !elem_of_app. intros Hin.
    assert (∀ base, plain t1 base → ¬ backups_dir s `prefix_of` base → ¬ base `prefix_of` backups_dir s →
      p ∈ _iter_files s (dk_tree w) base → deletable (dk_tree w) p) as Hfiles.
    { intros base H1 H2 H3 Hx. destruct (walked_deletable (dk_tree w) base) as [Hf _]; [by eapply aside_plain|done..|]. by rewrite Forall_forall in Hf; apply Hf. }
    destruct Hin as [Hin|[Hin|Hin]]; [eapply Hfiles; [..|exact Hin]; done| |destruct include; [eapply Hfiles; [..|exact Hin]; done|by apply not_elem_of_nil in Hin]].
    rewrite list_elem_of_In, filter_In, <-list_elem_of_In, !elem_of_cons, elem_of_nil in Hin.
    destruct Hin as [[->|[->|[]]] _]; (split; [|done]); unfold state_json, provisioning_json; rewrite dirname_snoc; by eapply aside_plain.
  - intros [[gone count] total]. apply stays_reads. intros w1 HI1. cbn [id]. apply stays_at_bind.
    { apply aside_trans_stays; [done|]. apply aside_remove_dirs; [|by eapply Hrefl]. apply walked_deletable; [by eapply aside_plain|done..]. }
    intros dirs. apply stays_reads. intros w2 HI2. cbn [id]. apply stays_at_bind; [|intros; apply stays_ret].
    destruct include; [|by apply stays_ret]. apply aside_trans_stays; [done|]. apply aside_remove_dirs; [|by eapply Hrefl].
    apply walked_deletable; [by eapply aside_plain|done..].
Qed.
Lemma aside_marker backup ts : stays (λ _, False) (aside t1) (_write_pending_deletion s io iso dumps backup ts).
Proof.
  pose proof (reg_plain _ _ Hreg) as Hp. pose proof (reg_apart _ _ Hreg) as Ha. pose proof (reg_temporary _ _ Hreg) as Ht.
  rewrite !Forall_cons in Hp. rewrite !Forall_cons in Ha. destruct Hp as (_ & Hp & _), Ha as (_ & _ & _ & _ & Ha1 & Ha2 & _).
  assert (∀ t name, aside t1 t → entry t (prusa_cam_dir s ++ [name]) = prusa_cam_dir s ++ [name]) as He.
  { intros t name HI. apply plain_entry. rewrite dirname_snoc. by eapply aside_plain. }
  assert (∀ p, ¬ backups_dir s `prefix_of` p → (∀ t, aside t1 t → entry t p = p) → stays os_only (aside t1) (remove io p)) as Hremove.
  { intros p Hne Hent. unfold remove. apply stays_reads. intros w HI. cbn [id]. rewrite Hent by done.
    destruct (dk_tree w !! p) as [[]|]; [by apply stays_fail|..]; (apply stays_remove_entry; [by apply aside_delete|done]). }
  unfold _write_pending_deletion. apply stays_get. intros w HI. eapply stays_at_try with (P' := os_only); [| |by intros e ->].
  - apply stays_at_bind; [refine (stays_write_file io _ _ _ _ w HI)|].
    + intros t data HIt. assert (realpath t (temporary s) = temporary s) as ->.
      { rewrite realpath_entry; [by apply He|]. unfold temporary at 1. rewrite He by done. by eapply aside_no_link. }
      intros Hd Hor. apply aside_insert; [done..|]. apply wf_insert_entry; [apply HIt|by unfold temporary; destruct (prusa_cam_dir s)|done|].
      by destruct Hor as [->|[old ->]].
    + intros _. apply stays_bind; [|intros; apply stays_ret]. unfold replace. apply stays_reads. intros w1 HI1. cbn [id].
      rewrite (He _ _ HI1 : entry _ (temporary s) = temporary s), (He _ _ HI1 : entry _ (pending_deletion_path s) = pending_deletion_path s).
      destruct (dk_tree w1 !! temporary s) as [[|data|to]|] eqn:Hs; [by apply stays_fail| |by apply (aside_no_link _ _ _ HI1 Ht) in Hs|by apply stays_fail].
      assert (dk_tree w1 !! pending_deletion_path s ≠ Some NDir → stays_at os_only (aside t1)
        (if bool_decide (dk_tree w1 !! dirname (pending_deletion_path s) = Some NDir)
         then op io (λ t', <[pending_deletion_path s := NFile data]> (delete (temporary s) t')) else fail "No such file or directory") w1) as Hmove.
      { intros Hnd. case_bool_decide as Hd; [|by apply stays_fail]. apply stays_at_op; [done|].
        assert (aside t1 (delete (temporary s) (dk_tree w1))) as H1.
        { eapply (aside_delete t1); [done|exact HI1|by unfold temporary; destruct (prusa_cam_dir s)|exact Hs|by left]. }
        apply aside_insert; [done..|]. apply wf_insert_entry; [apply H1|by unfold pending_deletion_path; destruct (prusa_cam_dir s)| |].
        - rewrite lookup_delete_ne; [done|congruence].
        - intros [_ ?]%lookup_delete_Some. done. }
      destruct (dk_tree w1 !! pending_deletion_path s) as [[]|]; [by apply stays_fail|..]; by apply Hmove.
  - intros e _ _. apply stays_get. intros w1 HI1. cbv zeta. apply stays_at_bind; [|intros; apply stays_ret].
    eapply stays_at_try with (P' := os_only); [apply Hremove; [done|intros t; apply He|done]|intros; apply stays_ret|by intros e' ->].
Qed.
End Marked.
End Aside.

(** *** The whole reset *)

Section Whole.
Context (s : settings) (io : nat → option pystr) (stamp iso : nat → pystr)
  (dumps : list (pyval * pyval) → bytes) (mint : nat → pystr) (loads : bytes → option pyval) (cwd : path).

(** Every file that is copied is in its place, or its copy is in the backup [b]. *)
Definition still_there (include : bool) (t0 : tree) (b : path) (t : tree) : Prop :=
  ∀ p rel data, copied s include p rel → t0 !! p = Some (NFile data) →
    t !! p = Some (NFile data) ∨ t !! (b ++ rel) = Some (NFile data).

Lemma perform_keeps include w : regular s (dk_tree w) →
  along (perform s io stamp iso dumps include)
    (still_there include (dk_tree w) (_unique_backup_path s (dk_tree w) (stamp (dk_ops w))))
    (λ r w', still_there include (dk_tree w) (_unique_backup_path s (dk_tree w) (stamp (dk_ops w))) (dk_tree w')) w.
Proof.
  intros Hreg. set (b := _unique_backup_path _ _ _). set (t0 := dk_tree w) in *.
  assert (∀ t, grown t0 t → still_there include t0 b t) as Hgrown by (intros t Hg p rel data _ H0; left; by eapply grown_keep).
  assert (∀ t1 t, has_copies s include t0 b (λ _, True) t1 → aside s t1 t → still_there include t0 b t) as Haside.
  { intros t1 t [_ Hc] (_ & _ & Hk) p rel data Hcp H0. right. rewrite Hk; [by eapply Hc|].
    pose proof (unique_backup_new s t0 (stamp (dk_ops w))) as [[i Hi] _]. fold b in Hi. rewrite Hi. unfold candidate. rewrite <-app_assoc.
    by exists ([candidate_name (BACKUP_PREFIX ++ stamp (dk_ops w)) i] ++ rel). }
  pose proof (Hgrown t0 (grown_refl _ (reg_wf _ _ Hreg))) as Hstart.
  unfold perform. apply along_bind, along_reads. cbn [id]. fold t0. destruct (_safety_reason s t0); [by apply along_ret|].
  apply along_bind, along_get. cbv zeta. apply along_attempt.
  eapply along_mono; [exact (backup_complete s io include (stamp (dk_ops w)) w Hreg)|exact Hgrown|].
  intros [b'|e] w1 _ [Hg H1]; [|split; [done|]; by apply along_ret, Hgrown].
  destruct H1 as [-> Hcopies]. pose proof (regular_grown s t0 _ Hreg Hg) as Hreg1. pose proof (aside_refl s _ (reg_wf _ _ Hreg1)) as Hrefl.
  specialize (Haside (dk_tree w1)). apply along_attempt.
  eapply along_mono; [exact (aside_delete_targets s io (dk_tree w1) Hreg1 include w1 Hrefl)|auto|].
  intros [[[[gone dirs] count] total]|e] w2 _ [H2 He]; [|split; [exact He|by apply along_ret, Haside]].
  apply along_bind. eapply along_mono; [exact (aside_marker s io iso dumps (dk_tree w1) Hreg1 b (stamp (dk_ops w)) w2 H2)|auto|].
  intros [marker|e] w3 _ [H3 Hno]; [by apply along_ret, Haside|done].
Qed.

(** C9: in every state a reset goes through, whichever operation fails and wherever the process is
    killed, each of the four documents, and each file of the timelapse store when that is
    reset too, is still in its place or complete in the backup, as far as the operations made so far
    took effect: the code does not sync the copies, so a power cut is not covered. *)
Theorem reset_keeps_a_copy token include o w : regular s (dk_tree w) →
  let w' := (step s io stamp iso dumps mint loads cwd (Execute token include) (o, w)).2 in
  ∃ states, dk_past w' = dk_past w ++ states ∧
    Forall (still_there include (dk_tree w) (_unique_backup_path s (dk_tree w) (stamp (dk_ops w)))) (dk_tree w' :: states).
Proof.
  intros Hreg. destruct (_begun o && _confirmed o && bool_decide (as_str token = Some (_token o))) eqn:Hacc.
  2: { destruct (step_refused s io stamp iso dumps mint loads cwd token include o w Hacc) as [report ->]. cbn [snd]. exists [].
       rewrite app_nil_r. split; [done|]. constructor; [|done]. intros p rel data _ H0. by left. }
  rewrite !andb_true_iff in Hacc. destruct Hacc as [[Hb Hc] Ht]. cbn [step]. unfold execute. rewrite Hb, Hc, Ht. cbn [negb].
  pose proof (perform_keeps include w Hreg) as [(states & Hp & Hall) Hend]. unfold mbind, pym_bind.
  destruct (perform _ _ _ _ _ _ w) as [[report|e] w1]; cbn [fst snd] in *; exists states; by split; [|constructor].
Qed.

(** Before a claimed boot the disk is left as it is; after one nothing is changed but that
    entries below the real backups directory, and the marker, are removed. *)
Theorem finalize_deletes_backup_only claimed w : wf (dk_tree w) → plain (dk_tree w) (prusa_cam_dir s) →
  let w' := (finalize_after_claimed_boot s io loads cwd claimed w).2 in
  ∃ states, dk_past w' = dk_past w ++ states ∧
    Forall (λ t : tree, ∀ x, t !! x = dk_tree w !! x ∨ claimed = true ∧ t !! x = None ∧
      (realpath (dk_tree w) (backups_dir s) `prefix_of` x ∨ x = pending_deletion_path s)) (dk_tree w' :: states).
Proof.
  intros Hwf Hcam. set (t0 := dk_tree w) in *.
  set (I := λ t : tree, wf t ∧ plain t (prusa_cam_dir s) ∧ ∀ x, t !! x = t0 !! x ∨ claimed = true ∧ t !! x = None ∧
    (realpath t0 (backups_dir s) `prefix_of` x ∨ x = pending_deletion_path s)).
  assert (I t0) as H0 by (split; [done|split; [done|by left]]).
  assert (claimed = true → ∀ e, realpath t0 (backups_dir s) `prefix_of` e ∨ e = pending_deletion_path s → allows_delete I e) as Hdel.
  { intros Hc e He t nd (Hwft & Hpl & Hk) Hne Hnd Hor. split; [|split].
    - apply wf_delete; [done..|]. rewrite Hnd. destruct Hor as [Hnd'|?]; [left; congruence|by right].
    - intros q Hq to [_ Hto]%lookup_delete_Some. by apply (Hpl q Hq) in Hto.
    - intros x. destruct (decide (x = e)) as [->|Hx]; [right; by rewrite lookup_delete_eq|rewrite lookup_delete_ne by done; apply Hk]. }
  assert (stays_at (λ _, False) I (finalize_after_claimed_boot s io loads cwd claimed) w) as [[states [Hp Hall]] [Hend _]].
  2: { exists states. split; [exact Hp|]. constructor; [by destruct Hend as (_ & _ & Hk)|]. eapply Forall_impl; [exact Hall|]. by intros t (_ & _ & Hk). }
  unfold finalize_after_claimed_boot. apply stays_at_reads. cbn [id]. fold t0.
  destruct (_safety_reason s t0) as [why|]; [by apply stays_ret|].
  destruct (pending_deletion _ _ _) as [marker|]; [|by apply stays_ret]. cbv zeta.
  destruct (get_key (u "backup_path") marker) as [| | | |[|c text]| | |]; try by apply stays_ret.
  set (backup := parse_path _ cwd (c :: text)). destruct (islink _ _) eqn:Hl; [by apply stays_ret|].
  destruct (_ || _) eqn:Hin; [by apply stays_ret|]. destruct claimed; [|by apply stays_ret]. cbn [negb].
  match goal with |- context [finalized true true _ _ ?ts] => set (timestamp := ts) end.
  assert (stays (λ _, False) I (_ ← _remove_marker s io;
    mret (finalized true true "backup deleted after a successful claimed boot" (VStr (c :: text)) timestamp))) as Hdone.
  { apply stays_bind; [|intros; apply stays_ret]. intros w1 H1. unfold _remove_marker.
    eapply stays_at_try with (P' := os_only); [|intros; apply stays_ret|by intros e ->].
    unfold remove. apply stays_at_reads. cbn [id].
    rewrite (plain_entry (dk_tree w1) (pending_deletion_path s)) by (unfold pending_deletion_path; rewrite dirname_snoc; apply H1).
    destruct (dk_tree w1 !! _) as [[]|]; [by apply stays_fail|..].
    all: apply stays_remove_entry; [by apply Hdel; [|right]|done]. }
  destruct (exists_ _ _); [|by apply Hdone]. apply stays_at_bind; [|intros [e|]; [apply stays_ret|exact Hdone]].
  eapply stays_at_try with (P' := λ e, false = false ∧ os_only e).
  - apply stays_at_bind; [apply stays_at_rmtree; [exact H0|]|intros; apply stays_ret].
    intros e _ He. apply Hdel; [done|left]. etrans; [|exact He]. fold t0. apply islink_false in Hl. rewrite <-(realpath_entry _ _ Hl).
    apply orb_false_iff in Hin as [_ Hin]. by apply negb_false_iff, within_prefix in Hin.
  - intros e _ _. apply stays_get. intros w1 H1. by apply stays_ret.
  - by intros e [_ ->].
Qed.
End Whole.

(** ** The layout of the appliance *)

Definition appliance : settings := layout (Absolute [u "data"]) (Absolute [u "data"]) None None None None.
(** A tree is regular for the default layout when it is well formed and its directories are no links. *)
Lemma appliance_regular t : wf t → Forall (no_link t) [[u "data"]; prusa_cam_dir appliance; config_dir appliance; backups_dir appliance;
    [u "data"; SDCARD_DIRNAME]; timelapse_dir appliance; temporary appliance] →
  (∀ name, no_link t (backups_dir appliance ++ [name])) → regular appliance t.
Proof.
  intros Hwf Hn Hnames. rewrite !Forall_cons in Hn. destruct Hn as (H1 & H2 & H3 & H4 & H5 & H6 & H7 & _).
  assert (plain t [u "data"]) as P1 by (apply (plain_snoc t []); [|done]; intros q Hq to; apply prefix_nil_inv in Hq as ->; by rewrite (proj1 Hwf)).
  assert (plain t (prusa_cam_dir appliance)) as P2 by by apply (plain_snoc t [u "data"]).
  assert (real_root appliance t = [u "data"]) as Hroot by by apply realpath_plain.
  split; rewrite ?Hroot; try done.
  - repeat constructor; by eexists.
  - repeat constructor; [by apply (plain_snoc t (prusa_cam_dir appliance))|done|by apply (plain_snoc t [u "data"; SDCARD_DIRNAME]); [apply (plain_snoc t [u "data"])|]
      |by apply (plain_snoc t (prusa_cam_dir appliance))].
  - repeat constructor; by vm_compute; intros [k Hk].
  - repeat constructor; by vm_compute; intros [k Hk].
Qed.

(** ** A concrete disk *)

Section Demo.
Definition cam (names : list string) : path := prusa_cam_dir appliance ++ map u names.
Definition demo_tree (more : list (path * node)) : tree := list_to_map (more ++ [
  ([], NDir); ([u "data"], NDir); (cam [], NDir); (cam ["config"%string], NDir);
  (cam ["config"; "device.toml"]%string, NFile (u "device")); (cam ["config"; "secrets.toml"]%string, NFile (u "secret"));
  (cam ["state.json"]%string, NFile (u "{}")); (cam ["provisioning.json"]%string, NFile (u "{}"));
  ([u "data"; u "sdcard"], NDir); ([u "data"; u "sdcard"; u "timelapse"], NDir);
  ([u "data"; u "sdcard"; u "timelapse"; u "a"], NDir);
  ([u "data"; u "sdcard"; u "timelapse"; u "a"; u "1.jpg"], NFile (u "jpeg"));
  ([u "data"; u "sdcard"; u "timelapse"; u "out"], NLink [u "etc"]);
  ([u "etc"], NDir); ([u "etc"; u "passwd"], NFile (u "root"))]).
Definition demo_disk (t : tree) : disk := {| dk_tree := t; dk_ops := 0; dk_past := []; dk_errno := [] |}.
Definition demo_io (n : nat) : option pystr := None.
Definition demo_stamp (n : nat) : pystr := u "20260101-000000".
Definition demo_mint (n : nat) : pystr := u "token" ++ str_of_int (Z.of_nat n).
(** [json] as far as the backup path of the marker goes. *)
Definition demo_dumps (d : list (pyval * pyval)) : bytes := match get_key (u "backup_path") d with VStr s => s | _ => [] end.
Definition demo_loads (b : bytes) : option pyval := Some (VDict [(VStr (u "backup_path"), VStr (removelast b))]).
Definition demo_run (calls : list call) (t : tree) : FactoryReset * disk :=
  run appliance demo_io demo_stamp demo_stamp demo_dumps demo_mint demo_loads [] calls (fresh_reset, demo_disk t).
Definition demo_calls : list call := [Begin VNone; Confirm (VStr (demo_mint 0)); Execute (VStr (demo_mint 0)) true].
Definition demo_backup : path := backups_dir appliance ++ [u "factory-reset-20260101-000000"].

(** The reset keeps the copies, deletes the originals and a link but not what it points to;
    the copies go after a claimed boot only. *)
Example demo_reset :
  let t := dk_tree (demo_run demo_calls (demo_tree [])).2 in
  let t' := dk_tree (demo_run (demo_calls ++ [Finalize false; Finalize true]) (demo_tree [])).2 in
  (t !! cam ["config"; "secrets.toml"]%string = None ∧ t !! (demo_backup ++ [u "config"; u "secrets.toml"]) = Some (NFile (u "secret")) ∧
   t !! [u "data"; u "sdcard"; u "timelapse"; u "a"] = None ∧ t !! (demo_backup ++ [u "timelapse"; u "a"; u "1.jpg"]) = Some (NFile (u "jpeg")) ∧
   t !! [u "data"; u "sdcard"; u "timelapse"; u "out"] = None ∧ t !! [u "etc"; u "passwd"] = Some (NFile (u "root"))) ∧
  dk_tree (demo_run (demo_calls ++ [Finalize false]) (demo_tree [])).2 !! (demo_backup ++ [u "state.json"]) = Some (NFile (u "{}")) ∧
  t' !! (demo_backup ++ [u "state.json"]) = None ∧ t' !! pending_deletion_path appliance = None ∧ t' !! backups_dir appliance = Some NDir.
Proof. vm_compute. by split_and!. Qed.

(** The certificate and the key of the console, which are in the configuration directory too,
    are deleted by a reset that reports success, and the backup does not have them. *)
Lemma other_config_files_lost :
  let key := cam ["config"; "admin-tls"; "key.pem"]%string in
  let st := demo_run demo_calls (demo_tree [(cam ["config"; "admin-tls"]%string, NDir); (key, NFile (u "key"))]) in
  ok <$> _last_report st.1 = Some true ∧ dk_tree st.2 !! key = None ∧
  Forall (λ e : path * node, e.2 ≠ NFile (u "key")) (map_to_list (dk_tree st.2)).
Proof. vm_compute. split; [done|split; [done|]]. repeat constructor; done. Qed.

(** The marker is written through a link at its temporary name, whatever that names. *)
Lemma marker_follows_link :
  let st := demo_run demo_calls (demo_tree [(temporary appliance, NLink [u "etc"; u "passwd"])]) in
  ok <$> _last_report st.1 = Some true ∧ dk_tree st.2 !! [u "etc"; u "passwd"] = Some (NFile (path_str demo_backup ++ [10])).
Proof. by vm_compute. Qed.
(** With a link for the configuration directory a reset reports success and leaves the
    secrets where they are. *)
Lemma linked_config_kept :
  let t := <[cam ["config"%string] := NLink [u "data"; u "conf"]]> (demo_tree [([u "data"; u "conf"], NDir); ([u "data"; u "conf"; u "secrets.toml"], NFile (u "secret"))]) in
  let st := demo_run demo_calls (delete (cam ["config"; "device.toml"]%string) (delete (cam ["config"; "secrets.toml"]%string) t)) in
  ok <$> _last_report st.1 = Some true ∧ dk_tree st.2 !! [u "data"; u "conf"; u "secrets.toml"] = Some (NFile (u "secret")).
Proof. by vm_compute. Qed.

Lemma demo_wf : wf (demo_tree []).
Proof. by apply well_formed_wf; vm_compute. Qed.
Lemma demo_regular : regular appliance (demo_tree []).
Proof.
  apply appliance_regular; [exact demo_wf|repeat constructor; intros to; by vm_compute|].
  intros name to Hto. pose proof (proj2 demo_wf _ _ (mk_is_Some _ _ Hto)) as Hd. by vm_compute in Hd.
Qed.
Lemma deletes_only_inside_witness :
  demo_tree [] !! [u "etc"; u "passwd"] = Some (NFile (u "root")) ∧
  ∃ states, dk_past (demo_run demo_calls (demo_tree [])).2 = [] ++ states ∧ Forall (λ t : tree, ∀ x nd, ¬ [u "data"] `prefix_of` x →
    demo_tree [] !! x = Some nd → t !! x = Some nd) (dk_tree (demo_run demo_calls (demo_tree [])).2 :: states).
Proof.
  split; [done|]. assert (real_root appliance (demo_tree []) = [u "data"]) as Hr by by vm_compute. rewrite <-Hr.
  apply (deletes_only_inside appliance demo_io demo_stamp demo_stamp demo_dumps demo_mint demo_loads [] demo_calls fresh_reset (demo_disk (demo_tree []))).
  - exact demo_wf.
  - intros to. by vm_compute.
Defined.
Lemma reset_needs_two_confirmations_witness : confirmed_in demo_mint (VStr (demo_mint 0)) [Begin VNone; Confirm (VStr (demo_mint 0))].
Proof.
  apply (reset_needs_two_confirmations appliance demo_io demo_stamp demo_stamp demo_dumps demo_mint demo_loads []
    [Begin VNone; Confirm (VStr (demo_mint 0))] (demo_disk (demo_tree [])) (VStr (demo_mint 0)) true).
  intros Heq. apply (f_equal dk_ops) in Heq. vm_compute in Heq. done.
Defined.
Lemma reset_keeps_a_copy_witness :
  let w := demo_disk (demo_tree []) in
  let o := (demo_run [Begin VNone; Confirm (VStr (demo_mint 0))] (demo_tree [])).1 in
  let w' := (step appliance demo_io demo_stamp demo_stamp demo_dumps demo_mint demo_loads [] (Execute (VStr (demo_mint 0)) true) (o, w)).2 in
  dk_tree w' !! cam ["state.json"]%string = None ∧ ∃ states, dk_past w' = [] ++ states ∧
    Forall (still_there appliance true (demo_tree []) (_unique_backup_path appliance (demo_tree []) (demo_stamp 0))) (dk_tree w' :: states).
Proof.
  split; [by vm_compute|]. apply (reset_keeps_a_copy appliance demo_io demo_stamp demo_stamp demo_dumps demo_mint demo_loads [] (VStr (demo_mint 0)) true
    (demo_run [Begin VNone; Confirm (VStr (demo_mint 0))] (demo_tree [])).1 (demo_disk (demo_tree []))). exact demo_regular.
Defined.
Lemma prefix_spec_demo q : q `prefix_of` prusa_cam_dir appliance → q ∈ [[]; [u "data"]; prusa_cam_dir appliance].
Proof.
  intros [k Hk]. rewrite !elem_of_cons. destruct q as [|x [|y [|z q]]]; [by left|right; left|right; right; left|].
  - by injection Hk as <- _.
  - by injection Hk as <- <- _.
  - by injection Hk as _ _ Hk.
Qed.
Lemma finalize_deletes_backup_only_witness :
  let w := (demo_run demo_calls (demo_tree [])).2 in
  let w' := (finalize_after_claimed_boot appliance demo_io demo_loads [] true w).2 in
  dk_tree w' !! demo_backup = None ∧ ∃ states, dk_past w' = dk_past w ++ states ∧
    Forall (λ t : tree, ∀ x, t !! x = dk_tree w !! x ∨ true = true ∧ t !! x = None ∧
      (realpath (dk_tree w) (backups_dir appliance) `prefix_of` x ∨ x = pending_deletion_path appliance)) (dk_tree w' :: states).
Proof.
  intros w w'. split; [by vm_compute|]. apply (finalize_deletes_backup_only appliance demo_io demo_loads [] true w).
  - by apply well_formed_wf; vm_compute.
  - assert (Forall (no_link (dk_tree w)) [[]; [u "data"]; prusa_cam_dir appliance]) as Hall by (repeat constructor; intros to; by vm_compute).
    intros q Hq. apply prefix_spec_demo in Hq. rewrite Forall_forall in Hall. by apply Hall.
Defined.
End Demo.
