(* ===== verification/Migrations.v ===== *)
(** [app/migrations.py]: the fixes that the boot applies to the root file system once, on the
    file tree of [FileTree].  Any operation may fail, every command may fail or raise; reading a
    file that is there succeeds. *)
From S2P Require Import Prelude Crash PyValue PyText FileTree.

(** A command that was run: reloading systemd, remounting the root file system. *)
Inductive call := CDaemonReload | CMount (rw : bool).
Record world := { on : disk; calls : list call }.
(** What a migration does to a root directory. *)
Abbreviation migration := (path → PyM world bool).
Definition on_disk {A : Type} (m : PyM disk A) : PyM world A := λ w, let '(r, d) := m (on w) in (r, w{{on := d}}).
Definition looks {A : Type} (f : tree → A) : PyM world A := on_disk (reads f).

(** ** Text *)

Fixpoint has (needle s : pystr) : bool := starts_with needle s || match s with [] => false | _ :: s' => has needle s' end.
(** [text.replace(old, new, 1)]. *)
Fixpoint replace_first (old new s : pystr) : pystr :=
  if starts_with old s then new ++ drop (length old) s else match s with [] => [] | c :: s' => c :: replace_first old new s' end.
Definition line (s : string) : pystr := u s ++ [10].
Definition SYSTEMCTL : pystr := [34] ++ u "$SYSTEMCTL" ++ [34].

Section Migrations.
(** The text of the error of the [n]-th operation, the result of the [n]-th command. *)
Context (io : nat → option pystr) (system : nat → res Z).
Definition run_command (c : call) : PyM world Z := λ w, (system (length (calls w)), w{{calls := calls w ++ [c] }}).

(** [open(p).read()], [open(p, 'w')] and [open(p, 'a')] with one write. *)
Definition read_text (p : path) : PyM disk pystr :=
  t ← reads id;
  match t !! realpath t p with
  | Some (NFile data) => match utf8_decode data with Some s => mret (newlines s) | None => raise ValueError end
  | Some NDir => fail "Is a directory"
  | _ => fail "No such file or directory"
  end.
Definition write_text (p : path) (s : pystr) : PyM disk unit :=
  match utf8_encode s with Some data => write_file io p data | None => _ ← write_file io p []; raise ValueError end.
Definition append_text (p : path) (s : pystr) : PyM disk unit :=
  t ← reads id;
  match t !! realpath t p, utf8_encode s with
  | Some (NFile old), Some data => op io (insert (realpath t p) (NFile (old ++ data)))
  | Some (NFile _), None => raise ValueError
  | _, _ => write_text p s
  end.
Definition symlink (target p : path) : PyM disk unit :=
  t ← reads id;
  if negb (isdir t (dirname p)) then fail "No such file or directory"
  else if lexists t p then fail "File exists"
  else op io (insert (entry t p) (NLink target)).

(** ** The migrations *)

Definition DEV_NULL : path := [u "dev"; u "null"].
Definition unit_path (root : path) (name : string) : path := root ++ [u "etc"; u "systemd"; u "system"; u name].

Definition _001_create_mnt_sdcard : migration := λ root,
  let target := root ++ [u "mnt"; u "sdcard"] in
  _ ← on_disk (makedirs io target);
  looks (λ t, isdir t target).

Definition share_text : pystr :=
  line "[sdcard]" ++ line "   path = /mnt/sdcard" ++ line "   browseable = yes" ++ line "   read only = no" ++ line "   guest ok = yes" ++
  line "   force user = pibuddycam" ++ line "   create mask = 0644" ++ line "   directory mask = 0755".
Definition include_line : pystr := u "include = /etc/samba/smb-sdcard.conf".
Definition tmpfiles_text : pystr :=
  line "# Samba volatile state on the tmpfs /var (pibuddycam appliance)." ++ line "d /var/lib/samba          0755 root root -" ++
  line "d /var/lib/samba/private  0700 root root -" ++ line "d /var/log/samba          0755 root root -" ++ line "d /var/cache/samba        0755 root root -".
Definition _002_install_samba_config : migration := λ root,
  let samba_dir := root ++ [u "etc"; u "samba"] in
  let main_conf := samba_dir ++ [u "smb.conf"] in
  let tmpfiles := root ++ [u "etc"; u "tmpfiles.d"; u "pibuddycam-samba.conf"] in
  _ ← on_disk (makedirs io samba_dir);
  _ ← on_disk (write_text (samba_dir ++ [u "smb-sdcard.conf"]) share_text);
  is_file ← looks (λ t, isfile t main_conf);
  _ ← (if is_file : bool then
         content ← on_disk (read_text main_conf);
         if negb (has include_line content) then on_disk (append_text main_conf ([10] ++ include_line ++ [10])) else mret tt
       else on_disk (write_text main_conf (line "[global]" ++ line "   workgroup = WORKGROUP" ++ [10] ++ include_line ++ [10])));
  _ ← on_disk (makedirs io (dirname tmpfiles));
  _ ← on_disk (write_text tmpfiles tmpfiles_text);
  mret true.

Definition _003_mask_console_setup : migration := λ root,
  let unit := unit_path root "console-setup.service" in
  t ← looks id;
  if bool_decide (t !! entry t unit = Some (NLink DEV_NULL)) then mret true
  else
    _ ← (if exists_ t unit && negb (islink t unit) then on_disk (remove io unit) else mret tt);
    _ ← on_disk (makedirs io (dirname unit));
    _ ← on_disk (symlink DEV_NULL unit);
    mret true.

Definition persist_old : pystr := u "ExecStart=/opt/pibuddycam/venv/bin/python /opt/pibuddycam/persist_restore.py".
Definition persist_new : pystr := u "ExecStart=/opt/pibuddycam/launcher.sh persist_restore.py".
Definition _004_pi_persist_use_launcher : migration := λ root,
  let unit := unit_path root "pi-persist.service" in
  is_file ← looks (λ t, isfile t unit);
  if negb is_file then mret false
  else
    content ← on_disk (read_text unit);
    if has persist_new content then mret true
    else if negb (has persist_old content) then mret false
    else _ ← on_disk (write_text unit (replace_all persist_old persist_new content)); _ ← run_command CDaemonReload; mret true.

Definition priv_helper (root : path) : path := root ++ [u "usr"; u "libexec"; u "pibuddycam"; u "pibuddycam-priv"].
Definition start_old : pystr := u "exec " ++ SYSTEMCTL ++ u " start pibuddycam.target".
Definition start_new : pystr := u "exec " ++ SYSTEMCTL ++ u " --no-block start pibuddycam.target".
Definition _005_pibuddycam_priv_no_block : migration := λ root,
  let helper := priv_helper root in
  is_file ← looks (λ t, isfile t helper);
  if negb is_file then mret false
  else
    content ← on_disk (read_text helper);
    if has start_new content then mret true
    else if negb (has start_old content) then mret false
    else _ ← on_disk (write_text helper (replace_all start_old start_new content)); mret true.

Definition runtime_directory : pystr := u "RuntimeDirectory=pibuddycam".
Definition user_line : pystr := line "User=pibuddycam".
Definition runtime_addition : pystr :=
  user_line ++ line "# WP-UI2/AC-4: service-owned runtime dir for the local control socket." ++ line "RuntimeDirectory=pibuddycam" ++
  line "RuntimeDirectoryMode=0750".
Definition _006_runtime_directory : migration := λ root,
  let unit := unit_path root "pibuddycam.service" in
  is_file ← looks (λ t, isfile t unit);
  if negb is_file then mret false
  else
    content ← on_disk (read_text unit);
    if has runtime_directory content then mret true
    else if negb (has user_line content) then mret false
    else _ ← on_disk (write_text unit (replace_first user_line runtime_addition content)); _ ← run_command CDaemonReload; mret true.

Definition additions : list (pystr * pystr) :=
  [(u "check-update",
    line "   check-update)" ++ line "      # Report-only: pibuddycam-updater.service runs updater_install.py check." ++
    u "      exec " ++ SYSTEMCTL ++ line " start pibuddycam-updater.service" ++ line "      ;;");
   (u "reboot", line "   reboot)" ++ u "      exec " ++ SYSTEMCTL ++ line " reboot" ++ line "      ;;")].
Definition verb_mark (verb : pystr) : pystr := verb ++ u ")".
Definition fallback : pystr := line "   *)" ++ u "      exit 2".
Definition _007_pibuddycam_priv_system_verbs : migration := λ root,
  let helper := priv_helper root in
  is_file ← looks (λ t, isfile t helper);
  if negb is_file then mret false
  else
    content ← on_disk (read_text helper);
    if forallb (λ a, has (verb_mark a.1) content) additions then mret true
    else if negb (has fallback content) then mret false
    else
      let insertion := concat (map snd (List.filter (λ a, negb (has (verb_mark a.1) content)) additions)) in
      _ ← on_disk (write_text helper (replace_first fallback (insertion ++ fallback) content));
      mret true.

Definition MIGRATIONS : list (pystr * migration) :=
  [(u "001_create_mnt_sdcard", _001_create_mnt_sdcard); (u "002_install_samba_config", _002_install_samba_config);
   (u "003_mask_console_setup", _003_mask_console_setup); (u "004_pi_persist_use_launcher", _004_pi_persist_use_launcher);
   (u "005_pibuddycam_priv_no_block", _005_pibuddycam_priv_no_block); (u "006_runtime_directory", _006_runtime_directory);
   (u "007_pibuddycam_priv_system_verbs", _007_pibuddycam_priv_system_verbs)].

(** ** The runner *)

(** [json.load] of a text ([ValueError] is [JSONDecodeError]), [json.dumps] of the list of the
    names, and [sorted] of a set without a text. *)
Context (loads : pystr → res pyval) (dumps : list pyval → pystr) (sort_others : list pyval → res (list pyval)).

(** The set of applied names; [others] are entries of the file that are no text. *)
Record applied := { names : list pystr; others : list pyval }.
Definition nothing : applied := {| names := []; others := [] |}.
Definition set_of (l : list pyval) : applied :=
  {| names := remove_dups (omap as_str l); others := List.filter (λ v, bool_decide (as_str v = None)) l |}.
Definition applied_in (document : pyval) : res applied :=
  match document with
  | VDict d =>
      match get_key (u "applied") d with
      | VList l => Ret (if forallb hashable l then set_of l else nothing)
      | VStr s => Ret {| names := remove_dups ((λ c, [c]) <$> s); others := [] |}
      | VDict keys => Ret (set_of keys.*1)
      | _ => Ret nothing
      end
  | _ => Raise OtherError
  end.
Definition _load_state (p : path) : PyM world applied :=
  t ← looks id;
  match t !! realpath t p with
  | Some (NFile data) =>
      match utf8_decode data with
      | None => raise ValueError
      | Some s =>
          match loads (newlines s) with
          | Raise ValueError => mret nothing
          | Raise e => raise e
          | Ret document => of_res (applied_in document)
          end
      end
  | _ => mret nothing
  end.
(** Texts and other values cannot be compared. *)
Definition sorted_ (a : applied) : res (list pyval) :=
  match others a, names a with
  | [], l => Ret (VStr <$> merge_sort str_le l)
  | l, [] => sort_others l
  | _, _ => Raise TypeError
  end.
Definition tmp_of (p : path) : path := dirname p ++ [default [] (last p) ++ u ".tmp"].
Definition _save_state (a : applied) (p : path) : PyM world unit :=
  _ ← on_disk (makedirs io (dirname p));
  match sorted_ a with
  | Ret l => _ ← on_disk (write_text (tmp_of p) (dumps l ++ [10])); on_disk (replace io (tmp_of p) p)
  | Raise e => _ ← on_disk (write_text (tmp_of p) []); raise e
  end.
Definition _remount (rw : bool) : PyM world bool := code ← run_command (CMount rw); mret (code =? 0).

(** The names of the migrations that returned true; an exception is a failure. *)
Fixpoint apply_all (root : path) (pending : list (pystr * migration)) : PyM world (list pystr) :=
  match pending with
  | [] => mret []
  | (name, fn) :: rest =>
      ok ← try_except any_exception (fn root) (λ _, mret false);
      newly ← apply_all root rest;
      mret (if ok : bool then name :: newly else newly)
  end.
Definition with_names (newly : list pystr) (a : applied) : applied := {| names := list_union (names a) newly; others := others a |}.
Definition run_pending (migrations : list (pystr * migration)) (root state_path : path) : PyM world (list pystr) :=
  a ← _load_state state_path;
  match List.filter (λ m, negb (bool_decide (m.1 ∈ names a))) migrations with
  | [] => mret []
  | pending =>
      remounted ← _remount true;
      newly ← apply_all root pending;
      _ ← (if remounted : bool then _ ← _remount false; mret tt else mret tt);
      _ ← _save_state (with_names newly a) state_path;
      mret newly
  end.
End Migrations.

(** ** Text *)

Lemma has_infix needle s : has needle s = true ↔ infix_of needle s.
Proof.
  induction s as [|c s IH]; cbn [has]; rewrite orb_true_iff, starts_with_iff.
  - split; [intros [[r Hr]|]; [by exists [], r|done]|]. intros (a & b & Hab). left. destruct a; [by exists b|done].
  - rewrite IH. split.
    + intros [[r Hr]|Hin]; [by exists [], r|]. by apply (infix_app_r _ _ [c]).
    + intros [Hs|Hin]%infix_cons_inv; [left; by apply starts_with_iff|by right].
Qed.
Lemma replace_first_split old new s : old ≠ [] → has old s = true → ∃ p q, s = p ++ old ++ q ∧ replace_first old new s = p ++ new ++ q.
Proof.
  intros Hne. induction s as [|c s IH]; intros Hh; cbn [has] in Hh; [by destruct old|]. cbn [replace_first].
  destruct (starts_with old (c :: s)) eqn:Hs.
  - apply starts_with_iff in Hs as [q Hq]. exists [], q. split; [done|]. by rewrite Hq, drop_app_length.
  - destruct IH as (p & q & -> & ->); [done|]. by exists (c :: p), q.
Qed.
Lemma replace_all_keeps (P : Z → Prop) old new s : old ≠ [] → Forall P new → Forall P s → Forall P (replace_all old new s).
Proof.
  intros Hne Hnew. remember (length s) as n eqn:Hn. revert s Hn. induction (lt_wf n) as [n _ IH]. intros s -> Hs.
  destruct (replace_cases old new s Hne) as [[-> _]|(p & q & Hsp & -> & _)]; [done|]. rewrite Hsp, !Forall_app in Hs. destruct Hs as (Hp & _ & Hq).
  rewrite !Forall_app. split; [done|]. split; [done|]. apply (IH (length q)); [|done|done]. rewrite Hsp, !length_app. destruct old; [done|cbn; lia].
Qed.
Lemma replace_all_has old new s : old ≠ [] → has old s = true → infix_of new (replace_all old new s).
Proof.
  intros Hne Hh. destruct (replace_cases old new s Hne) as [[_ Hno]|(p & q & _ & -> & _)]; [by apply has_infix in Hh|].
  by eexists p, _.
Qed.

Section Edits.
Context (io : nat → option pystr) (system : nat → res Z).

(** ** Editing a file *)

Lemma op_tree f d d' : op io f d = (Ret tt, d') → dk_tree d' = f (dk_tree d).
Proof. unfold op. destruct (io _); [done|]. by intros [= <-]. Qed.
Lemma write_file_tree p data d d' : write_file io p data d = (Ret tt, d') →
  (∀ to, dk_tree d !! realpath (dk_tree d) p ≠ Some (NLink to)) ∧ dk_tree d !! realpath (dk_tree d) p ≠ Some NDir ∧
  dk_tree d' = <[realpath (dk_tree d) p := NFile data]> (dk_tree d).
Proof.
  unfold write_file, mbind at 1, pym_bind at 1, reads. cbn [id]. intros Hw.
  destruct (dk_tree d !! realpath (dk_tree d) p) as [[|old|to]|] eqn:Hp; try done; (split; [by intros|]; split; [done|]).
  all: case_bool_decide; [|done]; unfold mbind, pym_bind in Hw; destruct (op io _ d) as [[[]|] d1] eqn:H1; [|done];
    rewrite (op_tree _ _ _ Hw), (op_tree _ _ _ H1); by rewrite insert_insert_eq.
Qed.
Lemma write_text_tree p s d d' : write_text io p s d = (Ret tt, d') → ∃ data, utf8_encode s = Some data ∧
  no_link (dk_tree d) (realpath (dk_tree d) p) ∧ dk_tree d !! realpath (dk_tree d) p ≠ Some NDir ∧
  dk_tree d' = <[realpath (dk_tree d) p := NFile data]> (dk_tree d).
Proof.
  unfold write_text. destruct (utf8_encode s) as [data|]; [|unfold mbind, pym_bind; by destruct (write_file _ _ _ _) as [[[]|] ?]].
  intros (H1 & H2 & H3)%write_file_tree. by exists data.
Qed.
Lemma read_text_state p d : (read_text p d).2 = d ∨ ∃ e, (read_text p d).1 = Raise e.
Proof.
  unfold read_text, mbind, pym_bind, reads. cbn [id]. destruct (dk_tree d !! realpath (dk_tree d) p) as [[|data|to]|]; try (right; by eexists).
  destruct (utf8_decode data); [by left|right; by eexists].
Qed.
Lemma read_text_clean p d s : (read_text p d).1 = Ret s → Forall (λ x, x ≠ 13) s ∧ read_text p d = (Ret s, d).
Proof.
  intros Hr. assert (Forall (λ x, x ≠ 13) s) as Hs; [|split; [done|]].
  - revert Hr. unfold read_text, mbind, pym_bind, reads. cbn [id]. destruct (dk_tree d !! realpath (dk_tree d) p) as [[|data|to]|]; try done.
    destruct (utf8_decode data); [|done]. intros [= <-]. apply newlines_no_return.
  - destruct (read_text_state p d) as [H2|[e He]]; [|congruence]. by destruct (read_text p d) as [r d']; cbn in *; subst.
Qed.
Lemma read_after_write p s d d' : Forall (λ x, x ≠ 13) s → write_text io p s d = (Ret tt, d') → read_text p d' = (Ret s, d') ∧
  isfile (dk_tree d') p = true ∧ ∀ q, q ≠ realpath (dk_tree d) p → dk_tree d' !! q = dk_tree d !! q.
Proof.
  intros Hs (data & He & Hl & _ & Ht)%write_text_tree. pose proof (insert_same_links (dk_tree d) _ (NFile data) Hl ltac:(done)) as Hsl.
  assert (realpath (dk_tree d') p = realpath (dk_tree d) p) as Hrp by (rewrite Ht; by apply realpath_same_links).
  assert (dk_tree d' !! realpath (dk_tree d') p = Some (NFile data)) as Hd by (rewrite Hrp, Ht; apply lookup_insert_eq).
  split; [|split].
  - unfold read_text, mbind, pym_bind, reads. cbn [id]. rewrite Hd, (utf8_decode_encode _ _ He). by rewrite newlines_id.
  - unfold isfile. by rewrite Hd.
  - intros q Hq. rewrite Ht. by apply lookup_insert_ne.
Qed.

Lemma looks_ret {A : Type} (f : tree → A) w : looks f w = (Ret (f (dk_tree (on w))), w).
Proof. by destruct w. Qed.
Lemma on_disk_same {A : Type} (m : PyM disk A) r w : m (on w) = (r, on w) → on_disk m w = (r, w).
Proof. unfold on_disk. intros ->. by destruct w. Qed.

(** The four migrations that edit a file have this shape. *)
Definition edit (p : path) (is_done can : pystr → bool) (change : pystr → pystr) (after : PyM world bool) : PyM world bool :=
  is_file ← looks (λ t, isfile t p);
  if negb is_file then mret false
  else
    content ← on_disk (read_text p);
    if is_done content then mret true else if negb (can content) then mret false else _ ← on_disk (write_text io p (change content)); after.
(** What a completed edit leaves: the file has the new text, no other entry changed, and the edit
    finds itself done. *)
Definition stuck (p : path) (P : pystr → Prop) (fn : PyM world bool) (w w' : world) : Prop :=
  (∃ text, read_text p (on w') = (Ret text, on w') ∧ P text) ∧
  (∀ q, q ≠ realpath (dk_tree (on w)) p → dk_tree (on w') !! q = dk_tree (on w) !! q) ∧ fn w' = (Ret true, w').
Lemma edit_sticks p is_done can change after w w' :
  (∀ c, Forall (λ x, x ≠ 13) c → can c = true → is_done c = false → is_done (change c) = true ∧ Forall (λ x, x ≠ 13) (change c)) →
  (∀ w, on (after w).2 = on w) → edit p is_done can change after w = (Ret true, w') →
  stuck p (λ c, is_done c = true) (edit p is_done can change after) w w'.
Proof.
  intros Hch Ha. unfold edit at 1, mbind at 1, pym_bind at 1. rewrite looks_ret.
  destruct (isfile (dk_tree (on w)) p) eqn:Hf; cbn [negb]; [|done].
  assert (∀ w1 c, isfile (dk_tree (on w1)) p = true → read_text p (on w1) = (Ret c, on w1) → is_done c = true →
    edit p is_done can change after w1 = (Ret true, w1)) as Hagain.
  { intros w1 c H1 H2 H3. unfold edit, mbind, pym_bind. rewrite looks_ret, H1. cbn [negb]. by rewrite (on_disk_same _ _ _ H2), H3. }
  unfold mbind at 1, pym_bind at 1. destruct (read_text p (on w)) as [[content|e] d] eqn:Hread; [|unfold on_disk; by rewrite Hread].
  destruct (read_text_clean p (on w) content) as [Hclean Hread']; [by rewrite Hread|]. rewrite (on_disk_same _ _ _ Hread').
  destruct (is_done content) eqn:Hd.
  - intros [= <-]. split; [by exists content|]. split; [done|]. by eapply Hagain.
  - destruct (can content) eqn:Hc; cbn [negb]; [|done]. destruct (Hch content Hclean Hc Hd) as [Hd' Hclean'].
    unfold mbind, pym_bind, on_disk. destruct (write_text io p (change content) (on w)) as [[[]|e] d1] eqn:Hw; [|done]. intros Hafter.
    assert (on w' = d1) as Hon by (pose proof (Ha (w{{on := d1}})) as H1; by rewrite Hafter in H1).
    destruct (read_after_write p _ _ _ Hclean' Hw) as (H1 & H2 & H3). unfold stuck. rewrite Hon. split; [by exists (change content)|]. split; [exact H3|].
    apply (Hagain _ (change content)); by rewrite ?Hon.
Qed.
End Edits.

(** ** The text migrations *)

Section Shipped.
Context (io : nat → option pystr) (system : nat → res Z).

Definition no_return : pystr → Prop := Forall (λ x, x ≠ 13).
#[local] Instance no_return_dec s : Decision (no_return s).
Proof. unfold no_return. apply _. Defined.
Lemma verbs_done content : forallb (λ a, has (verb_mark a.1) content) additions = true ↔
  infix_of (verb_mark (u "check-update")) content ∧ infix_of (verb_mark (u "reboot")) content.
Proof. cbn [forallb additions fst]. rewrite !andb_true_iff, !has_infix. tauto. Qed.
(** The texts that the editing migrations put into a file. *)
Definition edits (root : path) : list (path * list pystr * migration) :=
  [(unit_path root "pi-persist.service", [persist_new], _004_pi_persist_use_launcher io system);
   (priv_helper root, [start_new], _005_pibuddycam_priv_no_block io);
   (unit_path root "pibuddycam.service", [runtime_directory], _006_runtime_directory io system);
   (priv_helper root, [verb_mark (u "check-update"); verb_mark (u "reboot")], _007_pibuddycam_priv_system_verbs io)].

Lemma added_mark p q (missing : bool) verb block rest : has (verb_mark verb) block = true → contains_char 32 (verb_mark verb) = false → verb_mark verb ≠ [] →
  (missing = false → infix_of (verb_mark verb) (p ++ fallback ++ q)) → (missing = true → infix_of block rest) →
  infix_of (verb_mark verb) (p ++ (rest ++ fallback) ++ q).
Proof.
  intros Hb Hsp' Hne Hold Hnew. assert (32 ∉ verb_mark verb) as Hsp.
  { intros H32%list_elem_of_In. assert (contains_char 32 (verb_mark verb) = true) as Hx; [|congruence]. apply existsb_exists. by exists 32. }
  destruct missing.
  - destruct (Hnew eq_refl) as (a & b & ->). apply infix_app_r, infix_app_l, infix_app_l, infix_app_r, infix_app_l. by apply has_infix.
  - change fallback with (32 :: drop 1 fallback) in Hold |- *. destruct (infix_split _ 32 p (drop 1 fallback ++ q) Hne Hsp (Hold eq_refl)) as [Hp|Hq].
    + by apply infix_app_l.
    + rewrite <-app_assoc. by apply infix_app_r, infix_app_r, (infix_app_r _ _ [32]).
Qed.
Lemma verbs_added content : no_return content → has fallback content = true →
  let insertion := concat (map snd (List.filter (λ a, negb (has (verb_mark a.1) content)) additions)) in
  forallb (λ a, has (verb_mark a.1) (replace_first fallback (insertion ++ fallback) content)) additions = true ∧
  no_return (replace_first fallback (insertion ++ fallback) content).
Proof.
  intros Hc Hf insertion. destruct (replace_first_split fallback (insertion ++ fallback) content) as (p & q & Hsplit & ->); [done|done|].
  assert (∀ verb block, (verb, block) ∈ additions → negb (has (verb_mark verb) content) = true → infix_of block insertion) as Hin.
  { intros verb block Hin Hmiss. unfold insertion. clear -Hin Hmiss. induction additions as [|[v b] l IH]; [by apply not_elem_of_nil in Hin|].
    apply elem_of_cons in Hin as [[= <- <-]|Hin]; cbn [List.filter fst].
    - rewrite Hmiss. cbn [map concat snd]. exists [], (concat (map snd (List.filter (λ a, negb (has (verb_mark a.1) content)) l))). done.
    - destruct (negb (has (verb_mark v) content)); [|by apply IH]. cbn [map concat snd]. by apply infix_app_r, IH. }
  assert (∀ verb, negb (has (verb_mark verb) content) = false → infix_of (verb_mark verb) (p ++ fallback ++ q)) as Hhas.
  { intros verb Hv. apply negb_false_iff, has_infix in Hv. by rewrite Hsplit in Hv. }
  split.
  - apply verbs_done. split.
    + eapply (added_mark p q _ (u "check-update")); [|by vm_compute|done|apply Hhas|apply Hin; by left]. by vm_compute.
    + eapply (added_mark p q _ (u "reboot")); [|by vm_compute|done|apply Hhas|apply Hin; by right; left]. by vm_compute.
  - assert (no_return insertion) as Hins.
    { unfold insertion, no_return. apply Forall_concat, Forall_map, Forall_forall. intros [v b] Hvb%list_elem_of_In. apply filter_In in Hvb as [Hvb _].
      assert (Forall (λ a, no_return a.2) additions) as Hall by (apply (bool_decide_unpack _); by vm_compute).
      rewrite Forall_forall in Hall. apply list_elem_of_In in Hvb. by apply (Hall _ Hvb). }
    unfold no_return in *. rewrite Hsplit in Hc. rewrite !Forall_app in *. tauto.
Qed.
Lemma runtime_added content : no_return content → has user_line content = true →
  has runtime_directory (replace_first user_line runtime_addition content) = true ∧ no_return (replace_first user_line runtime_addition content).
Proof.
  intros Hc Hf. destruct (replace_first_split user_line runtime_addition content) as (p & q & Hsplit & ->); [done|done|].
  assert (no_return runtime_addition) as Hr by (apply (bool_decide_unpack _); by vm_compute). split.
  - apply has_infix, infix_app_r, infix_app_l, has_infix. by vm_compute.
  - unfold no_return in *. rewrite Hsplit in Hc. rewrite !Forall_app in *. tauto.
Qed.
Lemma line_replaced old new content : old ≠ [] → no_return new → no_return content → has old content = true →
  has new (replace_all old new content) = true ∧ no_return (replace_all old new content).
Proof. intros Ho Hn Hc Hh. split; [by apply has_infix, replace_all_has|by apply replace_all_keeps]. Qed.

(** C39: A migration that edits a file and returns true has left the texts it is for in that file,
    whatever was there, and no other entry of the file system changed; running it again returns
    true and does nothing at all. *)
Theorem edits_stick root p marks (fn : migration) w w' : (p, marks, fn) ∈ edits root → fn root w = (Ret true, w') →
  (∃ text, read_text p (on w') = (Ret text, on w') ∧ Forall (λ mark, infix_of mark text) marks) ∧
  (∀ q, q ≠ realpath (dk_tree (on w)) p → dk_tree (on w') !! q = dk_tree (on w) !! q) ∧
  fn root w' = (Ret true, w').
Proof.
  intros Hin Hrun.
  assert (∀ is_done can change after, (∀ c, no_return c → can c = true → is_done c = false → is_done (change c) = true ∧ no_return (change c)) →
    (∀ w, on (after w).2 = on w) → (∀ c, is_done c = true → Forall (λ mark, infix_of mark c) marks) → fn root = edit io p is_done can change after →
    (∃ text, read_text p (on w') = (Ret text, on w') ∧ Forall (λ mark, infix_of mark text) marks) ∧
    (∀ q, q ≠ realpath (dk_tree (on w)) p → dk_tree (on w') !! q = dk_tree (on w) !! q) ∧ fn root w' = (Ret true, w')) as Hedit.
  { intros is_done can change after Hch Ha Hm Hfn. rewrite Hfn in *.
    destruct (edit_sticks io p is_done can change after w w' Hch Ha Hrun) as ((text & Hr & Hd) & Hq & Hag). split; [|done]. exists text. auto. }
  unfold edits in Hin. rewrite !elem_of_cons in Hin. destruct Hin as [[= -> -> ->]|[[= -> -> ->]|[[= -> -> ->]|[[= -> -> ->]|Hin%not_elem_of_nil]]]]; [..|done].
  - apply (Hedit (has persist_new) (has persist_old) (replace_all persist_old persist_new) (_ ← run_command system CDaemonReload; mret true)).
    + intros c Hc Hh _. apply line_replaced; try done. apply (bool_decide_unpack _). by vm_compute.
    + intros w0. unfold mbind, pym_bind, run_command. by destruct (system _).
    + intros c Hc%has_infix. by repeat constructor.
    + reflexivity.
  - apply (Hedit (has start_new) (has start_old) (replace_all start_old start_new) (mret true : PyM world bool)).
    + intros c Hc Hh _. apply line_replaced; try done. apply (bool_decide_unpack _). by vm_compute.
    + done.
    + intros c Hc%has_infix. by repeat constructor.
    + reflexivity.
  - apply (Hedit (has runtime_directory) (has user_line) (replace_first user_line runtime_addition) (_ ← run_command system CDaemonReload; mret true)).
    + intros c Hc Hh _. by apply runtime_added.
    + intros w0. unfold mbind, pym_bind, run_command. by destruct (system _).
    + intros c Hc%has_infix. by repeat constructor.
    + reflexivity.
  - apply (Hedit (λ c, forallb (λ a, has (verb_mark a.1) c) additions) (has fallback)
      (λ c, replace_first fallback (concat (map snd (List.filter (λ a, negb (has (verb_mark a.1) c)) additions)) ++ fallback) c) (mret true : PyM world bool)).
    + intros c Hc Hh _. by apply verbs_added.
    + done.
    + intros c Hc%verbs_done. destruct Hc. by repeat constructor.
    + reflexivity.
Qed.
End Shipped.

(** ** The runner *)

Section Runner.
Context (io : nat → option pystr) (system : nat → res Z) (loads : pystr → res pyval) (dumps : list pyval → pystr)
  (sort_others : list pyval → res (list pyval)).
(** A list of names is written in text that is read back. *)
Record codec_ok : Prop := {
  dumps_plain l : no_return (dumps (VStr <$> l)) ∧ is_Some (utf8_encode (dumps (VStr <$> l) ++ [10]));
  loads_dumps l : loads (dumps (VStr <$> l) ++ [10]) = Ret (VDict [(VStr (u "applied"), VList (VStr <$> l))]);
}.
Abbreviation load := (_load_state loads).
Abbreviation run := (run_pending io system loads dumps sort_others).
Definition pending_of (a : applied) (migrations : list (pystr * migration)) : list (pystr * migration) :=
  List.filter (λ m, negb (bool_decide (m.1 ∈ names a))) migrations.

(** The migrations are run in order, each on the world that the one before left; a failure is
    not the end. *)
Inductive ran (root : path) : list (pystr * migration) → world → list (pystr * bool) → world → Prop :=
  | ran_nil w : ran root [] w [] w
  | ran_cons name fn rest w r w1 l w2 : fn root w = (r, w1) → ran root rest w1 l w2 →
      ran root ((name, fn) :: rest) w ((name, match r with Ret ok => ok | Raise _ => false end) :: l) w2.
Definition succeeded (l : list (pystr * bool)) : list pystr := (List.filter snd l).*1.

Lemma apply_all_ran root pending w : ∃ l w', ran root pending w l w' ∧ apply_all root pending w = (Ret (succeeded l), w').
Proof.
  revert w. induction pending as [|[name fn] rest IH]; intros w; [by eexists [], w; split; [constructor|]|]. cbn [apply_all].
  destruct (fn root w) as [r w1] eqn:Hfn. destruct (IH w1) as (l & w2 & Hran & Happ).
  eexists (_ :: l), w2. split; [by econstructor|]. unfold mbind, pym_bind, try_except. rewrite Hfn.
  destruct r as [ok|e]; cbn [any_exception mret pym_ret]; rewrite Happ; [by destruct ok|done].
Qed.
Lemma ran_names root pending w l w' : ran root pending w l w' → l.*1 = pending.*1.
Proof. induction 1 as [|name fn rest w r w1 l w2 _ _ IH]; [done|]. cbn. by f_equal. Qed.

Lemma load_pure p w : (load p w).2 = w.
Proof.
  unfold _load_state, mbind, pym_bind. rewrite looks_ret. cbn [id]. destruct (dk_tree (on w) !! _) as [[|data|to]|]; try done.
  destruct (utf8_decode data); [|done]. destruct (loads _) as [v|e]; [done|by destruct e].
Qed.
Lemma names_read (l : list pystr) : applied_in (VDict [(VStr (u "applied"), VList (VStr <$> l))]) = Ret {| names := remove_dups l; others := [] |}.
Proof.
  unfold applied_in. change (get_key (u "applied") [(VStr (u "applied"), VList (VStr <$> l))]) with (VList (VStr <$> l)). cbv iota.
  assert (forallb hashable (VStr <$> l) = true) as -> by (induction l; done). unfold set_of. do 2 f_equal.
  - f_equal. induction l as [|x l IH]; [done|]. cbn. by f_equal.
  - by induction l.
Qed.

Lemma makedirs_there n p d : dk_tree d !! realpath (dk_tree d) p = Some NDir → is_Some (dk_tree d !! entry (dk_tree d) p) →
  isdir (dk_tree d) (dirname p) = true → ∃ e, makedirs_from io n p d = (Ret tt, d{{dk_errno := e}}).
Proof.
  intros Hp Hx Hd. assert (isdir (dk_tree d) p = true) as Hdir by (by apply isdir_spec). assert (try_except os_error (mkdir io p) (λ e, t ← reads id; if isdir t p then mret tt else raise e) d = (Ret tt, d{{dk_errno := u "File exists"}})) as Hmk.
  { unfold try_except, mkdir, mbind, pym_bind, reads. cbn [id]. rewrite Hd. cbn [negb]. unfold lexists. rewrite bool_decide_eq_true_2 by done.
    cbn [fail os_error]. unfold set_errno. change (dk_tree (d{{dk_errno := u "File exists"}})) with (dk_tree d). by rewrite Hdir. }
  exists (u "File exists"). destruct n as [|n]; cbn [makedirs_from]; unfold mbind at 1, pym_bind at 1, reads at 1; cbn [id]; unfold mbind at 1, pym_bind at 1.
  - exact Hmk.
  - unfold exists_. rewrite Hd. cbn [orb]. exact Hmk.
Qed.

(** The file of the state and its directory are in place: no link leads there. *)
Definition in_place (t : tree) (dir : path) (name : pystr) : Prop :=
  wf t ∧ plain t dir ∧ t !! dir = Some NDir ∧ no_link t (dir ++ [name ++ u ".tmp"]).
Lemma dir_found t dir : wf t → plain t dir → t !! dir = Some NDir →
  is_Some (t !! entry t dir) ∧ isdir t (dirname dir) = true ∧ t !! realpath t dir = Some NDir.
Proof.
  intros Hwf Hp Hd. assert (plain t (dirname dir)) as Hp' by (apply (plain_prefix t _ (drop (pred (length dir)) dir)); unfold dirname; by rewrite take_drop).
  split; [rewrite plain_entry by done; by rewrite Hd|]. split; [|by rewrite realpath_plain].
  apply isdir_spec. rewrite realpath_plain by done. destruct dir as [|x l] using rev_ind; [apply Hwf|]. rewrite dirname_snoc.
  by eapply wf_above; [exact Hwf|by rewrite Hd|].
Qed.
Lemma save_load a dir name w r w' : codec_ok → others a = [] → in_place (dk_tree (on w)) dir name →
  _save_state io dumps sort_others a (dir ++ [name]) w = (r, w') →
  calls w' = calls w ∧ (r = Ret tt → load (dir ++ [name]) w' = (Ret {| names := remove_dups (merge_sort str_le (names a)); others := [] |}, w')).
Proof.
  intros Hcodec Ho (Hwf & Hplain & Hdir & Htmp). unfold _save_state, sorted_, tmp_of. rewrite Ho, dirname_snoc, last_snoc. change (default [] (Some name)) with name.
  set (tmp := dir ++ [name ++ u ".tmp"]) in *. set (text := dumps (VStr <$> merge_sort str_le (names a)) ++ [10]).
  destruct (dir_found (dk_tree (on w)) dir Hwf Hplain Hdir) as (H1 & H2 & H3).
  destruct (makedirs_there (length dir) dir (on w) H3 H1 H2) as [e He]. fold (makedirs io dir) in He.
  unfold mbind, pym_bind, on_disk. rewrite He. set (d0 := (on w){{dk_errno := e}}). change (dk_tree (on w)) with (dk_tree d0) in *.
  change (on (w{{on := d0}})) with d0. destruct (write_text io tmp text d0) as [[[]|ex] d1] eqn:Hw; [|intros [= <- <-]; by split].
  change (on (w{{on := d0; on := d1}})) with d1. destruct (replace io tmp (dir ++ [name]) d1) as [rr d2] eqn:Hr. intros [= <- <-]. split; [done|]. intros ->.
  apply write_text_tree in Hw as (data & Henc & _ & _ & Ht1).
  assert (entry (dk_tree d0) tmp = tmp) as Hetmp by (apply plain_entry; unfold tmp; by rewrite dirname_snoc).
  assert (realpath (dk_tree d0) tmp = tmp) as Hrtmp by (by rewrite realpath_entry; rewrite Hetmp). rewrite Hrtmp in Ht1.
  assert (plain (dk_tree d1) dir) as Hplain1.
  { intros q Hq to. rewrite Ht1, lookup_insert_ne; [by apply Hplain|]. intros <-. apply prefix_length in Hq. unfold tmp in Hq. rewrite length_app in Hq. cbn in Hq. lia. }
  assert (entry (dk_tree d1) tmp = tmp ∧ entry (dk_tree d1) (dir ++ [name]) = dir ++ [name]) as [He1 He2].
  { split; apply plain_entry; unfold tmp; by rewrite dirname_snoc. }
  unfold replace, mbind, pym_bind, reads in Hr. cbn [id] in Hr. rewrite He1, He2, Ht1, lookup_insert_eq in Hr. rewrite <-Ht1 in Hr.
  assert (dk_tree d2 = <[dir ++ [name] := NFile data]> (delete tmp (dk_tree d1))) as Ht2.
  { destruct (dk_tree d1 !! (dir ++ [name])) as [[|?|?]|]; try done; (case_bool_decide; [|done]); apply (op_tree _ _ _ _ Hr). }
  unfold _load_state, mbind, pym_bind. rewrite looks_ret. cbn [id]. match goal with |- context [dk_tree (on ?x)] => change (on x) with d2 end.
  assert (realpath (dk_tree d2) (dir ++ [name]) = dir ++ [name]) as ->.
  { apply realpath_plain, plain_snoc; [|intros to; by rewrite Ht2, lookup_insert_eq].
    intros q Hq to. assert (length q ≤ length dir)%nat as Hlen by (by apply prefix_length). rewrite Ht2, lookup_insert_ne, lookup_delete_ne; [by apply Hplain1|..];
      intros <-; unfold tmp in Hlen; rewrite length_app in Hlen; cbn in Hlen; lia. }
  rewrite Ht2, lookup_insert_eq, (utf8_decode_encode _ _ Henc). destruct (dumps_plain Hcodec (merge_sort str_le (names a))) as [Hclean _].
  rewrite newlines_id by (apply Forall_app; split; [exact Hclean|by repeat constructor]). unfold text. rewrite (loads_dumps Hcodec), names_read. done.
Qed.

(** Writing the state file runs no command. *)
Lemma save_calls a newly p w : calls ((_ ← _save_state io dumps sort_others a p; mret newly) w : res (list pystr) * world).2 = calls w ∧
  ∀ o, ((_ ← _save_state io dumps sort_others a p; mret newly) w : res (list pystr) * world).1 = Ret o → o = newly.
Proof.
  assert (calls (_save_state io dumps sort_others a p w).2 = calls w) as Hs.
  { unfold _save_state, mbind, pym_bind, on_disk. destruct (makedirs io (dirname p) (on w)) as [[[]|e] d1]; [|done].
    destruct (sorted_ sort_others a) as [l|e].
    - cbn [on]. destruct (write_text io _ _ _) as [[[]|e] d2]; [|done]. by destruct (replace io _ _ _) as [? d3].
    - cbn [on]. by destruct (write_text io _ _ _) as [[[]|e'] d2]. }
  unfold mbind, pym_bind. destruct (_save_state io dumps sort_others a p w) as [[[]|e] w1]; cbn in *; split; try done. by intros o [= <-].
Qed.
Lemma save_names a newly dir name w r w' : codec_ok → others a = [] → in_place (dk_tree (on w)) dir name →
  (_ ← _save_state io dumps sort_others (with_names newly a) (dir ++ [name]); mret newly) w = (r, w') →
  calls w' = calls w ∧ ∀ o, r = Ret o → o = newly ∧
    ∃ a', load (dir ++ [name]) w' = (Ret a', w') ∧ ∀ x, x ∈ names a' ↔ x ∈ names a ∨ x ∈ newly.
Proof.
  intros Hcodec Ho Hplace. unfold mbind, pym_bind. destruct (_save_state _ _ _ _ _ w) as [r1 w1] eqn:Hs.
  destruct (save_load (with_names newly a) dir name w r1 w1 Hcodec Ho Hplace Hs) as [Hc Hl].
  destruct r1 as [[]|e]; intros [= <- <-]; (split; [done|]); intros o; [|done]. intros [= <-]. split; [done|]. eexists. split; [by apply Hl|].
  intros x. cbn [names with_names]. by rewrite elem_of_remove_dups, (merge_sort_Permutation str_le), list_elem_of_union.
Qed.
Lemma nothing_pending migrations root p w a : load p w = (Ret a, w) → (∀ n f, (n, f) ∈ migrations → n ∈ names a) → run migrations root p w = (Ret [], w).
Proof.
  intros Hl Hall. unfold run_pending, mbind at 1, pym_bind at 1. rewrite Hl.
  assert (List.filter (λ m : pystr * migration, negb (bool_decide (m.1 ∈ names a))) migrations = []) as ->; [|done].
  destruct (List.filter _ migrations) as [|[n f] l] eqn:Hf; [done|]. assert (In (n, f) ((n, f) :: l)) as Hin by by left. rewrite <-Hf in Hin.
  apply filter_In in Hin as [Hm Hno]. apply negb_true_iff, bool_decide_eq_false in Hno. destruct Hno. apply (Hall n f). by apply list_elem_of_In.
Qed.

(** C31: A boot with a state file that can not be read (not UTF-8, or JSON but no object: loading raises)
    raises and runs nothing.  Otherwise the migrations of the list that the file does not name,
    and no other, are run once each and in order on a root that was remounted for it, whatever
    they do or raise; nothing is run if there are none or if the remount raises; if it worked, the
    root is remounted read-only right after the last migration, and no other command follows;
    and if the call returns, it returns the names of those that returned true.  If the file names
    only texts and its directory is in place, without links on the way, it then names exactly these and
    those it named before, and after a boot where all returned true the next one does nothing. *)
Theorem migrations_run_once migrations root dir name w : codec_ok →
  let p := dir ++ [name] in
  let '(r, w') := run migrations root p w in
  match (load p w).1 with
  | Raise e => r = Raise e ∧ w' = w
  | Ret a =>
      let pending := pending_of a migrations in
      let w1 := w{{calls := calls w ++ [CMount true] }} in
      (pending = [] → r = Ret [] ∧ w' = w) ∧
      (pending ≠ [] →
         match system (length (calls w)) with
         | Raise e => r = Raise e ∧ w' = w1
         | Ret code =>
             let w2 := (apply_all root pending w1).2 in
             ∃ outcomes, ran root pending w1 outcomes w2 ∧
               calls w' = calls w2 ++ (if code =? 0 then [CMount false] else []) ∧
               (∀ newly, r = Ret newly → newly = succeeded outcomes ∧
                  (others a = [] → in_place (dk_tree (on w2)) dir name →
                     ∃ a', load p w' = (Ret a', w') ∧ (∀ x, x ∈ names a' ↔ x ∈ names a ∨ x ∈ newly) ∧
                       (Forall (λ o : pystr * bool, o.2 = true) outcomes → run migrations root p w' = (Ret [], w'))))
         end)
  end.
Proof.
  intros Hcodec p. destruct (run migrations root p w) as [r w'] eqn:Hrun. pose proof (load_pure p w) as Hpure.
  unfold run_pending, mbind, pym_bind in Hrun. destruct (load p w) as [[a|e] w0]; cbn [fst snd] in *; subst w0; [|by injection Hrun as <- <-].
  fold (pending_of a migrations) in Hrun. set (pending := pending_of a migrations) in *. set (w1 := w{{calls := calls w ++ [CMount true] }}).
  destruct pending as [|m0 rest] eqn:Hpend; [split; [by injection Hrun as <- <-|done]|]. rewrite <-Hpend in *. split; [by rewrite Hpend|].
  intros _. unfold _remount, mbind, pym_bind, run_command in Hrun. destruct (system (length (calls w))) as [code|e]; [|by injection Hrun as <- <-].
  cbn [mret pym_ret] in Hrun. fold w1 in Hrun. destruct (apply_all_ran root pending w1) as (outcomes & w2 & Hran & Happ). rewrite Happ in Hrun.
  rewrite Happ. cbn [snd]. exists outcomes. split; [done|].
  assert (∀ w3, dk_tree (on w3) = dk_tree (on w2) →
    (_ ← _save_state io dumps sort_others (with_names (succeeded outcomes) a) p; mret (succeeded outcomes)) w3 = (r, w') →
    calls w' = calls w3 ∧ (∀ newly, r = Ret newly → newly = succeeded outcomes ∧ (others a = [] → in_place (dk_tree (on w2)) dir name →
      ∃ a', load p w' = (Ret a', w') ∧ ∀ x, x ∈ names a' ↔ x ∈ names a ∨ x ∈ succeeded outcomes))) as Hsave.
  { intros w3' Ht Hs. destruct (save_calls (with_names (succeeded outcomes) a) (succeeded outcomes) p w3') as [Hc Hr]. rewrite Hs in Hc, Hr.
    split; [exact Hc|]. intros newly ->. split; [by apply Hr|]. intros Ho Hplace. rewrite <-Ht in Hplace.
    destruct (save_names a (succeeded outcomes) dir name w3' _ w' Hcodec Ho Hplace Hs) as [_ Hret]. by destruct (Hret newly eq_refl) as [_ ?]. }
  assert (calls w' = calls w2 ++ (if code =? 0 then [CMount false] else []) ∧ (∀ newly, r = Ret newly → newly = succeeded outcomes ∧
    (others a = [] → in_place (dk_tree (on w2)) dir name →
      ∃ a', load p w' = (Ret a', w') ∧ ∀ x, x ∈ names a' ↔ x ∈ names a ∨ x ∈ succeeded outcomes))) as [Hcalls Hret].
  { destruct (code =? 0); [|rewrite app_nil_r; by apply Hsave].
    destruct (system (length (calls w2))) as [code'|e]; [|injection Hrun as <- <-; by split].
    destruct (Hsave (w2{{calls := calls w2 ++ [CMount false] }}) ltac:(by destruct w2) Hrun) as [Hc Hrest]. split; [|exact Hrest]. rewrite Hc. by destruct w2. }
  split; [done|]. intros newly Hr. destruct (Hret newly Hr) as [-> Hfile]. split; [done|]. intros Ho Hplace.
  destruct (Hfile Ho Hplace) as (a' & Hl & Hn). exists a'. split; [done|]. split; [done|].
  intros Hall. apply (nothing_pending _ _ _ _ a'); [done|]. intros n f Hm. apply Hn. destruct (decide (n ∈ names a)) as [?|Hna]; [by left|right].
  assert (n ∈ pending.*1) as Hp.
  { apply (list_elem_of_fmap_2 fst pending (n, f)), list_elem_of_In. apply filter_In. split; [by apply list_elem_of_In|]. by rewrite bool_decide_eq_false_2. }
  rewrite <-(ran_names _ _ _ _ _ Hran) in Hp. apply list_elem_of_fmap in Hp as ([n' ok] & -> & Ho'). rewrite Forall_forall in Hall.
  unfold succeeded. apply (list_elem_of_fmap_2 fst _ (n', ok)), list_elem_of_In, filter_In. split; [by apply list_elem_of_In|by apply (Hall _ Ho')].
Qed.
End Runner.

(** ** Evaluating the model

    A codec with the two properties, which is not JSON: the bits of the number of a list. *)

Fixpoint bits_of (p : positive) : pystr := match p with xH => [] | xO p => 48 :: bits_of p | xI p => 49 :: bits_of p end.
Fixpoint of_bits (s : pystr) : positive :=
  match s with [] => xH | c :: s => if c =? 48 then xO (of_bits s) else if c =? 49 then xI (of_bits s) else xH end.
Definition demo_dumps (l : list pyval) : pystr := bits_of (encode (omap as_str l)).
Definition demo_loads (s : pystr) : res pyval :=
  match decode (of_bits s) with
  | Some l => Ret (VDict [(VStr (u "applied"), VList (VStr <$> (l : list pystr)))])
  | None => Raise ValueError
  end.
Lemma of_bits_of p : of_bits (bits_of p ++ [10]) = p.
Proof. induction p as [p IH|p IH|]; cbn; by rewrite ?IH. Qed.
Lemma bits_plain p : ascii_text (bits_of p) = true ∧ no_return (bits_of p).
Proof. unfold no_return. induction p as [p [IH1 IH2]|p [IH1 IH2]|]; (split; [done|]); by repeat constructor. Qed.
Lemma demo_codec : codec_ok demo_loads demo_dumps.
Proof.
  split; intros l.
  - unfold demo_dumps. destruct (bits_plain (encode (omap as_str (VStr <$> l)))) as [Ha Hn]. split; [done|].
    rewrite utf8_encode_ascii; [by eexists|]. unfold ascii_text in *. by rewrite forallb_app, Ha.
  - unfold demo_loads, demo_dumps. rewrite of_bits_of, decode_encode. repeat f_equal. induction l as [|x l IH]; [done|]. cbn. by f_equal.
Qed.

Definition demo_world (more : list (path * node)) : world :=
  {| on := {| dk_tree := list_to_map (more ++ [([], NDir); ([u "data"], NDir); ([u "data"; u "pibuddycam"], NDir)]);
              dk_ops := 0; dk_past := []; dk_errno := [] |}; calls := [] |}.
Definition no_error (n : nat) : option pystr := None.
Definition works (n : nat) : res Z := Ret 0.
Definition state_dir : path := [u "data"; u "pibuddycam"].
Definition demo_run (system : nat → res Z) (w : world) : res (list pystr) * world :=
  run_pending no_error system demo_loads demo_dumps (λ l, Ret l) [(u "001_create_mnt_sdcard", _001_create_mnt_sdcard no_error)] []
    (state_dir ++ [u "migrations.json"]) w.

Lemma migrations_run_once_witness : ∃ w' a', demo_run works (demo_world []) = (Ret [u "001_create_mnt_sdcard"], w') ∧
  calls w' = [CMount true; CMount false] ∧ _load_state demo_loads (state_dir ++ [u "migrations.json"]) w' = (Ret a', w') ∧
  (∀ x, x ∈ names a' ↔ x ∈ [] ∨ x ∈ [u "001_create_mnt_sdcard"]) ∧ demo_run works w' = (Ret [], w').
Proof.
  pose proof (migrations_run_once no_error works demo_loads demo_dumps (λ l, Ret l) [(u "001_create_mnt_sdcard", _001_create_mnt_sdcard no_error)] []
    state_dir (u "migrations.json") (demo_world []) demo_codec) as Hmain. cbv zeta in Hmain.
  change (run_pending _ _ _ _ _ _ _ _ (demo_world [])) with (demo_run works (demo_world [])) in Hmain.
  destruct (demo_run works (demo_world [])) as [r w'] eqn:Hrun.
  assert (r = Ret [u "001_create_mnt_sdcard"]) as -> by (change r with (r, w').1; rewrite <-Hrun; by vm_compute).
  assert (_load_state demo_loads (state_dir ++ [u "migrations.json"]) (demo_world []) = (Ret nothing, demo_world [])) as Hload.
  { apply injective_projections; [by vm_compute|apply load_pure]. }
  rewrite Hload in Hmain. cbn [fst] in Hmain. destruct Hmain as [_ Hrest].
  assert (pending_of nothing [(u "001_create_mnt_sdcard", _001_create_mnt_sdcard no_error)] ≠ []) as Hne by (intros Hnil%(f_equal length); by vm_compute in Hnil).
  specialize (Hrest Hne). cbn [works] in Hrest. destruct Hrest as (outcomes & Hran & Hcalls & Hret).
  destruct (Hret _ eq_refl) as [Hnew Hfile]. destruct (Hfile eq_refl) as (a' & Hl & Hn & Hagain).
  { split; [apply well_formed_wf; by vm_compute|]. split; [|split; [by vm_compute|intros to; by vm_compute]].
    assert (∀ q, q `prefix_of` state_dir → q = [] ∨ q = [u "data"] ∨ q = state_dir) as Hq.
    { intros q [k Hk]. destruct q as [|x [|y [|z q]]]; [by left|right; left|right; right|]; injection Hk; intros; by subst. }
    intros q [->|[->| ->]]%Hq; intros to; by vm_compute. }
  exists w', a'. split; [done|]. split.
  - rewrite Hcalls. by vm_compute.
  - split; [exact Hl|]. split; [exact Hn|]. apply Hagain.
    apply ran_names in Hran. apply (f_equal length) in Hran. clear -Hnew Hran. cbn in Hran. rewrite length_fmap in Hran.
    destruct outcomes as [|[n ok] [|o l]]; [discriminate Hran| |discriminate Hran]. repeat constructor. cbn. destruct ok; [done|]. discriminate Hnew.
Defined.
Definition etc_system : list (path * node) :=
  [([u "etc"], NDir); ([u "etc"; u "systemd"], NDir); ([u "etc"; u "systemd"; u "system"], NDir)].
Definition persist_unit : path := unit_path [] "pi-persist.service".
Definition unit_world : world := demo_world ((persist_unit, NFile (persist_old ++ [13; 10])) :: etc_system).
Lemma edits_stick_witness : ∃ w', _004_pi_persist_use_launcher no_error works [] unit_world = (Ret true, w') ∧
  (∃ text, read_text persist_unit (on w') = (Ret text, on w') ∧ Forall (λ mark, infix_of mark text) [persist_new]) ∧
  _004_pi_persist_use_launcher no_error works [] w' = (Ret true, w').
Proof.
  destruct (_004_pi_persist_use_launcher no_error works [] unit_world) as [r w'] eqn:Hrun.
  assert (r = Ret true) as -> by (change r with (r, w').1; rewrite <-Hrun; by vm_compute).
  assert ((persist_unit, [persist_new], _004_pi_persist_use_launcher no_error works) ∈ edits no_error works []) as Hin by apply list_elem_of_here.
  pose proof (edits_stick no_error works [] _ _ _ unit_world w' Hin Hrun) as (Htext & _ & Hagain). exists w'. split; [done|]. split; [exact Htext|exact Hagain].
Defined.

(** ** What the model shows *)

(** The edit empties the unit before it writes it: when the power goes in between, the unit is
    empty, and the migration, which no longer finds the line, fails at every further boot. *)
Lemma interrupted_edit_is_final : ∃ t,
  t ∈ dk_past (on (_004_pi_persist_use_launcher no_error works [] unit_world).2) ∧
  t !! persist_unit = Some (NFile []) ∧
  (_004_pi_persist_use_launcher no_error works [] (unit_world{{on := (on unit_world){{dk_tree := t}}}})).1 = Ret false.
Proof.
  set (history := dk_past (on (_004_pi_persist_use_launcher no_error works [] unit_world).2)).
  assert (length history = 2%nat) as Hlen by (by vm_compute).
  destruct (lookup_lt_is_Some_2 history 0) as [t Ht]; [lia|]. exists t. split; [by eapply list_elem_of_lookup_2|].
  assert ((history !! 0%nat ≫= lookup persist_unit) = Some (NFile [])) as H1 by (by vm_compute). rewrite Ht in H1. split; [exact H1|].
  assert (((λ t, (_004_pi_persist_use_launcher no_error works [] (unit_world{{on := (on unit_world){{dk_tree := t}}}})).1) <$> history !! 0%nat) = Some (Ret false)) as H2
    by (by vm_compute). rewrite Ht in H2. injection H2 as H2. exact H2.
Qed.
(** A unit that is a link to anything but [/dev/null] is neither removed nor replaced: the
    migration raises at every boot. *)
Lemma linked_unit_raises :
  let unit := unit_path [] "console-setup.service" in
  let w := demo_world ((unit, NLink [u "usr"; u "lib"; u "x.service"]) :: etc_system) in
  (_003_mask_console_setup no_error [] w).1 = Raise OSError ∧
  dk_tree (on (_003_mask_console_setup no_error [] w).2) !! unit = Some (NLink [u "usr"; u "lib"; u "x.service"]).
Proof. cbv zeta. split_and!; by vm_compute. Qed.
(** When the remount fails the migrations are run all the same. *)
Lemma runs_without_remount : (demo_run (λ _, Ret 32) (demo_world [])).1 = Ret [u "001_create_mnt_sdcard"].
Proof. by vm_compute. Qed.
(** A state file that is no object, or no UTF-8, makes the runner raise before the first
    migration. *)
Lemma damaged_state_raises :
  let damaged := demo_world [(state_dir ++ [u "migrations.json"], NFile [255])] in
  (demo_run works damaged).1 = Raise ValueError ∧ calls (demo_run works damaged).2 = [] ∧ applied_in (VList []) = Raise OtherError.
Proof. cbv zeta. split_and!; by vm_compute. Qed.
