(* ===== verification/RuntimeIpc.v ===== *)
(** [app/runtime_ipc.py]: the local control channel between the console and the camera
    process.  The bounds applied to every value, the dispatch over the table of
    operations, one connection as the server reads it, the client, and the admission of
    connections as a state machine over interleaved events. *)
From S2P Require Import Prelude Crash PyValue PyText.
From Stdlib Require Import SpecFloat.

(** ** Bounds *)

Definition MAX_PARAMS_DEPTH : Z := 4.
Definition MAX_PARAMS_ITEMS : nat := 64.
Definition MAX_RESPONSE_DEPTH : Z := 8.
Definition MAX_RESPONSE_ITEMS : nat := 256.
Definition MAX_TEXT_CHARS : nat := 4096.
Definition MAX_KEY_CHARS : nat := 128.
Definition MAX_REQUEST_BYTES : Z := 65536.
Definition MAX_RESPONSE_BYTES : Z := 262144.
Definition READ_OPERATIONS : list pystr := [u "dashboard"; u "ping"].
Definition WRITE_OPERATIONS : list pystr := [u "settings.set"].
Definition ALLOWED_OPERATIONS : list pystr := READ_OPERATIONS ++ WRITE_OPERATIONS.

Section Ipc.
(** [str(value)] of what is no text; [json.dumps(.., sort_keys=True, default=str)] encoded,
    and [json.loads]. *)
Context `{UnicodeDB} (py_str : pyval → pystr) (dumps : pyval → res bytes) (loads : pystr → res pyval).

Definition clean (limit : nat) (s : pystr) : pystr := take limit (List.filter uc_isprintable s).
Definition bounded_text (value : pyval) (limit : nat) : pystr :=
  match value with VStr s => clean limit s | _ => [] end.
Definition key_text (key : pyval) : pystr := match key with VStr s => s | v => py_str v end.
(** The entries of a dict built in order; equal keys collapse to the last value. *)
Definition dict_of (entries : list (pystr * pyval)) : pyval :=
  VDict (map (λ e, (VStr e.1, e.2)) (foldl (λ d e, dict_set e.1 e.2 d) [] entries)).
Fixpoint bound_value (max_items max_text : nat) (depth : Z) (value : pyval) : pyval :=
  if depth <? 0 then VNone else
  match value with
  | VNone | VBool _ | VInt _ | VFloat _ => value
  | VStr s => VStr (clean max_text s)
  | VList l => VList (take max_items (map (bound_value max_items max_text (depth - 1)) l))
  | VDict d => dict_of (take max_items
      (map (λ e, (clean MAX_KEY_CHARS (key_text e.1), bound_value max_items max_text (depth - 1) e.2)) d))
  | VBytes _ => VStr (clean max_text (py_str value))
  end.
Definition bound_params : pyval → pyval := bound_value MAX_PARAMS_ITEMS MAX_TEXT_CHARS MAX_PARAMS_DEPTH.
Definition bound_response : pyval → pyval := bound_value MAX_RESPONSE_ITEMS MAX_TEXT_CHARS MAX_RESPONSE_DEPTH.

(** ** Dispatch *)

Section Server.
(** The world the handlers change. *)
Context {W : Type}.
Definition handler : Type := pyval → PyM W pyval.
(** The constructor keeps the entries whose name is allowed and adds the probe. *)
Definition pong : handler := λ _, mret (VDict [(VStr (u "pong"), VBool true)]).
Definition handler_table (given : list (pyval * option handler)) : list (pystr * handler) :=
  let table := foldl (λ t e, match e with
    | (VStr name, Some h) => if bool_decide (name ∈ ALLOWED_OPERATIONS) then dict_set name h t else t
    | _ => t end) [] given in
  match dict_get (u "ping") table with Some _ => table | None => table ++ [(u "ping", pong)] end.

Definition refusal (error : string) : pyval := VDict [(VStr (u "ok"), VBool false); (VStr (u "error"), VStr (u error))].
Definition answer (data : pyval) : pyval := VDict [(VStr (u "ok"), VBool true); (VStr (u "data"), data)].
(** [json.loads(line.decode('utf-8'))], with [ValueError] and [UnicodeDecodeError] caught. *)
Definition parse_line (line : bytes) : res pyval :=
  match utf8_decode line with
  | None => Raise ValueError
  | Some text => loads text
  end.
Definition _dispatch (handlers : list (pystr * handler)) (line : bytes) : PyM W pyval :=
  match parse_line line with
  | Raise ValueError => mret (refusal "malformed request")
  | Raise e => raise e
  | Ret (VDict request) =>
      match get_key (u "op") request with
      | VStr op =>
          match dict_get op handlers with
          | None => mret (refusal "operation not allowed")
          | Some h =>
              match match get_key (u "params") request with VNone => VDict [] | p => p end with
              | VDict params =>
                  try_except any_exception (data ← h (bound_params (VDict params)); mret (answer (bound_response data)))
                    (λ _, mret (refusal "operation failed"))
              | _ => mret (refusal "invalid params")
              end
          end
      | _ => mret (refusal "operation not allowed")
      end
  | Ret _ => mret (refusal "malformed request")
  end.

(** ** One connection

    What [recv(4096)] returns, one call after the other, with the time at which it returns: [None] is
    a timeout or an error, the empty chunk the end of the stream, and no chunk is longer than
    [RECV_BYTES]. *)
Definition RECV_BYTES : nat := 4096.
Fixpoint _read_line (limit : Z) (deadline now : Z) (chunks : bytes) (recvs : list (option bytes * Z)) : option bytes :=
  if deadline - now <=? 0 then None else
  match recvs with
  | (Some ((_ :: _) as chunk), later) :: recvs =>
      let chunks := chunks ++ chunk in
      if limit <? Z.of_nat (length chunks) then None
      else if contains_char 10 chunk then
        match match cut_at 10 chunks with Some (line, _) => line | None => chunks end with
        | [] => None
        | line => Some line
        end
      else _read_line limit deadline later chunks recvs
  | _ => None
  end.
(** What is sent back, if anything; an exception ends in the log. *)
Definition _serve_connection (handlers : list (pystr * handler)) (max_request max_response timeout start : Z)
    (recvs : list (option bytes * Z)) : PyM W (option bytes) :=
  try_except any_exception
    (match _read_line max_request (start + timeout) start [] recvs with
     | None => mret None
     | Some line =>
         response ← _dispatch handlers line;
         payload ← of_res (dumps response);
         payload ← (if max_response <? Z.of_nat (length payload) then of_res (dumps (refusal "response too large")) else mret payload);
         mret (Some (payload ++ [10]))
     end) (λ _, mret None).
End Server.

(** ** The client *)

Definition _degraded (reason : pystr) : pyval :=
  VDict [(VStr (u "ok"), VBool false);
         (VStr (u "error"), VStr (match clean 200 reason with [] => u "runtime unavailable" | r => r end));
         (VStr (u "degraded"), VBool true)].
Definition interpret (response : pyval) : pyval :=
  match response with
  | VDict d =>
      if truthy (get_key (u "ok") d) then answer (bound_response (get_key (u "data") d))
      else _degraded (match bounded_text (get_key (u "error") d) 200 with [] => u "runtime error" | r => r end)
  | _ => _degraded (u "runtime error")
  end.
(** [exchange] connects, sends the line and gives what [recv] then returns; [None] is an
    [OSError].  It acts in the world of the server. *)
Definition request {W : Type} (exchange : bytes → W → option (list (option bytes * Z)) * W) (max_request max_response timeout start : Z)
    (op : pyval) (params : pyval) : W → pyval * W := λ w,
  match op with
  | VStr name =>
      if negb (bool_decide (name ∈ ALLOWED_OPERATIONS)) then (_degraded (u "operation not allowed"), w)
      else
        let envelope := VDict [(VStr (u "op"), VStr name);
                               (VStr (u "params"), bound_params (if truthy params then params else VDict []))] in
        match dumps envelope with
        | Raise _ => (_degraded (u "invalid request"), w)
        | Ret payload =>
          if max_request <? Z.of_nat (length payload) then (_degraded (u "request too large"), w)
          else match exchange (payload ++ [10]) w with
          | (None, w) => (_degraded (u "runtime unavailable"), w)
          | (Some recvs, w) =>
              (match _read_line max_response (start + timeout) start [] recvs with
               | None => _degraded (u "runtime unavailable")
               | Some line =>
                   match parse_line line with
                   | Ret response => interpret response
                   | Raise _ => _degraded (u "runtime unavailable")
                   end
               end, w)
          end
        end
  | _ => (_degraded (u "operation not allowed"), w)
  end.
Definition ping {W : Type} (exchange : bytes → W → option (list (option bytes * Z)) * W) max_request max_response timeout start : W → pyval * W :=
  request exchange max_request max_response timeout start (VStr (u "ping")) VNone.
Definition dashboard {W : Type} (exchange : bytes → W → option (list (option bytes * Z)) * W) max_request max_response timeout start : W → pyval * W :=
  request exchange max_request max_response timeout start (VStr (u "dashboard")) VNone.
Definition settings_set {W : Type} (exchange : bytes → W → option (list (option bytes * Z)) * W) max_request max_response timeout start
    (field value : pyval) : W → pyval * W :=
  request exchange max_request max_response timeout start (VStr (u "settings.set")) (VDict [(VStr (u "field"), field); (VStr (u "value"), value)]).
End Ipc.
#[global] Arguments clean : simpl never.
#[global] Arguments dict_of : simpl never.

(** ** Admission

    The accept loop, the worker pool and the lifecycle, as the events that may interleave.
    A connection is a number; [slots] is the semaphore. *)
Record server := {
  sv_slots : nat;
  sv_queued : list nat;
  sv_serving : list nat;
  sv_closed : list nat;
  sv_lost : list nat;
  sv_running : bool;
}.
Inductive event := EAccept (c : nat) | EWorker | EFinish (c : nat) | EStart | EStop.
Definition new_server (max_connections : nat) : server :=
  {| sv_slots := Nat.max 1 max_connections; sv_queued := []; sv_serving := []; sv_closed := []; sv_lost := []; sv_running := false |}.
Fixpoint remove_one (c : nat) (l : list nat) : list nat :=
  match l with [] => [] | x :: l => if decide (x = c) then l else x :: remove_one c l end.
(** [None]: the event cannot happen in this state. *)
Definition server_step (max_workers : nat) (e : event) (v : server) : option server :=
  match e with
  | EAccept c =>
      if negb (sv_running v) then None
      else match sv_slots v with
           | O => Some (v{{sv_closed := sv_closed v ++ [c] }})
           | S n => Some (v{{sv_slots := n}}{{sv_queued := sv_queued v ++ [c] }})
           end
  | EWorker =>
      match sv_queued v with
      | c :: rest => if (length (sv_serving v) <? Nat.max 1 max_workers)%nat
                     then Some (v{{sv_queued := rest}}{{sv_serving := sv_serving v ++ [c] }}) else None
      | [] => None
      end
  | EFinish c =>
      if bool_decide (c ∈ sv_serving v)
      then Some (v{{sv_serving := remove_one c (sv_serving v)}}{{sv_closed := sv_closed v ++ [c] }}{{sv_slots := S (sv_slots v)}})
      else None
  | EStart => Some (v{{sv_running := true}})
  | EStop => Some (v{{sv_running := false}}{{sv_lost := sv_lost v ++ sv_queued v}}{{sv_queued := [] }})
  end.
Definition run_server (max_workers : nat) (events : list event) (v : server) : option server :=
  foldl (λ o e, v ← o; server_step max_workers e v) (Some v) events.

(** ** Bounds hold, and bounding again changes nothing *)

Section Bounds.
Context `{UnicodeDB} (py_str : pyval → pystr).

Definition printable (limit : nat) (s : pystr) : Prop := (length s ≤ limit)%nat ∧ Forall (λ c, uc_isprintable c = true) s.
(** At most [depth + 1] levels of at most [max_items] entries, and short printable text. *)
Fixpoint bounded (max_items max_text : nat) (depth : Z) (value : pyval) : Prop :=
  match value with
  | VNone => True
  | VBool _ | VInt _ | VFloat _ => 0 ≤ depth
  | VStr s => 0 ≤ depth ∧ printable max_text s
  | VList l => 0 ≤ depth ∧ (length l ≤ max_items)%nat ∧ foldr (λ v P, bounded max_items max_text (depth - 1) v ∧ P) True l
  | VDict d => 0 ≤ depth ∧ (length d ≤ max_items)%nat ∧ NoDup d.*1 ∧
      foldr (λ e P, ((∃ k, e.1 = VStr k ∧ printable MAX_KEY_CHARS k) ∧ bounded max_items max_text (depth - 1) e.2) ∧ P) True d
  | VBytes _ => False
  end.
Lemma foldr_and {A : Type} (P : A → Prop) l : foldr (λ x Q, P x ∧ Q) True l ↔ Forall P l.
Proof. induction l as [|x l IH]; cbn; [by split; [constructor|]|]. rewrite IH. split; [by intros [? ?]; constructor|by inversion 1]. Qed.

Lemma clean_printable limit s : printable limit (clean limit s).
Proof.
  unfold clean, printable. split; [rewrite length_take; lia|]. apply Forall_take, Forall_forall. intros c Hc%list_elem_of_In.
  by apply filter_In in Hc as [_ Hc].
Qed.
Lemma clean_id limit s : printable limit s → clean limit s = s.
Proof.
  intros [Hl Hp]. unfold clean. assert (List.filter uc_isprintable s = s) as ->; [|by rewrite take_ge].
  clear Hl. induction Hp as [|c s Hc _ IH]; [done|]. cbn. by rewrite Hc, IH.
Qed.

Lemma dict_set_grows (k : pystr) (v : pyval) d : (length (dict_set k v d) ≤ S (length d))%nat.
Proof. induction d as [|[k' v'] d IH]; cbn; [lia|]. case_decide; cbn; lia. Qed.
Lemma dict_set_key (k : pystr) (v : pyval) d : NoDup d.*1 → NoDup (dict_set k v d).*1 ∧ ∀ x, x ∈ (dict_set k v d).*1 → x = k ∨ x ∈ d.*1.
Proof.
  induction d as [|[k' v'] d IH]; cbn; [split; [by repeat constructor; apply not_elem_of_nil|by intros x ?%list_elem_of_singleton; left]|].
  intros [Hk' Hd]%NoDup_cons. destruct (IH Hd) as [IH1 IH2]. case_decide as Hk; cbn.
  - subst. split; [by constructor|by right].
  - split; [constructor; [|done]; intros [->|?]%IH2; [by destruct Hk|done]|].
    intros x [->|[->|?]%IH2]%elem_of_cons; [right; by left|by left|right; by right].
Qed.
Lemma dict_set_Forall (P : pystr * pyval → Prop) k v d : P (k, v) → Forall P d → Forall P (dict_set k v d).
Proof.
  intros Hp. induction 1 as [|[k' v'] d Hx Hd IH]; cbn; [by repeat constructor|]. case_decide; [subst; by constructor|by constructor].
Qed.
(** The dict a loop over [entries] builds. *)
Lemma dict_of_spec (P : pystr * pyval → Prop) entries : Forall P entries →
  ∃ d, dict_of entries = VDict (map (λ e, (VStr e.1, e.2)) d) ∧ (length d ≤ length entries)%nat ∧ NoDup d.*1 ∧ Forall P d.
Proof.
  intros Hp. unfold dict_of. eexists. split; [reflexivity|].
  assert (∀ d, NoDup d.*1 → Forall P d → let d' := foldl (λ d e, dict_set e.1 e.2 d) d entries in
    (length d' ≤ length d + length entries)%nat ∧ NoDup d'.*1 ∧ Forall P d') as Hgen.
  { induction Hp as [|[k v] entries Hx _ IH]; intros d Hnd Hd; cbn; [split_and!; [lia|done|done]|].
    destruct (dict_set_key k v d Hnd) as [Hnd' _]. pose proof (dict_set_grows k v d) as Hlen.
    destruct (IH (dict_set k v d) Hnd' ltac:(by apply dict_set_Forall)) as (Hl & Hn & Hf). split_and!; [lia|done|done]. }
  exact (Hgen [] ltac:(constructor) ltac:(constructor)).
Qed.

Lemma bound_value_bounded max_items max_text value depth : bounded max_items max_text depth (bound_value py_str max_items max_text depth value).
Proof.
  revert value depth. refine (pyval_nested_ind _ _ _ _).
  - intros v. destruct v as [|b|z|f|s|b|l|d]; [..|done|done]; intros depth; cbn; destruct (Z.ltb_spec depth 0); cbn; try done.
    all: split; [done|apply clean_printable].
  - intros l IH depth. cbn. destruct (Z.ltb_spec depth 0); cbn; [done|]. split; [done|]. split; [rewrite length_take; lia|].
    apply foldr_and, Forall_take. apply Forall_map. eapply Forall_impl; [exact IH|]. intros v Hv. apply Hv.
  - intros d IH depth. cbn. destruct (Z.ltb_spec depth 0); cbn [bounded]; [done|].
    match goal with |- context [dict_of ?es] => destruct (dict_of_spec (λ e, printable MAX_KEY_CHARS e.1 ∧ bounded max_items max_text (depth - 1) e.2) es) as (d' & -> & Hlen & Hnd & Hf) end.
    { apply Forall_take, Forall_map. eapply Forall_impl; [exact IH|]. intros e He. split; [apply clean_printable|apply He]. }
    cbn [bounded]. rewrite length_take in Hlen. split_and!; [done|rewrite length_map; lia| |].
    + change (map (λ e : pystr * pyval, (VStr e.1, e.2)) d') with ((λ e : pystr * pyval, (VStr e.1, e.2)) <$> d'). rewrite <-list_fmap_compose.
      assert (fst ∘ (λ e : pystr * pyval, (VStr e.1, e.2)) <$> d' = VStr <$> d'.*1) as -> by by rewrite <-list_fmap_compose.
      apply NoDup_fmap_2; [by intros x y [= ->]|done].
    + apply foldr_and, Forall_map. eapply Forall_impl; [exact Hf|]. intros e [Hk Hv]. split; [by exists e.1|done].
Qed.
Lemma bounded_id max_items max_text value depth : bounded max_items max_text depth value → bound_value py_str max_items max_text depth value = value.
Proof.
  revert value depth. refine (pyval_nested_ind _ _ _ _).
  - intros v. destruct v as [|b|z|f|s|b|l|d]; [..|done|done]; intros depth; cbn; destruct (Z.ltb_spec depth 0); cbn; try done; try lia.
    intros [_ Hs]. by rewrite clean_id.
  - intros l IH depth. cbn. intros (Hd & Hlen & Hl%foldr_and). destruct (Z.ltb_spec depth 0); [lia|]. f_equal.
    assert (map (bound_value py_str max_items max_text (depth - 1)) l = l) as ->; [|by apply take_ge].
    clear Hlen. induction Hl as [|v l Hv _ IHl]; [done|]. apply Forall_cons in IH as [Hx IH]. cbn. by rewrite Hx, IHl.
  - intros d IH depth. cbn. intros (Hd & Hlen & Hnd & Hf%foldr_and). destruct (Z.ltb_spec depth 0); [lia|].
    set (g := λ e : pyval * pyval, _). assert (∃ d', map g d = d' ∧ d = map (λ e, (VStr e.1, e.2)) d') as (d' & Hd' & Heq).
    { exists (map g d). split; [done|]. clear Hlen Hnd. unfold g. induction Hf as [|[k v] d [(k' & Hk & Hp) Hv] _ IHd]; [done|].
      apply Forall_cons in IH as [Hx IH]. cbn in *. subst. f_equal; [|by apply IHd]. cbn. by rewrite clean_id, Hx. }
    rewrite Hd', take_ge by (rewrite <-Hd'; rewrite length_map; lia). unfold dict_of. rewrite dict_of_items; cbn; [by rewrite Heq|].
    rewrite Heq in Hnd. change (map ?f d') with (f <$> d') in Hnd. rewrite <-list_fmap_compose in Hnd.
    apply (NoDup_fmap_1 VStr). by rewrite <-list_fmap_compose.
Qed.
End Bounds.

(** ** The server *)

Section Dispatch.
Context `{UnicodeDB} (py_str : pyval → pystr) (dumps : pyval → res bytes) (loads : pystr → res pyval) {W : Type}.
Implicit Types (given : list (pyval * option (handler (W := W)))) (w : W).

Lemma handler_table_allowed given name h : dict_get name (handler_table given) = Some h →
  name ∈ ALLOWED_OPERATIONS ∧ ((VStr name, Some h) ∈ given ∨ name = u "ping" ∧ h = pong).
Proof.
  unfold handler_table. set (t := foldl _ [] given).
  assert (∀ n h, dict_get n t = Some h → n ∈ ALLOWED_OPERATIONS ∧ (VStr n, Some h) ∈ given) as Ht.
  { unfold t. induction given as [|e l IH] using rev_ind; [done|]. intros n h'. rewrite foldl_snoc.
    assert (∀ h, dict_get n (foldl (λ t e, match e with
        | (VStr name, Some h) => if bool_decide (name ∈ ALLOWED_OPERATIONS) then dict_set name h t else t
        | _ => t end) [] l) = Some h → n ∈ ALLOWED_OPERATIONS ∧ (VStr n, Some h) ∈ l ++ [e]) as IH'.
    { intros h0 H0. destruct (IH n h0 H0) as [Ha Hi]. split; [done|]. apply elem_of_app. by left. }
    destruct e as [[| | | |k| | |] [hk|]]; try apply IH'. case_bool_decide as Hk; [|apply IH'].
    destruct (decide (n = k)) as [->|Hne]; [|rewrite dict_get_set_ne by done; apply IH'].
    rewrite dict_get_set_eq. intros [= ->]. split; [done|]. apply elem_of_app. right. by left. }
  destruct (dict_get (u "ping") t) as [p|] eqn:Hp; [intros Hg; destruct (Ht _ _ Hg); auto|].
  rewrite dict_get_app. destruct (dict_get name t) as [h'|] eqn:Hn; [intros [= ->]; destruct (Ht _ _ Hn); auto|].
  cbn. case_decide as Hd; [|done]. subst. intros [= <-]. split; [by vm_compute; right; left|by right].
Qed.

(** Every value that leaves the server has short printable text and few, shallow entries. *)
Definition well_bounded (response : pyval) : Prop :=
  ∃ error, response = refusal error ∨ ∃ data, response = answer data ∧ bounded MAX_RESPONSE_ITEMS MAX_TEXT_CHARS MAX_RESPONSE_DEPTH data.

(** Whatever line arrives, and whatever the handlers do: the dispatcher answers with a refusal
    or with bounded data, unless the JSON parser itself raises what is no [ValueError]; and the
    world is changed only by a handler that the line names, whose name is allowed, called once,
    with bounded parameters. *)
Theorem dispatch_safe given line w :
  let '(r, w') := _dispatch py_str loads (handler_table given) line w in
  match r with
  | Ret response => well_bounded response
  | Raise e => parse_line loads line = Raise e ∧ e ≠ ValueError
  end ∧
  (w' = w ∨ ∃ d name h params, parse_line loads line = Ret (VDict d) ∧ get_key (u "op") d = VStr name ∧
     name ∈ ALLOWED_OPERATIONS ∧ ((VStr name, Some h) ∈ given ∨ name = u "ping" ∧ h = pong) ∧
     bounded MAX_PARAMS_ITEMS MAX_TEXT_CHARS MAX_PARAMS_DEPTH params ∧ w' = (h params w).2).
Proof.
  unfold _dispatch. destruct (parse_line loads line) as [v|e] eqn:Hparse.
  2: { destruct e; (split; [|by left]); try (split; done). eexists. by left. }
  assert (∀ error (w : W), let '(r, w') := (mret (refusal error) : PyM W pyval) w in
    match r with Ret response => well_bounded response | Raise e => parse_line loads line = Raise e ∧ e ≠ ValueError end ∧ (w' = w ∨ False)) as Hrefuse.
  { intros error w1. cbn. split; [exists error; by left|by left]. }
  destruct v as [| | | | | | |d]; try (destruct (Hrefuse "malformed request"%string w) as [Hx _]; cbn in Hx |- *; split; [exact Hx|by left]).
  destruct (get_key (u "op") d) as [| | | |name| | |] eqn:Hop;
    try (destruct (Hrefuse "operation not allowed"%string w) as [Hx _]; cbn in Hx |- *; split; [exact Hx|by left]).
  destruct (dict_get name _) as [h|] eqn:Hh; [|cbn; split; [eexists; by left|by left]].
  apply handler_table_allowed in Hh as [Hallowed Hh].
  set (p := match get_key (u "params") d with VNone => VDict [] | p => p end).
  destruct p as [| | | | | | |params] eqn:Hp; try (cbn; split; [eexists; by left|by left]).
  unfold try_except, mbind, pym_bind.
  destruct (h _ w) as [[data|e] w1] eqn:Hcall; cbn; (split; [|right; exists d, name, h, (bound_params py_str (VDict params));
    split_and!; [done|done|done|done|apply bound_value_bounded|by rewrite Hcall]]).
  - exists "". right. exists (bound_response py_str data). split; [done|apply bound_value_bounded].
  - eexists. by left.
Qed.
End Dispatch.

(** ** Client and server *)

Fixpoint small_ints (v : pyval) : Prop :=
  match v with
  | VInt z => Z.abs z < 10 ^ 4300
  | VList l => foldr (λ v P, small_ints v ∧ P) True l
  | VDict d => foldr (λ e P, small_ints e.2 ∧ P) True d
  | _ => True
  end.
(** [sort_keys=True]. *)
Definition key_of (e : pyval * pyval) : pystr := match e.1 with VStr s => s | _ => [] end.
Definition key_le (e e' : pyval * pyval) : Prop := str_le (key_of e) (key_of e').
#[export] Instance key_le_dec e e' : Decision (key_le e e') := str_le_dec (key_of e) (key_of e').
Fixpoint sorted_keys (v : pyval) : pyval :=
  match v with
  | VList l => VList (map sorted_keys l)
  | VDict d => VDict (merge_sort key_le (map (λ e, (e.1, sorted_keys e.2)) d))
  | v => v
  end.

(** What [json] does with a value of text, numbers, lists and dicts with distinct text keys. *)
Class JsonOk `{UnicodeDB} (dumps : pyval → res bytes) (loads : pystr → res pyval) := {
  json_line : ∀ v b, dumps v = Ret b → b ≠ [] ∧ (10 ∉ b);
  json_round : ∀ n m d v, bounded n m d v → small_ints v →
    ∃ b text, dumps v = Ret b ∧ utf8_decode b = Some text ∧ loads text = Ret (sorted_keys v);
}.

Section Reply.
Context `{HU : UnicodeDB} (py_str : pyval → pystr) (dumps : pyval → res bytes) (loads : pystr → res pyval) `{HJ : !JsonOk dumps loads}.

Lemma small_ints_bound n m d v : small_ints v → small_ints (bound_value py_str n m d v).
Proof.
  revert v d. refine (pyval_nested_ind _ _ _ _).
  - intros v. destruct v; [..|done|done]; intros d Hs; cbn; by destruct (d <? 0).
  - intros l IH d. cbn. rewrite foldr_and. intros Hs. destruct (d <? 0); [done|]. cbn. apply foldr_and, Forall_take, Forall_map.
    rewrite Forall_forall in *. intros v Hv. by apply IH, Hs.
  - intros l IH d. cbn. rewrite foldr_and. intros Hs. destruct (d <? 0); [done|].
    match goal with |- context [dict_of ?es] => destruct (dict_of_spec (λ e, small_ints e.2) es) as (d' & -> & _ & _ & Hf) end.
    { apply Forall_take, Forall_map. rewrite Forall_forall in *. intros e He. cbn. by apply IH, Hs. }
    cbn. apply foldr_and, Forall_map. exact Hf.
Qed.
Lemma bounded_sorted n m d v : bounded n m d v → bounded n m d (sorted_keys v).
Proof.
  revert v d. refine (pyval_nested_ind _ _ _ _).
  - by intros [].
  - intros l IH d. cbn. rewrite !foldr_and, length_map, Forall_map. intros (Hd & Hl & Hf). split_and!; [done|done|].
    rewrite Forall_forall in *. intros v Hv. by apply IH, Hf.
  - intros l IH d. cbn. rewrite !foldr_and. intros (Hd & Hl & Hn & Hf).
    pose proof (merge_sort_Permutation key_le (map (λ e, (e.1, sorted_keys e.2)) l)) as Hp. rewrite Hp. split_and!; [done|by rewrite length_map| |].
    + change (map ?f l) with (f <$> l). rewrite <-list_fmap_compose. exact Hn.
    + rewrite Forall_map. rewrite Forall_forall in *. intros e He. destruct (Hf e He) as [Hk Hv]. split; [exact Hk|by apply IH].
Qed.

(** The stream delivers [line] in any number of pieces, none longer than [recv] returns, each
    before the deadline. *)
Definition delivered (deadline : Z) (line : bytes) (recvs : list (option bytes * Z)) : Prop :=
  ∃ pieces : list (bytes * Z), recvs = map (λ p, (Some p.1, p.2)) pieces ∧ concat pieces.*1 = line ∧
    Forall (λ p, p.1 ≠ [] ∧ (length p.1 ≤ RECV_BYTES)%nat ∧ p.2 < deadline) pieces.
(** A line with one newline, at its end, is read whatever its pieces are. *)
Lemma read_pieces limit deadline now b acc (pieces : list (bytes * Z)) :
  now < deadline → b ≠ [] → (10 ∉ b) → Z.of_nat (length (b ++ [10])) ≤ limit →
  acc ++ concat pieces.*1 = b ++ [10] → (10 ∉ acc) → Forall (λ p, p.1 ≠ [] ∧ (length p.1 ≤ RECV_BYTES)%nat ∧ p.2 < deadline) pieces →
  _read_line limit deadline now acc (map (λ p, (Some p.1, p.2)) pieces) = Some b.
Proof.
  intros Hnow Hb Hn Hl Hcat Hacc Hp. revert now acc Hnow Hcat Hacc.
  induction Hp as [|[c later] pieces (Hc & _ & Hlater) Hp IH]; intros now acc Hnow Hcat Hacc; cbn in Hcat.
  { rewrite app_nil_r in Hcat. destruct Hacc. rewrite Hcat. apply elem_of_app. right. by left. }
  cbn [map _read_line fst snd]. destruct (Z.leb_spec (deadline - now) 0); [lia|]. destruct c as [|x c']; [done|]. set (c := x :: c') in *.
  destruct (Z.ltb_spec limit (Z.of_nat (length (acc ++ c)))) as [Hlt|_].
  { rewrite <-Hcat, app_assoc, length_app in Hl. lia. }
  destruct (contains_char 10 c) eqn:Hin.
  - apply existsb_exists in Hin as (y & Hy%list_elem_of_In & Hten%Z.eqb_eq). assert (10 ∈ c) by (by rewrite Hten).
    assert (concat pieces.*1 = []) as Hnil.
    { destruct (concat pieces.*1) as [|z rest _] using rev_ind; [done|]. rewrite !app_assoc in Hcat.
      apply app_inj_tail in Hcat as [Hcat _]. destruct Hn. rewrite <-Hcat, !elem_of_app. auto. }
    rewrite Hnil, app_nil_r in Hcat. rewrite Hcat.
    assert (Forall (λ c, c ≠ 10) b) as Hf by (apply Forall_forall; by intros z Hz ->).
    rewrite cut_at_first by done. by destruct b.
  - apply IH; [done|by rewrite <-app_assoc|]. rewrite elem_of_app. intros [?|Hin']; [done|].
    assert (contains_char 10 c = true) as Ht by (apply existsb_exists; exists 10; split; [by apply list_elem_of_In|done]). congruence.
Qed.

Lemma ascii_printable limit s : forallb (in_range 32 126) s = true → (length s <=? limit)%nat = true → printable limit s.
Proof.
  intros Hs Hl%Nat.leb_le. split; [done|]. apply Forall_forall. intros c Hc%list_elem_of_In. rewrite forallb_forall in Hs.
  pose proof (Hs c Hc) as Hr. rewrite uc_isprintable_ascii; [done|]. apply in_range_spec in Hr. lia.
Qed.
Lemma bounded_two k1 v1 k2 v2 n m d : k1 ≠ k2 → (2 ≤ n)%nat → 0 ≤ d → printable MAX_KEY_CHARS k1 → printable MAX_KEY_CHARS k2 →
  bounded n m (d - 1) v1 → bounded n m (d - 1) v2 → bounded n m d (VDict [(VStr k1, v1); (VStr k2, v2)]).
Proof.
  intros Hne Hn Hd H1 H2 B1 B2. cbn. split_and!; [done|done| |eauto|done|eauto|done|done].
  constructor; [intros [= ?]%list_elem_of_singleton; done|apply NoDup_singleton].
Qed.
Lemma bounded_envelope name params : name ∈ ALLOWED_OPERATIONS →
  bounded MAX_PARAMS_ITEMS MAX_TEXT_CHARS (MAX_PARAMS_DEPTH + 1) (VDict [(VStr (u "op"), VStr name); (VStr (u "params"), bound_params py_str params)]).
Proof.
  intros Hn. apply bounded_two; [by vm_compute|unfold MAX_PARAMS_ITEMS; lia|by vm_compute| | | |apply bound_value_bounded].
  - apply ascii_printable; by vm_compute.
  - apply ascii_printable; by vm_compute.
  - split; [by vm_compute|]. unfold ALLOWED_OPERATIONS, READ_OPERATIONS, WRITE_OPERATIONS in Hn. cbn [app] in Hn.
    rewrite !elem_of_cons, elem_of_nil in Hn. destruct Hn as [->|[->|[->|[]]]]; (apply ascii_printable; by vm_compute).
Qed.
Lemma bounded_answer data : bounded MAX_RESPONSE_ITEMS MAX_TEXT_CHARS (MAX_RESPONSE_DEPTH + 1) (answer (bound_response py_str data)).
Proof.
  apply bounded_two; [by vm_compute|unfold MAX_RESPONSE_ITEMS; lia|by vm_compute| | |by vm_compute|apply bound_value_bounded].
  all: apply ascii_printable; by vm_compute.
Qed.
Lemma bounded_failed : bounded MAX_RESPONSE_ITEMS MAX_TEXT_CHARS (MAX_RESPONSE_DEPTH + 1) (refusal "operation failed").
Proof.
  apply bounded_two; [by vm_compute|unfold MAX_RESPONSE_ITEMS; lia|by vm_compute| | |by vm_compute|].
  3: split; [by vm_compute|]. all: apply ascii_printable; by vm_compute.
Qed.

(** The client against the server: [to_server] and [to_client] are the calls of [recv] that a line
    sent by the other side takes; the server accepts the connection at [accepted]. *)
Definition local_exchange {W : Type} (given : list (pyval * option (handler (W := W)))) (max_request max_response timeout accepted : Z)
    (to_server to_client : bytes → list (option bytes * Z)) (line : bytes) (w : W) : option (list (option bytes * Z)) * W :=
  match _serve_connection py_str dumps loads (handler_table given) max_request max_response timeout accepted (to_server line) w with
  | (Ret (Some reply), w') => (Some (to_client reply), w')
  | (_, w') => (Some [(Some [], accepted)], w')
  end.
(** The line of a value, without the newline, is shorter than [limit]. *)
Definition fits (limit : Z) (v : pyval) : Prop := ∀ b, dumps v = Ret b → Z.of_nat (length b) < limit.

(** A payload that fits is received as the value that was sent, with sorted keys. *)
Lemma line_received n m d v limit : bounded n m d v → small_ints v → fits limit v →
  ∃ b, dumps v = Ret b ∧ (limit <? Z.of_nat (length b)) = false ∧ parse_line loads b = Ret (sorted_keys v) ∧
    ∀ timeout start recvs, 0 < timeout → delivered (start + timeout) (b ++ [10]) recvs → _read_line limit (start + timeout) start [] recvs = Some b.
Proof.
  intros Hb Hs Hf. destruct (json_round n m d v Hb Hs) as (b & text & Hd & Hu & Hl). exists b.
  destruct (json_line v b Hd) as [Hne Hnl]. pose proof (Hf b Hd). split_and!; [done|by apply Z.ltb_ge; lia| |].
  - unfold parse_line. by rewrite Hu.
  - intros timeout start recvs Ht (pieces & -> & Hcat & Hp). apply read_pieces; try done; [lia| |apply not_elem_of_nil]. rewrite length_app. cbn. lia.
Qed.

(** C22: For a request and a reply that fit their limits, however the stream cuts the two lines into
    pieces of at most 4096 bytes, as long as each arrives before the deadline of its reader,
    the client gets what the handler returns: one call of the handler of that name, with the
    parameters bounded once, and its data bounded once; a handler that raises gives a degraded
    result and no data. *)
Theorem request_reply {W : Type} (given : list (pyval * option (handler (W := W)))) max_request max_response timeout accepted start
    to_server to_client name h d w :
  (∀ line, delivered (accepted + timeout) line (to_server line)) → (∀ line, delivered (start + timeout) line (to_client line)) →
  name ∈ ALLOWED_OPERATIONS → dict_get name (handler_table given) = Some h → d ≠ [] → small_ints (VDict d) → 0 < timeout →
  let params := sorted_keys (bound_params py_str (VDict d)) in
  fits max_request (VDict [(VStr (u "op"), VStr name); (VStr (u "params"), bound_params py_str (VDict d))]) →
  fits max_response (refusal "operation failed") →
  (∀ data, (h params w).1 = Ret data → small_ints data ∧ fits max_response (answer (bound_response py_str data))) →
  request py_str dumps loads (local_exchange given max_request max_response timeout accepted to_server to_client) max_request max_response timeout start
    (VStr name) (VDict d) w =
  (match (h params w).1 with
   | Ret data => answer (sorted_keys (bound_response py_str data))
   | Raise _ => _degraded (u "operation failed")
   end, (h params w).2).
Proof.
  intros Hserver Hclient Hname Hh Hd Hs Ht params Hfit Hfail Hdata. unfold request. rewrite bool_decide_eq_true_2 by done. cbn [negb truthy].
  assert (match d with [] => false | _ => true end = true) as -> by by destruct d.
  set (envelope := VDict [(VStr (u "op"), VStr name); (VStr (u "params"), bound_params py_str (VDict d))]) in *.
  assert (small_ints envelope) as Hse
    by (split; [done|split; [exact (small_ints_bound _ _ _ (VDict d) Hs)|done]]).
  destruct (line_received _ _ _ envelope max_request (bounded_envelope name _ Hname) Hse Hfit) as (b & -> & -> & Hparse & Hread).
  unfold local_exchange, _serve_connection. rewrite (Hread timeout accepted) by done.
  assert (_dispatch py_str loads (handler_table given) b w = (Ret match (h params w).1 with
      | Ret data => answer (bound_response py_str data) | Raise _ => refusal "operation failed" end, (h params w).2)) as Hdispatch.
  { unfold _dispatch. rewrite Hparse. assert (sorted_keys envelope = VDict [(VStr (u "op"), VStr name); (VStr (u "params"), params)]) as -> by done.
    cbn [get_key]. change (eq_str (VStr (u "op")) (u "op")) with true. change (eq_str (VStr (u "op")) (u "params")) with false.
    change (eq_str (VStr (u "params")) (u "params")) with true. cbv iota. rewrite Hh.
    assert (∃ p, params = VDict p) as [p Hp]. { unfold params, bound_params. cbn. by eexists. }
    rewrite Hp. unfold bound_params at 1. rewrite bounded_id; [|rewrite <-Hp; unfold params; apply bounded_sorted, bound_value_bounded].
    unfold try_except, mbind, pym_bind. destruct (h (VDict p) w) as [[data|e] w']; done. }
  set (response := match (h params w).1 with Ret data => answer (bound_response py_str data) | Raise _ => refusal "operation failed" end) in *.
  assert (∃ n m d, bounded n m d response) as (n1 & m1 & d1 & Hb1).
  { unfold response. destruct (h params w).1; [exists MAX_RESPONSE_ITEMS, MAX_TEXT_CHARS, (MAX_RESPONSE_DEPTH + 1); apply bounded_answer|].
    exists MAX_RESPONSE_ITEMS, MAX_TEXT_CHARS, (MAX_RESPONSE_DEPTH + 1). apply bounded_failed. }
  assert (small_ints response ∧ fits max_response response) as [Hs1 Hf1].
  { unfold response. destruct (h params w).1 as [data|e]; [|by split]. destruct (Hdata data eq_refl) as [Hs1 Hf1]. split; [|done].
    split; [done|split; [exact (small_ints_bound _ _ _ data Hs1)|done]]. }
  destruct (line_received _ _ _ response max_response Hb1 Hs1 Hf1) as (reply & Hreply & Hsize & Hparse2 & Hread2).
  unfold try_except, mbind, pym_bind at 1. rewrite Hdispatch. unfold of_res, pym_bind. rewrite Hreply, Hsize. unfold mret, pym_ret.
  rewrite (Hread2 timeout start) by done. rewrite Hparse2. f_equal. unfold response. destruct (h params w).1 as [data|e].
  - assert (sorted_keys (answer (bound_response py_str data)) =
      VDict [(VStr (u "data"), sorted_keys (bound_response py_str data)); (VStr (u "ok"), VBool true)]) as -> by done.
    unfold interpret. cbn [get_key]. change (eq_str (VStr (u "data")) (u "ok")) with false. change (eq_str (VStr (u "ok")) (u "ok")) with true.
    change (eq_str (VStr (u "data")) (u "data")) with true. cbn [truthy]. unfold bound_response at 1. rewrite bounded_id; [done|].
    apply bounded_sorted, bound_value_bounded.
  - assert (sorted_keys (refusal "operation failed") = VDict [(VStr (u "error"), VStr (u "operation failed")); (VStr (u "ok"), VBool false)]) as -> by done.
    unfold interpret. cbn [get_key]. change (eq_str (VStr (u "error")) (u "ok")) with false. change (eq_str (VStr (u "ok")) (u "ok")) with true.
    change (eq_str (VStr (u "error")) (u "error")) with true. cbn [truthy bounded_text].
    rewrite clean_id by by apply ascii_printable; vm_compute. done.
Qed.
End Reply.

(** *** A codec with these properties

    Not JSON, but a codec of the values in question: the number of a tree, in decimal. *)
Section Toy.
Definition leaf : Type := nat * (bool * positive * Z) * list Z.
Definition toy_leaf (tag : nat) (b : bool) (m : positive) (z : Z) (s : list Z) : gen_tree leaf := GenLeaf (tag, (b, m, z), s).
Fixpoint toy_tree (v : pyval) : gen_tree leaf :=
  match v with
  | VNone => toy_leaf 0 false 1 0 []
  | VBool b => toy_leaf 1 b 1 0 []
  | VInt z => toy_leaf 2 false 1 z []
  | VFloat (S754_zero b) => toy_leaf 3 b 1 0 []
  | VFloat (S754_infinity b) => toy_leaf 4 b 1 0 []
  | VFloat S754_nan => toy_leaf 5 false 1 0 []
  | VFloat (S754_finite b m e) => toy_leaf 6 b m e []
  | VStr s => toy_leaf 7 false 1 0 s
  | VBytes s => toy_leaf 8 false 1 0 s
  | VList l => GenNode 0 (map toy_tree l)
  | VDict d => GenNode 1 (map (λ e, GenNode 2 [toy_leaf 7 false 1 0 (key_of e); toy_tree e.2]) d)
  end.
Fixpoint toy_value (t : gen_tree leaf) : pyval :=
  match t with
  | GenLeaf (0%nat, _, _) => VNone
  | GenLeaf (1%nat, (b, _, _), _) => VBool b
  | GenLeaf (2%nat, (_, _, z), _) => VInt z
  | GenLeaf (3%nat, (b, _, _), _) => VFloat (S754_zero b)
  | GenLeaf (4%nat, (b, _, _), _) => VFloat (S754_infinity b)
  | GenLeaf (5%nat, _, _) => VFloat S754_nan
  | GenLeaf (6%nat, (b, m, e), _) => VFloat (S754_finite b m e)
  | GenLeaf (7%nat, _, s) => VStr s
  | GenLeaf (_, _, s) => VBytes s
  | GenNode 0 l => VList (map toy_value l)
  | GenNode _ l => VDict (map (λ e, match e with GenNode _ [k; v] => (toy_value k, toy_value v) | _ => (VNone, VNone) end) l)
  end.
Lemma toy_value_tree v n m d : bounded n m d v → toy_value (toy_tree v) = v.
Proof.
  revert v d. refine (pyval_nested_ind _ _ _ _).
  - by intros [| | |[]| | | |].
  - intros l IH d. cbn. rewrite foldr_and. intros (_ & _ & Hf). f_equal. induction l as [|v l IHl]; [done|].
    apply Forall_cons in IH as [Hv IH]. apply Forall_cons in Hf as [Hbv Hf]. cbn. by rewrite (Hv _ Hbv), IHl.
  - intros l IH d. cbn. rewrite foldr_and. intros (_ & _ & _ & Hf). f_equal. induction l as [|[k v] l IHl]; [done|].
    apply Forall_cons in IH as [Hv IH]. apply Forall_cons in Hf as [[(k' & Hk & _) Hbv] Hf]. cbn in *. subst. by rewrite (Hv _ Hbv), IHl.
Qed.
Definition toy_dumps (v : pyval) : res bytes := Ret (str_of_int (Z.pos (encode (toy_tree (sorted_keys v))))).
Definition toy_loads (text : pystr) : res pyval :=
  match decode (Z.to_pos (decimal text)) with Some t => Ret (toy_value t) | None => Raise ValueError end.
#[local] Instance toy_json : JsonOk toy_dumps toy_loads.
Proof.
  split.
  - intros v b [= <-]. pose proof (str_of_int_numeric (Z.pos (encode (toy_tree (sorted_keys v)))) ltac:(lia)) as Hn.
    apply numeric_digits in Hn as [Hne Hf]. split; [done|]. intros Hin. rewrite Forall_forall in Hf. by apply Hf in Hin.
  - intros n m d v Hb _. eexists _, _. split; [reflexivity|]. set (p := encode (toy_tree (sorted_keys v))).
    pose proof (str_of_int_numeric (Z.pos p) ltac:(lia)) as [_ Hf]%numeric_digits. split.
    + apply utf8_decode_encode, utf8_encode_ascii. apply forallb_forall. intros c Hc%list_elem_of_In. rewrite Forall_forall in Hf.
      pose proof (Hf c Hc) as Hd. apply in_range_spec in Hd. apply in_range_spec. lia.
    + unfold toy_loads. rewrite decimal_str_of_int by lia. cbn [Z.to_pos]. unfold p. rewrite decode_encode.
      by rewrite (toy_value_tree _ n m d) by by apply bounded_sorted.
Qed.

(** A handler that counts its calls and answers with what it was given. *)
Definition demo_handler : handler (W := Z) := λ params w, (Ret (VList [params; VInt w]), w + 1).
Definition demo_given : list (pyval * option (handler (W := Z))) :=
  [(VStr (u "settings.set"), Some demo_handler); (VStr (u "shutdown"), Some demo_handler)].
Definition demo_params : list (pyval * pyval) := [(VStr (u "value"), VInt 2); (VStr (u "field"), VStr (u "quality"))].
Definition demo_str (v : pyval) : pystr := u "object".
Lemma demo_fits : ∃ limit, ∀ v, v ∈ [VDict [(VStr (u "op"), VStr (u "settings.set")); (VStr (u "params"), bound_params demo_str (VDict demo_params))];
    refusal "operation failed"; answer (bound_response demo_str (VList [sorted_keys (bound_params demo_str (VDict demo_params)); VInt 7]))] →
  fits toy_dumps limit v.
Proof.
  set (l := [_; _; _]). assert (∃ limit, Forall (fits toy_dumps limit) l) as [limit Hall].
  { clearbody l. induction l as [|v l [limit IH]]; [by exists 0|].
    exists (Z.max limit (1 + Z.of_nat (length (match toy_dumps v with Ret b => b | Raise _ => [] end)))).
    constructor; [intros b Hb; rewrite Hb; lia|]. eapply Forall_impl; [exact IH|]. intros x Hx b Hb. pose proof (Hx b Hb). lia. }
  exists limit. by rewrite Forall_forall in Hall.
Qed.
(** A stream that delivers one byte at a time. *)
Definition drip (line : bytes) : list (option bytes * Z) := map (λ c, (Some [c], 1)) line.
Lemma drip_delivers line : delivered 3 line (drip line).
Proof.
  exists (map (λ c, ([c], 1)) line). split_and!.
  - unfold drip. by rewrite map_map.
  - induction line as [|c line IH]; [done|]. cbn. f_equal. exact IH.
  - rewrite Forall_map. apply Forall_forall. intros c _. cbn. unfold RECV_BYTES. split_and!; [done|lia|lia].
Qed.
Lemma request_reply_witness : ∃ limit,
  request demo_str toy_dumps toy_loads (local_exchange demo_str toy_dumps toy_loads demo_given limit limit 3 0 drip drip) limit limit 3 0
    (VStr (u "settings.set")) (VDict demo_params) 7 =
  (answer (sorted_keys (bound_response demo_str (VList [sorted_keys (bound_params demo_str (VDict demo_params)); VInt 7]))), 8).
Proof.
  destruct demo_fits as [limit Hfits]. exists limit.
  rewrite (request_reply demo_str toy_dumps toy_loads demo_given limit limit 3 0 0 drip drip (u "settings.set") demo_handler demo_params 7).
  - done.
  - exact drip_delivers.
  - exact drip_delivers.
  - vm_compute. right. right. left.
  - done.
  - done.
  - repeat split.
  - lia.
  - apply Hfits. by left.
  - apply Hfits. right. by left.
  - intros data [= <-]. split; [vm_compute; by repeat split|apply Hfits; right; right; by left].
Defined.
End Toy.

(** The client counts the payload without its newline and the server with it, so that a request of
    exactly the limit passes the first check and the connection is dropped. *)
Lemma full_request_dropped `{UnicodeDB} limit timeout start later b : 0 < timeout → b ≠ [] → Z.of_nat (length b) = limit →
  (limit <? Z.of_nat (length b)) = false ∧ _read_line limit (start + timeout) start [] [(Some (b ++ [10]), later)] = None.
Proof.
  intros Ht Hb Hl. split; [apply Z.ltb_ge; lia|]. destruct b as [|c b]; [done|]. cbn [_read_line app].
  destruct (Z.leb_spec (start + timeout - start) 0); [lia|]. destruct (Z.ltb_spec limit (Z.of_nat (length (c :: b ++ [10])))) as [|Hge]; [done|].
  cbn in Hl, Hge. rewrite length_app in Hge. cbn in Hge. lia.
Qed.

(** ** Admission *)

(** In every interleaving of connections, workers, starts and stops, each slot is free or is
    held by exactly one connection that is queued, being served, or was cancelled by a stop; so
    that no more than the maximum is held, no slot is returned twice, and no more than the
    maximum of workers serve. *)
Theorem slots_accounted max_workers max_connections events v :
  run_server max_workers events (new_server max_connections) = Some v →
  (sv_slots v + length (sv_queued v) + length (sv_serving v) + length (sv_lost v) = Nat.max 1 max_connections)%nat ∧
  (length (sv_serving v) ≤ Nat.max 1 max_workers)%nat.
Proof.
  revert v. induction events as [|e events IH] using rev_ind; intros v; [intros [= <-]; cbn; lia|].
  unfold run_server in *. rewrite foldl_snoc. destruct (foldl _ _ events) as [v0|]; [|done]. cbn. destruct (IH v0 eq_refl) as [Hsum Hw].
  assert (∀ c l, c ∈ l → S (length (remove_one c l)) = length l) as Hrem.
  { intros c l. induction l as [|x l IHl]; [by intros ?%not_elem_of_nil|]. cbn. case_decide; [done|].
    intros [->|Hc]%elem_of_cons; [done|]. cbn. by rewrite IHl. }
  destruct v0 as [slots queued serving closed lost running]. cbn [sv_slots sv_queued sv_serving sv_closed sv_lost sv_running] in *.
  destruct e as [c| |c| |]; cbn -[Nat.max Nat.ltb].
  - destruct running; cbn -[Nat.max Nat.ltb]; [|done]. destruct slots as [|n]; intros [= <-]; cbn -[Nat.max Nat.ltb]; unfold constant; rewrite ?length_app; cbn -[Nat.max Nat.ltb]; lia.
  - destruct queued as [|c rest]; [done|]. destruct (Nat.ltb_spec (length serving) (Nat.max 1 max_workers)); [|done].
    intros [= <-]. cbn -[Nat.max Nat.ltb] in *. unfold constant. rewrite length_app. cbn -[Nat.max Nat.ltb]. lia.
  - case_bool_decide as Hc; [|done]. intros [= <-]. cbn -[Nat.max Nat.ltb]. unfold constant. pose proof (Hrem _ _ Hc). lia.
  - by intros [= <-].
  - intros [= <-]. cbn -[Nat.max Nat.ltb]. rewrite length_app. lia.
Qed.
Lemma slots_accounted_witness : ∃ v, run_server 2 [EStart; EAccept 1; EAccept 2; EWorker; EFinish 1; EStop; EStart; EAccept 3] (new_server 4) = Some v ∧
  (sv_slots v + length (sv_queued v) + length (sv_serving v) + length (sv_lost v) = Nat.max 1 4)%nat ∧ (length (sv_serving v) ≤ Nat.max 1 2)%nat.
Proof. eexists. split; [reflexivity|]. by eapply (slots_accounted 2 4 [EStart; EAccept 1; EAccept 2; EWorker; EFinish 1; EStop; EStart; EAccept 3]). Defined.
(** A stop gives up the connections that wait: they are neither closed nor is their slot returned,
    and after a restart every further connection is refused. *)
Lemma stop_loses_slots : ∃ v, run_server 2 [EStart; EAccept 1; EAccept 2; EStop; EStart; EAccept 3] (new_server 2) = Some v ∧
  sv_slots v = 0%nat ∧ sv_serving v = [] ∧ sv_queued v = [] ∧ sv_lost v = [1%nat; 2%nat] ∧ sv_closed v = [3%nat].
Proof. by eexists. Qed.
