(* ===== verification/Connect.v ===== *)
(** The decisions around Prusa Connect: [app/http_result.py] and [app/info_service.py] with the
    service loop of [main.py] that keeps [/c/info] up to date, the reboot limit and the light
    control of [app/device_control.py], the authentication answer of [app/auth.py], and the
    time zone conversion of [app/timezone.py]. *)
From S2P Require Import Prelude PyValue PyText.

(** ** Results *)

Inductive result_class := Success | Redirect | Blocked | ClientError | ServerError | Timeout | ConnectionError.
#[export] Instance result_class_eq_dec : EqDecision result_class.
Proof. solve_decision. Defined.
Definition BLOCKED_STATUSES : list Z := [403].
Definition RETRYABLE_RESULTS : list result_class := [Blocked; ServerError; Timeout; ConnectionError].
Definition MAX_INFO_RETRIES : Z := 10.
Definition BACKOFF_BASE_SECONDS : Z := 1.
Definition BACKOFF_CAP_SECONDS : Z := 30.
Definition INFO_RETRY_COUNTDOWN : Z := 10.

Definition classify_status `{UnicodeDB} (status : pyval) : result_class :=
  match py_int status with
  | Raise _ => ClientError
  | Ret z =>
      if (200 <=? z) && (z <? 300) then Success
      else if (300 <=? z) && (z <? 400) then Redirect
      else if bool_decide (z ∈ BLOCKED_STATUSES) then Blocked
      else if (400 <=? z) && (z <? 500) then ClientError
      else if (500 <=? z) && (z <? 600) then ServerError
      else ClientError
  end.
Definition classify_exception (timeout : bool) : result_class := if timeout then Timeout else ConnectionError.
Definition is_retryable (r : result_class) : bool := bool_decide (r ∈ RETRYABLE_RESULTS).
Definition retry_delay (failures : Z) : Z := Z.min (BACKOFF_BASE_SECONDS * 2 ^ Z.max 0 failures) BACKOFF_CAP_SECONDS.
Definition should_retry (r : result_class) (failures : Z) : bool := is_retryable r && (failures <? MAX_INFO_RETRIES).

Definition next_info_action (dirty : bool) (countdown : Z) : bool * Z :=
  if negb dirty then (false, countdown)
  else if countdown <=? 0 then (true, 0)
  else (false, countdown - 1).
Definition info_dirty_after_result (r : result_class) (failures : Z) : bool :=
  if bool_decide (r = Success) then false else should_retry r failures.
Definition countdown_after_result (r : result_class) (failures : Z) : Z :=
  if negb (should_retry r failures) then 0 else Z.max INFO_RETRY_COUNTDOWN (retry_delay failures).

(** ** The service loop

    [version] counts the changes of what the body reports; the body of an upload in flight
    has the version of its start.  [confirmed] is the last version the server accepted, and
    [given_up] that the flag was cleared without one. *)
Record info := {
  dirty : bool;
  countdown : Z;
  failures : Z;
  flight : option nat;
  version : nat;
  confirmed : nat;
  given_up : bool;
  attempts : nat;
}.
(** A change is published; the loop wakes after its second; the upload ends (or raises what
    [upload_info] does not catch, which counts as a connection error). *)
Inductive info_event := Mark | Tick | Reply (r : result_class).
Definition info_step (e : info_event) (s : info) : option info :=
  match e, flight s with
  | Mark, _ => Some (s{{version := S (version s)}}{{dirty := true}})
  | Tick, None =>
      let '(attempt, c) := next_info_action (dirty s) (countdown s) in
      if attempt then Some (s{{countdown := c}}{{flight := Some (version s)}}{{attempts := S (attempts s)}})
      else Some (s{{countdown := c}}{{failures := if dirty s then failures s else 0}})
  | Reply Success, Some body =>
      Some (s{{flight := None}}{{dirty := false}}{{countdown := 0}}{{failures := 0}}{{confirmed := body}}{{given_up := false}})
  | Reply r, Some _ =>
      let d := info_dirty_after_result r (failures s) in
      Some (s{{flight := None}}{{dirty := d}}{{countdown := countdown_after_result r (failures s)}}
             {{failures := failures s + 1}}{{given_up := negb d}})
  | _, _ => None
  end.
Fixpoint info_run (events : list info_event) (s : info) : option info :=
  match events with
  | [] => Some s
  | e :: events => match info_step e s with Some s' => info_run events s' | None => None end
  end.
(** The state when the loop starts, with [dirty] as the first upload left it.  [attempts] counts
    those of the loop; [info_boot] adds the first upload, which [main] makes before
    it starts the loop and which the loop's count of failures does not include. *)
Definition info_start (d : bool) : info :=
  {| dirty := d; countdown := 0; failures := 0; flight := None; version := 0; confirmed := 0; given_up := false; attempts := 0 |}.
Definition info_boot (r : result_class) : info :=
  let d := info_dirty_after_result r 0 in
  (info_start d){{given_up := negb d && negb (bool_decide (r = Success))}}{{attempts := 1%nat}}.
Definition is_mark (e : info_event) : bool := match e with Mark => true | _ => false end.

(** ** Device control *)

Definition DEFAULT_REBOOT_MIN_INTERVAL_SECONDS : Z := 60.
Definition LIGHT_CONTROL_MODES : list (pystr * Z) := [(u "auto", 1); (u "day", 2); (u "night", 3)].
Definition can_reboot (last : option Z) (now min_interval : Z) : bool :=
  match last with
  | None => true
  | Some last => if now <? last then false else min_interval <=? now - last
  end.
(** What the command does: it returns a truth value, or raises ([None]).  The result is what the
    caller is told, whether the command ran, and the new state. *)
Definition request_reboot (last : option Z) (command : option bool) (now : Z) : bool * bool * option Z :=
  if negb (can_reboot last now DEFAULT_REBOOT_MIN_INTERVAL_SECONDS) then (false, false, last)
  else (default false command, true, Some now).
(** The times at which the command ran, in a history of requests. *)
Fixpoint reboots (last : option Z) (requests : list (Z * option bool)) : list Z :=
  match requests with
  | [] => []
  | (now, command) :: requests =>
      let '(_, ran, last) := request_reboot last command now in
      if ran then now :: reboots last requests else reboots last requests
  end.
Definition light_control_mode `{UnicodeDB} (lower : pystr → pystr) (value : pyval) : option Z :=
  match value with
  | VStr s => dict_get (lower (strip s)) LIGHT_CONTROL_MODES
  | VInt z => if bool_decide (z ∈ LIGHT_CONTROL_MODES.*2) then Some z else None
  | _ => None
  end.
(** [available]: the device has an illuminator.  The result and the new [ir_mode]. *)
Definition apply_light_control `{UnicodeDB} (lower : pystr → pystr) (value : pyval) (available : bool) (ir_mode : option Z) : bool * option Z :=
  match light_control_mode lower value with
  | None => (false, ir_mode)
  | Some mode => if available then (true, Some mode) else (false, ir_mode)
  end.

(** [type(ack) is int and ack == 0]. *)
Definition auth_ack_is_success (ack : pyval) : bool := match ack with VInt z => z =? 0 | _ => false end.

(** ** Time zone *)

Definition TZ_MAX_LEN : nat := 64.
Definition convert_timezone (tz : pystr) : pystr :=
  if starts_with (u "UTC+") tz then u "UTC-" ++ drop 4 tz
  else if starts_with (u "UTC-") tz then u "UTC+" ++ drop 4 tz
  else tz.
(** [json.loads] of the body. *)
Definition parse_timezone_response (loaded : res pyval) : option pystr :=
  match loaded with
  | Ret (VDict d) =>
      if eq_str (get_key (u "status") d) (u "success") then
        match get_key (u "timezone") d with VStr ((_ :: _) as tz) => Some tz | _ => None end
      else None
  | _ => None
  end.
(** [/etc/TZ]: its text if it can be read.  [writable]: the file can be opened; [sudo]: the
    path is the real one and [sudo tee] works, which writes the ASCII part. *)
Definition ascii_only (s : pystr) : pystr := List.filter (in_range 0 127) s.
Definition write_tz_file (writable sudo : bool) (value : pystr) (file : option pystr) : bool * option pystr :=
  if bool_decide (value = []) || (TZ_MAX_LEN <? length value)%nat then (false, file)
  else if writable then (true, Some (value ++ [10]))
  else if sudo then (true, Some (ascii_only (value ++ [10])))
  else (false, file).
Definition read_tz_file `{UnicodeDB} (file : option pystr) : pystr := match file with Some s => strip s | None => [] end.
Definition resolve_tz_name `{UnicodeDB} (writable sudo : bool) (raw : pystr) (file : option pystr) : pystr * option pystr :=
  let converted := convert_timezone raw in
  let file := (write_tz_file writable sudo converted file).2 in
  (match read_tz_file file with [] => converted | s => s end, file).

(** ** The service loop stops, and sends what was changed *)

Definition info_ok (s : info) : Prop :=
  0 ≤ failures s ∧ 0 ≤ countdown s ≤ BACKOFF_CAP_SECONDS ∧ (is_Some (flight s) → countdown s = 0).
Lemma countdown_range r f : 0 ≤ countdown_after_result r f ≤ BACKOFF_CAP_SECONDS.
Proof.
  unfold countdown_after_result, retry_delay, INFO_RETRY_COUNTDOWN, BACKOFF_CAP_SECONDS. destruct (negb _); [lia|].
  pose proof (Z.le_min_r (BACKOFF_BASE_SECONDS * 2 ^ Z.max 0 f) 30). lia.
Qed.
Lemma info_step_ok e s s' : info_ok s → info_step e s = Some s' → info_ok s'.
Proof.
  destruct s as [d c f fl v k g a]. unfold info_ok. cbn [dirty countdown failures flight version confirmed given_up attempts].
  intros (Hf & Hc & Hfl). destruct e as [| |r], fl as [body|]; cbn; try done; try by destruct r.
  - intros [= <-]. cbn. auto.
  - intros [= <-]. cbn. auto.
  - unfold next_info_action. destruct d; cbn; [|intros [= <-]; cbn; unfold constant; split; [lia|split; [lia|by intros []]]].
    destruct (Z.leb_spec c 0); intros [= <-]; cbn; unfold constant; [unfold BACKOFF_CAP_SECONDS; split; [lia|split; [lia|done]]|].
    split; [lia|split; [lia|by intros []]].
  - destruct r; intros [= <-]; cbn; unfold constant; (split; [lia|split; [|by intros []]]); try apply countdown_range; unfold BACKOFF_CAP_SECONDS; lia.
Qed.
Lemma info_run_ok events s s' : info_ok s → info_run events s = Some s' → info_ok s'.
Proof.
  revert s. induction events as [|e events IH]; intros s Hs; cbn; [by intros [= <-]|].
  destruct (info_step e s) as [s1|] eqn:He; [|done]. apply IH. by eapply info_step_ok.
Qed.
Lemma info_start_ok d : info_ok (info_start d).
Proof. unfold info_ok. cbn. unfold BACKOFF_CAP_SECONDS. split; [lia|split; [lia|by intros []]]. Qed.

Lemma is_retryable_cases r : is_retryable r = match r with Blocked | ServerError | Timeout | ConnectionError => true | _ => false end.
Proof. by destruct r. Qed.
(** While nothing is changed, the attempts since the count was [a]: at most ten retries, and none
    after the last. *)
Definition few (a : Z) (s : info) : Prop :=
  0 ≤ failures s ∧
  match flight s with
  | Some _ => Z.of_nat (attempts s) ≤ a + failures s + 1 ∧ (Z.of_nat (attempts s) ≤ a + 1 ∨ failures s ≤ MAX_INFO_RETRIES)
  | None => if dirty s then Z.of_nat (attempts s) ≤ a + failures s ∧ (Z.of_nat (attempts s) ≤ a ∨ failures s ≤ MAX_INFO_RETRIES)
            else Z.of_nat (attempts s) ≤ a + MAX_INFO_RETRIES + 1
  end.
(** While moreover every upload fails in a way that is retried: exactly so many, where the failures
    were counted from zero. *)
Definition all_failed (a : Z) (s : info) : Prop :=
  match flight s with
  | Some _ => Z.of_nat (attempts s) = a + failures s + 1 ∧ failures s ≤ MAX_INFO_RETRIES
  | None => if dirty s then Z.of_nat (attempts s) = a + failures s ∧ failures s ≤ MAX_INFO_RETRIES
            else Z.of_nat (attempts s) = a + MAX_INFO_RETRIES + 1
  end.
Definition transient (e : info_event) : bool := match e with Reply r => is_retryable r | _ => true end.
Lemma still_dirty r f : info_dirty_after_result r f = is_retryable r && (f <? 10).
Proof. unfold info_dirty_after_result, should_retry, MAX_INFO_RETRIES. case_bool_decide as Hr; [by subst|done]. Qed.
Lemma few_step a e s s' : is_mark e = false → few a s → info_step e s = Some s' → few a s'.
Proof.
  destruct s as [d c f fl v k g n]. unfold few, MAX_INFO_RETRIES. cbn [dirty countdown failures flight version confirmed given_up attempts].
  intros Hm (Hf & Hc). destruct e as [| |r], fl as [body|]; cbn; try done; try by destruct r.
  - unfold next_info_action. destruct d; cbn in Hc |- *; [|intros [= <-]; cbn; unfold constant; lia].
    destruct (Z.leb_spec c 0); intros [= <-]; cbn; unfold constant; lia.
  - destruct r; rewrite ?still_dirty; intros [= <-]; cbn; unfold constant; try lia; destruct (Z.ltb_spec f 10); lia.
Qed.
Lemma all_failed_step a e s s' : is_mark e = false → transient e = true → all_failed a s → info_step e s = Some s' → all_failed a s'.
Proof.
  destruct s as [d c f fl v k g n]. unfold all_failed, MAX_INFO_RETRIES. cbn [dirty countdown failures flight version confirmed given_up attempts].
  intros Hm Ht Hc. destruct e as [| |r], fl as [body|]; cbn; try done; try by destruct r.
  - unfold next_info_action. destruct d; cbn in Hc |- *; [|intros [= <-]; cbn; unfold constant; lia].
    destruct (Z.leb_spec c 0); intros [= <-]; cbn; unfold constant; lia.
  - destruct r; try done; rewrite ?still_dirty; intros [= <-]; cbn; unfold constant; destruct (Z.ltb_spec f 10); lia.
Qed.
(** What every step that is allowed keeps, a run keeps. *)
Lemma info_run_keeps (good : info_event → Prop) (I : info → Prop) events s s' :
  (∀ e t t', good e → I t → info_step e t = Some t' → I t') → Forall good events → I s → info_run events s = Some s' → I s'.
Proof.
  intros Hstep Hgood. revert s. induction Hgood as [|e events He _ IH]; intros s Hs; cbn; [by intros [= <-]|].
  destruct (info_step e s) as [s1|] eqn:Hs1; [|done]. apply IH. by eapply Hstep.
Qed.
Lemma info_run_app es1 es2 s : info_run (es1 ++ es2) s = match info_run es1 s with Some s1 => info_run es2 s1 | None => None end.
Proof. revert s. induction es1 as [|e es1 IH]; intros s; cbn; [done|]. by destruct (info_step e s). Qed.
Lemma info_boot_ok r : info_ok (info_boot r).
Proof. apply (info_start_ok (info_dirty_after_result r 0)). Qed.
(** [e] ends a stretch of failures: an upload was accepted, or the service was clean for a second. *)
Definition settles (e : info_event) (s : info) : Prop := e = Reply Success ∨ e = Tick ∧ dirty s = false.
Lemma settled_change e s s' : settles e s → info_run [e; Mark] s = Some s' → failures s' = 0 ∧ dirty s' = true ∧ flight s' = None.
Proof.
  destruct s as [d c f fl v k g n]. intros [-> | [-> Hd]]; [|cbn in Hd; subst d]; destruct fl; cbn; try done; by intros [= <-].
Qed.

(** C38: From the start of the program, with the result [r] of its first upload, and after any
    changes, seconds and answers [before]: as long as nothing is changed ([after]), the
    service makes at most eleven more attempts, whatever the server answers and however long it
    runs; so the state at the start is sent at most twelve times, the first upload included.
    The failures before do not count against a change that comes after a success or
    a clean second: if all its uploads fail in a way that is retried, the service gives up
    after exactly eleven. *)
Theorem info_attempts_bounded r before after s0 s : info_run before (info_boot r) = Some s0 →
  Forall (λ e, is_mark e = false) after → info_run after s0 = Some s →
  Z.of_nat (attempts s) ≤ Z.of_nat (attempts s0) + 11 ∧
  (before = [] → Z.of_nat (attempts s) ≤ 12) ∧
  (∀ past e s1, before = past ++ [e; Mark] → info_run past (info_boot r) = Some s1 → settles e s1 →
     Forall (λ e, transient e = true) after → flight s = None → dirty s = false →
     Z.of_nat (attempts s) = Z.of_nat (attempts s0) + 11).
Proof.
  intros Hbefore Hm Hrun.
  assert (Z.of_nat (attempts s) ≤ Z.of_nat (attempts s0) + 11) as Hfew.
  { pose proof (info_run_ok _ _ _ (info_boot_ok r) Hbefore) as (Hf0 & _).
    assert (few (Z.of_nat (attempts s0)) s) as Hs.
    { refine (info_run_keeps _ _ _ _ _ (few_step _) Hm _ Hrun). unfold few, MAX_INFO_RETRIES. split; [done|]. destruct (flight s0), (dirty s0); lia. }
    unfold few, MAX_INFO_RETRIES in Hs. destruct (flight s), (dirty s); lia. }
  split; [done|]. split; [intros ->; injection Hbefore as <-; by replace 12 with (Z.of_nat (attempts (info_boot r)) + 11)|].
  intros past e s1 -> Hpast He Ht Hfl Hd. rewrite info_run_app, Hpast in Hbefore.
  destruct (settled_change _ _ _ He Hbefore) as (Hf0 & Hd0 & Hfl0).
  assert (all_failed (Z.of_nat (attempts s0)) s) as Hs.
  { refine (info_run_keeps (λ e, is_mark e = false ∧ transient e = true) _ _ _ _ _ _ _ Hrun).
    - intros e' t t' [H1 H2]. by apply all_failed_step.
    - apply Forall_and. by split.
    - unfold all_failed, MAX_INFO_RETRIES. rewrite Hfl0, Hd0, Hf0. lia. }
  unfold all_failed, MAX_INFO_RETRIES in Hs. rewrite Hfl, Hd in Hs. lia.
Qed.
(** Two failures, then a success; then a change that is never accepted. *)
Definition timeouts (waits : list nat) : list info_event := Tick :: concat (map (λ n, Reply Timeout :: replicate n Tick) waits).
Lemma info_attempts_bounded_witness :
  let before := timeouts [11; 11]%nat ++ [Reply Success; Mark] in
  let after := timeouts [11; 11; 11; 11; 17; 31; 31; 31; 31; 31; 5]%nat in
  ∃ s0 s, info_run before (info_boot Timeout) = Some s0 ∧ info_run after s0 = Some s ∧
    attempts s0 = 4%nat ∧ Z.of_nat (attempts s) = Z.of_nat (attempts s0) + 11.
Proof.
  intros before after. destruct (info_run before (info_boot Timeout)) as [s0|] eqn:H0; [|by vm_compute in H0].
  destruct (info_run (timeouts [11; 11]%nat) (info_boot Timeout)) as [s1|] eqn:H1; [|by vm_compute in H1].
  destruct (info_run after s0) as [s|] eqn:Hs; [|vm_compute in H0; injection H0 as <-; by vm_compute in Hs].
  exists s0, s. split; [done|]. split; [done|]. split; [vm_compute in H0; by injection H0 as <-|].
  destruct (info_attempts_bounded Timeout before after s0 s H0) as (_ & _ & H); [by vm_compute; repeat constructor|done|].
  vm_compute in H0. injection H0 as <-. vm_compute in Hs. injection Hs as <-.
  apply (H (timeouts [11; 11]%nat) (Reply Success) s1); [done|done|by left|by vm_compute; repeat constructor|done|done].
Defined.

(** No change is published while an upload is in flight. *)
Fixpoint calm (events : list info_event) (s : info) : Prop :=
  match events with
  | [] => True
  | e :: events => (e = Mark → flight s = None) ∧ match info_step e s with Some s' => calm events s' | None => True end
  end.
Definition current (s : info) : Prop :=
  (∀ body, flight s = Some body → body = version s ∧ dirty s = true) ∧
  (flight s = None → dirty s = false → given_up s = false → confirmed s = version s).
Lemma current_step e s s' : (e = Mark → flight s = None) → current s → info_step e s = Some s' → current s'.
Proof.
  destruct s as [d c f fl v k g a]. unfold current. cbn [dirty countdown failures flight version confirmed given_up attempts].
  intros Hm (Hf & Hc). destruct e as [| |r], fl as [body|]; cbn; try done; try by destruct r.
  - by specialize (Hm eq_refl).
  - intros [= <-]. done.
  - unfold next_info_action. destruct d; cbn; [|intros [= <-]; by split; [|auto]].
    destruct (c <=? 0); intros [= <-]; cbn; unfold constant; split; [by intros b [= <-]|done|done|done].
  - destruct (Hf body eq_refl) as [-> ->]. destruct r; intros [= <-]; cbn; unfold constant; (split; [done|]); try done.
    all: intros _ Hd Hg; by rewrite Hd in Hg.
Qed.
(** C23: If nothing is changed while an upload is in flight, then whenever the service is idle, and
    has not given up, what the server accepted last is the current state; and from every state
    that is not clean, once the countdown has run out, one accepted upload makes it so. *)
Theorem info_delivered events s : calm events (info_start true) → info_run events (info_start true) = Some s → flight s = None →
  (dirty s = false → given_up s = false → confirmed s = version s) ∧
  (dirty s = true → ∃ s', info_run (replicate (Z.to_nat (countdown s)) Tick ++ [Tick; Reply Success]) s = Some s' ∧
     dirty s' = false ∧ flight s' = None ∧ confirmed s' = version s ∧ version s' = version s ∧ countdown s ≤ BACKOFF_CAP_SECONDS).
Proof.
  intros Hcalm Hrun Hfl. split.
  - assert (current (info_start true)) as Hc by by split.
    assert (current s) as [_ Hs]; [|by apply Hs].
    clear Hfl. revert Hc Hcalm Hrun. generalize (info_start true). induction events as [|e events IH]; intros s0 Hc; cbn; [by intros _ [= <-]|].
    intros [Hm Hcalm]. destruct (info_step e s0) as [s1|] eqn:Hs; [|done]. intros Hrun. eapply IH; [|exact Hcalm|exact Hrun]. by eapply current_step.
  - intros Hd. pose proof (info_run_ok _ _ _ (info_start_ok true) Hrun) as (Hf & Hc & _). clear Hcalm Hrun. destruct Hc as [Hc0 Hcap].
    remember (Z.to_nat (countdown s)) as n eqn:Hn. revert s Hfl Hd Hf Hc0 Hcap Hn.
    induction n as [|n IH]; intros [d c f fl v k g a]; cbn [dirty countdown failures flight version confirmed given_up attempts]; intros -> -> Hf Hc0 Hcap Hn.
    + assert (c = 0) as -> by lia. cbn. eexists. split; [reflexivity|]. cbn. unfold constant. by split_and!.
    + cbn. unfold next_info_action. cbn. destruct (Z.leb_spec c 0); [lia|]. unfold constant.
      destruct (IH {| dirty := true; countdown := c - 1; failures := f; flight := None; version := v; confirmed := k; given_up := g; attempts := a |})
        as (s' & Hs' & H1 & H2 & H3 & H4 & H5); cbn; try done; try lia. exists s'. split; [exact Hs'|]. cbn in *. split_and!; [done..|lia].
Qed.
Lemma info_delivered_witness :
  let events := [Tick; Reply ServerError; Tick; Mark] in
  ∃ s, info_run events (info_start true) = Some s ∧ countdown s = 9 ∧ ∃ s',
    info_run (replicate (Z.to_nat (countdown s)) Tick ++ [Tick; Reply Success]) s = Some s' ∧ confirmed s' = 1%nat.
Proof.
  intros events. destruct (info_run events (info_start true)) as [s|] eqn:Hs; [|by vm_compute in Hs]. exists s.
  split; [done|]. split; [vm_compute in Hs; by injection Hs as <-|].
  destruct (info_delivered events s) as [_ H]; [by vm_compute|exact Hs|vm_compute in Hs; by injection Hs as <-|].
  destruct H as (s' & H1 & _ & _ & H2 & _); [vm_compute in Hs; by injection Hs as <-|]. exists s'. split; [exact H1|]. rewrite H2.
  vm_compute in Hs. by injection Hs as <-.
Defined.
(** A change that is published while an upload is in flight is forgotten when that upload
    succeeds: the service is clean and the server has the state before the change. *)
Lemma change_in_flight_lost : ∃ s, info_run [Tick; Mark; Reply Success; Tick; Tick] (info_start true) = Some s ∧
  dirty s = false ∧ given_up s = false ∧ flight s = None ∧ confirmed s = 0%nat ∧ version s = 1%nat.
Proof. by eexists. Qed.
(** After the service gave up, a change that comes before its next second has one attempt only. *)
Lemma change_after_giving_up : ∃ s,
  info_run (Tick :: concat (map (λ n, Reply Timeout :: replicate n Tick) [11; 11; 11; 11; 17; 31; 31; 31; 31; 31]%nat) ++ [Reply Timeout; Mark; Tick; Reply Timeout]) (info_start true) = Some s ∧
  version s = 1%nat ∧ dirty s = false ∧ given_up s = true.
Proof. eexists. split; [vm_compute; reflexivity|done]. Qed.

(** ** Reboots *)

Lemma reboots_after last requests : Forall (λ t, ∀ l, last = Some l → l + DEFAULT_REBOOT_MIN_INTERVAL_SECONDS ≤ t) (reboots last requests).
Proof.
  revert last. induction requests as [|[now command] requests IH]; intros last; cbn [reboots]; [constructor|].
  unfold request_reboot. destruct (can_reboot last now _) eqn:Hc; cbn [negb]; [|apply IH].
  assert (∀ l, last = Some l → l + DEFAULT_REBOOT_MIN_INTERVAL_SECONDS ≤ now) as Hnow.
  { intros l ->. unfold can_reboot in Hc. destruct (now <? l); [done|]. apply Z.leb_le in Hc. lia. }
  constructor; [done|]. eapply Forall_impl; [apply IH|]. intros t Ht l Hl. specialize (Ht now eq_refl). specialize (Hnow l Hl).
  unfold DEFAULT_REBOOT_MIN_INTERVAL_SECONDS in *. lia.
Qed.
(** Whatever the clock does and whoever asks, any two reboot commands are at least sixty
    seconds apart, a request that ran none changes nothing, and success is reported only for a
    command that succeeded. *)
Theorem reboots_spaced last requests :
  StronglySorted (λ a b, a + DEFAULT_REBOOT_MIN_INTERVAL_SECONDS ≤ b) (option_list last ++ reboots last requests) ∧
  Forall (λ r : Z * option bool, let '(ok, ran, last') := request_reboot last r.2 r.1 in
    (ran = false → ok = false ∧ last' = last) ∧ (ok = true → ran = true ∧ r.2 = Some true)) requests.
Proof.
  split.
  - assert (∀ last, StronglySorted (λ a b, a + DEFAULT_REBOOT_MIN_INTERVAL_SECONDS ≤ b) (reboots last requests)) as Hs.
    { induction requests as [|[now command] requests IH]; intros l; cbn [reboots]; [constructor|].
      unfold request_reboot. destruct (can_reboot _ _ _); cbn [negb]; [|apply IH]. constructor; [apply IH|].
      eapply Forall_impl; [apply reboots_after|]. intros t Ht. by apply Ht. }
    destruct last as [l|]; [|apply Hs]. cbn. constructor; [apply Hs|]. eapply Forall_impl; [apply reboots_after|]. intros t Ht. by apply Ht.
  - apply Forall_forall. intros [now command] _. cbn. unfold request_reboot. destruct (can_reboot _ _ _); cbn; [|done].
    split; [done|]. by destruct command as [[]|].
Qed.

(** No surface reports a light mode that no illuminator applies. *)
Lemma light_control_truthful `{UnicodeDB} lower value ir_mode : apply_light_control lower value false ir_mode = (false, ir_mode).
Proof. unfold apply_light_control. by destruct (light_control_mode _ _). Qed.

(** ** Time zone *)

Lemma convert_timezone_involutive tz : convert_timezone (convert_timezone tz) = tz.
Proof.
  unfold convert_timezone at 2. destruct (starts_with (u "UTC+") tz) eqn:H1; [apply starts_with_iff in H1 as [r ->]; done|].
  destruct (starts_with (u "UTC-") tz) eqn:H2; [apply starts_with_iff in H2 as [r ->]; done|]. unfold convert_timezone. by rewrite H1, H2.
Qed.
(** A time zone too long for the file is not written, and what an earlier one left there is
    reported in its place. *)
Lemma stale_timezone_reported `{UnicodeDB} : ∃ raw, (64 < length raw)%nat ∧
  resolve_tz_name true true raw (Some (u "UTC-2")) = (u "UTC-2", Some (u "UTC-2")).
Proof. exists (replicate 65 65). split; [rewrite length_replicate; lia|by vm_compute]. Qed.
