(* ===== verification/UpdateControl.v ===== *)
(** [app/update_control.py]: what the console shows of the updates and the two actions it offers.
    The manager's threads are workers of the state; a step is one critical section, a thread
    that ends, or time that passes. *)
From Stdlib Require Import SpecFloat.
From S2P Require Import Prelude PyValue PyText.
From S2P Require Updater.

Definition CHECK_DEADLINE_SECONDS : Z := 900.
Definition INSTALL_DEADLINE_SECONDS : Z := 3600.
Definition MAX_REASON_CHARS : nat := 200.
Definition MAX_SUMMARY_CHARS : nat := 256.
Definition MAX_CONFIG_BYTES : Z := 8192.
Definition MANIFEST_URL_ENV : pystr := u "PIBUDDYCAM_UPDATE_MANIFEST_URL".

(** The two actions. *)
Inductive kind := KCheck | KInstall.
#[export] Instance kind_eq_dec : EqDecision kind.
Proof. solve_decision. Defined.

(** ** The view *)

Section View.
(** [float] of an integer: [OverflowError] beyond its range. *)
Context `{UnicodeDB} (float_of_int : Z → res spec_float).

Definition _bounded (value : pyval) (limit : nat) : pystr :=
  match value with VStr s => take limit (strip (List.filter uc_isprintable s)) | _ => [] end.

(** [s.strip(c)]. *)
Fixpoint lstrip_of (c : Z) (s : pystr) : pystr := match s with x :: s' => if x =? c then lstrip_of c s' else s | [] => [] end.
Definition strip_of (c : Z) (s : pystr) : pystr := rev (lstrip_of c (rev (lstrip_of c s))).
Fixpoint configured_in (lines : list pystr) : bool :=
  match lines with
  | [] => false
  | raw_line :: lines =>
      let line := strip raw_line in
      if starts_with (u "#") line then configured_in lines
      else match cut_at 61 line with
           | None => configured_in lines
           | Some (key, value) =>
               if bool_decide (strip key = MANIFEST_URL_ENV)
               then negb (bool_decide (strip_of 39 (strip_of 34 (strip value)) = [])) else configured_in lines
           end
  end.
(** [read]: the decoded text of a file, [None] for an [OSError]. *)
Definition update_source_configured (path : pyval) (read : pystr → option pystr) : bool :=
  match path with
  | VStr ((_ :: _) as p) =>
      match read p with None => false | Some text => configured_in (splitlines (take (Z.to_nat MAX_CONFIG_BYTES) text)) end
  | _ => false
  end.

Definition items (v : pyval) : list (pyval * pyval) := match v with VDict d => d | _ => [] end.
Definition str_or_empty (v : pyval) : pystr := match v with VStr s => s | _ => [] end.
Definition _installed_version (identity state : pyval) : pystr :=
  match str_or_empty (get_key (u "version") (items identity)) with
  | [] => str_or_empty (get_key (u "installed_version") (items state))
  | release => release
  end.
Definition state_name (installed latest : pystr) (in_progress checking installing : bool) : pystr :=
  if installing || in_progress then u "installing"
  else if checking then u "checking"
  else match installed, latest with
       | _ :: _, _ :: _ => if bool_decide (installed = latest) then u "up-to-date" else u "update-available"
       | _, _ => u "unknown"
       end.
Definition VIEW_KEYS : list pystr :=
  [u "state"; u "installed_version"; u "latest_version"; u "release_summary"; u "update_percentage"; u "in_progress"; u "checking";
   u "installing"; u "last_check"; u "source_configured"; u "observed_at"; u "fresh"].
Definition float_or_none (v : pyval) : res pyval :=
  match v with
  | VInt z => f ← float_of_int z; Ret (VFloat f)
  | VBool b => f ← float_of_int (if b then 1 else 0); Ret (VFloat f)
  | VFloat f => Ret (VFloat f)
  | _ => Ret VNone
  end.
Definition build_update_view (state identity now last_check : pyval) (checking installing source_configured : bool) : res (list (pyval * pyval)) :=
  let st := items state in
  let installed := _installed_version identity state in
  let latest := _bounded (get_key (u "latest_version") st) (Z.to_nat Updater.MAX_VERSION_LENGTH) in
  let in_progress := truthy (get_key (u "in_progress") st) in
  last ← float_or_none last_check;
  Ret (zip (map VStr VIEW_KEYS)
    [VStr (state_name installed latest in_progress checking installing);
     VStr installed; VStr latest;
     VStr (_bounded (get_key (u "release_summary") st) MAX_SUMMARY_CHARS);
     match get_key (u "update_percentage") st with VInt z => VInt z | _ => VNone end;
     VBool in_progress; VBool checking; VBool installing; last; VBool source_configured; now; VBool true]).

(** ** The manager *)

Record manager := {
  m_checking : bool;
  m_installing : bool;
  check_started : Z;
  install_started : Z;
  check_reason : pystr;
  install_reason : pystr;
  closed : bool;
  monotonic : Z;
  workers : list (kind * Z);
}.
Definition new_manager (time : Z) : manager :=
  {| m_checking := false; m_installing := false; check_started := 0; install_started := 0; check_reason := []; install_reason := [];
     closed := false; monotonic := time; workers := [] |}.

Definition busy_checking (m : manager) : bool := m_checking m && (monotonic m - check_started m <? CHECK_DEADLINE_SECONDS).
Definition busy_installing (m : manager) : bool := m_installing m && (monotonic m - install_started m <? INSTALL_DEADLINE_SECONDS).
(** The readers and what they return; one that raises counts as nothing read. *)
Definition read_or (r : res pyval) : pyval := match r with Ret v => v | Raise _ => VNone end.
Definition state (state_reader last_check_reader identity_fn : res pyval) (source_configured_fn : res bool) (clock : pyval) (m : manager)
    : res (list (pyval * pyval)) :=
  let checking := busy_checking m in
  let installing := busy_installing m in
  view ← build_update_view (read_or state_reader) (match identity_fn with Ret (VDict d) => VDict d | _ => VDict [] end) clock
    (read_or last_check_reader) checking installing (match source_configured_fn with Ret b => b | Raise _ => false end);
  Ret (view ++ (if negb (bool_decide (check_reason m = [])) && negb checking then [(VStr (u "check_reason"), VStr (check_reason m))] else [])
            ++ (if negb (bool_decide (install_reason m = [])) && negb installing then [(VStr (u "install_reason"), VStr (install_reason m))] else [])).

Definition refused (busy : bool) (why : string) : pyval :=
  VDict [(VStr (u "ok"), VBool false); (VStr (u "busy"), VBool busy); (VStr (u "reason"), VStr (u why))].
Definition admitted (what : string) : pyval :=
  VDict [(VStr (u "ok"), VBool true); (VStr (u "started"), VBool true); (VStr (u what), VBool true)].
(** [Thread.start] of a worker: the system may refuse another thread. *)
Definition start_worker (starts : bool) (k : kind) (reply : pyval) (m : manager) : res pyval * manager :=
  if starts then (Ret reply, m{{workers := workers m ++ [(k, monotonic m)] }}) else (Raise RuntimeError, m).
Definition check (starts : bool) (m : manager) : res pyval * manager :=
  if closed m then (Ret (refused false "update control is shutting down"), m)
  else if busy_checking m then (Ret (refused true "an update check is already in progress"), m)
  else start_worker starts KCheck (admitted "checking") (m{{m_checking := true}}{{check_started := monotonic m}}{{check_reason := [] }}).
Definition install (starts : bool) (m : manager) : res pyval * manager :=
  if closed m then (Ret (refused false "update control is shutting down"), m)
  else if busy_installing m then (Ret (refused true "an update install is already in progress"), m)
  else if busy_checking m then (Ret (refused true "an update check is in progress"), m)
  else start_worker starts KInstall (admitted "installing") (m{{m_installing := true}}{{install_started := monotonic m}}{{install_reason := [] }}).

(** What an action does: it raises, or returns nothing, a boolean, or an object with [ok] and
    [reason]. *)
Inductive outcome := ORaised | ONone | OBool (b : bool) | OObject (ok reason : pyval).
Definition _truthy (o : outcome) : bool := match o with ORaised | ONone => false | OBool b => b | OObject ok _ => truthy ok end.
Definition reason_of (o : outcome) (default : string) : pystr :=
  if _truthy o then []
  else match o with
       | ORaised => u default
       | OObject _ reason => _bounded (if truthy reason then reason else VStr (u default)) MAX_REASON_CHARS
       | _ => _bounded (VStr (u default)) MAX_REASON_CHARS
       end.
Definition _run_check (o : outcome) (m : manager) : manager := m{{m_checking := false}}{{check_reason := reason_of o "update check failed"}}.
Definition _run_install (o : outcome) (m : manager) : manager := m{{m_installing := false}}{{install_reason := reason_of o "update install failed"}}.
Definition close (m : manager) : manager := m{{closed := true}}.

(** A request, the end of the [i]-th worker, time that passes, the shutdown. *)
Inductive event := ECheck (starts : bool) | EInstall (starts : bool) | EDone (i : nat) (o : outcome) | ETime (d : nat) | EClose.
Definition event_step (e : event) (m : manager) : manager :=
  match e with
  | ECheck starts => (check starts m).2
  | EInstall starts => (install starts m).2
  | EDone i o =>
      match workers m !! i with
      | None => m
      | Some (k, _) => (match k with KCheck => _run_check o | KInstall => _run_install o end) (m{{workers := delete i (workers m)}})
      end
  | ETime d => m{{monotonic := monotonic m + Z.of_nat d}}
  | EClose => close m
  end.
Definition run_events (events : list event) (m : manager) : manager := foldl (λ m e, event_step e m) m events.
End View.

(** ** Who runs *)

Definition running (k : kind) (m : manager) : nat := length (List.filter (λ w, bool_decide (w.1 = k)) (workers m)).
Definition deadline (k : kind) : Z := match k with KCheck => CHECK_DEADLINE_SECONDS | KInstall => INSTALL_DEADLINE_SECONDS end.
(** Every worker is younger than the deadline of its kind. *)
Definition in_time (m : manager) : Prop := Forall (λ w, monotonic m - w.2 < deadline w.1) (workers m).
Definition flag (k : kind) (m : manager) : bool := match k with KCheck => m_checking m | KInstall => m_installing m end.
Definition started (k : kind) (m : manager) : Z := match k with KCheck => check_started m | KInstall => install_started m end.
Definition busy (k : kind) (m : manager) : bool := flag k m && (monotonic m - started k m <? deadline k).
(** At most one worker of a kind runs, its flag is set, and it started when the flag says. *)
Definition tracked (k : kind) (m : manager) : Prop :=
  (running k m ≤ 1)%nat ∧ ∀ t, (k, t) ∈ workers m → flag k m = true ∧ t = started k m.
(** A reply that says something was started. *)
Definition was_admitted (r : res pyval) : Prop := ∃ what, r = Ret (admitted what).

Lemma running_after_delete k k' t i m ws : workers m !! i = Some (k', t) → ws = delete i (workers m) →
  length (List.filter (λ w, bool_decide (w.1 = k)) ws) = (running k m - if decide (k' = k) then 1 else 0)%nat.
Proof.
  intros Hi ->. unfold running. rewrite <-(take_drop_middle _ i (k', t) Hi) at 2. rewrite delete_take_drop, !List.filter_app, !length_app. cbn.
  case_decide; [rewrite bool_decide_eq_true_2 by done|rewrite bool_decide_eq_false_2 by done]; cbn; lia.
Qed.
Lemma running_zero k m : running k m = 0%nat ↔ ∀ t, (k, t) ∉ workers m.
Proof.
  unfold running. split.
  - intros Hl t Hin. apply list_elem_of_In in Hin. destruct (List.filter _ _) eqn:Hf; [|done].
    assert (In (k, t) []) as Hn; [|done]. rewrite <-Hf. apply filter_In. split; [done|by apply bool_decide_eq_true].
  - intros Hno. destruct (List.filter _ _) as [|[k' t] l] eqn:Hf; [done|]. assert (In (k', t) ((k', t) :: l)) as Hin by by left.
    rewrite <-Hf in Hin. apply filter_In in Hin as [Hin Hk]. apply bool_decide_eq_true in Hk as <-. by destruct (Hno t); apply list_elem_of_In.
Qed.

Lemma running_flags k m m' : workers m' = workers m → flag k m' = flag k m → started k m' = started k m → tracked k m → tracked k m'.
Proof. unfold tracked, running. by intros -> -> ->. Qed.
Lemma tracked_idle k m : (∀ t, (k, t) ∉ workers m) → tracked k m.
Proof. intros Hno. split; [apply running_zero in Hno; lia|]. intros t Ht. by apply Hno in Ht. Qed.
Lemma tracked_starts k m m' : (∀ t, (k, t) ∉ workers m) → workers m' = workers m ++ [(k, started k m')] → flag k m' = true → tracked k m'.
Proof.
  intros Hno Hw Hf. split.
  - apply running_zero in Hno. unfold running in *. rewrite Hw, List.filter_app, length_app, Hno. cbn. by rewrite bool_decide_eq_true_2.
  - intros t. rewrite Hw, elem_of_app, list_elem_of_singleton. intros [Hin|[= ->]]; [by apply Hno in Hin|done].
Qed.
Lemma tracked_other k k' t m m' : k' ≠ k → workers m' = workers m ++ [(k', t)] → flag k m' = flag k m → started k m' = started k m → tracked k m → tracked k m'.
Proof.
  intros Hk Hw Hf Hs [Hr Ht]. split.
  - unfold running in *. rewrite Hw, List.filter_app, length_app. cbn. rewrite bool_decide_eq_false_2 by done. cbn. lia.
  - intros t'. rewrite Hw, Hf, Hs, elem_of_app, list_elem_of_singleton. intros [Hin|[= <- _]]; [by apply Ht|done].
Qed.
(** A worker that is in time makes its kind busy. *)
Lemma not_busy_idle k m : in_time m → tracked k m → busy k m = false → ∀ t, (k, t) ∉ workers m.
Proof.
  intros Hin [_ Ht] Hb t Hw. destruct (Ht t Hw) as [Hf ->]. unfold in_time in Hin. rewrite Forall_forall in Hin. specialize (Hin _ Hw). cbn in Hin.
  unfold busy in Hb. rewrite Hf in Hb. cbn in Hb. apply Z.ltb_ge in Hb. lia.
Qed.
Lemma tracked_done k i k' t m m' : workers m !! i = Some (k', t) → workers m' = delete i (workers m) →
  (k' = k ∨ flag k m' = flag k m ∧ started k m' = started k m) → tracked k m → tracked k m'.
Proof.
  intros Hi Hw Hcase [Hr Ht]. pose proof (running_after_delete k k' t i m (workers m') Hi Hw) as Hlen. fold (running k m') in Hlen.
  destruct (decide (k' = k)) as [->|Hne].
  - apply tracked_idle, running_zero. lia.
  - destruct Hcase as [?|[Hf Hs]]; [done|]. split; [lia|]. intros t'. rewrite Hw, Hf, Hs. intros Hin. by apply Ht, (sublist_subseteq _ _ (sublist_delete (workers m) i)).
Qed.

Lemma check_cases starts m : let '(r, m') := check starts m in
  (m' = m ∧ ¬ was_admitted r) ∨
  (closed m = false ∧ busy KCheck m = false ∧ flag KCheck m' = true ∧ started KCheck m' = monotonic m ∧ flag KInstall m' = flag KInstall m ∧
   started KInstall m' = started KInstall m ∧ monotonic m' = monotonic m ∧
   if starts then workers m' = workers m ++ [(KCheck, monotonic m)] else workers m' = workers m).
Proof.
  unfold check. destruct (closed m) eqn:Hc; [left; split; [done|]; by intros [what [=]]|].
  destruct (busy_checking m) eqn:Hb; [left; split; [done|]; by intros [what [=]]|]. unfold start_worker. destruct starts; by right.
Qed.
Lemma install_cases starts m : let '(r, m') := install starts m in
  (m' = m ∧ ¬ was_admitted r) ∨
  (closed m = false ∧ busy KCheck m = false ∧ busy KInstall m = false ∧ flag KInstall m' = true ∧ started KInstall m' = monotonic m ∧
   flag KCheck m' = flag KCheck m ∧ started KCheck m' = started KCheck m ∧ monotonic m' = monotonic m ∧
   if starts then workers m' = workers m ++ [(KInstall, monotonic m)] else workers m' = workers m).
Proof.
  unfold install. destruct (closed m) eqn:Hc; [left; split; [done|]; by intros [what [=]]|].
  destruct (busy_installing m) eqn:Hb; [left; split; [done|]; by intros [what [=]]|].
  destruct (busy_checking m) eqn:Hb'; [left; split; [done|]; by intros [what [=]]|]. unfold start_worker. destruct starts; by right.
Qed.
Lemma start_tracked (starts : bool) k k' m m' : in_time m → tracked k m → tracked k' m → k' ≠ k → busy k m = false →
  flag k m' = true → started k m' = monotonic m → flag k' m' = flag k' m → started k' m' = started k' m →
  (if starts then workers m' = workers m ++ [(k, monotonic m)] else workers m' = workers m) → tracked k m' ∧ tracked k' m'.
Proof.
  intros Hin Hk Hk' Hne Hb Hf Hs Hf' Hs' Hw. pose proof (not_busy_idle k m Hin Hk Hb) as Hno. destruct starts.
  - split; [apply (tracked_starts k m); [done|by rewrite Hs|done]|by eapply (tracked_other k' k)].
  - split; [apply tracked_idle; by rewrite Hw|by eapply (running_flags k' m)].
Qed.

Section Exclusion.
Context `{UnicodeDB}.

Lemma step_tracked e m : in_time m → tracked KCheck m → tracked KInstall m → tracked KCheck (event_step e m) ∧ tracked KInstall (event_step e m).
Proof.
  intros Hin Hc Hi. destruct e as [starts|starts|i o|d|]; cbn [event_step].
  - pose proof (check_cases starts m) as Hx. destruct (check starts m) as [r m']. cbn [snd].
    destruct Hx as [[-> _]|(_ & Hb & Hf & Hs & Hf' & Hs' & _ & Hw)]; [done|]. by apply (start_tracked starts KCheck KInstall m).
  - pose proof (install_cases starts m) as Hx. destruct (install starts m) as [r m']. cbn [snd].
    destruct Hx as [[-> _]|(_ & _ & Hb & Hf & Hs & Hf' & Hs' & _ & Hw)]; [done|]. apply and_comm. by apply (start_tracked starts KInstall KCheck m).
  - destruct (workers m !! i) as [[k t]|] eqn:Hw; [|done].
    split; eapply (tracked_done _ i k t m); try done; destruct k; cbn; auto.
  - split; by eapply running_flags.
  - split; by eapply running_flags.
Qed.
(** A set flag was set in the past. *)
Definition past (m : manager) : Prop := ∀ k, flag k m = true → started k m ≤ monotonic m.
Lemma step_past e m : past m → past (event_step e m).
Proof.
  intros Hp k. destruct e as [starts|starts|i o|d|]; cbn [event_step].
  - pose proof (check_cases starts m) as Hx. destruct (check starts m) as [r m']. cbn [snd].
    destruct Hx as [[-> _]|(_ & _ & _ & Hs & Hf' & Hs' & Hm & _)]; [apply Hp|]. destruct k; rewrite ?Hs, ?Hf', ?Hs', Hm; [lia|apply Hp].
  - pose proof (install_cases starts m) as Hx. destruct (install starts m) as [r m']. cbn [snd].
    destruct Hx as [[-> _]|(_ & _ & _ & _ & Hs & Hf' & Hs' & Hm & _)]; [apply Hp|]. destruct k; rewrite ?Hs, ?Hf', ?Hs', Hm; [apply Hp|lia].
  - destruct (workers m !! i) as [[k' t]|]; [|apply Hp]. specialize (Hp k). destruct k', k; cbn in *; try done; exact Hp.
  - intros Hf. change (started k m ≤ monotonic m + Z.of_nat d). specialize (Hp k Hf). lia.
  - specialize (Hp k). by destruct k.
Qed.
Lemma prefixes_in_time events e m : (∀ n, in_time (run_events (take n (events ++ [e])) m)) → ∀ n, in_time (run_events (take n events) m).
Proof.
  intros Hin k. specialize (Hin (Nat.min k (length events))). rewrite take_app_le in Hin by lia.
  destruct (le_ge_dec k (length events)); [by rewrite Nat.min_l in Hin|]. rewrite Nat.min_r in Hin by lia. rewrite take_ge by lia. by rewrite take_ge in Hin.
Qed.
Lemma run_tracked events time : (∀ n, in_time (run_events (take n events) (new_manager time))) →
  tracked KCheck (run_events events (new_manager time)) ∧ tracked KInstall (run_events events (new_manager time)).
Proof.
  induction events as [|e events IH] using rev_ind; [split; (split; [cbn; lia|by intros t ?%not_elem_of_nil])|].
  intros Hrun. pose proof (prefixes_in_time events e _ Hrun) as Hin. unfold run_events. rewrite foldl_snoc. fold (run_events events (new_manager time)).
  destruct (IH Hin). apply step_tracked; try done. specialize (Hin (length events)). by rewrite take_ge in Hin.
Qed.

(** C40: While no action outlives its deadline, at most one check and one install run at a time,
    a check is admitted only when none runs, and an install only when neither runs; and, however
    long actions take and whether or not they end, once nothing was asked for during the deadline
    of a check (an install), a manager that is not shut down admits a check (an install) again. *)
Theorem actions_exclusive events time : let m := run_events events (new_manager time) in
  ((∀ n, in_time (run_events (take n events) (new_manager time))) →
    (running KCheck m ≤ 1)%nat ∧ (running KInstall m ≤ 1)%nat ∧
    (∀ starts, was_admitted (check starts m).1 → running KCheck m = 0%nat) ∧
    (∀ starts, was_admitted (install starts m).1 → running KCheck m = 0%nat ∧ running KInstall m = 0%nat)) ∧
  (∀ d, closed m = false →
    (CHECK_DEADLINE_SECONDS ≤ Z.of_nat d → was_admitted (check true (event_step (ETime d) m)).1) ∧
    (INSTALL_DEADLINE_SECONDS ≤ Z.of_nat d → was_admitted (install true (event_step (ETime d) m)).1)).
Proof.
  intros m. split.
  - intros Hin. destruct (run_tracked events time Hin) as [Hc Hi]. fold m in Hc, Hi.
    assert (in_time m) as Hm by (specialize (Hin (length events)); by rewrite take_ge in Hin).
    split; [apply Hc|]. split; [apply Hi|]. split.
    + intros starts Ha. pose proof (check_cases starts m) as Hx. destruct (check starts m) as [r m']. destruct Hx as [[_ Hno]|(_ & Hb & _)]; [done|].
      apply running_zero. by apply not_busy_idle.
    + intros starts Ha. pose proof (install_cases starts m) as Hx. destruct (install starts m) as [r m']. destruct Hx as [[_ Hno]|(_ & Hb & Hb' & _)]; [done|].
      split; apply running_zero; by apply not_busy_idle.
  - intros d Hcl. assert (past m) as Hp.
    { unfold m. clear. induction events as [|e events IH] using rev_ind; [by intros []|]. unfold run_events. rewrite foldl_snoc. by apply step_past. }
    assert (∀ k, deadline k ≤ Z.of_nat d → busy k (event_step (ETime d) m) = false) as Hidle.
    { intros k Hd. unfold busy. specialize (Hp k). change (flag k (event_step (ETime d) m)) with (flag k m).
      change (started k (event_step (ETime d) m)) with (started k m). change (monotonic (event_step (ETime d) m)) with (monotonic m + Z.of_nat d).
      destruct (flag k m); [|done]. apply Z.ltb_ge. specialize (Hp eq_refl). lia. }
    pose proof (Hidle KCheck) as Hc. pose proof (Hidle KInstall) as Hi. cbn [deadline] in Hc, Hi. split; intros Hd.
    + unfold check. change (closed (event_step (ETime d) m)) with (closed m). rewrite Hcl.
      change (busy_checking (event_step (ETime d) m)) with (busy KCheck (event_step (ETime d) m)). rewrite Hc by done. by eexists.
    + unfold install. change (closed (event_step (ETime d) m)) with (closed m). rewrite Hcl.
      change (busy_checking (event_step (ETime d) m)) with (busy KCheck (event_step (ETime d) m)).
      change (busy_installing (event_step (ETime d) m)) with (busy KInstall (event_step (ETime d) m)).
      rewrite Hi by done. rewrite Hc; [by eexists|]. unfold CHECK_DEADLINE_SECONDS, INSTALL_DEADLINE_SECONDS in *. lia.
Qed.
End Exclusion.
Lemma actions_exclusive_witness : let m := @run_events ascii_db [ECheck true; ETime 60; EDone 0 (OBool true); EInstall true] (new_manager 0) in
  (running KCheck m ≤ 1)%nat ∧ (running KInstall m ≤ 1)%nat ∧ was_admitted (check true (@event_step ascii_db (ETime 900) m)).1.
Proof.
  pose proof (@actions_exclusive ascii_db [ECheck true; ETime 60; EDone 0 (OBool true); EInstall true] 0) as Hx. cbv zeta in Hx.
  destruct Hx as [Hone Hagain]. assert (∀ n, in_time (@run_events ascii_db (take n [ECheck true; ETime 60; EDone 0 (OBool true); EInstall true]) (new_manager 0))) as Hin.
  { intros [|[|[|[|n]]]]; cbn [take]; rewrite ?take_nil; vm_compute; by repeat constructor. }
  destruct (Hone Hin) as (Hc & Hi & _). split; [exact Hc|]. split; [exact Hi|]. destruct (Hagain 900%nat eq_refl) as [Ha _]. apply Ha. vm_compute. congruence.
Defined.

(** A check that outlives its deadline clears, when it ends at last, the flag of the check that
    replaced it: a third one, or an install, is then admitted beside the second, which is young. *)
Lemma overlapping_actions :
  let m := @run_events ascii_db [ECheck true; ETime 900; ECheck true; EDone 0 (OBool true)] (new_manager 0) in
  in_time m ∧ running KCheck m = 1%nat ∧ was_admitted (check true m).1 ∧ was_admitted (install true m).1.
Proof. cbv zeta. split; [vm_compute; by repeat constructor|]. split; [done|]. split; by eexists. Qed.

(** ** What is shown *)

Definition SHOWN_KEYS : list pystr :=
  [u "installed_version"; u "latest_version"; u "release_summary"; u "update_percentage"; u "in_progress"].
Lemma bounded_text `{UnicodeDB} v limit : (length (_bounded v limit) ≤ limit)%nat ∧ Forall (λ c, uc_isprintable c = true) (_bounded v limit).
Proof.
  destruct v; cbn; try (split; [lia|constructor]). split; [rewrite length_take; lia|]. apply Forall_take, strip_Forall, Forall_forall.
  intros c Hc%list_elem_of_In. by apply filter_In in Hc as [_ Hc].
Qed.

Lemma state_name_spec installed latest busy checking installing :
  (state_name installed latest busy checking installing = u "up-to-date" ↔
     (installing = false ∧ busy = false ∧ checking = false) ∧ installed = latest ∧ latest ≠ []) ∧
  (state_name installed latest busy checking installing = u "update-available" ↔
     (installing = false ∧ busy = false ∧ checking = false) ∧ installed ≠ latest ∧ installed ≠ [] ∧ latest ≠ []).
Proof.
  assert (u "installing" ≠ u "up-to-date" ∧ u "checking" ≠ u "up-to-date" ∧ u "unknown" ≠ u "up-to-date" ∧ u "update-available" ≠ u "up-to-date" ∧
    u "installing" ≠ u "update-available" ∧ u "checking" ≠ u "update-available" ∧ u "unknown" ≠ u "update-available") as Hdiff by (split_and!; by vm_compute).
  destruct Hdiff as (? & ? & ? & ? & ? & ? & ?). unfold state_name. destruct installing, busy, checking; cbn [orb];
    try (split; (split; [congruence|by intros ((? & ? & ?) & _)])).
  destruct installed as [|a i], latest as [|b t]; try (split; (split; [congruence|by intros (_ & ? & ?); destruct_and?])).
  case_bool_decide; (split; (split; [intros He|intros (_ & ? & ?)])); split_and?; congruence.
Qed.

(** The view of the updates has exactly its twelve fields; its version and its summary are
    short printable text; it is the same for every state document that agrees on the five fields
    it shows, so that the address of a release or any other entry never reaches it; and it says
    that the appliance is up to date exactly when nothing runs and a version is installed that is
    the latest one, and that an update is available only when there is another one. *)
Theorem view_hides_source `{UnicodeDB} float_of_int state identity now last checking installing configured view :
  build_update_view float_of_int state identity now last checking installing configured = Ret view →
  view.*1 = map VStr VIEW_KEYS ∧
  (∃ t, get_key (u "latest_version") view = VStr t ∧ Z.of_nat (length t) ≤ Updater.MAX_VERSION_LENGTH ∧ Forall (λ c, uc_isprintable c = true) t) ∧
  (∃ t, get_key (u "release_summary") view = VStr t ∧ (length t ≤ MAX_SUMMARY_CHARS)%nat ∧ Forall (λ c, uc_isprintable c = true) t) ∧
  (∀ state', (∀ key, key ∈ SHOWN_KEYS → get_key key (items state') = get_key key (items state)) →
     build_update_view float_of_int state' identity now last checking installing configured = Ret view) ∧
  let idle := installing = false ∧ truthy (get_key (u "in_progress") (items state)) = false ∧ checking = false in
  let text key := get_key (u key) view in
  (text "state" = VStr (u "up-to-date") ↔ idle ∧ text "installed_version" = text "latest_version" ∧ text "latest_version" ≠ VStr []) ∧
  (text "state" = VStr (u "update-available") ↔ idle ∧ text "installed_version" ≠ text "latest_version" ∧
     text "installed_version" ≠ VStr [] ∧ text "latest_version" ≠ VStr []).
Proof.
  intros Hview. pose proof Hview as Hv. unfold build_update_view in Hv. destruct (float_or_none float_of_int last) as [l|] eqn:Hl; [|done].
  injection Hv as <-. set (latest := _bounded (get_key (u "latest_version") (items state)) _).
  set (installed := _installed_version identity state). set (busy := truthy (get_key (u "in_progress") (items state))).
  split; [reflexivity|]. split; [|split; [|split]].
  - exists latest. destruct (bounded_text (get_key (u "latest_version") (items state)) (Z.to_nat Updater.MAX_VERSION_LENGTH)) as [Hn Hp].
    split; [reflexivity|]. split; [unfold latest, Updater.MAX_VERSION_LENGTH in *; lia|done].
  - eexists. split; [reflexivity|]. apply bounded_text.
  - intros state' Hsame. unfold build_update_view, _installed_version.
    rewrite Hl, !Hsame by (unfold SHOWN_KEYS; rewrite !elem_of_cons; tauto). reflexivity.
  - intros idle text. change (text "state") with (VStr (state_name installed latest busy checking installing)).
    change (text "installed_version") with (VStr installed). change (text "latest_version") with (VStr latest).
    destruct (state_name_spec installed latest busy checking installing) as [H1 H2].
    assert (∀ s t, VStr s = VStr t ↔ s = t) as Hinj by naive_solver. rewrite !Hinj. by split.
Qed.
Lemma view_hides_source_witness : ∃ view,
  @build_update_view ascii_db (λ _, Raise OtherError)
    (VDict [(VStr (u "release_url"), VStr (u "https://x/y")); (VStr (u "latest_version"), VStr (u "1.2.4"))])
    (VDict [(VStr (u "version"), VStr (u "1.2.3"))]) (VInt 0) VNone false false true = Ret view ∧
  get_key (u "state") view = VStr (u "update-available") ∧
  @build_update_view ascii_db (λ _, Raise OtherError) (VDict [(VStr (u "latest_version"), VStr (u "1.2.4"))])
    (VDict [(VStr (u "version"), VStr (u "1.2.3"))]) (VInt 0) VNone false false true = Ret view.
Proof.
  destruct (@build_update_view ascii_db (λ _, Raise OtherError) (VDict [(VStr (u "release_url"), VStr (u "https://x/y")); (VStr (u "latest_version"), VStr (u "1.2.4"))])
    (VDict [(VStr (u "version"), VStr (u "1.2.3"))]) (VInt 0) VNone false false true) as [view|] eqn:Hv; [|by vm_compute in Hv].
  exists view. destruct (@view_hides_source ascii_db _ _ _ _ _ _ _ _ _ Hv) as (_ & _ & _ & Hsame & _). split; [reflexivity|].
  split; [vm_compute in Hv; injection Hv as <-; by vm_compute|]. apply Hsame. intros key Hk.
  unfold SHOWN_KEYS in Hk. rewrite !elem_of_cons in Hk. destruct Hk as [->|[->|[->|[->|[->|Hk%not_elem_of_nil]]]]]; done.
Defined.
